(* ===== verification/_CoqProject ===== *)
-Q . S2P
Prelude.v
PyText.v
Errors.v
PyNum.v
PyFloat.v
PyTime.v
PyRe.v
PyUuid.v
PySha.v
PyUrl.v
PyJson.v
Models.v
Hashing.v
HashingSpec.v
Ledger.v
Units.v
Books.v
LedgerSpec.v
Lease.v
Settlement.v
Emitter.v
AuditChain.v
AuditSpec.v
Tamper.v
Delivery.v
Pool.v
Caveats.v
Datalogic.v
Tokens.v
Attribution.v
Attenuation.v
Decide.v
Revocation.v
RevocationSpec.v
Escalation.v
EscalationSpec.v
Bundles.v
BundlesSpec.v
PyUuidSpec.v
CedarPolicy.v
PolicyCache.v
PolicySpec.v
Extractor.v
ExtractorSpec.v
Drift.v
PyFloatSpec.v
DriftSpec.v
Pipeline.v
PipelineSpec.v
Gateway.v
GatewaySpec.v
Recognizer.v
Layout.v
Shapes.v
RecognizerSpec.v
Service.v
ServiceSpec.v
Chains.v
Sdk.v
SdkSpec.v
Tasks.v
TasksSpec.v
Corpus.v
Console.v
ConsoleSpec.v
Backends.v
BackendsSpec.v
Reports.v
ReportsSpec.v
Dashboard.v
DashboardSpec.v
Tree.v
TreeSpec.v
Operations.v
OperationsSpec.v
Stage.v
StageSpec.v
Measure.v
Generators.v
GeneratorsSpec.v
