(* ===== verification/Prelude.v ===== *)
(** * AgentIAM, verified

    AgentIAM gives AI agents delegated, attenuable authority over tools and money.  A
    control plane mints mandates (biscuit tokens), keeps a budget ledger, an audit chain,
    escalations and revocations; a policy enforcement point (PEP) verifies each request,
    decides it, reserves the money it needs from a lease, records the decision and
    forwards it.  Around that core stand a console, an SDK, reports over the audit chain
    and the ledger, and the scripts of a demonstration.  This library models them and proves
    what makes them correct.  The definitions are translations of the Python under
    src/packages and src/scripts; each file below names the modules it models, and keeps
    their function names.  A file [XSpec] holds the theorems about the definitions of [X].

    ** How to read it

    Definitions are executable: [vm_compute] runs a request through the pipeline.  A call
    that may raise returns [res exn A] ([py A]); a stateful object or a database is a
    value passed in and returned, so a transaction is a function from the database before
    to an outcome and the database after; code that awaits is cut at its awaits, and
    histories of the pieces in any order are step relations.  Clock readings, fresh ids
    and randomness are arguments.  Money that is stored or validated is a whole number of
    1/10000 units, an amount on its way to the ledger and an argument value a [decimal]
    (PyNum), an instant a number of microseconds, a string a list of code points (PyText).  An f-string is its template with its arguments ([fstr]).

    What is not the program's code is a parameter, a class whose fields are what the
    program calls and whose laws, where a proof needs one, are what its documentation
    promises: [BiscuitLib] (Tokens), [Unicode] and [SortTies] (Hashing), [Casing] and
    [Routing] (Extractor), [Ed25519] (Bundles), [Cedar] and [PyRepr] (CedarPolicy),
    [Bloom] (Revocation), [AuditRecord] (AuditChain), [AppendOnly] (Chains), [Folding]
    (Drift), [JsonbText] (Reports), [Collation] (Dashboard) and [SqlOrder] (Tree).  Inside
    the program, the four oracles of a decision (Decide), the [EscalationSink] (Pipeline)
    and the [Upstream] (Gateway) are interfaces, for which the program's own
    implementations are instances.  Witnesses instantiate each of them.

    ** The language

    - PyText, PyNum, PyFloat, PyTime, PyRe, PyUuid, PySha, PyUrl, PyJson: what the source
      uses of strings, [decimal], binary64 [float], dates, [re], [uuid], [hashlib],
      [urllib.parse] and [json], with round trips and injectivity where the components need
      them (PyUuidSpec: a UUID's text reads back; PyFloatSpec: rounding stays in bounds).
    - Errors: the closed [ReasonCode] enum and the exceptions (core and control-plane
      errors.py).  Models: the pydantic models (core/models.py) as records with checked
      constructors.

    ** Authority: agentiam_core

    - Caveats, Datalogic (caveats.py): nine kinds of caveat, compiled to Datalog text and
      evaluated in Python; the text, read by the documented semantics of biscuit, agrees
      with the evaluator.
    - Tokens, Attribution (tokens.py): minting text, verification, and which check of
      which block refused, read back from biscuit's message.  Chains: what appending a block
      changes of a token, nothing but its depth ([AppendOnly]).
    - Attenuation (attenuation.py): narrowing is sound, a child is minted only if it
      narrows, and the effective bound of a chain is exact.
    - Recognizer, Layout, Shapes, RecognizerSpec (datalog.py): reading a token's blocks
      back; what attenuate appends reads back as itself, and nothing is dropped.
    - Decide (decision.py): steps 3 to 7 of a request; allowed exactly when every step
      permits, and answered by the first step that ends the decision, each step's ending
      condition and answer being a rule of [ends].
    - Hashing, HashingSpec (hashing.py): canonical bytes determine a value; digests.
    - Bundles, BundlesSpec (bundles.py): signed policy bundles.
    - Drift, DriftSpec (drift_features.py, pep drift.py): the features of a request and the
      score a strict request escalates on, exactly when the vectors the model answered for the
      two texts have a cosine under 0.3.

    ** Money: the ledger and the PEP's leases

    - Ledger (db/models.py, db/ledger.py): acquire, release, reap, settle and split as
      transactions under the schema's constraints, computing with [Decimal]s on the objects
      of a session that a flush rounds into the columns.  Units: the same operations on
      whole units, on which nothing rounds.  Books (db/invariants.py): the checker, the
      agreement of the two, and the invariant every operation preserves.  LedgerSpec: no
      history of whole amounts can make the checker report anything (a finer one can),
      spend is bounded through delegation, each operation does exactly what it says on
      every branch.
    - Lease, Pool (pep lease.py, pool.py), Settlement (settlement.py, settlement_sink.py):
      spending locally, replacing leases in the background, and settling to the ledger.

    ** Evidence

    - Emitter (emitter.py), AuditChain, AuditSpec, Tamper, Delivery (db/audit.py,
      audit_sink.py): a bounded buffer, a hash chain, what tampering it finds and where, what
      an append during a verification does to it ([chain_reads]), and that what the emitter reports written is in the chain once and in order.

    ** Control

    - Revocation, RevocationSpec (pep revocation.py, db/revocations.py,
      revocations_api.py): a PEP that pulls answers as the table does, or refuses.
    - Escalation, EscalationSpec (core escalation.py, db/escalations.py,
      escalations_api.py): an approval grants no more than was asked, once.
    - CedarPolicy, PolicyCache, PolicySpec (pep policy.py, policy_cache.py, activation.py,
      core policy_testing.py): only verified, advancing, tested bundles are served.

    ** A request

    - Extractor, ExtractorSpec (pep extractor.py): scope, tool and arguments, ambiguity
      refused.
    - Pipeline, PipelineSpec (pep pipeline.py): authorize and settle, the composition of
      everything above: a forwarded request was permitted, holds exactly its amount and is
      on record; a refused one holds nothing.
    - Gateway, GatewaySpec (pep app.py, headers.py): the reverse proxy around the
      pipeline; only authorized requests reach the upstream, every answer is counted, and a
      delivered one is settled, whatever ran while the upstream was awaited.
    - Service, ServiceSpec (scripts/pep_service.py, pep config.py): settings, role
      assignments and the composition root.

    ** Operators, agents and developers

    - Sdk, SdkSpec (agentiam_sdk): an agent's identity, its offline attenuation, the ambient
      identity and the scope decorator; a scope refused locally the PEP refuses.
    - Tasks, TasksSpec (tasks.py), Console, ConsoleSpec (settings.py, auth.py, demo_auth.py,
      app.py), Corpus (core corpus.py): starting tasks, signing in, and the editor that
      serves a policy only if it passes the corpus.
    - Backends, BackendsSpec (nl_compiler): choosing a language model, retrying it while
      it may and no longer, reading its answer; Console evaluates what it generated.

    ** Reports

    - Reports, ReportsSpec (db/decisions.py, decisions_api.py, db/audit_search.py,
      audit_api.py, db/decision_metrics.py): a stream shows each matching decision once and
      in order however it is cut.
    - Dashboard, DashboardSpec (db/budget_dashboard.py, budgets_api.py, metrics_api.py): in
      every reachable ledger the gauges are the pools, the page's queries each reading its
      own.
    - Tree, TreeSpec (db/tree.py, tree_api.py): the identity tree is the newest record of
      each chain, all of one generation unless every one is asked for, and the stream of differences keeps a client's copy equal to it.

    ** Operation and demonstration

    - Operations, OperationsSpec (scripts/run_invariant_checker.py, verify_audit_chain.py,
      demo_tamper.py): the exit codes of the checker and of the verification, red exactly
      while the demonstration's edit is in place.
    - Stage (agentiam_demo/tools.py, scripts/bootstrap_demo_secrets.py, seed_demo.py,
      serve_pep.py's routes and budget, demo_concurrency.py), StageSpec: what
      bootstrap writes the service loads, every staged agent holds less than its parent, each
      call of the traffic meets the layer its label names, and the race says its budget was
      held exactly when no more was allowed than the pool is worth.

    ** Measurements and generated documents

    - Measure (scripts/evaluate_compiler.py, run_load_test.py and the server of
      serve_pep.py): the dataset's check is green exactly when every
      reference policy gives every expected verdict, every case of an evaluation is counted
      once, a rate meets the budget only if every run of it did, and the server measured
      resolves principals and caveats as the deployed one does.
    - Generators (scripts/generate_chaos_results.py, generate_benchmark_results.py,
      generate_sbom.py, generate_evidence_pack.py), GeneratorsSpec: nothing a
      chaos run found is left out, what a file holds never becomes markup, and a check
      passes exactly on the document that would be written, but for line ends.

    ** Fuel and bounds

    [json_value] takes two units of fuel per character and two more ([json_fuel] proves it
    enough); [utf8_read], [unquote_runs] and [numbers_from] one per character; the matcher
    of PyRe and the drains take a bound proved sufficient where they are defined
    ([drain_fuel]).  SHA-256 and the encoders recurse on their input.  Reapers, sweeps and
    walks recurse on the table's rows; streams, polls and loops that run until they are
    stopped recurse on the list of what happens to them.  A payment of the race recurses on
    its 40 attempts, a compiler's retries on the attempts the source allows.

    ** Not modelled, and why

    Third-party code (biscuit, Cedar, Ed25519, SQLAlchemy, Redis, FastAPI, pydantic's
    dumping), sockets, sleeping, tracing and logging.  A transaction is atomic and
    serialized, as the row locks of the source make it; what the source leaves unlocked is
    cut at that point: a revocation's insert and commit, a pool's awaits, the reads of a
    verification ([chain_reads]) and of the dashboard ([ledger_reads]), and the wait for the
    upstream ([during]).  Migrations
    restate the constraints of db/models.py.  What language models answer is an argument;
    their prompts are left out.  The console's HTML, the layout of what scripts print and
    argparse hold no state.  Tracing sets up OpenTelemetry.
*)

From stdpp Require Export base tactics decidable countable numbers option list
  sorting strings fin_maps fin_sets gmap sets.
From Stdlib Require Export ZArith Lia.

#[global] Open Scope Z_scope.
#[global] Set Default Goal Selector "!".

(** ** Errors as values

    A Python call returns a value or raises; [res E A] is that outcome, with the
    exception type [E] left to the component.  The monad instances give
    stdpp's [x ← m; k] notation its usual meaning: the first exception wins. *)
Inductive res (E A : Type) : Type :=
| Ok (a : A)
| Raise (e : E).
Arguments Ok {E A} a.
Arguments Raise {E A} e.

#[global] Instance res_ret {E} : MRet (res E) := λ A a, Ok a.
#[global] Instance res_bind {E} : MBind (res E) := λ A B f m,
  match m with Ok a => f a | Raise e => Raise e end.
#[global] Instance res_fmap {E} : FMap (res E) := λ A B f m,
  match m with Ok a => Ok (f a) | Raise e => Raise e end.

#[global] Instance res_eq_dec {E A} `{EqDecision E, EqDecision A} : EqDecision (res E A).
Proof. solve_decision. Defined.

(** [raise_if b e] is Python's [if b: raise e]. *)
Definition raise_if {E} (b : bool) (e : E) : res E unit :=
  if b then Raise e else Ok tt.

Definition is_ok {E A} (m : res E A) : bool :=
  match m with Ok _ => true | Raise _ => false end.

(** Unlike [injection], it leaves the values as they are written. *)
Lemma Ok_inj {E A} (a b : A) : Ok (E := E) a = Ok b → a = b.
Proof. by intros [=]. Qed.

Lemma is_ok_Ok {E A} (m : res E A) : is_ok m = true → ∃ a, m = Ok a.
Proof. destruct m; [by eexists|done]. Qed.

Lemma bind_Ok_inv {E A B} (m : res E A) (f : A → res E B) b :
  (m ≫= f) = Ok b → ∃ a, m = Ok a ∧ f a = Ok b.
Proof. destruct m as [a|e]; [by eauto | done]. Qed.

Lemma raise_if_Ok {E} (b : bool) (e : E) u : raise_if b e = Ok u → b = false.
Proof. by destruct b. Qed.

Lemma fmap_Ok_inv {E A B} (f : A → B) (m : res E A) b :
  (f <$> m) = Ok b → ∃ a, m = Ok a ∧ b = f a.
Proof. destruct m as [a|e]; [|done]. intros [= <-]. by eauto. Qed.

(** Monadic traversal, in order, stopping at the first exception. *)
Fixpoint res_map {E A B} (f : A → res E B) (l : list A) : res E (list B) :=
  match l with
  | [] => Ok []
  | x :: l => y ← f x; ys ← res_map f l; Ok (y :: ys)
  end.

Lemma res_map_Forall2 {E A B} (f : A → res E B) l k :
  res_map f l = Ok k → Forall2 (λ a b, f a = Ok b) l k.
Proof.
  revert k. induction l as [|x l IH]; intros k; simpl.
  - by intros [= <-].
  - intros (y & Hy & (ys & Hys & [= <-])%bind_Ok_inv)%bind_Ok_inv. auto.
Qed.

(** [inv_ok] takes apart an [_ = Ok _] hypothesis built from binds and guards. *)
Ltac inv_ok :=
  repeat match goal with
  | H : mbind _ _ = Ok _ |- _ =>
      let a := fresh "a" in let H1 := fresh "H" in let H2 := fresh "H" in
      apply bind_Ok_inv in H as (a & H1 & H2)
  | H : (λ _, _) _ = Ok _ |- _ => cbv beta in H
  | H : raise_if _ _ = Ok _ |- _ => apply raise_if_Ok in H
  | H : Ok _ = Ok _ |- _ => injection H as H
  | H : Raise _ = Ok _ |- _ => discriminate H
  | H : Ok _ = Raise _ |- _ => discriminate H
  end; subst.

(** ** Boolean comparisons

    [zify_bool] turns every boolean comparison on [Z] in the context and the goal
    into its proposition; [blia] then decides linear goals. *)
Ltac zify_bool :=
  repeat match goal with
  | H : (_ && _) = true |- _ => apply andb_true_iff in H as [? ?]
  | H : (_ && _) = false |- _ => apply andb_false_iff in H
  | H : (_ || _) = false |- _ => apply orb_false_iff in H as [? ?]
  | H : (_ || _) = true |- _ => apply orb_true_iff in H
  | H : negb _ = true |- _ => apply negb_true_iff in H
  | H : negb _ = false |- _ => apply negb_false_iff in H
  | H : (_ <? _) = true |- _ => apply Z.ltb_lt in H
  | H : (_ <? _) = false |- _ => apply Z.ltb_ge in H
  | H : (_ <=? _) = true |- _ => apply Z.leb_le in H
  | H : (_ <=? _) = false |- _ => apply Z.leb_gt in H
  | H : (_ =? _) = true |- _ => apply Z.eqb_eq in H
  | H : (_ =? _) = false |- _ => apply Z.eqb_neq in H
  | |- (_ <? _) = true => apply Z.ltb_lt
  | |- (_ <? _) = false => apply Z.ltb_ge
  | |- (_ <=? _) = true => apply Z.leb_le
  | |- (_ <=? _) = false => apply Z.leb_gt
  | |- (_ =? _) = true => apply Z.eqb_eq
  | |- (_ =? _) = false => apply Z.eqb_neq
  end.
Ltac blia := zify_bool; lia.

(** ** Sums over finite maps

    [msum f m] is the sum of [f k v] over the entries of [m]; it is what the
    ledger's aggregate queries compute. *)
Section msum.
Context {K A : Type} `{Countable K}.
Implicit Types (f : K → A → Z) (m : gmap K A).

Definition msum f m : Z := map_fold (λ k a acc, f k a + acc) 0 m.

Lemma msum_empty f : msum f ∅ = 0.
Proof. apply map_fold_empty. Qed.

Lemma msum_insert f m k a :
  m !! k = None → msum f (<[k:=a]> m) = f k a + msum f m.
Proof.
  intros Hk. unfold msum.
  rewrite (map_fold_insert_L (λ k a acc, f k a + acc)); [done| |done].
  intros; lia.
Qed.

Lemma msum_delete f m k a :
  m !! k = Some a → msum f m = f k a + msum f (delete k m).
Proof.
  intros Hk. rewrite <- (insert_delete_id m k a) at 1 by done.
  rewrite msum_insert by apply lookup_delete_eq. done.
Qed.

(** Overwriting an entry moves the sum by the difference. *)
Lemma msum_update f m k a b :
  m !! k = Some a → msum f (<[k:=b]> m) = msum f m - f k a + f k b.
Proof.
  intros Hk. rewrite (msum_delete f m k a) by done.
  rewrite <- (insert_delete_eq m).
  rewrite msum_insert by apply lookup_delete_eq. lia.
Qed.

Lemma msum_ext f g m :
  (∀ k a, m !! k = Some a → f k a = g k a) → msum f m = msum g m.
Proof.
  induction m as [|k a m Hk IH] using map_ind; intros Hfg; [done|].
  rewrite !msum_insert by done. f_equal.
  - apply Hfg, lookup_insert_eq.
  - apply IH. intros k' a' Hk'. apply Hfg.
    rewrite lookup_insert_ne; [done|]. by intros ->; simplify_eq.
Qed.

Lemma msum_nonneg f m :
  (∀ k a, m !! k = Some a → 0 <= f k a) → 0 <= msum f m.
Proof.
  induction m as [|k a m Hk IH] using map_ind; intros Hf; [done|].
  rewrite msum_insert by done.
  assert (0 <= f k a) by apply Hf, lookup_insert_eq.
  assert (0 <= msum f m); [|lia].
  apply IH. intros k' a' Hk'. apply Hf.
  rewrite lookup_insert_ne; [done|]. by intros ->; simplify_eq.
Qed.

Lemma msum_zero f m :
  (∀ k a, m !! k = Some a → f k a = 0) → msum f m = 0.
Proof.
  intros Hf. rewrite (msum_ext f (λ _ _, 0)) by done.
  induction m as [|k a m Hk IH] using map_ind; [done|].
  rewrite msum_insert by done. rewrite IH; [done|].
  intros k' a' Hk'. apply (Hf k').
  rewrite lookup_insert_ne; [done|]. by intros ->; simplify_eq.
Qed.

(** One non-negative entry is at most the whole sum. *)
Lemma msum_entry_le f m k a :
  (∀ k a, m !! k = Some a → 0 <= f k a) → m !! k = Some a → f k a <= msum f m.
Proof.
  intros Hf Hk. rewrite (msum_delete f m k a) by done.
  assert (0 <= msum f (delete k m)); [|lia].
  apply msum_nonneg. intros k' a' [_ ?]%lookup_delete_Some. by apply Hf.
Qed.
End msum.

(** Sums over lists, for the parts of the code that fold over a sequence. *)
Definition lsum (l : list Z) : Z := foldr Z.add 0 l.

Lemma lsum_app l k : lsum (l ++ k) = lsum l + lsum k.
Proof. induction l; simpl; lia. Qed.

(** A filter that keeps everything, and one that keeps nothing. *)
Lemma filter_all {A} (P : A → Prop) `{∀ x, Decision (P x)} l : Forall P l → filter P l = l.
Proof. induction 1; [done|]. rewrite filter_cons_True by done. by f_equal. Qed.
Lemma filter_none {A} (P : A → Prop) `{∀ x, Decision (P x)} l : Forall (λ x, ¬ P x) l → filter P l = [].
Proof. induction 1; [done|]. by rewrite filter_cons_False by done. Qed.

Create HintDb agentiam.
#[export] Hint Rewrite @msum_empty lsum_app : agentiam.

(** ** Steps on a state that may raise

    [st S E A] takes the state before to an outcome and the state after, which an
    exception keeps: what a method of a mutable object does. *)
Definition st (S E A : Type) : Type := S → res E A * S.
#[global] Instance st_ret {S E} : MRet (st S E) := λ A a w, (Ok a, w).
#[global] Instance st_bind {S E} : MBind (st S E) := λ A B f m w,
  match m w with (Ok a, w) => f a w | (Raise e, w) => (Raise e, w) end.

Definition lift {S E A} (m : res E A) : st S E A := λ w, (m, w).
(** [try: m except e: ...]; an exception the handler declines goes on. *)
Definition m_try {S E A} (m : st S E A) (handler : E → option (st S E A)) : st S E A := λ w,
  match m w with
  | (Raise e, w') => match handler e with Some k => k w' | None => (Raise e, w') end
  | r => r
  end.

(** Running a sequence that answers runs each part. *)
Lemma st_bind_inv {S E A B} (m : st S E A) (f : A → st S E B) w b w' :
  (m ≫= f) w = (Ok b, w') → ∃ a w1, m w = (Ok a, w1) ∧ f a w1 = (Ok b, w').
Proof. unfold mbind, st_bind. destruct (m w) as [[a|e] w1]; [eauto|done]. Qed.

Lemma st_ret_inv {S E A} (a b : A) w w' : (mret a : st S E A) w = (Ok b, w') → b = a ∧ w' = w.
Proof. by intros [= -> ->]. Qed.

Lemma lift_inv {S E A} (m : res E A) (w : S) b w' : lift m w = (Ok b, w') → m = Ok b ∧ w' = w.
Proof. by intros [= -> ->]. Qed.

Lemma m_try_inv {S E A} (m : st S E A) h w b w' :
  m_try m h w = (Ok b, w') →
  m w = (Ok b, w') ∨ ∃ e w1 k, m w = (Raise e, w1) ∧ h e = Some k ∧ k w1 = (Ok b, w').
Proof.
  unfold m_try. destruct (m w) as [[a|e] w1]; [by left|]. destruct (h e) as [k|] eqn:Eh; [|done].
  intros H. right. eauto 10.
Qed.
