(* ===== verification/PyText.v ===== *)
(** * Python strings

    A Python [str] is a sequence of code points, [pystr := list Z].  This file
    holds what the source uses of [str]: ASCII literals, escaping by
    [str.replace], [join], prefixes, the code-point order [sorted] uses, and
    decimal integers ([str(n)], [int(s)]) with their round trip.  Nothing here
    is part of the program; it models the language. *)
From Stdlib Require Import Ascii DecimalFacts DecimalZ DecimalN DecimalPos.
From S2P Require Import Prelude.

Abbreviation pystr := (list Z).
(** UUIDs, opaque identifiers to every operation of the program. *)
Abbreviation uuid := N.

(** ASCII literals. *)
Definition chr (a : ascii) : Z := Z.of_N (N_of_ascii a).
Fixpoint u (s : string) : pystr :=
  match s with
  | EmptyString => []
  | String a s => chr a :: u s
  end.
Arguments u s%_string.

Definition dquote : Z := 34.
Definition backslash : Z := 92.
Definition newline : Z := 10.

(** ** Code-point order *)
Fixpoint pystr_leb (s t : pystr) : bool :=
  match s, t with
  | [], _ => true
  | _ :: _, [] => false
  | a :: s, b :: t => if a <? b then true else if b <? a then false else pystr_leb s t
  end.
Definition pystr_le (s t : pystr) : Prop := pystr_leb s t = true.

#[global] Instance pystr_le_dec : RelDecision pystr_le.
Proof. intros s t. unfold pystr_le. apply _. Defined.

Lemma pystr_leb_refl s : pystr_leb s s = true.
Proof. induction s as [|a s IH]; simpl; [done|]. by rewrite Z.ltb_irrefl. Qed.

Lemma pystr_leb_total s t : pystr_leb s t = true ∨ pystr_leb t s = true.
Proof.
  revert t. induction s as [|a s IH]; intros [|b t]; simpl; auto.
  destruct (Z.ltb_spec a b), (Z.ltb_spec b a); auto; lia.
Qed.

Lemma pystr_leb_trans s t r :
  pystr_leb s t = true → pystr_leb t r = true → pystr_leb s r = true.
Proof.
  revert t r. induction s as [|a s IH]; intros [|b t] [|c r]; simpl; auto; try done.
  destruct (Z.ltb_spec a b), (Z.ltb_spec b a), (Z.ltb_spec b c), (Z.ltb_spec c b),
    (Z.ltb_spec a c), (Z.ltb_spec c a); try done; try lia; eauto.
Qed.

Lemma pystr_leb_antisym s t :
  pystr_leb s t = true → pystr_leb t s = true → s = t.
Proof.
  revert t. induction s as [|a s IH]; intros [|b t]; simpl; auto; try done.
  destruct (Z.ltb_spec a b), (Z.ltb_spec b a); try done; try lia.
  intros. f_equal; [lia|auto].
Qed.

#[global] Instance pystr_le_trans : Transitive pystr_le.
Proof. intros s t r. apply pystr_leb_trans. Qed.
#[global] Instance pystr_le_total : Total pystr_le.
Proof. intros s t. apply pystr_leb_total. Qed.
#[global] Instance pystr_le_antisym : AntiSymm (=) pystr_le.
Proof. intros s t. apply pystr_leb_antisym. Qed.

(** [sorted(xs)] on strings. *)
Definition py_sorted (l : list pystr) : list pystr := merge_sort pystr_le l.

Lemma py_sorted_Permutation l : py_sorted l ≡ₚ l.
Proof. apply merge_sort_Permutation. Qed.

Lemma elem_of_py_sorted s l : s ∈ py_sorted l ↔ s ∈ l.
Proof. by rewrite py_sorted_Permutation. Qed.

(** [sorted] depends only on which strings are there, not on their order. *)
Lemma py_sorted_perm l k : l ≡ₚ k → py_sorted l = py_sorted k.
Proof.
  intros Hlk. unfold py_sorted. apply (Sorted_unique pystr_le).
  - apply (Sorted_merge_sort pystr_le).
  - apply (Sorted_merge_sort pystr_le).
  - by rewrite !merge_sort_Permutation.
Qed.

(** ** Joining, prefixes, escaping *)
Fixpoint py_join (sep : pystr) (l : list pystr) : pystr :=
  match l with
  | [] => []
  | [x] => x
  | x :: l => x ++ sep ++ py_join sep l
  end.

Fixpoint starts_with (p s : pystr) : bool :=
  match p, s with
  | [], _ => true
  | _, [] => false
  | a :: p, b :: s => (a =? b) && starts_with p s
  end.

(** The rest of [s] after the prefix [p]. *)
Fixpoint strip_prefix (p s : pystr) : option pystr :=
  match p, s with
  | [], _ => Some s
  | _, [] => None
  | a :: p, b :: s => if a =? b then strip_prefix p s else None
  end.

Lemma strip_prefix_app p s : strip_prefix p (p ++ s) = Some s.
Proof. induction p as [|a p IH]; simpl; [done|]. by rewrite Z.eqb_refl. Qed.

Lemma strip_prefix_Some p s r : strip_prefix p s = Some r → s = p ++ r.
Proof.
  revert s. induction p as [|a p IH]; intros [|b s]; simpl; try congruence.
  destruct (Z.eqb_spec a b) as [->|]; [|done]. intros H. f_equal. auto.
Qed.

(** [s.replace(c, r)] for a one-character [c]. *)
Definition replace_char (c : Z) (r s : pystr) : pystr :=
  s ≫= λ a, if a =? c then r else [a].

Lemma replace_char_app c r s t :
  replace_char c r (s ++ t) = replace_char c r s ++ replace_char c r t.
Proof. apply bind_app. Qed.

(** ** Decimal integers *)
Fixpoint uint_chars (d : Decimal.uint) : pystr :=
  match d with
  | Decimal.Nil => []
  | Decimal.D0 d => 48 :: uint_chars d
  | Decimal.D1 d => 49 :: uint_chars d
  | Decimal.D2 d => 50 :: uint_chars d
  | Decimal.D3 d => 51 :: uint_chars d
  | Decimal.D4 d => 52 :: uint_chars d
  | Decimal.D5 d => 53 :: uint_chars d
  | Decimal.D6 d => 54 :: uint_chars d
  | Decimal.D7 d => 55 :: uint_chars d
  | Decimal.D8 d => 56 :: uint_chars d
  | Decimal.D9 d => 57 :: uint_chars d
  end.

Definition is_digit (c : Z) : bool := (48 <=? c) && (c <=? 57).

(** [str(n)] for an int. *)
Definition py_str_int (z : Z) : pystr :=
  match Z.to_int z with
  | Decimal.Pos d => uint_chars d
  | Decimal.Neg d => 45 :: uint_chars d
  end.

(** The value of a run of ASCII digits. *)
Definition digits_val (s : pystr) : Z := foldl (λ acc c, 10 * acc + (c - 48)) 0 s.

(** [int(s)] on [-?[0-9]+], the shape every caller has already matched. *)
Definition py_int (s : pystr) : Z :=
  match s with
  | 45 :: s => - digits_val s
  | _ => digits_val s
  end.

Lemma uint_chars_digits d : forallb is_digit (uint_chars d) = true.
Proof. by induction d. Qed.

Lemma of_uint_acc_digits d acc :
  Z.pos (Pos.of_uint_acc d acc) = foldl (λ a c, 10 * a + (c - 48)) (Z.pos acc) (uint_chars d).
Proof.
  revert acc. induction d; intros acc; [done|..]; cbn [uint_chars foldl Pos.of_uint_acc];
    rewrite IHd; f_equal; lia.
Qed.

Lemma digits_val_uint d : digits_val (uint_chars d) = Z.of_uint d.
Proof.
  unfold digits_val, Z.of_uint.
  induction d; [done|..]; cbn [uint_chars foldl Pos.of_uint]; [done|..];
    exact (eq_sym (of_uint_acc_digits d _)).
Qed.

Lemma uint_chars_nonempty_head d : head (uint_chars d) ≠ Some 45.
Proof. by destruct d. Qed.

Lemma py_int_str z : py_int (py_str_int z) = z.
Proof.
  unfold py_str_int. rewrite <- (DecimalZ.of_to z) at 2.
  destruct (Z.to_int z) as [d|d].
  - change (Z.of_int (Decimal.Pos d)) with (Z.of_uint d). rewrite <- digits_val_uint. pose proof (uint_chars_nonempty_head d).
    destruct d; reflexivity.
  - change (Z.of_int (Decimal.Neg d)) with (- Z.of_uint d). by rewrite <- digits_val_uint.
Qed.

Lemma py_str_int_inj z1 z2 : py_str_int z1 = py_str_int z2 → z1 = z2.
Proof. intros H. rewrite <- (py_int_str z1), <- (py_int_str z2). by rewrite H. Qed.
