(* ===== verification/Errors.v ===== *)
(** * Errors and reason codes

    [ReasonCode] is the closed vocabulary of [agentiam_core.errors]; [exn] lists
    the exceptions the modelled code raises, one constructor per class, with the
    data a handler reads and without the message text.  [exn_reason_code] is the
    [reason_code] attribute each class, or each instance, carries. *)
From S2P Require Import Prelude PyText.

(** agentiam_core/errors.py, [ReasonCode]. *)
Inductive ReasonCode :=
| OK
| TOKEN_INVALID_SIGNATURE | TOKEN_EXPIRED | TOKEN_NOT_YET_VALID | TOKEN_TOO_LARGE
| MALFORMED_REQUEST
| TOKEN_REVOKED | ANCESTOR_REVOKED
| SCOPE_NOT_GRANTED | SCOPE_ATTENUATED_AWAY | TOOL_DENIED | ARG_PREDICATE_FAILED
| DEPTH_EXCEEDED | INTENT_MISMATCH
| BUDGET_EXHAUSTED_MANDATE | BUDGET_EXHAUSTED_CAVEAT | LEASE_UNAVAILABLE
| LEASE_NOT_ACTIVE | RATE_LIMITED
| POLICY_DENIED | POLICY_BUNDLE_STALE | DRIFT_ESCALATION | APPROVAL_REQUIRED
| CONTROL_PLANE_UNAVAILABLE_FAIL_CLOSED | UPSTREAM_ERROR | VERIFICATION_LIMIT_EXCEEDED.

#[global] Instance ReasonCode_eq_dec : EqDecision ReasonCode.
Proof. solve_decision. Defined.

Definition all_reason_codes : list ReasonCode :=
  [OK; TOKEN_INVALID_SIGNATURE; TOKEN_EXPIRED; TOKEN_NOT_YET_VALID; TOKEN_TOO_LARGE;
   MALFORMED_REQUEST; TOKEN_REVOKED; ANCESTOR_REVOKED; SCOPE_NOT_GRANTED;
   SCOPE_ATTENUATED_AWAY; TOOL_DENIED; ARG_PREDICATE_FAILED; DEPTH_EXCEEDED;
   INTENT_MISMATCH; BUDGET_EXHAUSTED_MANDATE; BUDGET_EXHAUSTED_CAVEAT;
   LEASE_UNAVAILABLE; LEASE_NOT_ACTIVE; RATE_LIMITED; POLICY_DENIED;
   POLICY_BUNDLE_STALE; DRIFT_ESCALATION; APPROVAL_REQUIRED;
   CONTROL_PLANE_UNAVAILABLE_FAIL_CLOSED; UPSTREAM_ERROR; VERIFICATION_LIMIT_EXCEEDED].

Lemma elem_of_all_reason_codes r : r ∈ all_reason_codes.
Proof. destruct r; unfold all_reason_codes; set_solver. Qed.

(** Exceptions.  Python's own: [ValueError], [KeyError], [IndexError],
    [TypeError], [OverflowError], [RuntimeError], [decimal]'s two;
    [UnicodeEncodeError], [NotImplementedError], [AssertionError],
    [AttributeError], [StopIteration], [ZeroDivisionError],
    [OSError]; pydantic's [ValidationError]; SQLAlchemy's [NoResultFound],
    [MultipleResultsFound], [IntegrityError], [DataError], [OperationalError]; biscuit's two; the rest are the
    program's. *)
Inductive exn :=
| ValueError | KeyError | IndexError | TypeError | OverflowError | RuntimeError
| DecimalOverflow | InvalidOperation
| ValidationError
| NoResultFound | MultipleResultsFound | IntegrityError | DataError | OperationalError
| UnicodeEncodeError | NotImplementedError | AssertionError | AttributeError | StopIteration | ZeroDivisionError | OSError
(* biscuit_auth *)
| BiscuitAuthorizationError | BiscuitDataLogError
(* agentiam_core.errors *)
| AttenuationError
| MalformedTokenError | InvalidSignatureError | TokenExpiredError | TokenNotYetValidError
| TokenTooLargeError | DepthExceededError | VerificationLimitError
| CaveatError | BudgetError | ScaleError | CanonicalizationError | SinkRejectedRecord
(* agentiam_controlplane.errors *)
| LeaseUnavailableError | LeaseNotActiveError | AllocationError
| EscalationNotFoundError | DuplicateEscalationError (existing decision : uuid)
(* agentiam_pep *)
| ReservationInsufficientError | AuditBufferFullError | ServiceConfigError
| BundleSignatureError | PolicyBundleError | BundleRejected
| ActivationFailed (failing : list pystr)
| ExtractionError (reason : ReasonCode)
| PoolTimeout | Unreachable
(* agentiam_sdk.errors *)
| NoIdentityError | IdentityContextError
| ScopeDeniedError (reason : ReasonCode) (missing_scopes : gset pystr)
(* agentiam_controlplane.tasks, nl_compiler.llm; fastapi *)
| TaskRegistryError | LLMError | HTTPException (status_code : Z)
(* agentiam_core.escalation *)
| EscalationExpired | EscalationNotPending
| ApproverNotAuthorized (approver : pystr) | NarrowingWidensRequest
(* agentiam_core.decision *)
| OracleUnavailable (why : pystr).

#[global] Instance exn_eq_dec : EqDecision exn.
Proof. solve_decision. Defined.

(** Computations that may raise. *)
Abbreviation py := (res exn).

(** The [reason_code] attribute. *)
Definition exn_reason_code (e : exn) : option ReasonCode :=
  match e with
  | MalformedTokenError => Some MALFORMED_REQUEST
  | InvalidSignatureError => Some TOKEN_INVALID_SIGNATURE
  | TokenExpiredError => Some TOKEN_EXPIRED
  | TokenNotYetValidError => Some TOKEN_NOT_YET_VALID
  | TokenTooLargeError => Some TOKEN_TOO_LARGE
  | DepthExceededError => Some DEPTH_EXCEEDED
  | VerificationLimitError => Some VERIFICATION_LIMIT_EXCEEDED
  | LeaseUnavailableError => Some LEASE_UNAVAILABLE
  | LeaseNotActiveError => Some LEASE_NOT_ACTIVE
  | AllocationError => Some BUDGET_EXHAUSTED_MANDATE
  | ReservationInsufficientError => Some LEASE_UNAVAILABLE
  | AuditBufferFullError => Some CONTROL_PLANE_UNAVAILABLE_FAIL_CLOSED
  | BundleSignatureError => Some POLICY_DENIED
  | ScopeDeniedError reason _ => Some reason
  | _ => None
  end.

(** [except TokenError]: the subclasses of [TokenError]. *)
Definition is_TokenError (e : exn) : bool :=
  match e with
  | MalformedTokenError | InvalidSignatureError | TokenExpiredError
  | TokenNotYetValidError | TokenTooLargeError | DepthExceededError
  | VerificationLimitError => true
  | _ => false
  end.
