(* ===== verification/PyNum.v ===== *)
(** * Python's [decimal]

    Finite [Decimal] values are a coefficient and an exponent; comparison is
    exact, multiplication follows the default context (28 significant digits,
    round half even, [Emax] 999999, [Overflow] and [InvalidOperation] trapped).
    Money columns and [Money] fields hold at most four decimal places and are
    the integer number of 1/10000 units throughout the development; [Decimal]
    itself is needed for argument values, which are unbounded.  Nothing here is
    part of the program; it models the standard library. *)
From S2P Require Import Prelude PyText Errors.

(** ** Unicode classes of [str] *)

(** The zero of every run of ten decimal digits ([Nd]) in Unicode 15. *)
Definition unicode_zeros : list Z :=
  [48;1632;1776;1984;2406;2534;2662;2790;2918;3046;3174;3302;3430;3558;3664;3792;
   3872;4160;4240;6112;6160;6470;6608;6784;6800;6992;7088;7232;7248;42528;43216;
   43264;43472;43504;43600;44016;65296;66720;68912;69734;69872;69942;70096;70384;
   70736;70864;71248;71360;71472;71904;72016;72784;73040;73120;73552;92768;92864;
   93008;120782;120792;120802;120812;120822;123200;123632;124144;125264;130032].

(** [unicodedata.decimal(c)]. *)
Definition digit_value (c : Z) : option Z :=
  z ← list_find (λ z, z ≤ c ∧ c ≤ z + 9) unicode_zeros; Some (c - z.2).

(** [\d] in a [str] pattern. *)
Definition is_unicode_digit (c : Z) : bool := bool_decide (is_Some (digit_value c)).

(** [str.isspace]. *)
Definition is_space (c : Z) : bool :=
  ((9 <=? c) && (c <=? 13)) || ((28 <=? c) && (c <=? 32)) || (c =? 133) || (c =? 160)
  || (c =? 5760) || ((8192 <=? c) && (c <=? 8202)) || (c =? 8232) || (c =? 8233)
  || (c =? 8239) || (c =? 8287) || (c =? 12288).

Fixpoint drop_while (p : Z → bool) (s : pystr) : pystr :=
  match s with
  | [] => []
  | c :: r => if p c then drop_while p r else s
  end.

Fixpoint span (p : Z → bool) (s : pystr) : pystr * pystr :=
  match s with
  | [] => ([], [])
  | c :: r => if p c then let '(a, b) := span p r in (c :: a, b) else ([], s)
  end.

(** [s.strip()]. *)
Definition py_strip (s : pystr) : pystr :=
  reverse (drop_while is_space (reverse (drop_while is_space s))).

Lemma span_app p s : (span p s).1 ++ (span p s).2 = s.
Proof.
  induction s as [|c s IH]; simpl; [done|]. destruct (p c); [|done].
  destruct (span p s). simpl in *. by f_equal.
Qed.

Lemma span_stop p s c r :
  forallb p s = true → p c = false → span p (s ++ c :: r) = (s, c :: r).
Proof.
  induction s as [|a s IH]; simpl.
  - intros _ ->. done.
  - intros [Ha Hs]%andb_true_iff Hc. rewrite Ha, IH by done. done.
Qed.

Lemma span_all p s : forallb p s = true → span p s = (s, []).
Proof.
  induction s as [|a s IH]; simpl; [done|].
  intros [Ha Hs]%andb_true_iff. by rewrite Ha, IH.
Qed.

(** ** Decimal values *)
Record decimal := Dec { dcoef : Z; dexp : Z }.
#[global] Instance decimal_eq_dec : EqDecision decimal.
Proof. solve_decision. Defined.

(** What [Decimal(x)] can be; the sign of a zero is not observable here. *)
Inductive pydec := DFin (d : decimal) | DInf (neg : bool) | DNaN.
#[global] Instance pydec_eq_dec : EqDecision pydec.
Proof. solve_decision. Defined.

(** [Decimal(n)] for an int is exact. *)
Definition dec_of_int (n : Z) : decimal := Dec n 0.

(** Exact comparison: both coefficients at the smaller exponent. *)
Definition dec_compare (a b : decimal) : comparison :=
  let m := Z.min (dexp a) (dexp b) in
  (dcoef a * 10 ^ (dexp a - m) ?= dcoef b * 10 ^ (dexp b - m)).
Definition dec_eqb a b := match dec_compare a b with Eq => true | _ => false end.
Definition dec_leb a b := match dec_compare a b with Gt => false | _ => true end.
Definition dec_ltb a b := match dec_compare a b with Lt => true | _ => false end.

Fixpoint ndigits_fuel (fuel : nat) (c : Z) : Z :=
  match fuel with
  | O => 1
  | S f => if c <? 10 then 1 else 1 + ndigits_fuel f (c / 10)
  end.
(** The number of digits of [|c|]; [log2] steps are more than the digits. *)
Definition ndigits (c : Z) : Z := ndigits_fuel (Z.to_nat (Z.log2 (Z.abs c))) (Z.abs c).

(** [c / 10^k], rounded half to even. *)
Definition round_half_even (c k : Z) : Z :=
  let p := 10 ^ k in
  let q := Z.abs c / p in
  let r := Z.abs c mod p in
  let q' := if (2 * r <? p) || ((2 * r =? p) && Z.even q) then q else q + 1 in
  Z.sgn c * q'.

Definition prec : Z := 28.
Definition Emax : Z := 999999.
Definition Etiny : Z := - 999999 - 28 + 1.

(** Rounding a result into the default context. *)
Definition dec_fix (d : decimal) : py decimal :=
  if dcoef d =? 0 then Ok (Dec 0 (Z.max Etiny (Z.min (dexp d) (Emax - prec + 1)))) else
  let k := Z.max 0 (Z.max (ndigits (dcoef d) - prec) (Etiny - dexp d)) in
  let d' := if k =? 0 then d else Dec (round_half_even (dcoef d) k) (dexp d + k) in
  if Emax <? ndigits (dcoef d') + dexp d' - 1 then Raise DecimalOverflow else Ok d'.

(** [a * b] in the default context. *)
Definition dec_mul (a b : decimal) : py decimal :=
  dec_fix (Dec (dcoef a * dcoef b) (dexp a + dexp b)).

(** [a + b] and [a - b] in the default context. *)
Definition dec_add (a b : decimal) : py decimal :=
  let m := Z.min (dexp a) (dexp b) in
  dec_fix (Dec (dcoef a * 10 ^ (dexp a - m) + dcoef b * 10 ^ (dexp b - m)) m).
Definition dec_sub (a b : decimal) : py decimal := dec_add a (Dec (- dcoef b) (dexp b)).

(** [min(a, b)]. *)
Definition dec_min (a b : decimal) : decimal := if dec_ltb b a then b else a.

(** [sum(l, start)]. *)
Fixpoint dec_sum (start : decimal) (l : list decimal) : py decimal :=
  match l with
  | [] => Ok start
  | a :: l => start ← dec_add start a; dec_sum start l
  end.

(** [d == d.to_integral_value()]. *)
Definition dec_is_integral (d : decimal) : bool :=
  (0 <=? dexp d) || (dcoef d mod 10 ^ (- dexp d) =? 0).

(** [a / b] in the default context, for a [b] that is not zero: one digit more than the
    context keeps, made odd when the quotient is not exact, or else stripped of zeros down
    to the exponent the operands give. *)
Fixpoint strip_zeros (fuel : nat) (c e ideal : Z) : decimal :=
  match fuel with
  | S fuel => if (e <? ideal) && (c mod 10 =? 0) then strip_zeros fuel (c / 10) (e + 1) ideal else Dec c e
  | O => Dec c e
  end.
Definition dec_div (a b : decimal) : py decimal :=
  let shift := ndigits (dcoef b) - ndigits (dcoef a) + prec + 1 in
  let e := dexp a - dexp b - shift in
  let n := Z.abs (dcoef a) * (if 0 <=? shift then 10 ^ shift else 1) in
  let d := Z.abs (dcoef b) * (if 0 <=? shift then 1 else 10 ^ (- shift)) in
  let sign := Z.sgn (dcoef a) * Z.sgn (dcoef b) in
  let q := n / d in
  if dcoef a =? 0 then dec_fix (Dec 0 (dexp a - dexp b)) else
  let r := if negb (n mod d =? 0) then Dec (if q mod 5 =? 0 then q + 1 else q) e
           else strip_zeros (Z.to_nat (ndigits q)) q e (dexp a - dexp b) in
  dec_fix (Dec (sign * dcoef r) (dexp r)).

(** [int(d)], truncating towards zero. *)
Definition dec_to_int (d : decimal) : Z :=
  if 0 <=? dexp d then dcoef d * 10 ^ dexp d
  else Z.quot (dcoef d) (10 ^ (- dexp d)).

(** ** [Decimal(str)] *)
Definition digits_of (s : pystr) : Z :=
  foldl (λ acc c, 10 * acc + default 0 (digit_value c)) 0 s.

Definition parse_exponent (s : pystr) : option Z :=
  let '(neg, s) := match s with
                   | 45 :: r => (true, r) | 43 :: r => (false, r) | _ => (false, s)
                   end in
  if forallb is_unicode_digit s && negb (bool_decide (s = []))
  then Some (if neg : bool then - digits_of s else digits_of s) else None.

Definition parse_number (s : pystr) : option decimal :=
  let '(int, r) := span is_unicode_digit s in
  let '(frac, r) := match r with 46 :: r => span is_unicode_digit r | _ => ([], r) end in
  if bool_decide (int = []) && bool_decide (frac = []) then None else
  e ← match r with
      | [] => Some 0
      | c :: r => if (c =? 69) || (c =? 101) then parse_exponent r else None
      end;
  Some (Dec (digits_of (int ++ frac)) (e - Z.of_nat (length frac))).

(** Within libmpdec's own exponent range. *)
Definition parse_unsigned (s : pystr) : option decimal :=
  d ← parse_number s;
  if (Z.abs (ndigits (dcoef d) + dexp d - 1) <=? 999999999999999999) then Some d else None.

Definition ascii_lower (c : Z) : Z := if (65 <=? c) && (c <=? 90) then c + 32 else c.

Definition parse_special (neg : bool) (s : pystr) : option pydec :=
  let s := ascii_lower <$> s in
  if bool_decide (s = u "inf") || bool_decide (s = u "infinity") then Some (DInf neg) else
  diag ← match strip_prefix (u "nan") s with
         | Some r => Some r
         | None => strip_prefix (u "snan") s
         end;
  if forallb is_unicode_digit diag then Some DNaN else None.

(** [Decimal(s)]; [None] is [decimal.InvalidOperation]. *)
Definition parse_decimal (s : pystr) : option pydec :=
  let s := filter (λ c, c ≠ 95) (py_strip s) in
  let '(neg, s) := match s with
                   | 45 :: r => (true, r) | 43 :: r => (false, r) | _ => (false, s)
                   end in
  match parse_unsigned s with
  | Some d => Some (DFin (if neg : bool then Dec (- dcoef d) (dexp d) else d))
  | None => parse_special neg s
  end.

(** [a < b] and friends on what [Decimal] can be: ordering a NaN signals. *)
Definition pydec_compare (a b : pydec) : py comparison :=
  match a, b with
  | DNaN, _ | _, DNaN => Raise InvalidOperation
  | DFin a, DFin b => Ok (dec_compare a b)
  | DInf n, DInf m => Ok (if n then if m then Eq else Lt else if m then Gt else Eq)
  | DInf n, DFin _ => Ok (if n then Lt else Gt)
  | DFin _, DInf n => Ok (if n then Gt else Lt)
  end.

(** ** Lemmas *)

Lemma ndigits_fuel_le f c k : 0 <= c → 0 < k → c < 10 ^ k → ndigits_fuel f c <= k.
Proof.
  revert c k. induction f as [|f IH]; intros c k Hc Hk Hlt; simpl; [lia|].
  destruct (Z.ltb_spec c 10); [lia|].
  destruct (decide (k = 1)) as [->|]; [lia|].
  enough (ndigits_fuel f (c / 10) <= k - 1) by lia.
  apply IH; [apply Z.div_pos; lia|lia|].
  apply Z.div_lt_upper_bound; [lia|].
  by rewrite <- Z.pow_succ_r, Z.sub_1_r, Z.succ_pred by lia.
Qed.

Lemma ndigits_le c k : 0 < k → Z.abs c < 10 ^ k → ndigits c <= k.
Proof. intros. apply ndigits_fuel_le; lia. Qed.

Lemma ndigits_pos c : 1 <= ndigits c.
Proof.
  unfold ndigits. generalize (Z.abs c). intros z.
  generalize (Z.to_nat (Z.log2 z)). intros f. revert z.
  induction f as [|f IH]; intros z; simpl; [lia|].
  destruct (z <? 10); [lia|]. specialize (IH (z / 10)). lia.
Qed.

(** Up to 28 digits and in range, a result is not rounded. *)
Lemma dec_fix_exact c e :
  c ≠ 0 → Z.abs c < 10 ^ 28 → Etiny <= e <= Emax - 28 → dec_fix (Dec c e) = Ok (Dec c e).
Proof.
  intros Hc Hlt He. unfold dec_fix. simpl.
  destruct (Z.eqb_spec c 0); [done|].
  pose proof (ndigits_le c 28 ltac:(lia) Hlt). unfold prec in *.
  replace (Z.max 0 _) with 0 by lia. simpl.
  destruct (Z.ltb_spec Emax (ndigits c + e - 1)); [lia|done].
Qed.

(** Comparison does not depend on the common exponent chosen. *)
Lemma dec_compare_scale a b m :
  m <= dexp a → m <= dexp b →
  dec_compare a b = (dcoef a * 10 ^ (dexp a - m) ?= dcoef b * 10 ^ (dexp b - m)).
Proof.
  intros Ha Hb. unfold dec_compare. set (n := Z.min (dexp a) (dexp b)).
  replace (dexp a - m) with ((dexp a - n) + (n - m)) by lia.
  replace (dexp b - m) with ((dexp b - n) + (n - m)) by lia.
  rewrite !Z.pow_add_r by lia. rewrite !Z.mul_assoc.
  assert (0 < 10 ^ (n - m)) by (apply Z.pow_pos_nonneg; lia).
  apply Zmult_compare_compat_r. lia.
Qed.

Lemma dec_compare_antisym a b : dec_compare b a = CompOpp (dec_compare a b).
Proof. unfold dec_compare. rewrite (Z.min_comm (dexp b)). apply Z.compare_antisym. Qed.

Definition dec_common (a b c : decimal) := Z.min (dexp a) (Z.min (dexp b) (dexp c)).

Lemma dec_leb_trans a b c : dec_leb a b = true → dec_leb b c = true → dec_leb a c = true.
Proof.
  unfold dec_leb. set (m := dec_common a b c). unfold dec_common in m.
  rewrite !(dec_compare_scale _ _ m) by lia.
  intros H1 H2.
  destruct (Z.compare_spec (dcoef a * 10 ^ (dexp a - m)) (dcoef b * 10 ^ (dexp b - m))),
    (Z.compare_spec (dcoef b * 10 ^ (dexp b - m)) (dcoef c * 10 ^ (dexp c - m))),
    (Z.compare_spec (dcoef a * 10 ^ (dexp a - m)) (dcoef c * 10 ^ (dexp c - m)));
    done || lia.
Qed.

Lemma dec_eqb_refl a : dec_eqb a a = true.
Proof. unfold dec_eqb, dec_compare. by rewrite Z.compare_refl. Qed.

Lemma dec_leb_refl a : dec_leb a a = true.
Proof. unfold dec_leb, dec_compare. by rewrite Z.compare_refl. Qed.

Lemma dec_compare_trans a b c :
  dec_compare a b ≠ Gt → dec_compare b c ≠ Gt →
  dec_compare a c ≠ Gt ∧ (dec_compare a c = Eq → dec_compare a b = Eq ∧ dec_compare b c = Eq).
Proof.
  set (m := dec_common a b c). unfold dec_common in m.
  rewrite !(dec_compare_scale _ _ m) by lia.
  rewrite !Z.compare_eq_iff, !Z.compare_gt_iff. lia.
Qed.

Lemma dec_eqb_trans a b c : dec_eqb a b = true → dec_eqb b c = true → dec_eqb a c = true.
Proof.
  unfold dec_eqb. intros H1 H2.
  destruct (dec_compare a b) eqn:E1; [|done|done]. destruct (dec_compare b c) eqn:E2; [|done|done].
  pose proof (dec_compare_trans a b c) as [Hn _]; [by rewrite E1|by rewrite E2|].
  destruct (dec_compare a c) eqn:E3; [done| |done].
  pose proof (dec_compare_trans c b a) as [Hm _].
  - by rewrite dec_compare_antisym, E2.
  - by rewrite dec_compare_antisym, E1.
  - by rewrite dec_compare_antisym, E3 in Hm.
Qed.

Lemma dec_eqb_sym a b : dec_eqb a b = dec_eqb b a.
Proof. unfold dec_eqb. rewrite (dec_compare_antisym a b). by destruct (dec_compare a b). Qed.
