(* ===== verification/PyFloat.v ===== *)
(** * Python's [float]

    Binary64 numbers as the Standard Library's specification of them, with what the
    source asks of a [float]: parsing, comparison, the four operations, [math.fsum],
    [math.sqrt], [int] and the shortest text that reads back. *)
From Stdlib Require Import SpecFloat.
From S2P Require Import Prelude PyText Errors PyNum.

Abbreviation pyfloat := spec_float.

Definition fprec : Z := 53.
Definition femax : Z := 1024.

(** ** Exact values

    [n * 2 ^ e], for a number that is finite. *)
Definition dyadic : Type := Z * Z.
Definition dyadic_of (x : pyfloat) : option dyadic :=
  match x with
  | S754_zero _ => Some (0, 0)
  | S754_finite s m e => Some (if s then - Z.pos m else Z.pos m, e)
  | _ => None
  end.
Definition dyadic_compare (a b : dyadic) : comparison :=
  let m := Z.min a.2 b.2 in
  (a.1 * 2 ^ (a.2 - m) ?= b.1 * 2 ^ (b.2 - m)).
Definition dyadic_add (a b : dyadic) : dyadic :=
  let m := Z.min a.2 b.2 in
  (a.1 * 2 ^ (a.2 - m) + b.1 * 2 ^ (b.2 - m), m).
Definition float_round (a : dyadic) : pyfloat := binary_normalize fprec femax a.1 a.2 false.

(** ** Comparison: [None] with a NaN *)
Definition float_compare (x y : pyfloat) : option comparison :=
  match x, y with
  | S754_nan, _ | _, S754_nan => None
  | S754_infinity s, S754_infinity t => Some (if s then if t then Eq else Lt else if t then Gt else Eq)
  | S754_infinity s, _ => Some (if s then Lt else Gt)
  | _, S754_infinity s => Some (if s then Gt else Lt)
  | _, _ => a ← dyadic_of x; b ← dyadic_of y; Some (dyadic_compare a b)
  end.
Definition float_lt (x y : pyfloat) : bool := match float_compare x y with Some Lt => true | _ => false end.
Definition float_eq (x y : pyfloat) : bool := match float_compare x y with Some Eq => true | _ => false end.

Definition zero : pyfloat := S754_zero false.
Definition float_le0 (x : pyfloat) : bool := float_lt x zero || float_eq x zero.
Definition float_lt0 (x : pyfloat) : bool := float_lt x zero.
Definition float_gt0 (x : pyfloat) : bool := float_lt zero x.
Definition float_truth (x : pyfloat) : bool := negb (float_eq x zero).
Definition float_is_inf (x : pyfloat) : bool := match x with S754_infinity _ => true | _ => false end.

(** [max(x, y)] and [min(x, y)] keep the first unless the second is strictly better. *)
Definition float_max (x y : pyfloat) : pyfloat := if float_lt x y then y else x.
Definition float_min (x y : pyfloat) : pyfloat := if float_lt y x then y else x.

(** ** Arithmetic *)
Definition float_mul (x y : pyfloat) : pyfloat := SFmul fprec femax x y.
Definition float_add (x y : pyfloat) : pyfloat := SFadd fprec femax x y.
Definition float_sub (x y : pyfloat) : pyfloat := SFsub fprec femax x y.
Definition float_sqrt (x : pyfloat) : pyfloat := SFsqrt fprec femax x.
Definition float_div (x y : pyfloat) : py pyfloat :=
  if float_eq y zero then Raise ZeroDivisionError else Ok (SFdiv fprec femax x y).

Definition float_of_Z (n : Z) : pyfloat := float_round (n, 0).
Definition float_times (x : pyfloat) (n : Z) : pyfloat := float_mul x (float_of_Z n).

(** [int(x)], towards zero. *)
Definition float_int (x : pyfloat) : py Z :=
  match x with
  | S754_nan => Raise ValueError
  | S754_infinity _ => Raise OverflowError
  | S754_zero _ => Ok 0
  | S754_finite s m e =>
      let n := if 0 <=? e then Z.pos m * 2 ^ e else Z.pos m / 2 ^ (- e) in Ok (if s then - n else n)
  end.

(** [math.fsum]: the finite terms exactly, rounded once; a special term is summed apart
    and starts the exact sum afresh; a sum too large on the way is refused. *)
Fixpoint fsum_from (acc : dyadic) (special : option pyfloat) (infs : pyfloat) (l : list pyfloat)
    : py pyfloat :=
  match l with
  | [] =>
      match special with
      | None => Ok (float_round acc)
      | Some s => match infs with S754_nan => Raise ValueError | _ => Ok s end
      end
  | x :: l =>
      match dyadic_of x with
      | Some d =>
          let acc := dyadic_add acc d in
          if float_is_inf (float_round acc) then Raise OverflowError else fsum_from acc special infs l
      | None =>
          fsum_from (0, 0) (Some (SFadd fprec femax (default zero special) x))
            (if float_is_inf x then SFadd fprec femax infs x else infs) l
      end
  end.
Definition fsum : list pyfloat → py pyfloat := fsum_from (0, 0) None zero.

(** ** Decimal text *)

(** The number nearest to [n / d]. *)
Definition float_of_ratio (neg : bool) (n d : positive) : pyfloat :=
  let '(m, e, l) := SFdiv_core_binary fprec femax (Z.pos n) 0 (Z.pos d) 0 in
  binary_round_aux fprec femax neg m e l.

(** The number nearest to [c * 10 ^ e], [c] not negative; far outside the range there is
    nothing to compute. *)
Definition float_of_dec (neg : bool) (c e : Z) : pyfloat :=
  match c with
  | Z.pos p =>
      let a := ndigits c + e in
      if 400 <? a then S754_infinity neg
      else if a <? -400 then S754_zero neg
      else if 0 <=? e then float_of_ratio neg (p * Z.to_pos (10 ^ e)) 1
      else float_of_ratio neg p (Z.to_pos (10 ^ (- e)))
  | _ => S754_zero neg
  end.

(** An underscore stands between two digits. *)
Fixpoint underscores_ok (after_digit : bool) (s : pystr) : bool :=
  match s with
  | [] => true
  | 95 :: s => after_digit && match s with c :: _ => is_unicode_digit c | [] => false end
               && underscores_ok false s
  | c :: s => underscores_ok (is_unicode_digit c) s
  end.

(** [float(text)]; [None] is [ValueError]. *)
Definition float_of_text (text : pystr) : option pyfloat :=
  let s := py_strip text in
  if negb (underscores_ok false s) then None else
  let s := filter (λ c, c ≠ 95) s in
  let '(neg, s) := match s with
                   | 45 :: r => (true, r) | 43 :: r => (false, r) | _ => (false, s)
                   end in
  match parse_number s with
  | Some d => Some (float_of_dec neg (dcoef d) (dexp d))
  | None =>
      let s := ascii_lower <$> s in
      if bool_decide (s = u "inf") || bool_decide (s = u "infinity") then Some (S754_infinity neg)
      else if bool_decide (s = u "nan") then Some S754_nan else None
  end.

(** *** [Decimal(str(x))]

    The decimal with fewest digits that reads back as [x], the nearer one first. *)
Definition magnitude (n d : Z) : Z :=
  if d <=? n then ndigits (n / d) else 1 - ndigits ((d - 1) / n).

Definition reads_back (m : positive) (e c g : Z) : bool :=
  match float_of_dec false c g with
  | S754_finite false m' e' => bool_decide (m' = m) && bool_decide (e' = e)
  | _ => false
  end.

(** [c] and [c + 1] steps of [10 ^ g] are around [n / d]. *)
Definition around (n d g : Z) : Z * Z * Z :=
  let n := if 0 <=? g then n else n * 10 ^ (- g) in
  let d := if 0 <=? g then d * 10 ^ g else d in
  (n / d, n mod d, d).

Fixpoint shortest_from (steps : nat) (m : positive) (e n d g : Z) : Z * Z :=
  let '(c, r, step) := around n d g in
  let '(near, far) := if r =? 0 then (c, c) else if 2 * r <=? step then (c, c + 1) else (c + 1, c) in
  match steps with
  | O => (near, g)
  | S steps =>
      if reads_back m e near g then (near, g)
      else if reads_back m e far g then (far, g)
      else shortest_from steps m e n d (g - 1)
  end.

Definition shortest (m : positive) (e : Z) : Z * Z :=
  let n := if 0 <=? e then Z.pos m * 2 ^ e else Z.pos m in
  let d := if 0 <=? e then 1 else 2 ^ (- e) in
  shortest_from 16 m e n d (magnitude n d - 1).

Definition decimal_of_float (x : pyfloat) : pydec :=
  match x with
  | S754_nan => DNaN
  | S754_infinity s => DInf s
  | S754_zero _ => DFin (Dec 0 (-1))
  | S754_finite s m e => let '(c, g) := shortest m e in DFin (Dec (if s then - c else c) g)
  end.
