(* ===== verification/PyTime.v ===== *)
(** * Dates

    [datetime.strftime] and [strptime] for the one format the Datalog uses,
    [%Y-%m-%dT%H:%M:%SZ], on the proleptic Gregorian calendar as CPython computes
    it, with the round trip for every second of the years 1000 to 9999.  (Before
    the year 1000 [%Y] is not padded on every platform.)  Nothing here is part of
    the program; it models the standard library. *)
From S2P Require Import Prelude PyText PyNum.

Definition is_leap (y : Z) : bool :=
  (y mod 4 =? 0) && (negb (y mod 100 =? 0) || (y mod 400 =? 0)).

Definition days_before_year (y : Z) : Z :=
  let p := y - 1 in p * 365 + p / 4 - p / 100 + p / 400.

Definition month_length (leap : bool) (m : Z) : Z :=
  if m =? 2 then if leap then 29 else 28
  else if bool_decide (m ∈ [4; 6; 9; 11]) then 30 else 31.
Definition days_in_month (y m : Z) : Z := month_length (is_leap y) m.

Definition month_offset (leap : bool) (m : Z) : Z :=
  nth (Z.to_nat m) [0; 0; 31; 59; 90; 120; 151; 181; 212; 243; 273; 304; 334] 0
  + if (2 <? m) && leap then 1 else 0.
Definition days_before_month (y m : Z) : Z := month_offset (is_leap y) m.

Definition ymd2ord (y m d : Z) : Z := days_before_year y + days_before_month y m + d.

(** [_ord2ymd]: the month and day of day [n] of a year ... *)
Definition month_day (leapyear : bool) (n : Z) : Z * Z :=
  let month := Z.shiftr (n + 50) 5 in
  let preceding := month_offset leapyear month in
  if n <? preceding then
    let month := month - 1 in
    let preceding := preceding - month_length leapyear month in
    (month, n - preceding + 1)
  else (month, n - preceding + 1).

(** ... and the year, by 400-, 100-, 4- and 1-year cycles. *)
Definition ord2ymd (ord : Z) : Z * Z * Z :=
  let n := ord - 1 in
  let n400 := n / 146097 in let n := n mod 146097 in
  let n100 := n / 36524 in let n := n mod 36524 in
  let n4 := n / 1461 in let n := n mod 1461 in
  let n1 := n / 365 in let n := n mod 365 in
  let year := n400 * 400 + 1 + n100 * 100 + n4 * 4 + n1 in
  if (n1 =? 4) || (n100 =? 4) then (year - 1, 12, 31) else
  let leapyear := (n1 =? 3) && (negb (n4 =? 24) || (n100 =? 3)) in
  let '(m, d) := month_day leapyear n in (year, m, d).

(** Zero-padded decimal fields. *)
Definition two (n : Z) : pystr := [48 + n / 10; 48 + n mod 10].
Definition four (n : Z) : pystr := two (n / 100) ++ two (n mod 100).

Definition secs_per_day : Z := 86400.

(** [strftime] of the instant [t], in whole seconds since 0001-01-01 UTC. *)
Definition date_text (t : Z) : pystr :=
  let '(y, m, d) := ord2ymd (t / secs_per_day + 1) in
  let s := t mod secs_per_day in
  four y ++ u "-" ++ two m ++ u "-" ++ two d ++ u "T" ++ two (s / 3600) ++ u ":"
  ++ two (s / 60 mod 60) ++ u ":" ++ two (s mod 60) ++ u "Z".

(** A digit in a class [[a-b]] and a [\d]. *)
Definition ascii_digit (a b c : Z) : option Z :=
  if (48 + a <=? c) && (c <=? 48 + b) then Some (c - 48) else None.

Definition month_field (a b : Z) : option Z :=
  match ascii_digit 0 0 a, ascii_digit 1 9 b with
  | Some _, Some y => Some y
  | _, _ => match ascii_digit 1 1 a, ascii_digit 0 2 b with
            | Some _, Some y => Some (10 + y)
            | _, _ => None
            end
  end.
Definition day_field (a b : Z) : option Z :=
  match ascii_digit 3 3 a, ascii_digit 0 1 b with
  | Some _, Some y => Some (30 + y)
  | _, _ => match ascii_digit 1 2 a, digit_value b with
            | Some x, Some y => Some (10 * x + y)
            | _, _ => match ascii_digit 0 0 a, ascii_digit 1 9 b with
                      | Some _, Some y => Some y
                      | _, _ => None
                      end
            end
  end.
Definition hour_field (a b : Z) : option Z :=
  match ascii_digit 2 2 a, ascii_digit 0 3 b with
  | Some _, Some y => Some (20 + y)
  | _, _ => match ascii_digit 0 1 a, digit_value b with
            | Some x, Some y => Some (10 * x + y)
            | _, _ => None
            end
  end.
Definition sixty_field (a b : Z) : option Z :=
  match ascii_digit 0 5 a, digit_value b with
  | Some x, Some y => Some (10 * x + y)
  | _, _ => None   (* a leap second is refused by [datetime] afterwards *)
  end.

(** [datetime.strptime(s, ...)] on a text of the shape [\d{4}-\d{2}-...Z]; the
    result in seconds, [None] for [ValueError]. *)
Definition parse_date_text (s : pystr) : option Z :=
  match s with
  | [y1; y2; y3; y4; s1; m1; m2; s2; d1; d2; t; h1; h2; c1; i1; i2; c2; e1; e2; z] =>
      if negb ((s1 =? 45) && (s2 =? 45) && (t =? 84) && (c1 =? 58) && (c2 =? 58) && (z =? 90))
      then None else
      a ← digit_value y1; b ← digit_value y2; c ← digit_value y3; d ← digit_value y4;
      let y := 1000 * a + 100 * b + 10 * c + d in
      m ← month_field m1 m2; dd ← day_field d1 d2; h ← hour_field h1 h2;
      mi ← sixty_field i1 i2; se ← sixty_field e1 e2;
      if (1 <=? y) && (dd <=? days_in_month y m) then
        Some ((ymd2ord y m dd - 1) * secs_per_day + h * 3600 + mi * 60 + se)
      else None
  | _ => None
  end.

(** ** The round trip *)

Fixpoint all_below (p : Z → bool) (n : nat) (r : Z) : bool :=
  match n with O => true | S n => p r && all_below p n (r + 1) end.

Lemma all_below_spec p n : ∀ r, all_below p n r = true →
  ∀ k, r <= k < r + Z.of_nat n → p k = true.
Proof.
  induction n as [|n IH]; intros r H k Hk; [lia|]. simpl in H.
  apply andb_true_iff in H as [Hr H]. destruct (decide (k = r)) as [->|]; [done|].
  apply (IH _ H). lia.
Qed.

(** Every day of a year, by computation over the 365 or 366 of them. *)
Definition month_day_ok (leap : bool) (n : Z) : bool :=
  let '(m, d) := month_day leap n in
  (1 <=? m) && (m <=? 12) && (1 <=? d) && (d <=? month_length leap m)
  && (month_offset leap m + d =? n + 1).

Lemma month_day_spec (leap : bool) (n : Z) :
  0 <= n < 365 + (if leap then 1 else 0) → month_day_ok leap n = true.
Proof.
  intros Hn. apply (all_below_spec _ (Z.to_nat (365 + if leap then 1 else 0)) 0);
    [destruct leap; vm_compute; reflexivity|destruct leap; lia].
Qed.

Lemma is_leap_cycle q y : is_leap (400 * q + y) = is_leap y.
Proof.
  unfold is_leap.
  replace (400 * q + y) with (y + (100 * q) * 4) at 1 by lia. rewrite Z.mod_add by lia.
  replace (400 * q + y) with (y + (4 * q) * 100) at 1 by lia. rewrite Z.mod_add by lia.
  replace (400 * q + y) with (y + q * 400) by lia. by rewrite Z.mod_add by lia.
Qed.

Lemma days_before_year_cycle q y :
  days_before_year (400 * q + y) = 146097 * q + days_before_year y.
Proof.
  unfold days_before_year.
  replace (400 * q + y - 1) with (y - 1 + (100 * q) * 4) at 2 by lia. rewrite Z.div_add by lia.
  replace (400 * q + y - 1) with (y - 1 + (4 * q) * 100) at 2 by lia. rewrite Z.div_add by lia.
  replace (400 * q + y - 1) with (y - 1 + q * 400) at 2 by lia. rewrite Z.div_add by lia.
  lia.
Qed.

Lemma days_in_month_cycle q y m : days_in_month (400 * q + y) m = days_in_month y m.
Proof. unfold days_in_month. by rewrite is_leap_cycle. Qed.

Lemma ymd2ord_cycle q y m d : ymd2ord (400 * q + y) m d = 146097 * q + ymd2ord y m d.
Proof. unfold ymd2ord, days_before_month. rewrite days_before_year_cycle, is_leap_cycle. lia. Qed.

(** The year a 400-year cycle's day falls in: [days_before_year] and leap years
    in terms of the cycle counts. *)
Lemma year_counts a b c :
  0 <= a < 4 → 0 <= b < 25 → 0 <= c < 4 →
  let y := 100 * a + 4 * b + c + 1 in
  days_before_year y = 36524 * a + 1461 * b + 365 * c
  ∧ is_leap y = ((c =? 3) && (negb (b =? 24) || (a =? 3))).
Proof.
  intros Ha Hb Hc y. unfold days_before_year.
  replace (y - 1) with (c + (25 * a + b) * 4) at 2 by lia. rewrite Z.div_add, (Z.div_small c) by lia.
  replace (y - 1) with (4 * b + c + a * 100) at 2 by lia.
  rewrite Z.div_add, (Z.div_small (4 * b + c)) by lia.
  rewrite (Z.div_small (y - 1) 400) by lia. split; [lia|].
  unfold is_leap.
  replace y with (c + 1 + (25 * a + b) * 4) at 1 by lia. rewrite Z.mod_add by lia.
  replace y with (4 * b + c + 1 + a * 100) at 1 by lia. rewrite Z.mod_add by lia.
  destruct (Z.eqb_spec c 3) as [Hc3|Hc3]; cbn [andb].
  2: { rewrite (Z.mod_small (c + 1) 4) by lia. by rewrite (proj2 (Z.eqb_neq (c + 1) 0)) by lia. }
  rewrite Hc3 at 1. change ((3 + 1) mod 4 =? 0) with true. cbn [andb].
  destruct (Z.eqb_spec b 24) as [Hb24|Hb24]; cbn [negb orb].
  - replace (4 * b + c + 1) with (0 + 1 * 100) by lia. rewrite Z.mod_add by lia.
    change (negb (0 mod 100 =? 0)) with false. cbn [orb].
    destruct (Z.eqb_spec a 3) as [Ha3|Ha3].
    + replace y with (0 + 1 * 400) by lia. by rewrite Z.mod_add by lia.
    + rewrite (Z.mod_small y 400) by lia. apply Z.eqb_neq. lia.
  - rewrite (Z.mod_small (4 * b + c + 1) 100) by lia.
    by rewrite (proj2 (Z.eqb_neq (4 * b + c + 1) 0)) by lia.
Qed.

(** Every day has a date, in range, that gives the day back. *)
Lemma ord2ymd_cycle_spec q r : 0 <= r < 146097 →
  let '(y, m, d) := ord2ymd (146097 * q + r + 1) in
  400 * q + 1 <= y <= 400 * q + 400 ∧ 1 <= m <= 12
  ∧ 1 <= d <= days_in_month y m ∧ ymd2ord y m d = 146097 * q + r + 1.
Proof.
  intros Hr. unfold ord2ymd.
  replace (146097 * q + r + 1 - 1) with (r + q * 146097) by lia.
  rewrite Z.div_add, Z.mod_add, (Z.div_small r), (Z.mod_small r) by lia. cbv zeta.
  set (a := r / 36524). set (r1 := r mod 36524). set (b := r1 / 1461). set (r2 := r1 mod 1461).
  set (c := r2 / 365). set (n := r2 mod 365).
  pose proof (Z.div_mod r 36524 ltac:(lia)) as E1. fold a r1 in E1.
  pose proof (Z.div_mod r1 1461 ltac:(lia)) as E2. fold b r2 in E2.
  pose proof (Z.div_mod r2 365 ltac:(lia)) as E3. fold c n in E3.
  pose proof (Z.mod_pos_bound r 36524 ltac:(lia)) as B1. fold r1 in B1.
  pose proof (Z.mod_pos_bound r1 1461 ltac:(lia)) as B2. fold r2 in B2.
  pose proof (Z.mod_pos_bound r2 365 ltac:(lia)) as B3. fold n in B3.
  clearbody a r1 b r2 c n.
  destruct ((c =? 4) || (a =? 4)) eqn:Hlast.
  - (* the last day of a leap year: day 366 of year (a, b, c = 3) *)
    apply orb_true_iff in Hlast.
    set (a' := if a =? 4 then 3 else a). set (b' := if a =? 4 then 24 else b).
    assert (0 <= a' < 4 ∧ 0 <= b' < 25 ∧ (b' ≠ 24 ∨ a' = 3)
            ∧ 100 * a + 4 * b + c = 100 * a' + 4 * b' + 4
            ∧ r = 36524 * a' + 1461 * b' + 365 * 3 + 365) as (Ha & Hb & Hl & Hy & Hr').
    { unfold a', b'. destruct (Z.eqb_spec a 4), (Z.eqb_spec c 4); destruct Hlast; done || lia. }
    destruct (year_counts a' b' 3 Ha Hb ltac:(lia)) as [Hd Hleap].
    replace ((0 + q) * 400 + 1 + a * 100 + b * 4 + c - 1)
      with (400 * q + (100 * a' + 4 * b' + 3 + 1)) by lia.
    rewrite days_in_month_cycle, ymd2ord_cycle. unfold ymd2ord, days_before_month, days_in_month.
    rewrite Hd, Hleap. replace (negb (b' =? 24) || (a' =? 3)) with true.
    + simpl. change (month_length true 12) with 31. change (month_offset true 12) with 335. lia.
    + symmetry. apply orb_true_iff. destruct Hl as [Hl| ->]; [left|by right]. blia.
  - apply orb_false_iff in Hlast as [Hc4%Z.eqb_neq Ha4%Z.eqb_neq].
    assert (0 <= a < 4 ∧ 0 <= b < 25 ∧ 0 <= c < 4) as (Ha & Hb & Hc) by lia.
    destruct (year_counts a b c Ha Hb Hc) as [Hd Hleap].
    set (leap := (c =? 3) && (negb (b =? 24) || (a =? 3))) in *.
    pose proof (month_day_spec leap n ltac:(destruct leap; lia)) as Hmd.
    unfold month_day_ok in Hmd. destruct (month_day leap n) as [m d].
    replace ((0 + q) * 400 + 1 + a * 100 + b * 4 + c)
      with (400 * q + (100 * a + 4 * b + c + 1)) by lia.
    rewrite days_in_month_cycle, ymd2ord_cycle. unfold ymd2ord, days_before_month, days_in_month.
    rewrite Hd, Hleap. zify_bool. lia.
Qed.

Lemma ord2ymd_spec n :
  let '(y, m, d) := ord2ymd (n + 1) in
  400 * (n / 146097) + 1 <= y <= 400 * (n / 146097) + 400 ∧ 1 <= m <= 12
  ∧ 1 <= d <= days_in_month y m ∧ ymd2ord y m d = n + 1.
Proof.
  pose proof (ord2ymd_cycle_spec (n / 146097) (n mod 146097)
    (Z.mod_pos_bound n 146097 ltac:(lia))) as H.
  by rewrite <- Z.div_mod in H by lia.
Qed.

(** *** Fields *)
Lemma two_digits n : 0 <= n < 100 →
  digit_value (48 + n / 10) = Some (n / 10) ∧ digit_value (48 + n mod 10) = Some (n mod 10).
Proof.
  intros Hn.
  assert (∀ k, 0 <= k < 10 → digit_value (48 + k) = Some k) as H.
  { intros k Hk. assert (k ∈ [0;1;2;3;4;5;6;7;8;9]) as Hin.
    { rewrite !elem_of_cons. lia. }
    repeat (apply elem_of_cons in Hin as [->|Hin]; [vm_compute; reflexivity|]).
    by apply elem_of_nil in Hin. }
  split; apply H.
  - split; [apply Z.div_pos; lia|apply Z.div_lt_upper_bound; lia].
  - apply Z.mod_pos_bound. lia.
Qed.

(** A field of every number in range, by computation. *)
Definition field_ok (f : Z → Z → option Z) (n : Z) : bool :=
  match f (48 + n / 10) (48 + n mod 10) with Some k => k =? n | None => false end.

Lemma field_range f lo (n : nat) k :
  all_below (field_ok f) n lo = true → lo <= k < lo + Z.of_nat n →
  f (48 + k / 10) (48 + k mod 10) = Some k.
Proof.
  intros H Hk. pose proof (all_below_spec _ _ _ H k Hk) as Hok. unfold field_ok in Hok.
  destruct (f _ _) as [k'|]; [|done]. apply Z.eqb_eq in Hok. by subst.
Qed.

Lemma days_in_month_le y m : days_in_month y m <= 31.
Proof. unfold days_in_month, month_length. repeat case_match; lia. Qed.

(** [_parse_date(datalog_date(t))] is [t], on whole seconds. *)
Lemma parse_date_text_roundtrip t :
  let '(y, _, _) := ord2ymd (t / secs_per_day + 1) in
  1000 <= y <= 9999 → parse_date_text (date_text t) = Some t.
Proof.
  pose proof (ord2ymd_spec (t / secs_per_day)) as Hspec. unfold date_text.
  destruct (ord2ymd _) as [[y m] d]. intros Hy. destruct Hspec as (_ & Hm & Hd & Hord).
  set (s := t mod secs_per_day).
  assert (0 <= s < 86400) as Hs by (apply Z.mod_pos_bound; done).
  assert (0 <= s / 3600 < 24) as Hh.
  { split; [apply Z.div_pos; lia|apply Z.div_lt_upper_bound; lia]. }
  pose proof (Z.mod_pos_bound (s / 60) 60 ltac:(lia)) as Hmi.
  pose proof (Z.mod_pos_bound s 60 ltac:(lia)) as Hse.
  pose proof (days_in_month_le y m) as Hd31.
  assert (0 <= y / 100 < 100) as Hyh.
  { split; [apply Z.div_pos; lia|apply Z.div_lt_upper_bound; lia]. }
  destruct (two_digits (y / 100) Hyh) as [Ha Hb].
  destruct (two_digits (y mod 100) (Z.mod_pos_bound y 100 ltac:(lia))) as [Hc He].
  unfold four, two. cbn [app u chr]. cbn [parse_date_text].
  change (negb _) with false. cbv iota.
  rewrite Ha, Hb, Hc, He. cbn [mbind option_bind].
  rewrite (field_range month_field 1 12) by (lia || (vm_compute; reflexivity)).
  cbn [mbind option_bind].
  rewrite (field_range day_field 1 31) by (lia || (vm_compute; reflexivity)).
  cbn [mbind option_bind].
  rewrite (field_range hour_field 0 24) by (lia || (vm_compute; reflexivity)).
  cbn [mbind option_bind].
  rewrite !(field_range sixty_field 0 60) by (lia || (vm_compute; reflexivity)).
  cbn [mbind option_bind].
  assert (1000 * (y / 100 / 10) + 100 * ((y / 100) mod 10) + 10 * (y mod 100 / 10)
          + (y mod 100) mod 10 = y) as Hyear.
  { pose proof (Z.div_mod y 100 ltac:(lia)). pose proof (Z.div_mod (y / 100) 10 ltac:(lia)).
    pose proof (Z.div_mod (y mod 100) 10 ltac:(lia)). lia. }
  rewrite Hyear. replace ((1 <=? y) && (d <=? days_in_month y m)) with true by (symmetry; blia).
  f_equal. rewrite Hord. pose proof (Z.div_mod t secs_per_day ltac:(done)) as Ht. fold s in Ht.
  pose proof (Z.div_mod s 60 ltac:(lia)). pose proof (Z.div_mod (s / 60) 60 ltac:(lia)).
  rewrite Z.div_div in * by lia. change (60 * 60) with 3600 in *. lia.
Qed.
