(* ===== verification/PyRe.v ===== *)
(** * Python regular expressions

    The subset of [re] the source's patterns use: literals, character classes,
    greedy repetition of one class, alternation, named groups and
    back-references, and [$].  [match_re] is a backtracking matcher in
    continuation style, so [pattern.match] is a total executable function and
    the patterns are written in the development as they are in the code.
    Nothing here is part of the program; it models the standard library. *)
From S2P Require Import Prelude PyText.

Inductive re :=
| Eps
| Lit (s : pystr)
| Cls (p : Z → bool)
| Star (p : Z → bool)              (* a class, repeated greedily *)
| Seq (a b : re)
| Alt (a b : re)
| Grp (name : string) (r : re)
| Back (name : string)
| Eos.                             (* [$]: the end, or before a final newline *)

Declare Scope re_scope.
Delimit Scope re_scope with re.
Bind Scope re_scope with re.
Infix "⋅" := Seq (at level 35, right associativity) : re_scope.
Infix "∥" := Alt (at level 36, right associativity) : re_scope.
#[global] Open Scope re_scope.

Definition Plus (p : Z → bool) : re := Cls p ⋅ Star p.
Fixpoint Rep (p : Z → bool) (n : nat) : re :=
  match n with O => Eps | S n => Cls p ⋅ Rep p n end.

(** Captures, latest first. *)
Definition captures := list (string * pystr).
Fixpoint group (env : captures) (name : string) : option pystr :=
  match env with
  | [] => None
  | (n, v) :: env => if String.eqb n name then Some v else group env name
  end.

Definition at_end (s : pystr) : bool :=
  match s with [] => true | [c] => c =? newline | _ => false end.

Section matcher.
Context {A : Type}.

Fixpoint star_re (p : Z → bool) (s : pystr) (k : pystr → option A) : option A :=
  match s with
  | c :: s' =>
      if p c then match star_re p s' k with Some x => Some x | None => k s end
      else k s
  | [] => k []
  end.

Fixpoint match_re (r : re) (s : pystr) (env : captures)
    (k : pystr → captures → option A) : option A :=
  match r with
  | Eps => k s env
  | Lit l => match strip_prefix l s with Some s' => k s' env | None => None end
  | Cls p => match s with c :: s' => if p c then k s' env else None | [] => None end
  | Star p => star_re p s (λ s', k s' env)
  | Seq a b => match_re a s env (λ s' env', match_re b s' env' k)
  | Alt a b =>
      match match_re a s env k with Some x => Some x | None => match_re b s env k end
  | Grp n a =>
      match_re a s env
        (λ s' env', k s' ((n, take (length s - length s') s) :: env'))
  | Back n =>
      match group env n with
      | Some v => match strip_prefix v s with Some s' => k s' env | None => None end
      | None => None
      end
  | Eos => if at_end s then k s env else None
  end.
End matcher.

(** [pattern.match(s)]: the captures, or [None]. *)
Definition re_match (r : re) (s : pystr) : option captures :=
  match_re r s [] (λ _ env, Some env).

(** ** The lemmas that make matching deterministic *)
Section laws.
Context {A : Type}.
Implicit Types (k : pystr → option A).

(** If what follows cannot start inside the class, greedy repetition takes the
    whole run and never backtracks. *)
Lemma star_re_delim p s c r k :
  forallb p s = true → p c = false →
  (∀ x t, p x = true → k (x :: t) = None) →
  star_re p (s ++ c :: r) k = k (c :: r).
Proof.
  intros Hs Hc Hk. induction s as [|a s IH]; simpl in *; [by rewrite Hc|].
  apply andb_true_iff in Hs as [Ha Hs]. rewrite Ha, IH by done.
  destruct (k (c :: r)); [done|]. by apply Hk.
Qed.

Lemma star_re_end p s k :
  forallb p s = true → (∀ x t, p x = true → k (x :: t) = None) →
  star_re p s k = k [].
Proof.
  intros Hs Hk. induction s as [|a s IH]; simpl in *; [done|].
  apply andb_true_iff in Hs as [Ha Hs]. rewrite Ha, IH by done.
  destruct (k []); [done|]. by apply Hk.
Qed.

(** A match of a repetition consumed a run of the class. *)
Lemma star_re_Some p s k x :
  star_re p s k = Some x → ∃ a b, s = a ++ b ∧ forallb p a = true ∧ k b = Some x.
Proof.
  induction s as [|c s IH]; simpl.
  - intros. by exists [], [].
  - destruct (p c) eqn:Hc.
    + destruct (star_re p s k) as [y|] eqn:Hy.
      * intros [= ->]. destruct (IH eq_refl) as (a & b & -> & Ha & Hb).
        exists (c :: a), b. simpl. by rewrite Hc, Ha.
      * intros. by exists [], (c :: s).
    + intros. by exists [], (c :: s).
Qed.
End laws.

Lemma at_end_iff s : at_end s = true ↔ s = [] ∨ s = [newline].
Proof.
  destruct s as [|c [|d s]]; simpl; [naive_solver| |naive_solver].
  rewrite Z.eqb_eq. naive_solver.
Qed.

(** Character ranges, as classes are written. *)
Definition rng (a b c : Z) : bool := (a <=? c) && (c <=? b).
