(* ===== verification/PyUuid.v ===== *)
(** * [int(s, base)], [uuid.UUID] and substring search

    The remaining pieces of the standard library the token code uses: integer
    literals in a base, the canonical text of a UUID and the forms [UUID(s)]
    accepts, [sub in s], [rstrip], and [finditer].  Nothing here is part of the
    program. *)
From S2P Require Import Prelude PyText PyNum PyRe.

(** ** [int(s, base)] *)

(** The value of one digit; [int] first maps every Unicode decimal to ASCII. *)
Definition base_digit (base c : Z) : option Z :=
  let v := match digit_value c with
           | Some v => Some v
           | None => if rng 97 122 c then Some (c - 87)
                     else if rng 65 90 c then Some (c - 55) else None
           end in
  match v with Some v => if v <? base then Some v else None | None => None end.

(** Digits with single underscores between them; [after] says a digit came last. *)
Fixpoint base_digits (base : Z) (s : pystr) (acc : Z) (after : bool) : option Z :=
  match s with
  | [] => if after then Some acc else None
  | 95 :: s => if after then base_digits base s acc false else None
  | c :: s => match base_digit base c with
              | Some v => base_digits base s (base * acc + v) true
              | None => None
              end
  end.

Definition split_sign (s : pystr) : bool * pystr :=
  match s with
  | 45 :: r => (true, r)
  | 43 :: r => (false, r)
  | _ => (false, s)
  end.

(** [sys.get_int_max_str_digits()], which binds base ten only. *)
Definition MAX_STR_DIGITS : nat := 4300.

(** [int(s)]; [None] is [ValueError]. *)
Definition parse_int10 (s : pystr) : option Z :=
  let '(neg, r) := split_sign (py_strip s) in
  if Nat.ltb MAX_STR_DIGITS (length (filter (λ c, c ≠ 95) r)) then None else
  n ← base_digits 10 r 0 false;
  Some (if neg : bool then - n else n).

(** [int(s, 16)]: the prefix is optional, and an underscore may follow it. *)
Definition parse_int16 (s : pystr) : option Z :=
  let '(neg, r) := split_sign (py_strip s) in
  let r := match r with
           | 48 :: x :: t =>
               if (x =? 120) || (x =? 88)
               then match t with 95 :: t' => t' | _ => t end else r
           | _ => r
           end in
  n ← base_digits 16 r 0 false;
  Some (if neg : bool then - n else n).

(** ** UUIDs *)
Definition hex_digit (n : Z) : Z := if n <? 10 then 48 + n else 87 + n.

(** The [k] low hexadecimal digits of [n], most significant first. *)
Fixpoint hex_digits (k : nat) (n : Z) : pystr :=
  match k with
  | O => []
  | S k => hex_digits k (n / 16) ++ [hex_digit (n mod 16)]
  end.

(** [str(uuid)]. *)
Definition uuid_text (x : uuid) : pystr :=
  let h := hex_digits 32 (Z.of_N x) in
  take 8 h ++ u "-" ++ take 4 (drop 8 h) ++ u "-" ++ take 4 (drop 12 h) ++ u "-"
  ++ take 4 (drop 16 h) ++ u "-" ++ drop 20 h.

(** [s.replace(p, "")]. *)
Fixpoint remove_all (fuel : nat) (p s : pystr) : pystr :=
  match fuel with
  | O => s
  | S fuel =>
      match strip_prefix p s with
      | Some r => remove_all fuel p r
      | None => match s with [] => [] | c :: s => c :: remove_all fuel p s end
      end
  end.
Definition str_remove (p s : pystr) : pystr := remove_all (S (length s)) p s.

Definition strip_braces (s : pystr) : pystr :=
  let brace c := (c =? 123) || (c =? 125) in
  reverse (drop_while brace (reverse (drop_while brace s))).

(** [UUID(s)]; [None] is [ValueError]. *)
Definition parse_uuid (s : pystr) : option uuid :=
  let h := str_remove (u "-") (strip_braces (str_remove (u "uuid:") (str_remove (u "urn:") s))) in
  if negb (Nat.eqb (length h) 32) then None else
  n ← parse_int16 h;
  if (0 <=? n) && (n <? 2 ^ 128) then Some (Z.to_N n) else None.

(** ** Substrings and stripping *)

(** [sub in s]. *)
Fixpoint contains (sub s : pystr) : bool :=
  starts_with sub s || match s with [] => false | _ :: s => contains sub s end.

(** [s.rstrip(chars)]. *)
Definition rstrip_chars (p : Z → bool) (s : pystr) : pystr :=
  reverse (drop_while p (reverse s)).

(** ** [pattern.finditer(s)]

    Each match as what follows it, how long it is, and its captures, with how much
    of the text came before; a match is never empty here. *)
Record found := Found { fd_start : nat; fd_end : nat; fd_env : captures }.

Fixpoint finditer_from (r : re) (fuel pos : nat) (s : pystr) : list found :=
  match fuel with
  | O => []
  | S fuel =>
      match match_re r s [] (λ rest env, Some (rest, env)) with
      | Some (rest, env) =>
          let n := (length s - length rest)%nat in
          Found pos (pos + n) env :: finditer_from r fuel (pos + n) (drop n s)
      | None => match s with [] => [] | _ :: s => finditer_from r fuel (S pos) s end
      end
  end.
Definition finditer (r : re) (s : pystr) : list found := finditer_from r (S (length s)) 0 s.

(** ** Lemmas *)
Lemma parse_uuid_text_0 : parse_uuid (uuid_text 0) = Some 0%N.
Proof. vm_compute. reflexivity. Qed.
