(* ===== verification/PySha.v ===== *)
(** * SHA-256 and UTF-8

    [hashlib.sha256(b).hexdigest()] on a list of bytes, executable, and
    [str.encode("utf-8")] with its injectivity.  Nothing here is part of the
    program; it models the standard library. *)
From S2P Require Import Prelude PyText Errors PyNum.

(** ** Words of 32 bits *)
Definition w32 (x : Z) : Z := Z.land x 4294967295.
Definition rotr (n x : Z) : Z := Z.lor (Z.shiftr x n) (w32 (Z.shiftl x (32 - n))).

Definition sig0 (x : Z) : Z := Z.lxor (Z.lxor (rotr 7 x) (rotr 18 x)) (Z.shiftr x 3).
Definition sig1 (x : Z) : Z := Z.lxor (Z.lxor (rotr 17 x) (rotr 19 x)) (Z.shiftr x 10).
Definition Sig0 (x : Z) : Z := Z.lxor (Z.lxor (rotr 2 x) (rotr 13 x)) (rotr 22 x).
Definition Sig1 (x : Z) : Z := Z.lxor (Z.lxor (rotr 6 x) (rotr 11 x)) (rotr 25 x).
Definition ch (x y z : Z) : Z := Z.lxor (Z.land x y) (Z.land (Z.lxor x 4294967295) z).
Definition maj (x y z : Z) : Z := Z.lxor (Z.lxor (Z.land x y) (Z.land x z)) (Z.land y z).

(** The constants are the first 32 bits after the point of the cube roots of the
    first 64 primes, and of the square roots of the first eight. *)
Fixpoint icbrt (bits : nat) (n acc : Z) : Z :=
  match bits with
  | O => acc
  | S b => let t := acc + 2 ^ Z.of_nat b in icbrt b n (if t * t * t <=? n then t else acc)
  end.

Definition is_prime (n : Z) : bool :=
  forallb (λ d, negb (n mod d =? 0)) (seqZ 2 (Z.sqrt n - 1)).
Definition primes : list Z := filter (λ n, is_prime n = true) (seqZ 2 310).

Definition round_constants : list Z :=
  Eval vm_compute in (λ p, w32 (icbrt 40 (p * 2 ^ 96) 0)) <$> primes.
Definition initial_state : list Z :=
  Eval vm_compute in (λ p, w32 (Z.sqrt (p * 2 ^ 64))) <$> take 8 primes.

(** ** Message schedule and compression *)
Definition be_word (b : list Z) : Z := foldl (λ acc x, acc * 256 + x) 0 b.

Fixpoint chunks (n : nat) (fuel : nat) (l : list Z) : list (list Z) :=
  match fuel, l with
  | S fuel, _ :: _ => take n l :: chunks n fuel (drop n l)
  | _, _ => []
  end.

(** [ws] holds the words so far, the last one first. *)
Fixpoint extend (n : nat) (ws : list Z) : list Z :=
  match n with
  | O => ws
  | S n =>
      let w i := nth i ws 0 in
      extend n (w32 (sig1 (w 1%nat) + w 6%nat + sig0 (w 14%nat) + w 15%nat) :: ws)
  end.

Definition schedule (block : list Z) : list Z :=
  reverse (extend 48 (reverse (be_word <$> chunks 4 16 block))).

Definition round (st : list Z) (kw : Z * Z) : list Z :=
  match st with
  | [a; b; c; d; e; f; g; h] =>
      let t1 := h + Sig1 e + ch e f g + kw.1 + kw.2 in
      let t2 := Sig0 a + maj a b c in
      [w32 (t1 + t2); a; b; c; w32 (d + t1); e; f; g]
  | _ => st
  end.

Definition compress (st : list Z) (block : list Z) : list Z :=
  zip_with (λ x y, w32 (x + y)) st
    (foldl round st (zip round_constants (schedule block))).

(** The padding: a one bit, zeros, and the length in bits on 64 bits. *)
Definition be_bytes (n : nat) (x : Z) : list Z :=
  reverse ((λ i, Z.land (Z.shiftr x (8 * Z.of_nat i)) 255) <$> seq 0 n).

Definition pad (msg : list Z) : list Z :=
  let zeros := Z.to_nat ((55 - Z.of_nat (length msg)) mod 64) in
  msg ++ [128] ++ repeat 0 zeros ++ be_bytes 8 (8 * Z.of_nat (length msg)).

Definition sha256 (msg : list Z) : list Z :=
  let padded := pad msg in
  foldl compress initial_state (chunks 64 (length padded) padded) ≫= be_bytes 4.

Definition hex_digit (n : Z) : Z := if n <? 10 then 48 + n else 87 + n.
Definition sha256_hexdigest (msg : list Z) : pystr :=
  sha256 msg ≫= λ b, [hex_digit (b / 16); hex_digit (b mod 16)].

Example sha256_abc :
  sha256_hexdigest (u "abc") = u "ba7816bf8f01cfea414140de5dae2223b00361a396177a9cb410ff61f20015ad".
Proof. vm_compute. reflexivity. Qed.
Example sha256_empty :
  sha256_hexdigest [] = u "e3b0c44298fc1c149afbf4c8996fb92427ae41e4649b934ca495991b7852b855".
Proof. vm_compute. reflexivity. Qed.
Example sha256_two_blocks :
  sha256_hexdigest (u "abcdbcdecdefdefgefghfghighijhijkijkljklmklmnlmnomnopnopq")
  = u "248d6a61d20638b8e5c026930c3e6039a33ce45964ff2167f6ecedd419db06c1".
Proof. vm_compute. reflexivity. Qed.

(** ** The shape of a digest *)
Lemma be_bytes_byte n x b : b ∈ be_bytes n x → 0 <= b < 256.
Proof.
  unfold be_bytes. rewrite elem_of_reverse. intros (i & -> & _)%list_elem_of_fmap.
  change 255 with (Z.ones 8). rewrite Z.land_ones by lia. apply Z.mod_pos_bound. lia.
Qed.

Lemma length_round st kw : length (round st kw) = length st.
Proof. by destruct st as [|? [|? [|? [|? [|? [|? [|? [|? [|? ?]]]]]]]]]. Qed.

Lemma length_compress st b : length (compress st b) = length st.
Proof.
  unfold compress. rewrite length_zip_with.
  assert (H : ∀ l s, length (foldl round s l) = length s).
  { induction l as [|kw l IH]; intros s; simpl; [done|]. by rewrite IH, length_round. }
  rewrite H. lia.
Qed.

Lemma length_sha256 msg : length (sha256 msg) = 32%nat.
Proof.
  unfold sha256. set (bs := chunks _ _ _). clearbody bs.
  assert (H : ∀ bs st, length (foldl compress st bs) = length st).
  { clear. induction bs as [|b bs IH]; intros st; simpl; [done|]. by rewrite IH, length_compress. }
  assert (E : ∀ l : list Z, length (l ≫= be_bytes 4) = (4 * length l)%nat).
  { induction l as [|x l IH]; [done|]. rewrite bind_cons, length_app, IH. simpl.
    change (length (be_bytes 4 x)) with 4%nat. lia. }
  rewrite E, H. done.
Qed.

Definition is_hex (c : Z) : bool := is_digit c || ((97 <=? c) && (c <=? 102)).

Lemma hex_digit_hex n : 0 <= n < 16 → is_hex (hex_digit n) = true.
Proof.
  intros Hn. unfold is_hex, hex_digit, is_digit. destruct (Z.ltb_spec n 10).
  - rewrite (proj2 (Z.leb_le 48 _)), (proj2 (Z.leb_le _ 57)) by lia. done.
  - rewrite (proj2 (Z.leb_le 97 _)), (proj2 (Z.leb_le _ 102)) by lia. apply orb_true_r.
Qed.

(** A digest is 64 lowercase hex characters. *)
Lemma sha256_hexdigest_shape msg :
  length (sha256_hexdigest msg) = 64%nat ∧ forallb is_hex (sha256_hexdigest msg) = true.
Proof.
  assert (Hb : Forall (λ b, 0 <= b < 256) (sha256 msg)).
  { apply Forall_forall. unfold sha256. intros b (x & Hb & _)%list_elem_of_bind.
    by apply be_bytes_byte in Hb. }
  pose proof (length_sha256 msg) as Hl. unfold sha256_hexdigest.
  change 64%nat with (2 * 32)%nat. rewrite <- Hl. clear Hl.
  induction Hb as [|b l Hb _ [IH1 IH2]]; [done|].
  rewrite bind_cons. cbn [app length forallb]. split.
  - rewrite IH1. lia.
  - rewrite IH2, !hex_digit_hex; [done|..].
    + apply Z.mod_pos_bound. lia.
    + split; [apply Z.div_pos; lia|apply Z.div_lt_upper_bound; lia].
Qed.

(** ** UTF-8 *)

(** Code points [str] can hold; [encode] refuses the surrogates. *)
Definition is_scalar (c : Z) : bool :=
  (0 <=? c) && (c <? 1114112) && negb ((55296 <=? c) && (c <? 57344)).

Definition utf8_char (c : Z) : list Z :=
  if c <? 128 then [c]
  else if c <? 2048 then [192 + c / 64; 128 + c mod 64]
  else if c <? 65536 then [224 + c / 4096; 128 + c / 64 mod 64; 128 + c mod 64]
  else [240 + c / 262144; 128 + c / 4096 mod 64; 128 + c / 64 mod 64; 128 + c mod 64].

(** [s.encode("utf-8")]. *)
Definition utf8_encode (s : pystr) : py (list Z) :=
  if forallb is_scalar s then Ok (s ≫= utf8_char) else Raise UnicodeEncodeError.

Lemma utf8_char_inj c d s t :
  is_scalar c = true → is_scalar d = true →
  utf8_char c ++ s = utf8_char d ++ t → c = d ∧ s = t.
Proof.
  unfold is_scalar, utf8_char. intros Hc Hd.
  apply andb_true_iff in Hc as [Hc _], Hd as [Hd _]. zify_bool.
  destruct (Z.ltb_spec c 128), (Z.ltb_spec d 128), (Z.ltb_spec c 2048), (Z.ltb_spec d 2048),
    (Z.ltb_spec c 65536), (Z.ltb_spec d 65536); try lia; cbn [app]; intros E;
    injection E as E; subst; try (split; [|done]);
    Z.to_euclidean_division_equations; lia.
Qed.

Lemma utf8_encode_inj s t b : utf8_encode s = Ok b → utf8_encode t = Ok b → s = t.
Proof.
  unfold utf8_encode. destruct (forallb is_scalar s) eqn:Hs; [|done].
  destruct (forallb is_scalar t) eqn:Ht; [|done]. intros [= <-] [= E].
  revert t Ht E. induction s as [|c s IH]; intros [|d t] Ht E; [done|..].
  - exfalso. revert E. rewrite bind_cons. unfold utf8_char. by repeat case_match.
  - exfalso. revert E. rewrite bind_cons. unfold utf8_char. by repeat case_match.
  - simpl in Hs, Ht. apply andb_true_iff in Hs as [Hc Hs], Ht as [Hd Ht].
    rewrite !bind_cons in E. symmetry in E.
    apply utf8_char_inj in E as [-> E]; [|done..]. f_equal. auto.
Qed.
