(* ===== verification/PyUrl.v ===== *)
(** * UTF-8 decoding and [urllib.parse]

    [bytes.decode("utf-8")], strict and replacing, percent-decoding, and the query
    string as [parse_qsl] reads it.  Nothing here is part of the program; it models
    the standard library. *)
From S2P Require Import Prelude PyText Errors PyNum PyRe PyUuid PySha.

(** ** UTF-8 *)
Definition is_cont (b : Z) : bool := (128 <=? b) && (b <? 192).

(** The bytes a lead byte may be followed by: how many, and the range of the first. *)
Definition lead_byte (b : Z) : option (nat * Z * Z * Z) :=
  if (194 <=? b) && (b <? 224) then Some (1%nat, b - 192, 128, 191)
  else if b =? 224 then Some (2%nat, 0, 160, 191)
  else if b =? 237 then Some (2%nat, 13, 128, 159)
  else if (225 <=? b) && (b <? 240) then Some (2%nat, b - 224, 128, 191)
  else if b =? 240 then Some (3%nat, 0, 144, 191)
  else if b =? 244 then Some (3%nat, 4, 128, 143)
  else if (241 <=? b) && (b <? 244) then Some (3%nat, b - 240, 128, 191)
  else None.

(** Reading continuation bytes: the character, or how many bytes of it there were. *)
Fixpoint read_cont (n : nat) (lo hi acc : Z) (s : list Z) : option (Z * list Z) * list Z :=
  match n with
  | O => (Some (acc, s), s)
  | S n =>
      match s with
      | b :: s' => if (lo <=? b) && (b <=? hi) then read_cont n 128 191 (64 * acc + (b - 128)) s'
                   else (None, s)
      | [] => (None, [])
      end
  end.

(** One character, or the longest start of one that cannot be completed. *)
Definition utf8_step (b : Z) (s : list Z) : option Z * list Z :=
  if b <? 128 then (Some b, s) else
  match lead_byte b with
  | None => (None, s)
  | Some (n, acc, lo, hi) =>
      match read_cont n lo hi acc s with
      | (Some (c, rest), _) => (Some c, rest)
      | (None, rest) => (None, rest)
      end
  end.

Fixpoint utf8_read (fuel : nat) (s : list Z) : list (option Z) :=
  match fuel, s with
  | S fuel, b :: s => let '(c, rest) := utf8_step b s in c :: utf8_read fuel rest
  | _, _ => []
  end.

(** [b.decode("utf-8", errors="replace")]. *)
Definition utf8_decode_replace (s : list Z) : pystr :=
  default 65533 <$> utf8_read (length s) s.

(** [b.decode("utf-8")]; [None] is [UnicodeDecodeError]. *)
Definition utf8_decode (s : list Z) : option pystr := mapM id (utf8_read (length s) s).

(** ** Percent-decoding *)
Definition hex_nibble (c : Z) : option Z :=
  if is_digit c then Some (c - 48)
  else if rng 97 102 c then Some (c - 87)
  else if rng 65 70 c then Some (c - 55) else None.

(** [unquote_to_bytes] of ASCII text. *)
Fixpoint unquote_bytes (s : pystr) : list Z :=
  match s with
  | [] => []
  | c :: r =>
      match (if c =? 37 then match r with
             | h :: l :: r => match hex_nibble h, hex_nibble l with
                              | Some h, Some l => Some (16 * h + l, r) | _, _ => None end
             | _ => None end else None) with
      | Some (b, r') => b :: match r with _ :: _ :: r'' => unquote_bytes r'' | _ => [] end
      | None => c :: unquote_bytes r
      end
  end.

Definition is_ascii (c : Z) : bool := c <? 128.

(** [unquote(s)]: each run of ASCII is decoded on its own. *)
Fixpoint unquote_runs (fuel : nat) (s : pystr) : pystr :=
  match fuel, s with
  | S fuel, c :: _ =>
      if is_ascii c
      then let '(run, rest) := span is_ascii s in
           utf8_decode_replace (unquote_bytes run) ++ unquote_runs fuel rest
      else let '(run, rest) := span (λ c, negb (is_ascii c)) s in run ++ unquote_runs fuel rest
  | _, _ => []
  end.
Definition unquote (s : pystr) : pystr := unquote_runs (length s) s.

(** ** Query strings *)

(** [s.split(c)] on a one-character separator. *)
Fixpoint split_char (c : Z) (s : pystr) : list pystr :=
  match s with
  | [] => [[]]
  | a :: s =>
      if a =? c then [] :: split_char c s
      else match split_char c s with [] => [[a]] | p :: ps => (a :: p) :: ps end
  end.

(** [s.partition(c)]: before, and after if [c] occurs. *)
Fixpoint partition_char (c : Z) (s : pystr) : pystr * option pystr :=
  match s with
  | [] => ([], None)
  | a :: s => if a =? c then ([], Some s)
              else let '(before, after) := partition_char c s in (a :: before, after)
  end.

Definition form_decode (s : pystr) : pystr := unquote (replace_char 43 (u " ") s).

(** [parse_qsl(qs, keep_blank_values=True)]. *)
Definition parse_qsl (qs : pystr) : list (pystr * pystr) :=
  omap (λ field : pystr,
    match field with
    | [] => None
    | _ => let '(name, v) := partition_char 61 field in
           Some (form_decode name, form_decode (default [] v))
    end) (split_char 38 qs).

(** ** Lemmas *)
Lemma split_char_app c s t : c ∉ s → split_char c (s ++ c :: t) = s :: split_char c t.
Proof.
  induction s as [|a s IH]; intros Hn; simpl.
  { by rewrite Z.eqb_refl. }
  apply not_elem_of_cons in Hn as [Hne Hn]. rewrite (proj2 (Z.eqb_neq a c)) by congruence.
  by rewrite IH.
Qed.

Lemma split_char_none c s : c ∉ s → split_char c s = [s].
Proof.
  induction s as [|a s IH]; intros Hn; simpl; [done|].
  apply not_elem_of_cons in Hn as [Hne Hn]. rewrite (proj2 (Z.eqb_neq a c)) by congruence.
  by rewrite IH.
Qed.

(** [c.join(s.split(c))] is [s]. *)
Lemma split_char_join c s : py_join [c] (split_char c s) = s.
Proof.
  induction s as [|a s IH]; simpl; [done|]. destruct (Z.eqb_spec a c) as [->|Hne].
  - destruct (split_char c s) as [|p ps] eqn:E; [|by rewrite <- IH].
    by destruct s; simpl in E; repeat case_match.
  - destruct (split_char c s) as [|p ps] eqn:E.
    + by destruct s; simpl in E; repeat case_match.
    + rewrite <- IH. by destruct ps.
Qed.

Example unquote_once : unquote (u "a%252Fb%2Fc%C3%A9%FF") = u "a%2Fb/c" ++ [233; 65533].
Proof. vm_compute. reflexivity. Qed.

Example query_repeats :
  parse_qsl (u "amount=1&amount=99%2E5&flag&x=a+b") =
  [(u "amount", u "1"); (u "amount", u "99.5"); (u "flag", []); (u "x", u "a b")].
Proof. vm_compute. reflexivity. Qed.
