(* ===== verification/PyJson.v ===== *)
(** * [json.loads] and [str(Decimal)]

    JSON text as the standard library reads it with [parse_int] and [parse_float] set
    to [Decimal] and a hook that sees every pair of an object: objects keep their
    repetitions, numbers are exact.  [json_value] takes fuel; [json_fuel] shows that
    two units per character are enough.  The interpreter's recursion limit on deeply
    nested text is not modelled. *)
From S2P Require Import Prelude PyText Errors PyNum PyRe PyUuid PySha PyUrl.

Inductive json :=
| JNull
| JBool (b : bool)
| JNum (neg : bool) (d : decimal)        (* [Decimal] of the literal; the sign tells [-0] *)
| JConst (s : pystr)                     (* [NaN], [Infinity]: a float, by its [str] *)
| JStr (s : pystr)
| JArr (l : list json)
| JObj (kvs : list (pystr * json)).      (* every pair, in order *)

Definition json_ws (c : Z) : bool := (c =? 32) || (c =? 9) || (c =? 10) || (c =? 13).
Definition skip_ws (s : pystr) : pystr := drop_while json_ws s.

(** ** Strings *)
Definition hex_quad (a b c d : Z) : option Z :=
  w ← hex_nibble a; x ← hex_nibble b; y ← hex_nibble c; z ← hex_nibble d;
  Some (4096 * w + 256 * x + 16 * y + z).

Definition simple_escape (c : Z) : option Z :=
  if (c =? 34) || (c =? 92) || (c =? 47) then Some c
  else if c =? 98 then Some 8 else if c =? 102 then Some 12
  else if c =? 110 then Some 10 else if c =? 114 then Some 13
  else if c =? 116 then Some 9 else None.

Definition is_high (c : Z) : bool := (55296 <=? c) && (c <? 56320).
Definition is_low (c : Z) : bool := (56320 <=? c) && (c <? 57344).

Definition cons_char (c : Z) (m : py (pystr * pystr)) : py (pystr * pystr) :=
  p ← m; Ok (c :: p.1, p.2).

(** What follows an opening quote: the string and what comes after it. *)
Fixpoint json_string (s : pystr) : py (pystr * pystr) :=
  match s with
  | [] => Raise ValueError
  | c :: r =>
      if c =? dquote then Ok ([], r)
      else if c <? 32 then Raise ValueError
      else if negb (c =? backslash) then cons_char c (json_string r)
      else match r with
      | [] => Raise ValueError
      | e :: r =>
          if negb (e =? 117) then
            match simple_escape e with
            | Some x => cons_char x (json_string r)
            | None => Raise ValueError
            end
          else match r with
          | a :: b :: c :: d :: r =>
              match hex_quad a b c d with
              | None => Raise ValueError
              | Some x =>
                  match r with
                  | 92 :: 117 :: a :: b :: c :: d :: r' =>
                      match hex_quad a b c d with
                      | Some y =>
                          if is_high x && is_low y
                          then cons_char (65536 + (x - 55296) * 1024 + (y - 56320)) (json_string r')
                          else cons_char x (json_string r)
                      | None => cons_char x (json_string r)
                      end
                  | _ => cons_char x (json_string r)
                  end
              end
          | _ => Raise ValueError
          end
      end
  end.

(** ** Numbers *)
Definition json_int (s : pystr) : option (pystr * pystr) :=
  match s with
  | 48 :: r => Some ([48], r)
  | _ => match span is_digit s with ([], _) => None | p => Some p end
  end.

(** An optional part: a lead, then at least one digit. *)
Definition json_tail (lead : pystr) (s : pystr) (r : pystr) : pystr * pystr :=
  match span is_digit s with ([], _) => ([], r) | (ds, rest) => (lead ++ ds, rest) end.

Definition json_frac (s : pystr) : pystr * pystr :=
  match s with 46 :: r => json_tail [46] r s | _ => ([], s) end.

Definition json_exp (s : pystr) : pystr * pystr :=
  match s with
  | e :: r =>
      if (e =? 101) || (e =? 69) then
        match r with
        | c :: t => if (c =? 43) || (c =? 45) then json_tail [e; c] t s else json_tail [e] r s
        | [] => ([], s)
        end
      else ([], s)
  | [] => ([], s)
  end.

(** The literal and what follows. *)
Definition json_number (s : pystr) : option (pystr * pystr) :=
  let '(sign, s) := match s with 45 :: r => ([45], r) | _ => ([], s) end in
  '(i, s) ← json_int s;
  let '(f, s) := json_frac s in
  let '(e, s) := json_exp s in
  Some (sign ++ i ++ f ++ e, s).

(** [Decimal(literal)]. *)
Definition json_decimal (literal : pystr) : py json :=
  match parse_decimal literal with
  | Some (DFin d) => Ok (JNum (starts_with [45] literal) d)
  | _ => Raise InvalidOperation
  end.

Definition json_literals : list (pystr * json) :=
  [(u "null", JNull); (u "true", JBool true); (u "false", JBool false); (u "NaN", JConst (u "nan"));
   (u "Infinity", JConst (u "inf")); (u "-Infinity", JConst (u "-inf"))].

Definition json_atom (s : pystr) : py (json * pystr) :=
  match omap (λ p : pystr * json, (λ r, (p.2, r)) <$> strip_prefix p.1 s) json_literals with
  | p :: _ => Ok p
  | [] =>
      match json_number s with
      | Some (literal, r) => j ← json_decimal literal; Ok (j, r)
      | None => Raise ValueError
      end
  end.

(** ** Values *)

(** After an item: a comma and more of them, or the closing bracket. *)
Definition json_next {A} (close : Z) (more : pystr → py (A * pystr)) (last : A) (s : pystr)
    : py (A * pystr) :=
  match skip_ws s with
  | c :: r => if c =? 44 then more (skip_ws r) else if c =? close then Ok (last, r) else Raise ValueError
  | [] => Raise ValueError
  end.

(** After an opening bracket: the closing one, or items. *)
Definition json_items {A} (close : Z) (items : pystr → py (list A * pystr)) (mk : list A → json)
    (s : pystr) : py (json * pystr) :=
  match skip_ws s with
  | c :: r => if c =? close then Ok (mk [], r)
              else p ← items (c :: r); Ok (mk p.1, p.2)
  | [] => Raise ValueError
  end.

Fixpoint json_value (fuel : nat) (s : pystr) : py (json * pystr) :=
  match fuel with
  | O => Raise RuntimeError
  | S fuel =>
      match s with
      | [] => Raise ValueError
      | c :: r =>
          if c =? dquote then p ← json_string r; Ok (JStr p.1, p.2)
          else if c =? 123 then json_items 125 (json_pairs fuel) JObj r
          else if c =? 91 then json_items 93 (json_elems fuel) JArr r
          else json_atom s
      end
  end
with json_pairs (fuel : nat) (s : pystr) : py (list (pystr * json) * pystr) :=
  match fuel, s with
  | O, _ => Raise RuntimeError
  | S _, [] => Raise ValueError
  | S fuel, c :: r =>
      if negb (c =? dquote) then Raise ValueError else
      k ← json_string r;
      match skip_ws k.2 with
      | [] => Raise ValueError
      | c :: r =>
          if negb (c =? 58) then Raise ValueError else
          v ← json_value fuel (skip_ws r);
          json_next 125 (λ r, p ← json_pairs fuel r; Ok ((k.1, v.1) :: p.1, p.2)) [(k.1, v.1)] v.2
      end
  end
with json_elems (fuel : nat) (s : pystr) : py (list json * pystr) :=
  match fuel with
  | O => Raise RuntimeError
  | S fuel =>
      v ← json_value fuel s;
      json_next 93 (λ r, p ← json_elems fuel r; Ok (v.1 :: p.1, p.2)) [v.1] v.2
  end.

(** [json.loads(s, parse_float=Decimal, parse_int=Decimal)]. *)
Definition json_loads (s : pystr) : py json :=
  p ← json_value (2 * length s + 2) (skip_ws s);
  match skip_ws p.2 with [] => Ok p.1 | _ => Raise ValueError end.

(** ** [str(Decimal)] *)
Definition zeros (n : Z) : pystr := repeat 48 (Z.to_nat n).

Definition dec_str (neg : bool) (d : decimal) : pystr :=
  let digits := py_str_int (Z.abs (dcoef d)) in
  let n := Z.of_nat (length digits) in
  let leftdigits := dexp d + n in
  let dotplace := if (dexp d <=? 0) && (-6 <? leftdigits) then leftdigits else 1 in
  let body :=
    if dotplace <=? 0 then u "0." ++ zeros (- dotplace) ++ digits
    else if n <=? dotplace then digits ++ zeros (dotplace - n)
    else take (Z.to_nat dotplace) digits ++ u "." ++ drop (Z.to_nat dotplace) digits in
  let e := leftdigits - dotplace in
  (if neg then u "-" else []) ++ body
  ++ (if e =? 0 then [] else u "E" ++ (if e <? 0 then u "-" else u "+") ++ py_str_int (Z.abs e)).

(** ** Fuel *)
Lemma drop_while_length p s : (length (drop_while p s) <= length s)%nat.
Proof. induction s as [|c s IH]; simpl; [lia|]. destruct (p c); simpl; lia. Qed.

(** A call that recurses through [cons_char] on a shorter text. *)
Ltac json_cases tac :=
  repeat (first [tac; simpl; lia | case_match; try (tac; simpl; lia)]).

Lemma json_string_length s t r : json_string s = Ok (t, r) → (length r < length s)%nat.
Proof.
  remember (length s) as n eqn:En. revert s t r En.
  induction (lt_wf n) as [n _ IH]. intros s t r ->.
  assert (Hc : ∀ c s', (length s' < length s)%nat →
    cons_char c (json_string s') = Ok (t, r) → (length r < length s)%nat).
  { intros c s' Hl Hm. apply bind_Ok_inv in Hm as ([t' r'] & Hm & [= _ <-]).
    specialize (IH (length s') Hl s' t' r' eq_refl Hm). lia. }
  destruct s as [|c s]; [done|]. cbn [json_string].
  destruct (c =? dquote); [intros [= _ <-]; simpl; lia|].
  destruct (c <? 32); [done|]. destruct (negb (c =? backslash)); [apply Hc; simpl; lia|].
  destruct s as [|e s]; [done|]. destruct (negb (e =? 117)).
  { destruct (simple_escape e); [|done]. apply Hc. simpl. lia. }
  destruct s as [|a [|b [|x [|d s]]]]; try done. destruct (hex_quad a b x d) as [v|]; [|done].
  json_cases ltac:(apply Hc).
Qed.

Lemma skip_ws_length s : (length (skip_ws s) <= length s)%nat.
Proof. apply drop_while_length. Qed.

Lemma span_length p s a b : span p s = (a, b) → length s = (length a + length b)%nat.
Proof. intros E. pose proof (span_app p s) as H. rewrite E in H. rewrite <- H. apply length_app. Qed.

Lemma json_tail_length lead s r x y :
  (length s <= length r)%nat → json_tail lead s r = (x, y) → (length y <= length r)%nat.
Proof.
  unfold json_tail. destruct (span is_digit s) as [ds rest] eqn:E. apply span_length in E.
  destruct ds; intros ? [= _ <-]; simpl in *; lia.
Qed.

Lemma json_number_length s l r : json_number s = Some (l, r) → (length r < length s)%nat.
Proof.
  unfold json_number. destruct (match s with 45 :: r => _ | _ => _ end) as [sign s1] eqn:E1.
  assert (length s1 <= length s)%nat.
  { clear -E1. repeat case_match; simplify_eq; simpl; lia. }
  destruct (json_int s1) as [[i s2]|] eqn:E2; [|done]. cbn [mbind option_bind].
  assert (length s2 < length s1)%nat.
  { unfold json_int in E2. destruct (span is_digit s1) as [a b] eqn:Es. apply span_length in Es.
    repeat case_match; simplify_eq; simpl in *; lia. }
  destruct (json_frac s2) as [f s3] eqn:E3.
  assert (length s3 <= length s2)%nat.
  { unfold json_frac in E3. repeat case_match; simplify_eq; try (simpl; lia);
      (eapply json_tail_length; [|exact E3]; simpl; lia). }
  destruct (json_exp s3) as [e s4] eqn:E4. intros [= _ <-].
  assert (length s4 <= length s3)%nat; [|lia].
  unfold json_exp in E4. repeat case_match; simplify_eq; try (simpl; lia);
    (eapply json_tail_length; [|exact E4]; simpl; lia).
Qed.

Lemma json_atom_length s j r : json_atom s = Ok (j, r) → (length r < length s)%nat.
Proof.
  unfold json_atom. destruct (omap _ json_literals) as [|p ps] eqn:E.
  - destruct (json_number s) as [[l r']|] eqn:En; [|done]. apply json_number_length in En.
    intros (? & _ & [= _ <-])%bind_Ok_inv. done.
  - intros [= ->]. assert (Hin : (j, r) ∈ omap (λ p : pystr * json, (λ r, (p.2, r)) <$> strip_prefix p.1 s) json_literals)
      by (rewrite E; left).
    apply list_elem_of_omap in Hin as ([k v] & Hk & Hs). cbn [fst snd] in Hs.
    destruct (strip_prefix k s) as [r'|] eqn:Ep; [|done]. injection Hs as _ <-.
    apply strip_prefix_Some in Ep as ->. rewrite length_app.
    assert (length k ≠ 0)%nat; [|lia].
    unfold json_literals in Hk. rewrite !elem_of_cons, elem_of_nil in Hk.
    by decompose [or] Hk; simplify_eq.
Qed.

Lemma json_atom_total s : json_atom s ≠ Raise RuntimeError.
Proof.
  unfold json_atom. destruct (omap _ _); [|done]. destruct (json_number s) as [[l r]|]; [|done].
  unfold json_decimal. by destruct (parse_decimal l) as [[]|].
Qed.

Lemma json_string_total s : json_string s ≠ Raise RuntimeError.
Proof.
  remember (length s) as n eqn:En. revert s En. induction (lt_wf n) as [n _ IH]. intros s ->.
  assert (Hc : ∀ c s', (length s' < length s)%nat → cons_char c (json_string s') ≠ Raise RuntimeError).
  { intros c s' Hl. unfold cons_char. specialize (IH (length s') Hl s' eq_refl).
    destruct (json_string s'); [done|]. cbn [mbind res_bind]. congruence. }
  destruct s as [|c s]; [done|]. cbn [json_string]. destruct (c =? dquote); [done|].
  destruct (c <? 32); [done|]. destruct (negb (c =? backslash)); [apply Hc; simpl; lia|].
  destruct s as [|e s]; [done|]. destruct (negb (e =? 117)).
  { destruct (simple_escape e); [|done]. apply Hc. simpl. lia. }
  destruct s as [|a [|b [|x [|d s]]]]; try done. destruct (hex_quad a b x d) as [v|]; [|done].
  json_cases ltac:(apply Hc).
Qed.

(** Reading shortens the text, and does not run out of fuel. *)
Definition reads {A} (s : pystr) (m : py (A * pystr)) : Prop :=
  match m with Ok (_, r) => (length r < length s)%nat | Raise e => e ≠ RuntimeError end.

Lemma reads_bind {A B} (s t : pystr) (m : py (A * pystr)) (f : A * pystr → py (B * pystr)) :
  reads t m → (∀ a r, (length r < length t)%nat → reads s (f (a, r))) → reads s (m ≫= f).
Proof. destruct m as [[a r]|e]; simpl; auto. Qed.

Lemma reads_string s : reads s (json_string s).
Proof.
  unfold reads. destruct (json_string s) as [[t r]|e] eqn:E; [by eapply json_string_length|].
  intros ->. by apply json_string_total in E.
Qed.

Lemma reads_atom s : reads s (json_atom s).
Proof.
  unfold reads. destruct (json_atom s) as [[t r]|e] eqn:E; [by eapply json_atom_length|].
  intros ->. by apply json_atom_total in E.
Qed.

Lemma reads_next {A} (s t : pystr) close (more : pystr → py (A * pystr)) last :
  (length t < length s)%nat →
  (∀ r, (length r < length t)%nat → reads s (more r)) →
  reads s (json_next close more last t).
Proof.
  intros Hl Hm. unfold json_next. pose proof (skip_ws_length t) as Ht.
  destruct (skip_ws t) as [|c r]; [done|]. cbn [length] in Ht. pose proof (skip_ws_length r).
  destruct (c =? 44); [apply Hm; lia|]. destruct (c =? close); simpl; [lia|done].
Qed.

Lemma reads_items {A} (s t : pystr) close (items : pystr → py (list A * pystr)) mk :
  (length t < length s)%nat →
  (∀ r, (length r <= length t)%nat → reads r (items r)) →
  reads s (json_items close items mk t).
Proof.
  intros Hl Hm. unfold json_items. pose proof (skip_ws_length t) as Ht.
  destruct (skip_ws t) as [|c r]; [done|]. cbn [length] in Ht.
  destruct (c =? close); [simpl; lia|].
  eapply reads_bind; [apply Hm; simpl; lia|]. intros. simpl in *. lia.
Qed.

Lemma json_fuel n s :
  ((2 * length s < n)%nat → reads s (json_value n s))
  ∧ ((2 * length s < n)%nat → reads s (json_pairs n s))
  ∧ ((2 * length s + 1 < n)%nat → reads s (json_elems n s)).
Proof.
  revert s. induction n as [|n IH]; intros s; [split_and!; lia|]. split_and!; intros Hn.
  - cbn [json_value]. pose proof (reads_atom s) as Ha. destruct s as [|c s]; [done|].
    cbn [length] in Hn. destruct (c =? dquote).
    { eapply reads_bind; [apply reads_string|]. intros. simpl. lia. }
    destruct (c =? 123); [apply reads_items; [simpl; lia|intros; apply IH; lia]|].
    destruct (c =? 91); [apply reads_items; [simpl; lia|intros; apply IH; lia]|exact Ha].
  - cbn [json_pairs]. destruct s as [|c s]; [done|]. cbn [length] in Hn.
    destruct (negb _); [done|]. eapply reads_bind; [apply reads_string|]. intros k r Hr. cbn [fst snd].
    pose proof (skip_ws_length r) as Hr'. destruct (skip_ws r) as [|c1 t]; [done|]. cbn [length] in Hr'.
    destruct (negb _); [done|]. pose proof (skip_ws_length t) as Ht.
    eapply reads_bind; [apply IH; lia|]. intros v r1 Hr1. cbn [fst snd].
    apply reads_next; [simpl; lia|]. intros r2 Hr2.
    eapply reads_bind; [apply IH; lia|]. intros. simpl. lia.
  - cbn [json_elems]. eapply reads_bind; [apply IH; lia|]. intros v r Hr. cbn [fst snd].
    apply reads_next; [lia|]. intros r2 Hr2. eapply reads_bind; [apply IH; lia|]. intros. simpl. lia.
Qed.

(** The parser answers on every text. *)
Lemma json_loads_total s : json_loads s ≠ Raise RuntimeError.
Proof.
  unfold json_loads. pose proof (skip_ws_length s) as Hs.
  destruct (json_fuel (2 * length s + 2) (skip_ws s)) as [H _]. specialize (H ltac:(lia)).
  destruct (json_value _ _) as [[v r]|e]; cbn [mbind res_bind snd fst].
  - by destruct (skip_ws r).
  - intros [= ->]. by apply H.
Qed.

(** Quotes for double quotes, in examples. *)
Definition json_text (s : string) : pystr := (λ c, if c =? 39 then 34 else c) <$> u s.

Example json_repeats :
  json_loads (json_text "{'amount': 1, 'amount': -0.5e3, 'x': ['\u00e9\ud83d\ude00', null]} ")
  = Ok (JObj [(u "amount", JNum false (Dec 1 0)); (u "amount", JNum true (Dec (-5) 2));
              (u "x", JArr [JStr [233; 128512]; JNull])]).
Proof. vm_compute. reflexivity. Qed.

Example unclosed : json_loads (u "[[[[[[") = Raise ValueError.
Proof. vm_compute. reflexivity. Qed.

Example dec_str_forms :
  dec_str false (Dec 150 (-2)) = u "1.50" ∧ dec_str true (Dec (-5) 2) = u "-5E+2"
  ∧ dec_str false (Dec 12 (-9)) = u "1.2E-8" ∧ dec_str false (Dec 12 (-7)) = u "0.0000012"
  ∧ dec_str true (Dec 0 0) = u "-0".
Proof. split_and!; vm_compute; reflexivity. Qed.
