(* ===== verification/Models.v ===== *)
(** * Domain models (agentiam_core/models.py)

    The shapes every other component passes around, validated at construction.
    A pydantic model is a record of already validated fields plus a constructor
    [mk_*] that runs the model's validators in order and raises
    [ValidationError]; frozen models never change after that.  Money fields hold
    a whole number of 1/10000 units (pydantic's [decimal_places=4] and
    [max_digits=20] leave nothing else), instants are microseconds since
    0001-01-01 UTC, and a raw [datetime] carries whether it is timezone-aware. *)
From S2P Require Import Prelude PyText Errors PyNum PyRe.

Definition BUDGET_SCALE : Z := 10000.
Definition MAX_DELEGATION_DEPTH : Z := 8.
Definition MAX_LABEL_LENGTH : nat := 128.

(** [datetime]: a UTC instant when aware, a wall-clock reading when naive. *)
Record datetime := DT { dt_us : Z; dt_aware : bool }.
#[global] Instance datetime_eq_dec : EqDecision datetime.
Proof. solve_decision. Defined.

(** The instant of an aware datetime; a naive one is refused. *)
Definition aware (d : datetime) : py Z :=
  if dt_aware d then Ok (dt_us d) else Raise ValidationError.

(** ** Patterns *)
Definition lower_az : Z → bool := rng 97 122.
Definition az09_ (c : Z) : bool := rng 97 122 c || rng 48 57 c || (c =? 95).
Definition hex_lower (c : Z) : bool := rng 48 57 c || rng 97 102 c.

Definition _SCOPE_RE : re :=
  (Cls lower_az ⋅ Star az09_ ⋅ Lit (u ":") ⋅ Cls lower_az ⋅ Star az09_ ⋅ Eos)%re.
Definition _HEX64_RE : re := (Rep hex_lower 64 ⋅ Eos)%re.

Definition matches (r : re) (s : pystr) : bool := bool_decide (is_Some (re_match r s)).

(** The characters [_UNSAFE_LABEL_RE] finds. *)
Definition unsafe_label_char (c : Z) : bool :=
  (c =? dquote) || (c =? backslash) || rng 0 31 c || rng 127 159 c
  || (c =? 8206) || (c =? 8207) || rng 8234 8238 c || rng 8294 8297 c.

Definition validate_label (value : pystr) : py pystr :=
  raise_if (bool_decide (value = [])) ValueError;;
  raise_if (Nat.ltb MAX_LABEL_LENGTH (length value)) ValueError;;
  raise_if (existsb unsafe_label_char value) ValueError;;
  Ok value.

(** ** Raw values

    What a caller may pass where the model declares a number or a string. *)
Inductive pyval :=
| PFloat
| PInt (n : Z)
| PDec (d : decimal)
| PStr (s : pystr).

Definition _reject_float (v : pyval) : py pyval :=
  match v with PFloat => Raise ValidationError | _ => Ok v end.

(** The number of 1/10000 units in [d], when that is exact. *)
Definition dec_units (d : decimal) : option Z :=
  let e := dexp d + 4 in
  if 0 <=? e then Some (dcoef d * 10 ^ e)
  else if dcoef d mod 10 ^ (- e) =? 0 then Some (dcoef d / 10 ^ (- e)) else None.

(** [Money]: [Field(ge=0, decimal_places=4, max_digits=20)]. *)
Definition MONEY_LIMIT : Z := 10 ^ 20.
Definition money_of (d : decimal) : py Z :=
  match dec_units d with
  | Some n => if (0 <=? n) && (n <? MONEY_LIMIT) then Ok n else Raise ValidationError
  | None => Raise ValidationError
  end.
(** [Count]: [Field(ge=0)]. *)
Definition count_of (n : Z) : py Z := if 0 <=? n then Ok n else Raise ValidationError.

Definition dec_of_units (n : Z) : decimal := Dec n (-4).

(** What a NUMERIC(20,4) column keeps of a finite decimal: its 1/10000 units, rounded
    half away from zero. *)
Definition numeric_round (d : decimal) : Z :=
  if -4 <=? dexp d then dcoef d * 10 ^ (dexp d + 4)
  else let p := 10 ^ (-4 - dexp d) in
       Z.sgn (dcoef d) * ((2 * Z.abs (dcoef d) + p) / (2 * p)).

(** [Decimal(value) * BUDGET_SCALE], refused with [err] if not integral. *)
Definition scaled_or (err : exn) (value : decimal) : py Z :=
  scaled ← dec_mul value (dec_of_int BUDGET_SCALE);
  if dec_is_integral scaled then Ok (dec_to_int scaled) else Raise err.

Definition _to_scaled : decimal → py Z := scaled_or ScaleError.

(** [Decimal(scaled) / BUDGET_SCALE]: a power of ten only moves the exponent. *)
Definition unscale_dec (n : Z) : py decimal := dec_fix (Dec n (-4)).

(** ** Enumerations *)
Inductive BudgetDimension :=
| SPEND_BDT | TOOL_CALLS | ROWS_READ | EXTERNAL_EMAILS | WALL_CLOCK_S.
Inductive CaveatKind :=
| K_SCOPE_SUBSET | K_BUDGET_CEILING | K_TIME_WINDOW | K_TOOL_ALLOW | K_TOOL_DENY
| K_ARG_PREDICATE | K_DEPTH_LIMIT | K_INTENT_BOUND | K_REQUIRES_APPROVAL.
Inductive ArgOperator := LE | LT | GE | GT | EQ | NE | IN | NOT_IN.
Inductive Outcome := ALLOW | DENY | ESCALATE | ALLOW_WITH_FLAG.
Inductive LeaseState := ACTIVE | RELEASED | EXPIRED | REVOKED.
Inductive DriftMode := OFF | LOG_ONLY | STRICT.

#[global] Instance BudgetDimension_eq_dec : EqDecision BudgetDimension.
Proof. solve_decision. Defined.
#[global] Instance CaveatKind_eq_dec : EqDecision CaveatKind.
Proof. solve_decision. Defined.
#[global] Instance ArgOperator_eq_dec : EqDecision ArgOperator.
Proof. solve_decision. Defined.
#[global] Instance Outcome_eq_dec : EqDecision Outcome.
Proof. solve_decision. Defined.
#[global] Instance LeaseState_eq_dec : EqDecision LeaseState.
Proof. solve_decision. Defined.
#[global] Instance DriftMode_eq_dec : EqDecision DriftMode.
Proof. solve_decision. Defined.

(** Iteration order of the enum, [for d in BudgetDimension]. *)
Definition all_dimensions : list BudgetDimension :=
  [SPEND_BDT; TOOL_CALLS; ROWS_READ; EXTERNAL_EMAILS; WALL_CLOCK_S].

Lemma elem_of_all_dimensions d : d ∈ all_dimensions.
Proof. destruct d; unfold all_dimensions; set_solver. Qed.

#[global] Instance BudgetDimension_finite_countable : Countable BudgetDimension.
Proof.
  refine (inj_countable'
    (λ d, match d with SPEND_BDT => 0%nat | TOOL_CALLS => 1%nat | ROWS_READ => 2%nat
          | EXTERNAL_EMAILS => 3%nat | WALL_CLOCK_S => 4%nat end)
    (λ n, match n with 0%nat => SPEND_BDT | 1%nat => TOOL_CALLS | 2%nat => ROWS_READ
          | 3%nat => EXTERNAL_EMAILS | _ => WALL_CLOCK_S end) _).
  by intros [].
Defined.

Definition dimension_value (d : BudgetDimension) : pystr :=
  match d with
  | SPEND_BDT => u "spend_bdt" | TOOL_CALLS => u "tool_calls" | ROWS_READ => u "rows_read"
  | EXTERNAL_EMAILS => u "external_emails" | WALL_CLOCK_S => u "wall_clock_s"
  end.

(** [BudgetDimension(s)]; [None] is [ValueError]. *)
Definition dimension_of (s : pystr) : option BudgetDimension :=
  snd <$> list_find (λ d, dimension_value d = s) all_dimensions.

Lemma dimension_of_value d : dimension_of (dimension_value d) = Some d.
Proof. by destruct d. Qed.

(** [MEMBERSHIP_OPERATORS]. *)
Definition is_membership (op : ArgOperator) : bool :=
  match op with IN | NOT_IN => true | _ => false end.

(** ** f-strings

    Human-readable details are the template and the interpolated values: which
    values reach a record is what the code promises (never an argument value),
    and their layout is not modelled. *)
Inductive fstr_arg :=
| FStr (s : pystr) | FInt (n : Z) | FDec (d : decimal) | FInstant (t : Z)
| FExn (e : exn).                        (* [str(exc)] *)
Record fstr := F { f_template : string; f_args : list fstr_arg }.
#[global] Instance fstr_arg_eq_dec : EqDecision fstr_arg.
Proof. solve_decision. Defined.
#[global] Instance fstr_eq_dec : EqDecision fstr.
Proof. solve_decision. Defined.
Definition no_detail : fstr := F "" [].

(** A validator that raises [ValueError] surfaces as [ValidationError]. *)
Definition validated {A} (m : py A) : py A :=
  match m with Ok a => Ok a | Raise _ => Raise ValidationError end.

(** ** Budget *)
Record Budget := mkBudget {
  spend_bdt : Z;                    (* Money *)
  tool_calls : Z;
  rows_read : Z;
  external_emails : Z;
  wall_clock_s : Z }.
#[global] Instance Budget_eq_dec : EqDecision Budget.
Proof. solve_decision. Defined.

(** The fields' own constraints. *)
Definition Budget_valid (b : Budget) : bool :=
  (0 <=? spend_bdt b) && (spend_bdt b <? MONEY_LIMIT) && (0 <=? tool_calls b)
  && (0 <=? rows_read b) && (0 <=? external_emails b) && (0 <=? wall_clock_s b).

Definition Budget_default : Budget := mkBudget 0 0 0 0 0.

Definition mk_Budget (spend : decimal) (calls rows emails wall : Z) : py Budget :=
  s ← money_of spend; c ← count_of calls; r ← count_of rows;
  e ← count_of emails; w ← count_of wall;
  Ok (mkBudget s c r e w).

Definition Budget_get (b : Budget) (d : BudgetDimension) : decimal :=
  match d with
  | SPEND_BDT => dec_of_units (spend_bdt b)
  | TOOL_CALLS => dec_of_int (tool_calls b)
  | ROWS_READ => dec_of_int (rows_read b)
  | EXTERNAL_EMAILS => dec_of_int (external_emails b)
  | WALL_CLOCK_S => dec_of_int (wall_clock_s b)
  end.

Definition Budget_scaled (b : Budget) (d : BudgetDimension) : py Z :=
  _to_scaled (Budget_get b d).

(** One count dimension of [from_scaled]: refused unless it divides evenly. *)
Definition unscale_count (scaled : Z) : py Z :=
  exact ← unscale_dec scaled;
  if dec_is_integral exact then Ok (dec_to_int exact) else Raise ScaleError.

(** [Budget.from_scaled(values)]; a dimension not in [values] keeps its default. *)
Definition from_scaled (values : BudgetDimension → option Z) : py Budget :=
  let count d := match values d with Some n => unscale_count n | None => Ok 0 end in
  s ← match values SPEND_BDT with Some n => unscale_dec n | None => Ok (dec_of_int 0) end;
  c ← count TOOL_CALLS; r ← count ROWS_READ; e ← count EXTERNAL_EMAILS;
  w ← count WALL_CLOCK_S;
  mk_Budget s c r e w.

Definition Budget_covers (b other : Budget) : bool :=
  forallb (λ d, dec_leb (Budget_get other d) (Budget_get b d)) all_dimensions.

Definition Budget_min (b other : Budget) : py Budget :=
  vs ← res_map (λ d, x ← Budget_scaled b d; y ← Budget_scaled other d; Ok (d, Z.min x y))
         all_dimensions;
  from_scaled (λ d, snd <$> (snd <$> list_find (λ p, p.1 = d) vs)).

(** ** Mandate *)
Record Mandate := mkMandate {
  m_mandate_id : uuid;
  m_task_id : uuid;
  m_principal_id : pystr;
  m_intent_hash : pystr;
  m_scopes : gset pystr;
  m_budget : Budget;
  m_max_depth : Z;
  m_not_before : Z;
  m_expires_at : Z }.

Definition check_hex64 (s : pystr) : py pystr :=
  if matches _HEX64_RE s then Ok s else Raise ValidationError.

Definition check_scopes (scopes : gset pystr) : py (gset pystr) :=
  if forallb (matches _SCOPE_RE) (elements scopes) then Ok scopes else Raise ValidationError.

Definition mk_Mandate (mandate_id task_id : uuid) (principal_id intent_hash : pystr)
    (scopes : gset pystr) (budget : Budget) (max_depth : Z)
    (not_before expires_at : datetime) : py Mandate :=
  p ← validated (validate_label principal_id);
  h ← check_hex64 intent_hash;
  s ← check_scopes scopes;
  raise_if (negb ((1 <=? max_depth) && (max_depth <=? MAX_DELEGATION_DEPTH))) ValidationError;;
  nb ← aware not_before;
  ex ← aware expires_at;
  raise_if (ex <=? nb) ValidationError;;
  Ok (mkMandate mandate_id task_id p h s budget max_depth nb ex).

(** ** Caveats *)
Inductive caveat_value :=
| CNum (d : decimal) | CStr (s : pystr) | CSet (X : gset pystr).
#[global] Instance caveat_value_eq_dec : EqDecision caveat_value.
Proof. solve_decision. Defined.

Inductive Caveat :=
| ScopeSubset (scopes : gset pystr)
| BudgetCeiling (dimension : BudgetDimension) (value : Z)
| TimeWindow (not_before not_after : option Z)
| ToolAllow (tools : gset pystr)
| ToolDeny (tools : gset pystr)
| ArgPredicate (path : pystr) (op : ArgOperator) (value : caveat_value)
| DepthLimit (max_depth : Z)
| IntentBound (intent_hash : pystr)
| RequiresApproval (scopes : gset pystr).
#[global] Instance Caveat_eq_dec : EqDecision Caveat.
Proof. solve_decision. Defined.

Definition caveat_kind_of (c : Caveat) : CaveatKind :=
  match c with
  | ScopeSubset _ => K_SCOPE_SUBSET
  | BudgetCeiling _ _ => K_BUDGET_CEILING
  | TimeWindow _ _ => K_TIME_WINDOW
  | ToolAllow _ => K_TOOL_ALLOW
  | ToolDeny _ => K_TOOL_DENY
  | ArgPredicate _ _ _ => K_ARG_PREDICATE
  | DepthLimit _ => K_DEPTH_LIMIT
  | IntentBound _ => K_INTENT_BOUND
  | RequiresApproval _ => K_REQUIRES_APPROVAL
  end.

Definition mk_ScopeSubset (scopes : gset pystr) : py Caveat :=
  s ← check_scopes scopes; Ok (ScopeSubset s).

Definition mk_BudgetCeiling (d : BudgetDimension) (value : decimal) : py Caveat :=
  v ← money_of value; Ok (BudgetCeiling d v).

Definition option_aware (t : option datetime) : py (option Z) :=
  match t with None => Ok None | Some d => x ← aware d; Ok (Some x) end.

(** [_sane_interval]: some bound, and a non-empty window. *)
Definition sane_interval (nb na : option Z) : bool :=
  match nb, na with
  | None, None => false
  | Some b, Some a => b <? a
  | _, _ => true
  end.

Definition mk_TimeWindow (not_before not_after : option datetime) : py Caveat :=
  nb ← option_aware not_before; na ← option_aware not_after;
  if sane_interval nb na then Ok (TimeWindow nb na) else Raise ValidationError.

(** [_operator_matches_value]: membership takes a set, comparison a scalar. *)
Definition operator_matches_value (op : ArgOperator) (v : caveat_value) : bool :=
  match v with CSet _ => is_membership op | _ => negb (is_membership op) end.

Definition mk_ArgPredicate (path : pystr) (op : ArgOperator) (v : caveat_value) : py Caveat :=
  raise_if (bool_decide (path = [])) ValidationError;;
  if operator_matches_value op v then Ok (ArgPredicate path op v) else Raise ValidationError.

Definition mk_DepthLimit (n : Z) : py Caveat :=
  if (0 <=? n) && (n <=? MAX_DELEGATION_DEPTH) then Ok (DepthLimit n) else Raise ValidationError.

Definition mk_IntentBound (h : pystr) : py Caveat :=
  x ← check_hex64 h; Ok (IntentBound x).

(** What every constructor establishes. *)
Definition Caveat_valid (c : Caveat) : bool :=
  match c with
  | ScopeSubset s => forallb (matches _SCOPE_RE) (elements s)
  | BudgetCeiling _ v => (0 <=? v) && (v <? MONEY_LIMIT)
  | TimeWindow nb na => sane_interval nb na
  | ToolAllow _ | ToolDeny _ | RequiresApproval _ => true
  | ArgPredicate p op v => negb (bool_decide (p = [])) && operator_matches_value op v
  | DepthLimit n => (0 <=? n) && (n <=? MAX_DELEGATION_DEPTH)
  | IntentBound h => matches _HEX64_RE h
  end.

(** ** Request context *)
Inductive arg_value := VNum (d : decimal) | VStr (s : pystr).
#[global] Instance arg_value_eq_dec : EqDecision arg_value.
Proof. solve_decision. Defined.

Record RequestContext := mkRequestContext {
  operation : pystr;
  requested : gmap BudgetDimension Z;     (* Money *)
  current_depth : Z;
  request_intent : pystr;
  ctx_now : Z;
  ctx_tool : option pystr;
  ctx_args : gmap pystr arg_value;
  task_intent_text : option pystr;
  action_intent_text : option pystr;
  drift_mode : DriftMode }.

(** [_every_dimension_present]. *)
Definition every_dimension_present (r : gmap BudgetDimension Z) : bool :=
  forallb (λ d, bool_decide (is_Some (r !! d))) all_dimensions.

(** A raw argument: a float is refused, an int becomes exact. *)
Definition arg_of (v : pyval) : py arg_value :=
  v ← _reject_float v;
  match v with
  | PInt n => Ok (VNum (dec_of_int n))
  | PDec d => Ok (VNum d)
  | PStr s => Ok (VStr s)
  | PFloat => Raise ValidationError
  end.

Definition mk_RequestContext (op : pystr) (req : gmap BudgetDimension decimal) (depth : Z)
    (intent : pystr) (now : datetime) (tool : option pystr)
    (args : list (pystr * pyval)) (task_text action_text : option pystr)
    (mode : DriftMode) : py RequestContext :=
  moneys ← res_map (λ p, n ← money_of p.2; Ok (p.1, n)) (map_to_list req);
  depth ← count_of depth;
  t ← aware now;
  vals ← res_map (λ p, v ← arg_of p.2; Ok (p.1, v)) args;
  let req' : gmap BudgetDimension Z := list_to_map moneys in
  raise_if (negb (every_dimension_present req')) ValidationError;;
  Ok (mkRequestContext op req' depth intent t tool (list_to_map vals)
        task_text action_text mode).

(** [ctx.requested[d]]; the validator makes it total. *)
Definition requested_of (ctx : RequestContext) (d : BudgetDimension) : Z :=
  default 0 (requested ctx !! d).

Definition RequestContext_valid (ctx : RequestContext) : bool :=
  every_dimension_present (requested ctx) && (0 <=? current_depth ctx)
  && forallb (λ p, (0 <=? p.2) && (p.2 <? MONEY_LIMIT)) (map_to_list (requested ctx)).

(** ** Decision records *)
Record CaveatRef := mkCaveatRef {
  block_index : Z; ref_kind : CaveatKind; ref_detail : option fstr }.
#[global] Instance CaveatRef_eq_dec : EqDecision CaveatRef.
Proof. solve_decision. Defined.

Record RecordedAuthority := mkRecordedAuthority {
  ra_scopes : option (list pystr);
  ra_ceilings : list (pystr * decimal);
  ra_not_after : option Z;
  ra_max_depth : option Z }.
#[global] Instance RecordedAuthority_eq_dec : EqDecision RecordedAuthority.
Proof. solve_decision. Defined.

Record DecisionRecord := mkDecisionRecord {
  decision_id : uuid;
  trace_id : pystr;
  timestamp : Z;
  rec_pep_id : pystr;
  token_chain_ids : list pystr;
  rec_principal_id : pystr;
  rec_task_id : uuid;
  rec_agent_id : pystr;
  rec_role : pystr;
  rec_depth : Z;
  rec_scope : pystr;
  tool_id : pystr;
  arg_digest : pystr;
  outcome : Outcome;
  reason_code : ReasonCode;
  reason_detail : fstr;
  failing_caveat : option CaveatRef;
  policy_version : pystr;
  budget_before : Budget;
  budget_after : Budget;
  rec_reservation_id : option uuid;
  drift_score : option decimal;
  drift_features : option (list (pystr * decimal));
  latency_us : Z;
  elevated_by : option pystr;
  authority : option RecordedAuthority }.
#[global] Instance DecisionRecord_eq_dec : EqDecision DecisionRecord.
Proof. solve_decision. Defined.

(** [_outcome_matches_reason]: every deny names a cause, every allow none. *)
Definition outcome_matches_reason (o : Outcome) (r : ReasonCode) : bool :=
  match o, r with
  | ALLOW, OK => true
  | ALLOW, _ => false
  | _, OK => false
  | _, _ => true
  end.

(** The model's validators, on the fields of a candidate record. *)
Definition DecisionRecord_valid (r : DecisionRecord) : bool :=
  negb (bool_decide (trace_id r = [])) && negb (bool_decide (rec_pep_id r = []))
  && negb (bool_decide (rec_principal_id r = [])) && negb (bool_decide (rec_agent_id r = []))
  && (0 <=? rec_depth r) && matches _HEX64_RE (arg_digest r) && (0 <=? latency_us r)
  && outcome_matches_reason (outcome r) (reason_code r).

Definition mk_DecisionRecord (r : DecisionRecord) : py DecisionRecord :=
  if DecisionRecord_valid r then Ok r else Raise ValidationError.

(** ** Lemmas the components share *)

(** Construction is the only way in, so a caveat is valid. *)
Lemma check_scopes_Ok X Y : check_scopes X = Ok Y → Y = X ∧ forallb (matches _SCOPE_RE) (elements X) = true.
Proof. unfold check_scopes. destruct (forallb _ _) eqn:H; [|done]. by intros [= <-]. Qed.

Lemma check_hex64_Ok s t : check_hex64 s = Ok t → t = s ∧ matches _HEX64_RE s = true.
Proof. unfold check_hex64. destruct (matches _ _) eqn:H; [|done]. by intros [= <-]. Qed.

Lemma money_of_Ok d n : money_of d = Ok n → dec_units d = Some n ∧ 0 <= n < MONEY_LIMIT.
Proof.
  unfold money_of. destruct (dec_units d) as [m|]; [|done].
  destruct ((0 <=? m) && (m <? MONEY_LIMIT)) eqn:H; [|done].
  intros [= <-]. zify_bool. done.
Qed.

Lemma quot_mul_exact a b : 0 < b → Z.quot (a * b) b = a.
Proof. intros. rewrite Z.quot_mul; lia. Qed.

(** Up to 24 digits a quantity in units scales exactly. *)
Lemma scaled_or_units err n :
  Z.abs n < 10 ^ 24 → scaled_or err (dec_of_units n) = Ok n.
Proof.
  intros Hn. unfold scaled_or, dec_mul, dec_of_units, dec_of_int, BUDGET_SCALE. simpl.
  destruct (decide (n = 0)) as [->|Hne]; [done|].
  rewrite dec_fix_exact; [|lia| |unfold Etiny, Emax; lia].
  2: { rewrite Z.abs_mul. change (10 ^ 28) with (10 ^ 24 * 10000). lia. }
  cbn [mbind res_bind]. unfold dec_is_integral, dec_to_int.
  cbn [dexp dcoef]. change (10 ^ (- (-4 + 0))) with 10000.
  change (0 <=? -4 + 0) with false. cbn [orb].
  rewrite Z.mod_mul by lia. change (0 =? 0) with true. cbn.
  by rewrite quot_mul_exact by lia.
Qed.

Lemma scaled_or_int err n :
  Z.abs n < 10 ^ 24 → scaled_or err (dec_of_int n) = Ok (n * 10000).
Proof.
  intros Hn. unfold scaled_or, dec_mul, dec_of_int, BUDGET_SCALE. simpl.
  destruct (decide (n = 0)) as [->|Hne]; [done|].
  rewrite dec_fix_exact; [|lia| |unfold Etiny, Emax; lia].
  2: { rewrite Z.abs_mul. change (10 ^ 28) with (10 ^ 24 * 10000). lia. }
  cbn [mbind res_bind]. unfold dec_is_integral, dec_to_int. cbn [dexp dcoef orb].
  change (0 <=? 0 + 0) with true. cbn [orb]. change (10 ^ (0 + 0)) with 1. f_equal. lia.
Qed.

(** ** Oracle verdicts (agentiam_core/decision.py)

    What the PEP's local oracles answer; shared by the pool that answers and the
    decision that asks. *)
Record BudgetVerdict := mkBudgetVerdict {
  bv_ok : bool;
  bv_exhausted_dimension : option BudgetDimension;
  bv_mandate_exhausted : bool }.
#[global] Instance BudgetVerdict_eq_dec : EqDecision BudgetVerdict.
Proof. solve_decision. Defined.
