(* ===== verification/HashingSpec.v ===== *)
(** * What the canonical encoding guarantees

    Order and normalization form do not reach the bytes, the bytes of a JSON
    value determine it, a digest is always a valid hash field, and two chain links
    with one hash are the same link or a SHA-256 collision. *)
From S2P Require Import Prelude PyText Errors PyNum PyTime PyUuid PySha PyRe Models Hashing.

(** ** Induction on values *)
Section value_induction.
Context (P : value → Prop).
Context (Hnone : P VNone) (Hbool : ∀ b, P (VBool b)) (Hint : ∀ n, P (VInt n)) (Hfloat : ∀ x, P (VFloat x))
  (Hdec : ∀ d, P (VDecimal d)) (Hnz : P VNegZero) (Hstr : ∀ s, P (VStr s))
  (Hdt : ∀ t, P (VDatetime t)) (Huuid : ∀ i, P (VUuid i)) (Henum : ∀ v, P v → P (VEnum v))
  (Hmap : ∀ kvs, Forall (λ kv, P kv.2) kvs → P (VMap kvs))
  (Hset : ∀ vs, Forall P vs → P (VSet vs)) (Hseq : ∀ vs, Forall P vs → P (VSeq vs))
  (Hother : P VOther).

Fixpoint value_nested_ind (v : value) : P v :=
  match v with
  | VNone => Hnone | VBool b => Hbool b | VInt n => Hint n | VFloat x => Hfloat x
  | VDecimal d => Hdec d | VNegZero => Hnz | VStr s => Hstr s | VDatetime t => Hdt t
  | VUuid i => Huuid i | VEnum v => Henum v (value_nested_ind v)
  | VMap kvs => Hmap kvs ((fix go l : Forall (λ kv, P kv.2) l :=
      match l with
      | [] => Forall_nil_2 _
      | kv :: l => Forall_cons_2 (λ kv, P kv.2) kv l (value_nested_ind kv.2) (go l)
      end) kvs)
  | VSet vs => Hset vs ((fix go l : Forall P l :=
      match l with
      | [] => Forall_nil_2 _ | v :: l => Forall_cons_2 P v l (value_nested_ind v) (go l) end) vs)
  | VSeq vs => Hseq vs ((fix go l : Forall P l :=
      match l with
      | [] => Forall_nil_2 _ | v :: l => Forall_cons_2 P v l (value_nested_ind v) (go l) end) vs)
  | VOther => Hother
  end.
End value_induction.

(** ** [res_map], permuted *)
Lemma res_map_ok {A B} (f : A → py B) l k :
  Forall2 (λ a b, f a = Ok b) l k → res_map f l = Ok k.
Proof. induction 1 as [|a b l k Hab _ IH]; simpl; [done|]. by rewrite Hab; simpl; rewrite IH. Qed.

Lemma res_map_perm {A B} (f : A → py B) l k l' :
  l ≡ₚ l' → res_map f l = Ok k → ∃ k', res_map f l' = Ok k' ∧ k ≡ₚ k'.
Proof.
  intros Hl H%res_map_Forall2.
  destruct (Permutation_Forall2 Hl H) as (k' & Hk & HF). exists k'. split; [|done].
  by apply res_map_ok.
Qed.

Section hashing_spec.
Context {UN : Unicode} {ST : SortTies}.

(** ** Sorting the items of a mapping *)
Definition encoded (kv : pystr * value) : pystr * py pystr := (_normalize kv.1, _encode kv.2).

Lemma encoded_keys kvs : (encoded <$> kvs).*1 = _normalize <$> kvs.*1.
Proof. by rewrite <- !list_fmap_compose. Qed.

#[local] Instance key_le_total {A} : Total (@key_le A).
Proof. intros x y. unfold key_le. apply (total pystr_le). Qed.
#[local] Instance key_le_trans {A} : Transitive (@key_le A).
Proof. intros x y z. unfold key_le. apply (transitivity (R := pystr_le)). Qed.

Lemma NoDup_keys_inj {K A} (l : list (K * A)) x y :
  NoDup l.*1 → x ∈ l → y ∈ l → x.1 = y.1 → x = y.
Proof.
  intros Hnd [i Hi]%list_elem_of_lookup_1 [j Hj]%list_elem_of_lookup_1 E.
  assert (i = j) as ->; [|congruence].
  apply (NoDup_lookup l.*1 i j x.1); [done|..].
  - by rewrite list_lookup_fmap, Hi.
  - by rewrite list_lookup_fmap, Hj, E.
Qed.

Lemma sorted_keys_unique {A} (l k : list (pystr * A)) :
  l ≡ₚ k → NoDup l.*1 → merge_sort key_le l = merge_sort key_le k.
Proof.
  intros Hp Hnd. apply (Sorted_unique_strong key_le).
  - intros x y Hx Hy. rewrite merge_sort_Permutation in Hx. rewrite merge_sort_Permutation, <- Hp in Hy.
    intros ??. apply (NoDup_keys_inj l); [done..|]. by apply (anti_symm pystr_le).
  - apply (Sorted_merge_sort key_le).
  - apply (Sorted_merge_sort key_le).
  - by rewrite !merge_sort_Permutation.
Qed.

Lemma encode_map kvs :
  _encode (VMap kvs) = (items ← sorted_items kvs (encoded <$> kvs);
                        fields ← res_map field_text items;
                        Ok (u "{" ++ py_join (u ",") fields ++ u "}")).
Proof. done. Qed.

Lemma sorted_items_nodup kvs :
  NoDup (_normalize <$> kvs.*1) →
  sorted_items kvs (encoded <$> kvs) = Ok (merge_sort key_le (encoded <$> kvs)).
Proof. intros. unfold sorted_items. rewrite bool_decide_true; [done|]. by rewrite encoded_keys. Qed.

(** ** Equal values *)

(** Python values that mean the same: strings up to normalization, decimals by
    value, instants to the second, mappings and sets in any order. *)
Inductive same : value → value → Prop :=
| same_none : same VNone VNone
| same_bool b : same (VBool b) (VBool b)
| same_int n : same (VInt n) (VInt n)
| same_dec d e : dec_eqb d e = true → same (VDecimal (DFin d)) (VDecimal (DFin e))
| same_str s t : _normalize s = _normalize t → same (VStr s) (VStr t)
| same_dt s t : s / 1000000 = t / 1000000 → same (VDatetime (DT s true)) (VDatetime (DT t true))
| same_uuid i : same (VUuid i) (VUuid i)
| same_enum v w : same v w → same (VEnum v) (VEnum w)
| same_map l k k' :
    NoDup (_normalize <$> l.*1) → k' ≡ₚ k →
    Forall2 (λ p q, _normalize p.1 = _normalize q.1 ∧ same p.2 q.2) l k' →
    same (VMap l) (VMap k)
| same_set l k k' : k' ≡ₚ k → Forall2 same l k' → same (VSet l) (VSet k)
| same_seq l k : Forall2 same l k → same (VSeq l) (VSeq k).

(** A decimal equal to [c] units quantizes to them. *)
Lemma quantize_of_units d c :
  dec_eqb d (Dec c (-4)) = true →
  quantize d = if prec <? ndigits c then Raise InvalidOperation else Ok (Dec c (-4)).
Proof.
  intros E. unfold quantize. change (- DECIMAL_PLACES) with (-4). change DECIMAL_PLACES with 4.
  assert ((if -4 <=? dexp d then dcoef d * 10 ^ (dexp d + 4)
           else round_half_even (dcoef d) (-4 - dexp d)) = c) as ->; [|done].
  unfold dec_eqb, dec_compare in E. destruct (_ ?= _) eqn:Ec in E; [|done|done].
  apply Z.compare_eq_iff in Ec. cbn [dcoef dexp] in Ec. destruct (Z.leb_spec (-4) (dexp d)).
  - rewrite Z.min_r, Z.sub_diag, Z.mul_1_r in Ec by lia. rewrite <- Ec. repeat f_equal; lia.
  - rewrite Z.min_l, Z.sub_diag, Z.mul_1_r in Ec by lia. rewrite Ec.
    assert (0 < 10 ^ (-4 - dexp d)) as Hp by (apply Z.pow_pos_nonneg; lia).
    unfold round_half_even. set (p := 10 ^ (-4 - dexp d)) in *. clearbody p.
    rewrite Z.abs_mul, (Z.abs_eq p) by lia. rewrite Z.mod_mul, Z.div_mul by lia.
    rewrite (proj2 (Z.ltb_lt (2 * 0) p)) by lia. cbn [orb].
    rewrite Z.sgn_mul, (Z.sgn_pos p) by lia. pose proof (Z.abs_sgn c). nia.
Qed.

Lemma encode_decimal_same d e a :
  dec_eqb d e = true → _encode_decimal (DFin d) = Ok a → _encode_decimal (DFin e) = Ok a.
Proof.
  intros E. unfold _encode_decimal. destruct (quantize d) as [q|] eqn:Hq; [|done].
  destruct (dec_eqb q d) eqn:Hqd; [|done].
  assert (∃ c, q = Dec c (-4)) as [c ->].
  { unfold quantize in Hq. destruct (_ <? _) in Hq; [done|]. injection Hq as <-. by eexists. }
  assert (He : dec_eqb e (Dec c (-4)) = true).
  { apply (dec_eqb_trans _ d); by rewrite dec_eqb_sym. }
  rewrite dec_eqb_sym in Hqd. rewrite (quantize_of_units d c) in Hq by done.
  rewrite (quantize_of_units e c) by done. destruct (_ <? _); [done|].
  by rewrite (dec_eqb_sym _ e), He.
Qed.

(** ** Equal values, equal bytes *)
Lemma Forall2_encode l k es :
  Forall (λ v, ∀ w a, same v w → _encode v = Ok a → _encode w = Ok a) l →
  Forall2 same l k → res_map _encode l = Ok es → res_map _encode k = Ok es.
Proof.
  intros Hl Hs. revert es Hl. induction Hs as [|v w l k Hvw _ IH]; intros es Hl; [done|].
  inversion Hl as [|?? Hv Hl']; subst. simpl. intros (a & Ha & Hr)%bind_Ok_inv.
  apply bind_Ok_inv in Hr as (es' & Hes & [= <-]).
  rewrite (Hv _ _ Hvw Ha). simpl. by rewrite (IH _ Hl' Hes).
Qed.

(** Every item of a mapping that encodes has an encoding. *)
Lemma res_map_elem {A B} (f : A → py B) l k x :
  res_map f l = Ok k → x ∈ l → ∃ y, f x = Ok y.
Proof.
  intros H%res_map_Forall2 [i Hi]%list_elem_of_lookup_1.
  destruct (Forall2_lookup_l _ _ _ _ _ H Hi) as (y & _ & Hy). eauto.
Qed.

Lemma Forall2_encoded l k fields items :
  Forall (λ kv : pystr * value, ∀ w a, same kv.2 w → _encode kv.2 = Ok a → _encode w = Ok a) l →
  Forall2 (λ p q, _normalize p.1 = _normalize q.1 ∧ same p.2 q.2) l k →
  items ≡ₚ encoded <$> l → res_map field_text items = Ok fields →
  encoded <$> l = encoded <$> k.
Proof.
  intros Hl HF Hi Hm.
  assert (He : ∀ kv, kv ∈ l → ∃ a, _encode kv.2 = Ok a).
  { intros kv Hkv. destruct (res_map_elem _ _ _ (encoded kv) Hm) as (y & Hy).
    { rewrite Hi. by apply list_elem_of_fmap_2. }
    unfold field_text in Hy. apply bind_Ok_inv in Hy as (a & Ha & _). eauto. }
  clear Hm Hi. induction HF as [|p q l k [Hk Hs] _ IH]; [done|].
  inversion Hl as [|?? Hp Hl']; subst. rewrite !fmap_cons. f_equal.
  - unfold encoded. rewrite Hk. f_equal. destruct (He p ltac:(left)) as [a Ha].
    rewrite Ha. symmetry. eauto.
  - apply IH; [done|]. intros kv ?. apply He. by right.
Qed.

Lemma same_encode v w a : same v w → _encode v = Ok a → _encode w = Ok a.
Proof.
  revert w a. induction v as [| | | | | | | | |v IH|kvs IH|vs IH|vs IH|] using value_nested_ind;
    intros w a Hs; inversion Hs; subst; try done.
  - apply encode_decimal_same. done.
  - simpl. unfold _encode_str. intros <-. congruence.
  - simpl. unfold _encode_datetime. cbn [dt_aware dt_us]. intros <-.
    match goal with E : _ / _ = _ |- _ => by rewrite E end.
  - simpl. eauto.
  - match goal with Hn : NoDup _, Hp : _ ≡ₚ _, Hf : Forall2 _ _ _ |- _ =>
      rename Hn into Hnd, Hp into Hk, Hf into HF end.
    rewrite !encode_map, sorted_items_nodup by done.
    cbn [mbind res_bind]. intros (fields & Hf & Ha)%bind_Ok_inv.
    assert (E : encoded <$> kvs = encoded <$> k').
    { eapply Forall2_encoded; [done..| |exact Hf]. apply merge_sort_Permutation. }
    assert (Hk' : encoded <$> kvs ≡ₚ encoded <$> k) by by rewrite E, Hk.
    rewrite sorted_items_nodup; [|by rewrite <- encoded_keys, <- Hk', encoded_keys].
    cbn [mbind res_bind].
    rewrite <- (sorted_keys_unique _ _ Hk'); [|by rewrite encoded_keys].
    by rewrite Hf.
  - simpl. intros (es & Hes & [= <-])%bind_Ok_inv.
    match goal with Hp : _ ≡ₚ _, Hf : Forall2 _ _ _ |- _ => rename Hp into Hk, Hf into HF end.
    pose proof (Forall2_encode _ _ _ IH HF Hes) as Hk'.
    destruct (res_map_perm _ _ _ _ Hk Hk') as (es' & -> & Hp). cbn.
    by rewrite (py_sorted_perm _ _ Hp).
  - simpl. intros (es & Hes & [= <-])%bind_Ok_inv.
    by rewrite (Forall2_encode _ _ _ IH ltac:(eassumption) Hes).
Qed.
(** ** Reading a string literal back *)
Definition unhex (c : Z) : Z := if c <? 58 then c - 48 else c - 87.

(** The literal's characters up to its closing quote, and what follows. *)
Fixpoint unescape (t : pystr) : option (pystr * pystr) :=
  match t with
  | 34 :: r => Some ([], r)
  | 92 :: 34 :: r => prod_map (cons 34) id <$> unescape r
  | 92 :: 92 :: r => prod_map (cons 92) id <$> unescape r
  | 92 :: 110 :: r => prod_map (cons 10) id <$> unescape r
  | 92 :: 114 :: r => prod_map (cons 13) id <$> unescape r
  | 92 :: 116 :: r => prod_map (cons 9) id <$> unescape r
  | 92 :: 117 :: _ :: _ :: a :: b :: r =>
      prod_map (cons (16 * unhex a + unhex b)) id <$> unescape r
  | c :: r => prod_map (cons c) id <$> unescape r
  | [] => None
  end.

Lemma unescape_plain c t :
  c ≠ 34 → c ≠ 92 → unescape (c :: t) = prod_map (cons c) id <$> unescape t.
Proof.
  intros H1 H2. destruct c as [|p|p]; [done| |done].
  do 7 (try (destruct p as [p|p|]; try done)).
Qed.

Lemma unescape_char c t :
  is_code c = true → unescape (escape_char c ++ t) = prod_map (cons c) id <$> unescape t.
Proof.
  intros Hc. unfold is_code in Hc. zify_bool. unfold escape_char, dquote, backslash, newline.
  destruct (Z.eqb_spec c 34) as [->|]; [done|]. destruct (Z.eqb_spec c 92) as [->|]; [done|].
  destruct (Z.eqb_spec c 10) as [->|]; [done|]. destruct (Z.eqb_spec c 13) as [->|]; [done|].
  destruct (Z.eqb_spec c 9) as [->|]; [done|].
  destruct ((c <? 32) || (c =? 127)) eqn:Hlow.
  - assert (E : 16 * unhex (hex_digit (c / 16 mod 16)) + unhex (hex_digit (c mod 16)) = c).
    { assert (0 <= c < 128) as Hr.
      { apply orb_true_iff in Hlow. destruct Hlow as [Hl|Hl]; zify_bool; lia. }
      assert (Hd : ∀ d, 0 <= d < 16 → unhex (hex_digit d) = d).
      { intros d Hd. unfold unhex, hex_digit. destruct (Z.ltb_spec d 10).
        - rewrite (proj2 (Z.ltb_lt _ 58)); lia.
        - rewrite (proj2 (Z.ltb_ge _ 58)); lia. }
      rewrite !Hd by (apply Z.mod_pos_bound; lia).
      Z.to_euclidean_division_equations. lia. }
    unfold hex4. cbn [app unescape]. by rewrite E.
  - apply unescape_plain; lia.
Qed.

Lemma unescape_literal s t :
  forallb is_code s = true → unescape ((s ≫= escape_char) ++ 34 :: t) = Some (s, t).
Proof.
  induction s as [|c s IH]; [done|]. cbn [forallb]. intros [Hc Hs]%andb_true_iff.
  rewrite bind_cons, <- app_assoc, unescape_char, IH by done. done.
Qed.

Lemma encode_str_inj s t r r' :
  forallb is_code s = true → forallb is_code t = true →
  _encode_str s ++ r = _encode_str t ++ r' → _normalize s = _normalize t ∧ r = r'.
Proof.
  intros Hs Ht. apply _normalize_code in Hs, Ht. unfold _encode_str.
  rewrite <- !app_comm_cons, <- !app_assoc. intros [= E]. cbn [app] in E.
  pose proof (unescape_literal (_normalize s) r Hs) as H1.
  unfold dquote in E. rewrite E, unescape_literal in H1 by done. by injection H1.
Qed.
(** ** Values of JSON shape *)

(** What a JSON column or a model dump holds: no two keys of a mapping normalize to
    the same text. *)
Fixpoint json_ok (v : value) : bool :=
  match v with
  | VNone | VBool _ | VInt _ => true
  | VStr s => forallb is_code s
  | VSeq vs => forallb json_ok vs
  | VMap kvs =>
      forallb (λ kv, forallb is_code kv.1 && json_ok kv.2) kvs
      && bool_decide (NoDup (_normalize <$> kvs.*1))
  | _ => false
  end.

(** What may follow a value: nothing, a comma, or a closing bracket. *)
Definition delim (s : pystr) : bool :=
  match s with [] => true | c :: _ => (c =? 44) || (c =? 93) || (c =? 125) end.

Definition solid (w : pystr) : bool := match w with [] => false | _ => negb (delim w) end.

(** The first character tells the kind of value. *)
Inductive kind := KNull | KTrue | KFalse | KInt | KStr | KSeq | KMap | KOther.

Definition kind_of (v : value) : kind :=
  match v with
  | VNone => KNull | VBool true => KTrue | VBool false => KFalse
  | VInt _ => KInt | VStr _ => KStr | VSeq _ => KSeq | VMap _ => KMap | _ => KOther
  end.

Definition kind_of_char (c : Z) : kind :=
  if c =? 110 then KNull else if c =? 116 then KTrue else if c =? 102 then KFalse
  else if c =? 34 then KStr else if c =? 91 then KSeq else if c =? 123 then KMap
  else if is_digit c || (c =? 45) then KInt else KOther.

Definition int_char (c : Z) : bool := is_digit c || (c =? 45).

Lemma py_str_int_chars n : forallb int_char (py_str_int n) = true.
Proof.
  assert (H : ∀ d, forallb int_char (uint_chars d) = true).
  { intros d. eapply forallb_forall. intros c Hc. unfold int_char.
    pose proof (uint_chars_digits d) as Hd. rewrite forallb_forall in Hd.
    by rewrite (Hd _ Hc). }
  unfold py_str_int. destruct (Z.to_int n) as [d|d]; [apply H|exact (H d)].
Qed.

Lemma py_str_int_head n : ∃ c r, py_str_int n = c :: r ∧ int_char c = true.
Proof.
  pose proof (py_str_int_chars n) as H. destruct (py_str_int n) as [|c r] eqn:E.
  - exfalso. pose proof (py_int_str n) as Hn. rewrite E in Hn. cbn in Hn. subst n. discriminate E.
  - simpl in H. apply andb_true_iff in H as [H _]. eauto.
Qed.

Lemma kind_int_char c : int_char c = true → kind_of_char c = KInt.
Proof.
  unfold int_char, kind_of_char. intros H. rewrite H.
  apply orb_true_iff in H. unfold is_digit in H.
  repeat case_match; zify_bool; try done; destruct H as [H|H]; zify_bool; lia.
Qed.

Lemma str_int_Ok n a : str_int n = Ok a → a = py_str_int n.
Proof. unfold str_int. destruct (_ <? _); [done|]. by intros [= <-]. Qed.

(** The text of a JSON value starts with a character of its kind. *)
Lemma encode_head v a :
  json_ok v = true → _encode v = Ok a →
  ∃ c r, a = c :: r ∧ kind_of_char c = kind_of v ∧ kind_of v ≠ KOther.
Proof.
  destruct v as [|[]|n| | | |s| | | |kvs| |vs|]; simpl; try done; intros Hv.
  - intros [= <-]. by eexists _, _.
  - intros [= <-]. by eexists _, _.
  - intros [= <-]. by eexists _, _.
  - intros ->%str_int_Ok. destruct (py_str_int_head n) as (c & r & -> & Hc).
    exists c, r. split_and!; [done|by apply kind_int_char|done].
  - intros [= <-]. by eexists _, _.
  - intros (? & _ & (? & _ & [= <-])%bind_Ok_inv)%bind_Ok_inv. by eexists _, _.
  - intros (? & _ & [= <-])%bind_Ok_inv. by eexists _, _.
Qed.

Lemma span_int a s :
  forallb int_char a = true → delim s = true → span int_char (a ++ s) = (a, s).
Proof.
  intros Ha Hs. induction a as [|c a IH]; simpl in *.
  - destruct s as [|c s]; [done|]. simpl in *.
    assert (int_char c = false) as ->; [|done].
    unfold int_char, is_digit. apply orb_true_iff in Hs as [Hs|Hs]; [apply orb_true_iff in Hs as [Hs|Hs]|];
      apply Z.eqb_eq in Hs as ->; done.
  - apply andb_true_iff in Ha as [-> Ha]. by rewrite IH.
Qed.

(** ** Separated lists *)
Section joined.
Context {A B : Type} (R : A → B → Prop) (x : A → pystr) (y : B → pystr).

Lemma join_inj (close : Z) (l : list A) (k : list B) s t :
  close = 93 ∨ close = 125 →
  (∀ a, a ∈ l → solid (x a) = true) → (∀ b, b ∈ k → solid (y b) = true) →
  (∀ a b r r', a ∈ l → b ∈ k → x a ++ r = y b ++ r' → delim r = true → delim r' = true →
     R a b ∧ r = r') →
  py_join (u ",") (x <$> l) ++ close :: s = py_join (u ",") (y <$> k) ++ close :: t →
  Forall2 R l k ∧ s = t.
Proof.
  intros Hc. assert (Hcl : ∀ r, delim (close :: r) = true).
  { intros r. simpl. destruct Hc as [-> | ->]; done. }
  assert (Hne : ∀ w r, solid w = true → w ++ r ≠ close :: s ∧ w ++ r ≠ close :: t).
  { intros [|c w] r Hw; [done|]. simpl in Hw. apply negb_true_iff in Hw.
    split; intros [= -> _]; destruct Hc as [-> | ->]; done. }
  revert k. induction l as [|a l IH]; intros [|b k] Hx Hy HR; cbn [fmap list_fmap].
  - intros [= ->]. done.
  - intros E. symmetry in E. exfalso. destruct k as [|b' k]; cbn in E; [|rewrite <- app_assoc in E];
      apply (Hne _ _ (Hy b ltac:(left))) in E; done.
  - intros E. exfalso. destruct l as [|a' l]; cbn in E; [|rewrite <- app_assoc in E];
      apply (Hne _ _ (Hx a ltac:(left))) in E; done.
  - intros E.
    assert (Hsplit : ∀ (C : Type) (z : C → pystr) c m r,
      ∃ q, py_join (u ",") (z c :: (z <$> m)) ++ close :: r = z c ++ q ∧ delim q = true
           ∧ q = match m with [] => close :: r
                 | _ => 44 :: py_join (u ",") (z <$> m) ++ close :: r end).
    { intros C z c [|c' m] r; cbn [fmap list_fmap py_join].
      - eexists. split_and!; [done|apply Hcl|done].
      - eexists. rewrite <- !app_assoc. split_and!; done. }
    destruct (Hsplit _ x a l s) as (q & Eq & Hq & ->).
    destruct (Hsplit _ y b k t) as (q' & Eq' & Hq' & ->).
    rewrite Eq, Eq' in E. destruct (HR _ _ _ _ ltac:(left) ltac:(left) E Hq Hq') as [Hab Er].
    destruct l as [|a' l], k as [|b' k].
    + injection Er as ->. split; [by repeat constructor|done].
    + exfalso. injection Er as Er _. destruct Hc; lia.
    + exfalso. injection Er as Er _. destruct Hc; lia.
    + injection Er as Er. destruct (IH (b' :: k)) as [HF Hst].
      * intros ??. apply Hx. by right.
      * intros ??. apply Hy. by right.
      * intros ??????. apply HR; by right.
      * exact Er.
      * split; [by constructor|done].
Qed.
End joined.
Lemma encode_solid v a : json_ok v = true → _encode v = Ok a → solid a = true.
Proof.
  intros Hv Ha. destruct (encode_head v a Hv Ha) as (c & r & -> & Hc & Hk).
  simpl. destruct ((c =? 44) || (c =? 93) || (c =? 125)) eqn:E; [|done].
  exfalso. apply orb_true_iff in E as [E|E]; [apply orb_true_iff in E as [E|E]|];
    apply Z.eqb_eq in E as ->; cbn in Hc; congruence.
Qed.

Definition pair_same (p q : pystr * value) : Prop :=
  _normalize p.1 = _normalize q.1 ∧ same p.2 q.2.

(** The reading of one value, and of what follows it. *)
Definition reads_as (v : value) : Prop := ∀ w a b s t,
  json_ok v = true → json_ok w = true → _encode v = Ok a → _encode w = Ok b →
  a ++ s = b ++ t → delim s = true → delim t = true → same v w ∧ s = t.

(** The text a list of values encodes to, once each of them encodes. *)
Definition text_of (v : value) : pystr := match _encode v with Ok a => a | Raise _ => [] end.

Lemma res_map_text {A} (f : A → py pystr) l es :
  res_map f l = Ok es →
  es = (λ v, match f v with Ok a => a | Raise _ => [] end) <$> l
  ∧ ∀ v, v ∈ l → ∃ a, f v = Ok a.
Proof.
  intros Hm. split; [|by eauto using res_map_elem].
  apply res_map_Forall2 in Hm. induction Hm as [|v a l es Ha _ IH]; [done|].
  rewrite fmap_cons, <- IH. by rewrite Ha.
Qed.

Lemma reads_seq l k es fs s t :
  Forall reads_as l → forallb json_ok l = true → forallb json_ok k = true →
  res_map _encode l = Ok es → res_map _encode k = Ok fs →
  py_join (u ",") es ++ 93 :: s = py_join (u ",") fs ++ 93 :: t →
  Forall2 same l k ∧ s = t.
Proof.
  intros HF Hl Hk Hes Hfs. rewrite forallb_forall in Hl, Hk.
  apply res_map_text in Hes as [-> Hes], Hfs as [-> Hfs].
  apply join_inj; [by left|..].
  - intros a Ha. destruct (Hes a Ha) as [e He]. rewrite He.
    apply (encode_solid a); [|done]. by apply Hl, list_elem_of_In.
  - intros a Ha. destruct (Hfs a Ha) as [e He]. rewrite He.
    apply (encode_solid a); [|done]. by apply Hk, list_elem_of_In.
  - intros v w r r' Hv Hw. destruct (Hes v Hv) as [a Ha], (Hfs w Hw) as [b Hb]. rewrite Ha, Hb.
    rewrite Forall_forall in HF. apply (HF v Hv w a b); auto using list_elem_of_In.
    + by apply Hl, list_elem_of_In.
    + by apply Hk, list_elem_of_In.
Qed.

Definition field_of (kv : pystr * value) : pystr :=
  match field_text (encoded kv) with Ok a => a | Raise _ => [] end.

Lemma field_text_Ok kv f :
  field_text (encoded kv) = Ok f →
  ∃ e, _encode kv.2 = Ok e ∧ f = _encode_str (_normalize kv.1) ++ 58 :: e.
Proof.
  unfold field_text, encoded. cbn [fst snd]. intros (e & He & [= <-])%bind_Ok_inv. eauto.
Qed.

Lemma reads_map l k es fs s t :
  Forall (λ kv, reads_as kv.2) l →
  forallb (λ kv, forallb is_code kv.1 && json_ok kv.2) l = true →
  forallb (λ kv, forallb is_code kv.1 && json_ok kv.2) k = true →
  res_map field_text (encoded <$> l) = Ok es → res_map field_text (encoded <$> k) = Ok fs →
  py_join (u ",") es ++ 125 :: s = py_join (u ",") fs ++ 125 :: t →
  Forall2 pair_same l k ∧ s = t.
Proof.
  intros HF Hl Hk Hes Hfs. rewrite forallb_forall in Hl, Hk.
  apply res_map_text in Hes as [-> Hes], Hfs as [-> Hfs].
  rewrite <- !list_fmap_compose.
  assert (He : ∀ (m : list (pystr * value)) kv, (∀ v, v ∈ encoded <$> m → ∃ a, field_text v = Ok a) → kv ∈ m →
    ∃ e, _encode kv.2 = Ok e ∧ field_text (encoded kv) = Ok (_encode_str (_normalize kv.1) ++ 58 :: e)).
  { intros m kv Hm Hkv. destruct (Hm (encoded kv)) as [f Hf]; [by apply list_elem_of_fmap_2|].
    destruct (field_text_Ok _ _ Hf) as (e & ? & ->). eauto. }
  apply join_inj; [by right|..].
  - intros kv Hkv. destruct (He _ _ Hes Hkv) as (e & _ & E). unfold compose. by rewrite E.
  - intros kv Hkv. destruct (He _ _ Hfs Hkv) as (e & _ & E). unfold compose. by rewrite E.
  - intros p q r r' Hp Hq. unfold compose.
    destruct (He _ _ Hes Hp) as (a & Ha & ->), (He _ _ Hfs Hq) as (b & Hb & ->).
    rewrite <- !app_assoc. intros E Hr Hr'.
    specialize (Hl p ltac:(by apply list_elem_of_In)). specialize (Hk q ltac:(by apply list_elem_of_In)).
    apply andb_true_iff in Hl as [Hl1 Hl2], Hk as [Hk1 Hk2].
    apply encode_str_inj in E as [Hn E]; [|by apply _normalize_code..].
    rewrite !_normalize_idem in Hn. injection E as E.
    rewrite Forall_forall in HF. destruct (HF p Hp q.2 a b r r') as [? ->]; done.
Qed.
Lemma forallb_perm {A} (f : A → bool) l k : l ≡ₚ k → forallb f l = true → forallb f k = true.
Proof.
  intros Hp. rewrite !forallb_forall. intros H x Hx. apply H.
  apply list_elem_of_In. rewrite Hp. by apply list_elem_of_In.
Qed.

Lemma encode_reads v : reads_as v.
Proof.
  unfold reads_as.
  induction v as [|b|n| |d0| |s0|t0|i0|v0 _|kvs IH|vs0 _|vs IH|] using value_nested_ind;
    intros w a c s t Hv Hw Ha Hc E Hs Ht; try done;
    pose proof (encode_head _ _ Hv Ha) as (h & r & Ea & Hh & Hk);
    pose proof (encode_head _ _ Hw Hc) as (h' & r' & Ec & Hh' & _);
    assert (h = h') as <- by (rewrite Ea, Ec in E; by injection E);
    rewrite Hh in Hh'; clear Hh Hk h r r' Ea Ec.
  - destruct w as [|[]| | | | | | | | | | | |]; try done. simpl in Ha, Hc.
    injection Ha as <-. injection Hc as <-. injection E as ->. split; [constructor|done].
  - destruct w as [|b'| | | | | | | | | | | |]; try (by destruct b).
    assert (b' = b) as -> by (destruct b, b'; done).
    rewrite Ha in Hc. injection Hc as <-. apply app_inv_head in E. split; [constructor|done].
  - destruct w as [|[]|m| | | | | | | | | | |]; try done.
    simpl in Ha, Hc. apply str_int_Ok in Ha as ->, Hc as ->.
    pose proof (span_int _ s (py_str_int_chars n) Hs) as H1.
    rewrite E, span_int in H1 by (done || apply py_str_int_chars).
    injection H1 as ->%py_str_int_inj ->. split; [constructor|done].
  - destruct w as [|[]| | | | |s1| | | | | | |]; try done. simpl in Ha, Hc.
    injection Ha as <-. injection Hc as <-.
    apply encode_str_inj in E as [En ->]; [|done..]. split; [by constructor|done].
  - destruct w as [|[]| | | | | | | | |kvs'| | |]; try done.
    simpl in Hv, Hw. apply andb_true_iff in Hv as [Hv Hn], Hw as [Hw Hn'].
    rewrite bool_decide_eq_true in Hn, Hn'.
    rewrite encode_map, sorted_items_nodup in Ha, Hc by done. cbn [mbind res_bind] in Ha, Hc.
    apply bind_Ok_inv in Ha as (es & Hes & [= <-]), Hc as (fs & Hfs & [= <-]).
    set (ms := merge_sort key_le (encoded <$> kvs)) in *.
    set (ms' := merge_sort key_le (encoded <$> kvs')) in *.
    destruct (Permutation_map_inv (l1 := ms) encoded kvs) as (l & El & Hl);
      [apply merge_sort_Permutation|].
    destruct (Permutation_map_inv (l1 := ms') encoded kvs') as (k & Ek & Hk);
      [apply merge_sort_Permutation|].
    rewrite El in Hes. rewrite Ek in Hfs. clear ms ms' El Ek.
    cbn [app] in E. rewrite <- !app_assoc in E. injection E as E.
    destruct (reads_map l k es fs s t) as [HF ->]; [| | |done..|].
    + by rewrite <- Hl.
    + by apply (forallb_perm _ kvs).
    + by apply (forallb_perm _ kvs').
    + destruct (Permutation_Forall2 (symmetry Hl) HF) as (k' & Hk' & HF').
      split; [|done]. apply (same_map kvs kvs' k'); [done| |exact HF'].
      by rewrite Hk, <- Hk'.
  - destruct w as [|[]| | | | | | | | | | |vs'|]; try done. simpl in Hv, Hw, Ha, Hc.
    apply bind_Ok_inv in Ha as (es & Hes & [= <-]), Hc as (fs & Hfs & [= <-]).
    cbn [app] in E. rewrite <- !app_assoc in E. injection E as E.
    destruct (reads_seq vs vs' es fs s t) as [HF ->]; [done..|]. split; [by constructor|done].
Qed.
(** ** Bytes and digests *)
Lemma canonical_json_same v w b :
  same v w → canonical_json v = Ok b → canonical_json w = Ok b.
Proof.
  unfold canonical_json. intros Hs (t & Ht & Hb)%bind_Ok_inv.
  by rewrite (same_encode _ _ _ Hs Ht).
Qed.

Lemma canonical_json_reads v w b :
  json_ok v = true → json_ok w = true →
  canonical_json v = Ok b → canonical_json w = Ok b → same v w.
Proof.
  unfold canonical_json. intros Hv Hw (a & Ha & Hab)%bind_Ok_inv (c & Hc & Hcb)%bind_Ok_inv.
  pose proof (utf8_encode_inj _ _ _ Hab Hcb) as ->.
  by apply (encode_reads v w c c [] []).
Qed.

(** C11: canonical bytes are canonical.  Two values of JSON shape that both encode
    have the same bytes exactly when they mean the same: equal up to the order of
    keys and the normalization form of strings. *)
Theorem canonical_json_iff v w a b :
  json_ok v = true → json_ok w = true → canonical_json v = Ok a → canonical_json w = Ok b →
  a = b ↔ same v w.
Proof.
  intros Hv Hw Ha Hb. split.
  - intros <-. by apply (canonical_json_reads v w a).
  - intros Hs. pose proof (canonical_json_same _ _ _ Hs Ha). congruence.
Qed.

(** The canonical bytes of these two values differ and have one SHA-256 digest. *)
Definition collide (v w : value) : Prop :=
  ∃ x y, canonical_json v = Ok x ∧ canonical_json w = Ok y ∧ x ≠ y ∧ sha256_hex x = sha256_hex y.

Lemma hash_object_reads v w h :
  json_ok v = true → json_ok w = true → hash_object v = Ok h → hash_object w = Ok h →
  same v w ∨ collide v w.
Proof.
  unfold hash_object. intros Hv Hw (a & Ha & Ea)%fmap_Ok_inv (b & Hb & Eb)%fmap_Ok_inv.
  destruct (decide (a = b)) as [<-|Hne].
  - left. by apply (canonical_json_reads v w a).
  - right. exists a, b. split_and!; [done..|congruence].
Qed.

Lemma is_hex_lower c : is_hex c = true → hex_lower c = true.
Proof. unfold is_hex, hex_lower, is_digit, rng. done. Qed.

Lemma match_rep {A} p n s r env (k : pystr → captures → option A) :
  length s = n → forallb p s = true → match_re (Rep p n) (s ++ r) env k = k r env.
Proof.
  revert s. induction n as [|n IH]; intros [|c s]; simpl; try done.
  intros [= Hl] [-> Hs]%andb_true_iff. by apply IH.
Qed.

Lemma hash_is_hex v h :
  hash_object v = Ok h → length h = 64%nat ∧ forallb is_hex h = true.
Proof. unfold hash_object. intros (b & _ & ->)%fmap_Ok_inv. apply sha256_hexdigest_shape. Qed.

(** Whatever is hashed, the digest is a value the models accept where they want
    a hash: an intent hash, an argument digest, a chain link. *)
Theorem hash_object_accepted v h : hash_object v = Ok h → check_hex64 h = Ok h.
Proof.
  intros [Hl Hh]%hash_is_hex. unfold check_hex64, matches, re_match, _HEX64_RE.
  rewrite bool_decide_true; [done|]. cbn [match_re].
  assert (Hf : forallb hex_lower h = true).
  { rewrite forallb_forall in Hh |- *. intros c Hc. by apply is_hex_lower, Hh. }
  pose proof (match_rep (A := captures) hex_lower 64 h [] []) as Hm.
  rewrite app_nil_r in Hm. rewrite Hm by done. by eexists.
Qed.

Lemma hex_ascii h : forallb is_hex h = true → forallb (λ c, (0 <=? c) && (c <? 128)) h = true.
Proof.
  rewrite !forallb_forall. intros H c Hc. specialize (H c Hc).
  unfold is_hex, is_digit in H. apply orb_true_iff in H as [H|H]; zify_bool;
    rewrite andb_true_iff; split; zify_bool; lia.
Qed.

Lemma hex_code h : forallb is_hex h = true → forallb is_code h = true.
Proof.
  intros H%hex_ascii. rewrite !forallb_forall in *. intros c Hc. specialize (H c Hc).
  unfold is_code. zify_bool. rewrite andb_true_iff; split; zify_bool; lia.
Qed.

(** ** Chain links *)
Definition hex_link (prev : option pystr) : Prop :=
  match prev with Some h => forallb is_hex h = true | None => True end.

(** What a link hashes. *)
Definition link_value (prev : option pystr) (r : value) : value :=
  VMap [(u "prev", match prev with Some h => VStr h | None => VNone end); (u "record", r)].

Lemma chain_value_ok prev r :
  hex_link prev → json_ok r = true → json_ok (link_value prev r) = true.
Proof.
  intros Hp Hr. unfold link_value. cbn [json_ok forallb fst snd]. rewrite Hr.
  assert (json_ok (match prev with Some h => VStr h | None => VNone end) = true) as ->.
  { destruct prev as [h|]; [|done]. by apply hex_code. }
  rewrite bool_decide_true; [done|].
  cbn [fmap list_fmap fst]. rewrite !_normalize_ascii by done.
  repeat constructor; [|apply not_elem_of_nil]. rewrite list_elem_of_singleton. done.
Qed.

(** One hash, one link: the same predecessor and the same record, or the two
    links collide. *)
Lemma chain_hash_binds p q r s h :
  hex_link p → hex_link q → json_ok r = true → json_ok s = true →
  chain_hash p r = Ok h → chain_hash q s = Ok h →
  (p = q ∧ same r s) ∨ collide (link_value p r) (link_value q s).
Proof.
  intros Hp Hq Hr Hs H1 H2.
  destruct (hash_object_reads _ _ h (chain_value_ok p r Hp Hr) (chain_value_ok q s Hq Hs) H1 H2)
    as [Hsame|]; [left|by right].
  inversion Hsame as [| | | | | | | |l k k' _ Hk HF| |]; subst.
  symmetry in Hk. apply Permutation_length_2_inv in Hk.
  inversion HF as [|x1 y1 ? ? [N1 S1] HF1]; subst.
  inversion HF1 as [|x2 y2 ? ? [N2 S2] HF2]; subst. inversion HF2; subst.
  assert (Hne : _normalize (u "prev") ≠ _normalize (u "record")).
  { rewrite !_normalize_ascii by done. done. }
  destruct Hk as [[= -> ->]|[= -> ->]]; cbn [fst snd] in *;
    [|exfalso; exact (Hne N1)].
  split; [|done]. destruct p as [hp|], q as [hq|]; inversion S1; subst; [|done].
  match goal with E : _normalize _ = _ |- _ => rewrite !_normalize_ascii in E by (by apply hex_ascii) end.
  congruence.
Qed.
End hashing_spec.

(** ** Concrete instances *)
Definition identity_unicode : Unicode :=
  {| _normalize s := s; _normalize_idem _ := eq_refl;
     _normalize_ascii _ _ := eq_refl; _normalize_code _ H := H |}.
Definition position_order : SortTies := {| tie_order l := Ok (seq 0 (length l)) |}.

Section witnesses.
#[local] Existing Instance identity_unicode.
#[local] Existing Instance position_order.

Definition payment (swap : bool) : value :=
  let a := (u "amount", VInt 250) in
  let b := (u "to", VSeq [VStr (u "acme"); VNone]) in
  VMap (if swap then [b; a] else [a; b]).

Lemma canonical_json_iff_witness :
  canonical_json (payment true) = canonical_json (payment false) ∧ same (payment true) (payment false).
Proof.
  assert (E : ∃ b, canonical_json (payment true) = Ok b ∧ canonical_json (payment false) = Ok b).
  { eexists. split; vm_compute; reflexivity. }
  destruct E as (b & H1 & H2). split; [by rewrite H1, H2|].
  assert (J1 : json_ok (payment true) = true) by (vm_compute; reflexivity).
  assert (J2 : json_ok (payment false) = true) by (vm_compute; reflexivity).
  exact (proj1 (canonical_json_iff _ _ b b J1 J2 H1 H2) eq_refl).
Defined.

Lemma hash_object_accepted_witness :
  let h := u "4f2a6c0a0f6a1e2b" in is_ok (intent_hash h) = true ∧
  ∀ d, intent_hash h = Ok d → check_hex64 d = Ok d.
Proof. split; [vm_compute; reflexivity|]. intros d Hd. exact (hash_object_accepted _ _ Hd). Defined.

(** Python's two zeros are equal, and their canonical bytes are not. *)
Lemma negative_zero_differs :
  canonical_json VNegZero = Ok (dquote :: u "-0.0000" ++ [dquote]) ∧
  canonical_json (VDecimal (DFin (Dec 0 0))) = Ok (dquote :: u "0.0000" ++ [dquote]).
Proof. split; vm_compute; reflexivity. Qed.
End witnesses.
