(* ===== verification/Ledger.v ===== *)
(** * The budget ledger (agentiam_controlplane/db: models.py, ledger.py)

    The database is one value [db]; each operation of ledger.py is one
    serialized transaction on it, so it is a function from the database before
    to its outcome and the database after.  [transaction] is
    [async with session.begin()]: an exception rolls back, and a commit is
    refused with [IntegrityError] when the schema's constraints fail on the
    result (a NUMERIC overflow, a [DataError], is refused the same way).  Row ids minted by
    [uuid.uuid4()] are arguments.  A stored amount is a number of 1/10000 units, which is
    what NUMERIC(20,4) holds; an amount handed to an operation is a [Decimal] of any
    precision, which the columns round. *)
From S2P Require Import Prelude PyText Errors PyNum Models.

(** ** Rows (models.py) *)
Record BudgetRow := mkBudgetRow {
  b_mandate_id : uuid;
  b_dimension : pystr;
  b_total : Z;
  b_committed : Z;
  b_leased : Z;
  b_allocated : Z;
  b_parent : option uuid;
  b_agent_id : option pystr }.

Record LeaseRow := mkLeaseRow {
  l_budget_id : uuid;
  l_pep_id : pystr;
  l_granted : Z;
  l_settled : Z;
  l_granted_at : Z;
  l_expires_at : Z;
  l_state : LeaseState }.

Record ReservationRow := mkReservationRow {
  r_lease_id : uuid;
  r_amount : Z;
  r_created_at : Z }.

Record ReconciliationAnomalyRow := mkAnomalyRow {
  an_lease_id : uuid;
  an_reservation_id : uuid;
  an_reported : Z;
  an_state : LeaseState;
  an_created_at : Z }.

#[global] Instance BudgetRow_eq_dec : EqDecision BudgetRow.
Proof. solve_decision. Defined.
#[global] Instance LeaseRow_eq_dec : EqDecision LeaseRow.
Proof. solve_decision. Defined.
#[global] Instance ReservationRow_eq_dec : EqDecision ReservationRow.
Proof. solve_decision. Defined.
#[global] Instance AnomalyRow_eq_dec : EqDecision ReconciliationAnomalyRow.
Proof. solve_decision. Defined.

Record db := mkDb {
  budgets : gmap uuid BudgetRow;
  leases : gmap uuid LeaseRow;
  reservations : gmap uuid ReservationRow;
  anomalies : list ReconciliationAnomalyRow }.
#[global] Instance db_eq_dec : EqDecision db.
Proof. solve_decision. Defined.

Definition empty_db : db := mkDb ∅ ∅ ∅ [].

(** [BudgetRow.available]. *)
Definition available (b : BudgetRow) : Z :=
  b_total b - b_committed b - b_leased b - b_allocated b.

(** [LeaseRow.outstanding]. *)
Definition outstanding (l : LeaseRow) : Z := l_granted l - l_settled l.

(** ** The schema's constraints *)

(** NUMERIC(20,4). *)
Definition numeric_fits (n : Z) : bool := Z.abs n <? MONEY_LIMIT.

(** [ck_budgets_invariant], [ck_budgets_split_shape] and the column types. *)
Definition budget_row_ok (b : BudgetRow) : bool :=
  (0 <=? b_committed b) && (0 <=? b_leased b) && (0 <=? b_allocated b)
  && (b_committed b + b_leased b + b_allocated b <=? b_total b)
  && bool_decide (b_parent b = None ↔ b_agent_id b = None)
  && numeric_fits (b_total b).

(** [ck_leases_outstanding] and the column types; [ck_leases_state] is the type
    of [l_state]. *)
Definition lease_row_ok (l : LeaseRow) : bool :=
  (0 <=? l_granted l) && (0 <=? l_settled l) && (l_settled l <=? l_granted l)
  && numeric_fits (l_granted l).

(** [uq_budgets_pool] and [uq_budgets_allocation]: the key a row must not share. *)
Definition budget_key (b : BudgetRow) : (uuid * pystr) + (uuid * pystr * pystr) :=
  match b_parent b, b_agent_id b with
  | Some p, Some a => inr (p, a, b_dimension b)
  | _, _ => inl (b_mandate_id b, b_dimension b)
  end.

Definition budgets_unique (m : gmap uuid BudgetRow) : Prop :=
  NoDup ((λ p, budget_key p.2) <$> map_to_list m).

(** Foreign keys. *)
Definition budget_fk (d : db) (b : BudgetRow) : bool :=
  match b_parent b with
  | Some p => bool_decide (is_Some (budgets d !! p))
  | None => true
  end.
Definition lease_fk (d : db) (l : LeaseRow) : bool :=
  bool_decide (is_Some (budgets d !! l_budget_id l)).
Definition reservation_fk (d : db) (r : ReservationRow) : bool :=
  bool_decide (is_Some (leases d !! r_lease_id r)).
Definition anomaly_ok (d : db) (a : ReconciliationAnomalyRow) : bool :=
  bool_decide (is_Some (leases d !! an_lease_id a)) && numeric_fits (an_reported a).

Definition map_forallb {A} (f : A → bool) (m : gmap uuid A) : bool :=
  forallb (λ p, f p.2) (map_to_list m).

(** Everything Postgres checks at the end of a transaction. *)
Definition constraints_ok (d : db) : bool :=
  map_forallb (λ b, budget_row_ok b && budget_fk d b) (budgets d)
  && map_forallb (λ l, lease_row_ok l && lease_fk d l) (leases d)
  && map_forallb (λ r, reservation_fk d r && numeric_fits (r_amount r)) (reservations d)
  && forallb (anomaly_ok d) (anomalies d)
  && bool_decide (budgets_unique (budgets d)).

(** [async with session.begin()]. *)
Definition transaction {A} (d : db) (body : py (A * db)) : py A * db :=
  match body with
  | Ok (a, d') => if constraints_ok d' then (Ok a, d') else (Raise IntegrityError, d)
  | Raise e => (Raise e, d)
  end.

(** An [INSERT]: a primary key that is taken is an [IntegrityError]. *)
Definition insert_new {A} (m : gmap uuid A) (k : uuid) (a : A) : py (gmap uuid A) :=
  match m !! k with Some _ => Raise IntegrityError | None => Ok (<[k:=a]> m) end.

(** [scalar_one()] on a lookup by primary key. *)
Definition get_one {A} (m : gmap uuid A) (k : uuid) : py A :=
  match m !! k with Some a => Ok a | None => Raise NoResultFound end.

(** [scalar_one()] on a query: exactly one row. *)
Definition scalar_one {A} (l : list A) : py A :=
  match l with
  | [] => Raise NoResultFound
  | [a] => Ok a
  | _ => Raise MultipleResultsFound
  end.

Definition set_budgets (d : db) m := mkDb m (leases d) (reservations d) (anomalies d).
Definition set_leases (d : db) m := mkDb (budgets d) m (reservations d) (anomalies d).
Definition set_reservations (d : db) m := mkDb (budgets d) (leases d) m (anomalies d).
Definition set_anomalies (d : db) l := mkDb (budgets d) (leases d) (reservations d) l.

Definition put_budget (d : db) k b := set_budgets d (<[k:=b]> (budgets d)).
Definition put_lease (d : db) k l := set_leases d (<[k:=l]> (leases d)).

(** [row.leased += x] and friends. *)
Definition add_leased (b : BudgetRow) (x : Z) : BudgetRow :=
  mkBudgetRow (b_mandate_id b) (b_dimension b) (b_total b) (b_committed b)
    (b_leased b + x) (b_allocated b) (b_parent b) (b_agent_id b).
Definition add_committed (b : BudgetRow) (x : Z) : BudgetRow :=
  mkBudgetRow (b_mandate_id b) (b_dimension b) (b_total b) (b_committed b + x)
    (b_leased b) (b_allocated b) (b_parent b) (b_agent_id b).
Definition add_allocated (b : BudgetRow) (x : Z) : BudgetRow :=
  mkBudgetRow (b_mandate_id b) (b_dimension b) (b_total b) (b_committed b)
    (b_leased b) (b_allocated b + x) (b_parent b) (b_agent_id b).
Definition add_settled (l : LeaseRow) (x : Z) : LeaseRow :=
  mkLeaseRow (l_budget_id l) (l_pep_id l) (l_granted l) (l_settled l + x)
    (l_granted_at l) (l_expires_at l) (l_state l).
Definition set_state (l : LeaseRow) (s : LeaseState) : LeaseRow :=
  mkLeaseRow (l_budget_id l) (l_pep_id l) (l_granted l) (l_settled l)
    (l_granted_at l) (l_expires_at l) s.

(** ** The objects of a session

    Inside a transaction the columns are the Python attributes of the loaded
    objects: [Decimal]s, computed with in the default context and not rounded until
    a flush writes them to their NUMERIC(20,4) columns.  No operation flushes a
    changed row and goes on to change it, so each is written once. *)
Record BudgetObj := mkBudgetObj {
  bo_mandate_id : uuid;
  bo_dimension : pystr;
  bo_total : decimal;
  bo_committed : decimal;
  bo_leased : decimal;
  bo_allocated : decimal;
  bo_parent : option uuid;
  bo_agent_id : option pystr }.

Record LeaseObj := mkLeaseObj {
  lo_budget_id : uuid;
  lo_pep_id : pystr;
  lo_granted : decimal;
  lo_settled : decimal;
  lo_granted_at : Z;
  lo_expires_at : Z;
  lo_state : LeaseState }.

Definition load_budget (b : BudgetRow) : BudgetObj :=
  mkBudgetObj (b_mandate_id b) (b_dimension b) (dec_of_units (b_total b))
    (dec_of_units (b_committed b)) (dec_of_units (b_leased b)) (dec_of_units (b_allocated b))
    (b_parent b) (b_agent_id b).
Definition flush_budget (o : BudgetObj) : BudgetRow :=
  mkBudgetRow (bo_mandate_id o) (bo_dimension o) (numeric_round (bo_total o))
    (numeric_round (bo_committed o)) (numeric_round (bo_leased o))
    (numeric_round (bo_allocated o)) (bo_parent o) (bo_agent_id o).

Definition load_lease (l : LeaseRow) : LeaseObj :=
  mkLeaseObj (l_budget_id l) (l_pep_id l) (dec_of_units (l_granted l))
    (dec_of_units (l_settled l)) (l_granted_at l) (l_expires_at l) (l_state l).
Definition flush_lease (o : LeaseObj) : LeaseRow :=
  mkLeaseRow (lo_budget_id o) (lo_pep_id o) (numeric_round (lo_granted o))
    (numeric_round (lo_settled o)) (lo_granted_at o) (lo_expires_at o) (lo_state o).

(** [BudgetRow.available] and [LeaseRow.outstanding] of a loaded object. *)
Definition available_now (o : BudgetObj) : py decimal :=
  a ← dec_sub (bo_total o) (bo_committed o);
  a ← dec_sub a (bo_leased o);
  dec_sub a (bo_allocated o).
Definition outstanding_now (o : LeaseObj) : py decimal := dec_sub (lo_granted o) (lo_settled o).

Definition dec_zero : decimal := Dec 0 0.

(** ** Operations (ledger.py) *)

(** Five seconds, in microseconds. *)
Definition SKEW_ALLOWANCE : Z := 5000000.

(** The last instant a [datetime] can hold, and [now + delta]. *)
Definition MAX_INSTANT : Z := 3652059 * 86400000000 - 1.
Definition add_delta (now delta : Z) : py Z :=
  let t := now + delta in
  if (0 <=? t) && (t <=? MAX_INSTANT) then Ok t else Raise OverflowError.

(** [split_budget]: one child row per allocation, each flushed in its turn, then the
    parent.  Amounts, here and below, are finite [Decimal]s of any precision. *)
Fixpoint insert_children (d : db) (pid : uuid) (parent : BudgetObj) (dimension : pystr)
    (allocs : list (pystr * decimal * uuid)) : py (list (pystr * uuid) * db) :=
  match allocs with
  | [] => Ok ([], d)
  | (agent, amount, k) :: allocs =>
      let child := mkBudgetObj (bo_mandate_id parent) dimension amount dec_zero dec_zero dec_zero
                     (Some pid) (Some agent) in
      m ← insert_new (budgets d) k (flush_budget child);
      '(created, d') ← insert_children (set_budgets d m) pid parent dimension allocs;
      Ok ((agent, k) :: created, d')
  end.

Definition split_budget (d : db) (parent_budget_id : uuid) (dimension : pystr)
    (allocations : list (pystr * decimal * uuid)) : py (list (pystr * uuid)) * db :=
  if bool_decide (allocations = []) then (Raise ValueError, d) else
  if existsb (λ a, dec_leb a.1.2 dec_zero) allocations then (Raise ValueError, d) else
  match dec_sum dec_zero (allocations.*1.*2) with
  | Raise e => (Raise e, d)
  | Ok requested =>
      transaction d (
        row ← get_one (budgets d) parent_budget_id;
        let parent := load_budget row in
        available ← available_now parent;
        raise_if (dec_ltb available requested) AllocationError;;
        '(created, d1) ← insert_children d parent_budget_id parent dimension allocations;
        allocated ← dec_add (bo_allocated parent) requested;
        let parent := mkBudgetObj (bo_mandate_id parent) (bo_dimension parent) (bo_total parent)
                        (bo_committed parent) (bo_leased parent) allocated (bo_parent parent)
                        (bo_agent_id parent) in
        Ok (created, put_budget d1 parent_budget_id (flush_budget parent)))
  end.

(** [acquire]'s row filter: an agent's allocation, or the pool row. *)
Definition row_filter (agent_id : option pystr) (b : BudgetRow) : bool :=
  match agent_id with
  | Some a => bool_decide (b_agent_id b = Some a)
  | None => bool_decide (b_parent b = None)
  end.

Definition acquire_matches (mandate_id : uuid) (dimension : pystr) (agent_id : option pystr)
    (b : BudgetRow) : bool :=
  bool_decide (b_mandate_id b = mandate_id) && bool_decide (b_dimension b = dimension)
  && row_filter agent_id b.

(** The lease returned keeps the grant as it was computed ([expire_on_commit=False]). *)
Definition acquire (d : db) (mandate_id : uuid) (dimension : pystr) (requested : decimal)
    (pep_id : pystr) (ttl now : Z) (agent_id : option pystr) (lease_id : uuid)
    : py LeaseObj * db :=
  transaction d (
    '(bid, row) ← scalar_one (filter (λ p, acquire_matches mandate_id dimension agent_id p.2)
                                (map_to_list (budgets d)));
    let budget := load_budget row in
    available ← available_now budget;
    let grant := dec_min requested available in
    raise_if (dec_leb grant dec_zero) LeaseUnavailableError;;
    leased ← dec_add (bo_leased budget) grant;
    let budget := mkBudgetObj (bo_mandate_id budget) (bo_dimension budget) (bo_total budget)
                    (bo_committed budget) leased (bo_allocated budget) (bo_parent budget)
                    (bo_agent_id budget) in
    expires_at ← add_delta now ttl;
    let lease := mkLeaseObj bid pep_id grant dec_zero now expires_at ACTIVE in
    m ← insert_new (leases d) lease_id (flush_lease lease);
    Ok (lease, put_budget (set_leases d m) bid (flush_budget budget))).

(** [_retire]: the shared body of [release] and [reap]'s per-lease step. *)
Definition _retire (d : db) (lease_id : uuid) (next_state : LeaseState) : py (bool * db) :=
  lease ← get_one (leases d) lease_id;
  if negb (bool_decide (l_state lease = ACTIVE)) then Ok (false, d) else
  budget ← get_one (budgets d) (l_budget_id lease);
  let d := put_budget d (l_budget_id lease) (add_leased budget (- outstanding lease)) in
  Ok (true, put_lease d lease_id (set_state lease next_state)).

Definition release (d : db) (lease_id : uuid) : py bool * db :=
  transaction d (_retire d lease_id RELEASED).

(** [reap]'s first transaction: the active leases past their margin. *)
Definition reap_candidates (d : db) (cutoff : Z) : list uuid :=
  (filter (λ p, l_state p.2 = ACTIVE ∧ l_expires_at p.2 < cutoff) (map_to_list (leases d))).*1.

(** [reap]'s per-lease transaction. *)
Definition reap_one (d : db) (lease_id : uuid) : py bool * db :=
  transaction d (_retire d lease_id EXPIRED).

Fixpoint reap_loop (d : db) (ids : list uuid) : py (list uuid) * db :=
  match ids with
  | [] => (Ok [], d)
  | k :: ids =>
      match reap_one d k with
      | (Raise e, d) => (Raise e, d)
      | (Ok b, d) =>
          let '(rest, d) := reap_loop d ids in
          ((λ l, if b : bool then k :: l else l) <$> rest, d)
      end
  end.

Definition reap (d : db) (now : Z) : py (list uuid) * db :=
  match add_delta now (- SKEW_ALLOWANCE) with
  | Raise e => (Raise e, d)
  | Ok cutoff => reap_loop d (reap_candidates d cutoff)
  end.

(** [ledger_commit_batch] *)
Abbreviation settlement := (uuid * decimal * Z)%type.   (* reservation_id, amount, now *)

(** The session of the [else] branch: the locked lease, the budget once it is
    loaded, and the reservations added, all unflushed. *)
Record commit_session := mkSession {
  cs_lease : LeaseObj;
  cs_budget : option BudgetObj;
  cs_new : list settlement }.

(** [budget.committed += applied], [budget.leased -= applied],
    [lease.settled += applied] and [session.add(ReservationRow(...))]. *)
Definition apply_one (s : commit_session) (budget : BudgetObj) (reservation_id : uuid)
    (applied : decimal) (now : Z) : py commit_session :=
  let lease := cs_lease s in
  committed ← dec_add (bo_committed budget) applied;
  leased ← dec_sub (bo_leased budget) applied;
  settled ← dec_add (lo_settled lease) applied;
  Ok (mkSession
    (mkLeaseObj (lo_budget_id lease) (lo_pep_id lease) (lo_granted lease) settled
       (lo_granted_at lease) (lo_expires_at lease) (lo_state lease))
    (Some (mkBudgetObj (bo_mandate_id budget) (bo_dimension budget) (bo_total budget)
             committed leased (bo_allocated budget) (bo_parent budget) (bo_agent_id budget)))
    (cs_new s ++ [(reservation_id, applied, now)])).

(** The loop; [already] is the dedup set. *)
Fixpoint apply_items (d : db) (already : gset uuid) (s : commit_session)
    (items : list settlement) : py (list bool * commit_session) :=
  match items with
  | [] => Ok ([], s)
  | (reservation_id, amount, now) :: items =>
      if bool_decide (reservation_id ∈ already) then
        '(rs, s) ← apply_items d already s items;
        Ok (false :: rs, s)
      else
        let already := {[reservation_id]} ∪ already in
        remaining ← outstanding_now (cs_lease s);
        let applied := dec_min amount remaining in
        if dec_leb applied dec_zero then
          '(rs, s) ← apply_items d already s items;
          Ok (false :: rs, s)
        else
          budget ← match cs_budget s with
                   | Some b => Ok b
                   | None => load_budget <$> get_one (budgets d) (lo_budget_id (cs_lease s))
                   end;
          s ← apply_one s budget reservation_id applied now;
          '(rs, s) ← apply_items d already s items;
          Ok (true :: rs, s)
  end.

(** The flush before the commit: the new reservations, the budget and the lease. *)
Fixpoint insert_reservations (m : gmap uuid ReservationRow) (lease_id : uuid)
    (new : list settlement) : py (gmap uuid ReservationRow) :=
  match new with
  | [] => Ok m
  | (k, amount, now) :: new =>
      m ← insert_new m k (mkReservationRow lease_id (numeric_round amount) now);
      insert_reservations m lease_id new
  end.

Definition commit_flush (d : db) (lease_id : uuid) (s : commit_session) : py db :=
  m ← insert_reservations (reservations d) lease_id (cs_new s);
  let d := match cs_budget s with
           | Some b => put_budget d (lo_budget_id (cs_lease s)) (flush_budget b)
           | None => d
           end in
  Ok (put_lease (set_reservations d m) lease_id (flush_lease (cs_lease s))).

Definition anomaly_of (lease_id : uuid) (s : LeaseState) (i : settlement)
    : ReconciliationAnomalyRow :=
  let '(reservation_id, amount, now) := i in
  mkAnomalyRow lease_id reservation_id (numeric_round amount) s now.

(** The ids [SELECT reservations.id WHERE id IN (...)] returns. *)
Definition settled_ids (d : db) (reservation_ids : list uuid) : gset uuid :=
  list_to_set (filter (λ k, is_Some (reservations d !! k)) reservation_ids).

(** The transaction's result: the verdicts, or the state that rejects the batch. *)
Definition commit_body (d : db) (lease_id : uuid) (items : list settlement)
    : py ((list bool + LeaseState) * db) :=
  lease ← get_one (leases d) lease_id;
  if negb (bool_decide (l_state lease = ACTIVE)) then
    Ok (inr (l_state lease),
        set_anomalies d (anomalies d ++ (anomaly_of lease_id (l_state lease) <$> items)))
  else
    '(rs, s) ← apply_items d (settled_ids d (items.*1.*1)) (mkSession (load_lease lease) None [])
                 items;
    d ← commit_flush d lease_id s;
    Ok (inl rs, d).

Definition ledger_commit_batch (d : db) (lease_id : uuid) (items : list settlement)
    : py (list bool) * db :=
  if bool_decide (items = []) then (Ok [], d) else
  match transaction d (commit_body d lease_id items) with
  | (Ok (inl rs), d) => (Ok rs, d)
  | (Ok (inr _), d) => (Raise LeaseNotActiveError, d)
  | (Raise e, d) => (Raise e, d)
  end.

Definition ledger_commit (d : db) (lease_id reservation_id : uuid) (amount : decimal) (now : Z)
    : py bool * db :=
  let '(r, d) := ledger_commit_batch d lease_id [(reservation_id, amount, now)] in
  (rs ← r; match rs with b :: _ => Ok b | [] => Raise IndexError end, d).

(** A pool row as it is inserted, with the column defaults (serve_pep.py). *)
Definition new_pool (mandate_id : uuid) (dimension : pystr) (total : Z) : BudgetRow :=
  mkBudgetRow mandate_id dimension total 0 0 0 None None.
Definition fund_pool (d : db) (k mandate_id : uuid) (dimension : pystr) (total : Z)
    : py unit * db :=
  transaction d (
    m ← insert_new (budgets d) k (new_pool mandate_id dimension total);
    Ok (tt, set_budgets d m)).

(** ** Interleavings

    Every operation is a sequence of transactions, so a history of the ledger is
    a list of transactions in commit order, from any number of callers, with any
    arguments, the amounts any number of whole 1/10000 units, which is what a
    [Money] holds; a transaction that raises leaves the database as it was.  An
    amount with more decimal places is outside these histories: the columns round it
    one by one, and [LedgerSpec] has a settlement of 0.00005 that leaves the books
    apart. *)
Abbreviation item := (uuid * Z * Z)%type.   (* reservation_id, amount in units, now *)
Definition item_at (i : item) : settlement := (i.1.1, dec_of_units i.1.2, i.2).
Definition alloc_amount (a : pystr * Z * uuid) : Z := a.1.2.
Definition alloc_at (a : pystr * Z * uuid) : pystr * decimal * uuid :=
  (a.1.1, dec_of_units (alloc_amount a), a.2).

Inductive ledger_op :=
| OpFund (k mandate_id : uuid) (dimension : pystr) (total : Z)
| OpSplit (parent : uuid) (dimension : pystr) (allocations : list (pystr * Z * uuid))
| OpAcquire (mandate_id : uuid) (dimension : pystr) (req : Z) (pep_id : pystr)
    (ttl now : Z) (agent_id : option pystr) (lease_id : uuid)
| OpRelease (lease_id : uuid)
| OpReapOne (lease_id : uuid)
| OpCommit (lease_id : uuid) (items : list item).

Definition run_op (d : db) (o : ledger_op) : db :=
  match o with
  | OpFund k m dim total => (fund_pool d k m dim total).2
  | OpSplit p dim allocs => (split_budget d p dim (alloc_at <$> allocs)).2
  | OpAcquire m dim req pep ttl now agent k =>
      (acquire d m dim (dec_of_units req) pep ttl now agent k).2
  | OpRelease k => (release d k).2
  | OpReapOne k => (reap_one d k).2
  | OpCommit k items => (ledger_commit_batch d k (item_at <$> items)).2
  end.

Definition run_ops (d : db) (ops : list ledger_op) : db := foldl run_op d ops.
