(* ===== verification/Units.v ===== *)
(** * The ledger's operations on whole units

    The same operations with every amount a whole number of 1/10000 units, computed
    in [Z] and written row by row: what ledger.py does when no column has anything to
    round.  [Books] shows that on those amounts the operations of [Ledger] are these,
    and proves the books' invariant for them. *)
From S2P Require Import Prelude PyText Errors PyNum Models Ledger.

(** [split_budget_units]: one child row per allocation, in order, then the parent. *)
Fixpoint insert_children_units (d : db) (pid : uuid) (parent : BudgetRow) (dimension : pystr)
    (allocs : list (pystr * Z * uuid)) : py (list (pystr * uuid) * db) :=
  match allocs with
  | [] => Ok ([], d)
  | (agent, amount, k) :: allocs =>
      let child := mkBudgetRow (b_mandate_id parent) dimension amount 0 0 0
                     (Some pid) (Some agent) in
      m ← insert_new (budgets d) k child;
      '(created, d') ← insert_children_units (set_budgets d m) pid parent dimension allocs;
      Ok ((agent, k) :: created, d')
  end.

Definition split_budget_units (d : db) (parent_budget_id : uuid) (dimension : pystr)
    (allocations : list (pystr * Z * uuid)) : py (list (pystr * uuid)) * db :=
  if bool_decide (allocations = []) then (Raise ValueError, d) else
  if existsb (λ a, alloc_amount a <=? 0) allocations then (Raise ValueError, d) else
  let req := lsum (alloc_amount <$> allocations) in
  transaction d (
    parent ← get_one (budgets d) parent_budget_id;
    raise_if (available parent <? req) AllocationError;;
    '(created, d1) ← insert_children_units d parent_budget_id parent dimension allocations;
    Ok (created, put_budget d1 parent_budget_id (add_allocated parent req))).

Definition acquire_units (d : db) (mandate_id : uuid) (dimension : pystr) (req : Z)
    (pep_id : pystr) (ttl now : Z) (agent_id : option pystr) (lease_id : uuid)
    : py LeaseRow * db :=
  transaction d (
    '(bid, budget) ← scalar_one (filter (λ p, acquire_matches mandate_id dimension agent_id p.2)
                                   (map_to_list (budgets d)));
    let grant := Z.min req (available budget) in
    raise_if (grant <=? 0) LeaseUnavailableError;;
    expires_at ← add_delta now ttl;
    let lease := mkLeaseRow bid pep_id grant 0 now expires_at ACTIVE in
    m ← insert_new (leases d) lease_id lease;
    Ok (lease, put_budget (set_leases d m) bid (add_leased budget grant))).

(** [ledger_commit_batch_units] *)
(** The [else] branch's loop.  [already] is the dedup set, [lease] the locked
    lease row, mutated as items apply; the budget row is read back from [d],
    where its running value is (the code keeps the one object it locked). *)
Fixpoint apply_items_units (lease_id : uuid) (already : gset uuid) (lease : LeaseRow)
    (d : db) (items : list item) : py (list bool * LeaseRow * db) :=
  match items with
  | [] => Ok ([], lease, d)
  | (reservation_id, amount, now) :: items =>
      if bool_decide (reservation_id ∈ already) then
        '(rs, lease, d) ← apply_items_units lease_id already lease d items;
        Ok (false :: rs, lease, d)
      else
        let already := {[reservation_id]} ∪ already in
        let applied := Z.min amount (outstanding lease) in
        if applied <=? 0 then
          '(rs, lease, d) ← apply_items_units lease_id already lease d items;
          Ok (false :: rs, lease, d)
        else
          budget ← get_one (budgets d) (l_budget_id lease);
          let budget := add_leased (add_committed budget applied) (- applied) in
          m ← insert_new (reservations d) reservation_id (mkReservationRow lease_id applied now);
          let d := set_reservations (put_budget d (l_budget_id lease) budget) m in
          '(rs, lease, d) ← apply_items_units lease_id already (add_settled lease applied) d items;
          Ok (true :: rs, lease, d)
  end.

Definition anomaly_of_units (lease_id : uuid) (s : LeaseState) (i : item) : ReconciliationAnomalyRow :=
  let '(reservation_id, amount, now) := i in mkAnomalyRow lease_id reservation_id amount s now.

(** The ids [SELECT reservations.id WHERE id IN (...)] returns. *)
Definition settled_ids_units (d : db) (items : list item) : gset uuid :=
  list_to_set (filter (λ k, is_Some (reservations d !! k)) (items.*1.*1)).

(** The transaction's result: the verdicts, or the state that rejects the batch. *)
Definition commit_body_units (d : db) (lease_id : uuid) (items : list item)
    : py ((list bool + LeaseState) * db) :=
  lease ← get_one (leases d) lease_id;
  if negb (bool_decide (l_state lease = ACTIVE)) then
    Ok (inr (l_state lease),
        set_anomalies d (anomalies d ++ (anomaly_of_units lease_id (l_state lease) <$> items)))
  else
    '(rs, lease, d') ← apply_items_units lease_id (settled_ids_units d items) lease d items;
    Ok (inl rs, put_lease d' lease_id lease).

Definition ledger_commit_batch_units (d : db) (lease_id : uuid) (items : list item)
    : py (list bool) * db :=
  if bool_decide (items = []) then (Ok [], d) else
  match transaction d (commit_body_units d lease_id items) with
  | (Ok (inl rs), d) => (Ok rs, d)
  | (Ok (inr _), d) => (Raise LeaseNotActiveError, d)
  | (Raise e, d) => (Raise e, d)
  end.

Definition ledger_commit_units (d : db) (lease_id reservation_id : uuid) (amount now : Z)
    : py bool * db :=
  let '(r, d) := ledger_commit_batch_units d lease_id [(reservation_id, amount, now)] in
  (rs ← r; match rs with b :: _ => Ok b | [] => Raise IndexError end, d).

(** ** Decimal arithmetic on whole units *)
Lemma dec_fix_units c : Z.abs c < 10 ^ 28 → dec_fix (Dec c (-4)) = Ok (Dec c (-4)).
Proof.
  intros Hc. destruct (decide (c = 0)) as [->|Hne]; [done|].
  apply dec_fix_exact; [done|done|]. unfold Etiny, Emax. lia.
Qed.

Lemma dec_add_units a b :
  Z.abs (a + b) < 10 ^ 28 → dec_add (dec_of_units a) (dec_of_units b) = Ok (dec_of_units (a + b)).
Proof.
  intros Hc. unfold dec_add, dec_of_units. cbn [dexp dcoef].
  replace (Z.min (-4) (-4)) with (-4) by done.
  replace (a * 10 ^ (-4 - -4) + b * 10 ^ (-4 - -4)) with (a + b) by (change (10 ^ (-4 - -4)) with 1; lia).
  by apply dec_fix_units.
Qed.

Lemma dec_sub_units a b :
  Z.abs (a - b) < 10 ^ 28 → dec_sub (dec_of_units a) (dec_of_units b) = Ok (dec_of_units (a - b)).
Proof. intros Hc. exact (dec_add_units a (- b) Hc). Qed.

Lemma dec_ltb_units a b : dec_ltb (dec_of_units a) (dec_of_units b) = (a <? b).
Proof.
  unfold dec_ltb, dec_compare, dec_of_units. cbn [dexp dcoef].
  change (10 ^ (-4 - Z.min (-4) (-4))) with 1. rewrite !Z.mul_1_r. unfold Z.ltb. done.
Qed.

Lemma dec_min_units a b : dec_min (dec_of_units a) (dec_of_units b) = dec_of_units (Z.min a b).
Proof.
  unfold dec_min. rewrite dec_ltb_units. destruct (Z.ltb_spec b a); f_equal; lia.
Qed.

Lemma dec_leb_zero_units a : dec_leb (dec_of_units a) dec_zero = (a <=? 0).
Proof.
  unfold dec_leb, dec_compare, dec_of_units, dec_zero. cbn [dexp dcoef].
  change (10 ^ (-4 - Z.min (-4) 0)) with 1. rewrite Z.mul_1_r, Z.mul_0_l. unfold Z.leb. done.
Qed.

Lemma numeric_round_units a : numeric_round (dec_of_units a) = a.
Proof. unfold numeric_round, dec_of_units. cbn [dexp dcoef Z.leb]. change (10 ^ (-4 + 4)) with 1. apply Z.mul_1_r. Qed.

Lemma flush_load_budget b : flush_budget (load_budget b) = b.
Proof. destruct b. unfold flush_budget, load_budget. f_equal; apply numeric_round_units. Qed.

Lemma flush_load_lease l : flush_lease (load_lease l) = l.
Proof. destruct l. unfold flush_lease, load_lease. f_equal; apply numeric_round_units. Qed.

(** *** Sums of positive units

    Below 10^28 units a sum is exact; above, it may be rounded, and stays above. *)
Definition big (d : decimal) : Prop := -4 <= dexp d ∧ 10 ^ 28 <= dcoef d * 10 ^ (dexp d + 4).

Lemma ndigits_fuel_pow f c :
  0 < c → c < 2 ^ (Z.of_nat f + 1) → 10 ^ (ndigits_fuel f c - 1) <= c.
Proof.
  revert c. induction f as [|f IH]; intros c Hc Hlt; simpl; [change (10 ^ (1 - 1)) with 1; lia|].
  destruct (Z.ltb_spec c 10); [change (10 ^ (1 - 1)) with 1; lia|].
  assert (0 < c / 10) as Hpos by (apply Z.div_str_pos; lia).
  assert (c / 10 < 2 ^ (Z.of_nat f + 1)) as Hlt'.
  { apply Z.div_lt_upper_bound; [lia|].
    replace (Z.of_nat (S f) + 1) with (Z.succ (Z.of_nat f + 1)) in Hlt by lia.
    rewrite Z.pow_succ_r in Hlt by lia. lia. }
  specialize (IH _ Hpos Hlt'). set (n := ndigits_fuel f (c / 10)) in *.
  assert (1 <= n) as Hn.
  { unfold n. clear. generalize (c / 10). destruct f as [|f]; intros z; simpl; [lia|].
    destruct (z <? 10); [lia|]. clear. enough (∀ y, 1 <= ndigits_fuel f y) as H by (specialize (H (z / 10)); lia).
    induction f as [|f IH]; intros y; simpl; [lia|]. destruct (y <? 10); [lia|]. specialize (IH (y / 10)). lia. }
  replace (1 + n - 1) with (Z.succ (n - 1)) by lia. rewrite Z.pow_succ_r by lia.
  pose proof (Z.mul_div_le c 10 ltac:(lia)). lia.
Qed.

Lemma ndigits_pow c : 0 < c → 10 ^ (ndigits c - 1) <= c.
Proof.
  intros Hc. unfold ndigits. rewrite Z.abs_eq by lia. apply ndigits_fuel_pow; [done|].
  pose proof (Z.log2_spec c Hc) as [_ H]. pose proof (Z.log2_nonneg c).
  by rewrite Z2Nat.id, Z.add_1_r by done.
Qed.

Lemma dec_fix_big c d : 10 ^ 28 <= c → dec_fix (Dec c (-4)) = Ok d → big d.
Proof.
  intros Hc. unfold dec_fix. cbn [dexp dcoef]. rewrite (proj2 (Z.eqb_neq c 0)) by lia.
  assert (28 < ndigits c) as Hnd.
  { apply Z.nle_gt. intros Hle. enough (c < 10 ^ 28) by lia.
    eapply Z.lt_le_trans; [|apply (Z.pow_le_mono_r 10 (ndigits c)); lia].
    unfold ndigits. rewrite Z.abs_eq by lia. clear Hle.
    assert (c < 2 ^ (Z.of_nat (Z.to_nat (Z.log2 c)) + 1)) as Hlt.
    { pose proof (Z.log2_spec c ltac:(lia)) as [_ H]. pose proof (Z.log2_nonneg c).
      by rewrite Z2Nat.id, Z.add_1_r by done. }
    assert (0 <= c) as H0 by lia. clear Hc. revert c H0 Hlt. intros c.
    generalize (Z.to_nat (Z.log2 c)). intros f. revert c.
    induction f as [|f IH]; intros c H0 Hlt; simpl; [change (2 ^ (Z.of_nat 0 + 1)) with 2 in Hlt; lia|].
    destruct (Z.ltb_spec c 10); [done|].
    assert (c / 10 < 10 ^ ndigits_fuel f (c / 10)) as H1.
    { apply IH; [apply Z.div_pos; lia|]. apply Z.div_lt_upper_bound; [lia|].
      replace (Z.of_nat (S f) + 1) with (Z.succ (Z.of_nat f + 1)) in Hlt by lia.
      rewrite Z.pow_succ_r in Hlt by lia. lia. }
    assert (0 <= ndigits_fuel f (c / 10)) as Hn.
    { destruct (Z.le_gt_cases 0 (ndigits_fuel f (c / 10))); [done|].
      rewrite Z.pow_neg_r in H1 by done. pose proof (Z.div_pos c 10 H0 ltac:(lia)). lia. }
    replace (1 + ndigits_fuel f (c / 10)) with (Z.succ (ndigits_fuel f (c / 10))) by lia.
    rewrite Z.pow_succ_r by done.
    pose proof (Z.mod_pos_bound c 10 ltac:(lia)). pose proof (Z.div_mod c 10 ltac:(lia)). lia. }
  unfold prec, Etiny. set (k := Z.max 0 (Z.max (ndigits c - 28) _)).
  assert (k = ndigits c - 28) as Hk by lia. rewrite (proj2 (Z.eqb_neq k 0)) by lia.
  destruct (Emax <? _); [done|]. intros [= <-]. unfold big. cbn [dexp dcoef]. split; [lia|].
  replace (-4 + k + 4) with k by lia.
  pose proof (ndigits_pow c ltac:(lia)) as Hlow.
  assert (0 < 10 ^ k) as Hpk by (apply Z.pow_pos_nonneg; lia).
  assert (10 ^ 27 <= c / 10 ^ k) as Hq.
  { apply Z.div_le_lower_bound; [done|]. rewrite <- Z.pow_add_r by lia.
    by replace (k + 27) with (ndigits c - 1) by lia. }
  assert (c / 10 ^ k <= round_half_even c k) as Hr.
  { unfold round_half_even. rewrite Z.abs_eq, Z.sgn_pos, Z.mul_1_l by lia.
    destruct (_ || _); lia. }
  assert (10 ^ 1 <= 10 ^ k) as Hk1 by (apply Z.pow_le_mono_r; lia).
  change (10 ^ 1) with 10 in Hk1. change (10 ^ 28) with (10 ^ 27 * 10). nia.
Qed.

Lemma dec_add_big acc a r : big acc → 0 < a → dec_add acc (dec_of_units a) = Ok r → big r.
Proof.
  intros [He Hc] Ha. unfold dec_add, dec_of_units. cbn [dexp dcoef].
  replace (Z.min (dexp acc) (-4)) with (-4) by lia. change (10 ^ (-4 - -4)) with 1.
  replace (dexp acc - -4) with (dexp acc + 4) by lia. apply dec_fix_big. lia.
Qed.

Lemma dec_sum_big l : ∀ acc r,
  big acc → (∀ a, a ∈ l → 0 < a) → dec_sum acc (dec_of_units <$> l) = Ok r → big r.
Proof.
  induction l as [|a l IH]; intros acc r Hb Hpos; simpl; [by intros [= <-]|].
  intros (acc' & Hadd & Hsum)%bind_Ok_inv.
  apply (IH acc'); [|set_solver|done]. eapply dec_add_big; [done| |done]. apply Hpos. set_solver.
Qed.

Lemma dec_sum_units_from l : ∀ t,
  0 <= t → (∀ a, a ∈ l → 0 < a) → 
  (t + lsum l < 10 ^ 28 → dec_sum (dec_of_units t) (dec_of_units <$> l) = Ok (dec_of_units (t + lsum l)))
  ∧ (10 ^ 28 <= t + lsum l → t < 10 ^ 28 → ∀ r, dec_sum (dec_of_units t) (dec_of_units <$> l) = Ok r → big r).
Proof.
  induction l as [|a l IH]; intros t Ht Hpos; simpl.
  { split; [by rewrite Z.add_0_r|lia]. }
  assert (0 < a) as Ha by (apply Hpos; set_solver).
  assert (∀ a, a ∈ l → 0 < a) as Hpos' by set_solver.
  assert (0 <= lsum l) as Hl.
  { clear -Hpos'. induction l as [|b l IH]; simpl; [done|].
    assert (0 < b) by (apply Hpos'; set_solver). enough (0 <= lsum l) by lia. apply IH. set_solver. }
  change (list_fmap Z decimal dec_of_units l) with (dec_of_units <$> l).
  split.
  - intros Hlt. rewrite dec_add_units by lia. cbn [mbind res_bind].
    destruct (IH (t + a)) as [IH1 _]; [lia|done|]. rewrite IH1 by lia. by rewrite Z.add_assoc.
  - intros Hge Hsmall r. destruct (Z.lt_ge_cases (t + a) (10 ^ 28)) as [Hs|Hs].
    + rewrite dec_add_units by lia. cbn [mbind res_bind].
      destruct (IH (t + a)) as [_ IH2]; [lia|done|]. apply IH2; lia.
    + intros (acc & Hadd & Hsum)%bind_Ok_inv. eapply dec_sum_big; [|done|exact Hsum].
      unfold dec_add, dec_of_units in Hadd. cbn [dexp dcoef] in Hadd.
      replace (Z.min (-4) (-4)) with (-4) in Hadd by done. change (10 ^ (-4 - -4)) with 1 in Hadd.
      eapply dec_fix_big; [|exact Hadd]. lia.
Qed.

(** [sum(allocations.values(), Decimal(0))]. *)
Lemma dec_sum_units l :
  l ≠ [] → (∀ a, a ∈ l → 0 < a) →
  (lsum l < 10 ^ 28 → dec_sum dec_zero (dec_of_units <$> l) = Ok (dec_of_units (lsum l)))
  ∧ (10 ^ 28 <= lsum l → ∀ r, dec_sum dec_zero (dec_of_units <$> l) = Ok r → big r).
Proof.
  intros Hne Hpos. pose proof (dec_sum_units_from l 0 ltac:(lia) Hpos) as [H1 H2].
  destruct l as [|a l]; [done|].
  assert (∀ k, dec_sum dec_zero (dec_of_units <$> a :: l) = k ↔ dec_sum (dec_of_units 0) (dec_of_units <$> a :: l) = k) as Heq.
  { intros k. cbn [dec_sum fmap list_fmap]. unfold dec_add, dec_zero, dec_of_units. cbn [dexp dcoef].
    replace (Z.min 0 (-4)) with (-4) by done. replace (Z.min (-4) (-4)) with (-4) by done.
    by rewrite !Z.mul_0_l. }
  split.
  - intros Hlt. apply Heq. by apply H1.
  - intros Hge r Hr. apply Heq in Hr. by apply (H2 Hge).
Qed.

Lemma big_gtb d a : big d → a < 10 ^ 28 → dec_ltb (dec_of_units a) d = true.
Proof.
  intros [He Hc] Ha. unfold dec_ltb. rewrite (dec_compare_scale _ _ (-4)) by (cbn; lia).
  cbn [dexp dcoef dec_of_units]. change (10 ^ (-4 - -4)) with 1. rewrite Z.mul_1_r.
  replace (dexp d - -4) with (dexp d + 4) by lia.
  by rewrite (proj2 (Z.compare_lt_iff _ _)) by lia.
Qed.
