(* ===== verification/Books.v ===== *)
(** * The ledger's books (agentiam_controlplane/db/invariants.py) and their safety

    [sweep] and [_violations_for] are the invariant checker.  [books] is what it
    checks plus what the schema guarantees; every operation of the ledger
    preserves it, for any arguments, so no interleaving of serialized operations
    can reach a state the checker reports. *)
From S2P Require Import Prelude PyText Errors PyNum Models Ledger Units.

(** ** The aggregates of [_SWEEP] *)
Definition if_eq {A} `{EqDecision A} (a b : A) (n : Z) : Z := if decide (a = b) then n else 0.

(** [SUM(r.amount)] over the budget's leases. *)
Definition settled_on (d : db) (bid : uuid) : Z :=
  msum (λ _ r, match leases d !! r_lease_id r with
               | Some l => if_eq (l_budget_id l) bid (r_amount r)
               | None => 0
               end) (reservations d).

(** [SUM(l.granted - l.settled) WHERE state = 'active']. *)
Definition active_share (bid : uuid) (l : LeaseRow) : Z :=
  if_eq (l_state l) ACTIVE (if_eq (l_budget_id l) bid (outstanding l)).
Definition active_outstanding (d : db) (bid : uuid) : Z :=
  msum (λ _ l, active_share bid l) (leases d).

(** [SUM(c.total)] over the child allocations. *)
Definition child_totals (d : db) (bid : uuid) : Z :=
  msum (λ _ c, if_eq (b_parent c) (Some bid) (b_total c)) (budgets d).

(** What reservations say of one lease; the checker does not look at it. *)
Definition lease_sum (d : db) (lid : uuid) : Z :=
  msum (λ _ r, if_eq (r_lease_id r) lid (r_amount r)) (reservations d).

(** ** The checker *)
Inductive InvariantKind :=
| POOL | COMMITTED_VS_RESERVATIONS | LEASED_VS_ACTIVE_LEASES | ALLOCATED_VS_CHILDREN
| NEGATIVE_BALANCE.

Record Violation := mkViolation {
  v_kind : InvariantKind; v_budget_id : uuid; v_mandate_id : uuid; v_dimension : pystr;
  v_expected : Z; v_actual : Z }.

Definition v_delta (v : Violation) : Z := v_actual v - v_expected v.

Record sweep_row := mkSweepRow {
  s_budget_id : uuid; s_mandate_id : uuid; s_dimension : pystr; s_total : Z;
  s_committed : Z; s_leased : Z; s_allocated : Z; s_settled : Z; s_outstanding : Z;
  s_child_totals : Z }.

Definition sweep (d : db) : list sweep_row :=
  (λ p : uuid * BudgetRow,
     mkSweepRow p.1 (b_mandate_id p.2) (b_dimension p.2) (b_total p.2) (b_committed p.2)
       (b_leased p.2) (b_allocated p.2) (settled_on d p.1) (active_outstanding d p.1)
       (child_totals d p.1)) <$> map_to_list (budgets d).

Definition _violations_for (row : sweep_row) : list Violation :=
  let violation kind expected actual :=
    mkViolation kind (s_budget_id row) (s_mandate_id row) (s_dimension row) expected actual in
  let committed := s_committed row in
  let leased := s_leased row in
  let allocated := s_allocated row in
  (if (committed <? 0) || (leased <? 0) || (allocated <? 0)
   then [violation NEGATIVE_BALANCE 0
           (if leased <? 0 then leased else if committed <? 0 then committed else allocated)]
   else [])
  ++ (if s_total row <? committed + leased + allocated
      then [violation POOL (s_total row) (committed + leased + allocated)] else [])
  ++ (if negb (committed =? s_settled row)
      then [violation COMMITTED_VS_RESERVATIONS (s_settled row) committed] else [])
  ++ (if negb (leased =? s_outstanding row)
      then [violation LEASED_VS_ACTIVE_LEASES (s_outstanding row) leased] else [])
  ++ (if negb (allocated =? s_child_totals row)
      then [violation ALLOCATED_VS_CHILDREN (s_child_totals row) allocated] else []).

Record CheckReport := mkCheckReport {
  budgets_checked : Z; violations : list Violation }.

Definition check_in_session (d : db) : CheckReport :=
  let rows := sweep d in
  mkCheckReport (Z.of_nat (length rows)) (rows ≫= _violations_for).

Definition holds (r : CheckReport) : bool :=
  match violations r with [] => true | _ => false end.
Definition exit_code (r : CheckReport) : Z := if holds r then 0 else 1.

(** ** The invariant *)

(** What the schema guarantees, the two unique indexes apart. *)
Record wf_db (d : db) : Prop := {
  wf_budget : ∀ k b, budgets d !! k = Some b →
    budget_row_ok b = true ∧ (∀ p, b_parent b = Some p → is_Some (budgets d !! p));
  wf_lease : ∀ k l, leases d !! k = Some l →
    lease_row_ok l = true ∧ is_Some (budgets d !! l_budget_id l);
  wf_reservation : ∀ k r, reservations d !! k = Some r →
    is_Some (leases d !! r_lease_id r) ∧ numeric_fits (r_amount r) = true;
  wf_anomaly : ∀ a, a ∈ anomalies d →
    is_Some (leases d !! an_lease_id a) ∧ numeric_fits (an_reported a) = true }.

(** The columns agree with the sums the checker computes, and each lease's
    [settled] with its reservations. *)
Record sums_ok (d : db) : Prop := {
  sum_committed : ∀ k b, budgets d !! k = Some b → b_committed b = settled_on d k;
  sum_leased : ∀ k b, budgets d !! k = Some b → b_leased b = active_outstanding d k;
  sum_allocated : ∀ k b, budgets d !! k = Some b → b_allocated b = child_totals d k;
  sum_settled : ∀ k l, leases d !! k = Some l → l_settled l = lease_sum d k;
  sum_positive : ∀ k r, reservations d !! k = Some r → 0 < r_amount r }.

Definition keys_unique (d : db) : Prop :=
  ∀ k1 k2 b1 b2, budgets d !! k1 = Some b1 → budgets d !! k2 = Some b2 →
    budget_key b1 = budget_key b2 → k1 = k2.

Record books (d : db) : Prop := {
  bk_wf : wf_db d; bk_sums : sums_ok d; bk_unique : keys_unique d }.

(** ** Reading the constraints back *)
Lemma map_forallb_iff {A} (f : A → bool) (m : gmap uuid A) :
  map_forallb f m = true ↔ ∀ k a, m !! k = Some a → f a = true.
Proof.
  unfold map_forallb. rewrite forallb_forall. split.
  - intros H k a Hk. apply (H (k, a)). apply list_elem_of_In. by apply elem_of_map_to_list.
  - intros H [k a] Hk%list_elem_of_In%elem_of_map_to_list. simpl. eauto.
Qed.

Lemma budgets_unique_iff d : budgets_unique (budgets d) ↔ keys_unique d.
Proof.
  unfold budgets_unique, keys_unique. split.
  - intros Hnd k1 k2 b1 b2 H1 H2 Heq.
    rewrite <- elem_of_map_to_list in H1, H2.
    apply list_elem_of_lookup_1 in H1 as [i1 H1]. apply list_elem_of_lookup_1 in H2 as [i2 H2].
    assert (i1 = i2) as ->.
    { eapply (NoDup_lookup _ i1 i2 _ Hnd); rewrite list_lookup_fmap; [by rewrite H1|].
      rewrite H2. simpl. by rewrite Heq. }
    congruence.
  - intros Hk. apply NoDup_fmap_2_strong; [|apply NoDup_map_to_list].
    intros [k1 b1] [k2 b2] H1%elem_of_map_to_list H2%elem_of_map_to_list Heq. simpl in *.
    assert (k1 = k2) as -> by eauto. congruence.
Qed.

Lemma constraints_ok_iff d : constraints_ok d = true ↔ wf_db d ∧ keys_unique d.
Proof.
  unfold constraints_ok. rewrite !andb_true_iff, !map_forallb_iff, bool_decide_eq_true,
    budgets_unique_iff, forallb_forall.
  split.
  - intros [[[[Hb Hl] Hr] Ha] Hu]. split; [|done]. split.
    + intros k b Hk. specialize (Hb k b Hk). apply andb_true_iff in Hb as [? Hfk].
      split; [done|]. intros p Hp. unfold budget_fk in Hfk. rewrite Hp in Hfk.
      by apply bool_decide_eq_true in Hfk.
    + intros k l Hk. specialize (Hl k l Hk). apply andb_true_iff in Hl as [? Hfk].
      split; [done|]. by apply bool_decide_eq_true in Hfk.
    + intros k r Hk. specialize (Hr k r Hk). apply andb_true_iff in Hr as [Hfk ?].
      split; [|done]. by apply bool_decide_eq_true in Hfk.
    + intros a Ha'. specialize (Ha a (proj1 (list_elem_of_In _ _) Ha')).
      apply andb_true_iff in Ha as [Hfk ?]. split; [|done]. by apply bool_decide_eq_true in Hfk.
  - intros [[Hb Hl Hr Ha] Hu]. split_and!; [..|done].
    + intros k b Hk. destruct (Hb k b Hk) as [-> Hp]. simpl. unfold budget_fk.
      destruct (b_parent b) as [p|]; [|done]. apply bool_decide_eq_true. eauto.
    + intros k l Hk. destruct (Hl k l Hk) as [-> Hp]. by apply bool_decide_eq_true.
    + intros k r Hk. destruct (Hr k r Hk) as [Hp ->]. rewrite andb_true_r.
      by apply bool_decide_eq_true.
    + intros a Hk%list_elem_of_In. destruct (Ha a Hk) as [Hp Hn]. unfold anomaly_ok.
      rewrite Hn, andb_true_r. by apply bool_decide_eq_true.
Qed.

Lemma books_constraints d : books d → constraints_ok d = true.
Proof. intros []. by apply constraints_ok_iff. Qed.

(** A transaction whose body keeps the sums keeps the books: the schema does the
    rest, and an exception changes nothing. *)
Lemma transaction_books {A} d (body : py (A * db)) :
  books d → (∀ a d', body = Ok (a, d') → wf_db d' → sums_ok d') →
  books (transaction d body).2.
Proof.
  intros Hd Hbody. unfold transaction. destruct body as [[a d']|e]; [|done].
  destruct (constraints_ok d') eqn:Hc; [|done]. simpl.
  apply constraints_ok_iff in Hc as [??]. split; eauto.
Qed.

(** A transaction whose body keeps everything commits. *)
Lemma transaction_commits {A} d (body : py (A * db)) a d' :
  body = Ok (a, d') → books d' → transaction d body = (Ok a, d').
Proof. intros -> Hd'. unfold transaction. by rewrite books_constraints. Qed.

(** ** How each write moves the sums *)
Section writes.
Context (d : db).

Lemma if_eq_true {A} `{EqDecision A} (a b : A) n : a = b → if_eq a b n = n.
Proof. intros. unfold if_eq. by rewrite decide_True. Qed.
Lemma if_eq_false {A} `{EqDecision A} (a b : A) n : a ≠ b → if_eq a b n = 0.
Proof. intros. unfold if_eq. by rewrite decide_False. Qed.
Lemma if_eq_add {A} `{EqDecision A} (a b : A) n m :
  if_eq a b (n + m) = if_eq a b n + if_eq a b m.
Proof. unfold if_eq. by case_decide. Qed.

(** Balances change, the row's place in the forest does not. *)
Definition same_place (b b' : BudgetRow) : Prop :=
  b_mandate_id b' = b_mandate_id b ∧ b_dimension b' = b_dimension b ∧
  b_total b' = b_total b ∧ b_parent b' = b_parent b ∧ b_agent_id b' = b_agent_id b.

Lemma child_totals_put_budget k b b' bid :
  budgets d !! k = Some b → same_place b b' →
  child_totals (put_budget d k b') bid = child_totals d bid.
Proof.
  intros Hk (_ & _ & Ht & Hp & _). unfold child_totals. simpl.
  rewrite (msum_update _ _ _ _ _ Hk), Ht, Hp. lia.
Qed.

Lemma settled_on_put_lease k l l' bid :
  leases d !! k = Some l → l_budget_id l' = l_budget_id l →
  settled_on (put_lease d k l') bid = settled_on d bid.
Proof.
  intros Hk Hb. apply msum_ext. intros rk r _. simpl.
  destruct (decide (r_lease_id r = k)) as [->|Hne].
  - by rewrite lookup_insert_eq, Hk, Hb.
  - by rewrite lookup_insert_ne.
Qed.

Lemma settled_on_new_lease k l bid :
  wf_db d → leases d !! k = None →
  settled_on (set_leases d (<[k:=l]> (leases d))) bid = settled_on d bid.
Proof.
  intros Hwf Hk. apply msum_ext. intros rk r Hr. simpl.
  destruct (wf_reservation _ Hwf _ _ Hr) as [[l' Hl'] _].
  rewrite lookup_insert_ne; [done|]. intros ->. congruence.
Qed.

Lemma active_put_lease k l l' bid :
  leases d !! k = Some l →
  active_outstanding (put_lease d k l') bid
    = active_outstanding d bid - active_share bid l + active_share bid l'.
Proof. intros Hk. unfold active_outstanding. simpl. by rewrite (msum_update _ _ _ _ _ Hk). Qed.

(** Nothing refers to a row whose id is fresh. *)
Lemma lease_sum_fresh k : wf_db d → leases d !! k = None → lease_sum d k = 0.
Proof.
  intros Hwf Hk. apply msum_zero. intros rk r Hr. apply if_eq_false. intros <-.
  destruct (wf_reservation _ Hwf _ _ Hr) as [[l' Hl'] _]. congruence.
Qed.

Lemma settled_on_fresh k : wf_db d → budgets d !! k = None → settled_on d k = 0.
Proof.
  intros Hwf Hk. apply msum_zero. intros rk r Hr.
  destruct (leases d !! r_lease_id r) as [l|] eqn:Hl; [|done].
  apply if_eq_false. intros <-.
  destruct (wf_lease _ Hwf _ _ Hl) as [_ [b Hb]]. congruence.
Qed.

Lemma active_fresh k : wf_db d → budgets d !! k = None → active_outstanding d k = 0.
Proof.
  intros Hwf Hk. apply msum_zero. intros lk l Hl. unfold active_share.
  rewrite (if_eq_false (l_budget_id l)); [unfold if_eq; by case_decide|].
  intros <-. destruct (wf_lease _ Hwf _ _ Hl) as [_ [b Hb]]. congruence.
Qed.

Lemma child_totals_fresh k : wf_db d → budgets d !! k = None → child_totals d k = 0.
Proof.
  intros Hwf Hk. apply msum_zero. intros ck c Hc. apply if_eq_false. intros Hp.
  destruct (wf_budget _ Hwf _ _ Hc) as [_ Hfk]. destruct (Hfk _ Hp). congruence.
Qed.
End writes.

(** A row of [sums_ok] for a map with one entry overwritten. *)
Ltac lookup_cases H k :=
  let k' := match type of H with context [<[?k' := _]> _ !! _] => k' end in
  destruct (decide (k' = k)) as [<-|];
  [rewrite lookup_insert_eq in H; injection H as <-
  |rewrite lookup_insert_ne in H by done].

(** *** [acquire_units] *)
Lemma acquire_sums d bid b lid l :
  wf_db d → sums_ok d → budgets d !! bid = Some b → leases d !! lid = None →
  l_budget_id l = bid → l_state l = ACTIVE → l_settled l = 0 →
  sums_ok (put_budget (set_leases d (<[lid:=l]> (leases d))) bid (add_leased b (l_granted l))).
Proof.
  intros Hwf Hs Hb Hl Hbid Hst Hz.
  set (d1 := set_leases d (<[lid:=l]> (leases d))).
  assert (∀ k, active_outstanding d1 k = if_eq bid k (l_granted l) + active_outstanding d k) as Hact.
  { intros k. unfold active_outstanding. simpl. rewrite msum_insert by done.
    f_equal. unfold active_share, outstanding. rewrite if_eq_true, Hbid by done.
    f_equal. lia. }
  split; simpl.
  - intros k c Hc. change (settled_on (put_budget d1 _ _)) with (settled_on d1).
    unfold d1. rewrite settled_on_new_lease by done.
    lookup_cases Hc k; simpl; by apply sum_committed.
  - intros k c Hc. change (active_outstanding (put_budget d1 _ _)) with (active_outstanding d1).
    rewrite Hact. lookup_cases Hc k; simpl.
    + rewrite if_eq_true by done. rewrite (sum_leased _ Hs _ _ Hb). lia.
    + rewrite if_eq_false by done. by apply sum_leased.
  - intros k c Hc. rewrite (child_totals_put_budget d1 bid b) by done.
    change (child_totals d1) with (child_totals d).
    lookup_cases Hc k; simpl; by apply sum_allocated.
  - intros k c Hc. change (lease_sum (put_budget d1 _ _)) with (lease_sum d).
    lookup_cases Hc k; [by rewrite lease_sum_fresh|by apply sum_settled].
  - by apply sum_positive.
Qed.

(** *** [_retire] *)
Lemma retire_sums d bid b lid l s :
  sums_ok d → budgets d !! bid = Some b → leases d !! lid = Some l →
  l_budget_id l = bid → l_state l = ACTIVE → s ≠ ACTIVE →
  sums_ok (put_lease (put_budget d bid (add_leased b (- outstanding l))) lid (set_state l s)).
Proof.
  intros Hs Hb Hl Hbid Hst Hne.
  set (d1 := put_budget d bid (add_leased b (- outstanding l))).
  split; simpl.
  - intros k c Hc. rewrite (settled_on_put_lease d1 lid l) by done.
    change (settled_on d1) with (settled_on d).
    lookup_cases Hc k; simpl; by apply sum_committed.
  - intros k c Hc. rewrite (active_put_lease d1 lid l) by done.
    change (active_outstanding d1) with (active_outstanding d).
    unfold active_share. simpl. rewrite (if_eq_true (l_state l)) by done.
    rewrite (if_eq_false s) by done.
    lookup_cases Hc k; simpl.
    + rewrite if_eq_true, (sum_leased _ Hs _ _ Hb) by done. lia.
    + rewrite if_eq_false, (sum_leased _ Hs _ _ Hc) by congruence. lia.
  - intros k c Hc. change (child_totals (put_lease d1 _ _)) with (child_totals d1).
    unfold d1. rewrite (child_totals_put_budget d bid b) by done.
    lookup_cases Hc k; simpl; by apply sum_allocated.
  - intros k c Hc. change (lease_sum (put_lease d1 _ _)) with (lease_sum d).
    lookup_cases Hc k; simpl; by apply sum_settled.
  - by apply sum_positive.
Qed.

(** *** One settlement of a batch *)
Definition settle_one (d : db) (lid : uuid) (l : LeaseRow) (b : BudgetRow) (rid : uuid)
    (x now : Z) : db :=
  put_lease
    (set_reservations (put_budget d (l_budget_id l) (add_leased (add_committed b x) (- x)))
       (<[rid:=mkReservationRow lid x now]> (reservations d)))
    lid (add_settled l x).

Lemma settle_sums d b lid l rid x now :
  sums_ok d → budgets d !! l_budget_id l = Some b → leases d !! lid = Some l →
  l_state l = ACTIVE → reservations d !! rid = None → 0 < x →
  sums_ok (settle_one d lid l b rid x now).
Proof.
  intros Hs Hb Hl Hst Hr Hx. unfold settle_one.
  set (b' := add_leased _ _). set (d1 := set_reservations _ _).
  assert (∀ k, settled_on (put_lease d1 lid (add_settled l x)) k
               = if_eq (l_budget_id l) k x + settled_on d k) as Hset.
  { intros k. rewrite (settled_on_put_lease d1 lid l) by done.
    unfold settled_on, d1. simpl. rewrite msum_insert by done. simpl. by rewrite Hl. }
  assert (∀ k, active_outstanding (put_lease d1 lid (add_settled l x)) k
               = active_outstanding d k - if_eq (l_budget_id l) k x) as Hact.
  { intros k. rewrite (active_put_lease d1 lid l) by done.
    change (active_outstanding d1) with (active_outstanding d).
    unfold active_share, outstanding. simpl. rewrite !(if_eq_true (l_state l)) by done.
    replace (l_granted l - (l_settled l + x)) with ((l_granted l - l_settled l) + - x) by lia.
    rewrite if_eq_add. unfold if_eq. case_decide; lia. }
  split; simpl.
  - intros k c Hc. rewrite Hset. lookup_cases Hc k; simpl.
    + rewrite if_eq_true, (sum_committed _ Hs _ _ Hb) by done. lia.
    + rewrite if_eq_false, (sum_committed _ Hs _ _ Hc) by done. lia.
  - intros k c Hc. rewrite Hact. lookup_cases Hc k; simpl.
    + rewrite if_eq_true, (sum_leased _ Hs _ _ Hb) by done. lia.
    + rewrite if_eq_false, (sum_leased _ Hs _ _ Hc) by done. lia.
  - intros k c Hc. change (child_totals (put_lease d1 _ _))
      with (child_totals (put_budget d (l_budget_id l) b')).
    rewrite (child_totals_put_budget d _ b) by done.
    lookup_cases Hc k; simpl; by apply sum_allocated.
  - intros k c Hc. unfold lease_sum. simpl. rewrite msum_insert by done. simpl.
    change (msum _ (reservations d)) with (lease_sum d k).
    lookup_cases Hc k; simpl.
    + rewrite if_eq_true, (sum_settled _ Hs _ _ Hl) by done. lia.
    + rewrite if_eq_false, (sum_settled _ Hs _ _ Hc) by done. lia.
  - intros k r Hr'. lookup_cases Hr' k; [done|by eapply sum_positive].
Qed.

(** ** The schema's constraints survive each write *)
Lemma is_Some_insert {A} (m : gmap uuid A) k a j : is_Some (m !! j) → is_Some (<[k:=a]> m !! j).
Proof.
  intros. destruct (decide (k = j)) as [<-|]; [by rewrite lookup_insert_eq|].
  by rewrite lookup_insert_ne.
Qed.
#[export] Hint Resolve is_Some_insert : agentiam.

Lemma wf_put_budget d k b b' :
  wf_db d → budgets d !! k = Some b → same_place b b' → budget_row_ok b' = true →
  wf_db (put_budget d k b').
Proof.
  intros Hwf Hb (_ & _ & _ & Hp & _) Hok. split; simpl.
  - intros j c Hc. lookup_cases Hc j.
    + split; [done|]. destruct (wf_budget _ Hwf _ _ Hb) as [_ Hfk].
      intros p Hpp. rewrite Hp in Hpp. apply is_Some_insert. by apply Hfk.
    + destruct (wf_budget _ Hwf _ _ Hc) as [? Hfk]. split; [done|].
      intros p Hpp. apply is_Some_insert. by apply Hfk.
  - intros j l Hl. destruct (wf_lease _ Hwf _ _ Hl). split; [done|]. by apply is_Some_insert.
  - apply (wf_reservation _ Hwf).
  - apply (wf_anomaly _ Hwf).
Qed.

Lemma wf_set_lease d k l :
  wf_db d → lease_row_ok l = true → is_Some (budgets d !! l_budget_id l) →
  wf_db (put_lease d k l).
Proof.
  intros Hwf Hok Hb. split; simpl.
  - apply (wf_budget _ Hwf).
  - intros j c Hc. lookup_cases Hc j; [done|by eapply (wf_lease _ Hwf)].
  - intros j r Hr. destruct (wf_reservation _ Hwf _ _ Hr). auto with agentiam.
  - intros a Ha. destruct (wf_anomaly _ Hwf _ Ha). auto with agentiam.
Qed.

Lemma wf_new_reservation d k r :
  wf_db d → is_Some (leases d !! r_lease_id r) → numeric_fits (r_amount r) = true →
  wf_db (set_reservations d (<[k:=r]> (reservations d))).
Proof.
  intros Hwf Hl Hn. split; simpl; try apply Hwf.
  intros j r' Hr. lookup_cases Hr j; [done|by eapply (wf_reservation _ Hwf)].
Qed.

Lemma wf_new_budget d k b :
  wf_db d → budget_row_ok b = true →
  (∀ p, b_parent b = Some p → is_Some (budgets d !! p)) →
  wf_db (set_budgets d (<[k:=b]> (budgets d))).
Proof.
  intros Hwf Hok Hfk. split; simpl.
  - intros j c Hc. lookup_cases Hc j.
    + split; [done|]. auto with agentiam.
    + destruct (wf_budget _ Hwf _ _ Hc) as [? Hfk']. auto with agentiam.
  - intros j l Hl. destruct (wf_lease _ Hwf _ _ Hl). auto with agentiam.
  - apply (wf_reservation _ Hwf).
  - apply (wf_anomaly _ Hwf).
Qed.

Lemma same_place_key b b' : same_place b b' → budget_key b' = budget_key b.
Proof. unfold budget_key. intros (-> & -> & _ & -> & ->). done. Qed.

Lemma keys_put_budget d k b b' :
  keys_unique d → budgets d !! k = Some b → same_place b b' →
  keys_unique (put_budget d k b').
Proof.
  intros Hu Hb Hp k1 k2 b1 b2 H1 H2 Heq. simpl in *.
  assert (∀ j c, <[k:=b']> (budgets d) !! j = Some c →
            ∃ c', budgets d !! j = Some c' ∧ budget_key c = budget_key c') as Hback.
  { intros j c Hc. lookup_cases Hc j; [exists b|exists c]; split; try done.
    by apply same_place_key. }
  apply Hback in H1 as (c1 & ? & H1), H2 as (c2 & ? & H2).
  apply (Hu k1 k2 c1 c2); [done..|]. congruence.
Qed.

(** The row facts arithmetic needs, from [budget_row_ok] and [lease_row_ok]. *)
Lemma budget_row_ok_iff b :
  budget_row_ok b = true ↔
  0 <= b_committed b ∧ 0 <= b_leased b ∧ 0 <= b_allocated b
  ∧ b_committed b + b_leased b + b_allocated b <= b_total b
  ∧ (b_parent b = None ↔ b_agent_id b = None) ∧ b_total b < MONEY_LIMIT.
Proof.
  unfold budget_row_ok, numeric_fits. rewrite !andb_true_iff, bool_decide_eq_true.
  rewrite !Z.leb_le, Z.ltb_lt. split; intros; destruct_and!; split_and!; done || lia.
Qed.

Lemma lease_row_ok_iff l :
  lease_row_ok l = true ↔
  0 <= l_settled l <= l_granted l ∧ l_granted l < MONEY_LIMIT.
Proof.
  unfold lease_row_ok, numeric_fits. rewrite !andb_true_iff, !Z.leb_le, Z.ltb_lt.
  split; lia.
Qed.

(** An active lease's outstanding is part of its budget's [leased]. *)
Lemma outstanding_le_leased d bid b lid l :
  wf_db d → sums_ok d → budgets d !! bid = Some b → leases d !! lid = Some l →
  l_budget_id l = bid → l_state l = ACTIVE → 0 <= outstanding l <= b_leased b.
Proof.
  intros Hwf Hs Hb Hl Hbid Hst.
  assert (∀ k l, leases d !! k = Some l → 0 <= active_share bid l) as Hpos.
  { intros k l' Hl'. destruct (wf_lease _ Hwf _ _ Hl') as [Hok _].
    apply lease_row_ok_iff in Hok. unfold active_share, if_eq, outstanding.
    repeat case_decide; lia. }
  pose proof (msum_entry_le (λ _ l, active_share bid l) _ _ _ Hpos Hl) as Hle.
  specialize (Hpos _ _ Hl). simpl in Hle.
  rewrite (sum_leased _ Hs _ _ Hb). unfold active_outstanding.
  unfold active_share at 1 in Hle. unfold active_share in Hpos.
  rewrite !if_eq_true in Hle, Hpos by done. lia.
Qed.

(** *** A child allocation *)
Lemma child_step d pid p k c :
  wf_db d → sums_ok d → budgets d !! pid = Some p → budgets d !! k = None →
  b_parent c = Some pid → is_Some (b_agent_id c) → b_committed c = 0 → b_leased c = 0 →
  b_allocated c = 0 → 0 < b_total c <= available p →
  wf_db (put_budget (set_budgets d (<[k:=c]> (budgets d))) pid (add_allocated p (b_total c)))
  ∧ sums_ok (put_budget (set_budgets d (<[k:=c]> (budgets d))) pid (add_allocated p (b_total c))).
Proof.
  intros Hwf Hs Hp Hk Hpar [a Hag] Hc Hl Ha Ht.
  assert (k ≠ pid) as Hne by congruence.
  set (d1 := set_budgets d (<[k:=c]> (budgets d))).
  assert (budgets d1 !! pid = Some p) as Hp1 by (simpl; by rewrite lookup_insert_ne).
  destruct (wf_budget _ Hwf _ _ Hp) as [Hpok _]. apply budget_row_ok_iff in Hpok.
  unfold available in Ht.
  assert (wf_db d1) as Hwf1.
  { apply wf_new_budget; [done| |by intros ? [= <-]%(eq_trans (eq_sym Hpar))].
    apply budget_row_ok_iff. rewrite Hc, Hl, Ha, Hpar, Hag. split_and!; try lia. done. }
  split.
  { apply (wf_put_budget d1 pid p); [done..|]. apply budget_row_ok_iff. simpl.
    split_and!; try lia. by destruct_and!. }
  assert (∀ j, child_totals d1 j = if_eq (Some pid) (Some j) (b_total c) + child_totals d j) as Hct.
  { intros j. unfold child_totals. simpl. rewrite msum_insert by done. by rewrite Hpar. }
  split; simpl.
  - intros j b Hb. unfold d1 in Hb; simpl in Hb. change (settled_on (put_budget d1 _ _)) with (settled_on d).
    lookup_cases Hb j; [simpl; by apply (sum_committed _ Hs)|].
    lookup_cases Hb j; [by rewrite settled_on_fresh|by apply sum_committed].
  - intros j b Hb. unfold d1 in Hb; simpl in Hb. change (active_outstanding (put_budget d1 _ _)) with (active_outstanding d).
    lookup_cases Hb j; [simpl; by apply (sum_leased _ Hs)|].
    lookup_cases Hb j; [by rewrite active_fresh|by apply sum_leased].
  - intros j b Hb. unfold d1 in Hb; simpl in Hb. rewrite (child_totals_put_budget d1 pid p), Hct by done.
    lookup_cases Hb j; simpl.
    + rewrite if_eq_true, (sum_allocated _ Hs _ _ Hp) by done. lia.
    + rewrite if_eq_false by congruence. rewrite Z.add_0_l.
      lookup_cases Hb j; [by rewrite child_totals_fresh|by apply sum_allocated].
  - apply (sum_settled _ Hs).
  - apply (sum_positive _ Hs).
Qed.

(** ** The operations *)

(** *** [fund_pool] *)
Lemma fund_books d k m dim total : books d → books (fund_pool d k m dim total).2.
Proof.
  intros [Hwf Hs Hu]. unfold fund_pool, insert_new.
  destruct (budgets d !! k) eqn:Hk; [done|]. apply transaction_books; [done|].
  intros a d' [= <- <-] Hwf'. split; simpl.
  - intros j b Hb. change (settled_on (set_budgets d _)) with (settled_on d).
    lookup_cases Hb j; [by rewrite settled_on_fresh|by apply sum_committed].
  - intros j b Hb. change (active_outstanding (set_budgets d _)) with (active_outstanding d).
    lookup_cases Hb j; [by rewrite active_fresh|by apply sum_leased].
  - intros j b Hb. unfold child_totals. simpl. rewrite msum_insert by done. simpl.
    rewrite if_eq_false by done. rewrite Z.add_0_l.
    lookup_cases Hb j; [symmetry; by apply child_totals_fresh|by apply sum_allocated].
  - apply (sum_settled _ Hs).
  - apply (sum_positive _ Hs).
Qed.

(** *** [_retire] *)

(** Under the books the lock on the budget row always finds it. *)
Lemma retire_Ok d lid s b d' :
  books d → s ≠ ACTIVE → _retire d lid s = Ok (b, d') →
  (b = false ∧ d' = d) ∨
  (b = true ∧ ∃ l bud, leases d !! lid = Some l ∧ l_state l = ACTIVE
     ∧ budgets d !! l_budget_id l = Some bud
     ∧ d' = put_lease (put_budget d (l_budget_id l) (add_leased bud (- outstanding l)))
              lid (set_state l s)).
Proof.
  intros Hd Hs. unfold _retire, get_one.
  destruct (leases d !! lid) as [l|] eqn:Hl; [|done]. cbn [mbind res_bind].
  case_bool_decide as Hst; simpl; [|intros [= <- <-]; by left].
  destruct (budgets d !! l_budget_id l) as [bud|] eqn:Hb; [|done]. cbn [mbind res_bind].
  intros [= <- <-]. right. split; [done|]. by exists l, bud.
Qed.

Lemma retire_step d lid l bud s :
  books d → s ≠ ACTIVE → leases d !! lid = Some l → l_state l = ACTIVE →
  budgets d !! l_budget_id l = Some bud →
  books (put_lease (put_budget d (l_budget_id l) (add_leased bud (- outstanding l)))
           lid (set_state l s)).
Proof.
  intros [Hwf Hs Hu] Hne Hl Hst Hb.
  destruct (wf_lease _ Hwf _ _ Hl) as [Hlok Hfk].
  destruct (wf_budget _ Hwf _ _ Hb) as [Hbok _].
  pose proof (outstanding_le_leased _ _ _ _ _ Hwf Hs Hb Hl eq_refl Hst).
  apply budget_row_ok_iff in Hbok as (? & ? & ? & ? & ? & ?).
  split.
  - apply wf_set_lease; [|done|by apply is_Some_insert].
    apply (wf_put_budget d _ bud); [done..|]. apply budget_row_ok_iff. simpl.
    split_and!; done || lia.
  - by apply retire_sums.
  - by apply (keys_put_budget d _ bud).
Qed.

Lemma retire_tx_books d lid s :
  books d → s ≠ ACTIVE → books (transaction d (_retire d lid s)).2.
Proof.
  intros Hd Hs. apply transaction_books; [done|]. intros b d' Hr _.
  apply retire_Ok in Hr as [[-> ->]|(-> & l & bud & ? & ? & ? & ->)]; [apply Hd| |done..].
  by apply retire_step.
Qed.

(** *** [acquire_units] *)
Lemma scalar_one_Ok {A} (l : list A) a : scalar_one l = Ok a → l = [a].
Proof. destruct l as [|x [|y l]]; simpl; congruence. Qed.

Lemma acquire_step d bid b lid l :
  books d → budgets d !! bid = Some b → leases d !! lid = None →
  l_budget_id l = bid → l_state l = ACTIVE → l_settled l = 0 →
  0 < l_granted l <= available b →
  books (put_budget (set_leases d (<[lid:=l]> (leases d))) bid (add_leased b (l_granted l))).
Proof.
  intros [Hwf Hs Hu] Hb Hl Hbid Hst Hz Hg. unfold available in Hg.
  destruct (wf_budget _ Hwf _ _ Hb) as [Hbok _].
  apply budget_row_ok_iff in Hbok as (? & ? & ? & ? & ? & ?).
  split.
  - apply (wf_put_budget (put_lease d lid l) _ b); [|done|done|].
    + apply wf_set_lease; [done| |by rewrite Hbid].
      apply lease_row_ok_iff. lia.
    + apply budget_row_ok_iff. simpl. split_and!; done || lia.
  - by apply acquire_sums.
  - by apply (keys_put_budget (put_lease d lid l) _ b).
Qed.

Lemma acquire_query d mandate dim agent bid b :
  scalar_one (filter (λ p, acquire_matches mandate dim agent p.2) (map_to_list (budgets d)))
    = Ok (bid, b) →
  budgets d !! bid = Some b ∧ acquire_matches mandate dim agent b = true.
Proof.
  intros Hq%scalar_one_Ok.
  assert ((bid, b) ∈ [(bid, b)]) as Hin by set_solver. rewrite <- Hq in Hin.
  apply list_elem_of_filter in Hin as [Hm Hin]. apply elem_of_map_to_list in Hin.
  split; [done|]. by apply Is_true_true in Hm.
Qed.

Lemma acquire_books d mandate dim req pep ttl now agent lid :
  books d → books (acquire_units d mandate dim req pep ttl now agent lid).2.
Proof.
  intros Hd. apply transaction_books; [done|]. intros l d' Hb _.
  apply bind_Ok_inv in Hb as ([bid b] & Hq & Hb). apply acquire_query in Hq as [Hq _].
  cbv zeta in Hb. unfold insert_new in Hb.
  destruct (leases d !! lid) eqn:Hl; inv_ok.
  zify_bool. by apply acquire_step; try (simpl; lia).
Qed.

(** *** [split_budget_units] *)
Lemma add_allocated_add b x y : add_allocated (add_allocated b x) y = add_allocated b (x + y).
Proof. unfold add_allocated. simpl. f_equal. lia. Qed.

Lemma lsum_nonneg {A} (f : A → Z) l : (∀ a, a ∈ l → 0 < f a) → 0 <= lsum (f <$> l).
Proof.
  induction l as [|a l IH]; [done|]. intros Hpos.
  change (lsum (f <$> a :: l)) with (f a + lsum (f <$> l)).
  assert (0 < f a) by (apply Hpos; set_solver).
  assert (0 <= lsum (f <$> l)); [apply IH; set_solver|lia].
Qed.

Lemma put_new_budget d k c p b b' : k ≠ p →
  put_budget (set_budgets (put_budget d p b) (<[k:=c]> (budgets (put_budget d p b)))) p b'
  = put_budget (set_budgets d (<[k:=c]> (budgets d))) p b'.
Proof.
  intros. unfold put_budget, set_budgets. simpl. f_equal.
  by rewrite (insert_insert_ne _ k p), insert_insert_eq.
Qed.

(** The children go in one by one; with the parent's [allocated] raised by what
    is in so far, every intermediate state has its books right. *)
Lemma insert_children_sums d pid parent dim allocs acc created d1 :
  budgets d !! pid = Some parent →
  (∀ a, a ∈ allocs → 0 < alloc_amount a) →
  acc + lsum (alloc_amount <$> allocs) <= available parent →
  let d0 := put_budget d pid (add_allocated parent acc) in
  wf_db d0 → sums_ok d0 →
  insert_children_units d pid parent dim allocs = Ok (created, d1) →
  let d2 := put_budget d1 pid (add_allocated parent (acc + lsum (alloc_amount <$> allocs))) in
  wf_db d2 ∧ sums_ok d2.
Proof.
  revert d acc created d1. induction allocs as [|[[agent amount] k] allocs IH];
    intros d acc created d1 Hp Hpos Hav d0 Hwf Hs Hi.
  { simpl in *. injection Hi as <- <-. by rewrite Z.add_0_r. }
  assert (0 < amount) as Ham by (apply (Hpos (agent, amount, k)); set_solver).
  assert (∀ a, a ∈ allocs → 0 < alloc_amount a) as Hpos' by set_solver.
  pose proof (lsum_nonneg _ _ Hpos') as Hrest.
  change (lsum (alloc_amount <$> (agent, amount, k) :: allocs))
    with (amount + lsum (alloc_amount <$> allocs)) in *.
  cbn [insert_children_units] in Hi. unfold insert_new in Hi.
  destruct (budgets d !! k) eqn:Hk; [done|].
  cbn [mbind res_bind] in Hi. apply bind_Ok_inv in Hi as ([cr d'] & Hi & [= <- <-]).
  set (child := mkBudgetRow _ _ _ _ _ _ _ _) in Hi.
  assert (k ≠ pid) as Hne by congruence.
  destruct (child_step d0 pid (add_allocated parent acc) k child) as [Hwf' Hs'];
    [done|done|unfold d0; simpl; by rewrite lookup_insert_eq
    |unfold d0; simpl; by rewrite lookup_insert_ne|try done..].
  { unfold available in *. simpl. lia. }
  rewrite add_allocated_add in Hwf', Hs'. unfold d0 in Hwf', Hs'.
  rewrite put_new_budget in Hwf', Hs' by done.
  rewrite Z.add_assoc. eapply IH; [|done|lia|done..].
  simpl. by rewrite lookup_insert_ne.
Qed.

Lemma put_budget_id d k b : budgets d !! k = Some b → put_budget d k b = d.
Proof. intros Hk. unfold put_budget, set_budgets. rewrite insert_id by done. by destruct d. Qed.

Lemma add_allocated_0 b : add_allocated b 0 = b.
Proof. destruct b. unfold add_allocated. simpl. by rewrite Z.add_0_r. Qed.

Lemma split_books d pid dim allocs : books d → books (split_budget_units d pid dim allocs).2.
Proof.
  intros Hd. unfold split_budget_units. case_bool_decide; [done|].
  destruct (existsb _ allocs) eqn:Hpos; [done|]. apply transaction_books; [done|].
  intros cr d' Hb _. unfold get_one in Hb.
  destruct (budgets d !! pid) as [p|] eqn:Hp; [|done].
  cbn [mbind res_bind] in Hb. destruct (available p <? _) eqn:Hav; [done|].
  cbn [mbind res_bind raise_if] in Hb. apply bind_Ok_inv in Hb as ([c d1] & Hi & [= <- <-]).
  zify_bool.
  assert (∀ a, a ∈ allocs → 0 < alloc_amount a) as Hall.
  { intros a Ha%list_elem_of_In. apply Z.leb_gt.
    destruct (_ <=? _) eqn:Hle; [|done]. exfalso.
    assert (existsb (λ a, alloc_amount a <=? 0) allocs = true); [|congruence].
    apply existsb_exists. by exists a. }
  rewrite <- (Z.add_0_l (lsum _)).
  eapply insert_children_sums; [done|done|lia|..|done];
    rewrite add_allocated_0, put_budget_id by done; apply Hd.
Qed.

(** *** [ledger_commit_batch_units] *)
Lemma settle_step d b lid l rid x now :
  books d → budgets d !! l_budget_id l = Some b → leases d !! lid = Some l →
  l_state l = ACTIVE → reservations d !! rid = None → 0 < x <= outstanding l →
  books (settle_one d lid l b rid x now).
Proof.
  intros [Hwf Hs Hu] Hb Hl Hst Hr Hx.
  destruct (wf_lease _ Hwf _ _ Hl) as [Hlok Hfk].
  destruct (wf_budget _ Hwf _ _ Hb) as [Hbok _].
  pose proof (outstanding_le_leased _ _ _ _ _ Hwf Hs Hb Hl eq_refl Hst).
  apply budget_row_ok_iff in Hbok as (? & ? & ? & ? & ? & ?).
  apply lease_row_ok_iff in Hlok. unfold outstanding in *.
  set (b' := add_leased (add_committed b x) (- x)).
  assert (wf_db (put_budget d (l_budget_id l) b')) as Hwf1.
  { apply (wf_put_budget d _ b); [done..|]. apply budget_row_ok_iff. simpl.
    split_and!; done || lia. }
  split.
  - apply wf_set_lease.
    + apply (wf_new_reservation (put_budget d (l_budget_id l) b') rid); [done|done|].
      unfold numeric_fits. simpl. blia.
    + apply lease_row_ok_iff. simpl. lia.
    + by apply is_Some_insert.
  - apply settle_sums; done || lia.
  - by apply (keys_put_budget d _ b).
Qed.

(** Writing the locked lease back commutes with the rest of an item's writes. *)
Lemma settle_one_put_lease d lid l b rid x now :
  settle_one (put_lease d lid l) lid l b rid x now
  = put_lease
      (set_reservations (put_budget d (l_budget_id l) (add_leased (add_committed b x) (- x)))
         (<[rid:=mkReservationRow lid x now]> (reservations d)))
      lid (add_settled l x).
Proof.
  unfold settle_one, put_lease, put_budget, set_leases, set_budgets, set_reservations. simpl.
  by rewrite insert_insert_eq.
Qed.

(** The state the loop leaves: the lease [settled] further by [x], its budget's
    [x] moved from leased to committed, nothing else but new reservations. *)
Definition moved (lid : uuid) (l l' : LeaseRow) (d d' : db) (x : Z) : Prop :=
  l' = add_settled l x ∧ 0 <= x <= outstanding l ∧ leases d' = leases d ∧
  anomalies d' = anomalies d ∧ reservations d ⊆ reservations d' ∧
  ∀ b, budgets d !! l_budget_id l = Some b →
    budgets d' = <[l_budget_id l := add_leased (add_committed b x) (- x)]> (budgets d).

Lemma moved_refl lid l d :
  0 <= outstanding l → moved lid l l d d 0.
Proof.
  intros. unfold moved. split_and!; try done; try lia.
  - destruct l. unfold add_settled. simpl. f_equal. lia.
  - intros b Hb. rewrite insert_id; [done|]. rewrite Hb. f_equal.
    destruct b. unfold add_leased, add_committed. simpl. f_equal; lia.
Qed.

Lemma moved_step lid l l' d d' b rid x y now :
  budgets d !! l_budget_id l = Some b → reservations d !! rid = None →
  0 < x <= outstanding l →
  moved lid (add_settled l x) l'
    (set_reservations (put_budget d (l_budget_id l) (add_leased (add_committed b x) (- x)))
       (<[rid:=mkReservationRow lid x now]> (reservations d))) d' y →
  moved lid l l' d d' (x + y).
Proof.
  intros Hb Hr Hx (-> & Hy & Hl & Ha & Hres & Hbud). unfold moved, outstanding in *. simpl in *.
  split_and!; try done; try lia.
  - unfold add_settled. simpl. f_equal. lia.
  - etrans; [|done]. by apply insert_subseteq.
  - intros b2 Hb2. rewrite Hb in Hb2. injection Hb2 as <-.
    rewrite (Hbud (add_leased (add_committed b x) (- x))) by apply lookup_insert_eq.
    rewrite insert_insert_eq. f_equal. unfold add_leased, add_committed. simpl. f_equal; lia.
Qed.

(** The loop never raises, answers every item, and keeps the books. *)
Lemma apply_items_Ok lid items : ∀ already l d,
  books (put_lease d lid l) → l_state l = ACTIVE → is_Some (budgets d !! l_budget_id l) →
  (∀ i, i ∈ items → is_Some (reservations d !! i.1.1) → i.1.1 ∈ already) →
  ∃ rs l' d' x, apply_items_units lid already l d items = Ok (rs, l', d')
    ∧ length rs = length items ∧ books (put_lease d' lid l') ∧ moved lid l l' d d' x.
Proof.
  induction items as [|[[rid amount] now] items IH]; intros already l d Hbk Hst Hb Hdup; simpl.
  { exists [], l, d, 0. split_and!; [done..|]. apply moved_refl.
    destruct (wf_lease _ (bk_wf _ Hbk) lid l) as [Hok _]; [apply lookup_insert_eq|].
    apply lease_row_ok_iff in Hok. unfold outstanding. lia. }
  assert (∀ i, i ∈ items → is_Some (reservations d !! i.1.1) → i.1.1 ∈ already) as Hdup'
    by (intros i Hi; apply Hdup; set_solver).
  case_bool_decide as Hal.
  { destruct (IH already l d Hbk Hst Hb Hdup') as (rs & l' & d' & x & -> & Hlen & Hbk' & Hm).
    exists (false :: rs), l', d', x. simpl. auto. }
  destruct (Z.leb_spec (Z.min amount (outstanding l)) 0) as [Hle|Hgt].
  { destruct (IH ({[rid]} ∪ already) l d Hbk Hst Hb) as (rs & l' & d' & x & -> & Hlen & Hbk' & Hm).
    - set_solver.
    - exists (false :: rs), l', d', x. simpl. auto. }
  destruct Hb as [b Hb]. unfold get_one, insert_new. rewrite Hb. cbn [mbind res_bind].
  destruct (reservations d !! rid) as [r|] eqn:Hr.
  { exfalso. apply Hal. apply (Hdup (rid, amount, now)); [set_solver|]. simpl. eauto. }
  cbn [mbind res_bind].
  set (x := Z.min amount (outstanding l)).
  set (d1 := set_reservations _ _).
  destruct (IH ({[rid]} ∪ already) (add_settled l x) d1)
    as (rs & l' & d' & y & -> & Hlen & Hbk' & Hm).
  - unfold d1. rewrite <- settle_one_put_lease.
    apply settle_step; simpl; [done|done|apply lookup_insert_eq|done|done|lia].
  - done.
  - simpl. rewrite lookup_insert_eq. eauto.
  - intros i Hi. simpl. destruct (decide (i.1.1 = rid)) as [->|]; [set_solver|].
    rewrite lookup_insert_ne by done. intros. apply elem_of_union_r. eauto.
  - exists (true :: rs), l', d', (x + y). split_and!; [done|simpl; by f_equal|done|].
    eapply moved_step; [done|done| |done]. lia.
Qed.

Lemma put_lease_id d k l : leases d !! k = Some l → put_lease d k l = d.
Proof. intros Hk. unfold put_lease, set_leases. rewrite insert_id by done. by destruct d. Qed.

Lemma settled_ids_spec d items i :
  i ∈ items → is_Some (reservations d !! i.1.1) → i.1.1 ∈ settled_ids_units d items.
Proof.
  intros Hi Hs. unfold settled_ids_units. apply elem_of_list_to_set, list_elem_of_filter.
  split; [done|]. rewrite <- list_fmap_compose. apply list_elem_of_fmap. by exists i.
Qed.

Lemma sums_set_anomalies d l : sums_ok d → sums_ok (set_anomalies d l).
Proof. intros []. by split. Qed.

(** An active lease: the batch commits, whatever its items. *)
Lemma commit_body_active d lid l items :
  books d → leases d !! lid = Some l → l_state l = ACTIVE →
  ∃ rs l' d' x, commit_body_units d lid items = Ok (inl rs, put_lease d' lid l')
    ∧ length rs = length items ∧ books (put_lease d' lid l') ∧ moved lid l l' d d' x
    ∧ apply_items_units lid (settled_ids_units d items) l d items = Ok (rs, l', d').
Proof.
  intros Hd Hl Hst. unfold commit_body_units, get_one. rewrite Hl. cbn [mbind res_bind].
  rewrite bool_decide_true by done. cbn [negb].
  destruct (apply_items_Ok lid items (settled_ids_units d items) l d)
    as (rs & l' & d' & x & Heq & Hlen & Hbk & Hm).
  - by rewrite put_lease_id.
  - done.
  - by apply (wf_lease _ (bk_wf _ Hd) lid).
  - apply settled_ids_spec.
  - rewrite Heq. by exists rs, l', d', x.
Qed.

Lemma commit_books d lid items : books d → books (ledger_commit_batch_units d lid items).2.
Proof.
  intros Hd. unfold ledger_commit_batch_units. case_bool_decide; [done|].
  assert (books (transaction d (commit_body_units d lid items)).2) as H'.
  { apply transaction_books; [done|]. intros r d' Hb _.
    destruct (leases d !! lid) as [l|] eqn:Hl.
    2: { unfold commit_body_units, get_one in Hb. by rewrite Hl in Hb. }
    destruct (decide (l_state l = ACTIVE)) as [Hst|Hst].
    - destruct (commit_body_active d lid l items Hd Hl Hst) as (rs & l' & d1 & x & Heq & _ & Hbk & _).
      rewrite Heq in Hb. injection Hb as <- <-. apply Hbk.
    - unfold commit_body_units, get_one in Hb. rewrite Hl in Hb. cbn [mbind res_bind] in Hb.
      rewrite bool_decide_false in Hb by done. injection Hb as <- <-.
      apply sums_set_anomalies, Hd. }
  destruct (transaction _ _) as [[[rs|s]|e] d']; done.
Qed.

(** ** The operations of [Ledger] on whole units *)
Lemma available_units b :
  budget_row_ok b = true → available_now (load_budget b) = Ok (dec_of_units (available b)).
Proof.
  intros (? & ? & ? & ? & _ & Ht)%budget_row_ok_iff. unfold MONEY_LIMIT in Ht.
  unfold available_now, load_budget, available. cbn [bo_total bo_committed bo_leased bo_allocated].
  rewrite dec_sub_units by lia. cbn [mbind res_bind]. rewrite dec_sub_units by lia.
  cbn [mbind res_bind]. by rewrite dec_sub_units by lia.
Qed.

Lemma outstanding_units l :
  lease_row_ok l = true → outstanding_now (load_lease l) = Ok (dec_of_units (outstanding l)).
Proof.
  intros (? & Ht)%lease_row_ok_iff. unfold MONEY_LIMIT in Ht.
  unfold outstanding_now, load_lease, outstanding. cbn [lo_granted lo_settled].
  by rewrite dec_sub_units by lia.
Qed.

Lemma transaction_map {A B} (f : A → B) d (body : py (A * db)) :
  transaction d ((λ p, (f p.1, p.2)) <$> body)
  = (f <$> (transaction d body).1, (transaction d body).2).
Proof.
  unfold transaction. destruct body as [[a d']|e]; simpl; [|done]. by destruct (constraints_ok d').
Qed.

(** What [acquire] returns for the row it inserted. *)
Definition granted_obj (l : LeaseRow) : LeaseObj :=
  mkLeaseObj (l_budget_id l) (l_pep_id l) (dec_of_units (l_granted l)) dec_zero
    (l_granted_at l) (l_expires_at l) (l_state l).

Lemma acquire_at d mandate dim req pep ttl now agent lid :
  books d →
  let r := acquire_units d mandate dim req pep ttl now agent lid in
  acquire d mandate dim (dec_of_units req) pep ttl now agent lid = (granted_obj <$> r.1, r.2).
Proof.
  intros Hd r. unfold r, acquire_units, acquire. rewrite <- transaction_map. f_equal.
  destruct (scalar_one _) as [[bid b]|e] eqn:Hq; [|done]. cbn [mbind res_bind fmap res_fmap].
  apply acquire_query in Hq as [Hb _].
  destruct (wf_budget _ (bk_wf _ Hd) _ _ Hb) as [Hok _].
  rewrite available_units by done. cbn [mbind res_bind]. rewrite dec_min_units, dec_leb_zero_units.
  apply budget_row_ok_iff in Hok as (? & ? & ? & ? & _ & Ht). unfold MONEY_LIMIT in Ht.
  destruct (Z.leb_spec (Z.min req (available b)) 0) as [|Hg]; [done|].
  cbn [raise_if mbind res_bind bo_leased load_budget].
  rewrite dec_add_units by (unfold available in *; lia). cbn [mbind res_bind].
  destruct (add_delta now ttl) as [t|e]; [|done]. cbn [mbind res_bind fmap res_fmap].
  set (g := Z.min req (available b)).
  change (mkLeaseObj bid pep (dec_of_units g) dec_zero now t ACTIVE)
    with (granted_obj (mkLeaseRow bid pep g 0 now t ACTIVE)).
  assert (flush_lease (granted_obj (mkLeaseRow bid pep g 0 now t ACTIVE))
          = mkLeaseRow bid pep g 0 now t ACTIVE) as ->.
  { unfold flush_lease. cbn [granted_obj lo_granted lo_settled lo_budget_id lo_pep_id
      lo_granted_at lo_expires_at lo_state l_granted]. by rewrite numeric_round_units. }
  destruct (insert_new _ _ _); [|done]. cbn [mbind res_bind fmap res_fmap fst snd].
  do 3 f_equal. rewrite <- (flush_load_budget (add_leased b g)). done.
Qed.

Lemma insert_children_at pid parent dim allocs : ∀ d,
  insert_children d pid (load_budget parent) dim (alloc_at <$> allocs)
  = insert_children_units d pid parent dim allocs.
Proof.
  induction allocs as [|[[agent amount] k] allocs IH]; intros d; [done|].
  cbn [fmap list_fmap alloc_at fst snd insert_children insert_children_units].
  change (list_fmap _ _ alloc_at allocs) with (alloc_at <$> allocs).
  assert (flush_budget (mkBudgetObj (bo_mandate_id (load_budget parent)) dim
            (dec_of_units amount) dec_zero dec_zero dec_zero (Some pid) (Some agent))
          = mkBudgetRow (b_mandate_id parent) dim amount 0 0 0 (Some pid) (Some agent)) as Hc.
  { unfold flush_budget. cbn [bo_total bo_committed bo_leased bo_allocated bo_mandate_id
      bo_dimension bo_parent bo_agent_id load_budget]. by rewrite numeric_round_units. }
  change (alloc_amount (agent, amount, k)) with amount. rewrite Hc.
  destruct (insert_new _ _ _); [|done]. cbn [mbind res_bind]. by rewrite IH.
Qed.

(** A split is the one on units, or its sum is past what 28 digits hold and it
    raises. *)
Lemma split_at d pid dim allocs :
  books d →
  split_budget d pid dim (alloc_at <$> allocs) = split_budget_units d pid dim allocs
  ∨ 10 ^ 28 <= lsum (alloc_amount <$> allocs)
    ∧ ∃ e, split_budget d pid dim (alloc_at <$> allocs) = (Raise e, d).
Proof.
  intros Hd. unfold split_budget, split_budget_units.
  destruct (decide (allocs = [])) as [->|Hne]; [by left|].
  rewrite !bool_decide_false by (try done; by destruct allocs).
  assert (existsb (λ a, dec_leb a.1.2 dec_zero) (alloc_at <$> allocs)
          = existsb (λ a, alloc_amount a <=? 0) allocs) as ->.
  { clear. induction allocs as [|a allocs IH]; [done|]. cbn [fmap list_fmap existsb].
    f_equal; [|exact IH]. unfold alloc_at. cbn [fst snd]. apply dec_leb_zero_units. }
  destruct (existsb _ allocs) eqn:Hex; [by left|].
  assert (∀ a, a ∈ alloc_amount <$> allocs → 0 < a) as Hpos.
  { intros n (a & -> & Ha)%list_elem_of_fmap. apply Z.nle_gt. intros Hle.
    assert (existsb (λ a, alloc_amount a <=? 0) allocs = true); [|congruence].
    apply existsb_exists. exists a. split; [by apply list_elem_of_In|blia]. }
  assert ((alloc_at <$> allocs).*1.*2 = dec_of_units <$> (alloc_amount <$> allocs)) as ->.
  { rewrite <- !list_fmap_compose. done. }
  destruct (dec_sum_units (alloc_amount <$> allocs)) as [Hsmall Hbig];
    [by destruct allocs|done|].
  assert (∀ row, budgets d !! pid = Some row → budget_row_ok row = true) as Hrow.
  { intros row Hr. by apply (wf_budget _ (bk_wf _ Hd)) in Hr as [? _]. }
  destruct (Z.lt_ge_cases (lsum (alloc_amount <$> allocs)) (10 ^ 28)) as [Hlt|Hge].
  - left. rewrite Hsmall by done. f_equal. unfold get_one.
    destruct (budgets d !! pid) as [row|]; [|done]. cbn [mbind res_bind].
    specialize (Hrow row eq_refl).
    rewrite available_units by done. cbn [mbind res_bind]. rewrite dec_ltb_units.
    destruct (Z.ltb_spec (available row) (lsum (alloc_amount <$> allocs))) as [|Hle]; [done|].
    cbn [raise_if mbind res_bind]. rewrite insert_children_at.
    destruct (insert_children_units _ _ _ _ _) as [[created d1]|e]; [|done].
    cbn [mbind res_bind bo_allocated load_budget].
    apply budget_row_ok_iff in Hrow as (? & ? & ? & ? & _ & Ht). unfold MONEY_LIMIT in Ht.
    assert (0 <= lsum (alloc_amount <$> allocs)).
    { apply lsum_nonneg. intros a Ha. apply Hpos. by apply list_elem_of_fmap_2. }
    unfold available in Hle. rewrite dec_add_units by lia. cbn [mbind res_bind].
    do 3 f_equal. by rewrite <- (flush_load_budget (add_allocated row _)).
  - right. split; [done|].
    destruct (dec_sum dec_zero _) as [r|e] eqn:Hsum; [|by eexists].
    specialize (Hbig Hge r eq_refl). unfold transaction, get_one.
    destruct (budgets d !! pid) as [row|]; [|by eexists]. cbn [mbind res_bind].
    specialize (Hrow row eq_refl). rewrite available_units by done. cbn [mbind res_bind].
    apply budget_row_ok_iff in Hrow as (? & ? & ? & ? & _ & Ht). unfold MONEY_LIMIT in Ht.
    rewrite (big_gtb r) by (done || (unfold available; lia)). by eexists.
Qed.

(** *** [ledger_commit_batch]

    The session's unflushed objects, against the rows the operation on units has
    written so far: [l] and [b] are the running lease and budget. *)
Definition session_at (d du : db) (s : commit_session) (lid : uuid) (l : LeaseRow) : Prop :=
  cs_lease s = load_lease l
  ∧ (∃ b, budgets du !! l_budget_id l = Some b
      ∧ match cs_budget s with
        | Some o => o = load_budget b ∧ budgets du = <[l_budget_id l := b]> (budgets d)
        | None => budgets du = budgets d
        end)
  ∧ insert_reservations (reservations d) lid (cs_new s) = Ok (reservations du)
  ∧ leases du = leases d ∧ anomalies du = anomalies d.

Lemma insert_reservations_app lid k1 k2 : ∀ m,
  insert_reservations m lid (k1 ++ k2)
  = (m ← insert_reservations m lid k1; insert_reservations m lid k2).
Proof.
  induction k1 as [|[[k a] t] k1 IH]; intros m; [done|]. simpl.
  destruct (insert_new _ _ _); [|done]. cbn [mbind res_bind]. apply IH.
Qed.

(** One applied item keeps the two in step. *)
Lemma apply_one_at d du s lid l b rid x now :
  session_at d du s lid l → books (put_lease du lid l) → l_state l = ACTIVE →
  budgets du !! l_budget_id l = Some b → reservations du !! rid = None → 0 < x <= outstanding l →
  ∃ s', apply_one s (load_budget b) rid (dec_of_units x) now = Ok s'
    ∧ session_at d
        (set_reservations (put_budget du (l_budget_id l) (add_leased (add_committed b x) (- x)))
           (<[rid:=mkReservationRow lid x now]> (reservations du))) s' lid (add_settled l x).
Proof.
  intros (Hl & (b' & Hb' & Hobj) & Hnew & Hls & Han) Hbk Hst Hb Hr Hx.
  rewrite Hb in Hb'. injection Hb' as <-.
  destruct (wf_budget _ (bk_wf _ Hbk) (l_budget_id l) b Hb) as [Hbok _].
  destruct (wf_lease _ (bk_wf _ Hbk) lid l) as [Hlok _]; [apply lookup_insert_eq|].
  apply budget_row_ok_iff in Hbok as (? & ? & ? & ? & _ & Ht).
  apply lease_row_ok_iff in Hlok as (? & Hg). unfold MONEY_LIMIT, outstanding in *.
  pose proof (outstanding_le_leased _ _ b lid l (bk_wf _ Hbk) (bk_sums _ Hbk) Hb
    (lookup_insert_eq _ _ _) eq_refl Hst) as Hout. unfold outstanding in Hout.
  unfold apply_one. rewrite Hl. cbn [load_lease load_budget lo_settled bo_committed bo_leased].
  rewrite dec_add_units by lia. cbn [mbind res_bind]. rewrite dec_sub_units by lia.
  cbn [mbind res_bind]. rewrite dec_add_units by lia. cbn [mbind res_bind].
  eexists. split; [done|]. split; [done|]. split.
  - exists (add_leased (add_committed b x) (- x)). cbn [budgets set_reservations put_budget set_budgets add_settled l_budget_id].
    split; [apply lookup_insert_eq|]. cbn [cs_budget].
    split; [done|]. destruct (cs_budget s); [destruct Hobj as [_ ->]; apply insert_insert_eq|by rewrite Hobj].
  - split; [|done]. cbn [cs_new]. rewrite insert_reservations_app, Hnew. cbn [mbind res_bind insert_reservations].
    unfold insert_new. rewrite Hr, numeric_round_units. done.
Qed.

Lemma apply_items_at d lid items : ∀ already s l du rs l' du',
  session_at d du s lid l → books (put_lease du lid l) → l_state l = ACTIVE →
  apply_items_units lid already l du items = Ok (rs, l', du') →
  ∃ s', apply_items d already s (item_at <$> items) = Ok (rs, s') ∧ session_at d du' s' lid l'.
Proof.
  induction items as [|[[rid amount] now] items IH];
    intros already s l du rs l' du' Hs Hbk Hst Hap.
  { simpl in Hap. injection Hap as <- <- <-. by exists s. }
  cbn [fmap list_fmap item_at fst snd apply_items]. cbn [apply_items_units] in Hap. cbv zeta in Hap |- *.
  change (list_fmap _ _ item_at items) with (item_at <$> items).
  case_bool_decide.
  { apply bind_Ok_inv in Hap as ([[rs1 l1] d1] & Hap & [= <- <- <-]).
    apply (IH _ s) in Hap as (s' & -> & Hs'); [|done..]. by exists s'. }
  destruct (wf_lease _ (bk_wf _ Hbk) lid l) as [Hlok _]; [apply lookup_insert_eq|].
  pose proof Hs as (-> & (b & Hb & Hobj) & _).
  rewrite outstanding_units by done. cbn [mbind res_bind].
  rewrite dec_min_units, dec_leb_zero_units.
  destruct (Z.leb_spec (Z.min amount (outstanding l)) 0) as [Hle|Hgt].
  { apply bind_Ok_inv in Hap as ([[rs1 l1] d1] & Hap & [= <- <- <-]).
    apply (IH _ s) in Hap as (s' & -> & Hs'); [|done..]. by exists s'. }
  unfold get_one, insert_new in Hap. rewrite Hb in Hap. cbn [mbind res_bind] in Hap.
  destruct (reservations du !! rid) eqn:Hr; [done|]. cbn [mbind res_bind] in Hap.
  apply bind_Ok_inv in Hap as ([[rs1 l1] d1] & Hap & [= <- <- <-]).
  assert (match cs_budget s with
          | Some o => Ok o
          | None => load_budget <$> get_one (budgets d) (lo_budget_id (load_lease l))
          end = Ok (load_budget b)) as ->.
  { destruct (cs_budget s); [by destruct Hobj as [-> _]|].
    unfold get_one. cbn [load_lease lo_budget_id]. rewrite <- Hobj, Hb. done. }
  cbn [mbind res_bind].
  destruct (apply_one_at d du s lid l b rid (Z.min amount (outstanding l)) now)
    as (s1 & -> & Hs1); [done..|lia|]. cbn [mbind res_bind].
  apply (IH _ s1) in Hap as (s' & -> & Hs'); [by exists s'|done| |done].
  rewrite <- settle_one_put_lease.
  apply settle_step; simpl; [done|done|apply lookup_insert_eq|done|done|lia].
Qed.

Lemma commit_flush_at d du s lid l :
  session_at d du s lid l → commit_flush d lid s = Ok (put_lease du lid l).
Proof.
  intros (Hl & (b & Hb & Hobj) & Hnew & Hls & Han). unfold commit_flush.
  rewrite Hnew, Hl. cbn [mbind res_bind]. rewrite flush_load_lease. f_equal.
  destruct du as [bs ls rv an]. simpl in *. subst.
  destruct (cs_budget s) as [o|].
  - destruct Hobj as [-> ->]. by rewrite flush_load_budget.
  - by subst bs.
Qed.

Lemma settled_ids_at d items : settled_ids d ((item_at <$> items).*1.*1) = settled_ids_units d items.
Proof. unfold settled_ids, settled_ids_units. by rewrite <- !list_fmap_compose. Qed.

Lemma commit_body_at d lid items :
  books d → commit_body d lid (item_at <$> items) = commit_body_units d lid items.
Proof.
  intros Hd. destruct (leases d !! lid) as [l|] eqn:Hl.
  2: { unfold commit_body, commit_body_units, get_one. by rewrite Hl. }
  destruct (decide (l_state l = ACTIVE)) as [Hst|Hst].
  - destruct (commit_body_active d lid l items Hd Hl Hst) as (rs & l' & d' & x & -> & _ & _ & _ & Hap).
    destruct (wf_lease _ (bk_wf _ Hd) _ _ Hl) as [_ [b Hb]].
    apply (apply_items_at d lid items _ (mkSession (load_lease l) None [])) in Hap as (s' & Hap & Hs').
    + unfold commit_body, get_one. rewrite Hl. cbn [mbind res_bind].
      rewrite bool_decide_true by done. cbn [negb]. rewrite settled_ids_at, Hap. cbn [mbind res_bind].
      by rewrite (commit_flush_at _ _ _ _ _ Hs').
    + split; [done|]. split; [by exists b|]. done.
    + by rewrite put_lease_id.
    + done.
  - unfold commit_body, commit_body_units, get_one. rewrite Hl. cbn [mbind res_bind].
    rewrite bool_decide_false by done. cbn [negb]. do 3 f_equal.
    rewrite <- list_fmap_compose. f_equal. apply list_fmap_ext. intros _ [[rid amount] now] _. simpl.
    by rewrite numeric_round_units.
Qed.

Lemma commit_batch_at d lid items :
  books d →
  ledger_commit_batch d lid (item_at <$> items) = ledger_commit_batch_units d lid items.
Proof.
  intros Hd. unfold ledger_commit_batch, ledger_commit_batch_units.
  rewrite commit_body_at by done. by destruct items.
Qed.

Lemma commit_at d lid rid amount now :
  books d → ledger_commit d lid rid (dec_of_units amount) now = ledger_commit_units d lid rid amount now.
Proof. intros Hd. unfold ledger_commit, ledger_commit_units. by rewrite <- commit_batch_at. Qed.

(** ** Histories *)
Lemma run_op_books d o : books d → books (run_op d o).
Proof.
  intros Hd. destruct o; simpl.
  - by apply fund_books.
  - destruct (split_at d parent dimension allocations Hd) as [->|(_ & e & ->)];
      [by apply split_books|done].
  - rewrite acquire_at by done. by apply acquire_books.
  - by apply retire_tx_books.
  - by apply retire_tx_books.
  - rewrite commit_batch_at by done. by apply commit_books.
Qed.

Lemma books_empty : books empty_db.
Proof.
  split; [split|split|]; simpl; try (intros ?? Hk; by rewrite lookup_empty in Hk).
  - by intros a ?%elem_of_nil.
  - intros k1 k2 b1 b2 H. simpl in H. by rewrite lookup_empty in H.
Qed.

Lemma run_ops_books ops : ∀ d, books d → books (run_ops d ops).
Proof.
  induction ops as [|o ops IH]; intros d Hd; [done|]. simpl. by apply IH, run_op_books.
Qed.

(** ** The checker, against the invariant *)
Definition row_books (d : db) (k : uuid) (b : BudgetRow) : Prop :=
  0 <= b_committed b ∧ 0 <= b_leased b ∧ 0 <= b_allocated b
  ∧ b_committed b + b_leased b + b_allocated b <= b_total b
  ∧ b_committed b = settled_on d k ∧ b_leased b = active_outstanding d k
  ∧ b_allocated b = child_totals d k.

Lemma violations_nil row :
  _violations_for row = [] ↔
  0 <= s_committed row ∧ 0 <= s_leased row ∧ 0 <= s_allocated row
  ∧ s_committed row + s_leased row + s_allocated row <= s_total row
  ∧ s_committed row = s_settled row ∧ s_leased row = s_outstanding row
  ∧ s_allocated row = s_child_totals row.
Proof.
  unfold _violations_for. cbv zeta. split.
  - intros (H1 & (H2 & (H3 & (H4 & H5)%app_eq_nil)%app_eq_nil)%app_eq_nil)%app_eq_nil.
    repeat match goal with
    | H : (if ?b then _ else []) = [] |- _ => destruct b eqn:?; [done|clear H]
    end.
    blia.
  - intros (? & ? & ? & ? & ? & ? & ?).
    repeat match goal with
    | |- (if ?b then _ else []) ++ _ = [] => destruct b eqn:?; [exfalso; blia|simpl]
    | |- (if ?b then _ else []) = [] => destruct b eqn:?; [exfalso; blia|done]
    end.
Qed.

Lemma bind_nil {A B} (f : A → list B) l : l ≫= f = [] ↔ ∀ a, a ∈ l → f a = [].
Proof.
  induction l as [|a l IH]; simpl; [set_solver|]. rewrite app_nil, IH. set_solver.
Qed.

Lemma checker_iff d :
  holds (check_in_session d) = true ↔ ∀ k b, budgets d !! k = Some b → row_books d k b.
Proof.
  unfold holds, check_in_session. simpl.
  transitivity (sweep d ≫= _violations_for = []); [by destruct (_ ≫= _)|].
  rewrite bind_nil. split.
  - intros H k b Hk.
    assert (_violations_for (mkSweepRow k (b_mandate_id b) (b_dimension b) (b_total b)
              (b_committed b) (b_leased b) (b_allocated b) (settled_on d k)
              (active_outstanding d k) (child_totals d k)) = []) as Hv.
    { apply H. apply list_elem_of_fmap. exists (k, b). split; [done|].
      by apply elem_of_map_to_list. }
    by apply violations_nil in Hv.
  - intros H row [[k b] [-> Hk]]%list_elem_of_fmap. apply elem_of_map_to_list in Hk.
    apply violations_nil. by apply H.
Qed.

Lemma books_row d k b : books d → budgets d !! k = Some b → row_books d k b.
Proof.
  intros [Hwf Hs _] Hk. destruct (wf_budget _ Hwf _ _ Hk) as [Hok _].
  apply budget_row_ok_iff in Hok as (? & ? & ? & ? & _).
  split_and!; try done; by apply Hs.
Qed.
