(* ===== verification/LedgerSpec.v ===== *)
(** * What the ledger promises

    The properties of ledger.py and invariants.py, proved from the lemmas of
    [Books]: histories balance, each operation's outcome on every branch,
    retirement happens once, settlement is clamped, idempotent and independent
    of batching, and a reaper pass is complete. *)
From S2P Require Import Prelude PyText Errors PyNum Models Ledger Units Books.

(** ** Helpers *)

(** Settling one reservation on its own. *)
Lemma ledger_commit_active d lid l b rid amount now :
  books d → leases d !! lid = Some l → l_state l = ACTIVE →
  budgets d !! l_budget_id l = Some b →
  ledger_commit_units d lid rid amount now =
    let x := Z.min amount (outstanding l) in
    if bool_decide (is_Some (reservations d !! rid)) || (x <=? 0) then (Ok false, d)
    else (Ok true, settle_one d lid l b rid x now).
Proof.
  intros Hd Hl Hst Hb.
  destruct (commit_body_active d lid l [(rid, amount, now)] Hd Hl Hst)
    as (rs & l' & d' & x & Heq & Hlen & Hbk & Hm & Hap).
  unfold ledger_commit_units, ledger_commit_batch_units. rewrite bool_decide_false by done.
  rewrite (transaction_commits _ _ _ _ Heq Hbk).
  cbn [apply_items_units] in Hap. cbv zeta.
  assert (rid ∈ settled_ids_units d [(rid, amount, now)] ↔ is_Some (reservations d !! rid)) as Hin.
  { unfold settled_ids_units. rewrite elem_of_list_to_set, list_elem_of_filter. set_solver. }
  destruct (decide (is_Some (reservations d !! rid))) as [Hr|Hr].
  - rewrite (bool_decide_true (rid ∈ _)) in Hap by tauto.
    rewrite (bool_decide_true (is_Some _)) by done.
    injection Hap as <- <- <-. simpl. by rewrite put_lease_id.
  - rewrite (bool_decide_false (rid ∈ _)) in Hap by tauto.
    rewrite (bool_decide_false (is_Some _)) by done. cbn [orb].
    destruct (Z.min amount (outstanding l) <=? 0).
    + injection Hap as <- <- <-. simpl. by rewrite put_lease_id.
    + apply eq_None_not_Some in Hr. unfold get_one, insert_new in Hap. rewrite Hb, Hr in Hap.
      cbn [mbind res_bind] in Hap. by injection Hap as <- <- <-.
Qed.

(** A commit against a lease that left [active]: the anomalies are recorded, the
    money is untouched, and the transaction goes through. *)
Definition with_anomalies (d : db) (lid : uuid) (l : LeaseRow) (items : list item) : db :=
  set_anomalies d (anomalies d ++ (anomaly_of_units lid (l_state l) <$> items)).

Lemma rejected_books d lid l items :
  books d → leases d !! lid = Some l → (∀ i, i ∈ items → numeric_fits i.1.2 = true) →
  books (with_anomalies d lid l items).
Proof.
  intros [[Hb Hl' Hr Ha] Hs Hu] Hl Hfit. split; [|by apply sums_set_anomalies|done].
  split; [done..|]. simpl. intros a [?|Hin]%elem_of_app; [by apply Ha|].
  apply list_elem_of_fmap in Hin as ([[rid amount] now] & -> & Hin). simpl.
  split; [by eexists|]. by apply (Hfit _ Hin).
Qed.

Lemma commit_rejected d lid l items :
  books d → leases d !! lid = Some l → l_state l ≠ ACTIVE →
  (∀ i, i ∈ items → numeric_fits i.1.2 = true) →
  transaction d (commit_body_units d lid items) = (Ok (inr (l_state l)), with_anomalies d lid l items).
Proof.
  intros Hd Hl Hst Hfit. apply transaction_commits; [|by apply rejected_books].
  unfold commit_body_units, get_one. rewrite Hl. cbn [mbind res_bind]. by rewrite bool_decide_false.
Qed.

(** Settling the items one call at a time, as the queue would without batches. *)
Fixpoint commit_each (d : db) (lid : uuid) (items : list item) : list (py bool) * db :=
  match items with
  | [] => ([], d)
  | (rid, amount, now) :: items =>
      let '(r, d) := ledger_commit d lid rid (dec_of_units amount) now in
      let '(rs, d) := commit_each d lid items in
      (r :: rs, d)
  end.

(** No repeated id, or every amount a spend. *)
Definition separable (items : list item) : Prop :=
  NoDup items.*1.*1 ∨ ∀ i, i ∈ items → 0 < i.1.2.

Lemma separable_tail i items : separable (i :: items) → separable items.
Proof.
  intros [H|H]; [left|right]; [by apply NoDup_cons in H as [_ H]|set_solver].
Qed.

Lemma commit_each_apply lid items : ∀ already l d rs l' d' ,
  books (put_lease d lid l) → l_state l = ACTIVE → is_Some (budgets d !! l_budget_id l) →
  separable items →
  (∀ i, i ∈ items → is_Some (reservations d !! i.1.1) → i.1.1 ∈ already) →
  (∀ i, i ∈ items → i.1.1 ∈ already →
     is_Some (reservations d !! i.1.1) ∨ outstanding l <= 0) →
  apply_items_units lid already l d items = Ok (rs, l', d') →
  commit_each (put_lease d lid l) lid items = (Ok <$> rs, put_lease d' lid l').
Proof.
  induction items as [|[[rid amount] now] items IH];
    intros already l d rs l' d' Hbk Hst Hb Hsep Hdup Hal Hap.
  { by injection Hap as <- <- <-. }
  destruct Hb as [b Hb]. cbn [commit_each]. rewrite commit_at by done.
  rewrite (ledger_commit_active _ lid l b) by (done || apply lookup_insert_eq).
  cbn [apply_items_units] in Hap. cbv zeta in Hap |- *.
  change (reservations (put_lease d lid l)) with (reservations d).
  pose proof (separable_tail _ _ Hsep) as Hsep'.
  assert (∀ i, i ∈ items → is_Some (reservations d !! i.1.1) → i.1.1 ∈ already) as Hdup'
    by (intros i Hi; apply Hdup; set_solver).
  assert (∀ i, i ∈ items → i.1.1 ∈ already →
            is_Some (reservations d !! i.1.1) ∨ outstanding l <= 0) as Hal'
    by (intros i Hi; apply Hal; set_solver).
  case_bool_decide as Hin.
  { apply bind_Ok_inv in Hap as ([[rs1 l1] d1] & Hap & [= <- <- <-]).
    assert (bool_decide (is_Some (reservations d !! rid))
            || (Z.min amount (outstanding l) <=? 0) = true) as ->.
    { destruct (Hal (rid, amount, now) ltac:(set_solver) Hin) as [Hr|Hr].
      - by rewrite bool_decide_true.
      - apply orb_true_iff. right. blia. }
    by rewrite (IH already l d rs1 l1 d1) by (done || eauto). }
  rewrite (bool_decide_false (is_Some (reservations d !! rid))); cbn [orb].
  2: { intros Hr. apply Hin, (Hdup (rid, amount, now)); [set_solver|done]. }
  destruct (Z.leb_spec (Z.min amount (outstanding l)) 0) as [Hle|Hgt].
  { apply bind_Ok_inv in Hap as ([[rs1 l1] d1] & Hap & [= <- <- <-]).
    rewrite (IH ({[rid]} ∪ already) l d rs1 l1 d1); [done|done|done|by eauto|done|set_solver| |done].
    intros i Hi [Heq%elem_of_singleton|?]%elem_of_union; [|by apply Hal'].
    right. destruct Hsep as [Hnd|Hpos].
    - exfalso. apply NoDup_cons in Hnd as [Hnd _]. apply Hnd. change (rid ∈ items.*1.*1).
      rewrite <- Heq. apply list_elem_of_fmap. exists i.1. split; [done|].
      apply list_elem_of_fmap. by exists i.
    - specialize (Hpos (rid, amount, now) ltac:(set_solver)). simpl in Hpos. lia. }
  unfold get_one, insert_new in Hap. rewrite Hb in Hap. cbn [mbind res_bind] in Hap.
  destruct (reservations d !! rid) as [r|] eqn:Hr; [done|]. cbn [mbind res_bind] in Hap.
  apply bind_Ok_inv in Hap as ([[rs1 l1] d1] & Hap & [= <- <- <-]).
  rewrite settle_one_put_lease.
  rewrite (IH ({[rid]} ∪ already) (add_settled l (Z.min amount (outstanding l))) _ rs1 l1 d1);
    [done| |done| |done| | |done].
  - rewrite <- settle_one_put_lease.
    apply settle_step; simpl; [done|done|apply lookup_insert_eq|done|done|lia].
  - simpl. rewrite lookup_insert_eq. eauto.
  - intros i Hi. simpl. destruct (decide (i.1.1 = rid)) as [->|]; [set_solver|].
    rewrite lookup_insert_ne by done. intros. apply elem_of_union_r. eauto.
  - intros i Hi. simpl. destruct (decide (i.1.1 = rid)) as [->|].
    + rewrite lookup_insert_eq. eauto.
    + rewrite lookup_insert_ne by done. intros [?%elem_of_singleton|Hi']%elem_of_union; [done|].
      destruct (Hal' i Hi Hi') as [?|?]; [by left|]. right. unfold outstanding in *. simpl. lia.
Qed.

(** What a budget and the allocations carved out of it, [n] levels down, have
    actually spent. *)
Fixpoint tree_spend (n : nat) (d : db) (k : uuid) : Z :=
  match n with
  | O => settled_on d k
  | S n => settled_on d k
           + msum (λ c b, if decide (b_parent b = Some k) then tree_spend n d c else 0) (budgets d)
  end.

Lemma msum_le {A} (f g : uuid → A → Z) (m : gmap uuid A) :
  (∀ k a, m !! k = Some a → f k a <= g k a) → msum f m <= msum g m.
Proof.
  induction m as [|k a m Hk IH] using map_ind; intros H; [done|].
  rewrite !msum_insert by done.
  pose proof (H k a (lookup_insert_eq _ _ _)).
  enough (msum f m <= msum g m) by lia. apply IH. intros j b Hj. apply H.
  rewrite lookup_insert_ne; [done|]. by intros ->; simplify_eq.
Qed.

Lemma tree_spend_le n : ∀ d k b,
  books d → budgets d !! k = Some b → tree_spend n d k <= b_total b.
Proof.
  induction n as [|n IH]; intros d k b Hd Hk;
    destruct (books_row d k b Hd Hk) as (? & ? & ? & ? & Hc & Hl & Ha).
  { simpl. lia. }
  simpl. rewrite <- Hc.
  enough (msum (λ c b', if decide (b_parent b' = Some k) then tree_spend n d c else 0) (budgets d)
          <= b_allocated b) by lia.
  rewrite Ha. apply msum_le. intros c bc Hbc. unfold if_eq. case_decide; [|done]. by apply IH.
Qed.

(** A reaper pass, transaction by transaction. *)
Lemma reap_one_active d lid l bud :
  books d → leases d !! lid = Some l → l_state l = ACTIVE →
  budgets d !! l_budget_id l = Some bud →
  reap_one d lid = (Ok true,
    put_lease (put_budget d (l_budget_id l) (add_leased bud (- outstanding l)))
      lid (set_state l EXPIRED)).
Proof.
  intros Hd Hl Hst Hb. unfold reap_one. apply transaction_commits.
  - unfold _retire, get_one. rewrite Hl. cbn [mbind res_bind].
    rewrite bool_decide_true by done. cbn [negb]. by rewrite Hb.
  - by apply retire_step.
Qed.

(** Nothing but the leases of [ids] changes state, and those expire. *)
Lemma reap_loop_spec ids : ∀ d,
  books d → NoDup ids → (∀ k, k ∈ ids → ∃ l, leases d !! k = Some l ∧ l_state l = ACTIVE) →
  ∃ d', reap_loop d ids = (Ok ids, d') ∧ books d' ∧
    (∀ k l, leases d !! k = Some l →
       leases d' !! k = Some (if decide (k ∈ ids) then set_state l EXPIRED else l)) ∧
    (∀ k, leases d !! k = None → leases d' !! k = None).
Proof.
  induction ids as [|k ids IH]; intros d Hd Hnd Hact.
  { exists d. split_and!; [done..|set_solver|done]. }
  apply NoDup_cons in Hnd as [Hk Hnd].
  destruct (Hact k ltac:(set_solver)) as (l & Hl & Hst).
  destruct (wf_lease _ (bk_wf _ Hd) _ _ Hl) as [_ [bud Hb]].
  simpl. rewrite (reap_one_active _ _ _ _ Hd Hl Hst Hb).
  set (d1 := put_lease _ _ _).
  assert (∀ j, j ≠ k → leases d1 !! j = leases d !! j) as Hother
    by (intros j Hj; unfold d1; simpl; by rewrite lookup_insert_ne).
  assert (leases d1 !! k = Some (set_state l EXPIRED)) as Hself
    by (unfold d1; simpl; apply lookup_insert_eq).
  destruct (IH d1) as (d' & -> & Hd' & Hmid & Hnone).
  - by apply retire_step.
  - done.
  - intros j Hj. rewrite Hother by (intros ->; done). apply Hact. set_solver.
  - exists d'. split_and!; [done|done| |].
    + intros j lj Hj. destruct (decide (j = k)) as [->|Hne].
      * rewrite Hl in Hj. injection Hj as <-. rewrite (Hmid _ _ Hself).
        rewrite decide_False by done. rewrite decide_True by set_solver. done.
      * rewrite <- (Hother j Hne) in Hj. rewrite (Hmid _ _ Hj).
        destruct (decide (j ∈ ids)), (decide (j ∈ k :: ids)); done || set_solver.
    + intros j Hj. apply Hnone. rewrite Hother; [done|]. intros ->. congruence.
Qed.

Lemma elem_of_candidates d cutoff k :
  k ∈ reap_candidates d cutoff ↔
  ∃ l, leases d !! k = Some l ∧ l_state l = ACTIVE ∧ l_expires_at l < cutoff.
Proof.
  unfold reap_candidates. rewrite list_elem_of_fmap. split.
  - intros ([j l] & -> & Hin). apply list_elem_of_filter in Hin as [[??] Hin].
    apply elem_of_map_to_list in Hin. eauto.
  - intros (l & Hl & ? & ?). exists (k, l). split; [done|].
    apply list_elem_of_filter. split; [done|]. by apply elem_of_map_to_list.
Qed.

Lemma candidates_NoDup d cutoff : NoDup (reap_candidates d cutoff).
Proof.
  unfold reap_candidates. apply (NoDup_fmap_fst).
  - intros k l1 l2 [_ H1]%list_elem_of_filter [_ H2]%list_elem_of_filter.
    apply elem_of_map_to_list in H1, H2. congruence.
  - apply NoDup_filter, NoDup_map_to_list.
Qed.

(** ** Properties *)

(** A small history the witnesses share: a funded pool of 100.0000, a child
    allocation, two leases on the pool, one of them partly settled. *)
Definition demo_ops : list ledger_op :=
  [OpFund 1%N 10%N (u "spend_bdt") 1000000;
   OpSplit 1%N (u "spend_bdt") [(u "agt-a", 200000, 2%N)];
   OpAcquire 10%N (u "spend_bdt") 500000 (u "pep-1") 30000000 0 None 3%N;
   OpAcquire 10%N (u "spend_bdt") 100000 (u "pep-2") 60000000 0 None 4%N;
   OpCommit 3%N [(20%N, 150000, 1); (21%N, 100000, 2)]].
Definition demo_db : db := run_ops empty_db demo_ops.

Lemma demo_books : books demo_db.
Proof. apply run_ops_books, books_empty. Qed.

(** C1: whatever operations run against the ledger, in whatever order, from whatever
    callers and with any amounts of whole 1/10000 units (positive or not, available
    or not), the invariant checker reports nothing (exit code 0): no
    balance is negative, [committed + leased + allocated <= total] on every budget,
    and the three books equalities hold; and no lease has settled more than it was
    granted. *)
Theorem ledger_history_balances (ops : list ledger_op) :
  let d := run_ops empty_db ops in
  exit_code (check_in_session d) = 0
  ∧ (∀ k b, budgets d !! k = Some b →
       0 <= settled_on d k ∧ 0 <= active_outstanding d k ∧ 0 <= child_totals d k
       ∧ settled_on d k + active_outstanding d k + child_totals d k <= b_total b)
  ∧ (∀ k l, leases d !! k = Some l → lease_sum d k = l_settled l ∧ l_settled l <= l_granted l).
Proof.
  intros d. assert (books d) as Hd by apply run_ops_books, books_empty.
  split_and!.
  - unfold exit_code. rewrite (proj2 (checker_iff d)); [done|]. intros. by apply books_row.
  - intros k b Hk. destruct (books_row d k b Hd Hk) as (? & ? & ? & ? & <- & <- & <-). done.
  - intros k l Hk. destruct (wf_lease _ (bk_wf _ Hd) _ _ Hk) as [Hok _].
    apply lease_row_ok_iff in Hok. pose proof (sum_settled _ (bk_sums _ Hd) _ _ Hk). lia.
Qed.

(** The whole units are needed.  The columns of one settlement round apart: a
    settlement of 0.00005 against a lease of 50.0000 stores 0.0001 as committed and
    settled, and leaves 50.0000 as leased, so the checker reports the budget. *)
Example rounding_breaks_the_books :
  let d := run_ops empty_db
    [OpFund 1%N 10%N (u "spend_bdt") 1000000;
     OpAcquire 10%N (u "spend_bdt") 500000 (u "pep-1") 30000000 0 None 3%N] in
  let r := ledger_commit d 3%N 20%N (Dec 5 (-5)) 1 in
  r.1 = Ok true
  ∧ exit_code (check_in_session d) = 0 ∧ exit_code (check_in_session r.2) = 1
  ∧ (b_committed <$> budgets r.2 !! 1%N) = Some 1
  ∧ (b_leased <$> budgets r.2 !! 1%N) = Some 500000
  ∧ (outstanding <$> leases r.2 !! 3%N) = Some 499999.
Proof. split_and!; vm_compute; reflexivity. Qed.

(** C2: the checker is exact: its exit code is 0 precisely when every budget row
    satisfies the pool inequality, has no negative balance, and agrees with the
    sums over reservations, active leases and child allocations; no violation is
    missed and none is spurious. *)
Theorem checker_exact (d : db) :
  exit_code (check_in_session d) = 0 ↔ ∀ k b, budgets d !! k = Some b → row_books d k b.
Proof.
  rewrite <- checker_iff. unfold exit_code. by destruct (holds _).
Qed.



(** C8: [acquire] on the one row its filter selects grants
    [min(requested, available)] of a whole number of 1/10000 units, moves exactly that from available to leased and
    inserts an active, unsettled lease expiring at [now + ttl]; when that minimum is
    not positive it raises [LeaseUnavailableError] and changes nothing.  The
    schema's CHECK constraints never refuse it. *)
Theorem acquire_grants (d : db) (mandate : uuid) (dim : pystr) (req : Z) (pep : pystr)
    (ttl now : Z) (agent : option pystr) (lid bid : uuid) (b : BudgetRow) :
  books d →
  scalar_one (filter (λ p, acquire_matches mandate dim agent p.2) (map_to_list (budgets d)))
    = Ok (bid, b) →
  leases d !! lid = None → 0 <= now + ttl <= MAX_INSTANT →
  let grant := Z.min req (available b) in
  let lease := mkLeaseRow bid pep grant 0 now (now + ttl) ACTIVE in
  acquire d mandate dim (dec_of_units req) pep ttl now agent lid =
    if grant <=? 0 then (Raise LeaseUnavailableError, d)
    else (Ok (granted_obj lease), put_budget (put_lease d lid lease) bid (add_leased b grant)).
Proof.
  intros Hd Hq Hl Ht grant lease. rewrite acquire_at by done.
  enough (acquire_units d mandate dim req pep ttl now agent lid =
    if grant <=? 0 then (Raise LeaseUnavailableError, d)
    else (Ok lease, put_budget (put_lease d lid lease) bid (add_leased b grant))) as ->
    by (by destruct (grant <=? 0)).
  unfold acquire_units. rewrite Hq. cbn [mbind res_bind].
  fold grant. destruct (Z.leb_spec grant 0) as [Hg|Hg]; [done|].
  cbn [raise_if mbind res_bind]. unfold add_delta, insert_new. rewrite Hl.
  replace ((0 <=? now + ttl) && (now + ttl <=? MAX_INSTANT)) with true by (symmetry; blia).
  cbn [mbind res_bind]. apply transaction_commits; [done|].
  apply acquire_query in Hq as [Hb _].
  apply (acquire_step d bid b lid lease); done || (simpl; lia).
Qed.

Lemma acquire_grants_witness :
  (acquire demo_db 10%N (u "spend_bdt") (Dec 900000 (-4)) (u "pep-3") 1000 5 None 7%N).1
  = Ok (mkLeaseObj 1%N (u "pep-3") (Dec 200000 (-4)) (Dec 0 0) 5 1005 ACTIVE).
Proof.
  change (Dec 900000 (-4)) with (dec_of_units 900000).
  rewrite (acquire_grants demo_db 10%N (u "spend_bdt") 900000 (u "pep-3") 1000 5 None 7%N 1%N
    (mkBudgetRow 10%N (u "spend_bdt") 1000000 250000 350000 200000 None None)
    demo_books); [vm_compute; reflexivity..|unfold MAX_INSTANT; lia].
Defined.

(** A lease is retired exactly once.  Releasing an active lease returns its
    outstanding amount to its budget and succeeds with [True]; after that, releasing
    or reaping it again returns [False] and changes nothing. *)
Theorem retire_once (d : db) (lid : uuid) (l : LeaseRow) (b : BudgetRow) :
  books d → leases d !! lid = Some l → l_state l = ACTIVE →
  budgets d !! l_budget_id l = Some b →
  let d' := put_lease (put_budget d (l_budget_id l) (add_leased b (- outstanding l)))
              lid (set_state l RELEASED) in
  release d lid = (Ok true, d')
  ∧ (available <$> budgets d' !! l_budget_id l) = Some (available b + outstanding l)
  ∧ release d' lid = (Ok false, d') ∧ reap_one d' lid = (Ok false, d').
Proof.
  intros Hd Hl Hst Hb d'.
  assert (books d') as Hd' by (by apply retire_step).
  assert (∀ s, _retire d' lid s = Ok (false, d')) as Hagain.
  { intros s. unfold _retire, get_one, d'. simpl. by rewrite lookup_insert_eq. }
  split_and!.
  - unfold release. apply transaction_commits; [|done].
    unfold _retire, get_one. rewrite Hl. cbn [mbind res_bind].
    rewrite bool_decide_true by done. cbn [negb]. by rewrite Hb.
  - unfold d'. simpl. rewrite lookup_insert_eq. simpl. f_equal. unfold available. simpl. lia.
  - unfold release. by apply transaction_commits.
  - unfold reap_one. by apply transaction_commits.
Qed.

Lemma retire_once_witness :
  (release demo_db 3%N).1 = Ok true
  ∧ (release (release demo_db 3%N).2 3%N).1 = Ok false.
Proof.
  destruct (retire_once demo_db 3%N
    (mkLeaseRow 1%N (u "pep-1") 500000 250000 0 30000000 ACTIVE)
    (mkBudgetRow 10%N (u "spend_bdt") 1000000 250000 350000 200000 None None)
    demo_books) as (H1 & H2 & H3 & H4); [vm_compute; reflexivity..|].
  rewrite H1. split; [cbn [fst]; reflexivity|]. cbn [snd]. rewrite H3. cbn [fst]. reflexivity.
Defined.

(** One batch is one call per item: on an active lease [ledger_commit_batch]
    returns the verdicts and leaves the ledger that settling the items one by one
    would, provided no reservation id repeats or every amount is a positive spend.
    On any other lease both refuse every item and record the same anomalies. *)
Theorem batch_is_sequence (d : db) (lid : uuid) (l : LeaseRow) (items : list item) :
  books d → leases d !! lid = Some l → items ≠ [] → separable items →
  (∀ i, i ∈ items → numeric_fits i.1.2 = true) →
  match ledger_commit_batch d lid (item_at <$> items) with
  | (Ok rs, d') => l_state l = ACTIVE ∧ commit_each d lid items = (Ok <$> rs, d')
  | (Raise e, d') =>
      l_state l ≠ ACTIVE ∧ e = LeaseNotActiveError ∧
      commit_each d lid items = ((λ _, Raise LeaseNotActiveError) <$> items, d')
  end.
Proof.
  intros Hd Hl Hne Hsep Hfit. rewrite commit_batch_at by done. unfold ledger_commit_batch_units at 1. rewrite bool_decide_false by done.
  destruct (decide (l_state l = ACTIVE)) as [Hst|Hst].
  - destruct (commit_body_active d lid l items Hd Hl Hst)
      as (rs & l' & d' & x & Heq & Hlen & Hbk & Hm & Hap).
    rewrite (transaction_commits _ _ _ _ Heq Hbk). split; [done|].
    rewrite <- (put_lease_id d lid l) at 1 by done.
    eapply commit_each_apply; [|done| |done| | |done].
    + by rewrite put_lease_id.
    + by eapply wf_lease; [apply Hd|].
    + apply settled_ids_spec.
    + intros i _ Hi. left. unfold settled_ids_units in Hi.
      by apply elem_of_list_to_set, list_elem_of_filter in Hi as [? _].
  - rewrite (commit_rejected d lid l items); [|done..].
    split_and!; [done..|]. clear Hne Hsep.
    revert d Hd Hl. induction items as [|[[rid amount] now] items IH]; intros d Hd Hl; simpl.
    { unfold with_anomalies, set_anomalies. simpl. rewrite app_nil_r. by destruct d. }
    rewrite commit_at by done. unfold ledger_commit_units, ledger_commit_batch_units.
    rewrite bool_decide_false by done.
    rewrite (commit_rejected d lid l [(rid, amount, now)]);
      [|done..|intros i ->%list_elem_of_singleton; apply Hfit; set_solver].
    cbn [mbind res_bind].
    rewrite IH; [|set_solver| |done].
    + simpl. unfold with_anomalies. simpl. by rewrite <- app_assoc.
    + by apply (rejected_books d lid l [(rid, amount, now)]);
        [|done..|intros i ->%list_elem_of_singleton; apply Hfit; set_solver].
Qed.

Lemma batch_is_sequence_witness :
  let items : list item := [(30%N, 70000, 1); (31%N, 70000, 2); (30%N, 5, 3)] in
  (ledger_commit_batch demo_db 4%N (item_at <$> items)).1 = Ok [true; true; false]
  ∧ (commit_each demo_db 4%N items).1 = [Ok true; Ok true; Ok false].
Proof.
  intros items.
  assert (ledger_commit_batch demo_db 4%N (item_at <$> items)
          = (Ok [true; true; false], (ledger_commit_batch demo_db 4%N (item_at <$> items)).2)) as E
    by (vm_compute; reflexivity).
  pose proof (batch_is_sequence demo_db 4%N
    (mkLeaseRow 1%N (u "pep-2") 100000 0 0 60000000 ACTIVE) items demo_books) as H.
  rewrite E in H |- *. destruct H as [_ H].
  - vm_compute; reflexivity.
  - discriminate.
  - right. apply Forall_forall. repeat constructor.
  - apply Forall_forall. repeat constructor.
  - cbn [fst]. rewrite H. split; reflexivity.
Defined.

Lemma apply_items_settled lid items : ∀ already l d rs l' d',
  apply_items_units lid already l d items = Ok (rs, l', d') →
  reservations d ⊆ reservations d' ∧
  ∀ n i, items !! n = Some i → rs !! n = Some true → is_Some (reservations d' !! i.1.1).
Proof.
  induction items as [|[[rid amount] now] items IH]; intros already l d rs l' d' Hap; simpl in Hap.
  { by injection Hap as <- <- <-. }
  assert (∀ b rs1 l1 d1 al' l2 d2,
    apply_items_units lid al' l2 d2 items = Ok (rs1, l1, d1) →
    rs = b :: rs1 → l' = l1 → d' = d1 → reservations d ⊆ reservations d2 →
    (b = true → is_Some (reservations d2 !! rid)) →
    reservations d ⊆ reservations d' ∧
    ∀ n i, ((rid, amount, now) :: items) !! n = Some i → rs !! n = Some true →
      is_Some (reservations d' !! i.1.1)) as Hstep.
  { intros b rs1 l1 d1 al' l2 d2 Hi -> -> -> Hsub Hb. apply IH in Hi as [Hsub' Hi].
    split; [by etrans|]. intros [|n] i Hn Hr; simpl in *; simplify_eq; [|by eapply Hi].
    destruct (Hb eq_refl) as [r Hr']. eexists. by eapply lookup_weaken. }
  case_bool_decide.
  { apply bind_Ok_inv in Hap as ([[rs1 l1] d1] & Hap & [= <- <- <-]). by eapply Hstep. }
  destruct (_ <=? 0).
  { apply bind_Ok_inv in Hap as ([[rs1 l1] d1] & Hap & [= <- <- <-]). by eapply Hstep. }
  unfold get_one, insert_new in Hap. destruct (budgets d !! _) as [b|]; [|done].
  cbn [mbind res_bind] in Hap. destruct (reservations d !! rid) eqn:Hr; [done|].
  cbn [mbind res_bind] in Hap. apply bind_Ok_inv in Hap as ([[rs1 l1] d1] & Hap & [= <- <- <-]).
  eapply Hstep; [done..| |]; simpl.
  - by apply insert_subseteq.
  - rewrite lookup_insert_eq. eauto.
Qed.

(** Settling against an active lease always commits.  It moves one amount [x],
    at most what the lease had outstanding however much was reported, from the
    budget's leased to its committed and onto the lease's settled; every id reported
    as applied is recorded, and replaying any recorded id is a no-op. *)
Theorem settlement_clamped_once (d : db) (lid : uuid) (l : LeaseRow) (b : BudgetRow)
    (items : list item) :
  books d → leases d !! lid = Some l → l_state l = ACTIVE →
  budgets d !! l_budget_id l = Some b → items ≠ [] →
  ∃ rs d' x, ledger_commit_batch d lid (item_at <$> items) = (Ok rs, d')
    ∧ length rs = length items ∧ 0 <= x <= outstanding l
    ∧ budgets d' = <[l_budget_id l := add_leased (add_committed b x) (- x)]> (budgets d)
    ∧ leases d' = <[lid := add_settled l x]> (leases d) ∧ anomalies d' = anomalies d
    ∧ (∀ n i, items !! n = Some i → rs !! n = Some true → is_Some (reservations d' !! i.1.1))
    ∧ (∀ rid amount now, is_Some (reservations d' !! rid) →
         ledger_commit d' lid rid (dec_of_units amount) now = (Ok false, d')).
Proof.
  intros Hd Hl Hst Hb Hne.
  destruct (commit_body_active d lid l items Hd Hl Hst)
    as (rs & l' & d1 & x & Heq & Hlen & Hbk & Hm & Hap).
  pose proof (proj2 (apply_items_settled _ _ _ _ _ _ _ _ Hap)) as Hset.
  destruct Hm as (-> & Hx & Hleases & Han & Hres & Hbud). specialize (Hbud b Hb).
  exists rs, (put_lease d1 lid (add_settled l x)), x.
  rewrite commit_batch_at by done. unfold ledger_commit_batch_units. rewrite bool_decide_false by done.
  rewrite (transaction_commits _ _ _ _ Heq Hbk).
  split_and!; simpl; try (done || lia).
  - by rewrite Hleases.
  - intros rid amount now Hrid. rewrite commit_at by done.
    rewrite (ledger_commit_active _ lid (add_settled l x)
               (add_leased (add_committed b x) (- x))); simpl; try done.
    + by rewrite bool_decide_true.
    + apply lookup_insert_eq.
    + rewrite Hbud. apply lookup_insert_eq.
Qed.

Lemma settlement_clamped_once_witness :
  ∃ rs d' x, ledger_commit_batch demo_db 3%N [(40%N, Dec 9999999 (-4), 5)] = (Ok rs, d')
    ∧ 0 <= x <= 250000 ∧ length rs = 1%nat.
Proof.
  destruct (settlement_clamped_once demo_db 3%N
    (mkLeaseRow 1%N (u "pep-1") 500000 250000 0 30000000 ACTIVE)
    (mkBudgetRow 10%N (u "spend_bdt") 1000000 250000 350000 200000 None None)
    [(40%N, 9999999, 5)] demo_books) as (rs & d' & x & H1 & H2 & H3 & _);
    [vm_compute; reflexivity..|discriminate|]. exists rs, d', x.
  exact (conj H1 (conj H3 H2)).
Defined.

(** A late settlement is refused, not applied: against a lease that has left
    [active] the whole batch raises [LeaseNotActiveError], no budget, lease or
    reservation changes, and one reconciliation anomaly per item, with the reported
    amount and the lease's state, is persisted although the call raises. *)
Theorem late_commit_recorded (d : db) (lid : uuid) (l : LeaseRow) (items : list item) :
  books d → leases d !! lid = Some l → l_state l ≠ ACTIVE → items ≠ [] →
  (∀ i, i ∈ items → numeric_fits i.1.2 = true) →
  ledger_commit_batch d lid (item_at <$> items) =
    (Raise LeaseNotActiveError,
     mkDb (budgets d) (leases d) (reservations d)
       (anomalies d ++ ((λ i, mkAnomalyRow lid i.1.1 i.1.2 (l_state l) i.2) <$> items))).
Proof.
  intros Hd Hl Hst Hne Hfit. rewrite commit_batch_at by done. unfold ledger_commit_batch_units. rewrite bool_decide_false by done.
  rewrite (commit_rejected d lid l items) by done. do 2 f_equal.
  unfold with_anomalies, set_anomalies. do 2 f_equal. apply list_fmap_ext.
  by intros _ [[rid amount] now] _.
Qed.

Lemma late_commit_recorded_witness :
  let d := run_op demo_db (OpReapOne 4%N) in
  (ledger_commit_batch d 4%N [(50%N, Dec 10 (-4), 7)]).1 = Raise LeaseNotActiveError
  ∧ length (anomalies (ledger_commit_batch d 4%N [(50%N, Dec 10 (-4), 7)]).2) = 1%nat.
Proof.
  intros d. change [(50%N, Dec 10 (-4), 7)] with (item_at <$> [(50%N, 10, 7)]).
  rewrite (late_commit_recorded d 4%N
    (mkLeaseRow 1%N (u "pep-2") 100000 0 0 60000000 EXPIRED) [(50%N, 10, 7)]).
  - split; vm_compute; reflexivity.
  - apply run_op_books, demo_books.
  - vm_compute; reflexivity.
  - discriminate.
  - discriminate.
  - apply Forall_forall. repeat constructor.
Defined.

(** A reaper pass at [now] expires exactly the active leases whose [expires_at]
    is more than the skew allowance in the past, reports each of them, raises
    nothing, and leaves every other lease as it was. *)
Theorem reap_complete (d : db) (now : Z) :
  books d → 0 <= now - SKEW_ALLOWANCE <= MAX_INSTANT →
  ∃ ids d', reap d now = (Ok ids, d')
    ∧ (∀ k, k ∈ ids ↔ ∃ l, leases d !! k = Some l ∧ l_state l = ACTIVE
                           ∧ l_expires_at l + SKEW_ALLOWANCE < now)
    ∧ (∀ k l, leases d !! k = Some l →
         leases d' !! k = Some (if decide (k ∈ ids) then set_state l EXPIRED else l))
    ∧ (∀ k l, leases d' !! k = Some l → l_state l = ACTIVE →
         now <= l_expires_at l + SKEW_ALLOWANCE).
Proof.
  intros Hd Hnow. set (cutoff := now - SKEW_ALLOWANCE).
  set (ids := reap_candidates d cutoff).
  assert (∀ k, k ∈ ids ↔ ∃ l, leases d !! k = Some l ∧ l_state l = ACTIVE
                              ∧ l_expires_at l + SKEW_ALLOWANCE < now) as Hids.
  { intros k. unfold ids. rewrite elem_of_candidates. unfold cutoff.
    split; intros (l & ? & ? & ?); exists l; split_and!; done || lia. }
  destruct (reap_loop_spec ids d Hd) as (d' & Heq & Hd' & Hmid & Hnone).
  - apply candidates_NoDup.
  - intros k Hk. apply Hids in Hk as (l & ? & ? & _). eauto.
  - exists ids, d'. split_and!; [|done|done|].
    + unfold reap, add_delta.
      replace ((0 <=? now + - SKEW_ALLOWANCE) && (now + - SKEW_ALLOWANCE <=? MAX_INSTANT))
        with true by (symmetry; blia).
      by replace (now + - SKEW_ALLOWANCE) with cutoff by (unfold cutoff; lia).
    + intros k l' Hl' Hst. destruct (leases d !! k) as [l|] eqn:Hl.
      2: { rewrite Hnone in Hl'; done. }
      rewrite (Hmid _ _ Hl) in Hl'. destruct (decide (k ∈ ids)) as [Hin|Hin].
      * injection Hl' as <-. done.
      * injection Hl' as <-. destruct (decide (now <= l_expires_at l + SKEW_ALLOWANCE)); [done|].
        exfalso. apply Hin, Hids. exists l. split_and!; done || lia.
Qed.

Lemma reap_complete_witness :
  ∃ ids d', reap demo_db 40000000 = (Ok ids, d') ∧ (3%N ∈ ids) ∧ (4%N ∉ ids).
Proof.
  destruct (reap_complete demo_db 40000000 demo_books) as (ids & d' & H & Hids & _).
  - unfold SKEW_ALLOWANCE, MAX_INSTANT. lia.
  - exists ids, d'. split; [exact H|]. rewrite !Hids. split.
    + exists (mkLeaseRow 1%N (u "pep-1") 500000 250000 0 30000000 ACTIVE).
      split_and!; vm_compute; reflexivity.
    + intros (l & Hl & _ & Hlt).
      assert (leases demo_db !! 4%N = Some (mkLeaseRow 1%N (u "pep-2") 100000 0 0 60000000 ACTIVE))
        as Hl' by (vm_compute; reflexivity).
      rewrite Hl' in Hl. injection Hl as <-. vm_compute in Hlt. discriminate Hlt.
Defined.

(** What [insert_children_units] leaves behind. *)
Lemma insert_children_Ok pid parent dim allocs : ∀ d created d',
  insert_children_units d pid parent dim allocs = Ok (created, d') →
  created = (λ a, (a.1.1, a.2)) <$> allocs
  ∧ leases d' = leases d ∧ reservations d' = reservations d ∧ anomalies d' = anomalies d
  ∧ budgets d ⊆ budgets d'
  ∧ (∀ a, a ∈ allocs → budgets d !! a.2 = None ∧ budgets d' !! a.2 =
       Some (mkBudgetRow (b_mandate_id parent) dim (alloc_amount a) 0 0 0 (Some pid) (Some a.1.1)))
  ∧ (∀ k, k ∉ allocs.*2 → budgets d' !! k = budgets d !! k).
Proof.
  induction allocs as [|[[agent amount] k] allocs IH]; intros d created d' Hi; simpl in Hi.
  { injection Hi as <- <-. split_and!; try done. set_solver. }
  unfold insert_new in Hi. destruct (budgets d !! k) eqn:Hk; [done|].
  cbn [mbind res_bind] in Hi. apply bind_Ok_inv in Hi as ([cr d1] & Hi & [= <- <-]).
  apply IH in Hi as (-> & Hl & Hr & Ha & Hsub & Hin & Hother). simpl in *.
  split_and!; try done.
  - etrans; [|done]. by apply insert_subseteq.
  - intros a [->|Ha']%elem_of_cons.
    + split; [done|]. simpl. eapply lookup_weaken; [apply lookup_insert_eq|done].
    + destruct (Hin a Ha') as [Hn Hs]. split; [|done].
      by apply lookup_insert_None in Hn as [? _].
  - intros j Hj. rewrite Hother by set_solver. rewrite lookup_insert_ne; [done|]. set_solver.
Qed.

(** [split_budget] is all or nothing.  When it succeeds every amount was
    positive, their sum was available, each agent has a fresh child row holding its
    amount, and exactly the sum became unavailable on the parent; when it raises,
    nothing was created, and an over-allocation raises [AllocationError]. *)
Theorem split_all_or_nothing (d : db) (pid : uuid) (dim : pystr)
    (allocs : list (pystr * Z * uuid)) (p : BudgetRow) :
  books d → budgets d !! pid = Some p →
  let total := lsum (alloc_amount <$> allocs) in
  match split_budget d pid dim (alloc_at <$> allocs) with
  | (Ok created, d') =>
      (∀ a, a ∈ allocs → 0 < alloc_amount a) ∧ total <= available p
      ∧ created = (λ a, (a.1.1, a.2)) <$> allocs
      ∧ (available <$> budgets d' !! pid) = Some (available p - total)
      ∧ (∀ a, a ∈ allocs → budgets d !! a.2 = None ∧ budgets d' !! a.2 =
           Some (mkBudgetRow (b_mandate_id p) dim (alloc_amount a) 0 0 0 (Some pid) (Some a.1.1)))
      ∧ leases d' = leases d ∧ reservations d' = reservations d
  | (Raise e, d') =>
      d' = d ∧ (allocs ≠ [] → (∀ a, a ∈ allocs → 0 < alloc_amount a) →
                available p < total < 10 ^ 28 → e = AllocationError)
  end.
Proof.
  intros Hd Hp total. destruct (split_at d pid dim allocs Hd) as [->|(Hbig & e & ->)].
  2: { split; [done|]. fold total in Hbig. lia. }
  unfold split_budget_units. case_bool_decide as Hne; [done|].
  destruct (existsb _ allocs) eqn:Hex.
  { split; [done|]. intros _ Hpos _. apply existsb_exists in Hex as (a & Ha & Hle).
    apply list_elem_of_In, Hpos in Ha. blia. }
  assert (∀ a, a ∈ allocs → 0 < alloc_amount a) as Hpos.
  { intros a Ha%list_elem_of_In. apply Z.nle_gt. intros Hle.
    assert (existsb (λ a, alloc_amount a <=? 0) allocs = true); [|congruence].
    apply existsb_exists. exists a. split; [done|]. blia. }
  unfold transaction, get_one. rewrite Hp. cbn [mbind res_bind].
  change (lsum _) with total. destruct (Z.ltb_spec (available p) total) as [Hlt|Hle]; [done|].
  cbn [raise_if mbind res_bind].
  destruct (insert_children_units d pid p dim allocs) as [[created d1]|e] eqn:Hi.
  2: { cbn [mbind res_bind]. split; [done|]. intros. lia. }
  cbn [mbind res_bind].
  destruct (constraints_ok _); [|split; [done|]; intros; lia].
  apply insert_children_Ok in Hi as (-> & Hl & Hr & _ & Hsub & Hin & Hother).
  split_and!; try done.
  - simpl. rewrite lookup_insert_eq. simpl. f_equal. unfold available, total. simpl. lia.
  - intros a Ha. destruct (Hin a Ha) as [Hn Hs]. split; [done|]. simpl.
    rewrite lookup_insert_ne; [done|]. congruence.
Qed.

Lemma split_all_or_nothing_witness :
  let r := split_budget demo_db 1%N (u "spend_bdt") [(u "agt-b", Dec 100000 (-4), 60%N)] in
  r.1 = Ok [(u "agt-b", 60%N)] ∧ (available <$> budgets r.2 !! 1%N) = Some 100000.
Proof.
  intros r.
  pose proof (split_all_or_nothing demo_db 1%N (u "spend_bdt") [(u "agt-b", 100000, 60%N)]
    (mkBudgetRow 10%N (u "spend_bdt") 1000000 250000 350000 200000 None None)
    demo_books ltac:(vm_compute; reflexivity)) as H.
  assert (r = (Ok [(u "agt-b", 60%N)], r.2)) as E by (vm_compute; reflexivity).
  change (split_budget _ _ _ _) with r in H. rewrite E in H |- *.
  destruct H as (_ & _ & _ & H & _). split; [reflexivity|exact H].
Defined.

(** The pool lookup is unambiguous: in every reachable ledger [acquire] on the
    shared pool (no [agent_id]) never raises [MultipleResultsFound], however the
    pool has been split. *)
Theorem pool_row_unique (d : db) (mandate : uuid) (dim : pystr) :
  books d →
  scalar_one (filter (λ p, acquire_matches mandate dim None p.2) (map_to_list (budgets d)))
    ≠ Raise MultipleResultsFound.
Proof.
  intros Hd. destruct (filter _ _) as [|p [|q l]] eqn:Hf; [done..|]. intros _.
  assert (∀ r, r ∈ p :: q :: l → budgets d !! r.1 = Some r.2 ∧ b_parent r.2 = None
            ∧ b_mandate_id r.2 = mandate ∧ b_dimension r.2 = dim) as Hall.
  { intros [k b] Hr. rewrite <- Hf in Hr. apply list_elem_of_filter in Hr as [Hm Hr].
    apply elem_of_map_to_list in Hr. split; [done|]. apply Is_true_true in Hm.
    unfold acquire_matches, row_filter in Hm. rewrite !andb_true_iff, !bool_decide_eq_true in Hm.
    simpl in *. tauto. }
  destruct (Hall p) as (Hp & Hp1 & Hp2 & Hp3); [set_solver|].
  destruct (Hall q) as (Hq & Hq1 & Hq2 & Hq3); [set_solver|].
  assert (p.1 = q.1) as Heq.
  { apply (bk_unique _ Hd _ _ _ _ Hp Hq). unfold budget_key. rewrite Hp1, Hq1. congruence. }
  assert (NoDup (p :: q :: l)) as Hnd.
  { rewrite <- Hf. apply NoDup_filter, NoDup_map_to_list. }
  apply NoDup_cons in Hnd as [Hnd _]. apply Hnd. destruct p as [k b], q as [k' b'].
  simpl in *. subst k'. rewrite Hp in Hq. injection Hq as <-. set_solver.
Qed.

Lemma pool_row_unique_witness :
  scalar_one (filter (λ p, acquire_matches 10%N (u "spend_bdt") None p.2)
                (map_to_list (budgets demo_db))) ≠ Raise MultipleResultsFound.
Proof. apply (pool_row_unique demo_db 10%N (u "spend_bdt") demo_books). Defined.
