(* ===== verification/Lease.v ===== *)
(** * Local leases (agentiam_pep/lease.py)

    [reserve] and [commit] on one held lease, with no network: the object they
    mutate is passed and returned.  The history relation records what a PEP did
    with one lease, and its conservation law is what makes the ledger's view and
    the PEP's agree. *)
From S2P Require Import Prelude PyText Errors PyNum Models.

Record LocalLease := mkLocalLease {
  ll_id : uuid;
  ll_granted : Z;
  ll_remaining_local : Z;
  ll_expires_at : Z;
  ll_state : LeaseState }.
#[global] Instance LocalLease_eq_dec : EqDecision LocalLease.
Proof. solve_decision. Defined.

Record Reservation := mkReservation { rs_id : uuid; rs_lease_id : uuid; rs_amount : Z }.
#[global] Instance Reservation_eq_dec : EqDecision Reservation.
Proof. solve_decision. Defined.

Record CommitOutcome := mkCommitOutcome {
  co_reservation_id : uuid; co_lease_id : uuid; co_amount : Z; co_escalated : bool }.
#[global] Instance CommitOutcome_eq_dec : EqDecision CommitOutcome.
Proof. solve_decision. Defined.

Definition set_remaining (l : LocalLease) (x : Z) : LocalLease :=
  mkLocalLease (ll_id l) (ll_granted l) x (ll_expires_at l) (ll_state l).

(** [reserve]; [rid] is [reservation_id or uuid.uuid4()]. *)
Definition reserve (lease : LocalLease) (amount now skew : Z) (rid : uuid)
    : py Reservation * LocalLease :=
  if amount <? 0 then (Raise ValueError, lease)
  else if negb (bool_decide (ll_state lease = ACTIVE)) then
    (Raise ReservationInsufficientError, lease)
  else if ll_expires_at lease - skew <=? now then (Raise ReservationInsufficientError, lease)
  else if ll_remaining_local lease <? amount then (Raise ReservationInsufficientError, lease)
  else (Ok (mkReservation rid (ll_id lease) amount),
        set_remaining lease (ll_remaining_local lease - amount)).

(** [commit]; [fresh] names the reservation of a covered shortfall. *)
Definition commit (lease : LocalLease) (r : Reservation) (actual now skew : Z) (fresh : uuid)
    : py CommitOutcome * LocalLease :=
  let delta := actual - rs_amount r in
  if 0 <? delta then
    match reserve lease delta now skew fresh with
    | (Ok _, lease) => (Ok (mkCommitOutcome (rs_id r) (ll_id lease) actual false), lease)
    | (Raise ReservationInsufficientError, lease) =>
        (Ok (mkCommitOutcome (rs_id r) (ll_id lease) actual true), lease)
    | (Raise e, lease) => (Raise e, lease)
    end
  else
    let lease := if delta <? 0 then set_remaining lease (ll_remaining_local lease + - delta)
                 else lease in
    (Ok (mkCommitOutcome (rs_id r) (ll_id lease) actual false), lease).

(** ** Lemmas *)
Lemma reserve_Ok lease amount now skew rid r lease' :
  reserve lease amount now skew rid = (Ok r, lease') →
  0 <= amount <= ll_remaining_local lease ∧ ll_state lease = ACTIVE
  ∧ now < ll_expires_at lease - skew
  ∧ r = mkReservation rid (ll_id lease) amount
  ∧ lease' = set_remaining lease (ll_remaining_local lease - amount).
Proof.
  unfold reserve. destruct (amount <? 0) eqn:?; [done|].
  case_bool_decide; simpl; [|done].
  destruct (_ <=? now) eqn:?; [done|]. destruct (_ <? amount) eqn:?; [done|].
  intros [= <- <-]. zify_bool. split_and!; (done || lia).
Qed.

Lemma reserve_Raise lease amount now skew rid e lease' :
  reserve lease amount now skew rid = (Raise e, lease') →
  lease' = lease ∧ (e = ReservationInsufficientError ∨ (e = ValueError ∧ amount < 0)).
Proof.
  unfold reserve. destruct (amount <? 0) eqn:?; [intros [= <- <-]; zify_bool; auto|].
  case_bool_decide; simpl; [|intros [= <- <-]; auto].
  destruct (_ <=? now); [intros [= <- <-]; auto|].
  destruct (_ <? amount); [intros [= <- <-]; auto|done].
Qed.

(** [commit] never raises, and accounts for the difference one way or another. *)
Lemma commit_Ok lease r actual now skew fresh :
  ∃ esc lease', commit lease r actual now skew fresh
      = (Ok (mkCommitOutcome (rs_id r) (ll_id lease) actual esc), lease')
    ∧ lease' = set_remaining lease (ll_remaining_local lease')
    ∧ ll_remaining_local lease' =
        ll_remaining_local lease + rs_amount r - (if esc then rs_amount r else actual)
    ∧ (esc = true → rs_amount r < actual)
    ∧ (actual <= rs_amount r → esc = false)
    ∧ (0 <= ll_remaining_local lease → 0 <= ll_remaining_local lease').
Proof.
  unfold commit. destruct (Z.ltb_spec 0 (actual - rs_amount r)) as [Hlt|Hge].
  - destruct (reserve lease (actual - rs_amount r) now skew fresh) as [[r'|e] lease'] eqn:Hr.
    + apply reserve_Ok in Hr as (? & _ & _ & _ & ->). simpl.
      exists false. eexists. split; [done|]. simpl. split_and!; (done || lia).
    + apply reserve_Raise in Hr as [-> [->|[-> ?]]]; [|lia].
      exists true, lease. split; [done|]. split_and!; try (done || lia).
      by destruct lease.
  - exists false. destruct (Z.ltb_spec (actual - rs_amount r) 0); eexists; (split; [done|]); simpl.
    + split_and!; (done || lia).
    + split_and!; try (done || lia). by destruct lease.
Qed.

(** ** What a PEP does with one lease *)

(** Ghost state: reservations not yet committed, what was reported spent, and how
    much of that no local remainder covered. *)
Record lease_history := mkHistory {
  h_lease : LocalLease; h_open : gmap uuid Z; h_spent : Z; h_overrun : Z }.

Inductive lease_step : lease_history → lease_history → Prop :=
| StepReserve h amount now skew rid r l' :
    h_open h !! rid = None →
    reserve (h_lease h) amount now skew rid = (Ok r, l') →
    lease_step h (mkHistory l' (<[rid:=amount]> (h_open h)) (h_spent h) (h_overrun h))
| StepCommit h rid amount actual now skew fresh o l' :
    h_open h !! rid = Some amount →
    commit (h_lease h) (mkReservation rid (ll_id (h_lease h)) amount) actual now skew fresh
      = (Ok o, l') →
    lease_step h
      (mkHistory l' (delete rid (h_open h)) (h_spent h + actual)
         (h_overrun h + if co_escalated o then actual - amount else 0))
| StepRetire h s :
    lease_step h
      (mkHistory (mkLocalLease (ll_id (h_lease h)) (ll_granted (h_lease h))
                    (ll_remaining_local (h_lease h)) (ll_expires_at (h_lease h)) s)
         (h_open h) (h_spent h) (h_overrun h)).

(** A lease as [_acquire] creates it. *)
Definition fresh_lease (k : uuid) (granted expires_at : Z) : LocalLease :=
  mkLocalLease k granted granted expires_at ACTIVE.
Definition start_history (k : uuid) (granted expires_at : Z) : lease_history :=
  mkHistory (fresh_lease k granted expires_at) ∅ 0 0.

Definition open_total (h : lease_history) : Z := msum (λ _ a, a) (h_open h).

Definition conserved (h : lease_history) : Prop :=
  ll_remaining_local (h_lease h) + open_total h + h_spent h
    = ll_granted (h_lease h) + h_overrun h
  ∧ 0 <= ll_remaining_local (h_lease h)
  ∧ (∀ k a, h_open h !! k = Some a → 0 <= a)
  ∧ 0 <= h_overrun h.

Lemma conserved_step h h' : conserved h → lease_step h h' → conserved h'.
Proof.
  intros (Heq & Hrem & Hopen & Hover) Hstep. unfold conserved, open_total in *.
  destruct Hstep as [h amount now skew rid r l' Hn Hr
                    |h rid amount actual now skew fresh o l' Hs Hc|h s]; simpl in *.
  - apply reserve_Ok in Hr as (? & _ & _ & _ & ->). simpl. rewrite msum_insert by done.
    split_and!; [lia|lia| |lia]. intros k a Hk. destruct (decide (k = rid)) as [->|].
    + rewrite lookup_insert_eq in Hk. injection Hk as <-. lia.
    + rewrite lookup_insert_ne in Hk by done. eauto.
  - destruct (commit_Ok (h_lease h) (mkReservation rid (ll_id (h_lease h)) amount)
                actual now skew fresh) as (esc & l1 & Hc' & Hl1 & Hrem1 & Hesc & _ & Hpos).
    rewrite Hc' in Hc. injection Hc as <- <-. simpl in *.
    rewrite (msum_delete _ _ _ _ Hs) in Heq. rewrite Hl1. simpl.
    split_and!; [destruct esc; lia|lia| |destruct esc; [specialize (Hesc eq_refl)|]; lia].
    intros k a [_ Hk]%lookup_delete_Some. eauto.
  - done.
Qed.

Lemma conserved_start k granted expires_at :
  0 <= granted → conserved (start_history k granted expires_at).
Proof.
  intros. unfold conserved, open_total. simpl.
  rewrite msum_empty. split_and!; try lia.
  intros ?? Hk. by rewrite lookup_empty in Hk.
Qed.

Lemma conserved_steps h h' : conserved h → rtc lease_step h h' → conserved h'.
Proof. intros H Hs. induction Hs; eauto using conserved_step. Qed.

Lemma granted_steps h h' :
  rtc lease_step h h' → ll_granted (h_lease h') = ll_granted (h_lease h).
Proof.
  induction 1 as [|h h1 h2 Hstep _ IH]; [done|]. rewrite IH. destruct Hstep as [h ??????? Hr|h ???????? Hs Hc|]; simpl in *.
  - by apply reserve_Ok in Hr as (_ & _ & _ & _ & ->).
  - destruct (commit_Ok (h_lease h) (mkReservation rid (ll_id (h_lease h)) amount)
                actual now skew fresh) as (esc & l1 & Hc' & Hl1 & _).
    rewrite Hc' in Hc. injection Hc as <- <-. by rewrite Hl1.
  - done.
Qed.

(** ** Properties *)

(** Conservation on one held lease.  Over any sequence of reservations,
    commits and retirements, what remains locally plus what is reserved plus what was
    reported spent is the grant plus the escalated overruns, and the local remainder
    is never negative: without an escalation a PEP cannot report more than it was
    granted. *)
Theorem lease_conservation (k : uuid) (granted expires_at : Z) (h : lease_history) :
  0 <= granted → rtc lease_step (start_history k granted expires_at) h →
  ll_remaining_local (h_lease h) + open_total h + h_spent h = granted + h_overrun h
  ∧ 0 <= ll_remaining_local (h_lease h)
  ∧ (h_overrun h = 0 → h_spent h + open_total h <= granted).
Proof.
  intros Hg Hs. pose proof (conserved_steps _ _ (conserved_start k _ expires_at Hg) Hs)
    as (Heq & Hrem & _ & _).
  rewrite (granted_steps _ _ Hs) in Heq. simpl in Heq.
  split_and!; [done|done|]. intros. lia.
Qed.

Definition demo_history : lease_history :=
  mkHistory (mkLocalLease 3%N 500000 380000 30000000 ACTIVE)
    (delete 7%N (<[7%N := 100000]> ∅)) (0 + 120000) (0 + 0).

Lemma lease_conservation_witness :
  ll_remaining_local (h_lease demo_history) + open_total demo_history + h_spent demo_history
    = 500000 + h_overrun demo_history.
Proof.
  apply (lease_conservation 3%N 500000 30000000 demo_history); [lia|].
  set (l1 := mkLocalLease 3%N 500000 400000 30000000 ACTIVE).
  eapply (rtc_l _ _ (mkHistory l1 (<[7%N := 100000]> ∅) 0 0)).
  { by apply (StepReserve (start_history 3%N 500000 30000000) 100000 0 5000000 7%N
                (mkReservation 7%N 3%N 100000) l1). }
  apply rtc_once.
  pose proof (StepCommit (mkHistory l1 (<[7%N := 100000]> ∅) 0 0) 7%N 100000 120000 1 5000000 8%N
    (mkCommitOutcome 7%N 3%N 120000 false) (mkLocalLease 3%N 500000 380000 30000000 ACTIVE)
    eq_refl eq_refl) as H.
  cbn [h_spent h_open h_overrun co_escalated] in H. exact H.
Defined.

(** [commit] reports the real amount, always.  It never raises; the outcome
    carries the reservation's id and the actual amount; an over-estimate refunds the
    exact difference; an under-estimate is covered from the remainder or flagged
    [escalated] with the lease untouched. *)
Theorem commit_reports_actual (lease : LocalLease) (r : Reservation)
    (actual now skew : Z) (fresh : uuid) :
  let delta := actual - rs_amount r in
  let covered := (ll_state lease = ACTIVE) ∧ now < ll_expires_at lease - skew
                 ∧ delta <= ll_remaining_local lease in
  let reported esc := mkCommitOutcome (rs_id r) (ll_id lease) actual esc in
  let after x := set_remaining lease (ll_remaining_local lease + x) in
  (delta <= 0 → commit lease r actual now skew fresh = (Ok (reported false), after (- delta)))
  ∧ (0 < delta → covered →
       commit lease r actual now skew fresh = (Ok (reported false), after (- delta)))
  ∧ (0 < delta → ¬ covered →
       commit lease r actual now skew fresh = (Ok (reported true), lease)).
Proof.
  intros delta covered reported after. unfold commit. fold delta. split_and!.
  - intros Hd. rewrite (proj2 (Z.ltb_ge 0 delta)) by lia.
    destruct (Z.ltb_spec delta 0); [done|]. unfold reported, after.
    replace (- delta) with 0 by lia. rewrite Z.add_0_r. by destruct lease.
  - intros Hd (Hst & Hnow & Hrem). rewrite (proj2 (Z.ltb_lt 0 delta)) by lia.
    unfold reserve. rewrite (proj2 (Z.ltb_ge delta 0)) by lia.
    rewrite bool_decide_true by done. cbn [negb].
    rewrite (proj2 (Z.leb_gt _ now)) by lia.
    rewrite (proj2 (Z.ltb_ge (ll_remaining_local lease) delta)) by lia. done.
  - intros Hd Hc. rewrite (proj2 (Z.ltb_lt 0 delta)) by lia.
    destruct (reserve lease delta now skew fresh) as [[r'|e] l'] eqn:Hr.
    + exfalso. apply Hc. apply reserve_Ok in Hr as ([_ ?] & ? & ? & _). done.
    + apply reserve_Raise in Hr as [-> [->|[-> ?]]]; [done|lia].
Qed.

(** the two skew margins never overlap.  If every clock is within the skew
    allowance [s] of real time, a reservation a PEP was able to make against a lease
    happened strictly before any instant at which the ledger's reaper may reclaim that
    lease, so budget is never spent from a lease already returned to the pool. *)
Theorem reserve_precedes_reclaim (lease : LocalLease) (amount s : Z) (rid : uuid)
    (pep_clock pep_time ledger_clock ledger_time : Z) :
  Z.abs (pep_clock - pep_time) <= s → Z.abs (ledger_clock - ledger_time) <= s →
  is_ok (reserve lease amount pep_clock s rid).1 = true →
  ll_expires_at lease < ledger_clock - s →
  pep_time < ledger_time.
Proof.
  intros Hp Hl Hok Hreap.
  destruct (reserve lease amount pep_clock s rid) as [[r|e] l'] eqn:Hr; [|done].
  apply reserve_Ok in Hr as (_ & _ & ? & _). lia.
Qed.

Lemma reserve_precedes_reclaim_witness :
  (24000000 : Z) < 41000000.
Proof.
  apply (reserve_precedes_reclaim (fresh_lease 3%N 500000 30000000) 10 5000000 9%N
           20000000 24000000 40000000 41000000); [lia|lia|reflexivity|].
  simpl. lia.
Defined.
