(* ===== verification/Settlement.v ===== *)
(** * Asynchronous settlement (agentiam_pep/settlement.py, db/settlement_sink.py)

    The bounded queue between a PEP's [commit] and the ledger's [LEDGER_COMMIT],
    and the sink that drains it.  The coroutine pieces between awaits are the
    steps: [enqueue] is synchronous, a flush reads its batch, awaits the sink, and
    pops what the sink answered for; the lock makes flushes exclusive, so only
    [enqueue] runs in between and it only appends.  The sink is a parameter of the
    queue, and the real one is the ledger's. *)
From S2P Require Import Prelude PyText Errors PyNum Models Ledger Units Books LedgerSpec Lease.

Record SettlementSettings := mkSettlementSettings {
  ss_capacity : Z; ss_flush_interval : Z; ss_batch_max : Z; ss_retry_pause : Z }.

(** [__post_init__]; intervals in milliseconds. *)
Definition check_settings (s : SettlementSettings) : py SettlementSettings :=
  raise_if (ss_capacity s <=? 0) ValueError;;
  raise_if (ss_batch_max s <=? 0) ValueError;;
  raise_if (ss_flush_interval s <=? 0) ValueError;;
  raise_if (ss_retry_pause s <? 0) ValueError;;
  Ok s.

Record PendingSettlement := mkPending {
  ps_lease_id : uuid; ps_reservation_id : uuid; ps_amount : Z; ps_now : Z }.
#[global] Instance PendingSettlement_eq_dec : EqDecision PendingSettlement.
Proof. solve_decision. Defined.

Record queue := mkQueue {
  q_pending : list PendingSettlement;
  q_closed : bool;
  q_applied : Z;
  q_declined : Z;
  q_dropped : Z;
  q_failed_attempts : Z }.

Definition empty_queue : queue := mkQueue [] false 0 0 0 0.

Definition drop_one (q : queue) : queue :=
  mkQueue (q_pending q) (q_closed q) (q_applied q) (q_declined q) (q_dropped q + 1)
    (q_failed_attempts q).

(** [enqueue]; [now] is what the caller passed, [clock] the queue's own. *)
Definition enqueue (s : SettlementSettings) (q : queue) (o : CommitOutcome)
    (now clock : option Z) : py unit * queue :=
  if q_closed q then (Ok tt, drop_one q)
  else if ss_capacity s <=? Z.of_nat (length (q_pending q)) then (Ok tt, drop_one q)
  else
    match (match now with Some t => Some t | None => clock end) with
    | None => (Raise ValueError, q)
    | Some t =>
        (Ok tt,
         mkQueue (q_pending q ++ [mkPending (co_lease_id o) (co_reservation_id o) (co_amount o) t])
           (q_closed q) (q_applied q) (q_declined q) (q_dropped q) (q_failed_attempts q))
    end.

(** [_next_batch]: the run at the head sharing one lease, up to [batch_max]. *)
Fixpoint take_run (lease_id : uuid) (n : nat) (l : list PendingSettlement) : list PendingSettlement :=
  match l, n with
  | i :: l, S n => if bool_decide (ps_lease_id i = lease_id) then i :: take_run lease_id n l else []
  | _, _ => []
  end.

Definition _next_batch (s : SettlementSettings) (q : queue) : list PendingSettlement :=
  match q_pending q with
  | [] => []
  | i :: _ => take_run (ps_lease_id i) (Z.to_nat (ss_batch_max s)) (q_pending q)
  end.

Definition count_true (l : list bool) : Z := Z.of_nat (length (filter (λ b, b = true) l)).
Definition count_false (l : list bool) : Z := Z.of_nat (length (filter (λ b, b = false) l)).

(** [_flush_locked] after the sink answered: pop one item per verdict, or count
    the failure and keep everything. *)
Definition flush_answer (q : queue) (answer : py (list bool)) : queue :=
  match answer with
  | Raise _ =>
      mkQueue (q_pending q) (q_closed q) (q_applied q) (q_declined q) (q_dropped q)
        (q_failed_attempts q + 1)
  | Ok verdicts =>
      mkQueue (drop (length verdicts) (q_pending q)) (q_closed q)
        (q_applied q + count_true verdicts) (q_declined q + count_false verdicts)
        (q_dropped q) (q_failed_attempts q)
  end.

(** The sink: a stateful service that answers a batch. *)
Section flush.
Context {W : Type} (sink : W → list PendingSettlement → py (list bool) * W).

(** [flush], with nothing running in between. *)
Definition flush (s : SettlementSettings) (q : queue) (w : W) : queue * W :=
  match _next_batch s q with
  | [] => (q, w)
  | batch => let '(answer, w) := sink w batch in (flush_answer q answer, w)
  end.

(** [drain]: flush until empty or no progress; the queue's length is enough fuel. *)
Fixpoint drain_fuel (n : nat) (s : SettlementSettings) (q : queue) (w : W) : queue * W :=
  match n with
  | O => (q, w)
  | S n =>
      match q_pending q with
      | [] => (q, w)
      | _ =>
          let before := length (q_pending q) in
          let '(q, w) := flush s q w in
          if Nat.leb before (length (q_pending q)) then (q, w) else drain_fuel n s q w
      end
  end.
Definition drain (s : SettlementSettings) (q : queue) (w : W) : queue * W :=
  drain_fuel (length (q_pending q)) s q w.

(** [aclose]: refuse new settlements, then drain. *)
Definition aclose (s : SettlementSettings) (q : queue) (w : W) : queue * W :=
  if q_closed q then (q, w) else
  drain s (mkQueue (q_pending q) true (q_applied q) (q_declined q) (q_dropped q)
             (q_failed_attempts q)) w.
End flush.

(** ** The ledger's sink (settlement_sink.py) *)
Definition to_item (p : PendingSettlement) : settlement :=
  (ps_reservation_id p, dec_of_units (ps_amount p), ps_now p).

Record sink_state := mkSink { sk_db : db; sk_rejected_leases : Z }.

Definition ledger_sink (w : sink_state) (batch : list PendingSettlement)
    : py (list bool) * sink_state :=
  match batch with
  | [] => (Ok [], w)
  | p :: _ =>
      match ledger_commit_batch (sk_db w) (ps_lease_id p) (to_item <$> batch) with
      | (Raise LeaseNotActiveError, d) =>
          (Ok (replicate (length batch) false), mkSink d (sk_rejected_leases w + 1))
      | (r, d) => (r, mkSink d (sk_rejected_leases w))
      end
  end.

(** ** Lemmas *)
Lemma take_run_prefix k n l : take_run k n l `prefix_of` l.
Proof.
  revert n. induction l as [|i l IH]; intros [|n]; simpl; try apply prefix_nil.
  case_bool_decide; [by apply prefix_cons|apply prefix_nil].
Qed.

Lemma take_run_length k n l : (length (take_run k n l) <= n)%nat.
Proof.
  revert n. induction l as [|i l IH]; intros [|n]; simpl; try lia.
  case_bool_decide; simpl; [specialize (IH n)|]; lia.
Qed.

Lemma take_run_lease k n l i : i ∈ take_run k n l → ps_lease_id i = k.
Proof.
  revert n. induction l as [|j l IH]; intros [|n]; simpl; try set_solver.
  case_bool_decide; [|set_solver]. intros [->|]%elem_of_cons; eauto.
Qed.

Lemma next_batch_prefix s q : _next_batch s q `prefix_of` q_pending q.
Proof. unfold _next_batch. destruct (q_pending q); [done|]. apply take_run_prefix. Qed.

Lemma next_batch_nonempty s q :
  0 < ss_batch_max s → q_pending q ≠ [] → _next_batch s q ≠ [].
Proof.
  intros Hs Hq. unfold _next_batch. destruct (q_pending q) as [|i l]; [done|].
  destruct (Z.to_nat (ss_batch_max s)) as [|n] eqn:?; [lia|]. simpl. by rewrite bool_decide_true.
Qed.

Lemma count_true_false l : count_true l + count_false l = Z.of_nat (length l).
Proof.
  unfold count_true, count_false. induction l as [|[] l IH]; [done|..];
    rewrite !filter_cons; simpl; lia.
Qed.

(** A sink that answers every item it is given. *)
Definition answers_all {W} (sink : W → list PendingSettlement → py (list bool) * W) : Prop :=
  ∀ w b vs w', sink w b = (Ok vs, w') → length vs = length b.

Lemma drop_prefix {A} (a l : list A) : a `prefix_of` l → l = a ++ drop (length a) l.
Proof. intros [k ->]. by rewrite drop_app_length. Qed.

(** Draining a queue by a sink that always answers empties it. *)
Lemma drain_fuel_empties {W} (sink : W → list PendingSettlement → py (list bool) * W) n :
  ∀ s q w, 0 < ss_batch_max s → answers_all sink →
  (∀ w b, is_ok (sink w b).1 = true) →
  (length (q_pending q) <= n)%nat →
  q_pending (drain_fuel sink n s q w).1 = [].
Proof.
  induction n as [|n IH]; intros s q w Hs Hall Hok Hlen; simpl.
  { by destruct (q_pending q); simpl in *; [|lia]. }
  destruct (q_pending q) as [|i l] eqn:Hq; [done|]. rewrite <- Hq.
  unfold flush. destruct (_next_batch s q) as [|b bs] eqn:Hb.
  { by apply next_batch_nonempty in Hb; rewrite ?Hq. }
  destruct (sink w (b :: bs)) as [[vs|e] w'] eqn:Hsink.
  2: { specialize (Hok w (b :: bs)). by rewrite Hsink in Hok. }
  apply Hall in Hsink. simpl in Hsink.
  assert (length (q_pending (flush_answer q (Ok vs))) < length (q_pending q))%nat as Hlt.
  { simpl. rewrite length_drop, Hq. simpl. lia. }
  destruct (Nat.leb_spec (length (q_pending q)) (length (q_pending (flush_answer q (Ok vs)))));
    [lia|].
  apply IH; [done|done|done|]. rewrite Hq in Hlt. simpl in Hlt, Hlen |- *. lia.
Qed.

(** Settling a batch again, after it was applied, applies nothing. *)
Lemma apply_items_replay lid items : ∀ al l d rs l' d',
  apply_items_units lid al l d items = Ok (rs, l', d') →
  outstanding l' <= outstanding l ∧
  ∀ al' L D, al ⊆ al' → outstanding L <= outstanding l' →
    (∀ n i, items !! n = Some i → rs !! n = Some true → i.1.1 ∈ al') →
    apply_items_units lid al' L D items = Ok (replicate (length items) false, L, D).
Proof.
  induction items as [|[[rid amount] now] items IH]; intros al l d rs l' d' Hap.
  { simpl in Hap. injection Hap as <- <- <-. done. }
  cbn [apply_items_units] in Hap. cbv zeta in Hap.
  assert (∀ b rs1 l1 d1 al1 l2 d2, rs = b :: rs1 → l' = l1 → d' = d1 →
    apply_items_units lid al1 l2 d2 items = Ok (rs1, l1, d1) →
    outstanding l2 <= outstanding l → al ⊆ al1 → al1 ⊆ {[rid]} ∪ al →
    (b = false → rid ∈ al1 → rid ∈ al ∨ Z.min amount (outstanding l) <= 0) →
    (b = false → rid ∈ al1) →
    outstanding l' <= outstanding l ∧
    ∀ al' L D, al ⊆ al' → outstanding L <= outstanding l' →
      (∀ n i, ((rid, amount, now) :: items) !! n = Some i → rs !! n = Some true → i.1.1 ∈ al') →
      apply_items_units lid al' L D ((rid, amount, now) :: items)
        = Ok (replicate (S (length items)) false, L, D)) as Hstep.
  { intros b rs1 l1 d1 al1 l2 d2 -> -> -> Hi Hle Hsub1 Hsub2 Hfalse Hin.
    apply IH in Hi as [Hmono Hi]. split; [lia|]. intros al' L D Hsub HL Htrue.
    assert (∀ n i, items !! n = Some i → rs1 !! n = Some true → i.1.1 ∈ al') as Htrue'
      by (intros n; apply (Htrue (S n))).
    cbn [apply_items_units]. cbv zeta.
    destruct (decide (rid ∈ al')) as [Hal'|Hal'];
      [rewrite bool_decide_true by done|rewrite bool_decide_false by done].
    { rewrite (Hi al' L D); [done|set_solver|done|done]. }
    destruct b; [by specialize (Htrue 0%nat _ eq_refl eq_refl)|].
    destruct (Hfalse eq_refl (Hin eq_refl)) as [?|Hmin]; [set_solver|].
    rewrite (proj2 (Z.leb_le (Z.min amount (outstanding L)) 0)) by lia.
    rewrite (Hi ({[rid]} ∪ al') L D); [done|set_solver|done|].
    intros n i H1 H2. apply elem_of_union_r. eauto. }
  case_bool_decide as Hal.
  { apply bind_Ok_inv in Hap as ([[rs1 l1] d1] & Hap & [= <- <- <-]).
    eapply Hstep; [done..|exact Hap|lia|done|set_solver|by left|done]. }
  destruct (Z.leb_spec (Z.min amount (outstanding l)) 0).
  { apply bind_Ok_inv in Hap as ([[rs1 l1] d1] & Hap & [= <- <- <-]).
    eapply Hstep; [done..|exact Hap|lia|set_solver|done|by right|set_solver]. }
  unfold get_one, insert_new in Hap. destruct (budgets d !! _) as [b|]; [|done].
  cbn [mbind res_bind] in Hap. destruct (reservations d !! rid) eqn:Hr; [done|].
  cbn [mbind res_bind] in Hap. apply bind_Ok_inv in Hap as ([[rs1 l1] d1] & Hap & [= <- <- <-]).
  eapply Hstep; [done..|exact Hap| |set_solver|done|done|done].
  unfold outstanding in *. simpl. lia.
Qed.

(** ** Properties *)

(** Retrying a settlement batch is free.  If the ledger applied a batch but the
    answer was lost, so that the queue keeps the batch and sends it again, the second
    attempt answers [False] for every item and leaves the ledger exactly as it was. *)
Theorem settlement_retry_free (d d' : db) (lid : uuid) (l : LeaseRow) (items : list item)
    (rs : list bool) :
  books d → leases d !! lid = Some l → l_state l = ACTIVE →
  ledger_commit_batch d lid (item_at <$> items) = (Ok rs, d') →
  ledger_commit_batch d' lid (item_at <$> items) = (Ok (replicate (length items) false), d').
Proof.
  intros Hd Hl Hst Hc. pose proof (commit_books d lid items Hd) as Hd'.
  rewrite commit_batch_at in Hc by done. rewrite Hc in Hd'. rewrite commit_batch_at by exact Hd'.
  destruct (decide (items = [])) as [->|Hne]; [by injection Hc as <- <-|].
  destruct (commit_body_active d lid l items Hd Hl Hst)
    as (rs' & l' & d1 & x & Heq & Hlen & Hbk & Hm & Hap).
  unfold ledger_commit_batch_units in Hc. rewrite bool_decide_false in Hc by done.
  rewrite (transaction_commits _ _ _ _ Heq Hbk) in Hc. injection Hc as <- <-.
  pose proof (apply_items_settled _ _ _ _ _ _ _ _ Hap) as [Hsub Htrue].
  pose proof (apply_items_replay _ _ _ _ _ _ _ _ Hap) as [_ Hrep].
  destruct Hm as (-> & _).
  set (d2 := put_lease d1 lid (add_settled l x)) in *.
  assert (leases d2 !! lid = Some (add_settled l x)) as Hl2 by apply lookup_insert_eq.
  unfold ledger_commit_batch_units. rewrite bool_decide_false by done.
  rewrite (transaction_commits d2 (commit_body_units d2 lid items)
             (inl (replicate (length items) false)) d2); [done| |done].
  unfold commit_body_units, get_one. rewrite Hl2. cbn [mbind res_bind].
  rewrite bool_decide_true by done. cbn [negb].
  rewrite (Hrep (settled_ids_units d2 items) (add_settled l x) d2); [| |done|].
  - cbn [mbind res_bind]. by rewrite put_lease_id.
  - intros k Hk. unfold settled_ids_units in *. apply elem_of_list_to_set, list_elem_of_filter in Hk.
    apply elem_of_list_to_set, list_elem_of_filter. destruct Hk as [[r Hr] Hin].
    split; [|done]. exists r. by eapply lookup_weaken.
  - intros n i Hn Hr. apply settled_ids_spec; [by eapply list_elem_of_lookup_2|].
    by eapply Htrue.
Qed.

Lemma settlement_retry_free_witness :
  let items : list item := [(30%N, 70000, 1); (31%N, 70000, 2)] in
  let d' := (ledger_commit_batch demo_db 4%N (item_at <$> items)).2 in
  ledger_commit_batch d' 4%N (item_at <$> items) = (Ok [false; false], d').
Proof.
  intros items d'.
  apply (settlement_retry_free demo_db d' 4%N
    (mkLeaseRow 1%N (u "pep-2") 100000 0 0 60000000 ACTIVE) items [true; true] demo_books);
    vm_compute; reflexivity.
Defined.

(** A run of the queue: settlements offered with a clock reading, and flushes the
    sink answers item by item ([Some f]) or fails ([None]). *)
Inductive queue_event :=
| EvEnqueue (o : CommitOutcome) (t : Z)
| EvFlush (answer : option (nat → bool)).

Record queue_run := mkRun {
  qr_queue : queue;
  qr_offered : Z;
  qr_accepted : list PendingSettlement;
  qr_delivered : list (PendingSettlement * bool) }.

Definition queue_step (s : SettlementSettings) (g : queue_run) (e : queue_event) : queue_run :=
  let q := qr_queue g in
  match e with
  | EvEnqueue o t =>
      let '(_, q') := enqueue s q o (Some t) None in
      mkRun q' (qr_offered g + 1)
        (if Nat.ltb (length (q_pending q)) (length (q_pending q'))
         then qr_accepted g ++ [mkPending (co_lease_id o) (co_reservation_id o) (co_amount o) t]
         else qr_accepted g)
        (qr_delivered g)
  | EvFlush answer =>
      let batch := _next_batch s q in
      match batch, answer with
      | [], _ => g
      | _, None => mkRun (flush_answer q (Raise Unreachable)) (qr_offered g) (qr_accepted g)
                     (qr_delivered g)
      | _, Some f =>
          let vs := imap (λ n _, f n) batch in
          mkRun (flush_answer q (Ok vs)) (qr_offered g) (qr_accepted g)
            (qr_delivered g ++ zip batch vs)
      end
  end.

Definition start_run : queue_run := mkRun empty_queue 0 [] [].

Definition run_ok (s : SettlementSettings) (g : queue_run) : Prop :=
  qr_accepted g = (qr_delivered g).*1 ++ q_pending (qr_queue g)
  ∧ q_applied (qr_queue g) = count_true (qr_delivered g).*2
  ∧ q_declined (qr_queue g) = count_false (qr_delivered g).*2
  ∧ qr_offered g = Z.of_nat (length (qr_accepted g)) + q_dropped (qr_queue g)
  ∧ Z.of_nat (length (q_pending (qr_queue g))) <= Z.max 0 (ss_capacity s).

Lemma count_app l k :
  count_true (l ++ k) = count_true l + count_true k
  ∧ count_false (l ++ k) = count_false l + count_false k.
Proof. unfold count_true, count_false. rewrite !filter_app, !length_app. lia. Qed.

Lemma queue_step_ok s g e : run_ok s g → run_ok s (queue_step s g e).
Proof.
  intros (Hacc & Hap & Hde & Hoff & Hcap). destruct e as [o t|answer]; simpl.
  - unfold enqueue. destruct (q_closed (qr_queue g)) eqn:Hc; simpl.
    { rewrite Nat.ltb_irrefl. unfold run_ok. simpl. split_and!; done || lia. }
    destruct (Z.leb_spec (ss_capacity s) (Z.of_nat (length (q_pending (qr_queue g))))); simpl.
    { rewrite Nat.ltb_irrefl. unfold run_ok. simpl. split_and!; done || lia. }
    rewrite length_app. simpl. rewrite (proj2 (Nat.ltb_lt _ _)) by lia.
    unfold run_ok. simpl. rewrite !length_app. simpl.
    split_and!; [by rewrite Hacc, app_assoc|done|done|lia|lia].
  - pose proof (next_batch_prefix s (qr_queue g)) as Hpre.
    destruct (_next_batch s (qr_queue g)) as [|b bs]; [done|].
    destruct answer as [f|]; [|done].
    set (batch := b :: bs) in *. set (vs := imap (λ n _, f n) batch).
    assert (length vs = length batch) as Hlen by apply length_imap.
    pose proof (drop_prefix _ _ Hpre) as Hsplit.
    change (run_ok s (mkRun (flush_answer (qr_queue g) (Ok vs)) (qr_offered g) (qr_accepted g)
                        (qr_delivered g ++ zip batch vs))).
    assert ((zip batch vs).*1 = batch) as H1 by (apply fst_zip; lia).
    assert ((zip batch vs).*2 = vs) as H2 by (apply snd_zip; lia).
    unfold run_ok. cbn [qr_accepted qr_delivered qr_queue qr_offered flush_answer q_pending
      q_applied q_declined q_dropped]. rewrite !fmap_app, H1, H2.
    destruct (count_app (qr_delivered g).*2 vs) as [-> ->]. rewrite Hlen.
    split_and!; [|lia|lia|done|rewrite length_drop; lia].
    rewrite Hacc, Hsplit at 1. by rewrite app_assoc.
Qed.

(** No settlement is lost silently and none is reordered.  In any run of the
    queue, the settlements accepted are, in order, those the sink has answered
    followed by those still pending; [applied] and [declined] count the answers; every
    settlement offered was accepted or counted in [dropped]; and the queue never
    holds more than its capacity. *)
Theorem settlement_queue_fifo (s : SettlementSettings) (es : list queue_event) :
  let g := foldl (queue_step s) start_run es in
  let q := qr_queue g in
  qr_accepted g = (qr_delivered g).*1 ++ q_pending q
  ∧ q_applied q = count_true (qr_delivered g).*2
  ∧ q_declined q = count_false (qr_delivered g).*2
  ∧ qr_offered g = Z.of_nat (length (qr_accepted g)) + q_dropped q
  ∧ Z.of_nat (length (q_pending q)) <= Z.max 0 (ss_capacity s).
Proof.
  assert (run_ok s start_run) as H0 by (unfold run_ok; simpl; split_and!; done || lia).
  revert H0. generalize start_run. induction es as [|e es IH]; intros g Hg; [exact Hg|].
  simpl. by apply IH, queue_step_ok.
Qed.

(** A drain terminates with nothing pending when the sink keeps answering:
    the queue's own length is enough rounds, and each batch handed to the sink is a
    run at the head of the queue, for one lease, of at most [batch_max] items. *)
Theorem drain_empties {W} (sink : W → list PendingSettlement → py (list bool) * W)
    (s : SettlementSettings) (q : queue) (w : W) :
  0 < ss_batch_max s → answers_all sink → (∀ w b, is_ok (sink w b).1 = true) →
  q_pending (drain sink s q w).1 = []
  ∧ (∀ q', _next_batch s q' `prefix_of` q_pending q'
           ∧ Z.of_nat (length (_next_batch s q')) <= ss_batch_max s
           ∧ ∀ i j, i ∈ _next_batch s q' → j ∈ _next_batch s q' →
               ps_lease_id i = ps_lease_id j).
Proof.
  intros Hs Hall Hok. split; [by apply drain_fuel_empties|]. intros q'.
  split; [apply next_batch_prefix|]. unfold _next_batch.
  destruct (q_pending q') as [|p l]; simpl.
  - split; [lia|set_solver].
  - pose proof (take_run_length (ps_lease_id p) (Z.to_nat (ss_batch_max s)) (p :: l)). simpl in *.
    split; [lia|]. intros i j Hi%take_run_lease Hj%take_run_lease. congruence.
Qed.

Definition counting_sink (w : Z) (b : list PendingSettlement) : py (list bool) * Z :=
  (Ok (replicate (length b) true), w + Z.of_nat (length b)).

Lemma drain_empties_witness :
  q_pending (drain counting_sink (mkSettlementSettings 8 250 2 500)
    (mkQueue [mkPending 1%N 2%N 5 0; mkPending 1%N 3%N 6 0; mkPending 2%N 4%N 7 0]
       false 0 0 0 0) 0).1 = [].
Proof.
  apply (drain_empties counting_sink).
  - simpl. lia.
  - intros w b vs w' [= <- <-]. apply length_replicate.
  - reflexivity.
Defined.
