(* ===== verification/Emitter.v ===== *)
(** * The decision emitter (agentiam_pep/emitter.py)

    A bounded buffer of decision records, a back-pressure policy for when it
    fills, and a writer that hands batches to a sink.  A write is two steps, with
    the sink's answer in between: [claim] takes a batch off the queue into
    [_pending], [answer_batch] acts on what [sink.write] did.  The write lock makes
    the pair exclusive, so between them only [emit] runs. *)
From S2P Require Import Prelude PyText Errors PyNum Models.

Inductive BackPressure := BP_DENY | BP_DROP.

Record EmitterSettings := mkEmitterSettings {
  es_capacity : Z; es_back_pressure : BackPressure; es_batch_max : Z; es_flush_interval : Z }.

Definition check_emitter_settings (s : EmitterSettings) : py EmitterSettings :=
  raise_if (es_capacity s <=? 0) ValueError;;
  raise_if (es_batch_max s <=? 0) ValueError;;
  raise_if (es_flush_interval s <=? 0) ValueError;;
  Ok s.

(** What [await sink.write(batch)] did. *)
Inductive write_result := Written | Rejected | Failed.

Section emitter.
Context {R : Type}.

Record emitter := mkEmitter {
  em_queue : list R;
  em_pending : option (list R);
  em_closed : bool;
  em_attempts : Z;
  em_dropped : Z;
  em_failed_batches : Z;
  em_lost_records : Z }.

Definition new_emitter : emitter := mkEmitter [] None false 0 0 0 0.

(** [emit]: enqueue, or refuse, or count a drop. *)
Definition emit (s : EmitterSettings) (e : emitter) (r : R) : py unit * emitter :=
  if em_closed e then (Raise AuditBufferFullError, e)
  else if Z.of_nat (length (em_queue e)) <? es_capacity s then
    (Ok tt, mkEmitter (em_queue e ++ [r]) (em_pending e) (em_closed e) (em_attempts e)
              (em_dropped e) (em_failed_batches e) (em_lost_records e))
  else
    match es_back_pressure s with
    | BP_DROP =>
        (Ok tt, mkEmitter (em_queue e) (em_pending e) (em_closed e) (em_attempts e)
                  (em_dropped e + 1) (em_failed_batches e) (em_lost_records e))
    | BP_DENY => (Raise AuditBufferFullError, e)
    end.

(** [_write_batch_locked] up to the await: take up to [batch_max] records unless a
    batch is already pending. *)
Definition claim (s : EmitterSettings) (e : emitter) : emitter :=
  match em_pending e with
  | Some _ => e
  | None =>
      let n := Z.to_nat (es_batch_max s) in
      match take n (em_queue e) with
      | [] => e
      | batch => mkEmitter (drop n (em_queue e)) (Some batch) (em_closed e) 0
                   (em_dropped e) (em_failed_batches e) (em_lost_records e)
      end
  end.

Definition _finish_pending (e : emitter) : emitter :=
  mkEmitter (em_queue e) None (em_closed e) 0 (em_dropped e) (em_failed_batches e)
    (em_lost_records e).

(** [_write_batch_locked] after the await. *)
Definition answer_batch (e : emitter) (w : write_result) : emitter :=
  match em_pending e with
  | None => e
  | Some batch =>
      match w with
      | Written => _finish_pending e
      | Rejected =>
          _finish_pending
            (mkEmitter (em_queue e) (em_pending e) (em_closed e) (em_attempts e) (em_dropped e)
               (em_failed_batches e + 1) (em_lost_records e + Z.of_nat (length batch)))
      | Failed =>
          mkEmitter (em_queue e) (em_pending e) (em_closed e) (em_attempts e + 1) (em_dropped e)
            (em_failed_batches e + 1) (em_lost_records e)
      end
  end.

(** A sink with its own state, and [_write_batch] with nothing in between. *)
Context {W : Type} (sink : W → list R → write_result * W).

Definition _write_batch (s : EmitterSettings) (e : emitter) (w : W) : emitter * W :=
  let e := claim s e in
  match em_pending e with
  | None => (e, w)
  | Some batch => let '(r, w) := sink w batch in (answer_batch e r, w)
  end.

(** [flush]; a batch pending before and after is the same object. *)
Fixpoint flush_emitter (fuel : nat) (s : EmitterSettings) (e : emitter) (w : W) : emitter * W :=
  match fuel with
  | O => (e, w)
  | S fuel =>
      match em_queue e, em_pending e with
      | [], None => (e, w)
      | _, _ =>
          let '(e', w') := _write_batch s e w in
          let no_progress :=
            match em_pending e' with
            | None => false
            | Some _ => bool_decide (is_Some (em_pending e))
                        || Nat.eqb (length (em_queue e')) (length (em_queue e))
            end in
          if no_progress then (e', w') else flush_emitter fuel s e' w'
      end
  end.

(** [aclose]: stop accepting, then flush. *)
Definition close_emitter (s : EmitterSettings) (e : emitter) (w : W) : emitter * W :=
  if em_closed e then (e, w) else
  let e := mkEmitter (em_queue e) (em_pending e) true (em_attempts e) (em_dropped e)
             (em_failed_batches e) (em_lost_records e) in
  flush_emitter (2 * length (em_queue e) + 2) s e w.
End emitter.
Arguments emitter R : clear implicits.

(** ** A run of the emitter *)
Section runs.
Context {R : Type}.

(** Emissions, and the two halves of a write, in any order. *)
Inductive emitter_event :=
| EvEmit (r : R)
| EvClaim
| EvAnswer (w : write_result).

Record emitter_run := mkEmitterRun {
  er_emitter : emitter R;
  er_accepted : list R;         (* [emit] returned and did not drop *)
  er_settled : list (R * bool)  (* written, or rejected for good *)
}.

Definition emitter_step (s : EmitterSettings) (g : emitter_run) (ev : emitter_event) : emitter_run :=
  let e := er_emitter g in
  match ev with
  | EvEmit r =>
      let '(o, e') := emit s e r in
      mkEmitterRun e'
        (if is_ok o && (em_dropped e' =? em_dropped e) then er_accepted g ++ [r]
         else er_accepted g)
        (er_settled g)
  | EvClaim => mkEmitterRun (claim s e) (er_accepted g) (er_settled g)
  | EvAnswer w =>
      let e' := answer_batch e w in
      mkEmitterRun e' (er_accepted g)
        match em_pending e, w with
        | Some b, Written => er_settled g ++ ((λ r : R, (r, true)) <$> b)
        | Some b, Rejected => er_settled g ++ ((λ r : R, (r, false)) <$> b)
        | _, _ => er_settled g
        end
  end.

Definition start_emitter_run : emitter_run := mkEmitterRun new_emitter [] [].

Definition lost_count (l : list (R * bool)) : Z :=
  Z.of_nat (length (filter (λ p : R * bool, p.2 = false) l)).

Definition emitter_run_ok (s : EmitterSettings) (g : emitter_run) : Prop :=
  let e := er_emitter g in
  er_accepted g = (er_settled g).*1 ++ default [] (em_pending e) ++ em_queue e
  ∧ em_lost_records e = lost_count (er_settled g)
  ∧ Z.of_nat (length (em_queue e)) <= Z.max 0 (es_capacity s)
  ∧ (es_back_pressure s = BP_DENY → em_dropped e = 0).

Lemma lost_count_app l k : lost_count (l ++ k) = lost_count l + lost_count k.
Proof. unfold lost_count. rewrite filter_app, length_app. lia. Qed.

Lemma lost_count_const (b : bool) (l : list R) :
  lost_count ((λ r : R, (r, b)) <$> l) = if b then 0 else Z.of_nat (length l).
Proof.
  unfold lost_count. induction l as [|r l IH]; [by destruct b|].
  rewrite fmap_cons, filter_cons. destruct b; simpl; [done|].
  simpl in IH. lia.
Qed.

Lemma fst_const (b : bool) (l : list R) : ((λ r : R, (r, b)) <$> l).*1 = l.
Proof. rewrite <- list_fmap_compose. by rewrite list_fmap_id. Qed.

Lemma emitter_step_ok s g ev : emitter_run_ok s g → emitter_run_ok s (emitter_step s g ev).
Proof.
  intros Hg. pose proof Hg as (Hacc & Hlost & Hcap & Hdeny). destruct ev as [r| |w]; simpl.
  - unfold emit. destruct (em_closed (er_emitter g)); [exact Hg|].
    destruct (Z.ltb_spec (Z.of_nat (length (em_queue (er_emitter g)))) (es_capacity s)).
    + simpl. rewrite Z.eqb_refl. unfold emitter_run_ok. simpl. rewrite length_app. simpl.
      split_and!; [by rewrite Hacc, !app_assoc|done|lia|done].
    + destruct (es_back_pressure s) eqn:Hbp.
      { exact Hg. }
      simpl.
      rewrite (proj2 (Z.eqb_neq _ _)) by lia. unfold emitter_run_ok. simpl.
      split_and!; [done..|]. intros. congruence.
  - unfold claim. destruct (em_pending (er_emitter g)) as [b|] eqn:Hp; [exact Hg|].
    set (n := Z.to_nat (es_batch_max s)).
    destruct (take n (em_queue (er_emitter g))) as [|b bs] eqn:Ht; [exact Hg|].
    unfold emitter_run_ok. simpl in *. rewrite length_drop.
    split_and!; [|done|lia|done].
    rewrite Hacc. f_equal. by rewrite <- (take_drop n (em_queue (er_emitter g))), Ht at 1.
  - unfold emitter_run_ok, answer_batch. clear Hg.
    destruct (em_pending (er_emitter g)) as [b|] eqn:Hp; simpl in Hacc; [|simpl; rewrite ?Hp; split_and!; done].
    destruct w; simpl; rewrite ?Hp, ?fmap_app, ?lost_count_app, ?lost_count_const, ?fst_const;
      split_and!; try (done || lia); by rewrite <- app_assoc.
Qed.
End runs.

(** ** Properties *)

(** No decision record disappears silently.  In any interleaving of emissions
    and batch writes, the records accepted are, in order, those the sink settled, then
    the pending batch, then the queue; the only records settled without being written
    are the ones counted in [lost_records], each rejected by the sink for good; a
    failed write keeps its batch; and under the [DENY] policy nothing is ever
    dropped. *)
Theorem emitter_no_silent_loss {R} (s : EmitterSettings) (es : list (@emitter_event R)) :
  let g := foldl (emitter_step s) start_emitter_run es in
  let e := er_emitter g in
  er_accepted g = (er_settled g).*1 ++ default [] (em_pending e) ++ em_queue e
  ∧ em_lost_records e = lost_count (er_settled g)
  ∧ Z.of_nat (length (em_queue e)) <= Z.max 0 (es_capacity s)
  ∧ (es_back_pressure s = BP_DENY → em_dropped e = 0).
Proof.
  assert (@emitter_run_ok R s start_emitter_run) as H0
    by (unfold emitter_run_ok, lost_count; simpl; split_and!; done || lia).
  revert H0. generalize (@start_emitter_run R). induction es as [|ev es IH]; intros g Hg;
    [exact Hg|]. simpl. by apply IH, emitter_step_ok.
Qed.

(** A full audit buffer fails closed: with back-pressure [DENY], or once the
    emitter is closed, [emit] raises [AuditBufferFullError], whose reason code is
    [CONTROL_PLANE_UNAVAILABLE_FAIL_CLOSED], and the emitter is unchanged; otherwise
    the record is appended. *)
Theorem emit_fails_closed {R} (s : EmitterSettings) (e : emitter R) (r : R) :
  es_back_pressure s = BP_DENY →
  emit s e r =
    if em_closed e || (es_capacity s <=? Z.of_nat (length (em_queue e)))
    then (Raise AuditBufferFullError, e)
    else (Ok tt, mkEmitter (em_queue e ++ [r]) (em_pending e) (em_closed e) (em_attempts e)
                   (em_dropped e) (em_failed_batches e) (em_lost_records e)).
Proof.
  intros Hbp. unfold emit. rewrite Hbp. destruct (em_closed e); [done|]. simpl.
  destruct (Z.ltb_spec (Z.of_nat (length (em_queue e))) (es_capacity s)) as [H|H].
  - by rewrite (proj2 (Z.leb_gt _ _) H).
  - by rewrite (proj2 (Z.leb_le _ _) H).
Qed.

Lemma emit_fails_closed_witness :
  emit (mkEmitterSettings 1 BP_DENY 64 500) (mkEmitter [7] None false 0 0 0 0) 8
  = (Raise AuditBufferFullError, mkEmitter [7] None false 0 0 0 0).
Proof.
  rewrite (emit_fails_closed (mkEmitterSettings 1 BP_DENY 64 500)
             (mkEmitter [7] None false 0 0 0 0) 8); reflexivity.
Defined.
