(* ===== verification/AuditChain.v ===== *)
(** * The audit chain (agentiam_controlplane/db/audit.py, audit_sink.py)

    The table of audit records and its head row, appending a batch in one
    transaction, verification by one ordered walk, a task's chain of custody, and
    the sink the decision emitter drains into.  A record type and its
    [model_dump(mode="json")], which is pydantic's, are the interface
    [AuditRecord]. *)
From S2P Require Import Prelude PyText Errors PyNum PyUuid PySha Models Emitter Hashing.

(** ** Rows (db/models.py) *)
Record AuditRecordRow := mkAuditRow {
  seq : Z;
  row_decision_id : uuid;
  record : value;
  prev_hash : option pystr;
  record_hash : pystr;
  created_at : Z }.

Record AuditChainHeadRow := mkHead { last_seq : Z; last_hash : option pystr }.

(** The primary key is [seq]. *)
Record chain_db := mkChain {
  audit_records : gmap Z AuditRecordRow;
  audit_chain_head : option AuditChainHeadRow }.

Class AuditRecord (R : Type) := {
  record_decision_id : R → uuid;
  model_dump : R → value }.

(** [.order_by(AuditRecordRow.seq)]. *)
Definition seq_le (a b : AuditRecordRow) : Prop := seq a <= seq b.
#[global] Instance seq_le_dec : RelDecision seq_le.
Proof. intros a b. unfold seq_le. apply _. Defined.
Definition rows_by_seq (db : chain_db) : list AuditRecordRow :=
  merge_sort seq_le (map_to_list (audit_records db)).*2.

(** [_head]: the row, or the one it creates. *)
Definition _head (db : chain_db) : AuditChainHeadRow :=
  default (mkHead 0 None) (audit_chain_head db).

(** JSONB holds no NUL character. *)
Definition no_nul (s : pystr) : bool := forallb (λ c, negb (c =? 0)) s.
Fixpoint jsonb_ok (v : value) : bool :=
  match v with
  | VStr s => no_nul s
  | VSeq vs => forallb jsonb_ok vs
  | VMap kvs => forallb (λ kv, no_nul kv.1 && jsonb_ok kv.2) kvs
  | _ => true
  end.

(** The constraints of [audit_records] on one row; [seq] is a BIGINT. *)
Definition row_constraints (db : chain_db) (row : AuditRecordRow) : bool :=
  bool_decide (audit_records db !! seq row = None)
  && forallb (λ kv, negb (bool_decide (row_decision_id kv.2 = row_decision_id row)))
       (map_to_list (audit_records db))
  && (0 <? seq row) && (seq row <? 2 ^ 63)
  && match prev_hash row with Some _ => 1 <? seq row | None => seq row =? 1 end
  && jsonb_ok (record row).

(** One INSERT.  A [DataError] (a NUL character, a BIGINT overflow) is refused
    like a violated constraint: both are permanent. *)
Definition insert_row (db : chain_db) (row : AuditRecordRow) : py chain_db :=
  if row_constraints db row
  then Ok (mkChain (<[seq row := row]> (audit_records db)) (audit_chain_head db))
  else Raise IntegrityError.

Fixpoint insert_rows (db : chain_db) (rows : list AuditRecordRow) : py chain_db :=
  match rows with
  | [] => Ok db
  | row :: rows => db ← insert_row db row; insert_rows db rows
  end.

Section audit.
Context {UN : Unicode} {ST : SortTies}.
Context {R : Type} {AR : AuditRecord R}.

(** ** [append] *)

(** The loop: each record not already in the chain becomes its next link. *)
Fixpoint link_batch (existing : gset uuid) (head : AuditChainHeadRow) (stamped : Z)
    (records : list R) : py (list AuditRecordRow * AuditChainHeadRow) :=
  match records with
  | [] => Ok ([], head)
  | r :: records =>
      if decide (record_decision_id r ∈ existing) then link_batch existing head stamped records
      else
        let body := model_dump r in
        h ← chain_hash (last_hash head) body;
        let n := last_seq head + 1 in
        rest ← link_batch existing (mkHead n (Some h)) stamped records;
        Ok (mkAuditRow n (record_decision_id r) body (last_hash head) h stamped :: rest.1, rest.2)
  end.

(** The decision ids of the batch that are in the table. *)
Definition existing_ids (db : chain_db) (records : list R) : gset uuid :=
  list_to_set (filter (λ i, i ∈ record_decision_id <$> records)
    (row_decision_id <$> (map_to_list (audit_records db)).*2)).

Definition append (db : chain_db) (records : list R) (stamped : Z)
    : py (list pystr) * chain_db :=
  match records with
  | [] => (Ok [], db)
  | _ =>
      match
        linked ← link_batch (existing_ids db records) (_head db) stamped records;
        db' ← insert_rows db linked.1;
        Ok (record_hash <$> linked.1, mkChain (audit_records db') (Some linked.2))
      with
      | Ok (hashes, db') => (Ok hashes, db')
      | Raise e => (Raise e, db)
      end
  end.

(** ** [verify_chain] *)
Inductive break :=
| SequenceJump (previous : Z) | PrevHashMismatch | RecordAltered | Truncated (head highest : Z).

Record ChainVerification := mkVerification {
  cv_ok : bool;
  checked : Z;
  first_bad_seq : option Z;
  detail : option break }.

Definition broken (checked first_bad : Z) (why : break) : ChainVerification :=
  mkVerification false checked (Some first_bad) (Some why).

(** The walk: [inl] the first inconsistency, [inr] the last row's [seq]. *)
Fixpoint walk (rows : list AuditRecordRow) (previous_hash : option pystr) (previous_seq : Z)
    : py (ChainVerification + Z) :=
  match rows with
  | [] => Ok (inr previous_seq)
  | row :: rows =>
      if negb (seq row =? previous_seq + 1)
      then Ok (inl (broken previous_seq (seq row) (SequenceJump previous_seq)))
      else if negb (bool_decide (prev_hash row = previous_hash))
      then Ok (inl (broken previous_seq (seq row) PrevHashMismatch))
      else
        recomputed ← chain_hash previous_hash (record row);
        if negb (bool_decide (recomputed = record_hash row))
        then Ok (inl (broken previous_seq (seq row) RecordAltered))
        else walk rows (Some (record_hash row)) (seq row)
  end.

(** [SELECT max(seq)], or 0. *)
Definition highest_seq (db : chain_db) : Z :=
  foldr Z.max 0 (seq <$> (map_to_list (audit_records db)).*2).

(** What the three [SELECT]s find: each is a statement of its own, sees what is committed
    when it starts, and takes no lock that an [append] would wait for. *)
Record chain_reads := mkReads { rd_rows : chain_db; rd_head : chain_db; rd_max : chain_db }.

(** Nothing is committed between them. *)
Definition still (db : chain_db) : chain_reads := mkReads db db db.
Coercion still : chain_db >-> chain_reads.

Definition verify_chain (reads : chain_reads) : py ChainVerification :=
  walked ← walk (rows_by_seq (rd_rows reads)) None 0;
  match walked with
  | inl v => Ok v
  | inr previous_seq =>
      let head := _head (rd_head reads) in
      let highest := highest_seq (rd_max reads) in
      Ok (if negb (last_seq head =? highest)
          then broken previous_seq (highest + 1) (Truncated (last_seq head) highest)
          else mkVerification true previous_seq None None)
  end.

(** ** [LedgerAuditSink] *)

(** What the network does to one transaction: it runs and is acknowledged, the
    database is not reached, or it commits and the acknowledgement is lost. *)
Inductive link_state := Up | Down | AckLost.

Record LedgerAuditSink := mkAuditSink { sink_db : chain_db; rejected_batches : Z }.

(** [_PERMANENT]; [DataError] and [ProgrammingError] appear as [IntegrityError]. *)
Definition _PERMANENT (e : exn) : bool :=
  match e with IntegrityError => true | _ => false end.

Definition sink_write (net : link_state) (stamped : Z) (s : LedgerAuditSink) (batch : list R)
    : write_result * LedgerAuditSink :=
  match net with
  | Down => (Failed, s)
  | _ =>
      let '(o, db) := append (sink_db s) batch stamped in
      match o with
      | Ok _ => (match net with AckLost => Failed | _ => Written end,
                 mkAuditSink db (rejected_batches s))
      | Raise e => if _PERMANENT e then (Rejected, mkAuditSink db (rejected_batches s + 1))
                   else (Failed, mkAuditSink db (rejected_batches s))
      end
  end.
End audit.

(** ** [custody] *)
Definition record_field (k : string) (v : value) : option value :=
  match v with
  | VMap kvs => match list_find (λ kv, kv.1 = u k) kvs with
                | Some (_, kv) => Some kv.2 | None => None end
  | _ => None
  end.

(** [record["task_id"].astext == str(task_id)]: only a JSON string has the text of a
    UUID. *)
Definition of_task (task_id : uuid) (row : AuditRecordRow) : bool :=
  match record_field "task_id" (record row) with
  | Some (VStr s) => bool_decide (s = uuid_text task_id)
  | _ => false
  end.

(** An entry is a row's [seq] and record; the fields it projects are the record's. *)
Record CustodyEntry := mkCustodyEntry { ce_seq : Z; ce_record : value }.

Definition custody (db : chain_db) (task_id : uuid) : list CustodyEntry :=
  (λ row, mkCustodyEntry (seq row) (record row)) <$>
    filter (λ row, of_task task_id row = true) (rows_by_seq db).
