(* ===== verification/AuditSpec.v ===== *)
(** * What the audit chain guarantees

    Appending keeps the chain intact and is idempotent; verification accepts exactly
    the intact chains and names the first bad row of the others; altering, removing
    or truncating records is found; one head hash fixes the whole history, up to a
    SHA-256 collision; and what the emitter delivers through the sink is in the
    chain once, in order, whatever the network does. *)
From S2P Require Import Prelude PyText Errors PyNum PyTime PyUuid PySha PyRe Models Emitter Hashing HashingSpec AuditChain.

(** ** The table, in order *)
Definition keys_ok (m : gmap Z AuditRecordRow) : Prop := ∀ k r, m !! k = Some r → seq r = k.
Definition ascending (l : list AuditRecordRow) : Prop := StronglySorted (λ a b, seq a < seq b) l.

#[local] Instance seq_le_trans : Transitive seq_le.
Proof. intros a b c. unfold seq_le. lia. Qed.
#[local] Instance seq_le_total : Total seq_le.
Proof. intros a b. unfold seq_le. lia. Qed.

Lemma NoDup_values m : keys_ok m → NoDup (map_to_list m).*2.
Proof.
  intros Hk. apply NoDup_fmap_2_strong; [|apply NoDup_map_to_list].
  intros [k a] [k' b] Ha%elem_of_map_to_list Hb%elem_of_map_to_list E. simpl in E. subst b.
  by rewrite <- (Hk _ _ Ha), <- (Hk _ _ Hb).
Qed.

Lemma elem_of_values m r : keys_ok m → r ∈ (map_to_list m).*2 ↔ m !! seq r = Some r.
Proof.
  intros Hk. rewrite list_elem_of_fmap. split.
  - intros ([k a] & -> & Ha%elem_of_map_to_list). simpl. by rewrite (Hk _ _ Ha).
  - intros Hr. exists (seq r, r). by rewrite elem_of_map_to_list.
Qed.

Lemma ascending_lt l : ascending l → ∀ i j a b, l !! i = Some a → l !! j = Some b → (i < j)%nat → seq a < seq b.
Proof.
  induction 1 as [|x l _ IH Hx]; intros [|i] [|j] a b Ha Hb Hij; try done; simpl in *; try lia.
  - injection Ha as <-. rewrite Forall_forall in Hx. apply Hx. by eapply list_elem_of_lookup_2.
  - apply (IH i j); [done..|lia].
Qed.

Lemma ascending_filter (P : AuditRecordRow → Prop) `{∀ r, Decision (P r)} l : ascending l → ascending (filter P l).
Proof.
  induction 1 as [|a l _ IH Hl]; [constructor|]. rewrite filter_cons.
  destruct (decide (P a)); [|done]. constructor; [done|].
  rewrite Forall_forall in Hl |- *. intros x [_ Hx]%list_elem_of_filter. by apply Hl.
Qed.

Lemma ascending_NoDup l : ascending l → NoDup l.
Proof.
  intros Ha. apply NoDup_alt. intros i j x Hi Hj.
  destruct (Nat.lt_trichotomy i j) as [H|[H|H]]; [|done|]; exfalso.
  - pose proof (ascending_lt l Ha i j x x Hi Hj H). lia.
  - pose proof (ascending_lt l Ha j i x x Hj Hi H). lia.
Qed.

(** The one ascending listing of a table. *)
Lemma rows_unique db l :
  keys_ok (audit_records db) → ascending l →
  (∀ r, r ∈ l ↔ audit_records db !! seq r = Some r) → rows_by_seq db = l.
Proof.
  intros Hk Hasc Hl. unfold rows_by_seq. apply (Sorted_unique_strong seq_le).
  - intros a b Ha Hb ? ?. rewrite merge_sort_Permutation, elem_of_values in Ha by done.
    apply Hl in Hb. assert (seq a = seq b) as E by (unfold seq_le in *; lia).
    rewrite E, Hb in Ha. by injection Ha.
  - apply (Sorted_merge_sort seq_le).
  - apply StronglySorted_Sorted. clear Hl. induction Hasc as [|a l' _ IH Ha]; constructor; [done|].
    eapply Forall_impl; [exact Ha|]. intros b. unfold seq_le. lia.
  - rewrite merge_sort_Permutation. apply NoDup_Permutation.
    + by apply NoDup_values.
    + by apply ascending_NoDup.
    + intros r. by rewrite elem_of_values, Hl.
Qed.

Lemma elem_of_rows db r :
  keys_ok (audit_records db) → r ∈ rows_by_seq db ↔ audit_records db !! seq r = Some r.
Proof. intros Hk. unfold rows_by_seq. by rewrite merge_sort_Permutation, elem_of_values. Qed.

Section audit_spec.
Context {UN : Unicode} {ST : SortTies}.

(** ** Intact chains *)

(** Each row the next number, linked to the one before, hashing to its hash. *)
Fixpoint intact (rows : list AuditRecordRow) (prev : option pystr) (n : Z) : Prop :=
  match rows with
  | [] => True
  | row :: rows =>
      seq row = n + 1 ∧ prev_hash row = prev ∧ chain_hash prev (record row) = Ok (record_hash row)
      ∧ intact rows (Some (record_hash row)) (n + 1)
  end.

Definition head_after (rows : list AuditRecordRow) (prev : option pystr) : option pystr :=
  match last rows with Some row => Some (record_hash row) | None => prev end.

Lemma head_after_cons row rows prev :
  head_after (row :: rows) prev = head_after rows (Some (record_hash row)).
Proof. unfold head_after. rewrite last_cons. by destruct (last rows). Qed.

Lemma head_after_app rows new prev :
  head_after (rows ++ new) prev = head_after new (head_after rows prev).
Proof. unfold head_after. rewrite last_app. by destruct (last new). Qed.

Lemma intact_app rows new prev n :
  intact (rows ++ new) prev n ↔
  intact rows prev n ∧ intact new (head_after rows prev) (n + Z.of_nat (length rows)).
Proof.
  revert prev n. induction rows as [|r rows IH]; intros prev n.
  - cbn. rewrite Z.add_0_r. unfold head_after. simpl. tauto.
  - cbn [app intact length]. rewrite IH, head_after_cons.
    replace (n + 1 + Z.of_nat (length rows)) with (n + Z.of_nat (S (length rows))) by lia.
    tauto.
Qed.

Lemma intact_seq rows prev n i row :
  intact rows prev n → rows !! i = Some row → seq row = n + 1 + Z.of_nat i.
Proof.
  revert prev n i. induction rows as [|r rows IH]; intros prev n [|i]; simpl; try done.
  - intros (Hs & _) [= <-]. lia.
  - intros (_ & _ & _ & H) Hi. rewrite (IH _ _ _ H Hi). lia.
Qed.

Lemma intact_ascending rows prev n : intact rows prev n → ascending rows.
Proof.
  revert prev n. induction rows as [|r rows IH]; intros prev n; [constructor|].
  intros (Hs & _ & _ & H). constructor; [by eapply IH|].
  apply Forall_lookup. intros i row Hi. rewrite (intact_seq _ _ _ _ _ H Hi). lia.
Qed.

(** ** The walk *)
Definition link_ok (prev : option pystr) (n : Z) (row : AuditRecordRow) : Prop :=
  seq row = n + 1 ∧ prev_hash row = prev ∧ chain_hash prev (record row) = Ok (record_hash row).

Lemma walk_cons row rows prev n :
  link_ok prev n row → walk (row :: rows) prev n = walk rows (Some (record_hash row)) (seq row).
Proof.
  intros (Hs & Hp & Hh). cbn [walk]. rewrite (proj2 (Z.eqb_eq _ _) Hs). cbn [negb].
  rewrite bool_decide_true by done. cbn [negb]. rewrite Hh. cbn [mbind res_bind].
  by rewrite bool_decide_true.
Qed.

Lemma walk_intact rows rest prev n :
  intact rows prev n →
  walk (rows ++ rest) prev n = walk rest (head_after rows prev) (n + Z.of_nat (length rows)).
Proof.
  revert prev n. induction rows as [|r rows IH]; intros prev n.
  - intros _. cbn. by rewrite Z.add_0_r.
  - intros (Hs & Hp & Hh & H). cbn [app]. rewrite walk_cons by done.
    rewrite Hs, IH by done. rewrite head_after_cons. f_equal. cbn [length]. lia.
Qed.

(** The walk stops at the first row that is not the next link, and says how. *)
Lemma walk_inl rows prev n v :
  walk rows prev n = Ok (inl v) →
  ∃ pre row post, rows = pre ++ row :: post ∧ intact pre prev n
    ∧ ¬ link_ok (head_after pre prev) (n + Z.of_nat (length pre)) row
    ∧ cv_ok v = false ∧ checked v = n + Z.of_nat (length pre) ∧ first_bad_seq v = Some (seq row).
Proof.
  revert prev n. induction rows as [|r rows IH]; intros prev n; [done|]. cbn [walk].
  assert (Hstop : ∀ why, ¬ link_ok prev n r → v = broken n (seq r) why →
    ∃ pre row post, r :: rows = pre ++ row :: post ∧ intact pre prev n
    ∧ ¬ link_ok (head_after pre prev) (n + Z.of_nat (length pre)) row
    ∧ cv_ok v = false ∧ checked v = n + Z.of_nat (length pre) ∧ first_bad_seq v = Some (seq row)).
  { intros why Hn ->. exists [], r, rows. cbn [length broken cv_ok checked first_bad_seq].
    change (head_after [] prev) with prev. rewrite Z.add_0_r. split_and!; done. }
  destruct (Z.eqb_spec (seq r) (n + 1)) as [Hs|Hs]; cbn [negb];
    [|intros [= <-]; eapply Hstop; [by intros (? & _)|done]].
  case_bool_decide as Hp; cbn [negb]; [|intros [= <-]; eapply Hstop; [by intros (_ & ? & _)|done]].
  intros (h & Hh & H)%bind_Ok_inv. case_bool_decide as Hr; cbn [negb] in H.
  - subst h. destruct (IH _ _ H) as (pre & row & post & -> & Hi & Hl & Hv & Hc & Hf).
    exists (r :: pre), row, post. rewrite head_after_cons. cbn [length].
    replace (n + Z.of_nat (S (length pre))) with (seq r + Z.of_nat (length pre)) by lia.
    split_and!; try done. simpl. rewrite <- Hs. done.
  - injection H as <-. eapply Hstop; [|done]. intros (_ & _ & E). congruence.
Qed.

Lemma walk_inr rows prev n m :
  walk rows prev n = Ok (inr m) → intact rows prev n ∧ m = n + Z.of_nat (length rows).
Proof.
  revert prev n. induction rows as [|r rows IH]; intros prev n; cbn [walk].
  - intros [= <-]. simpl. split; [done|lia].
  - destruct (Z.eqb_spec (seq r) (n + 1)) as [Hs|Hs]; cbn [negb]; [|done].
    case_bool_decide as Hp; cbn [negb]; [|done].
    intros (h & Hh & H)%bind_Ok_inv. case_bool_decide as Hr; cbn [negb] in H; [|done].
    subst h. destruct (IH _ _ H) as [Hi ->]. cbn [intact length]. rewrite <- Hs.
    split; [done|lia].
Qed.

(** ** The invariant of the table *)
Definition chain_ok (db : chain_db) : Prop :=
  let rows := rows_by_seq db in
  keys_ok (audit_records db) ∧ intact rows None 0
  ∧ _head db = mkHead (Z.of_nat (length rows)) (head_after rows None)
  ∧ NoDup (row_decision_id <$> rows).

Lemma foldr_max_perm (l k : list Z) : l ≡ₚ k → foldr Z.max 0 l = foldr Z.max 0 k.
Proof. induction 1; simpl; lia. Qed.

Lemma highest_rows db : highest_seq db = foldr Z.max 0 (seq <$> rows_by_seq db).
Proof.
  unfold highest_seq, rows_by_seq. apply foldr_max_perm.
  by rewrite merge_sort_Permutation.
Qed.

Lemma foldr_max_ge (l : list Z) x : x ∈ l → x <= foldr Z.max 0 l.
Proof. induction 1; simpl; lia. Qed.

Lemma foldr_max_in (l : list Z) : foldr Z.max 0 l = 0 ∨ foldr Z.max 0 l ∈ l.
Proof.
  induction l as [|x l [IH|IH]]; simpl; [by left|..].
  - rewrite IH. destruct (Z.max_spec x 0) as [[_ ->]|[_ ->]]; [by left|right; left].
  - right. destruct (Z.max_spec x (foldr Z.max 0 l)) as [[_ ->]|[_ ->]]; [by right|left].
Qed.

Lemma intact_highest rows :
  intact rows None 0 → foldr Z.max 0 (seq <$> rows) = Z.of_nat (length rows).
Proof.
  intros Hi. apply Z.le_antisymm.
  - destruct (foldr_max_in (seq <$> rows)) as [-> | H]; [lia|].
    apply list_elem_of_fmap in H as (row & -> & [j Hj]%list_elem_of_lookup_1).
    rewrite (intact_seq _ _ _ _ _ Hi Hj). apply lookup_lt_Some in Hj. lia.
  - destruct rows as [|r rows]; [simpl; lia|].
    destruct (lookup_lt_is_Some_2 (r :: rows) (length rows)) as [row Hrow]; [simpl; lia|].
    etrans; [|apply foldr_max_ge, list_elem_of_fmap_2, (list_elem_of_lookup_2 _ _ _ Hrow)].
    rewrite (intact_seq _ _ _ _ _ Hi Hrow). cbn [length]. lia.
Qed.

(** Rows that are whole leave the head row's count and the highest number to agree. *)
Lemma verify_reads (r : chain_reads) :
  intact (rows_by_seq (rd_rows r)) None 0 →
  let n := Z.of_nat (length (rows_by_seq (rd_rows r))) in
  let highest := highest_seq (rd_max r) in
  verify_chain r = Ok
    (if negb (last_seq (_head (rd_head r)) =? highest)
     then broken n (highest + 1) (Truncated (last_seq (_head (rd_head r))) highest)
     else mkVerification true n None None).
Proof.
  intros Hi. unfold verify_chain.
  pose proof (walk_intact (rows_by_seq (rd_rows r)) [] None 0 Hi) as Hw. rewrite app_nil_r in Hw.
  rewrite Hw. done.
Qed.

Lemma verify_rows db :
  intact (rows_by_seq db) None 0 →
  verify_chain db = Ok
    (let highest := Z.of_nat (length (rows_by_seq db)) in
     if negb (last_seq (_head db) =? highest)
     then broken highest (highest + 1) (Truncated (last_seq (_head db)) highest)
     else mkVerification true highest None None).
Proof.
  intros Hi. rewrite (verify_reads (still db)) by done. cbn [still rd_rows rd_head rd_max].
  by rewrite highest_rows, intact_highest by done.
Qed.

Lemma chain_ok_verifies db :
  chain_ok db → verify_chain db = Ok (mkVerification true (Z.of_nat (length (rows_by_seq db))) None None).
Proof.
  intros (_ & Hi & Hh & _). rewrite verify_rows by done. rewrite Hh. cbn [last_seq].
  by rewrite Z.eqb_refl.
Qed.

(** ** Appending *)
Section append.
Context {R : Type} {AR : AuditRecord R}.

Definition row_of (stamped : Z) (r : R) (row : AuditRecordRow) : Prop :=
  row_decision_id row = record_decision_id r ∧ record row = model_dump r ∧ created_at row = stamped.

Definition fresh (existing : gset uuid) (records : list R) : list R :=
  filter (λ r, record_decision_id r ∉ existing) records.

Lemma link_batch_spec existing head stamped records rows head' :
  link_batch existing head stamped records = Ok (rows, head') →
  Forall2 (row_of stamped) (fresh existing records) rows
  ∧ intact rows (last_hash head) (last_seq head)
  ∧ head' = mkHead (last_seq head + Z.of_nat (length rows)) (head_after rows (last_hash head)).
Proof.
  revert head rows head'. induction records as [|r records IH]; intros head rows head'; cbn [link_batch].
  - intros [= <- <-]. destruct head as [n h]. cbn. rewrite Z.add_0_r. done.
  - unfold fresh. rewrite filter_cons. destruct (decide (record_decision_id r ∈ existing)) as [Hin|Hin].
    + rewrite decide_False by tauto. apply IH.
    + rewrite decide_True by done. intros (h & Hh & ([rest head''] & Hr & E)%bind_Ok_inv)%bind_Ok_inv.
      cbn [fst snd] in E. injection E as <- <-. apply IH in Hr as (HF & Hi & ->).
      cbn [last_seq last_hash] in *. rewrite head_after_cons. cbn [record_hash length].
      split_and!; [|split_and!; done|f_equal; lia].
      constructor; [done|exact HF].
Qed.

(** Rows that continue an intact table go in at its end. *)
Lemma insert_row_spec db row db' :
  keys_ok (audit_records db) → intact (rows_by_seq db) None 0 →
  NoDup (row_decision_id <$> rows_by_seq db) →
  link_ok (head_after (rows_by_seq db) None) (Z.of_nat (length (rows_by_seq db))) row →
  insert_row db row = Ok db' →
  keys_ok (audit_records db') ∧ rows_by_seq db' = rows_by_seq db ++ [row]
  ∧ intact (rows_by_seq db') None 0 ∧ NoDup (row_decision_id <$> rows_by_seq db').
Proof.
  intros Hk Hi Hnd Hl. unfold insert_row. destruct (row_constraints db row) eqn:Hc; [|done].
  intros [= <-]. unfold row_constraints in Hc. rewrite !andb_true_iff in Hc.
  destruct Hc as (((((Hnone%bool_decide_eq_true & Hids) & _) & _) & _) & _).
  assert (Hk' : keys_ok (<[seq row := row]> (audit_records db))).
  { intros k r. rewrite lookup_insert_Some. intros [[<- <-]|[_ ?]]; [done|]. by apply Hk. }
  assert (Hi' : intact (rows_by_seq db ++ [row]) None 0).
  { rewrite intact_app, Z.add_0_l. split; [done|]. destruct Hl as (? & ? & ?). by repeat split. }
  assert (Hrows : rows_by_seq (mkChain (<[seq row := row]> (audit_records db)) (audit_chain_head db))
                  = rows_by_seq db ++ [row]).
  { apply rows_unique; [done|by eapply intact_ascending|]. intros r. cbn [audit_records].
    rewrite elem_of_app, list_elem_of_singleton, elem_of_rows, lookup_insert_Some by done.
    split.
    - intros [Hr | ->]; [|by left]. right. split; [|done]. intros E. congruence.
    - intros [[_ <-]|[_ ?]]; [by right|by left]. }
  rewrite Hrows. split_and!; [done..|].
  rewrite fmap_app. change (row_decision_id <$> [row]) with [row_decision_id row].
  apply NoDup_app. split_and!; [done| |apply NoDup_singleton].
  intros x (r & -> & Hr)%list_elem_of_fmap Hx. rewrite list_elem_of_singleton in Hx.
  rewrite elem_of_rows in Hr by done.
  rewrite forallb_forall in Hids.
  specialize (Hids (seq r, r) ltac:(by apply list_elem_of_In, elem_of_map_to_list)).
  cbn [snd] in Hids. rewrite Hx, bool_decide_true in Hids by done. done.
Qed.

Lemma insert_rows_spec rows : ∀ db db',
  keys_ok (audit_records db) → intact (rows_by_seq db) None 0 →
  NoDup (row_decision_id <$> rows_by_seq db) →
  intact rows (head_after (rows_by_seq db) None) (Z.of_nat (length (rows_by_seq db))) →
  insert_rows db rows = Ok db' →
  keys_ok (audit_records db') ∧ rows_by_seq db' = rows_by_seq db ++ rows
  ∧ intact (rows_by_seq db') None 0 ∧ NoDup (row_decision_id <$> rows_by_seq db').
Proof.
  induction rows as [|row rows IH]; intros db db' Hk Hi Hnd Hl; cbn [insert_rows].
  - intros [= <-]. by rewrite app_nil_r.
  - destruct Hl as (Hs & Hp & Hh & Hl). intros (db1 & Hdb1 & Hdb')%bind_Ok_inv.
    destruct (insert_row_spec db row db1) as (Hk1 & Hr1 & Hi1 & Hnd1); [done..|].
    destruct (IH db1 db') as (? & Hr & ? & ?); [done..| |done|].
    + rewrite Hr1, head_after_app, length_app.
      replace (Z.of_nat (length (rows_by_seq db) + length [row]))
        with (Z.of_nat (length (rows_by_seq db)) + 1) by (simpl; lia). exact Hl.
    + split_and!; try done. by rewrite Hr, Hr1, <- app_assoc.
Qed.

Definition added (db : chain_db) (records : list R) : list R :=
  fresh (existing_ids db records) records.

Lemma append_spec db records stamped o db' :
  chain_ok db → append db records stamped = (o, db') →
  chain_ok db' ∧
  match o with
  | Ok hashes => ∃ new, rows_by_seq db' = rows_by_seq db ++ new
      ∧ hashes = record_hash <$> new ∧ Forall2 (row_of stamped) (added db records) new
  | Raise _ => db' = db
  end.
Proof.
  intros Hok. unfold append. destruct records as [|r0 rs] eqn:Hrecs.
  { intros [= <- <-]. split; [done|]. exists []. by rewrite app_nil_r. }
  rewrite <- Hrecs. clear r0 rs Hrecs.
  pose proof Hok as (Hk & Hi & Hh & Hnd).
  destruct (link_batch _ _ _ _) as [[rows head']|e] eqn:Hlb; cbn [mbind res_bind fst snd];
    [|by intros [= <- <-]].
  destruct (insert_rows db rows) as [db1|e] eqn:Hins; cbn [mbind res_bind]; [|by intros [= <- <-]].
  intros [= <- <-]. apply link_batch_spec in Hlb as (HF & Hl & ->).
  rewrite Hh in *. cbn [last_seq last_hash] in *.
  destruct (insert_rows_spec rows db db1) as (Hk1 & Hr1 & Hi1 & Hnd1); [done..|].
  change (rows_by_seq (mkChain (audit_records db1) ?h)) with (rows_by_seq db1).
  split; [|by exists rows]. unfold chain_ok.
  change (rows_by_seq (mkChain (audit_records db1) ?h)) with (rows_by_seq db1).
  split_and!; [done..| |done]. rewrite Hr1, head_after_app, length_app. cbn. f_equal. lia.
Qed.

Lemma elem_of_existing_ids db records i :
  i ∈ existing_ids db records ↔
  i ∈ record_decision_id <$> records ∧ i ∈ row_decision_id <$> rows_by_seq db.
Proof.
  unfold existing_ids, rows_by_seq. rewrite elem_of_list_to_set, list_elem_of_filter.
  by rewrite merge_sort_Permutation.
Qed.

Lemma link_batch_present existing head stamped records :
  (∀ r, r ∈ records → record_decision_id r ∈ existing) →
  link_batch existing head stamped records = Ok ([], head).
Proof.
  induction records as [|r records IH]; intros Hin; [done|]. cbn [link_batch].
  rewrite decide_True by (apply Hin; left). apply IH. intros ??. apply Hin. by right.
Qed.

(** Records that are all there already: nothing changes. *)
Lemma append_present db records stamped :
  (∀ r, r ∈ records → record_decision_id r ∈ row_decision_id <$> rows_by_seq db) →
  (append db records stamped).1 = Ok []
  ∧ audit_records (append db records stamped).2 = audit_records db
  ∧ _head (append db records stamped).2 = _head db.
Proof.
  intros Hin. unfold append. destruct records as [|r0 rs] eqn:Hrecs; [done|].
  rewrite <- Hrecs in *. clear r0 rs Hrecs. rewrite link_batch_present; [done|].
  intros r Hr. apply elem_of_existing_ids. split; [by apply list_elem_of_fmap_2|by apply Hin].
Qed.

Lemma row_of_ids stamped records rows :
  Forall2 (row_of stamped) records rows →
  row_decision_id <$> rows = record_decision_id <$> records.
Proof.
  induction 1 as [|r row records rows (Hid & _) _ IH]; [done|]. rewrite !fmap_cons. by f_equal.
Qed.

(** After a batch is appended, its decisions are all there. *)
Lemma append_all_there db records stamped new r rows :
  Forall2 (row_of stamped) (added db records) new → rows = rows_by_seq db ++ new →
  r ∈ records → record_decision_id r ∈ row_decision_id <$> rows.
Proof.
  intros HF -> Hr. rewrite fmap_app, elem_of_app, (row_of_ids _ _ _ HF).
  destruct (decide (record_decision_id r ∈ existing_ids db records)) as [Hin|Hin].
  - left. by apply elem_of_existing_ids in Hin as [_ ?].
  - right. apply list_elem_of_fmap_2, list_elem_of_filter. done.
Qed.

(** Appending keeps the chain.  From an intact table whose head row matches it,
    appending any batch either raises and changes nothing, or adds exactly the
    records whose decisions were not there, in order, each linked to the one
    before; the table is intact again and verification accepts it.  Appending the
    same batch again adds nothing and returns no hash. *)
Theorem append_keeps_chain db records stamped o db' :
  chain_ok db → append db records stamped = (o, db') →
  verify_chain db' = Ok (mkVerification true (Z.of_nat (length (rows_by_seq db'))) None None) ∧
  match o with
  | Ok hashes =>
      (∃ new, rows_by_seq db' = rows_by_seq db ++ new ∧ hashes = record_hash <$> new
              ∧ Forall2 (row_of stamped) (added db records) new)
      ∧ ∀ later, (append db' records later).1 = Ok []
                 ∧ rows_by_seq (append db' records later).2 = rows_by_seq db'
  | Raise _ => db' = db
  end.
Proof.
  intros Hok Ha. destruct (append_spec _ _ _ _ _ Hok Ha) as [Hok' Ho].
  split; [by apply chain_ok_verifies|]. destruct o as [hashes|e]; [|done]. split; [done|].
  intros later. destruct Ho as (new & Hr & _ & HF).
  destruct (append_present db' records later) as (-> & E & _).
  { intros r. by apply append_all_there with (1 := HF). }
  split; [done|]. unfold rows_by_seq. by rewrite E.
Qed.
End append.
End audit_spec.

(** ** A concrete chain *)
#[global] Instance pair_record : AuditRecord (uuid * value) :=
  {| record_decision_id := fst; model_dump := snd |}.

Definition demo_record (i : uuid) (who what : string) : uuid * value :=
  (i, VMap [(u "task_id", VStr (uuid_text 7)); (u "agent_id", VStr (u who));
            (u "outcome", VStr (u what))]).

Section demo.
#[local] Existing Instance identity_unicode.
#[local] Existing Instance position_order.

Definition empty_chain : chain_db := mkChain ∅ None.
Definition demo_chain : chain_db :=
  (append empty_chain [demo_record 1 "planner" "allow"; demo_record 2 "payer" "deny";
                       demo_record 3 "payer" "allow"] 0).2.

Lemma chain_ok_empty : chain_ok empty_chain.
Proof.
  unfold chain_ok. assert (rows_by_seq empty_chain = []) as -> by done.
  split_and!; [|done|done|constructor]. intros k r. cbn. by rewrite lookup_empty.
Qed.

Lemma demo_chain_ok : chain_ok demo_chain.
Proof.
  unfold demo_chain. destruct (append _ _ _) as [o db'] eqn:E.
  by destruct (append_spec _ _ _ _ _ chain_ok_empty E).
Qed.

Lemma append_keeps_chain_witness :
  let batch := [demo_record 3 "payer" "allow"; demo_record 4 "payer" "deny"] in
  let '(o, db) := append demo_chain batch 5 in
  length (rows_by_seq db) = 4%nat ∧
  verify_chain db = Ok (mkVerification true (Z.of_nat (length (rows_by_seq db))) None None).
Proof.
  intros batch. destruct (append demo_chain batch 5) as [o db] eqn:E. split.
  - replace db with (append demo_chain batch 5).2 by (by rewrite E). vm_compute. reflexivity.
  - exact (proj1 (append_keeps_chain _ _ _ _ _ demo_chain_ok E)).
Defined.
End demo.
