(* ===== verification/Tamper.v ===== *)
(** * Tampering with the audit table

    What an edit of the stored rows does to [verify_chain]: an altered record and
    a removed record are found and located; two histories that verify and end in
    one hash are the same history, unless two of their links collide under SHA-256.  A rewrite of the
    newest record together with its stored hash is not found. *)
From S2P Require Import Prelude PyText Errors PyNum PyTime PyUuid PySha PyRe Models Emitter Hashing HashingSpec AuditChain AuditSpec.

Section tamper.
Context {UN : Unicode} {ST : SortTies}.

(** Verification is exact, and says where.  It answers ok exactly when every row
    is the next link and the head row counts them all; otherwise the rows before
    the one it names are intact, and that row is not the next link, or it names
    the first number missing at the end. *)
Theorem verify_exact (db : chain_db) v :
  verify_chain db = Ok v →
  let rows := rows_by_seq db in
  (cv_ok v = true ↔ intact rows None 0 ∧ last_seq (_head db) = Z.of_nat (length rows))
  ∧ (cv_ok v = false →
      (∃ pre row post, rows = pre ++ row :: post ∧ intact pre None 0
         ∧ ¬ link_ok (head_after pre None) (Z.of_nat (length pre)) row
         ∧ checked v = Z.of_nat (length pre) ∧ first_bad_seq v = Some (seq row))
      ∨ (intact rows None 0 ∧ last_seq (_head db) ≠ Z.of_nat (length rows)
         ∧ first_bad_seq v = Some (Z.of_nat (length rows) + 1))).
Proof.
  intros Hv. pose proof Hv as Hv'. unfold verify_chain in Hv'. cbn [still rd_rows rd_head rd_max] in Hv'.
  apply bind_Ok_inv in Hv' as ([w|m] & Hw & E).
  - injection E as <-. destruct (walk_inl _ _ _ _ Hw) as (pre & row & post & Hr & Hp & Hl & Ho & Hc & Hf).
    cbn zeta. rewrite Ho. split.
    + split; [done|]. rewrite Hr. intros [(_ & Hs & Hpr & Hh & _)%intact_app _].
      destruct Hl. by rewrite Z.add_0_l in *.
    + intros _. left. exists pre, row, post. by rewrite Z.add_0_l in *.
  - apply walk_inr in Hw as [Hi _]. rewrite verify_rows in Hv by done. injection Hv as <-.
    cbn zeta. destruct (Z.eqb_spec (last_seq (_head db)) (Z.of_nat (length (rows_by_seq db))))
      as [Heq|Hne]; cbn [negb cv_ok broken first_bad_seq checked].
    + split; [|done]. split; [done|done].
    + split; [split; [done|by intros [_ ?]]|]. intros _. by right.
Qed.

(** Of any three reads, whatever was committed between them. *)
Lemma verify_reads_exact r v :
  verify_chain r = Ok v →
  (cv_ok v = true ↔ intact (rows_by_seq (rd_rows r)) None 0
                    ∧ last_seq (_head (rd_head r)) = highest_seq (rd_max r))
  ∧ (cv_ok v = true → checked v = Z.of_nat (length (rows_by_seq (rd_rows r)))).
Proof.
  intros Hv. pose proof Hv as Hv'. unfold verify_chain in Hv'.
  apply bind_Ok_inv in Hv' as ([w|m] & Hw & E).
  - injection E as <-. destruct (walk_inl _ _ _ _ Hw) as (pre & row & post & Hr & Hp & Hl & Ho & Hc & Hf).
    rewrite Ho. split; [|done]. split; [done|]. rewrite Hr. intros [(_ & Hs & Hpr & Hh & _)%intact_app _].
    destruct Hl. by rewrite Z.add_0_l in *.
  - apply walk_inr in Hw as [Hi _]. rewrite verify_reads in Hv by done. injection Hv as <-.
    destruct (Z.eqb_spec (last_seq (_head (rd_head r))) (highest_seq (rd_max r))); [done|].
    split; [|done]. split; [done|]. by intros [_ ?].
Qed.

(** A chain that only grows is not always called whole.  With the rows, the head row and
    the highest number read from three states of one intact chain, verification vouches for
    the rows it read exactly when nothing was appended between the last two reads; otherwise
    it reports the chain as truncated. *)
Theorem verify_among_appends db1 db2 db3 :
  chain_ok db1 → chain_ok db2 → chain_ok db3 →
  let count db := Z.of_nat (length (rows_by_seq db)) in
  verify_chain (mkReads db1 db2 db3) =
    Ok (if count db2 =? count db3 then mkVerification true (count db1) None None
        else broken (count db1) (count db3 + 1) (Truncated (count db2) (count db3))).
Proof.
  intros (_ & Hi1 & _) (_ & _ & Hh2 & _) (_ & Hi3 & _) count.
  rewrite verify_reads by done. cbn [rd_rows rd_head rd_max].
  rewrite highest_rows, intact_highest, Hh2 by done. cbn [last_seq]. fold (count db1) (count db2) (count db3).
  by destruct (count db2 =? count db3).
Qed.

(** ** Altering a record *)
Definition with_record (r : value) (row : AuditRecordRow) : AuditRecordRow :=
  mkAuditRow (seq row) (row_decision_id row) r (prev_hash row) (record_hash row) (created_at row).
Definition with_hash (h : pystr) (row : AuditRecordRow) : AuditRecordRow :=
  mkAuditRow (seq row) (row_decision_id row) (record row) (prev_hash row) h (created_at row).

(** An [UPDATE] of one row. *)
Definition update_row (f : AuditRecordRow → AuditRecordRow) (k : Z) (db : chain_db) : chain_db :=
  mkChain (alter f k (audit_records db)) (audit_chain_head db).
Definition alter_record (k : Z) (r : value) (db : chain_db) : chain_db :=
  update_row (with_record r) k db.
(** The record and its stored hash, rewritten together. *)
Definition rewrite_record (k : Z) (r : value) (h : pystr) (db : chain_db) : chain_db :=
  update_row (λ row, with_hash h (with_record r row)) k db.

Lemma ascending_seqs l k : ascending l → seq <$> l = seq <$> k → ascending k.
Proof.
  intros Ha. revert k. induction Ha as [|a l _ IH Hl]; intros [|b k] E; try done; [constructor|].
  rewrite !fmap_cons in E. injection E as E1 E2. constructor; [by apply IH|].
  apply Forall_forall. intros c Hc. rewrite Forall_forall in Hl.
  assert (seq c ∈ seq <$> l) as (d & Hd & Hdl)%list_elem_of_fmap.
  { rewrite E2. by apply list_elem_of_fmap_2. }
  rewrite <- E1, Hd. by apply Hl.
Qed.

Lemma rows_altered f db k pre row post :
  (∀ row, seq (f row) = seq row) →
  keys_ok (audit_records db) → ascending (rows_by_seq db) →
  rows_by_seq db = pre ++ row :: post → seq row = k →
  rows_by_seq (update_row f k db) = pre ++ f row :: post.
Proof.
  intros Hf Hk Ha Hr Hs. apply rows_unique.
  - intros j x. cbn [update_row audit_records]. rewrite lookup_alter_Some.
    intros [(-> & y & Hy & ->)|[_ ?]]; [|by apply Hk]. rewrite Hf. by apply Hk.
  - eapply ascending_seqs; [exact Ha|]. by rewrite Hr, !fmap_app, !fmap_cons, Hf.
  - intros x. cbn [update_row audit_records].
    assert (Hin : ∀ y, y ∈ rows_by_seq db ↔ audit_records db !! seq y = Some y)
      by (intros; by apply elem_of_rows).
    assert (Hrow : audit_records db !! seq row = Some row).
    { apply Hin. rewrite Hr, elem_of_app, elem_of_cons. auto. }
    assert (Hnd : ∀ y, y ∈ pre ++ post → seq y ≠ k).
    { intros y Hy. pose proof (ascending_NoDup _ Ha) as Hnd. rewrite Hr in Hnd.
      intros E. assert (y = row) as ->.
      { assert (Hy' : y ∈ rows_by_seq db) 
          by (apply elem_of_app in Hy as [?|?]; rewrite Hr, elem_of_app, elem_of_cons; auto).
        apply Hin in Hy'. rewrite E, <- Hs, Hrow in Hy'. by injection Hy'. }
      apply NoDup_app in Hnd as (_ & Hd & [Hnp _]%NoDup_cons). 
      apply elem_of_app in Hy as [Hy|Hy]; [|done]. apply (Hd row Hy). left. }
    rewrite elem_of_app, elem_of_cons. split.
    + intros [Hx|[-> | Hx]].
      * rewrite lookup_alter_ne by (symmetry; apply Hnd, elem_of_app; auto).
        apply Hin. rewrite Hr, elem_of_app. auto.
      * rewrite Hf, Hs, lookup_alter_eq, <- Hs, Hrow. done.
      * rewrite lookup_alter_ne by (symmetry; apply Hnd, elem_of_app; auto).
        apply Hin. rewrite Hr, elem_of_app, elem_of_cons. auto.
    + rewrite lookup_alter_Some. intros [(Hx & y & Hy & Exy)|[Hne Hx]].
      * rewrite <- Hx, <- Hs, Hrow in Hy. injection Hy as <-. right; left. exact Exy.
      * apply Hin in Hx. rewrite Hr, elem_of_app, elem_of_cons in Hx.
        destruct Hx as [?|[-> | ?]]; auto. congruence.
Qed.

Lemma intact_hex rows prev n :
  hex_link prev → intact rows prev n → hex_link (head_after rows prev).
Proof.
  revert prev n. induction rows as [|r rows IH]; intros prev n Hp; [done|].
  intros (_ & _ & Hh & H). rewrite head_after_cons. eapply IH; [|exact H].
  by apply hash_is_hex in Hh as [_ ?].
Qed.

(** A row of an intact chain, the rows before it and after it. *)
Lemma chain_split db k row :
  chain_ok db → audit_records db !! k = Some row →
  ∃ pre post, rows_by_seq db = pre ++ row :: post ∧ intact pre None 0
    ∧ prev_hash row = head_after pre None ∧ seq row = Z.of_nat (length pre) + 1 ∧ k = seq row
    ∧ chain_hash (prev_hash row) (record row) = Ok (record_hash row)
    ∧ intact post (Some (record_hash row)) (Z.of_nat (length pre) + 1).
Proof.
  intros (Hk & Hi & _) Hrow. pose proof (Hk _ _ Hrow) as Hs.
  assert (row ∈ rows_by_seq db) as (pre & post & Hr)%list_elem_of_split
    by (rewrite elem_of_rows, Hs; done).
  exists pre, post. rewrite Hr in Hi. apply intact_app in Hi as [Hpre (Hs' & Hp & Hh & Hpost)].
  rewrite Z.add_0_l in *. rewrite Hp. split_and!; done.
Qed.

Lemma chain_row db k row :
  chain_ok db → audit_records db !! k = Some row →
  hex_link (prev_hash row) ∧ chain_hash (prev_hash row) (record row) = Ok (record_hash row).
Proof.
  intros Hok Hrow. destruct (chain_split _ _ _ Hok Hrow) as (pre & post & _ & Hi & Hp & _ & _ & Hh & _).
  split; [|done]. rewrite Hp. by apply (intact_hex pre None 0).
Qed.

(** What verification says of an intact chain with one record replaced: it hashes what is
    there now, and the chain is whole exactly when that is the stored hash. *)
Lemma alter_verdict db k row r :
  chain_ok db → audit_records db !! k = Some row →
  verify_chain (alter_record k r db) =
    (h ← chain_hash (prev_hash row) r;
     Ok (if bool_decide (h = record_hash row)
         then mkVerification true (Z.of_nat (length (rows_by_seq db))) None None
         else broken (k - 1) k RecordAltered)).
Proof.
  intros Hok Hrow.
  destruct (chain_split _ _ _ Hok Hrow) as (pre & post & Hr & Hpre & Hp & Hs & -> & Hh & Hpost).
  pose proof Hok as (Hk & Hi & Hhead & _).
  pose proof (rows_altered (with_record r) db (seq row) pre row post (λ _, eq_refl) Hk
                (intact_ascending _ _ _ Hi) Hr eq_refl) as Hrows.
  change (update_row (with_record r) (seq row) db) with (alter_record (seq row) r db) in Hrows.
  destruct (chain_hash (prev_hash row) r) as [h|e] eqn:Hc; cbn [mbind res_bind];
    [case_bool_decide as E; [subst h|]|].
  - rewrite verify_rows.
    + rewrite Hrows. change (_head (alter_record _ _ _)) with (_head db). rewrite Hhead, Hr, !length_app.
      cbn [last_seq length]. by rewrite Z.eqb_refl.
    + rewrite Hrows. apply intact_app. rewrite Z.add_0_l. split; [done|].
      cbn [intact with_record seq prev_hash record record_hash]. rewrite <- Hp. split_and!; done.
  - unfold verify_chain. cbn [still rd_rows rd_head rd_max]. rewrite Hrows, walk_intact by done.
    cbn [walk with_record seq prev_hash record record_hash]. rewrite Z.add_0_l, Hs, Z.eqb_refl. cbn [negb].
    rewrite bool_decide_true by done. cbn [negb]. rewrite <- Hp, Hc. cbn [mbind res_bind].
    rewrite bool_decide_false by done. cbn [negb mbind res_bind]. do 2 f_equal; lia.
  - unfold verify_chain. cbn [still rd_rows rd_head rd_max]. rewrite Hrows, walk_intact by done.
    cbn [walk with_record seq prev_hash record record_hash]. rewrite Z.add_0_l, Hs, Z.eqb_refl. cbn [negb].
    rewrite bool_decide_true by done. cbn [negb]. rewrite <- Hp, Hc. done.
Qed.


(** ** Removing records *)
Section removal.
Context (P : AuditRecordRow → Prop) {Pdec : ∀ r, Decision (P r)}.

(** The table with only the rows that satisfy [P]. *)
Definition keep_rows (db : chain_db) : chain_db :=
  mkChain (filter (λ kv, P kv.2) (audit_records db)) (audit_chain_head db).

Lemma rows_kept db :
  keys_ok (audit_records db) → ascending (rows_by_seq db) →
  rows_by_seq (keep_rows db) = filter P (rows_by_seq db).
Proof.
  intros Hk Ha. apply rows_unique.
  - intros k r. cbn. rewrite map_lookup_filter_Some. intros [? _]. by apply Hk.
  - by apply ascending_filter.
  - intros r. cbn. rewrite list_elem_of_filter, elem_of_rows, map_lookup_filter_Some by done.
    cbn. tauto.
Qed.

(** Removed records are found.  Delete any set of rows of an intact chain, the
    first of them number [k]: verification accepts the [k - 1] before it and fails,
    naming the next row that is still there, or the end of the chain when none is. *)
Theorem removal_detected db k row :
  chain_ok db → audit_records db !! k = Some row → ¬ P row →
  (∀ r, r ∈ rows_by_seq db → seq r < k → P r) →
  ∃ v b, verify_chain (keep_rows db) = Ok v ∧ cv_ok v = false ∧ checked v = k - 1
    ∧ first_bad_seq v = Some b ∧ k <= b
    ∧ (∀ r, r ∈ rows_by_seq db → k <= seq r < b → ¬ P r).
Proof.
  intros (Hk & Hi & Hh & _) Hrow HP Hbefore. pose proof (Hk _ _ Hrow) as Hs.
  assert (row ∈ rows_by_seq db) as (pre & post & Hr)%list_elem_of_split
    by (rewrite elem_of_rows, Hs; done).
  pose proof (intact_ascending _ _ _ Hi) as Hasc.
  assert (Hlen : k = Z.of_nat (length pre) + 1).
  { rewrite <- Hs, (intact_seq _ None 0 (length pre) row Hi); [lia|].
    rewrite Hr. by apply list_lookup_middle. }
  assert (Hpre : ∀ r, r ∈ pre → seq r < k).
  { intros r [j Hj]%list_elem_of_lookup_1.
    rewrite (intact_seq _ None 0 j r Hi), Hlen; [apply lookup_lt_Some in Hj; lia|].
    rewrite Hr. by apply lookup_app_l_Some. }
  assert (Hkept : rows_by_seq (keep_rows db) = pre ++ filter P post).
  { rewrite rows_kept, Hr, filter_app, filter_cons_False by done. f_equal.
    apply filter_all, Forall_forall. intros r Hpr. apply Hbefore; [|by apply Hpre].
    rewrite Hr, elem_of_app. by left. }
  assert (Hpost : ∀ r, r ∈ post → k < seq r).
  { intros r [j Hj]%list_elem_of_lookup_1.
    rewrite (intact_seq _ None 0 (length pre + S j) r Hi), Hlen; [lia|].
    rewrite Hr, lookup_app_r by lia. by replace (length pre + S j - length pre)%nat with (S j) by lia. }
  pose proof Hi as Hi'. rewrite Hr in Hi'. apply intact_app in Hi' as [Hip _].
  destruct (filter P post) as [|r' q] eqn:Hf.
  - rewrite app_nil_r in Hkept.
    exists (broken (k - 1) k (Truncated (Z.of_nat (length (rows_by_seq db))) (k - 1))), k.
    rewrite verify_rows by (by rewrite Hkept).
    change (_head (keep_rows db)) with (_head db). rewrite Hkept, Hh. cbn [last_seq].
    replace (Z.of_nat (length pre)) with (k - 1) by lia.
    rewrite (proj2 (Z.eqb_neq _ _)).
    2: { rewrite Hr, length_app. cbn [length]. lia. }
    cbn [negb]. replace (k - 1 + 1) with k by lia. split_and!; [done..|lia|].
    intros r _ ?. lia.
  - assert (Hr' : r' ∈ filter P post) by (rewrite Hf; left).
    apply list_elem_of_filter in Hr' as [HPr' Hr'].
    exists (broken (k - 1) (seq r') (SequenceJump (k - 1))), (seq r').
    unfold verify_chain. cbn [still rd_rows rd_head rd_max]. rewrite Hkept, walk_intact by done. cbn [walk].
    rewrite Z.add_0_l. replace (Z.of_nat (length pre)) with (k - 1) by lia.
    pose proof (Hpost r' Hr') as Hgt.
    destruct (Z.eqb_spec (seq r') (k - 1 + 1)); [lia|]. cbn [negb mbind res_bind].
    split_and!; [done..|lia|]. intros r Hrr Hb HPr. rewrite Hr, elem_of_app, elem_of_cons in Hrr.
    destruct Hrr as [Hrr|[-> | Hrr]]; [apply Hpre in Hrr; lia|done|].
    assert (Hrq : r ∈ filter P post) by (by apply list_elem_of_filter).
    assert (Hsq : ascending (r' :: q)).
    { rewrite rows_kept in Hkept by done. apply (StronglySorted_app_1_r _ pre).
      rewrite <- Hkept. by apply ascending_filter. }
    rewrite Hf in Hrq. inversion Hsq as [|?? _ Hall]; subst.
    apply elem_of_cons in Hrq as [-> | Hrq]; [lia|].
    rewrite Forall_forall in Hall. apply Hall in Hrq. lia.
Qed.
End removal.

(** ** One head, one history *)
Definition same_row (a b : AuditRecordRow) : Prop :=
  seq a = seq b ∧ prev_hash a = prev_hash b ∧ record_hash a = record_hash b
  ∧ same (record a) (record b).

Definition json_rows (rows : list AuditRecordRow) : Prop :=
  Forall (λ row, json_ok (record row) = true) rows.

(** A link of one history and a link of the other collide. *)
Definition links_collide (rows1 rows2 : list AuditRecordRow) : Prop :=
  ∃ a b, a ∈ rows1 ∧ b ∈ rows2
    ∧ collide (link_value (prev_hash a) (record a)) (link_value (prev_hash b) (record b)).

Lemma history_bound rows1 rows2 :
  intact rows1 None 0 → intact rows2 None 0 → json_rows rows1 → json_rows rows2 →
  head_after rows1 None = head_after rows2 None →
  Forall2 same_row rows1 rows2 ∨ links_collide rows1 rows2.
Proof.
  revert rows2. induction rows1 as [|a l IH] using rev_ind; intros rows2.
  - destruct rows2 as [|b k _] using rev_ind; [by left; constructor|].
    intros _ _ _ _. rewrite head_after_app. done.
  - destruct rows2 as [|b k _] using rev_ind; [intros _ _ _ _; by rewrite head_after_app|].
    rewrite !head_after_app. intros [Hl Ha]%intact_app [Hk Hb]%intact_app.
    destruct Ha as (Sa & Pa & Ha & _), Hb as (Sb & Pb & Hb & _).
    intros [Jl Ja]%Forall_app [Jk Jb]%Forall_app. rewrite Forall_singleton in Ja, Jb.
    intros E. unfold head_after in E. simpl in E. injection E as E. rewrite <- E in Hb.
    destruct (chain_hash_binds _ _ _ _ _ (intact_hex _ None 0 I Hl) (intact_hex _ None 0 I Hk) Ja Jb Ha Hb)
      as [[Hp Hs]|Hc].
    2: { right. exists a, b. rewrite Pa, Pb. split_and!; [set_solver..|done]. }
    destruct (IH k Hl Hk Jl Jk Hp) as [HF|(a' & b' & ? & ? & ?)].
    2: { right. exists a', b'. split_and!; [set_solver..|done]. }
    left.
    apply Forall2_app; [done|]. constructor; [|constructor].
    rewrite Z.add_0_l in *. repeat split; [|congruence|done|done].
    rewrite Sa, Sb, (Forall2_length _ _ _ HF). done.
Qed.

(** One hash fixes the history.  Two tables that both verify and whose newest
    records carry the same hash hold the same records, link by link, however long
    each is, or a link of one and a link of the other collide under SHA-256. *)
Theorem head_binds_history (db1 db2 : chain_db) v1 v2 :
  verify_chain db1 = Ok v1 → verify_chain db2 = Ok v2 → cv_ok v1 = true → cv_ok v2 = true →
  json_rows (rows_by_seq db1) → json_rows (rows_by_seq db2) →
  head_after (rows_by_seq db1) None = head_after (rows_by_seq db2) None →
  Forall2 same_row (rows_by_seq db1) (rows_by_seq db2)
  ∨ links_collide (rows_by_seq db1) (rows_by_seq db2).
Proof.
  assert (Hok : ∀ (db : chain_db) v, verify_chain db = Ok v → cv_ok v = true → intact (rows_by_seq db) None 0).
  { intros db v Hv Ht. unfold verify_chain in Hv. cbn [still rd_rows rd_head rd_max] in Hv. apply bind_Ok_inv in Hv as ([w|m] & Hw & E).
    - injection E as <-. apply walk_inl in Hw as (? & ? & ? & _ & _ & _ & Hf & _). congruence.
    - by apply walk_inr in Hw as [? _]. }
  intros H1 H2 E1 E2. apply history_bound; eauto.
Qed.

(** What is not found: the newest record rewritten together with its stored hash
    verifies, because the walk ends there and the head row's hash is not read. *)
Theorem newest_rewrite_verifies db k row r h :
  chain_ok db → audit_records db !! k = Some row → k = Z.of_nat (length (rows_by_seq db)) →
  chain_hash (prev_hash row) r = Ok h →
  verify_chain (rewrite_record k r h db)
  = Ok (mkVerification true (Z.of_nat (length (rows_by_seq db))) None None).
Proof.
  intros (Hk & Hi & Hh & _) Hrow Hlast Hr. pose proof (Hk _ _ Hrow) as Hs.
  assert (row ∈ rows_by_seq db) as (pre & post & Hrows)%list_elem_of_split
    by (rewrite elem_of_rows, Hs; done).
  assert (post = []) as ->.
  { destruct post as [|x post]; [done|]. exfalso.
    rewrite (intact_seq _ None 0 (length pre) row Hi) in Hs; [|rewrite Hrows; by apply list_lookup_middle].
    rewrite Hlast, Hrows, length_app in Hs. cbn [length] in Hs. lia. }
  assert (Hnew : rows_by_seq (rewrite_record k r h db) = pre ++ [with_hash h (with_record r row)]).
  { apply (rows_altered (λ x, with_hash h (with_record r x)) db k pre row []); [done|done|by eapply intact_ascending|done|done]. }
  rewrite verify_rows.
  - rewrite Hnew. change (_head (rewrite_record k r h db)) with (_head db).
    rewrite Hh, Hrows, !length_app. cbn [last_seq]. by rewrite Z.eqb_refl.
  - rewrite Hnew. rewrite Hrows in Hi. apply intact_app in Hi as [Hp (Hs' & Hpr & _ & _)].
    apply intact_app. split; [done|].
    cbn [intact with_hash with_record seq prev_hash record record_hash].
    rewrite Hpr in Hr. split_and!; done.
Qed.
End tamper.

Section witnesses.
#[local] Existing Instance identity_unicode.
#[local] Existing Instance position_order.

Definition demo_row (k : Z) : AuditRecordRow :=
  default (mkAuditRow 0 0 VNone None [] 0) (audit_records demo_chain !! k).

Lemma demo_row_2 : audit_records demo_chain !! 2 = Some (demo_row 2).
Proof. vm_compute. reflexivity. Qed.


(** A record appended after the head row was read and before the highest number was: an
    intact chain is called truncated. *)
Example append_during_verification :
  let before := (append empty_chain [demo_record 1 "planner" "allow"; demo_record 2 "payer" "deny"] 0).2 in
  verify_chain before = Ok (mkVerification true 2 None None)
  ∧ verify_chain demo_chain = Ok (mkVerification true 3 None None)
  ∧ verify_chain (mkReads before before demo_chain) = Ok (broken 2 4 (Truncated 2 3)).
Proof. split_and!; vm_compute; reflexivity. Qed.

Lemma removal_detected_witness :
  ∃ v b, verify_chain (keep_rows (λ row, seq row ≠ 2) demo_chain) = Ok v ∧ cv_ok v = false
    ∧ checked v = 1 ∧ first_bad_seq v = Some b ∧ 2 <= b
    ∧ (∀ r, r ∈ rows_by_seq demo_chain → 2 <= seq r < b → ¬ seq r ≠ 2).
Proof.
  refine (removal_detected (λ row, seq row ≠ 2) demo_chain 2 (demo_row 2) demo_chain_ok demo_row_2 _ _).
  - assert (seq (demo_row 2) = 2) as -> by (vm_compute; reflexivity). intros H. by apply H.
  - intros r _ Hlt. lia.
Defined.

Lemma head_binds_history_witness :
  Forall2 same_row (rows_by_seq demo_chain) (rows_by_seq demo_chain)
  ∨ links_collide (rows_by_seq demo_chain) (rows_by_seq demo_chain).
Proof.
  assert (Hv : verify_chain demo_chain = Ok (mkVerification true 3 None None)) by (vm_compute; reflexivity).
  assert (Hj : json_rows (rows_by_seq demo_chain)).
  { apply List.Forall_forall, forallb_forall. vm_compute. reflexivity. }
  exact (head_binds_history _ _ _ _ Hv Hv eq_refl eq_refl Hj Hj eq_refl).
Defined.
End witnesses.
