(* ===== verification/Delivery.v ===== *)
(** * From the emitter to the chain

    The decision emitter draining into the ledger's audit sink, with emissions,
    batch claims and writes in any order and any network behaviour.  A record
    the emitter reports written is in the chain, once and in order; a batch
    whose acknowledgement was lost is already there and its retry adds nothing. *)
From S2P Require Import Prelude PyText Errors PyNum PyTime PyUuid PySha PyRe Models Emitter Hashing HashingSpec AuditChain AuditSpec.

Section delivery.
Context {UN : Unicode} {ST : SortTies} {R : Type} {AR : AuditRecord R}.

(** ** Runs *)
Inductive delivery_event :=
| DEmit (r : R)
| DClaim
| DWrite (net : link_state) (stamped : Z).

Record delivery := mkDelivery { dl_run : emitter_run (R := R); dl_sink : LedgerAuditSink }.

Definition delivery_step (s : EmitterSettings) (d : delivery) (ev : delivery_event) : delivery :=
  match ev with
  | DEmit r => mkDelivery (emitter_step s (dl_run d) (EvEmit r)) (dl_sink d)
  | DClaim => mkDelivery (emitter_step s (dl_run d) EvClaim) (dl_sink d)
  | DWrite net stamped =>
      match em_pending (er_emitter (dl_run d)) with
      | None => d
      | Some batch =>
          let '(w, sink) := sink_write net stamped (dl_sink d) batch in
          mkDelivery (emitter_step s (dl_run d) (EvAnswer w)) sink
      end
  end.

Definition start_delivery : delivery := mkDelivery start_emitter_run (mkAuditSink empty_chain 0).

Definition run_delivery (s : EmitterSettings) (evs : list delivery_event) : delivery :=
  foldl (delivery_step s) start_delivery evs.

(** What the emitter reports written. *)
Definition written (g : emitter_run (R := R)) : list R :=
  (filter (λ p : R * bool, p.2 = true) (er_settled g)).*1.

Definition row_holds (r : R) (row : AuditRecordRow) : Prop :=
  row_decision_id row = record_decision_id r ∧ record row = model_dump r.

(** The chain holds what was written, and perhaps the batch in hand. *)
Definition chain_holds (d : delivery) : Prop :=
  ∃ in_hand, (in_hand = [] ∨ em_pending (er_emitter (dl_run d)) = Some in_hand)
    ∧ Forall2 row_holds (written (dl_run d) ++ in_hand) (rows_by_seq (sink_db (dl_sink d))).

Definition delivery_ok (s : EmitterSettings) (d : delivery) : Prop :=
  emitter_run_ok s (dl_run d) ∧ chain_ok (sink_db (dl_sink d))
  ∧ (NoDup (record_decision_id <$> er_accepted (dl_run d)) → chain_holds d).

Lemma written_settled (l : list R) (b : bool) :
  (filter (λ p : R * bool, p.2 = true) ((λ r : R, (r, b)) <$> l)).*1 = if b then l else [].
Proof.
  induction l as [|r l IH]; [by destruct b|]. rewrite fmap_cons, filter_cons.
  destruct b; cbn [snd]; [rewrite decide_True by done|rewrite decide_False by done]; [|done].
  by rewrite fmap_cons, IH.
Qed.

Lemma rows_hold_ids l rows :
  Forall2 row_holds l rows → row_decision_id <$> rows = record_decision_id <$> l.
Proof. induction 1 as [|r row l rows [Hid _] _ IH]; [done|]. rewrite !fmap_cons. by f_equal. Qed.

Lemma row_of_holds stamped l rows : Forall2 (row_of stamped) l rows → Forall2 row_holds l rows.
Proof. intros HF. eapply Forall2_impl; [exact HF|]. by intros r row (? & ? & _). Qed.

(** Records none of which is in the chain are all added. *)
Lemma added_new db records :
  (∀ r, r ∈ records → record_decision_id r ∉ row_decision_id <$> rows_by_seq db) →
  added db records = records.
Proof.
  intros Hn. unfold added, fresh. set (ex := existing_ids db records).
  assert (H : ∀ r, r ∈ records → record_decision_id r ∉ ex).
  { intros r Hr Hin. apply elem_of_existing_ids in Hin as [_ Hin]. by apply (Hn r). }
  clearbody ex. clear Hn. induction records as [|r records IH]; [done|].
  rewrite filter_cons_True by (apply H; left). f_equal. apply IH. intros ??. apply H. by right.
Qed.

Lemma sink_write_ok net stamped sink batch w sink' :
  chain_ok (sink_db sink) → sink_write net stamped sink batch = (w, sink') → chain_ok (sink_db sink').
Proof.
  intros Hok Hw. unfold sink_write in Hw.
  destruct net; [| by injection Hw as <- <- |];
    destruct (append _ _ _) as [o db'] eqn:Ha;
    destruct (append_spec _ _ _ _ _ Hok Ha) as [Hok' _];
    repeat case_match; by injection Hw as <- <-.
Qed.

(** One write of the batch in hand. *)
Lemma sink_write_holds s net stamped sink batch w sink' done_ in_hand :
  chain_ok (sink_db sink) → s = sink_db sink →
  (in_hand = [] ∨ in_hand = batch) →
  NoDup (record_decision_id <$> done_ ++ batch) →
  Forall2 row_holds (done_ ++ in_hand) (rows_by_seq s) →
  sink_write net stamped sink batch = (w, sink') →
  match w with
  | Written => Forall2 row_holds (done_ ++ batch) (rows_by_seq (sink_db sink'))
  | Rejected => Forall2 row_holds done_ (rows_by_seq (sink_db sink'))
  | Failed => ∃ in_hand', (in_hand' = [] ∨ in_hand' = batch)
      ∧ Forall2 row_holds (done_ ++ in_hand') (rows_by_seq (sink_db sink'))
  end.
Proof.
  intros Hok -> Hih Hnd HF Hw.
  assert (Happ : ∀ o db', append (sink_db sink) batch stamped = (o, db') →
    match o with
    | Ok _ => Forall2 row_holds (done_ ++ batch) (rows_by_seq db')
    | Raise _ => db' = sink_db sink ∧ in_hand = [] end).
  { intros o db' Ha. destruct (append_spec _ _ _ _ _ Hok Ha) as [_ Ho].
    pose proof (rows_hold_ids _ _ HF) as Hids. destruct Hih as [-> | ->].
    - rewrite app_nil_r in *. destruct o as [hashes|e]; [|done].
      destruct Ho as (new & -> & _ & Hnew). apply Forall2_app; [done|].
      rewrite added_new in Hnew; [by eapply row_of_holds|].
      intros r Hr. rewrite Hids. rewrite fmap_app in Hnd. apply NoDup_app in Hnd as (_ & Hd & _).
      intros Hin. apply (Hd _ Hin). by apply list_elem_of_fmap_2.
    - destruct (append_present (sink_db sink) batch stamped) as (E1 & E2 & _).
      { intros r Hr. rewrite Hids, fmap_app, elem_of_app. right. by apply list_elem_of_fmap_2. }
      rewrite Ha in E1, E2. cbn [fst snd] in E1, E2. subst o.
      unfold rows_by_seq. by rewrite E2. }
  assert (Hnil : ∀ n, in_hand = [] → Forall2 row_holds done_ (rows_by_seq (sink_db (mkAuditSink (sink_db sink) n)))).
  { intros n ->. by rewrite app_nil_r in HF. }
  unfold sink_write in Hw. destruct net; [|injection Hw as <- <-; by exists in_hand|];
    destruct (append _ _ _) as [o db'] eqn:Ha; specialize (Happ _ _ eq_refl);
    destruct o as [h|e].
  - by injection Hw as <- <-.
  - destruct Happ as [-> Hi]. destruct (_PERMANENT e); injection Hw as <- <-; [by apply Hnil|].
    exists []. rewrite app_nil_r. split; [by left|by apply Hnil].
  - injection Hw as <- <-. exists batch. split; [by right|done].
  - destruct Happ as [-> Hi]. destruct (_PERMANENT e); injection Hw as <- <-; [by apply Hnil|].
    exists []. rewrite app_nil_r. split; [by left|by apply Hnil].
Qed.

Lemma written_app g (l : list (R * bool)) run' :
  er_settled run' = er_settled g ++ l →
  written run' = written g ++ (filter (λ p : R * bool, p.2 = true) l).*1.
Proof. unfold written. intros ->. by rewrite filter_app, fmap_app. Qed.

(** Nothing leaves the list of accepted records, and only an answer settles. *)
Lemma emitter_step_accepted s (g : emitter_run (R := R)) ev :
  ∃ l, er_accepted (emitter_step s g ev) = er_accepted g ++ l.
Proof.
  destruct ev as [r| |w]; simpl.
  - destruct (emit s (er_emitter g) r) as [o e']. cbn. case_match; [by eexists|].
    exists []. by rewrite app_nil_r.
  - exists []. by rewrite app_nil_r.
  - exists []. by rewrite app_nil_r.
Qed.

Lemma NoDup_in_hand s (g : emitter_run (R := R)) batch :
  emitter_run_ok s g → em_pending (er_emitter g) = Some batch →
  NoDup (record_decision_id <$> er_accepted g) →
  NoDup (record_decision_id <$> written g ++ batch).
Proof.
  intros (Hacc & _) Hp Hnd. rewrite Hacc, Hp in Hnd. cbn [default] in Hnd.
  eapply sublist_NoDup; [exact Hnd|]. apply fmap_sublist. unfold written.
  apply sublist_app; [|by apply sublist_inserts_r].
  apply fmap_sublist. apply sublist_filter.
Qed.

Lemma delivery_step_ok s d ev : delivery_ok s d → delivery_ok s (delivery_step s d ev).
Proof.
  intros (Hrun & Hchain & Hholds). destruct ev as [r| |net stamped]; cbn [delivery_step].
  - split_and!; [by apply emitter_step_ok|done|]. intros Hnd. cbn [dl_run] in Hnd.
    destruct (emitter_step_accepted s (dl_run d) (EvEmit r)) as [l E]. rewrite E, fmap_app in Hnd.
    apply NoDup_app in Hnd as (Hnd & _). destruct (Hholds Hnd) as (ih & Hih & HF).
    exists ih. cbn [dl_run dl_sink emitter_step].
    assert (Hpend : em_pending (emit s (er_emitter (dl_run d)) r).2 = em_pending (er_emitter (dl_run d))).
    { unfold emit. by repeat case_match. }
    destruct (emit s (er_emitter (dl_run d)) r) as [o e']. cbn in *. by rewrite Hpend.
  - split_and!; [by apply emitter_step_ok|done|]. intros Hnd. cbn [dl_run emitter_step er_accepted] in Hnd.
    destruct (Hholds Hnd) as (ih & Hih & HF). exists ih. split; [|exact HF].
    destruct Hih as [->|Hih]; [by left|right]. cbn [dl_run emitter_step er_emitter].
    unfold claim. by rewrite Hih.
  - destruct (em_pending (er_emitter (dl_run d))) as [batch|] eqn:Hp; [|done].
    destruct (sink_write net stamped (dl_sink d) batch) as [w sink'] eqn:Hw.
    split_and!; [by apply emitter_step_ok|by eapply sink_write_ok|].
    intros Hnd. cbn [dl_run emitter_step er_accepted] in Hnd. destruct (Hholds Hnd) as (ih & Hih & HF).
    pose proof (sink_write_holds _ net stamped (dl_sink d) batch w sink' (written (dl_run d)) ih
      Hchain eq_refl) as Hs. unfold chain_holds. cbn [dl_run dl_sink].
    specialize (Hs ltac:(destruct Hih as [?|Hih]; [by left|right; congruence])
      (NoDup_in_hand _ _ _ Hrun Hp Hnd) HF Hw).
    assert (Hset : er_settled (emitter_step s (dl_run d) (EvAnswer w)) = er_settled (dl_run d) ++
      match w with Failed => [] | w => (λ r, (r, match w with Written => true | _ => false end)) <$> batch end).
    { cbn. rewrite Hp. destruct w; [done|done|by rewrite app_nil_r]. }
    rewrite (written_app _ _ _ Hset). destruct w; rewrite ?written_settled.
    + exists []. split; [by left|]. by rewrite app_nil_r.
    + exists []. split; [by left|]. by rewrite !app_nil_r.
    + destruct Hs as (ih' & Hih' & HF'). exists ih'. split.
      * destruct Hih' as [?| ->]; [by left|right]. cbn. unfold answer_batch. by rewrite Hp.
      * change (filter _ (@nil (R * bool))) with (@nil (R * bool)). by rewrite app_nil_r.
Qed.

(** C10: from the emitter to the chain, exactly once.  Start with an empty emitter and
    an empty table and let records be emitted, batches claimed and writes
    attempted in any order, with the database up, out of reach, or committing
    without its acknowledgement arriving.  The table always verifies; and when the
    accepted decisions are distinct its rows are, one by one and in order, the
    records reported written, followed perhaps by the batch still in hand.  Every
    accepted record is settled, in hand or queued. *)
Theorem delivery_exactly_once s evs :
  let d := run_delivery s evs in
  let g := dl_run d in
  let db := sink_db (dl_sink d) in
  er_accepted g = (er_settled g).*1 ++ default [] (em_pending (er_emitter g)) ++ em_queue (er_emitter g)
  ∧ verify_chain db = Ok (mkVerification true (Z.of_nat (length (rows_by_seq db))) None None)
  ∧ (NoDup (record_decision_id <$> er_accepted g) →
     ∃ in_hand, (in_hand = [] ∨ em_pending (er_emitter g) = Some in_hand)
       ∧ Forall2 row_holds (written g ++ in_hand) (rows_by_seq db)).
Proof.
  assert (Hok : delivery_ok s (run_delivery s evs)).
  { unfold run_delivery. assert (H0 : delivery_ok s start_delivery).
    { split_and!; [|apply chain_ok_empty|].
      - unfold emitter_run_ok. cbn. split_and!; [done|done|lia|done].
      - intros _. exists []. split; [by left|constructor]. }
    revert H0. generalize start_delivery. induction evs as [|ev evs IH]; intros d Hd; [done|].
    cbn [foldl]. by apply IH, delivery_step_ok. }
  destruct Hok as ((Hacc & _) & Hc & Hh). split_and!; [done|by apply chain_ok_verifies|done].
Qed.
End delivery.

Section witness.
#[local] Existing Instance identity_unicode.
#[local] Existing Instance position_order.

(** A write whose acknowledgement is lost, then a retry. *)
Definition demo_settings : EmitterSettings := mkEmitterSettings 8 BP_DENY 2 500.
Definition demo_events : list (delivery_event (R := uuid * value)) :=
  [DEmit (demo_record 1 "planner" "allow"); DEmit (demo_record 2 "payer" "deny"); DClaim;
   DEmit (demo_record 3 "payer" "allow"); DWrite Down 0; DWrite AckLost 1; DWrite Up 2; DClaim].

Lemma delivery_exactly_once_witness :
  let d := run_delivery demo_settings demo_events in
  seq <$> rows_by_seq (sink_db (dl_sink d)) = [1; 2] ∧
  ∃ in_hand, (in_hand = [] ∨ em_pending (er_emitter (dl_run d)) = Some in_hand)
    ∧ Forall2 row_holds (written (dl_run d) ++ in_hand) (rows_by_seq (sink_db (dl_sink d))).
Proof.
  split; [vm_compute; reflexivity|].
  destruct (delivery_exactly_once demo_settings demo_events) as (_ & _ & H). apply H.
  apply (bool_decide_unpack _). vm_compute. exact I.
Defined.
End witness.
