(* ===== verification/Pool.v ===== *)
(** * The lease pool (agentiam_pep/pool.py)

    One lease per budget dimension, spent locally and replaced in the background.
    A pool method that awaits is cut at its awaits: [acquire_request] is what runs
    before the ledger answers, [acquire_reply] what runs after, and the release of
    the lease it replaced is returned as the next thing to do.  Scheduling a task is
    recorded in [p_tasks]; whether an event loop is running is an argument. *)
From S2P Require Import Prelude PyText Errors PyNum Models Ledger Books Lease.

Record LeaseGrant := mkGrant { g_id : uuid; g_granted : Z; g_expires_at : Z }.

Record PoolSettings := mkPoolSettings {
  set_pep_id : pystr;
  set_lease_size : Z;
  set_ttl : Z;
  set_skew : Z;
  set_low_water : decimal }.

(** [__post_init__]. *)
Definition check_pool_settings (s : PoolSettings) : py PoolSettings :=
  raise_if (set_lease_size s <=? 0) ValueError;;
  raise_if (negb (dec_leb (dec_of_int 0) (set_low_water s)
                  && dec_ltb (set_low_water s) (dec_of_int 1))) ValueError;;
  raise_if (set_ttl s <=? 2 * set_skew s) ValueError;;
  Ok s.

Record Held := mkHeld {
  hd_lease : LocalLease;
  hd_topping_up : bool;
  hd_mandate_exhausted : bool }.

Record pool := mkPool {
  p_held : gmap BudgetDimension Held;
  p_closed : bool;
  p_tasks : list BudgetDimension }.   (* top-ups started and not finished *)

Definition empty_pool : pool := mkPool ∅ false [].

Definition put_held (p : pool) (d : BudgetDimension) (h : Held) : pool :=
  mkPool (<[d := h]> (p_held p)) (p_closed p) (p_tasks p).

Definition lease_of_grant (g : LeaseGrant) : LocalLease :=
  mkLocalLease (g_id g) (g_granted g) (g_granted g) (g_expires_at g) ACTIVE.

(** ** Acquisition *)

(** [_acquire] after the ledger answered: the pool, whether a lease was granted,
    and the replaced lease that [_release] must now retire. *)
Definition acquire_reply (p : pool) (d : BudgetDimension) (grant : option LeaseGrant)
    : pool * bool * option uuid :=
  match grant, p_held p !! d with
  | None, None => (p, false, None)
  | None, Some h => (put_held p d (mkHeld (hd_lease h) (hd_topping_up h) true), false, None)
  | Some g, None => (put_held p d (mkHeld (lease_of_grant g) false false), true, None)
  | Some g, Some h =>
      (put_held p d (mkHeld (lease_of_grant g) (hd_topping_up h) false), true,
       Some (ll_id (hd_lease h)))
  end.

(** [prime]: nothing to do if a lease is held; otherwise the reply decides. *)
Definition prime (p : pool) (d : BudgetDimension) (ask : unit → option LeaseGrant)
    : pool * bool * option uuid :=
  match p_held p !! d with
  | Some _ => (p, true, None)
  | None => acquire_reply p d (ask tt)
  end.

(** ** Top-ups *)
Definition lease_stale (s : PoolSettings) (l : LocalLease) (now : Z) : bool :=
  negb (bool_decide (ll_state l = ACTIVE)) || (ll_expires_at l - set_skew s <=? now).

(** [remaining_local <= granted * low_water]. *)
Definition drained (s : PoolSettings) (l : LocalLease) : py bool :=
  m ← dec_mul (dec_of_units (ll_granted l)) (set_low_water s);
  Ok (dec_leb (dec_of_units (ll_remaining_local l)) m).

Definition _schedule_topup (p : pool) (d : BudgetDimension) (h : Held) (loop : bool) : pool :=
  if hd_topping_up h || p_closed p then p
  else if negb loop then p
  else mkPool (<[d := mkHeld (hd_lease h) true (hd_mandate_exhausted h)]> (p_held p))
         (p_closed p) (d :: p_tasks p).

Definition _maybe_schedule_topup (s : PoolSettings) (p : pool) (d : BudgetDimension) (h : Held)
    (now : Z) (loop : bool) : py pool :=
  if hd_topping_up h || p_closed p then Ok p else
  dr ← drained s (hd_lease h);
  if dr || lease_stale s (hd_lease h) now then Ok (_schedule_topup p d h loop) else Ok p.

(** [_topup]'s [finally]: one task for [d] is done. *)
Definition topup_done (p : pool) (d : BudgetDimension) : pool :=
  let tasks := match list_find (eq d) (p_tasks p) with
               | Some (i, _) => delete i (p_tasks p)
               | None => p_tasks p
               end in
  match p_held p !! d with
  | Some h => mkPool (<[d := mkHeld (hd_lease h) false (hd_mandate_exhausted h)]> (p_held p))
                (p_closed p) tasks
  | None => mkPool (p_held p) (p_closed p) tasks
  end.

(** ** The hot path *)
Definition pool_reserve (s : PoolSettings) (p : pool) (d : BudgetDimension) (amount now : Z)
    (loop : bool) (rid : uuid) : py Reservation * pool :=
  match p_held p !! d with
  | None => (Raise ReservationInsufficientError, p)
  | Some h =>
      if p_closed p then (Raise ReservationInsufficientError, p) else
      match reserve (hd_lease h) amount now (set_skew s) rid with
      | (Raise e, _) => (Raise e, p)
      | (Ok r, l) =>
          let h := mkHeld l (hd_topping_up h) (hd_mandate_exhausted h) in
          let p := put_held p d h in
          match _maybe_schedule_topup s p d h now loop with
          | Ok p => (Ok r, p)
          | Raise e => (Raise e, p)
          end
      end
  end.

(** [LeasePool.commit]: against the lease held {e now}, whichever it is. *)
Definition pool_commit (s : PoolSettings) (p : pool) (d : BudgetDimension) (r : Reservation)
    (actual now : Z) (fresh : uuid) : py CommitOutcome * pool :=
  match p_held p !! d with
  | None => (Raise ReservationInsufficientError, p)
  | Some h =>
      let '(o, l) := commit (hd_lease h) r actual now (set_skew s) fresh in
      (o, put_held p d (mkHeld l (hd_topping_up h) (hd_mandate_exhausted h)))
  end.

(** The condition on which [check] refuses a held lease. *)
Definition lease_refuses (s : PoolSettings) (l : LocalLease) (amount now : Z) : bool :=
  lease_stale s l now || (ll_remaining_local l <? amount).

(** [check]: the first dimension that cannot be covered, in the order asked. *)
Fixpoint pool_check (s : PoolSettings) (p : pool) (requested : list (BudgetDimension * Z))
    (now : Z) (loop : bool) : py BudgetVerdict * pool :=
  match requested with
  | [] => (Ok (mkBudgetVerdict true None false), p)
  | (d, amount) :: rest =>
      if amount <=? 0 then pool_check s p rest now loop else
      match p_held p !! d with
      | None => (Ok (mkBudgetVerdict false (Some d) false), p)
      | Some h =>
          if p_closed p then (Ok (mkBudgetVerdict false (Some d) false), p)
          else if lease_refuses s (hd_lease h) amount now then
            match _maybe_schedule_topup s p d h now loop with
            | Ok p => (Ok (mkBudgetVerdict false (Some d) (hd_mandate_exhausted h)), p)
            | Raise e => (Raise e, p)
            end
          else pool_check s p rest now loop
      end
  end.

Definition remaining (p : pool) (d : BudgetDimension) : Z :=
  match p_held p !! d with Some h => ll_remaining_local (hd_lease h) | None => 0 end.

(** ** Renewal *)

(** [ttl / 2], on a [timedelta]: microseconds, rounded half to even. *)
Definition _renew_margin (s : PoolSettings) : Z :=
  let q := set_ttl s / 2 in
  if Z.even (set_ttl s) || Z.even q then q else q + 1.

Definition _renew_due (s : PoolSettings) (h : Held) (now : Z) : bool :=
  negb (bool_decide (ll_state (hd_lease h) = ACTIVE))
  || (ll_expires_at (hd_lease h) - _renew_margin s <=? now).

(** One sweep of [_renew_forever]. *)
Definition renew_sweep (s : PoolSettings) (p : pool) (now : Z) : pool :=
  if p_closed p then p else
  foldl (λ p e, if _renew_due s e.2 now then _schedule_topup p e.1 e.2 true else p)
    p (map_to_list (p_held p)).

(** ** Shutdown: close, then retire every lease still active. *)
Definition aclose_pool (p : pool) : pool * list uuid :=
  let active := filter (λ e, ll_state (hd_lease e.2) = ACTIVE) (map_to_list (p_held p)) in
  let retire h :=
    if decide (ll_state (hd_lease h) = ACTIVE) then
      mkHeld (mkLocalLease (ll_id (hd_lease h)) (ll_granted (hd_lease h))
                (ll_remaining_local (hd_lease h)) (ll_expires_at (hd_lease h)) RELEASED)
        (hd_topping_up h) (hd_mandate_exhausted h)
    else h in
  (mkPool (retire <$> p_held p) true (p_tasks p), (λ e, ll_id (hd_lease e.2)) <$> active).

(** ** The ledger as the pool's client (scripts/pep_service.py) *)
Definition client_acquire (d : db) (s : PoolSettings) (mandate : uuid) (dim : BudgetDimension)
    (now : Z) (lid : uuid) : py (option LeaseGrant) * db :=
  match acquire d mandate (dimension_value dim) (dec_of_units (set_lease_size s)) (set_pep_id s) (set_ttl s)
          now None lid with
  | (Ok lease, d) =>
      (Ok (if dec_leb (lo_granted lease) dec_zero then None
           else Some (mkGrant lid (numeric_round (lo_granted lease)) (lo_expires_at lease))), d)
  | (Raise LeaseUnavailableError, d) => (Ok None, d)
  | (Raise e, d) => (Raise e, d)
  end.

Definition client_release (d : db) (lid : uuid) : py bool * db := release d lid.

(** ** Properties *)

(** A pool's bookkeeping: one running top-up per dimension, and exactly for the
    dimensions marked as topping up. *)
Definition tasks_ok (p : pool) : Prop :=
  NoDup (p_tasks p) ∧
  ∀ d, d ∈ p_tasks p ↔ ∃ h, p_held p !! d = Some h ∧ hd_topping_up h = true.

Lemma tasks_ok_put p d h h' :
  tasks_ok p → p_held p !! d = Some h → hd_topping_up h' = hd_topping_up h →
  tasks_ok (put_held p d h').
Proof.
  intros [Hnd Hp] Hd Ht. split; [done|]. intros k. rewrite Hp. simpl.
  destruct (decide (d = k)) as [<-|].
  - rewrite lookup_insert_eq, Hd. naive_solver congruence.
  - by rewrite lookup_insert_ne.
Qed.

Lemma schedule_tasks_ok p d h loop :
  tasks_ok p → p_held p !! d = Some h → tasks_ok (_schedule_topup p d h loop).
Proof.
  intros Hok Hd. pose proof Hok as [Hnd Hp]. unfold _schedule_topup.
  destruct (hd_topping_up h) eqn:Ht; [done|]. destruct (p_closed p); [done|].
  destruct loop; [|done]. simpl. split; simpl.
  - apply NoDup_cons. split; [|done]. rewrite Hp. naive_solver congruence.
  - intros k. rewrite elem_of_cons, Hp. destruct (decide (d = k)) as [<-|].
    + rewrite lookup_insert_eq. naive_solver.
    + rewrite lookup_insert_ne by done. naive_solver.
Qed.

Lemma maybe_schedule_tasks_ok s p d h now loop p' :
  tasks_ok p → p_held p !! d = Some h → _maybe_schedule_topup s p d h now loop = Ok p' →
  tasks_ok p'.
Proof.
  intros Hok Hd. unfold _maybe_schedule_topup.
  destruct (_ || _); [by intros [= <-]|].
  intros (dr & _ & H)%bind_Ok_inv. destruct (_ || _); injection H as <-; [|done].
  by apply schedule_tasks_ok.
Qed.

Lemma acquire_reply_tasks_ok p d g : tasks_ok p → tasks_ok (acquire_reply p d g).1.1.
Proof.
  intros Hok. pose proof Hok as [Hnd Hp]. unfold acquire_reply.
  destruct g as [g|], (p_held p !! d) as [h|] eqn:Hd; simpl; try done.
  - by eapply tasks_ok_put.
  - split; [done|]. intros k. rewrite Hp. simpl. destruct (decide (d = k)) as [<-|].
    + rewrite lookup_insert_eq, Hd. naive_solver.
    + by rewrite lookup_insert_ne.
  - by eapply tasks_ok_put.
Qed.

Lemma list_find_NoDup (d : BudgetDimension) l i x :
  NoDup l → list_find (eq d) l = Some (i, x) → ∀ k, k ∈ delete i l ↔ k ∈ l ∧ k ≠ d.
Proof.
  intros Hnd (Hi & <- & _)%list_find_Some k.
  rewrite (delete_Permutation _ _ _ Hi) in Hnd. apply NoDup_cons in Hnd as [Hn _].
  rewrite (delete_Permutation l i d Hi) at 2. set_solver.
Qed.

Lemma topup_done_tasks_ok p d : tasks_ok p → tasks_ok (topup_done p d).
Proof.
  intros Hok. pose proof Hok as [Hnd Hp]. unfold topup_done.
  set (ts := match list_find _ _ with Some _ => _ | None => _ end).
  assert (NoDup ts ∧ ∀ k, k ∈ ts ↔ k ∈ p_tasks p ∧ k ≠ d) as [Hnd' Hts].
  { unfold ts. destruct (list_find (eq d) (p_tasks p)) as [[i x]|] eqn:Hf.
    - split; [|by eapply list_find_NoDup].
      apply list_find_Some in Hf as (Hi & _). rewrite (delete_Permutation _ _ _ Hi) in Hnd.
      by apply NoDup_cons in Hnd as [_ ?].
    - split; [done|]. apply list_find_None in Hf. rewrite Forall_forall in Hf. naive_solver. }
  destruct (p_held p !! d) as [h|] eqn:Hd; (split; [done|]); intros k; simpl; rewrite Hts, Hp.
  - destruct (decide (d = k)) as [<-|]; [rewrite lookup_insert_eq|rewrite lookup_insert_ne by done];
      naive_solver.
  - naive_solver congruence.
Qed.

Lemma check_tasks_ok s reqs : ∀ p now loop v p',
  tasks_ok p → pool_check s p reqs now loop = (v, p') → tasks_ok p'.
Proof.
  induction reqs as [|[d a] reqs IH]; intros p now loop v p' Hok; simpl; [by intros [= _ <-]|].
  destruct (a <=? 0); [by apply IH|]. destruct (p_held p !! d) as [h|] eqn:Hd; [|by intros [= _ <-]].
  destruct (p_closed p); [by intros [= _ <-]|]. destruct (lease_refuses _ _ _ _); [|by apply IH].
  destruct (_maybe_schedule_topup _ _ _ _ _ _) eqn:Hm; intros [= _ <-]; [|done].
  by eapply maybe_schedule_tasks_ok.
Qed.

(** One ACQUIRE at a time per dimension.  Reserving, checking, settling,
    ledger replies and finished top-ups all keep the set of running top-up tasks free
    of duplicates and equal to the dimensions marked [topping_up]. *)
Theorem topups_exclusive (s : PoolSettings) (p : pool) (d : BudgetDimension) (amount now : Z)
    (loop : bool) (rid : uuid) (r : Reservation) (g : option LeaseGrant)
    (reqs : list (BudgetDimension * Z)) :
  tasks_ok p →
  tasks_ok (pool_reserve s p d amount now loop rid).2
  ∧ tasks_ok (pool_check s p reqs now loop).2
  ∧ tasks_ok (pool_commit s p d r amount now rid).2
  ∧ tasks_ok (acquire_reply p d g).1.1
  ∧ tasks_ok (topup_done p d).
Proof.
  intros Hok. split_and!.
  - unfold pool_reserve. destruct (p_held p !! d) as [h|] eqn:Hd; [|done].
    destruct (p_closed p); [done|].
    destruct (reserve _ _ _ _ _) as [[r'|e] l]; [|done].
    set (h' := mkHeld _ _ _).
    assert (tasks_ok (put_held p d h')) as Hok' by (by eapply tasks_ok_put).
    destruct (_maybe_schedule_topup _ _ _ _ _ _) eqn:Hm; [|done].
    eapply maybe_schedule_tasks_ok; [exact Hok'|apply lookup_insert_eq|exact Hm].
  - destruct (pool_check s p reqs now loop) eqn:Hc. by eapply check_tasks_ok.
  - unfold pool_commit. destruct (p_held p !! d) as [h|] eqn:Hd; [|done].
    destruct (commit _ _ _ _ _ _). by eapply tasks_ok_put.
  - by apply acquire_reply_tasks_ok.
  - by apply topup_done_tasks_ok.
Qed.

Definition demo_settings : PoolSettings :=
  mkPoolSettings (u "pep-1") 500000 60000000 5000000 (Dec 25 (-2)).
Definition demo_pool : pool :=
  (acquire_reply empty_pool SPEND_BDT (Some (mkGrant 3%N 500000 60000000))).1.1.

Lemma topups_exclusive_witness :
  p_tasks (pool_reserve demo_settings demo_pool SPEND_BDT 400000 0 true 7%N).2 = [SPEND_BDT]
  ∧ tasks_ok (pool_reserve demo_settings demo_pool SPEND_BDT 400000 0 true 7%N).2.
Proof.
  split; [vm_compute; reflexivity|].
  apply (topups_exclusive demo_settings demo_pool SPEND_BDT 400000 0 true 7%N
           (mkReservation 7%N 3%N 0) None []).
  apply acquire_reply_tasks_ok. split; [constructor|]. intros d. simpl.
  rewrite lookup_empty. split; [by intros ?%elem_of_nil|by intros (h & ? & _)].
Defined.

Lemma reserve_refuses s l amount now rid :
  0 < amount →
  (reserve l amount now (set_skew s) rid).1 =
    if lease_refuses s l amount now then Raise ReservationInsufficientError
    else Ok (mkReservation rid (ll_id l) amount).
Proof.
  intros Ha. unfold reserve, lease_refuses, lease_stale.
  rewrite (proj2 (Z.ltb_ge amount 0)) by lia.
  case_bool_decide; simpl; [|done]. destruct (_ <=? now); simpl; [done|].
  by destruct (_ <? amount).
Qed.

Lemma maybe_schedule_exn s p d h now loop e :
  _maybe_schedule_topup s p d h now loop = Raise e → e = DecimalOverflow.
Proof.
  unfold _maybe_schedule_topup, drained, dec_mul, dec_fix.
  destruct (_ || _); [done|]. destruct (dcoef _ =? 0); simpl.
  { by destruct (_ || _). }
  destruct (Emax <? _); simpl; [congruence|]. by destruct (_ || _).
Qed.

(** The budget verdict and the spend agree.  If [check] answers ok, a [reserve]
    of any positive amount it was asked about, at the same instant, is not refused and
    the pool was left alone; if it refuses, the dimension it names is one it was asked
    about, and reserving that amount raises [ReservationInsufficientError]. *)
Theorem check_agrees_with_reserve (s : PoolSettings) (p p' : pool)
    (reqs : list (BudgetDimension * Z)) (now : Z) (loop : bool) (v : BudgetVerdict) :
  pool_check s p reqs now loop = (Ok v, p') →
  if bv_ok v then
    p' = p ∧ ∀ d a rid, (d, a) ∈ reqs → 0 < a →
      (pool_reserve s p d a now loop rid).1 ≠ Raise ReservationInsufficientError
  else
    ∃ d a, (d, a) ∈ reqs ∧ 0 < a ∧ bv_exhausted_dimension v = Some d ∧
      ∀ rid, (pool_reserve s p d a now loop rid).1 = Raise ReservationInsufficientError.
Proof.
  intros Hc. revert Hc. induction reqs as [|[d a] reqs IH]; simpl.
  { intros [= <- <-]. simpl. split; [done|]. intros ??? []%elem_of_nil. }
  destruct (Z.leb_spec a 0) as [Ha|Ha].
  { intros H%IH. destruct (bv_ok v).
    - destruct H as [-> H]. split; [done|]. intros d' a' rid [[= -> ->]|?]%elem_of_cons ?; [lia|eauto].
    - destruct H as (d' & a' & ? & H). exists d', a'. split; [set_solver|done]. }
  destruct (p_held p !! d) as [h|] eqn:Hd.
  2: { intros [= <- <-]. exists d, a. split_and!; [set_solver|done|done|].
       intros rid. unfold pool_reserve. by rewrite Hd. }
  destruct (p_closed p) eqn:Hcl.
  { intros [= <- <-]. exists d, a. split_and!; [set_solver|done|done|].
    intros rid. unfold pool_reserve. by rewrite Hd, Hcl. }
  destruct (lease_refuses s (hd_lease h) a now) eqn:Hr.
  { destruct (_maybe_schedule_topup _ _ _ _ _ _); intros [= <- <-]. simpl.
    exists d, a. split_and!; [set_solver|done|done|]. intros rid. unfold pool_reserve.
    rewrite Hd, Hcl. pose proof (reserve_refuses s (hd_lease h) a now rid Ha) as Hres.
    rewrite Hr in Hres. destruct (reserve _ _ _ _ _) as [[?|?] ?]; simpl in *; congruence. }
  intros H%IH. destruct (bv_ok v).
  2: { destruct H as (d' & a' & ? & H). exists d', a'. split; [set_solver|done]. }
  destruct H as [-> H]. split; [done|]. intros d' a' rid [[= -> ->]|?]%elem_of_cons Ha'; [|eauto].
  unfold pool_reserve. rewrite Hd, Hcl.
  pose proof (reserve_refuses s (hd_lease h) a now rid Ha) as Hres. rewrite Hr in Hres.
  destruct (reserve _ _ _ _ _) as [[r|e] l]; simpl in Hres; [|done].
  destruct (_maybe_schedule_topup _ _ _ _ _ _) as [p'|e] eqn:Hm; [done|].
  apply maybe_schedule_exn in Hm as ->. done.
Qed.

Lemma check_agrees_with_reserve_witness :
  (pool_reserve demo_settings demo_pool SPEND_BDT 400000 0 true 7%N).1
    ≠ Raise ReservationInsufficientError.
Proof.
  apply (check_agrees_with_reserve demo_settings demo_pool demo_pool
    [(TOOL_CALLS, 0); (SPEND_BDT, 400000)] 0 true (mkBudgetVerdict true None false)
    ltac:(vm_compute; reflexivity)); [set_solver|lia].
Defined.

(** The sweep schedules a top-up for every held lease that is due and has none. *)
Lemma sweep_tasks s now l : ∀ p,
  p_closed p = false →
  let p' := foldl (λ p (e : BudgetDimension * Held),
              if _renew_due s e.2 now then _schedule_topup p e.1 e.2 true else p) p l in
  (∀ d, d ∈ p_tasks p → d ∈ p_tasks p')
  ∧ ∀ d h, (d, h) ∈ l → _renew_due s h now = true → hd_topping_up h = false → d ∈ p_tasks p'.
Proof.
  induction l as [|[d0 h0] l IH]; intros p Hcl; simpl; [by split; [|intros ?? ?%elem_of_nil]|].
  set (p1 := if _renew_due s h0 now then _schedule_topup p d0 h0 true else p).
  assert (p_closed p1 = false ∧ (∀ d, d ∈ p_tasks p → d ∈ p_tasks p1)
          ∧ (_renew_due s h0 now = true → hd_topping_up h0 = false → d0 ∈ p_tasks p1)) as (Hcl1 & Hsub & Hnew).
  { unfold p1, _schedule_topup. destruct (_renew_due s h0 now); [|done]. rewrite Hcl, orb_false_r.
    destruct (hd_topping_up h0); [done|]. simpl. split_and!; [done|set_solver|set_solver]. }
  destruct (IH p1 Hcl1) as [IH1 IH2]. split; [auto|].
  intros d h [[= -> ->]|Hin]%elem_of_cons; eauto.
Qed.

(** The instants of the sweeps of [_renew_forever], each a sleep of [ttl / 4] after the
    one before, woken at most [late] after it was due. *)
Definition sweeps (s : PoolSettings) (late : Z) (ts : nat → Z) : Prop :=
  ∀ n, ts n < ts (S n) ∧ 4 * (ts (S n) - ts n) <= set_ttl s + 4 * late.

Lemma renew_margin_half s : set_ttl s - 1 <= 2 * _renew_margin s <= set_ttl s + 1.
Proof.
  unfold _renew_margin. pose proof (Z.div_mod (set_ttl s) 2 ltac:(lia)).
  pose proof (Z.mod_pos_bound (set_ttl s) 2 ltac:(lia)).
  pose proof (Zmod_even (set_ttl s)) as Hpar.
  destruct (Z.even (set_ttl s)); simpl; [lia|]. destruct (Z.even _); lia.
Qed.

(** The first sweep at or past an instant comes at most one gap after it. *)
Lemma first_sweep s late ts t :
  sweeps s late ts → ts 0%nat < t →
  ∃ n, ts n < t <= ts (S n) ∧ ∀ m, (m <= n)%nat → ts m < t.
Proof.
  intros Hs H0.
  assert (∀ m n, (m <= n)%nat → ts m <= ts n) as Hmono.
  { intros m n. induction 1 as [|n _ IH]; [lia|]. pose proof (Hs n). lia. }
  assert (∀ n, ts 0%nat + Z.of_nat n <= ts n) as Hgrow.
  { induction n as [|n IH]; [lia|]. pose proof (Hs n). lia. }
  assert (∀ k, t <= ts k → ∃ n, ts n < t <= ts (S n)) as Hfind.
  { induction k as [|k IH]; [lia|]. intros Hk. destruct (Z.lt_ge_cases (ts k) t); [by exists k|auto]. }
  destruct (Hfind (Z.to_nat (t - ts 0%nat))) as (n & Hn).
  { pose proof (Hgrow (Z.to_nat (t - ts 0%nat))). lia. }
  exists n. split; [done|]. intros m Hm. specialize (Hmono m n Hm). lia.
Qed.

(** C40: renewal comes before refusal.  The settings [PoolSettings] accepts put the
    instant a lease becomes due for renewal strictly before the instant the request path
    starts refusing it, except that [ttl / 2] rounds down onto the skew itself when the
    ttl exceeds twice an even skew by one microsecond; a lease too stale to spend from is
    always already due.  And the sweep is there in time: when the ttl is at least four
    times the skew and the sweeps' lateness together (and two microseconds), a lease
    usable at one sweep is found due by a sweep at which, as at every sweep before, it is
    still usable, and that sweep schedules the top-up of its dimension unless one is
    running. *)
Theorem renewal_precedes_refusal (s : PoolSettings) (h : Held) (late : Z) (ts : nat → Z) :
  0 <= set_skew s → check_pool_settings s = Ok s →
  (set_skew s < _renew_margin s ∨ set_ttl s = 2 * set_skew s + 1 ∧ Z.even (set_skew s) = true)
  ∧ (∀ now, lease_stale s (hd_lease h) now = true → _renew_due s h now = true)
  ∧ (4 * (set_skew s + late) + 2 <= set_ttl s → sweeps s late ts →
     lease_stale s (hd_lease h) (ts 0%nat) = false →
     ∃ n, (∀ m, (m <= n)%nat → lease_stale s (hd_lease h) (ts m) = false)
       ∧ ∀ p d, p_closed p = false → p_held p !! d = Some h → hd_topping_up h = false →
           d ∈ p_tasks (renew_sweep s p (ts n))).
Proof.
  intros Hs Hok. unfold check_pool_settings in Hok.
  destruct (_ <=? 0); [done|]. cbn [raise_if mbind res_bind] in Hok.
  destruct (negb _); [done|]. cbn [raise_if mbind res_bind] in Hok.
  destruct (Z.leb_spec (set_ttl s) (2 * set_skew s)) as [|Httl]; [done|]. clear Hok.
  pose proof (renew_margin_half s) as Hm.
  assert (set_skew s <= _renew_margin s) as Hle by lia.
  split_and!.
  - destruct (decide (set_ttl s = 2 * set_skew s + 1)) as [He|]; [|left; lia].
    destruct (Z.even (set_skew s)) eqn:Hev; [by right|left].
    unfold _renew_margin. rewrite He, Z.even_add, Z.even_mul. cbn [Z.even orb eqb].
    rewrite (Z.mul_comm 2), Z.div_add_l by lia. change (1 / 2) with 0. rewrite Z.add_0_r, Hev. simpl. lia.
  - intros now Hst. unfold lease_stale in Hst. unfold _renew_due. apply orb_true_iff.
    apply orb_true_iff in Hst as [?|Hst]; [by left|right]. apply Z.leb_le in Hst. apply Z.leb_le. lia.
  - intros Hlate Hsw H0. unfold lease_stale in H0 |- *. apply orb_false_iff in H0 as [Hact H0].
    apply Z.leb_gt in H0. set (due := ll_expires_at (hd_lease h) - _renew_margin s).
    assert (∀ now, due <= now → _renew_due s h now = true) as Hdue.
    { intros now Hnow. unfold _renew_due. apply orb_true_iff. right. by apply Z.leb_le. }
    assert (∀ n, (∀ m, (m <= n)%nat → ts m < ll_expires_at (hd_lease h) - set_skew s) → due <= ts n →
      ∃ n, (∀ m, (m <= n)%nat → negb (bool_decide (ll_state (hd_lease h) = ACTIVE))
                || (ll_expires_at (hd_lease h) - set_skew s <=? ts m) = false)
       ∧ ∀ p d, p_closed p = false → p_held p !! d = Some h → hd_topping_up h = false →
           d ∈ p_tasks (renew_sweep s p (ts n))) as Hfin.
    { intros n Hn Hdn. exists n. split.
      - intros m Hmn. rewrite Hact. simpl. apply Z.leb_gt. by apply Hn.
      - intros p d Hcl Hh Htop. unfold renew_sweep. rewrite Hcl.
        eapply (sweep_tasks s (ts n)); [done| |by apply Hdue|done]. by apply elem_of_map_to_list. }
    destruct (Z.lt_ge_cases (ts 0%nat) due) as [Hlt|Hge].
    + destruct (first_sweep s late ts due Hsw Hlt) as (n & Hn & Hbefore).
      apply (Hfin (S n)); [|lia]. pose proof (Hsw n) as [_ Hgap]. intros m Hmn.
      destruct (decide (m = S n)) as [->|]; [unfold due in *; lia|].
      specialize (Hbefore m ltac:(lia)). unfold due in *. lia.
    + apply (Hfin 0%nat); [|done]. intros m Hm0. by replace m with 0%nat by lia.
Qed.

Lemma renewal_precedes_refusal_witness :
  let h := mkHeld (fresh_lease 3%N 500000 60000000) false false in
  let ts n := 15000000 * Z.of_nat n in
  _renew_due demo_settings h 55000000 = true
  ∧ ∃ n, lease_stale demo_settings (hd_lease h) (ts n) = false
    ∧ SPEND_BDT ∈ p_tasks (renew_sweep demo_settings demo_pool (ts n)).
Proof.
  intros h ts.
  destruct (renewal_precedes_refusal demo_settings h 1000000 ts) as (_ & Hdue & Hsweep);
    [vm_compute; discriminate|reflexivity|].
  split; [by apply Hdue|].
  destruct Hsweep as (n & Hn & Hp).
  - vm_compute; discriminate.
  - intros n. change (set_ttl demo_settings) with 60000000. unfold ts. split; lia.
  - reflexivity.
  - exists n. split; [by apply Hn|]. apply Hp; reflexivity.
Defined.

(** The two provisos are real.  A ttl of 12 s and a skew of 5 s are accepted, the lease is
    due for renewal only from 6 s to 7 s of its life, and sweeps 3 s apart can fall on
    either side; and a ttl one microsecond over twice the skew leaves no instant at all. *)
Example sweep_can_miss :
  let s := mkPoolSettings (u "pep-1") 500000 12000000 5000000 (Dec 25 (-2)) in
  let h := mkHeld (fresh_lease 3%N 500000 12000000) false false in
  check_pool_settings s = Ok s
  ∧ (λ t, (lease_stale s (hd_lease h) t, _renew_due s h t)) <$> [2500000; 5500000; 8500000]
    = [(false, false); (false, false); (true, true)].
Proof. split; vm_compute; reflexivity. Qed.

Example margin_rounds_onto_skew :
  let s := mkPoolSettings (u "pep-1") 500000 10000001 5000000 (Dec 25 (-2)) in
  check_pool_settings s = Ok s ∧ _renew_margin s = set_skew s.
Proof. split; vm_compute; reflexivity. Qed.

(** *** Replacing a lease under an open reservation

    [_acquire] swaps the lease and releases the old one, and [commit] settles
    against whatever lease is held by then.  [overspend] replays such a history
    against the real ledger: a pool of 100.0000, leases of 50.0000. *)
Definition spend_once (s : PoolSettings) (p : pool) (d : db) (amount now : Z)
    (rid fresh lid : uuid) : py Z * pool * db :=
  match pool_reserve s p SPEND_BDT amount now true rid with
  | (Raise e, p) => (Raise e, p, d)
  | (Ok r, p) =>
      (* the top-up the reservation scheduled runs to completion *)
      let '(p, d) :=
        match p_tasks p with
        | [] => (p, d)
        | _ =>
            let '(g, d) := client_acquire d s 10%N SPEND_BDT now lid in
            match g with
            | Raise _ => (topup_done p SPEND_BDT, d)
            | Ok g =>
                let '(p, _, old) := acquire_reply p SPEND_BDT g in
                let d := match old with Some k => (client_release d k).2 | None => d end in
                (topup_done p SPEND_BDT, d)
            end
        end in
      (* then the call finishes, commits the real amount, and it is settled *)
      match pool_commit s p SPEND_BDT r amount now fresh with
      | (Raise e, p) => (Raise e, p, d)
      | (Ok o, p) =>
          let '(_, d) := ledger_commit d (co_lease_id o) (co_reservation_id o)
                           (dec_of_units (co_amount o)) now in
          (Ok (co_amount o), p, d)
      end
  end.

Definition overspend_db : db :=
  run_ops empty_db
    [OpFund 1%N 10%N (u "spend_bdt") 1000000;
     OpAcquire 10%N (u "spend_bdt") 500000 (u "pep-1") 60000000 0 None 3%N].

(** [n] calls of 40.0000 each, and what they really spent. *)
Fixpoint spend_many (n : nat) (s : PoolSettings) (p : pool) (d : db) (total : Z)
    : Z * pool * db :=
  match n with
  | O => (total, p, d)
  | S n =>
      let k := N.of_nat n in
      match spend_once s p d 400000 1000 (100 + k)%N (200 + k)%N (300 + k)%N with
      | (Ok x, p, d) => spend_many n s p d (total + x)
      | (Raise _, p, d) => spend_many n s p d total
      end
  end.

(** a defect, made precise.  A top-up that replaces the lease while a
    reservation is open returns the reserved money to the pool, and the commit
    settles against the new lease: three calls that each reserved before spending, none
    of them escalated, really spend 120.0000 from a mandate of 100.0000, while the
    ledger's checker stays green with no more than 100.0000 committed. *)
Theorem topup_under_reservation_overspends :
  ∃ p d, spend_many 3 demo_settings demo_pool overspend_db 0 = (1200000, p, d)
    ∧ exit_code (check_in_session d) = 0 ∧ (b_total <$> budgets d !! 1%N) = Some 1000000
    ∧ (∃ c, (b_committed <$> budgets d !! 1%N) = Some c ∧ c <= 1000000).
Proof.
  eexists _, _. split; [vm_compute; reflexivity|].
  split; [vm_compute; reflexivity|]. split; [vm_compute; reflexivity|].
  eexists. split; [vm_compute; reflexivity|]. vm_compute. discriminate.
Qed.
