(* ===== verification/Caveats.v ===== *)
(** * The caveat DSL (agentiam_core/caveats.py)

    Compilation of a caveat to Datalog text, the request context's facts, and the
    evaluation of a caveat in Python.  The file Datalogic gives the emitted text its
    documented meaning and proves that the two agree. *)
From S2P Require Import Prelude PyText Errors PyNum PyTime PyRe Models.

(** ** Rendering primitives *)
Definition _NEGATED (op : ArgOperator) : pystr :=
  match op with
  | LE => u ">" | LT => u ">=" | GE => u "<" | GT => u "<=" | EQ => u "!=" | NE => u "=="
  | IN | NOT_IN => []      (* not in the table *)
  end.

Definition quote_string (value : pystr) : pystr :=
  let escaped := replace_char dquote [backslash; dquote]
                   (replace_char backslash [backslash; backslash] value) in
  [dquote] ++ escaped ++ [dquote].

(** [datalog_date]: [strftime] drops what is below a second. *)
Definition datalog_date (t : Z) : pystr := date_text (t / 1000000).

Definition scale (value : decimal) : py Z := scaled_or CaveatError value.

Inductive scalar := SNum (d : decimal) | SStr (s : pystr).

Definition _term (v : scalar) : py pystr :=
  match v with
  | SStr s => Ok (quote_string s)
  | SNum d => n ← scale d; Ok (py_str_int n)
  end.

Definition _set_literal (values : gset pystr) : pystr :=
  u "[" ++ py_join (u ", ") (quote_string <$> py_sorted (elements values)) ++ u "]".

(** ** Results *)
Record CaveatResult := mkResult { res_outcome : Outcome; res_reason : ReasonCode; res_detail : fstr }.

Definition allowed (r : CaveatResult) : bool := bool_decide (res_outcome r = ALLOW).
Definition result_allow : CaveatResult := mkResult ALLOW OK no_detail.
Definition result_deny (r : ReasonCode) (d : fstr) : CaveatResult := mkResult DENY r d.
Definition result_escalate (d : fstr) : CaveatResult := mkResult ESCALATE APPROVAL_REQUIRED d.

(** ** Compilation *)
Definition scalar_of (v : caveat_value) : py scalar :=
  match v with
  | CNum d => Ok (SNum d)
  | CStr s => Ok (SStr s)
  | CSet _ => Raise TypeError
  end.
Definition set_of (v : caveat_value) : py (gset pystr) :=
  match v with CSet X => Ok X | _ => Raise TypeError end.

Definition to_datalog (c : Caveat) : py pystr :=
  match c with
  | ScopeSubset scopes =>
      Ok (u "check if operation($op), " ++ _set_literal scopes ++ u ".contains($op);")
  | BudgetCeiling d value =>
      n ← scale (dec_of_units value);
      Ok (u "check if requested(" ++ quote_string (dimension_value d) ++ u ", $v), $v <= "
          ++ py_str_int n ++ u ";")
  | TimeWindow nb na =>
      let lower := match nb with
                   | Some t => [u "check if time($t), $t >= " ++ datalog_date t ++ u ";"]
                   | None => [] end in
      let upper := match na with
                   | Some t => [u "check if time($t), $t < " ++ datalog_date t ++ u ";"]
                   | None => [] end in
      Ok (py_join [newline] (lower ++ upper))
  | ToolAllow tools => Ok (u "check if tool($t), " ++ _set_literal tools ++ u ".contains($t);")
  | ToolDeny tools => Ok (u "reject if tool($t), " ++ _set_literal tools ++ u ".contains($t);")
  | ArgPredicate path op value =>
      let path := quote_string path in
      match op with
      | IN =>
          X ← set_of value;
          Ok (u "reject if arg(" ++ path ++ u ", $v), !" ++ _set_literal X ++ u ".contains($v);")
      | NOT_IN =>
          X ← set_of value;
          Ok (u "reject if arg(" ++ path ++ u ", $v), " ++ _set_literal X ++ u ".contains($v);")
      | _ =>
          v ← scalar_of value;
          t ← _term v;
          Ok (u "reject if arg(" ++ path ++ u ", $v), $v " ++ _NEGATED op ++ u " " ++ t ++ u ";")
      end
  | DepthLimit n => Ok (u "check if current_depth($d), $d <= " ++ py_str_int n ++ u ";")
  | IntentBound h => Ok (u "check if request_intent($h), $h == " ++ quote_string h ++ u ";")
  | RequiresApproval scopes =>
      Ok (py_join [newline]
            ((λ s, u "requires_approval(" ++ quote_string s ++ u ");")
               <$> py_sorted (elements scopes)))
  end.

Definition scalar_of_arg (v : arg_value) : scalar :=
  match v with VNum d => SNum d | VStr s => SStr s end.

(** [sorted(ctx.args.items())]: by path, which is unique. *)
Definition sorted_args (ctx : RequestContext) : list (pystr * arg_value) :=
  omap (λ k, pair k <$> (ctx_args ctx !! k)) (py_sorted (map_to_list (ctx_args ctx)).*1).

Definition request_context_datalog (ctx : RequestContext) : py pystr :=
  let lines :=
    [u "operation(" ++ quote_string (operation ctx) ++ u ");";
     u "current_depth(" ++ py_str_int (current_depth ctx) ++ u ");";
     u "request_intent(" ++ quote_string (request_intent ctx) ++ u ");";
     u "time(" ++ datalog_date (ctx_now ctx) ++ u ");"] in
  req ← res_map (λ d, n ← scale (dec_of_units (requested_of ctx d));
                      Ok (u "requested(" ++ quote_string (dimension_value d) ++ u ", "
                          ++ py_str_int n ++ u ");")) all_dimensions;
  let tool := match ctx_tool ctx with
              | Some t => [u "tool(" ++ quote_string t ++ u ");"]
              | None => [] end in
  args ← res_map (λ p, t ← _term (scalar_of_arg p.2);
                       Ok (u "arg(" ++ quote_string p.1 ++ u ", " ++ t ++ u ");"))
           (sorted_args ctx);
  Ok (py_join [newline] (lines ++ req ++ tool ++ args)).

(** ** Evaluation *)

(** [Decimal(str(x))]. *)
Definition decimal_of_scalar (v : scalar) : py pydec :=
  match v with
  | SNum d => Ok (DFin d)
  | SStr s => match parse_decimal s with Some d => Ok d | None => Raise InvalidOperation end
  end.

Definition scalar_eqb (a b : scalar) : bool :=
  match a, b with
  | SNum x, SNum y => dec_eqb x y
  | SStr x, SStr y => bool_decide (x = y)
  | _, _ => false
  end.

Definition _compare (left : scalar) (op : ArgOperator) (right : scalar) : py bool :=
  match op with
  | EQ => Ok (scalar_eqb left right)
  | NE => Ok (negb (scalar_eqb left right))
  | _ =>
      lhs ← decimal_of_scalar left;
      rhs ← decimal_of_scalar right;
      match op with
      | LE => c ← pydec_compare lhs rhs; Ok (negb (bool_decide (c = Gt)))
      | LT => c ← pydec_compare lhs rhs; Ok (bool_decide (c = Lt))
      | GE => c ← pydec_compare lhs rhs; Ok (negb (bool_decide (c = Lt)))
      | GT => c ← pydec_compare lhs rhs; Ok (bool_decide (c = Gt))
      | _ => Raise CaveatError
      end
  end.

(** [actual in values]: a number is never a member of a set of strings. *)
Definition arg_in (actual : arg_value) (X : gset pystr) : bool :=
  match actual with VStr s => bool_decide (s ∈ X) | VNum _ => false end.

Definition op_value (op : ArgOperator) : pystr :=
  match op with
  | LE => u "le" | LT => u "lt" | GE => u "ge" | GT => u "gt" | EQ => u "eq" | NE => u "ne"
  | IN => u "in" | NOT_IN => u "not_in"
  end.

Definition evaluate (c : Caveat) (ctx : RequestContext) : py CaveatResult :=
  match c with
  | ScopeSubset scopes =>
      Ok (if bool_decide (operation ctx ∈ scopes) then result_allow
          else result_deny SCOPE_ATTENUATED_AWAY
                 (F "operation {!r} is not in this token's scope set" [FStr (operation ctx)]))
  | BudgetCeiling d value =>
      Ok (if requested_of ctx d <=? value then result_allow
          else result_deny BUDGET_EXHAUSTED_CAVEAT
                 (F "request exceeds the {} ceiling of {}"
                    [FStr (dimension_value d); FDec (dec_of_units value)]))
  | TimeWindow nb na =>
      let early := match nb with Some t => ctx_now ctx <? t | None => false end in
      let late := match na with Some t => t <=? ctx_now ctx | None => false end in
      Ok (if early then
            result_deny TOKEN_NOT_YET_VALID
              (F "caveat is not valid before {}" [FInstant (default 0 nb)])
          else if late then
            result_deny TOKEN_EXPIRED (F "caveat expired at {}" [FInstant (default 0 na)])
          else result_allow)
  | ToolAllow tools =>
      Ok (match ctx_tool ctx with
          | Some t => if bool_decide (t ∈ tools) then result_allow else
                        result_deny TOOL_DENIED
                          (F "tool is absent or not in this token's allow-list" [])
          | None => result_deny TOOL_DENIED
                      (F "tool is absent or not in this token's allow-list" [])
          end)
  | ToolDeny tools =>
      Ok (match ctx_tool ctx with
          | Some t => if bool_decide (t ∈ tools) then
                        result_deny TOOL_DENIED
                          (F "tool {!r} is on this token's deny-list" [FStr t])
                      else result_allow
          | None => result_allow
          end)
  | ArgPredicate path op value =>
      match ctx_args ctx !! path with
      | None => Ok result_allow
      | Some actual =>
          satisfied ←
            match op with
            | IN => X ← set_of value; Ok (arg_in actual X)
            | NOT_IN => X ← set_of value; Ok (negb (arg_in actual X))
            | _ => v ← scalar_of value; _compare (scalar_of_arg actual) op v
            end;
          Ok (if satisfied : bool then result_allow
              else result_deny ARG_PREDICATE_FAILED
                     (F "argument {!r} fails the {} predicate" [FStr path; FStr (op_value op)]))
      end
  | DepthLimit n =>
      Ok (if current_depth ctx <=? n then result_allow
          else result_deny DEPTH_EXCEEDED
                 (F "depth {} exceeds the caveat limit of {}" [FInt (current_depth ctx); FInt n]))
  | IntentBound h =>
      Ok (if bool_decide (request_intent ctx = h) then result_allow
          else result_deny INTENT_MISMATCH (F "request is bound to a different task intent" []))
  | RequiresApproval scopes =>
      Ok (if bool_decide (operation ctx ∈ scopes) then
            result_escalate (F "operation {!r} requires human approval" [FStr (operation ctx)])
          else result_allow)
  end.

(** [block_datalog]: the non-empty clauses, one per line. *)
Definition block_datalog (caveats : list Caveat) : py pystr :=
  texts ← res_map to_datalog caveats;
  Ok (py_join [newline] (filter (λ t, t ≠ []) texts)).
