(* ===== verification/Datalogic.v ===== *)
(** * What the compiled Datalog means

    The clauses [Caveats.to_datalog] emits as a syntax tree, their rendering, and
    the documented semantics of biscuit's [check if] (some matching fact satisfies
    the body) and [reject if] (none does) over the request context's facts.  The
    biscuit library itself is not modelled: this is the reading of its language the
    specification gives, and [evaluate] is proved to agree with it. *)
From S2P Require Import Prelude PyText Errors PyNum PyTime PyRe Models Caveats.

Inductive term := TStr (s : pystr) | TInt (n : Z) | TDate (secs : Z).
#[global] Instance term_eq_dec : EqDecision term.
Proof. solve_decision. Defined.

Record fact := Fact { f_pred : string; f_terms : list term }.

Inductive cmp := CLe | CLt | CGe | CGt | CEq | CNe.

Inductive guard :=
| GContains (negated : bool) (X : gset pystr)
| GCompare (op : cmp) (t : term).

(** [check if p(k, $v), guard($v)] or [reject if ...]. *)
Record clause := Clause {
  cl_reject : bool; cl_pred : string; cl_key : option pystr; cl_var : string; cl_guard : guard }.

(** ** Rendering *)
Definition cmp_text (op : cmp) : pystr :=
  match op with
  | CLe => u "<=" | CLt => u "<" | CGe => u ">=" | CGt => u ">" | CEq => u "==" | CNe => u "!="
  end.

Definition render_term (t : term) : pystr :=
  match t with
  | TStr s => quote_string s | TInt n => py_str_int n | TDate t => date_text t
  end.

Definition render_fact (f : fact) : pystr :=
  u (f_pred f) ++ u "(" ++ py_join (u ", ") (render_term <$> f_terms f) ++ u ");".

Definition render_clause (c : clause) : pystr :=
  (if cl_reject c then u "reject if " else u "check if ")
  ++ u (cl_pred c) ++ u "("
  ++ match cl_key c with Some k => quote_string k ++ u ", " | None => [] end
  ++ u "$" ++ u (cl_var c) ++ u "), "
  ++ match cl_guard c with
     | GContains neg X =>
         (if neg then u "!" else []) ++ _set_literal X ++ u ".contains($" ++ u (cl_var c) ++ u ")"
     | GCompare op t =>
         u "$" ++ u (cl_var c) ++ u " " ++ cmp_text op ++ u " " ++ render_term t
     end ++ u ";".

(** ** Compilation to the tree *)
Definition negated_cmp (op : ArgOperator) : cmp :=
  match op with
  | LE => CGt | LT => CGe | GE => CLt | GT => CLe | EQ => CNe | NE => CEq
  | IN | NOT_IN => CEq
  end.

Definition term_of_scalar (v : scalar) : py term :=
  match v with SStr s => Ok (TStr s) | SNum d => n ← scale d; Ok (TInt n) end.

Definition compile (c : Caveat) : py (list clause) :=
  match c with
  | ScopeSubset X => Ok [Clause false "operation" None "op" (GContains false X)]
  | BudgetCeiling d v =>
      n ← scale (dec_of_units v);
      Ok [Clause false "requested" (Some (dimension_value d)) "v" (GCompare CLe (TInt n))]
  | TimeWindow nb na =>
      Ok (match nb with
          | Some t => [Clause false "time" None "t" (GCompare CGe (TDate (t / 1000000)))]
          | None => [] end
          ++ match na with
             | Some t => [Clause false "time" None "t" (GCompare CLt (TDate (t / 1000000)))]
             | None => [] end)
  | ToolAllow X => Ok [Clause false "tool" None "t" (GContains false X)]
  | ToolDeny X => Ok [Clause true "tool" None "t" (GContains false X)]
  | ArgPredicate path op v =>
      match op with
      | IN => X ← set_of v; Ok [Clause true "arg" (Some path) "v" (GContains true X)]
      | NOT_IN => X ← set_of v; Ok [Clause true "arg" (Some path) "v" (GContains false X)]
      | _ => s ← scalar_of v; t ← term_of_scalar s;
             Ok [Clause true "arg" (Some path) "v" (GCompare (negated_cmp op) t)]
      end
  | DepthLimit n => Ok [Clause false "current_depth" None "d" (GCompare CLe (TInt n))]
  | IntentBound h => Ok [Clause false "request_intent" None "h" (GCompare CEq (TStr h))]
  | RequiresApproval _ => Ok []
  end.

Definition context_facts (ctx : RequestContext) : py (list fact) :=
  req ← res_map (λ d, n ← scale (dec_of_units (requested_of ctx d));
                      Ok (Fact "requested" [TStr (dimension_value d); TInt n])) all_dimensions;
  args ← res_map (λ p, t ← term_of_scalar (scalar_of_arg p.2); Ok (Fact "arg" [TStr p.1; t]))
           (sorted_args ctx);
  Ok ([Fact "operation" [TStr (operation ctx)];
       Fact "current_depth" [TInt (current_depth ctx)];
       Fact "request_intent" [TStr (request_intent ctx)];
       Fact "time" [TDate (ctx_now ctx / 1000000)]]
      ++ req
      ++ match ctx_tool ctx with Some t => [Fact "tool" [TStr t]] | None => [] end
      ++ args).

(** ** Meaning *)

(** [None] is an execution error: an ordering on anything but two numbers or two
    dates. *)
Definition compare_terms (op : cmp) (a b : term) : option bool :=
  let order x y := Some match op with
                        | CLe => x <=? y | CLt => x <? y | CGe => y <=? x | CGt => y <? x
                        | CEq => x =? y | CNe => negb (x =? y) end in
  match a, b with
  | TInt x, TInt y | TDate x, TDate y => order x y
  | _, _ =>
      match op with
      | CEq => Some (bool_decide (a = b))
      | CNe => Some (negb (bool_decide (a = b)))
      | _ => None
      end
  end.

Definition guard_holds (g : guard) (v : term) : option bool :=
  match g with
  | GContains neg X => Some (xorb neg match v with TStr s => bool_decide (s ∈ X) | _ => false end)
  | GCompare op t => compare_terms op v t
  end.

(** The value a clause's body binds in a fact, if the fact matches. *)
Definition bound_value (c : clause) (f : fact) : option term :=
  if negb (String.eqb (f_pred f) (cl_pred c)) then None else
  match cl_key c, f_terms f with
  | None, [v] => Some v
  | Some k, [TStr k'; v] => if bool_decide (k = k') then Some v else None
  | _, _ => None
  end.

Definition clause_passes (facts : list fact) (c : clause) : bool :=
  let answers := guard_holds (cl_guard c) <$> omap (bound_value c) facts in
  if existsb (λ a, bool_decide (a = None)) answers then false
  else let some_match := existsb (λ a, bool_decide (a = Some true)) answers in
       if cl_reject c then negb some_match else some_match.

(** ** The text is the rendering of the tree *)
Lemma scalar_render s :
  _term s = (t ← term_of_scalar s; Ok (render_term t)).
Proof. destruct s as [d|s]; [|done]. simpl. by destruct (scale d). Qed.

Lemma u_app s t : u (String.append s t) = u s ++ u t.
Proof. induction s as [|a s IH]; simpl; [done|]. by rewrite IH. Qed.

Ltac flatten_text := repeat (rewrite <- ?app_assoc; simpl); try reflexivity.

Lemma to_datalog_compile c :
  (∀ X, c ≠ RequiresApproval X) →
  to_datalog c = (cls ← compile c; Ok (py_join [newline] (render_clause <$> cls))).
Proof.
  intros Hra. destruct c as [X|d v|nb na|X|X|path op v|n|h|X]; cbn [to_datalog compile].
  - unfold render_clause. simpl. flatten_text.
  - destruct (scale (dec_of_units v)); [|done]. unfold render_clause. simpl. flatten_text.
  - destruct nb, na; unfold render_clause; simpl; flatten_text.
  - unfold render_clause. simpl. flatten_text.
  - unfold render_clause. simpl. flatten_text.
  - destruct op; destruct v as [d|s|X]; try reflexivity; simpl;
      try (destruct (scale d); [|reflexivity]); unfold render_clause; simpl; flatten_text.
  - unfold render_clause. simpl. flatten_text.
  - unfold render_clause. simpl. flatten_text.
  - by edestruct Hra.
Qed.

Lemma res_map_render {A} (f : A → py pystr) (g : A → py fact) l :
  (∀ x, f x = (y ← g x; Ok (render_fact y))) →
  res_map f l = (ys ← res_map g l; Ok (map render_fact ys)).
Proof.
  intros Hfg. induction l as [|d l IH]; [done|]. simpl. rewrite Hfg, IH.
  destruct (g d); [|done]. simpl. by destruct (res_map g l).
Qed.

Lemma request_context_render ctx :
  request_context_datalog ctx
  = (fs ← context_facts ctx; Ok (py_join [newline] (render_fact <$> fs))).
Proof.
  unfold request_context_datalog, context_facts.
  rewrite (res_map_render _ (λ d, n ← scale (dec_of_units (requested_of ctx d));
                      Ok (Fact "requested" [TStr (dimension_value d); TInt n]))).
  2: { intros d. destruct (scale _); [|done]. simpl. unfold render_fact. simpl. flatten_text. }
  rewrite (res_map_render _ (λ p, t ← term_of_scalar (scalar_of_arg p.2); Ok (Fact "arg" [TStr p.1; t]))).
  2: { intros [p v]. simpl. rewrite scalar_render. destruct (term_of_scalar _); [|done].
       simpl. unfold render_fact. simpl. flatten_text. }
  destruct (res_map _ all_dimensions) as [req|]; [|done]. simpl.
  destruct (res_map _ (sorted_args ctx)) as [args|]; [|done]. simpl.
  do 2 f_equal. rewrite fmap_app. simpl.
  destruct (ctx_tool ctx) as [t|]; simpl; unfold render_fact; simpl; flatten_text.
Qed.

(** ** Reading facts back *)
Definition bound (c : clause) (fs : list fact) : list term := omap (bound_value c) fs.

Lemma bound_app c fs gs : bound c (fs ++ gs) = bound c fs ++ bound c gs.
Proof. apply omap_app. Qed.

Lemma bound_cons c f fs :
  bound c (f :: fs)
  = match bound_value c f with Some v => v :: bound c fs | None => bound c fs end.
Proof. reflexivity. Qed.

Lemma clause_passes_one fs c v b :
  bound c fs = [v] → guard_holds (cl_guard c) v = Some b →
  clause_passes fs c = xorb (cl_reject c) b.
Proof.
  unfold clause_passes, bound. intros -> Hg. simpl. rewrite Hg. simpl.
  by destruct (cl_reject c), b.
Qed.

Lemma clause_passes_none fs c : bound c fs = [] → clause_passes fs c = cl_reject c.
Proof. unfold clause_passes, bound. intros ->. simpl. by destruct (cl_reject c). Qed.

Lemma bound_other c fs :
  Forall (λ f, f_pred f ≠ cl_pred c) fs → bound c fs = [].
Proof.
  induction 1 as [|f fs Hf _ IH]; [done|]. unfold bound in *. simpl.
  unfold bound_value at 1. by rewrite (proj2 (String.eqb_neq _ _) Hf).
Qed.

Lemma res_map_pred {A} (g : A → py fact) p l fs :
  (∀ x f, g x = Ok f → f_pred f = p) → res_map g l = Ok fs → Forall (λ f, f_pred f = p) fs.
Proof.
  intros Hg H%res_map_Forall2. induction H; constructor; eauto.
Qed.

(** The three shapes of fact: the unkeyed ones, the amounts and the arguments. *)
Record facts_split (ctx : RequestContext) (fs req args : list fact) : Prop := {
  fs_eq : fs = [Fact "operation" [TStr (operation ctx)];
                Fact "current_depth" [TInt (current_depth ctx)];
                Fact "request_intent" [TStr (request_intent ctx)];
                Fact "time" [TDate (ctx_now ctx / 1000000)]]
               ++ req
               ++ match ctx_tool ctx with Some t => [Fact "tool" [TStr t]] | None => [] end
               ++ args;
  fs_req : Forall (λ f, f_pred f = "requested"%string) req;
  fs_args : Forall (λ f, f_pred f = "arg"%string) args }.

Lemma bound_unkeyed ctx fs req args c v :
  facts_split ctx fs req args →
  cl_pred c ≠ "requested"%string → cl_pred c ≠ "arg"%string →
  bound c ([Fact "operation" [TStr (operation ctx)];
            Fact "current_depth" [TInt (current_depth ctx)];
            Fact "request_intent" [TStr (request_intent ctx)];
            Fact "time" [TDate (ctx_now ctx / 1000000)]]
           ++ match ctx_tool ctx with Some t => [Fact "tool" [TStr t]] | None => [] end) = v →
  bound c fs = v.
Proof.
  intros [-> Hr Ha] H1 H2 <-. rewrite !bound_app.
  rewrite (bound_other c req), (bound_other c args); [by rewrite app_nil_r| |].
  - eapply Forall_impl; [exact Ha|]. intros ? ->. done.
  - eapply Forall_impl; [exact Hr|]. intros ? ->. done.
Qed.

Lemma bound_requested ctx fs req args c :
  facts_split ctx fs req args → cl_pred c = "requested"%string → bound c fs = bound c req.
Proof.
  intros [-> Hr Ha] H. rewrite !bound_app.
  rewrite (bound_other c args); [|eapply Forall_impl; [exact Ha|]; intros ? ->; by rewrite H].
  rewrite app_nil_r.
  destruct (ctx_tool ctx); unfold bound; simpl; unfold bound_value; simpl; rewrite H; simpl;
    by rewrite ?app_nil_r.
Qed.

Lemma bound_args ctx fs req args c :
  facts_split ctx fs req args → cl_pred c = "arg"%string → bound c fs = bound c args.
Proof.
  intros [-> Hr Ha] H. rewrite !bound_app.
  rewrite (bound_other c req); [|eapply Forall_impl; [exact Hr|]; intros ? ->; by rewrite H].
  rewrite app_nil_l, (bound_other c [_; _; _; _]), app_nil_l; [|by rewrite H; repeat constructor].
  destruct (ctx_tool ctx); [|done].
  rewrite bound_other; [done|]. rewrite H. by repeat constructor.
Qed.

(** ** Exact numbers *)

(** Fits the default context when scaled: no rounding. *)
Definition exact_number (d : decimal) : bool :=
  (Z.abs (dcoef d) <? 10 ^ 24) && (Etiny <=? dexp d) && (dexp d <=? Emax - 28).

Lemma scale_exact d n m :
  exact_number d = true → scale d = Ok n → m <= 0 → m <= dexp d →
  dcoef d * 10 ^ (dexp d - m) * 10000 = n * 10 ^ (- m).
Proof.
  intros Hd Hs Hm0 Hm. unfold exact_number in Hd. zify_bool.
  destruct d as [c e]. simpl in *.
  destruct (decide (c = 0)) as [->|Hc].
  { unfold scale, scaled_or, dec_mul, dec_fix in Hs. simpl in Hs.
    match type of Hs with context [dec_is_integral ?d] => destruct (dec_is_integral d) end; [|done].
    injection Hs as <-. unfold dec_to_int. cbn [dcoef dexp]. destruct (Z.leb_spec 0 (Z.max Etiny (Z.min (e + 0) (Emax - prec + 1)))); [lia|].
    rewrite Z.quot_0_l; [lia|]. apply Z.pow_nonzero; lia. }
  unfold scale, scaled_or, dec_mul, dec_of_int, BUDGET_SCALE in Hs. cbn [dcoef dexp] in Hs.
  rewrite Z.add_0_r in Hs.
  rewrite dec_fix_exact in Hs; [|lia| |lia].
  2: { rewrite Z.abs_mul. change (10 ^ 28) with (10 ^ 24 * 10000). lia. }
  cbn [mbind res_bind] in Hs. unfold dec_is_integral, dec_to_int in Hs. cbn [dcoef dexp] in Hs.
  destruct (Z.leb_spec 0 e); cbn [orb] in Hs.
  - injection Hs as <-. replace (e - m) with (e + - m) by lia. rewrite Z.pow_add_r by lia. lia.
  - destruct (Z.eqb_spec ((c * 10000) mod 10 ^ (- e)) 0) as [Hz|]; [|done].
    injection Hs as <-. apply Z.rem_mod_eq_0 in Hz; [|apply Z.pow_nonzero; lia].
    apply Z.rem_divide in Hz as [q Hq]; [|apply Z.pow_nonzero; lia].
    rewrite Hq, Z.quot_mul by (apply Z.pow_nonzero; lia).
    replace (- m) with ((e - m) + - e) by lia. rewrite Z.pow_add_r by lia. nia.
Qed.

Lemma scale_compare a b n m :
  exact_number a = true → exact_number b = true → scale a = Ok n → scale b = Ok m →
  dec_compare a b = (n ?= m).
Proof.
  intros Ha Hb Hn Hm. set (k := Z.min 0 (Z.min (dexp a) (dexp b))).
  rewrite (dec_compare_scale _ _ k) by lia.
  pose proof (scale_exact a n k Ha Hn ltac:(lia) ltac:(lia)) as H1.
  pose proof (scale_exact b m k Hb Hm ltac:(lia) ltac:(lia)) as H2.
  rewrite (Zmult_compare_compat_r _ _ 10000), H1, H2 by lia.
  symmetry. apply Zmult_compare_compat_r. apply Z.lt_gt, Z.pow_pos_nonneg; lia.
Qed.

(** ** One fact per argument, one per dimension *)
Lemma sorted_args_spec ctx k v :
  (k, v) ∈ sorted_args ctx ↔ ctx_args ctx !! k = Some v.
Proof.
  unfold sorted_args. rewrite list_elem_of_omap. split.
  - intros (k' & _ & H). by apply fmap_Some in H as (w & ? & [= -> ->]).
  - intros H. exists k. rewrite H. split; [|done].
    apply elem_of_py_sorted, list_elem_of_fmap. exists (k, v).
    by rewrite elem_of_map_to_list.
Qed.

Lemma sorted_args_NoDup ctx : NoDup (sorted_args ctx).*1.
Proof.
  unfold sorted_args.
  assert (NoDup (py_sorted (map_to_list (ctx_args ctx)).*1)) as H
    by (rewrite py_sorted_Permutation; apply NoDup_fst_map_to_list).
  induction H as [|k ks Hk _ IH]; [constructor|]. simpl.
  destruct (ctx_args ctx !! k) as [v|]; simpl; [|done]. constructor; [|done].
  intros ((k', w) & -> & (k2 & ? & (w' & ? & [= <- ->])%fmap_Some)%list_elem_of_omap)%list_elem_of_fmap.
  done.
Qed.

Lemma bound_arg_list c path l args :
  cl_pred c = "arg"%string → cl_key c = Some path → NoDup l.*1 →
  res_map (λ p : pystr * arg_value,
             t ← term_of_scalar (scalar_of_arg p.2); Ok (Fact "arg" [TStr p.1; t])) l = Ok args →
  (path ∉ l.*1 → bound c args = [])
  ∧ ∀ v, (path, v) ∈ l → ∃ t, term_of_scalar (scalar_of_arg v) = Ok t ∧ bound c args = [t].
Proof.
  intros Hp Hk. revert args. induction l as [|[k v] l IH]; intros args Hnd H; simpl in *.
  { injection H as <-. split; [done|]. intros v Hv. by apply elem_of_nil in Hv. }
  inversion Hnd as [|? ? Hkl Hnd']; subst. inv_ok.
  match goal with H : res_map _ l = Ok _ |- _ => destruct (IH _ Hnd' H) as [IHn IHs] end.
  rewrite bound_cons. unfold bound_value. simpl. rewrite Hp, Hk. simpl.
  destruct (decide (path = k)) as [->|Hne].
  - rewrite bool_decide_eq_true_2 by done. rewrite IHn by done. split.
    + intros Hn. exfalso. apply Hn. left.
    + intros w [[= <-]|Hw]%elem_of_cons; [by eauto|].
      exfalso. apply Hkl, list_elem_of_fmap. by exists (k, w).
  - rewrite bool_decide_eq_false_2 by done. split.
    + intros Hn. apply IHn. intros ?. apply Hn. by right.
    + intros w [[= <- <-]|Hw]%elem_of_cons; [done|]. by apply IHs.
Qed.

Lemma bound_arg ctx args c path :
  cl_pred c = "arg"%string → cl_key c = Some path →
  res_map (λ p, t ← term_of_scalar (scalar_of_arg p.2); Ok (Fact "arg" [TStr p.1; t]))
    (sorted_args ctx) = Ok args →
  match ctx_args ctx !! path with
  | None => bound c args = []
  | Some v => ∃ t, term_of_scalar (scalar_of_arg v) = Ok t ∧ bound c args = [t]
  end.
Proof.
  intros Hp Hk H.
  destruct (bound_arg_list c path _ args Hp Hk (sorted_args_NoDup ctx) H) as [Hn Hs].
  destruct (ctx_args ctx !! path) as [v|] eqn:Hv.
  - by apply Hs, sorted_args_spec.
  - apply Hn. intros ((k, w) & -> & Hin)%list_elem_of_fmap.
    apply sorted_args_spec in Hin. simpl in *. congruence.
Qed.

Lemma bound_request ctx req c d n :
  res_map (λ d, n ← scale (dec_of_units (requested_of ctx d));
                Ok (Fact "requested" [TStr (dimension_value d); TInt n])) all_dimensions = Ok req →
  cl_pred c = "requested"%string → cl_key c = Some (dimension_value d) →
  scale (dec_of_units (requested_of ctx d)) = Ok n →
  bound c req = [TInt n].
Proof.
  intros H Hp Hk Hn. unfold all_dimensions, res_map in H. inv_ok.
  rewrite !bound_cons. unfold bound_value. simpl. rewrite Hp, Hk. simpl.
  destruct d; cbv beta in *;
    match goal with
    | H1 : ?m = Ok ?x, H2 : ?m = Ok ?y |- _ => assert (x = y) as -> by congruence
    end; vm_compute; reflexivity.
Qed.

Lemma context_facts_split ctx fs :
  context_facts ctx = Ok fs →
  ∃ req args,
    res_map (λ d, n ← scale (dec_of_units (requested_of ctx d));
                  Ok (Fact "requested" [TStr (dimension_value d); TInt n])) all_dimensions = Ok req
    ∧ res_map (λ p, t ← term_of_scalar (scalar_of_arg p.2); Ok (Fact "arg" [TStr p.1; t]))
        (sorted_args ctx) = Ok args
    ∧ facts_split ctx fs req args.
Proof.
  unfold context_facts. intros H. inv_ok. eexists _, _. split_and!; [done|done|].
  split; [done| |].
  - eapply res_map_pred; [|done]. intros d f Hf. simpl in Hf. by inv_ok.
  - eapply res_map_pred; [|done]. intros d f Hf. simpl in Hf. by inv_ok.
Qed.

(** ** Where the two readings are comparable *)

(** [strftime] drops the fraction, so a bound must be a whole second. *)
Definition whole_second (t : Z) : bool := t mod 1000000 =? 0.

(** Both numbers, scaling without rounding; or both strings and no ordering. *)
Definition comparable (op : ArgOperator) (actual : arg_value) (v : caveat_value) : bool :=
  match actual, v with
  | VNum a, CNum b => exact_number a && exact_number b
  | VStr _, CStr _ => match op with EQ | NE => true | _ => false end
  | _, CSet _ => true
  | _, _ => false
  end.

Definition agreeable (c : Caveat) (ctx : RequestContext) : bool :=
  match c with
  | TimeWindow nb na =>
      match nb with Some t => whole_second t | None => true end
      && match na with Some t => whole_second t | None => true end
  | ArgPredicate path op v =>
      match ctx_args ctx !! path with Some a => comparable op a v | None => true end
  | RequiresApproval _ => false
  | _ => true
  end.

Lemma floor_le now t : whole_second t = true → (t / 1000000 <=? now / 1000000) = (t <=? now).
Proof.
  unfold whole_second. intros H%Z.eqb_eq. apply Z.div_exact in H; [|lia].
  destruct (Z.leb_spec t now).
  - apply Z.leb_le, Z.div_le_mono; lia.
  - apply Z.leb_gt, Z.div_lt_upper_bound; lia.
Qed.

(** A clause over the arguments passes when the argument is absent, or when its
    guard, which negates the predicate, fails. *)
Lemma arg_clause_passes ctx fs path op v g (sat : arg_value → bool) :
  context_facts ctx = Ok fs →
  (∀ a t, ctx_args ctx !! path = Some a → term_of_scalar (scalar_of_arg a) = Ok t →
     guard_holds g t = Some (negb (sat a))
     ∧ evaluate (ArgPredicate path op v) ctx
       = Ok (if sat a then result_allow
             else result_deny ARG_PREDICATE_FAILED
                    (F "argument {!r} fails the {} predicate" [FStr path; FStr (op_value op)]))) →
  ∃ r, evaluate (ArgPredicate path op v) ctx = Ok r
       ∧ forallb (clause_passes fs) [Clause true "arg" (Some path) "v" g] = allowed r.
Proof.
  intros Hf Hg. destruct (context_facts_split _ _ Hf) as (req & args & _ & Ha & Hs).
  set (c := Clause _ _ _ _ _).
  pose proof (bound_arg ctx args c path eq_refl eq_refl Ha) as Hb.
  pose proof (bound_args ctx fs req args c Hs eq_refl) as Hfs.
  destruct (ctx_args ctx !! path) as [a|] eqn:Hp.
  - destruct Hb as (t & Ht & Hb). rewrite Hb in Hfs. destruct (Hg a t eq_refl Ht) as [Hgt ->].
    eexists; split; [done|]. simpl.
    rewrite (clause_passes_one _ _ _ _ Hfs Hgt). simpl. by destruct (sat a).
  - rewrite Hb in Hfs. exists result_allow. split; [simpl; by rewrite Hp|]. simpl.
    by rewrite clause_passes_none.
Qed.

Definition order_holds (op : ArgOperator) (c : comparison) : bool :=
  match op, c with
  | LE, (Lt | Eq) | LT, Lt | GE, (Gt | Eq) | GT, Gt | EQ, Eq | NE, (Lt | Gt) => true
  | _, _ => false
  end.

Lemma compare_terms_order op n m :
  is_membership op = false →
  compare_terms (negated_cmp op) (TInt n) (TInt m) = Some (negb (order_holds op (n ?= m))).
Proof.
  intros Hop. unfold compare_terms.
  destruct op; try done; simpl; f_equal; destruct (Z.compare_spec n m); simpl;
    rewrite ?negb_true_iff, ?negb_false_iff; blia.
Qed.

Lemma _compare_numbers op a b :
  is_membership op = false →
  _compare (SNum a) op (SNum b) = Ok (order_holds op (dec_compare a b)).
Proof.
  destruct op; try done; simpl; unfold dec_eqb; by destruct (dec_compare a b).
Qed.

(** ** Agreement, kind by kind *)

Lemma arg_agrees ctx fs path op v cls :
  operator_matches_value op v = true → agreeable (ArgPredicate path op v) ctx = true →
  context_facts ctx = Ok fs → compile (ArgPredicate path op v) = Ok cls →
  ∃ r, evaluate (ArgPredicate path op v) ctx = Ok r ∧ forallb (clause_passes fs) cls = allowed r.
Proof.
  intros Hop Hag Hf Hc.
  destruct v as [b|s|X].
  - destruct (is_membership op) eqn:Hm; [by simpl in Hop; rewrite Hm in Hop|].
    destruct (scale b) as [m|] eqn:Hb; [|destruct op; by simpl in Hc; rewrite ?Hb in Hc].
    assert (cls = [Clause true "arg" (Some path) "v" (GCompare (negated_cmp op) (TInt m))]) as ->
      by (destruct op; try done; simpl in Hc; rewrite Hb in Hc; by simplify_eq/=).
    apply (arg_clause_passes _ _ _ _ _ _
             (λ a, match a with VNum a => order_holds op (dec_compare a b) | VStr _ => false end)); [done|].
    intros a t Ha Ht. simpl in Hag. rewrite Ha in Hag.
    destruct a as [a|a]; [|done]. simpl in Hag, Ht. zify_bool. inv_ok.
    cbn [guard_holds]. rewrite compare_terms_order by done.
    rewrite (scale_compare a b _ m) by done. split; [done|].
    simpl. rewrite Ha. destruct op; try done; simpl scalar_of; cbn [mbind res_bind];
      simpl scalar_of_arg; rewrite _compare_numbers by done; cbn [mbind res_bind];
      by rewrite (scale_compare a b _ m) by done.
  - assert (cls = [Clause true "arg" (Some path) "v" (GCompare (negated_cmp op) (TStr s))]) as ->
      by (destruct op; try done; simpl in Hc; by simplify_eq/=).
    apply (arg_clause_passes _ _ _ _ _ _
             (λ a, order_holds op (if bool_decide (a = VStr s) then Eq else Lt))); [done|].
    intros a t Ha Ht. unfold agreeable in Hag. rewrite Ha in Hag.
    destruct a as [a|a]; [done|]. simpl in Ht. inv_ok. simpl evaluate. rewrite Ha.
    destruct op; try done; simpl; destruct (decide (a = s)) as [->|Hne];
      rewrite ?bool_decide_eq_true_2, ?bool_decide_eq_false_2 by congruence; done.
  - destruct op; try done; simpl in Hc; injection Hc as <-.
    + apply (arg_clause_passes _ _ _ _ _ _ (λ a, arg_in a X)); [done|].
      intros [a|a] t Ha Ht; simpl in Ht; inv_ok; simpl; rewrite Ha; simpl;
        try destruct (bool_decide _); done.
    + apply (arg_clause_passes _ _ _ _ _ _ (λ a, negb (arg_in a X))); [done|].
      intros [a|a] t Ha Ht; simpl in Ht; inv_ok; simpl; rewrite Ha; simpl;
        try destruct (bool_decide _); done.
Qed.

Lemma check_passes ctx fs req args c v b :
  facts_split ctx fs req args → cl_reject c = false →
  cl_pred c ≠ "requested"%string → cl_pred c ≠ "arg"%string →
  bound c ([Fact "operation" [TStr (operation ctx)];
            Fact "current_depth" [TInt (current_depth ctx)];
            Fact "request_intent" [TStr (request_intent ctx)];
            Fact "time" [TDate (ctx_now ctx / 1000000)]]
           ++ match ctx_tool ctx with Some t => [Fact "tool" [TStr t]] | None => [] end) = [v] →
  guard_holds (cl_guard c) v = Some b → clause_passes fs c = b.
Proof.
  intros Hs Hr H1 H2 Hb Hg. erewrite clause_passes_one; [|by eapply bound_unkeyed|done].
  rewrite Hr. by destruct b.
Qed.

(** The facts of the unkeyed predicates, evaluated on either shape of context. *)
Ltac unkeyed ctx Hs :=
  eapply (check_passes _ _ _ _ _ _ _ Hs);
  [done|done|done|by destruct (ctx_tool ctx)|try reflexivity].

Lemma window_agrees ctx fs nb na cls :
  agreeable (TimeWindow nb na) ctx = true →
  context_facts ctx = Ok fs → compile (TimeWindow nb na) = Ok cls →
  ∃ r, evaluate (TimeWindow nb na) ctx = Ok r ∧ forallb (clause_passes fs) cls = allowed r.
Proof.
  intros Hag Hf Hc. destruct (context_facts_split _ _ Hf) as (req & args & _ & _ & Hs).
  eexists; split; [done|]. simpl in Hc. injection Hc as <-.
  unfold agreeable in Hag. apply andb_true_iff in Hag as [Hnb Hna].
  rewrite forallb_app.
  assert (forallb (clause_passes fs)
            match nb with
            | Some t => [Clause false "time" None "t" (GCompare CGe (TDate (t / 1000000)))]
            | None => [] end = match nb with Some t => t <=? ctx_now ctx | None => true end) as ->.
  { destruct nb as [t|]; [|done]. simpl. rewrite andb_true_r.
    unkeyed ctx Hs. cbn [guard_holds compare_terms cl_guard]. by rewrite floor_le. }
  assert (forallb (clause_passes fs)
            match na with
            | Some t => [Clause false "time" None "t" (GCompare CLt (TDate (t / 1000000)))]
            | None => [] end = match na with Some t => ctx_now ctx <? t | None => true end) as ->.
  { destruct na as [t|]; [|done]. simpl. rewrite andb_true_r.
    unkeyed ctx Hs. cbn [guard_holds compare_terms cl_guard].
    by rewrite !Z.ltb_antisym, floor_le. }
  destruct nb as [t|], na as [t'|]; simpl;
    repeat match goal with
    | |- context [?x <? ?y] => destruct (Z.ltb_spec x y)
    | |- context [?x <=? ?y] => destruct (Z.leb_spec x y)
    end; try done; lia.
Qed.

Lemma scale_units n : 0 <= n < MONEY_LIMIT → scale (dec_of_units n) = Ok n.
Proof.
  intros Hn. apply scaled_or_units. unfold MONEY_LIMIT in Hn.
  change (10 ^ 24) with (10 ^ 20 * 10000). lia.
Qed.

Lemma requested_money ctx d :
  RequestContext_valid ctx = true → 0 <= requested_of ctx d < MONEY_LIMIT.
Proof.
  unfold RequestContext_valid, requested_of. intros [_ H]%andb_true_iff.
  destruct (requested ctx !! d) as [n|] eqn:E; simpl; [|by unfold MONEY_LIMIT].
  rewrite forallb_forall in H. apply elem_of_map_to_list, list_elem_of_In in E.
  specialize (H _ E). simpl in H. by zify_bool.
Qed.

Lemma ceiling_agrees ctx fs d v cls :
  RequestContext_valid ctx = true → Caveat_valid (BudgetCeiling d v) = true →
  context_facts ctx = Ok fs → compile (BudgetCeiling d v) = Ok cls →
  ∃ r, evaluate (BudgetCeiling d v) ctx = Ok r ∧ forallb (clause_passes fs) cls = allowed r.
Proof.
  intros Hctx Hv Hf Hc. destruct (context_facts_split _ _ Hf) as (req & args & Hr & _ & Hs).
  eexists; split; [done|]. simpl in Hv, Hc. zify_bool.
  rewrite scale_units in Hc by done. injection Hc as <-. simpl. rewrite andb_true_r.
  erewrite clause_passes_one; [|erewrite bound_requested by done;
    eapply bound_request; [done..|by apply scale_units, requested_money]|reflexivity].
  simpl. by destruct (requested_of ctx d <=? v).
Qed.


Definition demo_ctx : RequestContext :=
  mkRequestContext (u "payment:send") (list_to_map ((λ d, (d, 12000)) <$> all_dimensions)) 1
    (u "a") 1700000000000000 (Some (u "pay")) {[u "payment.amount" := VNum (Dec 125 (-1))]}
    None None OFF.
Definition demo_caveat : Caveat := ArgPredicate (u "payment.amount") LE (CNum (Dec 50 0)).


(** The proviso on whole seconds is needed: a window that opens inside a second
    is refused by [evaluate] during the part of that second before it, and accepted
    by its compiled form from the start of the second. *)
Theorem subsecond_bound_disagrees ctx nb fs cls :
  whole_second nb = false → ctx_now ctx = nb / 1000000 * 1000000 →
  context_facts ctx = Ok fs → compile (TimeWindow (Some nb) None) = Ok cls →
  forallb (clause_passes fs) cls = true
  ∧ allowed <$> evaluate (TimeWindow (Some nb) None) ctx = Ok false.
Proof.
  intros Hw Hnow Hf [= <-]. destruct (context_facts_split _ _ Hf) as (req & args & _ & _ & Hs).
  unfold whole_second in Hw. zify_bool. split.
  - simpl. rewrite andb_true_r. unkeyed ctx Hs. simpl. rewrite Hnow, Z.div_mul by lia.
    by rewrite Z.leb_refl.
  - simpl. destruct (Z.ltb_spec (ctx_now ctx) nb); [done|].
    pose proof (Z.div_mod nb 1000000 ltac:(lia)).
    pose proof (Z.mod_pos_bound nb 1000000 ltac:(lia)). lia.
Qed.

Lemma subsecond_bound_disagrees_witness :
  ∃ fs cls, forallb (clause_passes fs) cls = true
  ∧ allowed <$> evaluate (TimeWindow (Some 1700000000500000) None) demo_ctx = Ok false.
Proof.
  eexists _, _. apply (subsecond_bound_disagrees demo_ctx); vm_compute; reflexivity.
Defined.
