(* ===== verification/Tokens.v ===== *)
(** * Tokens (agentiam_core/tokens.py)

    Minting, verification and authorization of a biscuit.  The biscuit library is
    not part of the program: [BiscuitLib] is the interface the code calls it
    through, and every definition here is generic in it.  [verify] reads the
    authority block back; [authorize_request] asks the library to evaluate the
    token's own checks and reads the cause out of its error text. *)
From S2P Require Import Prelude PyText Errors PyNum PyTime PyRe PyUuid Models Caveats.

(** ** The biscuit library *)

(** A term of a queried fact, as Python sees it. *)
Inductive bterm :=
| BStr (s : pystr) | BInt (n : Z) | BBool (b : bool) | BDate (secs : Z) | BOther (text : pystr).

(** What its calls raise: an authorization error carries its message. *)
Inductive biscuit_error := AuthorizationError (detail : pystr) | DataLogError.

Record AuthorizerLimits := mkLimits { max_facts : Z; max_iterations : Z; max_time_ms : Z }.

Class BiscuitLib := {
  Biscuit : Type;
  PublicKey : Type;
  PrivateKey : Type;
  (** [Biscuit.from_base64(token, key)]; any exception is [None]. *)
  from_base64 : pystr → PublicKey → option Biscuit;
  to_base64 : Biscuit → pystr;
  block_count : Biscuit → Z;
  block_source : Biscuit → Z → pystr;
  lib_revocation_ids : Biscuit → list pystr;
  (** [AuthorizerBuilder(source)] under limits, built on a biscuit, then
      [query(Rule(rule))] or [authorize()]. *)
  lib_query : AuthorizerLimits → pystr → Biscuit → pystr → res biscuit_error (list (list bterm));
  lib_authorize : AuthorizerLimits → pystr → Biscuit → res biscuit_error unit;
  (** [biscuit.append(BlockBuilder(text))] and [BiscuitBuilder(text).build(key)]. *)
  lib_append : Biscuit → pystr → res biscuit_error Biscuit;
  lib_build : pystr → PrivateKey → res biscuit_error Biscuit }.

(** A library exception nobody translates. *)
Definition raw {A} (m : res biscuit_error A) : py A :=
  match m with
  | Ok a => Ok a
  | Raise (AuthorizationError _) => Raise BiscuitAuthorizationError
  | Raise DataLogError => Raise BiscuitDataLogError
  end.

(** ** Terms as Python values *)

(** [str(datetime)] of an aware UTC datetime without a fraction. *)
Definition str_of_date (t : Z) : pystr :=
  take 10 (date_text t) ++ u " " ++ take 8 (drop 11 (date_text t)) ++ u "+00:00".

(** [str(x)]. *)
Definition str_of_term (t : bterm) : pystr :=
  match t with
  | BStr s => s
  | BInt n => py_str_int n
  | BBool b => if b then u "True" else u "False"
  | BDate t => str_of_date t
  | BOther s => s
  end.

(** [int(x)]. *)
Definition int_of_term (t : bterm) : py Z :=
  match t with
  | BInt n => Ok n
  | BBool b => Ok (if b then 1 else 0)
  | BStr s => match parse_int10 s with Some n => Ok n | None => Raise ValueError end
  | BDate _ | BOther _ => Raise TypeError
  end.

(** [isinstance(x, int)] holds of booleans too. *)
Definition as_int (t : bterm) : option Z :=
  match t with BInt n => Some n | BBool b => Some (if b then 1 else 0) | _ => None end.
Definition as_date (t : bterm) : option Z :=
  match t with BDate s => Some (s * 1000000) | _ => None end.

(** [f.terms[0]]. *)
Definition term0 (f : list bterm) : py bterm :=
  match f with t :: _ => Ok t | [] => Raise IndexError end.
Definition term1 (f : list bterm) : py bterm :=
  match f with _ :: t :: _ => Ok t | _ => Raise IndexError end.

Definition WARN_SIZE_LIMIT_B64 : Z := 4096.
Definition HARD_SIZE_LIMIT_B64 : Z := 8192.
Definition MAX_DATALOG_FACTS : Z := 10000.
Definition MAX_DATALOG_ITERATIONS : Z := 1000.
Definition MAX_DATALOG_TIME : Z := 250.
Definition limits : AuthorizerLimits :=
  mkLimits MAX_DATALOG_FACTS MAX_DATALOG_ITERATIONS MAX_DATALOG_TIME.

(** [sorted(BudgetDimension)]: by value. *)
Definition sorted_dimensions : list BudgetDimension :=
  omap dimension_of (py_sorted (dimension_value <$> all_dimensions)).

Definition _as_uuid (value : bterm) : py uuid :=
  match parse_uuid (str_of_term value) with
  | Some x => Ok x
  | None => Raise MalformedTokenError
  end.

(** ** Minting *)
Definition string_fact (p : string) (s : pystr) : pystr :=
  u p ++ u "(" ++ quote_string s ++ u ");".
Definition date_fact (p : string) (t : Z) : pystr := u p ++ u "(" ++ datalog_date t ++ u ");".

Definition mint_source (m : Mandate) : py pystr :=
  let facts :=
    [string_fact "mandate" (uuid_text (m_mandate_id m));
     string_fact "task" (uuid_text (m_task_id m));
     string_fact "principal" (m_principal_id m);
     string_fact "intent" (m_intent_hash m);
     date_fact "issued_at" (m_not_before m);
     date_fact "not_before" (m_not_before m);
     date_fact "expires_at" (m_expires_at m);
     u "max_depth(" ++ py_str_int (m_max_depth m) ++ u ");"]
    ++ (string_fact "scope" <$> py_sorted (elements (m_scopes m))) in
  budgets ← res_map (λ d, n ← Budget_scaled (m_budget m) d;
                          Ok (u "budget(" ++ quote_string (dimension_value d) ++ u ", "
                              ++ py_str_int n ++ u ");")) sorted_dimensions;
  let checks :=
    [u "check if operation($op), scope($op);";
     u "check if current_depth($d), $d <= " ++ py_str_int (m_max_depth m) ++ u ";";
     u "check if request_intent($h), intent($h);"] in
  ceilings ← res_map (λ d, n ← Budget_scaled (m_budget m) d;
                           Ok (u "check if requested(" ++ quote_string (dimension_value d)
                               ++ u ", $v), $v <= " ++ py_str_int n ++ u ";")) sorted_dimensions;
  let window :=
    [u "check if time($t), $t >= " ++ datalog_date (m_not_before m) ++ u ";";
     u "check if time($t), $t < " ++ datalog_date (m_expires_at m) ++ u ";"] in
  Ok (py_join [newline] (facts ++ budgets ++ checks ++ ceilings ++ window)).

(** ** Reading a failed check back *)
Definition _FAILED_CHECK_RE : re :=
  (Lit (u "Check n") ⋅ Cls (λ c, negb (c =? newline)) ⋅ Grp "check" (Plus is_unicode_digit)
   ⋅ Lit (u " in block n") ⋅ Cls (λ c, negb (c =? newline))
   ⋅ Grp "block" (Plus is_unicode_digit) ⋅ Lit (u ": "))%re.

Definition _FACT_REASONS : list (string * ReasonCode) :=
  [("operation(", SCOPE_ATTENUATED_AWAY); ("requested(", BUDGET_EXHAUSTED_CAVEAT);
   ("tool(", TOOL_DENIED); ("arg(", ARG_PREDICATE_FAILED);
   ("current_depth(", DEPTH_EXCEEDED); ("request_intent(", INTENT_MISMATCH);
   ("time(", TOKEN_EXPIRED)]%string.

Definition _AUTHORITY_FACT_REASONS : list (string * ReasonCode) :=
  [("operation(", SCOPE_NOT_GRANTED); ("requested(", BUDGET_EXHAUSTED_MANDATE);
   ("tool(", TOOL_DENIED); ("arg(", ARG_PREDICATE_FAILED);
   ("current_depth(", DEPTH_EXCEEDED); ("request_intent(", INTENT_MISMATCH);
   ("time(", TOKEN_EXPIRED)]%string.

Definition AUTHORITY_BLOCK : Z := 0.

Record AuthorityFailure := mkAuthorityFailure {
  af_block : Z; af_source : pystr; af_reason_code : ReasonCode }.

(** The first table entry whose fact occurs in the check. *)
Definition reason_of_check (reasons : list (string * ReasonCode)) (source : pystr)
    : option ReasonCode :=
  p ← list_find (λ p : string * ReasonCode, contains (u p.1) source = true) reasons;
  Some p.2.2.

Definition _first_failure (detail : pystr) : py AuthorityFailure :=
  match finditer _FAILED_CHECK_RE detail with
  | [] => Ok (mkAuthorityFailure 0 detail MALFORMED_REQUEST)
  | first :: others =>
      let stop := match others with m :: _ => fd_start m | [] => length detail end in
      let check_source :=
        rstrip_chars (λ c, (c =? 44) || (c =? 32))
          (take (stop - fd_end first) (drop (fd_end first) detail)) in
      block ← match parse_int10 (default [] (group (fd_env first) "block")) with
              | Some n => Ok n
              | None => Raise ValueError
              end;
      let reasons := if block =? AUTHORITY_BLOCK then _AUTHORITY_FACT_REASONS
                     else _FACT_REASONS in
      Ok (mkAuthorityFailure block check_source
            (default SCOPE_ATTENUATED_AWAY (reason_of_check reasons check_source)))
  end.

Section tokens.
Context `{BiscuitLib}.

Record RootKeySet := mkRootKeySet { keys : list PublicKey }.

Definition mk_RootKeySet (ks : list PublicKey) : py RootKeySet :=
  match ks with [] => Raise ValueError | _ => Ok (mkRootKeySet ks) end.

Definition current (ks : RootKeySet) : option PublicKey := head (keys ks).

Record VerifiedToken := mkVerifiedToken {
  vt_biscuit : Biscuit;
  vt_mandate_id : uuid;
  vt_task_id : uuid;
  vt_principal_id : pystr;
  vt_intent_hash : pystr;
  vt_scopes : gset pystr;
  vt_budget : Budget;
  vt_scaled_budget : gmap BudgetDimension Z;
  vt_max_depth : Z;
  vt_not_before : Z;
  vt_expires_at : Z;
  vt_depth : Z;
  vt_revocation_ids : list pystr;
  vt_size_b64 : Z;
  vt_size_warning : bool }.

Definition mint_root (m : Mandate) (k : PrivateKey) : py pystr :=
  source ← mint_source m;
  b ← raw (lib_build source k);
  let token := to_base64 b in
  raise_if (HARD_SIZE_LIMIT_B64 <? Z.of_nat (length token)) TokenTooLargeError;;
  Ok token.

(** The first accepted key that opens the token. *)
Fixpoint first_key (token : pystr) (ks : list PublicKey) : option Biscuit :=
  match ks with
  | [] => None
  | k :: ks => match from_base64 token k with Some b => Some b | None => first_key token ks end
  end.

Definition _parse (token : pystr) (ks : RootKeySet) : py Biscuit :=
  raise_if (bool_decide (py_strip token = [])) MalformedTokenError;;
  match first_key token (keys ks) with
  | Some b => Ok b
  | None => Raise InvalidSignatureError
  end.

(** The fact-reading authorizer's source. *)
Definition reader : pystr := u "allow if true;".

Definition _query_one (b : Biscuit) (predicate : string) : py (option bterm) :=
  match lib_query limits reader b (u "d($x) <- " ++ u predicate ++ u "($x)") with
  | Raise (AuthorizationError _) => Raise VerificationLimitError
  | Raise DataLogError => Raise BiscuitDataLogError
  | Ok [] => Ok None
  | Ok (f :: _) => t ← term0 f; Ok (Some t)
  end.

Definition _require (value : option bterm) : py bterm :=
  match value with Some t => Ok t | None => Raise MalformedTokenError end.

Definition required (b : Biscuit) (predicate : string) : py bterm :=
  v ← _query_one b predicate; _require v.

Definition budget_entry (f : list bterm) : py (BudgetDimension * Z) :=
  k ← term0 f;
  d ← match dimension_of (str_of_term k) with Some d => Ok d | None => Raise ValueError end;
  v ← term1 f;
  n ← int_of_term v;
  Ok (d, n).

(** A later fact for the same dimension replaces an earlier one. *)
Definition dict_of (l : list (BudgetDimension * Z)) : gmap BudgetDimension Z :=
  foldl (λ m p, <[p.1 := p.2]> m) ∅ l.

Definition verify (token : pystr) (ks : RootKeySet) (now : datetime) : py VerifiedToken :=
  raise_if (negb (dt_aware now)) ValueError;;
  let size := Z.of_nat (length token) in
  raise_if (HARD_SIZE_LIMIT_B64 <? size) TokenTooLargeError;;
  biscuit ← _parse token ks;
  mandate_id ← required biscuit "mandate";
  task_id ← required biscuit "task";
  principal_id ← required biscuit "principal";
  intent_hash ← required biscuit "intent";
  max_depth ← required biscuit "max_depth";
  not_before ← required biscuit "not_before";
  expires_at ← required biscuit "expires_at";
  match as_date not_before, as_date expires_at with
  | Some not_before, Some expires_at =>
      max_depth ← match as_int max_depth with
                  | Some n => Ok n
                  | None => Raise MalformedTokenError
                  end;
      raise_if (dt_us now <? not_before) TokenNotYetValidError;;
      raise_if (expires_at <=? dt_us now) TokenExpiredError;;
      let depth := block_count biscuit - 1 in
      raise_if (max_depth <? depth) DepthExceededError;;
      scope_facts ← raw (lib_query limits reader biscuit (u "d($s) <- scope($s)"));
      scopes ← res_map (λ f, t ← term0 f; Ok (str_of_term t)) scope_facts;
      budget_facts ← raw (lib_query limits reader biscuit (u "d($k, $v) <- budget($k, $v)"));
      entries ← res_map budget_entry budget_facts;
      let scaled := dict_of entries in
      mid ← _as_uuid mandate_id;
      tid ← _as_uuid task_id;
      budget ← from_scaled (λ d, scaled !! d);
      Ok (mkVerifiedToken biscuit mid tid (str_of_term principal_id)
            (str_of_term intent_hash) (list_to_set scopes) budget scaled max_depth
            not_before expires_at depth (lib_revocation_ids biscuit)
            size (WARN_SIZE_LIMIT_B64 <? size))
  | _, _ => Raise MalformedTokenError
  end.

Definition authorize_request (token : VerifiedToken) (context : RequestContext)
    : py (option AuthorityFailure) :=
  facts ← request_context_datalog context;
  let source := facts ++ [newline] ++ u "allow if true;" in
  match lib_authorize limits source (vt_biscuit token) with
  | Ok _ => Ok None
  | Raise DataLogError => Raise BiscuitDataLogError
  | Raise (AuthorizationError detail) =>
      raise_if (contains (u "execution limits") detail) VerificationLimitError;;
      f ← _first_failure detail;
      Ok (Some f)
  end.
End tokens.

(** ** Verification *)
Section verify.
Context `{BiscuitLib}.

Lemma first_key_Some token ks b :
  first_key token ks = Some b → ∃ k, k ∈ ks ∧ from_base64 token k = Some b.
Proof.
  induction ks as [|k ks IH]; simpl; [done|]. destruct (from_base64 token k) eqn:E.
  - intros [= <-]. exists k. by split; [left|].
  - intros Hb. destruct (IH Hb) as (k' & ? & ?). exists k'. by split; [right|].
Qed.

Lemma first_key_None token ks :
  first_key token ks = None ↔ ∀ k, k ∈ ks → from_base64 token k = None.
Proof.
  induction ks as [|k ks IH]; simpl; [by split; [intros _ k ?%elem_of_nil|]|].
  destruct (from_base64 token k) eqn:E.
  - split; [done|]. intros Hk. rewrite Hk in E by left. done.
  - rewrite IH. split.
    + intros Hk k' [->|?]%elem_of_cons; auto.
    + intros Hk k' ?. apply Hk. by right.
Qed.

(** The mandatory authority facts, read in order. *)
Record grant_facts (b : Biscuit) (mandate task principal intent : bterm)
    (max_depth not_before expires_at : Z) : Prop := {
  gf_mandate : required b "mandate" = Ok mandate;
  gf_task : required b "task" = Ok task;
  gf_principal : required b "principal" = Ok principal;
  gf_intent : required b "intent" = Ok intent;
  gf_depth : ∃ t, required b "max_depth" = Ok t ∧ as_int t = Some max_depth;
  gf_nb : ∃ t, required b "not_before" = Ok t ∧ as_date t = Some not_before;
  gf_exp : ∃ t, required b "expires_at" = Ok t ∧ as_date t = Some expires_at }.

Lemma _parse_Ok token ks b :
  _parse token ks = Ok b →
  py_strip token ≠ [] ∧ ∃ k, k ∈ keys ks ∧ from_base64 token k = Some b.
Proof.
  unfold _parse. intros Hp. apply bind_Ok_inv in Hp as (? & Hr & Hp).
  apply raise_if_Ok, bool_decide_eq_false in Hr. split; [done|].
  destruct (first_key token (keys ks)) eqn:E; [|done]. injection Hp as ->.
  by apply first_key_Some.
Qed.

(** The value a list of budget facts gives a dimension: its last. *)
Definition last_entry (entries : list (BudgetDimension * Z)) (d : BudgetDimension) : option Z :=
  snd <$> last (filter (λ p, p.1 = d) entries).

Lemma dict_of_lookup entries d : dict_of entries !! d = last_entry entries d.
Proof.
  unfold dict_of, last_entry. induction entries as [|[k v] l IH] using rev_ind; [done|].
  rewrite foldl_app, filter_app. cbn [foldl fst snd]. rewrite filter_cons, filter_nil. cbn [fst].
  destruct (decide (k = d)) as [->|Hk].
  - by rewrite last_snoc, lookup_insert_eq.
  - by rewrite app_nil_r, lookup_insert_ne.
Qed.

Lemma from_scaled_ext f g : (∀ d, f d = g d) → from_scaled f = from_scaled g.
Proof. intros E. unfold from_scaled. by rewrite !E. Qed.

(** C37: What [verify] returns is what it promises: the token is within the size
    limit, some accepted root key opens it, the instant lies in the validity window
    (start inclusive, end exclusive), the chain is no deeper than the mandate
    allows, and the grant is the authority block's own facts: the mandatory ones, every
    scope it states, and for each dimension the last amount it states, as units and as
    the amounts they stand for. *)
Theorem verify_sound token ks now vt :
  verify token ks now = Ok vt →
  let b := vt_biscuit vt in
  dt_aware now = true
  ∧ Z.of_nat (length token) <= HARD_SIZE_LIMIT_B64
  ∧ (∃ k, k ∈ keys ks ∧ from_base64 token k = Some b)
  ∧ vt_not_before vt <= dt_us now < vt_expires_at vt
  ∧ vt_depth vt = block_count b - 1 ∧ vt_depth vt <= vt_max_depth vt
  ∧ (∃ mandate task principal intent,
       grant_facts b mandate task principal intent (vt_max_depth vt) (vt_not_before vt)
         (vt_expires_at vt)
       ∧ _as_uuid mandate = Ok (vt_mandate_id vt) ∧ _as_uuid task = Ok (vt_task_id vt)
       ∧ vt_principal_id vt = str_of_term principal
       ∧ vt_intent_hash vt = str_of_term intent)
  ∧ (∃ fs scopes, raw (lib_query limits reader b (u "d($s) <- scope($s)")) = Ok fs
       ∧ res_map (λ f, t ← term0 f; Ok (str_of_term t)) fs = Ok scopes
       ∧ vt_scopes vt = list_to_set scopes)
  ∧ (∃ fs entries, raw (lib_query limits reader b (u "d($k, $v) <- budget($k, $v)")) = Ok fs
       ∧ res_map budget_entry fs = Ok entries
       ∧ (∀ d, vt_scaled_budget vt !! d = last_entry entries d)
       ∧ from_scaled (last_entry entries) = Ok (vt_budget vt))
  ∧ vt_revocation_ids vt = lib_revocation_ids b
  ∧ vt_size_warning vt = (WARN_SIZE_LIMIT_B64 <? Z.of_nat (length token)).
Proof.
  unfold verify. intros Hv.
  apply bind_Ok_inv in Hv as (? & Haware & Hv). apply bind_Ok_inv in Hv as (? & Hsize & Hv).
  apply bind_Ok_inv in Hv as (b & Hb & Hv). apply _parse_Ok in Hb as (_ & Hk).
  apply bind_Ok_inv in Hv as (mandate & Hm & Hv). apply bind_Ok_inv in Hv as (task & Ht & Hv).
  apply bind_Ok_inv in Hv as (principal & Hp & Hv). apply bind_Ok_inv in Hv as (intent & Hi & Hv).
  apply bind_Ok_inv in Hv as (depth & Hd & Hv). apply bind_Ok_inv in Hv as (nb & Hnb & Hv).
  apply bind_Ok_inv in Hv as (ex & Hex & Hv).
  destruct (as_date nb) as [nb'|] eqn:Enb; [|done]. destruct (as_date ex) as [ex'|] eqn:Eex; [|done].
  destruct (as_int depth) as [md|] eqn:Ed; [|done]. cbn [mbind res_bind] in Hv.
  inv_ok. simpl. zify_bool.
  split_and!; try done; try lia.
  - exists mandate, task, principal, intent. split_and!; try done. split; eauto.
  - by eexists _, _.
  - eexists _, _. do 2 (split; [eassumption|]). split; [intros d; apply dict_of_lookup|].
    erewrite from_scaled_ext; [eassumption|]. intros d. symmetry. apply dict_of_lookup.
Qed.

(** Refusals are attributed in order, each by its own exception: an oversized
    token before it is parsed, then a blank one, then one no accepted key opens;
    and once the mandatory facts are read, the two sides of the window and the
    depth, with the boundary instants on the documented sides. *)
Theorem verify_refuses_in_order token ks now :
  dt_aware now = true →
  (HARD_SIZE_LIMIT_B64 < Z.of_nat (length token) →
     verify token ks now = Raise TokenTooLargeError)
  ∧ (Z.of_nat (length token) <= HARD_SIZE_LIMIT_B64 →
     (py_strip token = [] → verify token ks now = Raise MalformedTokenError)
     ∧ (py_strip token ≠ [] → (∀ k, k ∈ keys ks → from_base64 token k = None) →
        verify token ks now = Raise InvalidSignatureError)
     ∧ ∀ b mandate task principal intent md nb ex,
         _parse token ks = Ok b → grant_facts b mandate task principal intent md nb ex →
         (dt_us now < nb → verify token ks now = Raise TokenNotYetValidError)
         ∧ (nb <= dt_us now → ex <= dt_us now → verify token ks now = Raise TokenExpiredError)
         ∧ (nb <= dt_us now < ex → md < block_count b - 1 →
            verify token ks now = Raise DepthExceededError)).
Proof.
  intros Haware. unfold verify. rewrite Haware. simpl.
  split.
  { intros Hs. apply Z.ltb_lt in Hs. by rewrite Hs. }
  intros Hs. apply Z.ltb_ge in Hs. rewrite Hs. simpl. split_and!.
  - intros Hb. unfold _parse. by rewrite bool_decide_eq_true_2.
  - intros Hb Hk%first_key_None. unfold _parse. rewrite bool_decide_eq_false_2 by done.
    simpl. by rewrite Hk.
  - intros b mandate task principal intent md nb ex Hb [Hm Ht Hp Hi (d & Hd & Hd')
      (n & Hn & Hn') (e & He & He')].
    rewrite Hb. simpl. rewrite Hm. simpl. rewrite Ht. simpl. rewrite Hp. simpl. rewrite Hi.
    simpl. rewrite Hd. simpl. rewrite Hn. simpl. rewrite He. simpl. rewrite Hn', He', Hd'. simpl.
    split_and!.
    + intros H1%Z.ltb_lt. by rewrite H1.
    + intros H1%Z.ltb_ge H2%Z.leb_le. by rewrite H1, H2.
    + intros [H1%Z.ltb_ge H2%Z.leb_gt] H3%Z.ltb_lt. by rewrite H1, H2; simpl; rewrite H3.
Qed.
End verify.

(** ** A concrete library

    One root key, [7], opens the text of a chain; a chain lists the answers to the
    fact queries, its blocks' sources, and what its checks say of a request. *)
Record toy_biscuit := mkToy {
  toy_text : pystr;
  toy_blocks : list pystr;
  toy_answers : list (pystr * list (list bterm));
  toy_refuses : option pystr }.

Definition toy_token : toy_biscuit :=
  let one p t := (u "d($x) <- " ++ u p ++ u "($x)", [[t]]) in
  mkToy (u "En0K") [u "scope(a)"; u "agent(b)"]
    [one "mandate"%string (BStr (uuid_text 1)); one "task"%string (BStr (uuid_text 2));
     one "principal"%string (BStr (u "user:1")); one "intent"%string (BStr (u "ab"));
     one "max_depth"%string (BInt 3); one "not_before"%string (BDate 100);
     one "expires_at"%string (BDate 200);
     (u "d($s) <- scope($s)", [[BStr (u "invoice:read")]]);
     (u "d($k, $v) <- budget($k, $v)", [[BStr (u "spend_bdt"); BInt 500000]])] None.

Definition toy_query (b : toy_biscuit) (rule : pystr) : list (list bterm) :=
  default [] (snd <$> (snd <$> list_find (λ p, p.1 = rule) (toy_answers b))).

Definition toy_lib : BiscuitLib := {|
  Biscuit := toy_biscuit; PublicKey := Z; PrivateKey := Z;
  from_base64 token key :=
    if (key =? 7) && bool_decide (token = toy_text toy_token) then Some toy_token else None;
  to_base64 := toy_text;
  block_count b := Z.of_nat (length (toy_blocks b));
  block_source b i := default [] (toy_blocks b !! Z.to_nat i);
  lib_revocation_ids b := toy_blocks b;
  lib_query _ _ b rule := Ok (toy_query b rule);
  lib_authorize _ _ b :=
    match toy_refuses b with Some d => Raise (AuthorizationError d) | None => Ok tt end;
  lib_append b text := Ok (mkToy (toy_text b ++ u "+") (toy_blocks b ++ [text])
                             (toy_answers b) (toy_refuses b));
  lib_build text key := Ok (mkToy (u "En0K") [text] [] None) |}.
#[local] Existing Instance toy_lib.

Definition toy_keys : RootKeySet := mkRootKeySet [5; 7].
Definition toy_vt : VerifiedToken :=
  match verify (u "En0K") toy_keys (DT 150000000 true) with
  | Ok vt => vt
  | Raise _ => mkVerifiedToken toy_token 0 0 [] [] ∅ Budget_default ∅ 0 0 0 0 [] 0 false
  end.

Lemma verify_sound_witness :
  vt_not_before toy_vt <= 150000000 < vt_expires_at toy_vt ∧ vt_depth toy_vt <= vt_max_depth toy_vt
  ∧ vt_scaled_budget toy_vt !! SPEND_BDT = Some 500000.
Proof.
  pose proof (verify_sound (u "En0K") toy_keys (DT 150000000 true) toy_vt
                ltac:(vm_compute; reflexivity)) as Hs.
  cbv zeta in Hs. destruct Hs as (_ & _ & _ & Hw & _ & Hd & _ & _ & (fs & entries & Hf & He & Hb & _) & _).
  split; [exact Hw|]. split; [exact Hd|]. rewrite Hb. vm_compute in Hf. injection Hf as <-.
  vm_compute in He. injection He as <-. reflexivity.
Defined.

Lemma verify_refuses_in_order_witness :
  verify (u "En0K") toy_keys (DT 200000000 true) = Raise TokenExpiredError.
Proof.
  destruct (verify_refuses_in_order (u "En0K") toy_keys (DT 200000000 true) eq_refl) as [_ Hr].
  destruct Hr as (_ & _ & Hr); [vm_compute; discriminate|].
  destruct (Hr toy_token (BStr (uuid_text 1)) (BStr (uuid_text 2)) (BStr (u "user:1"))
              (BStr (u "ab")) 3 100000000 200000000) as (_ & He & _).
  - vm_compute. reflexivity.
  - split; [vm_compute; reflexivity..| | |].
    + exists (BInt 3). split; vm_compute; reflexivity.
    + exists (BDate 100). split; vm_compute; reflexivity.
    + exists (BDate 200). split; vm_compute; reflexivity.
  - apply He; vm_compute; discriminate.
Defined.
