(* ===== verification/Attribution.v ===== *)
(** * Which check refused (agentiam_core/tokens.py, [_first_failure])

    Biscuit reports a refusal as text.  This file proves that the block and the
    reason code read back out of that text are those of the check that failed: for
    every caveat whose strings cannot be mistaken for a predicate, the code equals
    the one [caveats.evaluate] gives. *)
From S2P Require Import Prelude PyText Errors PyNum PyTime PyRe PyUuid Models Caveats Datalogic Tokens.

(** ** Decimal digits *)
Lemma digit_value_ascii c : is_digit c = true → digit_value c = Some (c - 48).
Proof.
  unfold is_digit. intros Hc. zify_bool. unfold digit_value, unicode_zeros. cbn [list_find].
  rewrite decide_True by lia. reflexivity.
Qed.

Lemma is_unicode_digit_ascii c : is_digit c = true → is_unicode_digit c = true.
Proof. intros Hc. unfold is_unicode_digit. rewrite digit_value_ascii by done. done. Qed.

Lemma py_str_int_digits n : 0 <= n →
  forallb is_digit (py_str_int n) = true ∧ py_str_int n ≠ [].
Proof.
  intros Hn. split.
  - unfold py_str_int. destruct n; [done| |lia]. simpl. apply uint_chars_digits.
  - intros H. pose proof (py_int_str n) as Hi. rewrite H in Hi.
    change (py_int []) with 0 in Hi. subst n. done.
Qed.

Lemma drop_while_head p s : match s with c :: _ => p c = false | [] => True end → drop_while p s = s.
Proof. destruct s as [|c s]; simpl; [done|]. by intros ->. Qed.

Lemma digit_not_space c : is_digit c = true → is_space c = false.
Proof.
  unfold is_digit. intros. zify_bool.
  assert (c = 48 ∨ c = 49 ∨ c = 50 ∨ c = 51 ∨ c = 52 ∨ c = 53 ∨ c = 54 ∨ c = 55 ∨ c = 56 ∨ c = 57)
    as Hc by lia.
  by repeat destruct Hc as [->|Hc]; subst.
Qed.

Lemma py_strip_digits s : forallb is_digit s = true → py_strip s = s.
Proof.
  intros Hs. unfold py_strip. rewrite (drop_while_head _ s).
  - rewrite drop_while_head; [apply reverse_involutive|].
    destruct (reverse s) as [|c r] eqn:E; [done|].
    apply digit_not_space. rewrite forallb_forall in Hs. apply Hs, list_elem_of_In.
    apply elem_of_reverse. rewrite E. left.
  - destruct s as [|c s]; [done|]. simpl in Hs. apply andb_true_iff in Hs as [? _].
    by apply digit_not_space.
Qed.

Lemma base_digits_digits s acc after :
  forallb is_digit s = true → (after = true ∨ s ≠ []) →
  base_digits 10 s acc after = Some (foldl (λ a c, 10 * a + (c - 48)) acc s).
Proof.
  revert acc after. induction s as [|c s IH]; intros acc after Hs Ha; simpl.
  { by destruct Ha as [->|]. }
  simpl in Hs. apply andb_true_iff in Hs as [Hc Hs].
  assert (base_digit 10 c = Some (c - 48)) as Hb.
  { unfold base_digit. rewrite digit_value_ascii by done.
    unfold is_digit in Hc. zify_bool. rewrite (proj2 (Z.ltb_lt _ _)) by lia. done. }
  rewrite Hb. unfold is_digit in Hc. zify_bool.
  destruct (decide (c = 95)) as [->|]; [lia|].
  rewrite IH by auto.
  repeat (match goal with |- context [match ?x with _ => _ end] => destruct x end; try done; try lia).
Qed.

Lemma split_sign_digits s : forallb is_digit s = true → split_sign s = (false, s).
Proof.
  destruct s as [|c s]; [done|]. simpl. intros [Hc _]%andb_true_iff.
  unfold is_digit in Hc. zify_bool. unfold split_sign.
  repeat (match goal with |- context [match ?x with _ => _ end] => destruct x end; try done; try lia).
Qed.

Lemma filter_digits s : forallb is_digit s = true → filter (λ c, c ≠ 95) s = s.
Proof.
  induction s as [|c s IH]; [done|]. simpl. intros [Hc Hs]%andb_true_iff.
  unfold is_digit in Hc. zify_bool. rewrite filter_cons_True by lia. by rewrite IH.
Qed.

(** [int(str(n))] for a natural number of at most 4300 digits. *)
Lemma parse_int10_str n :
  0 <= n → (length (py_str_int n) <= MAX_STR_DIGITS)%nat → parse_int10 (py_str_int n) = Some n.
Proof.
  intros Hn Hl. destruct (py_str_int_digits n Hn) as [Hd Hne]. unfold parse_int10.
  rewrite py_strip_digits, split_sign_digits, filter_digits by done.
  destruct (Nat.ltb_spec MAX_STR_DIGITS (length (py_str_int n))); [lia|].
  rewrite base_digits_digits by auto. simpl. f_equal.
  fold (digits_val (py_str_int n)).
  rewrite <- (py_int_str n) at 2. unfold py_int.
  destruct (py_str_int n) as [|c s]; [done|]. simpl in Hd. apply andb_true_iff in Hd as [Hc _].
  unfold is_digit in Hc. zify_bool.
  repeat (match goal with |- context [match ?x with _ => _ end] => destruct x end; try done; try lia).
Qed.

(** ** The error line *)
Definition degree : Z := 176.

(** [Check n°<i> in block n°<j>: <source>]. *)
Definition check_line (i j : Z) (source : pystr) : pystr :=
  u "Check n" ++ [degree] ++ py_str_int i ++ u " in block n" ++ [degree] ++ py_str_int j
  ++ u ": " ++ source.

Lemma contains_unfold sub s :
  contains sub s = starts_with sub s || match s with [] => false | _ :: s => contains sub s end.
Proof. by destruct s. Qed.

Lemma strip_prefix_starts p s : starts_with p s = false → strip_prefix p s = None.
Proof.
  revert s. induction p as [|a p IH]; intros [|b s]; simpl; try done.
  destruct (a =? b); simpl; auto.
Qed.

Lemma no_match_here {A} s (k : pystr → captures → option A) :
  starts_with (u "Check n") s = false → match_re _FAILED_CHECK_RE s [] k = None.
Proof.
  intros Hs. unfold _FAILED_CHECK_RE. cbn [match_re]. by rewrite strip_prefix_starts.
Qed.

Lemma finditer_none fuel pos s :
  contains (u "Check n") s = false → finditer_from _FAILED_CHECK_RE fuel pos s = [].
Proof.
  revert pos s. induction fuel as [|fuel IH]; intros pos s Hs; [done|].
  rewrite contains_unfold in Hs. apply orb_false_iff in Hs as [Hs Hr].
  cbn [finditer_from]. rewrite no_match_here by done. destruct s; auto.
Qed.

Lemma finditer_skip fuel pos pre s :
  67 ∉ pre →
  finditer_from _FAILED_CHECK_RE (length pre + fuel) pos (pre ++ s)
  = finditer_from _FAILED_CHECK_RE fuel (pos + length pre) s.
Proof.
  revert pos. induction pre as [|c pre IH]; intros pos Hp; [simpl; f_equal; lia|].
  apply not_elem_of_cons in Hp as [Hc Hp]. cbn [length app Nat.add finditer_from].
  rewrite no_match_here.
  2: { change ((67 =? c) && starts_with (u "heck n") (pre ++ s) = false).
       by rewrite (proj2 (Z.eqb_neq _ _)). }
  rewrite IH by done. f_equal. lia.
Qed.

Lemma plus_digits {A} (ds t : pystr) c (env : captures) (k : pystr → captures → option A) :
  forallb is_digit ds = true → ds ≠ [] → is_unicode_digit c = false →
  (∀ x s, is_unicode_digit x = true → ∀ env, k (x :: s) env = None) →
  match_re (Plus is_unicode_digit) (ds ++ c :: t) env k = k (c :: t) env.
Proof.
  intros Hd Hne Hc Hk. destruct ds as [|d ds]; [done|]. simpl in Hd.
  apply andb_true_iff in Hd as [Hd1 Hd]. simpl. rewrite is_unicode_digit_ascii by done.
  apply (star_re_delim _ _ _ _ (λ s, k s env)); [|done|intros; by apply Hk].
  rewrite forallb_forall in Hd |- *. intros x Hx. apply is_unicode_digit_ascii. auto.
Qed.

Lemma strip_cons_ne (c x : Z) l s : c ≠ x → strip_prefix (c :: l) (x :: s) = None.
Proof. intros Hc. simpl. by rewrite (proj2 (Z.eqb_neq _ _)). Qed.

Lemma check_line_match {A} i j source (k : pystr → captures → option A) :
  0 <= i → 0 <= j →
  match_re _FAILED_CHECK_RE (check_line i j source) [] k
  = k source [("block"%string, py_str_int j); ("check"%string, py_str_int i)].
Proof.
  intros Hi Hj. destruct (py_str_int_digits i Hi) as [Hdi Hni].
  destruct (py_str_int_digits j Hj) as [Hdj Hnj].
  unfold _FAILED_CHECK_RE, check_line. cbn [match_re].
  rewrite strip_prefix_app. cbn [app]. change (negb (degree =? newline)) with true. cbn iota.
  assert (∀ s : pystr, u " in block n" ++ s = 32 :: u "in block n" ++ s) as E1 by done.
  assert (∀ s : pystr, u ": " ++ s = 58 :: u " " ++ s) as E2 by done.
  rewrite E1, plus_digits; [|done|done|vm_compute; reflexivity|].
  2: { intros x s Hx env. cbn [match_re].
       change (strip_prefix _ (x :: s)) with (strip_prefix (32 :: u "in block n") (x :: s)).
       rewrite strip_cons_ne; [done|]. intros <-. done. }
  rewrite <- E1, strip_prefix_app. cbn [app]. change (negb (degree =? newline)) with true.
  cbn iota. rewrite E2, plus_digits; [|done|done|vm_compute; reflexivity|].
  2: { intros x s Hx env. cbn [match_re].
       change (strip_prefix _ (x :: s)) with (strip_prefix (58 :: u " ") (x :: s)).
       rewrite strip_cons_ne; [done|]. intros <-. done. }
  rewrite <- E2, strip_prefix_app. f_equal. f_equal; [|f_equal]; f_equal; f_equal.
  - rewrite !length_app. simpl. 
    replace (length (py_str_int j) + _ - _)%nat with (length (py_str_int j)) by lia.
    apply take_app_length.
  - rewrite !length_app. simpl. rewrite !length_app. simpl.
    match goal with |- take ?n _ = _ => replace n with (length (py_str_int i)) by lia end.
    apply take_app_length.
Qed.

(** ** Finding a predicate in a check *)
Definition lparen : Z := 40.

Fixpoint ends_with (w a : pystr) : bool :=
  bool_decide (w = a) || match a with [] => false | _ :: a => ends_with w a end.

Lemma starts_with_paren w a b :
  lparen ∉ w → lparen ∉ a →
  starts_with (w ++ [lparen]) (a ++ lparen :: b) = bool_decide (w = a).
Proof.
  unfold lparen. revert a. induction w as [|x w IH]; intros [|y a] Hw Ha;
    cbn [app starts_with]; [done|..].
  - apply not_elem_of_cons in Ha as [Hy _]. rewrite (proj2 (Z.eqb_neq _ _)) by done. done.
  - apply not_elem_of_cons in Hw as [Hx _]. rewrite (proj2 (Z.eqb_neq _ _)) by done. done.
  - apply not_elem_of_cons in Hw as [Hx Hw]. apply not_elem_of_cons in Ha as [Hy Ha].
    rewrite IH by done. destruct (Z.eqb_spec x y) as [->|Hne]; cbn [andb].
    + apply bool_decide_ext. naive_solver.
    + by rewrite bool_decide_eq_false_2 by (by intros [= ??]).
Qed.

Lemma contains_paren w a b :
  lparen ∉ w → lparen ∉ a →
  contains (w ++ [lparen]) (a ++ lparen :: b) = ends_with w a || contains (w ++ [lparen]) b.
Proof.
  intros Hw. induction a as [|y a IH]; intros Ha; rewrite contains_unfold;
    rewrite starts_with_paren by done; [by simpl; rewrite orb_false_r|].
  apply not_elem_of_cons in Ha as [Hy Ha]. cbn [app]. rewrite IH by done.
  cbn [ends_with]. by rewrite orb_assoc.
Qed.

Lemma contains_no_paren w b : lparen ∉ b → contains (w ++ [lparen]) b = false.
Proof.
  induction b as [|y b IH]; intros Hb; rewrite contains_unfold.
  - rewrite orb_false_r. destruct w as [|x w]; done.
  - apply not_elem_of_cons in Hb as [Hy Hb]. rewrite IH by done. rewrite orb_false_r.
    assert (∀ s, lparen ∉ s → starts_with (w ++ [lparen]) s = false) as Hs.
    { clear. induction w as [|x w IH]; intros [|z s] Hs; cbn [app starts_with]; try done.
      - apply not_elem_of_cons in Hs as [Hz _]. by rewrite (proj2 (Z.eqb_neq _ _)).
      - apply not_elem_of_cons in Hs as [_ Hs]. rewrite IH by done. apply andb_false_r. }
    apply Hs. by apply not_elem_of_cons.
Qed.

Lemma contains_absent c sub s : c ∉ s → contains (c :: sub) s = false.
Proof.
  induction s as [|y s IH]; intros Hs; [done|]. apply not_elem_of_cons in Hs as [Hy Hs].
  cbn [contains starts_with]. rewrite (proj2 (Z.eqb_neq _ _)) by done. simpl. auto.
Qed.

Lemma ends_with_last w x c : w ≠ [] → last w ≠ Some c → ends_with w (x ++ [c]) = false.
Proof.
  intros Hw Hl. induction x as [|y x IH]; cbn [app ends_with].
  - rewrite !bool_decide_eq_false_2; [done|done|]. intros ->. by apply Hl.
  - rewrite IH, bool_decide_eq_false_2; [done|]. intros ->. apply Hl.
    change (y :: x ++ [c]) with ((y :: x) ++ [c]). apply last_snoc.
Qed.

(** ** Strings that cannot be mistaken *)

(** No parenthesis and no [C], so no predicate and no error-line prefix. *)
Definition plain_str (s : pystr) : bool := forallb (λ c, negb (c =? lparen) && negb (c =? 67)) s.

Definition plain_value (v : caveat_value) : bool :=
  match v with
  | CNum _ => true | CStr s => plain_str s | CSet X => forallb plain_str (elements X)
  end.

Definition plain_caveat (c : Caveat) : bool :=
  match c with
  | ScopeSubset X | ToolAllow X | ToolDeny X => forallb plain_str (elements X)
  | ArgPredicate p _ v => plain_str p && plain_value v
  | IntentBound h => plain_str h
  | TimeWindow nb na =>
      match nb with Some t => plain_str (datalog_date t) | None => true end
      && match na with Some t => plain_str (datalog_date t) | None => true end
  | _ => true
  end.

Definition plain (s : pystr) : Prop := plain_str s = true.

Lemma plain_app s t : plain s → plain t → plain (s ++ t).
Proof. unfold plain, plain_str. rewrite forallb_app. by intros -> ->. Qed.

Lemma plain_not s : plain s → (lparen ∉ s) ∧ (67 ∉ s).
Proof.
  unfold plain, plain_str. rewrite forallb_forall. intros Hs.
  split; intros Hin%list_elem_of_In; specialize (Hs _ Hin); by vm_compute in Hs.
Qed.

Lemma plain_quote s : plain s → plain (quote_string s).
Proof.
  intros Hs. unfold quote_string. apply plain_app; [done|]. apply plain_app; [|done].
  assert (∀ c r t, plain r → plain t → plain (replace_char c r t)) as Hr.
  { intros c r t Hr. unfold plain, plain_str, replace_char. induction t as [|x t IH]; [done|].
    cbn [forallb]. intros [Hx Ht]%andb_true_iff. cbn [mbind list_bind].
    change (plain ((if x =? c then r else [x]) ++ (t ≫= λ a, if a =? c then r else [a]))).
    apply plain_app; [|by apply IH]. destruct (x =? c); [done|].
    unfold plain, plain_str. cbn [forallb]. by rewrite Hx. }
  apply Hr; [done|]. by apply Hr.
Qed.

Lemma plain_join sep l : plain sep → Forall plain l → plain (py_join sep l).
Proof.
  intros Hs. induction 1 as [|x l Hx Hl IH]; [done|]. destruct l as [|y l]; [done|].
  change (plain (x ++ sep ++ py_join sep (y :: l))).
  apply plain_app; [done|]. by apply plain_app.
Qed.

Lemma plain_set X : forallb plain_str (elements X) = true → plain (_set_literal X).
Proof.
  intros HX. unfold _set_literal. apply plain_app; [done|]. apply plain_app; [|done].
  apply plain_join; [done|]. apply Forall_fmap, Forall_forall. intros s Hs. simpl.
  rewrite elem_of_py_sorted in Hs. apply plain_quote. rewrite forallb_forall in HX.
  unfold plain. by apply HX, list_elem_of_In.
Qed.

Lemma plain_int n : plain (py_str_int n).
Proof.
  unfold plain, plain_str, py_str_int.
  assert (∀ d, forallb (λ c, negb (c =? lparen) && negb (c =? 67)) (uint_chars d) = true) as H
    by (intros d; induction d; simpl; auto).
  destruct (Z.to_int n); simpl; auto.
Qed.

(** ** The check as biscuit quotes it: the clause without its [;]. *)
Definition check_text (c : clause) : pystr :=
  (if cl_reject c then u "reject if " else u "check if ")
  ++ u (cl_pred c) ++ u "("
  ++ match cl_key c with Some k => quote_string k ++ u ", " | None => [] end
  ++ u "$" ++ u (cl_var c) ++ u "), "
  ++ match cl_guard c with
     | GContains neg X =>
         (if neg then u "!" else []) ++ _set_literal X ++ u ".contains($" ++ u (cl_var c) ++ u ")"
     | GCompare op t =>
         u "$" ++ u (cl_var c) ++ u " " ++ cmp_text op ++ u " " ++ render_term t
     end.

Lemma check_text_render c : render_clause c = check_text c ++ u ";".
Proof. unfold render_clause, check_text. destruct (cl_guard c); by rewrite <- !app_assoc. Qed.

(** [w] is none of the predicates a check quantifies over. *)
Definition not_a_predicate (s : pystr) : Prop :=
  ∀ p, p ∈ _FACT_REASONS → contains (u p.1) s = false.

Lemma plain_quiet s : plain s → not_a_predicate s.
Proof.
  intros [Hs _]%plain_not p Hp. unfold _FACT_REASONS in Hp.
  repeat (apply elem_of_cons in Hp as [->|Hp];
    [match goal with |- contains ?w _ = _ =>
       let w' := eval vm_compute in (take (length w - 1) w) in
       change w with (w' ++ [lparen]) end; by apply contains_no_paren|]).
  by apply elem_of_nil in Hp.
Qed.

Lemma contains_call_quiet s r :
  plain s → plain r → not_a_predicate (s ++ u ".contains(" ++ r).
Proof.
  intros [Hs _]%plain_not Hr p Hp. pose proof (plain_quiet r Hr p Hp) as Hq.
  change (u ".contains(" ++ r) with (u ".contains" ++ lparen :: r). rewrite app_assoc.
  unfold _FACT_REASONS in Hp.
  repeat (apply elem_of_cons in Hp as [->|Hp];
    [match type of Hq with contains ?w _ = _ =>
       let w' := eval vm_compute in (take (length w - 1) w) in
       change w with (w' ++ [lparen]) in Hq |- * end;
     rewrite contains_paren, Hq, orb_false_r by
       (rewrite ?elem_of_app; intros Hx; vm_compute in Hx; set_solver || naive_solver);
     change (u ".contains") with (u ".contain" ++ [115]); rewrite app_assoc;
     apply ends_with_last; vm_compute; done|]).
  by apply elem_of_nil in Hp.
Qed.

Lemma list_find_ext_in {A} (P Q : A → Prop) `{∀ x, Decision (P x), ∀ x, Decision (Q x)} l :
  (∀ x, x ∈ l → P x ↔ Q x) → list_find P l = list_find Q l.
Proof.
  induction l as [|x l IH]; intros HPQ; [done|]. simpl.
  rewrite IH by (intros; apply HPQ; by right).
  destruct (decide (P x)) as [HP|HP], (decide (Q x)) as [HQ|HQ]; try done;
    exfalso; [apply HQ, HPQ|apply HP, HPQ]; done || left.
Qed.

Lemma reason_of_call a r :
  lparen ∉ a → not_a_predicate r →
  reason_of_check _FACT_REASONS (a ++ lparen :: r)
  = (p ← list_find (λ p : string * ReasonCode, ends_with (removelast (u p.1)) a = true)
           _FACT_REASONS; Some p.2.2).
Proof.
  intros Ha Hr. unfold reason_of_check. f_equal. apply list_find_ext_in. intros p Hp.
  specialize (Hr p Hp).
  assert (u p.1 = removelast (u p.1) ++ [lparen] ∧ lparen ∉ removelast (u p.1)) as [E Hn].
  { unfold _FACT_REASONS in Hp.
    repeat (apply elem_of_cons in Hp as [->|Hp];
      [split; [done|]; intros Hx; vm_compute in Hx; 
       repeat (apply elem_of_cons in Hx as [Hx|Hx]; [done|]); by apply elem_of_nil in Hx|]).
    by apply elem_of_nil in Hp. }
  rewrite E, contains_paren, <- E, Hr, orb_false_r by done. done.
Qed.

Definition clause_plain (c : clause) : Prop :=
  match cl_key c with Some k => plain k | None => True end
  ∧ match cl_guard c with
    | GContains _ X => plain (_set_literal X)
    | GCompare _ t => plain (render_term t)
    end.

Lemma plain_cmp op : plain (cmp_text op).
Proof. by destruct op. Qed.
Lemma plain_neg (neg : bool) : plain (if neg then u "!" else []).
Proof. by destruct neg. Qed.

Ltac plains :=
  repeat first [assumption | reflexivity | apply plain_cmp | apply plain_neg | apply plain_app].

(** The text up to its predicate, and what follows the parenthesis. *)
Lemma check_text_reason c :
  clause_plain c → plain (u (cl_var c)) → (lparen ∉ u (cl_pred c)) →
  reason_of_check _FACT_REASONS (check_text c)
  = (p ← list_find (λ p : string * ReasonCode, ends_with (removelast (u p.1))
            ((if cl_reject c then u "reject if " else u "check if ") ++ u (cl_pred c)) = true)
           _FACT_REASONS; Some p.2.2).
Proof.
  intros [Hk Hg] Hv Hp.
  assert (plain (match cl_key c with Some k => quote_string k ++ u ", " | None => [] end)) as Hk'.
  { destruct (cl_key c); [|done]. apply plain_app; [by apply plain_quote|done]. }
  set (head := (if cl_reject c then u "reject if " else u "check if ") ++ u (cl_pred c)).
  set (key := match cl_key c with Some k => quote_string k ++ u ", " | None => [] end) in *.
  assert (lparen ∉ head) as Hh.
  { unfold head. intros [Hx|Hx]%elem_of_app; [|done]. destruct (cl_reject c); vm_compute in Hx;
      repeat (apply elem_of_cons in Hx as [Hx|Hx]; [done|]); by apply elem_of_nil in Hx. }
  destruct (cl_guard c) as [neg X|op t] eqn:Eg.
  - assert (check_text c = head ++ lparen ::
      ((key ++ u "$" ++ u (cl_var c) ++ u "), " ++ (if neg then u "!" else []) ++ _set_literal X)
       ++ u ".contains(" ++ u "$" ++ u (cl_var c) ++ u ")")) as ->.
    { unfold check_text, head. rewrite Eg. rewrite <- !app_assoc. reflexivity. }
    apply reason_of_call; [done|]. apply contains_call_quiet; by plains.
  - assert (check_text c = head ++ lparen ::
      (key ++ u "$" ++ u (cl_var c) ++ u "), "
       ++ u "$" ++ u (cl_var c) ++ u " " ++ cmp_text op ++ u " " ++ render_term t)) as ->.
    { unfold check_text, head. rewrite Eg. rewrite <- !app_assoc. reflexivity. }
    apply reason_of_call; [done|]. apply plain_quiet; by plains.
Qed.

Lemma plain_term s t : term_of_scalar s = Ok t →
  match s with SStr x => plain x | SNum _ => True end → plain (render_term t).
Proof.
  destruct s as [d|x]; simpl; intros Ht Hs; inv_ok; simpl; [apply plain_int|by apply plain_quote].
Qed.

Lemma compile_plain c cls cl :
  plain_caveat c = true → compile c = Ok cls → cl ∈ cls → clause_plain cl.
Proof.
  intros Hp Hc Hcl. unfold clause_plain.
  destruct c as [X|d v|nb na|X|X|path op v|n|h|X]; simpl in Hc, Hp.
  - inv_ok. apply list_elem_of_singleton in Hcl as ->. split; [done|]. by apply plain_set.
  - inv_ok. apply list_elem_of_singleton in Hcl as ->. simpl. split; [|apply plain_int].
    by destruct d.
  - inv_ok. apply andb_true_iff in Hp as [Hb Ha].
    apply elem_of_app in Hcl as [Hcl|Hcl]; [destruct nb|destruct na];
      try (by apply elem_of_nil in Hcl); by apply list_elem_of_singleton in Hcl as ->.
  - inv_ok. apply list_elem_of_singleton in Hcl as ->. split; [done|]. by apply plain_set.
  - inv_ok. apply list_elem_of_singleton in Hcl as ->. split; [done|]. by apply plain_set.
  - apply andb_true_iff in Hp as [Hpath Hv].
    destruct v as [b|s|Y], op; try done; simpl in Hc; inv_ok;
      apply list_elem_of_singleton in Hcl as ->; simpl; (split; [done|]);
      first [by apply plain_set | apply plain_int | by apply plain_quote].
  - inv_ok. apply list_elem_of_singleton in Hcl as ->. split; [done|]. apply plain_int.
  - inv_ok. apply list_elem_of_singleton in Hcl as ->. split; [done|]. by apply plain_quote.
  - inv_ok. by apply elem_of_nil in Hcl.
Qed.

(** The code each kind of caveat refuses with, as the error text names it. *)
Definition kind_code (c : Caveat) : ReasonCode :=
  match c with
  | ScopeSubset _ => SCOPE_ATTENUATED_AWAY
  | BudgetCeiling _ _ => BUDGET_EXHAUSTED_CAVEAT
  | TimeWindow _ _ => TOKEN_EXPIRED
  | ToolAllow _ | ToolDeny _ => TOOL_DENIED
  | ArgPredicate _ _ _ => ARG_PREDICATE_FAILED
  | DepthLimit _ => DEPTH_EXCEEDED
  | IntentBound _ => INTENT_MISMATCH
  | RequiresApproval _ => APPROVAL_REQUIRED
  end.

Lemma evaluate_kind_code c ctx r :
  evaluate c ctx = Ok r → res_outcome r = DENY →
  res_reason r = kind_code c ∨ res_reason r = TOKEN_NOT_YET_VALID.
Proof.
  intros He Hr. destruct c as [X|d v|nb na|X|X|path op v|n|h|X]; cbn [evaluate kind_code] in *.
  6: { destruct (ctx_args ctx !! path); [|by inv_ok].
       apply bind_Ok_inv in He as (sat & _ & [= <-]). destruct sat; [done|by left]. }
  2: { injection He as <-. destruct (_ <=? _); [done|by left]. }
  5: { injection He as <-. destruct (_ <=? _); [done|by left]. }
  2: { injection He as <-. destruct nb, na; cbv zeta iota in *;
         repeat match goal with |- context [?x <? ?y] => destruct (x <? y)
                              | |- context [?x <=? ?y] => destruct (x <=? y) end; auto; done. }
  all: injection He as <-; try destruct (ctx_tool ctx); try destruct (bool_decide _);
    first [done | by left].
Qed.

Lemma compile_reason c cls cl :
  plain_caveat c = true → compile c = Ok cls → cl ∈ cls →
  reason_of_check _FACT_REASONS (check_text cl) = Some (kind_code c).
Proof.
  intros Hp Hc Hcl. pose proof (compile_plain _ _ _ Hp Hc Hcl) as Hcp.
  assert (∀ p, p ∈ ["operation"; "requested"; "time"; "tool"; "arg"; "current_depth";
                    "request_intent"]%string → lparen ∉ u p) as Hq.
  { intros p Hin. repeat (apply elem_of_cons in Hin as [->|Hin];
      [intros Hx; vm_compute in Hx;
       repeat (apply elem_of_cons in Hx as [Hx|Hx]; [done|]); by apply elem_of_nil in Hx|]).
    by apply elem_of_nil in Hin. }
  assert (clause_plain cl → plain (u (cl_var cl)) → lparen ∉ u (cl_pred cl) →
    list_find (λ p : string * ReasonCode, ends_with (removelast (u p.1))
      ((if cl_reject cl then u "reject if " else u "check if ") ++ u (cl_pred cl)) = true)
      _FACT_REASONS ≫= (λ p, Some p.2.2) = Some (kind_code c) →
    reason_of_check _FACT_REASONS (check_text cl) = Some (kind_code c)) as Hkey
    by (intros; by rewrite check_text_reason).
  destruct c as [X|d v|nb na|X|X|path op v|n|h|X]; simpl in Hc, Hp.
  3: { inv_ok. apply elem_of_app in Hcl as [Hcl|Hcl]; [destruct nb|destruct na];
       try (by apply elem_of_nil in Hcl); apply list_elem_of_singleton in Hcl as ->;
       apply Hkey; [done|done|apply Hq; set_solver|done|done|done|apply Hq; set_solver|done]. }
  5: { destruct v as [b|s|Y], op; try done; simpl in Hc; inv_ok;
         apply list_elem_of_singleton in Hcl as ->;
         (apply Hkey; [done|done|apply Hq; set_solver|done]). }
  7: { inv_ok. by apply elem_of_nil in Hcl. }
  all: inv_ok; apply list_elem_of_singleton in Hcl as ->; apply Hkey;
    [done|done|apply Hq; set_solver|done].
Qed.

(** ** The whole message *)
Definition separator (c : Z) : bool := (c =? 44) || (c =? 32).

Lemma drop_while_app p s t : forallb p s = true → drop_while p (s ++ t) = drop_while p t.
Proof. induction s as [|c s IH]; simpl; [done|]. intros [-> Hs]%andb_true_iff. auto. Qed.

Lemma rstrip_stop p s c t :
  p c = false → forallb p t = true → rstrip_chars p ((s ++ [c]) ++ t) = s ++ [c].
Proof.
  intros Hc Ht. unfold rstrip_chars. rewrite reverse_app, drop_while_app.
  - rewrite reverse_snoc. simpl. rewrite Hc. rewrite reverse_cons, reverse_involutive. done.
  - rewrite forallb_forall in Ht |- *. intros x Hx.
    by apply Ht, list_elem_of_In, elem_of_reverse, list_elem_of_In.
Qed.

Definition ends_well (s : pystr) : Prop := ∃ a c, s = a ++ [c] ∧ separator c = false.

Lemma ends_well_app s t : ends_well t → ends_well (s ++ t).
Proof. intros (a & c & -> & Hc). exists (s ++ a), c. by rewrite app_assoc. Qed.

Lemma uint_chars_ends d : uint_chars d ≠ [] → ends_well (uint_chars d).
Proof.
  intros Hne. destruct (exists_last Hne) as (a & c & E). exists a, c. split; [done|].
  pose proof (uint_chars_digits d) as Hd. rewrite E, forallb_app in Hd. simpl in Hd.
  unfold separator. unfold is_digit in Hd. zify_bool. apply orb_false_iff. split; blia.
Qed.

Lemma int_ends n : ends_well (py_str_int n).
Proof.
  assert (∀ d, uint_chars d ≠ [] ∨ d = Decimal.Nil) as Hd by (intros []; simpl; auto).
  unfold py_str_int. destruct (Z.to_int n) as [d|d] eqn:E.
  - destruct (Hd d) as [?| ->]; [by apply uint_chars_ends|].
    pose proof (DecimalZ.of_to n) as Hz. rewrite E in Hz. simpl in Hz. subst n. done.
  - change (45 :: uint_chars d) with ([45] ++ uint_chars d).
    destruct (Hd d) as [?| ->]; [by apply ends_well_app, uint_chars_ends|].
    exists [], 45. done.
Qed.

Lemma check_text_ends cl : ends_well (check_text cl).
Proof.
  unfold check_text. do 7 apply ends_well_app. destruct (cl_guard cl) as [neg X|op t].
  - do 4 apply ends_well_app. by exists [], 41.
  - do 5 apply ends_well_app. destruct t as [s|n|t]; simpl.
    + unfold quote_string. do 2 apply ends_well_app. by exists [], 34.
    + apply int_ends.
    + unfold date_text. destruct (ord2ymd _) as [[y m] d]. do 11 apply ends_well_app.
      by exists [], 90.
Qed.

Lemma check_text_plain_C cl :
  clause_plain cl → (67 ∉ u (cl_pred cl)) → plain (u (cl_var cl)) → 67 ∉ check_text cl.
Proof.
  intros [Hk Hg] Hp Hv. unfold check_text.
  assert (∀ s, plain s → 67 ∉ s) as HC by (intros s Hs; by apply plain_not).
  rewrite !elem_of_app. intros [Hx|[Hx|[Hx|[Hx|[Hx|[Hx|[Hx|Hx]]]]]]].
  2: done.
  2: { by apply (bool_decide_unpack (67 ∉ u "(")) in Hx. }
  5: { by apply (bool_decide_unpack (67 ∉ u "), ")) in Hx. }
  all: revert Hx.
  - destruct (cl_reject cl); by apply HC.
  - apply HC. destruct (cl_key cl); [|done]. apply plain_app; [by apply plain_quote|done].
  - by apply HC.
  - by apply HC.
  - destruct (cl_guard cl) as [neg X|op t].
    + rewrite !elem_of_app. intros [Hx|[Hx|[Hx|[Hx|Hx]]]].
      * revert Hx. apply HC, plain_neg.
      * revert Hx. by apply HC.
      * by apply (bool_decide_unpack (67 ∉ u ".contains($")) in Hx.
      * revert Hx. by apply HC.
      * by apply (bool_decide_unpack (67 ∉ u ")")) in Hx.
    + apply HC. by plains.
Qed.

(** What may follow: nothing, or a separator and the next failed check. *)
Definition next_line (next : option (Z * Z * pystr)) : pystr :=
  match next with Some (i, j, s) => u ", " ++ check_line i j s | None => [] end.

Lemma check_line_app i j s : ∃ h, check_line i j s = h ++ s.
Proof. unfold check_line. rewrite !app_assoc. eauto. Qed.

Lemma first_failure_line i j src pre next reason :
  0 <= i → 0 < j → (length (py_str_int j) <= MAX_STR_DIGITS)%nat →
  67 ∉ pre → 67 ∉ src → ends_well src →
  match next with Some (i, j, _) => 0 <= i ∧ 0 <= j | None => True end →
  reason_of_check _FACT_REASONS src = Some reason →
  _first_failure (pre ++ check_line i j (src ++ next_line next))
  = Ok (mkAuthorityFailure j src reason).
Proof.
  intros Hi Hj Hlen Hpre Hsrc (a & c & -> & Hc) Hnext Hr.
  set (src := a ++ [c]) in *. set (rest := src ++ next_line next).
  destruct (check_line_app i j rest) as (h & Hh).
  assert (finditer _FAILED_CHECK_RE (pre ++ h ++ rest)
    = Found (length pre) (length pre + length h)
        [("block"%string, py_str_int j); ("check"%string, py_str_int i)]
      :: finditer_from _FAILED_CHECK_RE (length h + length rest) (length pre + length h) rest)
    as Hfind.
  { unfold finditer. rewrite length_app. rewrite <- Nat.add_succ_r, finditer_skip by done.
    cbn [finditer_from]. rewrite <- Hh, check_line_match by lia. rewrite Hh, length_app.
    replace (length h + length rest - length rest)%nat with (length h) by lia.
    by rewrite drop_app_length. }
  unfold _first_failure. rewrite Hh, Hfind. cbn [fd_end fd_env fd_start].
  assert (rstrip_chars separator
    (take (match finditer_from _FAILED_CHECK_RE (length h + length rest) (length pre + length h) rest with
           | m :: _ => fd_start m | [] => length (pre ++ h ++ rest) end - (length pre + length h))
       (drop (length pre + length h) (pre ++ h ++ rest))) = src) as Htake.
  { rewrite app_assoc, drop_app_length' by (rewrite length_app; lia).
    rewrite (length_app (pre ++ h)), (length_app pre). unfold rest. destruct next as [[[i' j'] s']|]; unfold next_line.
    - rewrite (app_assoc src), (length_app (src ++ _)).
      replace (length h + (length (src ++ u ", ") + length (check_line i' j' s')))%nat
        with (length (src ++ u ", ") + (length h + length (check_line i' j' s')))%nat by lia.
      rewrite finditer_skip.
      2: { intros [?|Hx]%elem_of_app; [done|]. by apply (bool_decide_unpack (67 ∉ u ", ")) in Hx. }
      destruct Hnext as [Hi' Hj'].
      destruct (length h + length (check_line i' j' s'))%nat as [|fuel] eqn:Ef.
      { unfold check_line in Ef. rewrite length_app in Ef. simpl in Ef. lia. }
      cbn [finditer_from]. rewrite check_line_match by lia. cbn [fd_start].
      rewrite length_app. rewrite take_app_length' by (rewrite length_app; lia).
      by apply rstrip_stop.
    - rewrite app_nil_r, finditer_none by (by apply contains_absent).
      rewrite take_ge by lia. pose proof (rstrip_stop separator a c [] Hc eq_refl) as Hs.
      by rewrite app_nil_r in Hs. }
  unfold separator in Htake. rewrite Htake.
  change (default [] _) with (py_str_int j).
  rewrite (parse_int10_str j) by (done || lia). cbn [mbind res_bind].
  rewrite (proj2 (Z.eqb_neq j AUTHORITY_BLOCK)) by (unfold AUTHORITY_BLOCK; lia).
  by rewrite Hr.
Qed.

(** When a check of an attenuation block fails, the block number, the check and
    the reason code recovered from biscuit's message are those of the caveat the
    check was compiled from, whatever other failures follow it in the message; the
    one exception is a window not yet open, which the message cannot tell from an
    expired one.  The proviso is that no string in the caveat holds a parenthesis
    (or a [C], which could begin another error line). *)
Theorem refusal_attributed c cls cl ctx r i j pre next :
  plain_caveat c = true → compile c = Ok cls → cl ∈ cls →
  evaluate c ctx = Ok r → res_outcome r = DENY → res_reason r ≠ TOKEN_NOT_YET_VALID →
  0 <= i → 0 < j → (length (py_str_int j) <= MAX_STR_DIGITS)%nat → 67 ∉ pre →
  match next with Some (i, j, _) => 0 <= i ∧ 0 <= j | None => True end →
  _first_failure (pre ++ check_line i j (check_text cl ++ next_line next))
  = Ok (mkAuthorityFailure j (check_text cl) (res_reason r)).
Proof.
  intros Hp Hc Hcl He Hr Hny Hi Hj Hlen Hpre Hnext.
  destruct (evaluate_kind_code _ _ _ He Hr) as [->|]; [|done].
  apply first_failure_line; try done; [|apply check_text_ends|by eapply compile_reason].
  apply check_text_plain_C; [by eapply compile_plain|..];
    destruct c as [X|d v|[?|] [?|]|X|X|path op [?|?|?]|n|h|X]; try destruct op;
    simpl in Hc; try done; inv_ok;
    repeat match goal with
    | Hx : _ ∈ [_] |- _ => apply list_elem_of_singleton in Hx as ->
    | Hx : _ ∈ _ :: _ |- _ => apply elem_of_cons in Hx as [->|Hx]
    | Hx : _ ∈ [] |- _ => by apply elem_of_nil in Hx
    end; simpl cl_pred; first [done | by apply (bool_decide_unpack _)].
Qed.

Lemma refusal_attributed_witness :
  _first_failure
    (u "refused: " ++ check_line 0 2
       (check_text (Clause false "operation" None "op" (GContains false {[u "invoice:read"]}))
        ++ next_line (Some (1, 3, u "check if current_depth($d), $d <= 1"))))
  = Ok (mkAuthorityFailure 2
          (check_text (Clause false "operation" None "op" (GContains false {[u "invoice:read"]})))
          SCOPE_ATTENUATED_AWAY).
Proof.
  refine (refusal_attributed (ScopeSubset {[u "invoice:read"]}) _ _ demo_ctx
    (mkResult DENY SCOPE_ATTENUATED_AWAY
       (F "operation {!r} is not in this token's scope set" [FStr (operation demo_ctx)]))
    0 2 (u "refused: ") (Some (1, 3, u "check if current_depth($d), $d <= 1"))
    _ eq_refl _ _ _ _ _ _ _ _ _); [..|lia].
  - vm_compute. reflexivity.
  - left.
  - vm_compute. reflexivity.
  - reflexivity.
  - discriminate.
  - lia.
  - lia.
  - apply (bool_decide_unpack _). vm_compute. exact I.
  - apply (bool_decide_unpack _). vm_compute. exact I.
Defined.

(** The proviso is needed: the predicate is looked for in the whole check, string
    literals included, so an argument path spelt like one takes its reason code. *)
Theorem path_can_be_mistaken :
  let c := ArgPredicate (u "tool(") LE (CNum (Dec 5 0)) in
  let cl := Clause true "arg" (Some (u "tool(")) "v" (GCompare CGt (TInt 50000)) in
  compile c = Ok [cl]
  ∧ _first_failure (check_line 0 1 (check_text cl))
    = Ok (mkAuthorityFailure 1 (check_text cl) TOOL_DENIED)
  ∧ kind_code c = ARG_PREDICATE_FAILED.
Proof. split_and!; vm_compute; reflexivity. Qed.
