(* ===== verification/Attenuation.v ===== *)
(** * Attenuation (agentiam_core/attenuation.py)

    The narrowing order on caveats, the mint-time check, minting a child token, and
    the fold of a chain into the authority it leaves.  [narrows] is proved sound
    for [evaluate]: what a narrower caveat allows, the wider one allows. *)
From S2P Require Import Prelude PyText Errors PyNum PyRe PyTime Models Caveats Tokens.

(** ** Comparability *)
Inductive family := Upper | Lower | OpFamily (op : ArgOperator).
#[global] Instance family_eq_dec : EqDecision family.
Proof. solve_decision. Defined.

(** [_UPPER] and [_LOWER]: whether the bound is inclusive. *)
Definition _UPPER (op : ArgOperator) : option bool :=
  match op with LE => Some true | LT => Some false | _ => None end.
Definition _LOWER (op : ArgOperator) : option bool :=
  match op with GE => Some true | GT => Some false | _ => None end.

Definition _op_family (op : ArgOperator) : family :=
  match _UPPER op, _LOWER op with
  | Some _, _ => Upper
  | None, Some _ => Lower
  | None, None => OpFamily op
  end.

Inductive side := BothSides | LowerSide | UpperSide.
#[global] Instance side_eq_dec : EqDecision side.
Proof. solve_decision. Defined.

(** The tuples [comparability_slot] returns. *)
Inductive slot :=
| SlotDimension (k : CaveatKind) (d : BudgetDimension)
| SlotPath (k : CaveatKind) (path : pystr) (f : family)
| SlotSide (k : CaveatKind) (s : side)
| SlotKind (k : CaveatKind).
#[global] Instance slot_eq_dec : EqDecision slot.
Proof. solve_decision. Defined.

Definition comparability_slot (c : Caveat) : slot :=
  match c with
  | BudgetCeiling d _ => SlotDimension (caveat_kind_of c) d
  | ArgPredicate path op _ => SlotPath (caveat_kind_of c) path (_op_family op)
  | TimeWindow nb na =>
      SlotSide (caveat_kind_of c)
        (match nb, na with
         | Some _, Some _ => BothSides
         | Some _, None => LowerSide
         | None, _ => UpperSide
         end)
  | _ => SlotKind (caveat_kind_of c)
  end.

Definition atoms (c : Caveat) : list Caveat :=
  match c with
  | TimeWindow (Some nb) (Some na) => [TimeWindow (Some nb) None; TimeWindow None (Some na)]
  | _ => [c]
  end.

(** ** The order *)

(** [Decimal(str(value))]. *)
Definition decimal_of_value (v : caveat_value) : py pydec :=
  match v with
  | CNum d => Ok (DFin d)
  | CStr s => decimal_of_scalar (SStr s)
  | CSet _ => Raise InvalidOperation
  end.

(** [child.value == parent.value]. *)
Definition value_eqb (a b : caveat_value) : bool :=
  match a, b with
  | CNum x, CNum y => dec_eqb x y
  | CStr x, CStr y => bool_decide (x = y)
  | CSet x, CSet y => bool_decide (x = y)
  | _, _ => false
  end.

(** Equal bounds narrow when the child is no more inclusive; a NaN signals. *)
Definition _bound_narrows (child parent : pydec * bool) (upper : bool) : py bool :=
  c ← pydec_compare child.1 parent.1;
  Ok (match c with
      | Eq => implb child.2 parent.2
      | Lt => upper
      | Gt => negb upper
      end).

Definition _arg_narrows (cop : ArgOperator) (cv : caveat_value) (pop : ArgOperator)
    (pv : caveat_value) : py bool :=
  match _op_family cop with
  | Upper =>
      x ← decimal_of_value cv; y ← decimal_of_value pv;
      _bound_narrows (x, default false (_UPPER cop)) (y, default false (_UPPER pop)) true
  | Lower =>
      x ← decimal_of_value cv; y ← decimal_of_value pv;
      _bound_narrows (x, default false (_LOWER cop)) (y, default false (_LOWER pop)) false
  | OpFamily _ =>
      match cop with
      | IN => X ← set_of cv; Y ← set_of pv; Ok (bool_decide (X ⊆ Y))
      | NOT_IN => X ← set_of cv; Y ← set_of pv; Ok (bool_decide (Y ⊆ X))
      | _ => Ok (value_eqb cv pv)
      end
  end.

Definition narrows (child parent : Caveat) : py bool :=
  raise_if (negb (bool_decide (comparability_slot child = comparability_slot parent))) CaveatError;;
  match child, parent with
  | ScopeSubset X, ScopeSubset Y => Ok (bool_decide (X ⊆ Y))
  | BudgetCeiling _ x, BudgetCeiling _ y => Ok (x <=? y)
  | TimeWindow cb ca, TimeWindow pb pa =>
      let lower_ok := match pb with
                      | None => true
                      | Some p => match cb with Some c => p <=? c | None => false end
                      end in
      let upper_ok := match pa with
                      | None => true
                      | Some p => match ca with Some c => c <=? p | None => false end
                      end in
      Ok (lower_ok && upper_ok)
  | ToolAllow X, ToolAllow Y => Ok (bool_decide (X ⊆ Y))
  | ToolDeny X, ToolDeny Y => Ok (bool_decide (Y ⊆ X))
  | ArgPredicate _ cop cv, ArgPredicate _ pop pv => _arg_narrows cop cv pop pv
  | DepthLimit x, DepthLimit y => Ok (x <=? y)
  | IntentBound x, IntentBound y => Ok (bool_decide (x = y))
  | RequiresApproval X, RequiresApproval Y => Ok (bool_decide (Y ⊆ X))
  | _, _ => Raise CaveatError
  end.

(** ** The mint-time check *)

(** A [for] loop whose body may raise. *)
Fixpoint for_each {A} (f : A → py unit) (l : list A) : py unit :=
  match l with
  | [] => Ok tt
  | x :: l => f x;; for_each f l
  end.

(** [by_slot.setdefault(slot, []).append(atom)]. *)
Definition add_atom (m : slot → list Caveat) (a : Caveat) : slot → list Caveat :=
  λ s, if bool_decide (s = comparability_slot a) then m s ++ [a] else m s.

Definition by_slot (ancestors : list Caveat) : slot → list Caveat :=
  foldl add_atom (λ _, []) (ancestors ≫= atoms).

Definition check_narrowing (caveats ancestors : list Caveat) : py unit :=
  let index := by_slot ancestors in
  for_each (λ c, for_each (λ a, for_each (λ p,
    ok ← narrows a p; raise_if (negb ok) AttenuationError)
    (index (comparability_slot a))) (atoms c)) caveats.

Section attenuate.
Context `{BiscuitLib}.

Definition grant_caveats (parent : VerifiedToken) : py (list Caveat) :=
  s ← mk_ScopeSubset (vt_scopes parent);
  d ← mk_DepthLimit (vt_max_depth parent);
  i ← mk_IntentBound (vt_intent_hash parent);
  w ← mk_TimeWindow (Some (DT (vt_not_before parent) true)) (Some (DT (vt_expires_at parent) true));
  ceilings ← res_map (λ d, mk_BudgetCeiling d (Budget_get (vt_budget parent) d)) all_dimensions;
  Ok ([s; d; i; w] ++ ceilings).

Definition attenuate (parent : VerifiedToken) (caveats : list Caveat) (agent_id role : pystr)
    (ancestor_caveats : list Caveat) : py pystr :=
  validate_label agent_id;;
  validate_label role;;
  grant ← grant_caveats parent;
  check_narrowing caveats (grant ++ ancestor_caveats);;
  let lines :=
    [string_fact "agent" agent_id; string_fact "role" role;
     u "declared_depth(" ++ py_str_int (vt_depth parent + 1) ++ u ");"] in
  body ← block_datalog caveats;
  let lines := if bool_decide (body = []) then lines else lines ++ [body] in
  b ← raw (lib_append (vt_biscuit parent) (py_join [newline] lines));
  let child := to_base64 b in
  raise_if (HARD_SIZE_LIMIT_B64 <? Z.of_nat (length child)) AttenuationError;;
  Ok child.
End attenuate.

(** ** The effective bound *)
Record EffectiveAuthority := mkEffectiveAuthority {
  ea_scopes : option (gset pystr);
  ea_budget : gmap BudgetDimension Z;
  ea_not_before : option Z;
  ea_not_after : option Z;
  ea_tools_allowed : option (gset pystr);
  ea_tools_denied : gset pystr;
  ea_max_depth : option Z;
  ea_intent_hash : option pystr;
  ea_approval_required : gset pystr }.

Definition is_dead (e : EffectiveAuthority) : bool :=
  match ea_scopes e with Some X => bool_decide (X = ∅) | None => false end
  || match ea_not_before e, ea_not_after e with
     | Some nb, Some na => na <=? nb
     | _, _ => false
     end.

Definition no_bound : EffectiveAuthority :=
  mkEffectiveAuthority None ∅ None None None ∅ None None ∅.

(** A bound that is absent until a caveat gives one. *)
Definition tighten {A} (f : A → A → A) (current : option A) (value : A) : option A :=
  Some (match current with None => value | Some c => f c value end).

Definition fold_caveat (e : EffectiveAuthority) (c : Caveat) : EffectiveAuthority :=
  let '(mkEffectiveAuthority scopes budget nb na allow deny depth intent approval) := e in
  match c with
  | ScopeSubset X =>
      mkEffectiveAuthority (tighten (∩) scopes X) budget nb na allow deny depth intent approval
  | BudgetCeiling d v =>
      mkEffectiveAuthority scopes
        (<[d := match budget !! d with None => v | Some b => Z.min b v end]> budget)
        nb na allow deny depth intent approval
  | TimeWindow cnb cna =>
      mkEffectiveAuthority scopes budget
        (match cnb with Some t => tighten Z.max nb t | None => nb end)
        (match cna with Some t => tighten Z.min na t | None => na end)
        allow deny depth intent approval
  | ToolAllow X =>
      mkEffectiveAuthority scopes budget nb na (tighten (∩) allow X) deny depth intent approval
  | ToolDeny X =>
      mkEffectiveAuthority scopes budget nb na allow (deny ∪ X) depth intent approval
  | DepthLimit n =>
      mkEffectiveAuthority scopes budget nb na allow deny (tighten Z.min depth n) intent approval
  | IntentBound h =>
      mkEffectiveAuthority scopes budget nb na allow deny depth (Some h) approval
  | RequiresApproval X =>
      mkEffectiveAuthority scopes budget nb na allow deny depth intent (approval ∪ X)
  | ArgPredicate _ _ _ => e
  end.

Definition effective_bound (caveats : list Caveat) : EffectiveAuthority :=
  foldl fold_caveat no_bound caveats.

Definition effective_budget (caveats : list Caveat) (ceiling : Budget) : py Budget :=
  let bound := effective_bound caveats in
  vs ← res_map (λ d,
         c ← Budget_scaled ceiling d;
         n ← match ea_budget bound !! d with
             | Some v => s ← scale (dec_of_units v); Ok (Z.min c s)
             | None => Ok c
             end;
         Ok (d, n)) all_dimensions;
  from_scaled (λ d, dict_of vs !! d).

(** ** Order lemmas *)
Definition opp (c : comparison) : comparison := CompOpp c.

Lemma pydec_compare_opp a b c : pydec_compare a b = Ok c → pydec_compare b a = Ok (opp c).
Proof.
  destruct a as [x|[]|], b as [y|[]|]; simpl; intros [= <-]; simpl; try done.
  by rewrite dec_compare_antisym.
Qed.

Lemma pydec_compare_trans a b c r s :
  pydec_compare a b = Ok r → pydec_compare b c = Ok s → r ≠ Gt → s ≠ Gt →
  ∃ t, pydec_compare a c = Ok t ∧ t ≠ Gt ∧ (t = Eq → r = Eq ∧ s = Eq).
Proof.
  destruct a as [x|[]|], b as [y|[]|], c as [z|[]|]; simpl; intros [= <-] [= <-] Hr Hs;
    try done; try (by eexists; split_and!); 
    try (eexists; split_and!; [reflexivity|done|]; intros; naive_solver).
  destruct (dec_compare_trans x y z Hr Hs). eauto.
Qed.

Definition scalar_of_value (v : caveat_value) : option scalar :=
  match v with CNum d => Some (SNum d) | CStr s => Some (SStr s) | CSet _ => None end.

Lemma scalar_eqb_trans a b c : scalar_eqb a b = true → scalar_eqb b c = true → scalar_eqb a c = true.
Proof.
  destruct a, b, c; simpl; try done; [apply dec_eqb_trans|].
  rewrite !bool_decide_eq_true. congruence.
Qed.

Lemma scalar_eqb_sym a b : scalar_eqb a b = scalar_eqb b a.
Proof.
  destruct a, b; simpl; try done; [apply dec_eqb_sym|]. apply bool_decide_ext. naive_solver.
Qed.

(** ** Permission *)
Definition allows (c : Caveat) (ctx : RequestContext) : bool :=
  match evaluate c ctx with Ok r => allowed r | Raise _ => false end.

Lemma allows_arg path op v ctx :
  allows (ArgPredicate path op v) ctx
  = match ctx_args ctx !! path with
    | None => true
    | Some a =>
        match match op with
              | IN => X ← set_of v; Ok (arg_in a X)
              | NOT_IN => X ← set_of v; Ok (negb (arg_in a X))
              | _ => s ← scalar_of v; _compare (scalar_of_arg a) op s
              end with
        | Ok b => b
        | Raise _ => false
        end
    end.
Proof.
  unfold allows. cbn [evaluate]. destruct (ctx_args ctx !! path) as [a|]; [|done].
  destruct (match op with IN => _ | _ => _ end) as [[]|]; done.
Qed.

(** What an upper, resp. lower, bound allows. *)
Definition within (upper incl : bool) (x bound : pydec) : bool :=
  match pydec_compare x bound with
  | Ok Eq => incl
  | Ok Lt => upper
  | Ok Gt => negb upper
  | Raise _ => false
  end.

Lemma within_narrows upper x c p ci pi :
  _bound_narrows (c, ci) (p, pi) upper = Ok true →
  within upper ci x c = true → within upper pi x p = true.
Proof.
  unfold _bound_narrows, within. simpl. intros Hb Hx.
  apply bind_Ok_inv in Hb as (s & Hs & [= Hb]).
  destruct (pydec_compare x c) as [r|] eqn:Er; [|done].
  destruct upper.
  - destruct (pydec_compare_trans x c p r s Er Hs) as (t & -> & Hg & Ht);
      [by destruct r, ci|by destruct s, ci, pi|].
    destruct t; [|done|done]. destruct (Ht eq_refl) as [-> ->]. by destruct ci, pi.
  - apply pydec_compare_opp in Er, Hs.
    destruct (pydec_compare_trans p c x (opp s) (opp r) Hs Er) as (t & Hpx & Hg & Ht);
      [by destruct s, ci, pi|by destruct r, ci|].
    apply pydec_compare_opp in Hpx. rewrite Hpx. destruct t; simpl; [|done|done].
    destruct (Ht eq_refl). by destruct r, s, ci, pi.
Qed.

Definition bound_of (op : ArgOperator) : option (bool * bool) :=
  match op with
  | LE => Some (true, true) | LT => Some (true, false)
  | GE => Some (false, true) | GT => Some (false, false)
  | _ => None
  end.

Lemma _compare_within a op s upper incl :
  bound_of op = Some (upper, incl) →
  match _compare a op s with Ok b => b | Raise _ => false end
  = match decimal_of_scalar a, decimal_of_scalar s with
    | Ok x, Ok y => within upper incl x y
    | _, _ => false
    end.
Proof.
  destruct op; simpl; intros [= <- <-]; destruct (decimal_of_scalar a) as [x|]; try done;
    destruct (decimal_of_scalar s) as [y|]; try done; cbn [mbind res_bind]; unfold within;
    destruct (pydec_compare x y) as [[]|]; done.
Qed.

Lemma arg_narrows_sound path cop cv pop pv ctx :
  operator_matches_value cop cv = true → operator_matches_value pop pv = true →
  _op_family cop = _op_family pop → _arg_narrows cop cv pop pv = Ok true →
  allows (ArgPredicate path cop cv) ctx = true → allows (ArgPredicate path pop pv) ctx = true.
Proof.
  rewrite !allows_arg. intros Hc Hp Hf Hn Ha.
  destruct (ctx_args ctx !! path) as [a|]; [|done].
  destruct (bound_of cop) as [[upper ci]|] eqn:Ec.
  - assert (∃ pi, bound_of pop = Some (upper, pi) ∧
      ∃ x y, decimal_of_value cv = Ok x ∧ decimal_of_value pv = Ok y
             ∧ _bound_narrows (x, ci) (y, pi) upper = Ok true) as (pi & Ep & x & y & Hx & Hy & Hb).
    { destruct cop; try done; destruct pop; try done; simpl in Ec; injection Ec as <- <-;
        (eexists; split; [done|]); unfold _arg_narrows in Hn; simpl in Hn; inv_ok; eauto. }
    assert (∀ op v s, bound_of op ≠ None → decimal_of_value v = s → is_ok s = true →
      match op with
      | IN => X ← set_of v; Ok (arg_in a X)
      | NOT_IN => X ← set_of v; Ok (negb (arg_in a X))
      | _ => s ← scalar_of v; _compare (scalar_of_arg a) op s
      end = (s ← scalar_of v; _compare (scalar_of_arg a) op s)) as Hop by (by intros []).
    rewrite (Hop cop cv _ ltac:(by rewrite Ec) Hx eq_refl) in Ha.
    rewrite (Hop pop pv _ ltac:(by rewrite Ep) Hy eq_refl).
    destruct (scalar_of cv) as [sc|] eqn:Esc; [|done].
    assert (decimal_of_scalar sc = Ok x) as Hx' by (by destruct cv; simplify_eq/=).
    destruct (scalar_of pv) as [sp|] eqn:Esp; [|by destruct pv].
    assert (decimal_of_scalar sp = Ok y) as Hy' by (by destruct pv; simplify_eq/=).
    cbn [mbind res_bind] in *. rewrite (_compare_within _ _ _ _ _ Ec), Hx' in Ha.
    rewrite (_compare_within _ _ _ _ _ Ep), Hy'.
    destruct (decimal_of_scalar (scalar_of_arg a)); [|done]. by eapply within_narrows.
  - destruct cop; try done; destruct pop; try done; unfold _arg_narrows in Hn; simpl in Hn.
    + destruct cv as [cd|cs|], pv as [pd|ps|]; try done; simpl in Ha |- *; injection Hn as Hn;
        eapply scalar_eqb_trans; done.
    + destruct cv as [cd|cs|], pv as [pd|ps|]; try done; simpl in Ha |- *; injection Hn as Hn;
        apply negb_true_iff in Ha; apply negb_true_iff; apply not_true_is_false; intros Hp';
        apply not_true_iff_false in Ha; apply Ha;
        (eapply scalar_eqb_trans; [exact Hp'|]; by rewrite scalar_eqb_sym).
    + destruct cv, pv; try done. simpl in *. injection Hn as Hn%bool_decide_eq_true.
      destruct a; simpl in *; [done|]. apply bool_decide_eq_true in Ha.
      apply bool_decide_eq_true. set_solver.
    + destruct cv, pv; try done. simpl in *. injection Hn as Hn%bool_decide_eq_true.
      destruct a; simpl in *; [done|]. apply negb_true_iff, bool_decide_eq_false in Ha.
      apply negb_true_iff, bool_decide_eq_false. set_solver.
Qed.

(** C12: The order is sound for evaluation: whatever request a narrower caveat allows,
    the wider one allows too, for all nine kinds, the reversed ones included. *)
Theorem narrows_sound child parent ctx :
  Caveat_valid child = true → Caveat_valid parent = true →
  narrows child parent = Ok true → allows child ctx = true → allows parent ctx = true.
Proof.
  unfold narrows. intros Hvc Hvp Hn Ha. apply bind_Ok_inv in Hn as (? & Hs & Hn).
  apply raise_if_Ok, negb_false_iff, bool_decide_eq_true in Hs.
  destruct child as [X|d v|nb na|X|X|path op v|n|h|X],
    parent as [X'|d' v'|nb' na'|X'|X'|path' op' v'|n'|h'|X']; try done.
  6: { injection Hs as <- Hf. cbn [Caveat_valid] in Hvc, Hvp.
       apply andb_true_iff in Hvc as [_ Hvc]. apply andb_true_iff in Hvp as [_ Hvp].
       exact (arg_narrows_sound _ _ _ _ _ _ Hvc Hvp Hf Hn Ha). }
  2: { injection Hs as <-. injection Hn as Hn. revert Ha. unfold allows. simpl.
       destruct (Z.leb_spec (requested_of ctx d) v); [|done].
       rewrite (proj2 (Z.leb_le _ _)); [done|blia]. }
  2: { clear Hs. injection Hn as [H1 H2]%andb_true_iff. revert Ha. unfold allows. simpl.
       destruct nb, na, nb', na'; try done;
         repeat match goal with
         | |- context [?x <? ?y] => destruct (Z.ltb_spec x y)
         | |- context [?x <=? ?y] => destruct (Z.leb_spec x y)
         end; try done; blia. }
  all: injection Hn as Hn; revert Ha; unfold allows; simpl;
    try (apply bool_decide_eq_true in Hn); try (destruct (ctx_tool ctx); [|done]).
  1-3, 6: repeat case_bool_decide; try done; set_solver.
  - destruct (Z.leb_spec (current_depth ctx) n); [|done].
    rewrite (proj2 (Z.leb_le _ _)); [done|blia].
  - by subst.
Qed.

Lemma narrows_sound_witness :
  allows (ToolDeny {[u "shell"]})
    (mkRequestContext (u "a:b") ∅ 0 [] 0 (Some (u "pay")) ∅ None None OFF) = true.
Proof.
  apply (narrows_sound (ToolDeny {[u "shell"; u "rm"]})); vm_compute; reflexivity.
Defined.

(** A number is ordered with itself; a string operand of an ordering must parse. *)
Definition ordered_operand (c : Caveat) : bool :=
  match c with
  | ArgPredicate _ op v =>
      match bound_of op with
      | Some _ => match decimal_of_value v with Ok DNaN | Raise _ => false | Ok _ => true end
      | None => true
      end
  | _ => true
  end.

Lemma pydec_compare_refl d : d ≠ DNaN → pydec_compare d d = Ok Eq.
Proof.
  destruct d as [d|[]|]; try done. intros _. simpl. unfold dec_compare. by rewrite Z.compare_refl.
Qed.

Lemma bound_narrows_trans upper x y z :
  _bound_narrows x y upper = Ok true → _bound_narrows y z upper = Ok true →
  _bound_narrows x z upper = Ok true.
Proof.
  unfold _bound_narrows. destruct x as [x i], y as [y j], z as [z k]. simpl. intros H1 H2.
  apply bind_Ok_inv in H1 as (r & Hr & [= H1]). apply bind_Ok_inv in H2 as (s & Hs & [= H2]).
  destruct upper.
  - destruct (pydec_compare_trans x y z r s Hr Hs) as (t & -> & Ht & He);
      [by destruct r|by destruct s|]. cbn [mbind res_bind]. f_equal.
    destruct t; [|done|done]. destruct (He eq_refl) as [-> ->]. by destruct i, j, k.
  - apply pydec_compare_opp in Hr, Hs.
    destruct (pydec_compare_trans z y x (opp s) (opp r) Hs Hr) as (t & Ht' & Ht & He);
      [by destruct s|by destruct r|]. apply pydec_compare_opp in Ht'. rewrite Ht'.
    cbn [mbind res_bind]. f_equal.
    destruct t; simpl; [|done|done]. destruct (He eq_refl). by destruct r, s, i, j, k.
Qed.

Lemma value_eqb_trans a b c : value_eqb a b = true → value_eqb b c = true → value_eqb a c = true.
Proof.
  destruct a, b, c; simpl; try done; [apply dec_eqb_trans|..]; rewrite !bool_decide_eq_true; congruence.
Qed.

Lemma arg_narrows_trans o1 v1 o2 v2 o3 v3 :
  _op_family o1 = _op_family o2 → _op_family o2 = _op_family o3 →
  _arg_narrows o1 v1 o2 v2 = Ok true → _arg_narrows o2 v2 o3 v3 = Ok true →
  _arg_narrows o1 v1 o3 v3 = Ok true.
Proof.
  unfold _arg_narrows. intros Hf12 Hf23. rewrite <- Hf12.
  destruct (_op_family o1) as [| |o] eqn:E1.
  - intros (x & Hx & (y & Hy & H1)%bind_Ok_inv)%bind_Ok_inv
      (y' & Hy' & (z & Hz & H2)%bind_Ok_inv)%bind_Ok_inv.
    rewrite Hx. cbn [mbind res_bind]. rewrite Hz. cbn [mbind res_bind]. rewrite Hy in Hy'. injection Hy' as <-.
    exact (bound_narrows_trans _ _ _ _ H1 H2).
  - intros (x & Hx & (y & Hy & H1)%bind_Ok_inv)%bind_Ok_inv
      (y' & Hy' & (z & Hz & H2)%bind_Ok_inv)%bind_Ok_inv.
    rewrite Hx. cbn [mbind res_bind]. rewrite Hz. cbn [mbind res_bind]. rewrite Hy in Hy'. injection Hy' as <-.
    exact (bound_narrows_trans _ _ _ _ H1 H2).
  - assert (o2 = o1) as -> by (clear -E1 Hf12; destruct o1, o2; vm_compute in E1, Hf12; congruence).
    destruct o1; try done.
    + intros [= H1] [= H2]. f_equal. by eapply value_eqb_trans.
    + intros [= H1] [= H2]. f_equal. by eapply value_eqb_trans.
    + destruct v1, v2, v3; try done. simpl. intros [= H1%bool_decide_eq_true] [= H2%bool_decide_eq_true].
      f_equal. apply bool_decide_eq_true. set_solver.
    + destruct v1, v2, v3; try done. simpl. intros [= H1%bool_decide_eq_true] [= H2%bool_decide_eq_true].
      f_equal. apply bool_decide_eq_true. set_solver.
Qed.

(** The order is a preorder on the caveats it can compare: transitive always, and
    reflexive on every valid caveat whose ordering operand is a number. *)
Theorem narrows_preorder :
  (∀ c, Caveat_valid c = true → ordered_operand c = true → narrows c c = Ok true)
  ∧ (∀ a b c, narrows a b = Ok true → narrows b c = Ok true → narrows a c = Ok true).
Proof.
  split.
  - intros c Hv Ho. unfold narrows. rewrite bool_decide_eq_true_2 by done. simpl.
    destruct c as [X|d v|nb na|X|X|path op v|n|h|X]; simpl;
      try (f_equal; by apply bool_decide_eq_true); try (f_equal; apply Z.leb_refl).
    + destruct nb, na; by rewrite ?Z.leb_refl.
    + simpl in Hv, Ho. apply andb_true_iff in Hv as [_ Hv].
      destruct op; simpl in Ho; unfold _arg_narrows; simpl;
        try (destruct (decimal_of_value v) as [x|] eqn:E; [|done]; cbn [mbind res_bind];
             unfold _bound_narrows; simpl; rewrite pydec_compare_refl by (by destruct x); done);
        destruct v as [e|s|Y]; try done; simpl; f_equal;
        try (by apply bool_decide_eq_true); apply dec_eqb_refl.
  - intros a b c. unfold narrows. intros (? & Hab%raise_if_Ok & H1)%bind_Ok_inv
      (? & Hbc%raise_if_Ok & H2)%bind_Ok_inv.
    apply negb_false_iff, bool_decide_eq_true in Hab, Hbc. rewrite bool_decide_eq_true_2 by congruence.
    simpl. destruct a, b; try done; destruct c; try done;
      try (injection H1 as H1%bool_decide_eq_true; injection H2 as H2%bool_decide_eq_true;
           f_equal; apply bool_decide_eq_true; set_solver);
      try (injection H1 as H1; injection H2 as H2; f_equal; blia).
    + injection H1 as [H1 H1']%andb_true_iff. injection H2 as [H2 H2']%andb_true_iff. f_equal.
      apply andb_true_iff. repeat case_match; try done; blia.
    + injection Hab as -> Hf. injection Hbc as -> Hf'.
      exact (arg_narrows_trans _ _ _ _ _ _ Hf Hf' H1 H2).
Qed.

(** ** The check, clause by clause *)
Lemma for_each_Ok {A} (f : A → py unit) l :
  for_each f l = Ok tt ↔ ∀ x, x ∈ l → f x = Ok tt.
Proof.
  induction l as [|x l IH]; simpl.
  - split; [by intros _ x ?%elem_of_nil|done].
  - destruct (f x) as [[]|] eqn:Hx; simpl.
    + rewrite IH. split.
      * intros Hl y [->|?]%elem_of_cons; auto.
      * intros Hl y Hy. apply Hl. by right.
    + split; [done|]. intros Hl. rewrite Hl in Hx by left. done.
Qed.

(** The exceptions a loop can raise are those of its body. *)
Lemma for_each_Raise {A} (f : A → py unit) l e :
  for_each f l = Raise e → ∃ x, x ∈ l ∧ f x = Raise e.
Proof.
  induction l as [|x l IH]; simpl; [done|]. destruct (f x) as [[]|] eqn:Hx; simpl.
  - intros H. destruct (IH H) as (y & ? & ?). exists y. split; [by right|done].
  - intros [= ->]. exists x. split; [left|done].
Qed.

Lemma elem_of_by_slot ancestors s p :
  p ∈ by_slot ancestors s ↔ s = comparability_slot p ∧ ∃ c, c ∈ ancestors ∧ p ∈ atoms c.
Proof.
  assert (∀ l m, p ∈ foldl add_atom m l s ↔ p ∈ m s ∨ (s = comparability_slot p ∧ p ∈ l)) as Hf.
  { induction l as [|a l IH]; intros m; simpl.
    - rewrite elem_of_nil. naive_solver.
    - rewrite IH. unfold add_atom. rewrite elem_of_cons. case_bool_decide as Hs.
      + rewrite elem_of_app, list_elem_of_singleton. naive_solver.
      + naive_solver. }
  unfold by_slot. rewrite Hf, elem_of_nil, list_elem_of_bind. naive_solver.
Qed.

Lemma narrows_same_slot a p :
  comparability_slot a = comparability_slot p → narrows a p ≠ Raise CaveatError.
Proof.
  unfold narrows. intros Hs. rewrite bool_decide_eq_true_2 by done. simpl.
  destruct a as [X|d v|nb na|X|X|path op v|n|h|X],
    p as [X'|d' v'|nb' na'|X'|X'|path' op' v'|n'|h'|X']; try done.
  unfold _arg_narrows, _bound_narrows. injection Hs as _ Hf.
  destruct op, op'; try done; destruct v as [|s|], v' as [|s'|]; simpl; try done;
    repeat match goal with
    | |- context [parse_decimal ?x] => destruct (parse_decimal x) as [[|[]|]|]; simpl
    end; done.
Qed.

(** The reference reading of the check. *)
Definition narrowed (caveats ancestors : list Caveat) : Prop :=
  ∀ c a anc p, c ∈ caveats → a ∈ atoms c → anc ∈ ancestors → p ∈ atoms anc →
    comparability_slot a = comparability_slot p → narrows a p = Ok true.

(** The mint-time check passes exactly when every piece of every proposed caveat
    narrows every comparable piece of every ancestor, and it never fails for having
    compared two caveats that cannot be compared. *)
Theorem check_narrowing_spec caveats ancestors :
  (check_narrowing caveats ancestors = Ok tt ↔ narrowed caveats ancestors)
  ∧ check_narrowing caveats ancestors ≠ Raise CaveatError.
Proof.
  unfold check_narrowing. split.
  - rewrite for_each_Ok. setoid_rewrite for_each_Ok. setoid_rewrite for_each_Ok.
    setoid_rewrite elem_of_by_slot. split.
    + intros Hc c a anc p ???? Hs. specialize (Hc c ltac:(done) a ltac:(done) p ltac:(eauto)).
      destruct (narrows a p) as [[]|]; done.
    + intros Hn c Hc a Ha p (Hs & anc & ? & ?). by rewrite (Hn c a anc p).
  - intros (c & _ & (a & _ & (p & Hp & H)%for_each_Raise)%for_each_Raise)%for_each_Raise.
    apply elem_of_by_slot in Hp as (Hs & _). pose proof (narrows_same_slot a p Hs).
    destruct (narrows a p) as [[]|]; naive_solver.
Qed.

(** A caveat allows what all its pieces allow. *)
Lemma allows_atoms c ctx : allows c ctx = forallb (λ a, allows a ctx) (atoms c).
Proof.
  destruct c as [X|d v|[nb|] [na|]|X|X|path op v|n|h|X]; simpl; rewrite ?andb_true_r; try done.
  unfold allows. simpl. destruct (ctx_now ctx <? nb), (na <=? ctx_now ctx); done.
Qed.

Lemma atoms_valid c a : Caveat_valid c = true → a ∈ atoms c → Caveat_valid a = true.
Proof.
  destruct c as [X|d v|[nb|] [na|]|X|X|path op v|n|h|X]; cbn [atoms]; intros Hv Ha;
    try (apply list_elem_of_singleton in Ha as ->; done).
  apply elem_of_cons in Ha as [->|Ha]; [done|]. by apply list_elem_of_singleton in Ha as ->.
Qed.

(** What a passing check means for a request: a child caveat that speaks of
    everything an ancestor does allows nothing the ancestor refuses. *)
Theorem checked_child_refuses caveats ancestors c anc ctx :
  check_narrowing caveats ancestors = Ok tt → c ∈ caveats → anc ∈ ancestors →
  Caveat_valid c = true → Caveat_valid anc = true →
  (∀ p, p ∈ atoms anc → ∃ a, a ∈ atoms c ∧ comparability_slot a = comparability_slot p) →
  allows c ctx = true → allows anc ctx = true.
Proof.
  intros Hc%check_narrowing_spec Hin Hanc Hv Hva Hcover. rewrite !allows_atoms, !forallb_forall.
  intros Ha p Hp%list_elem_of_In. destruct (Hcover p Hp) as (a & Haa & Hs).
  apply (narrows_sound a).
  - exact (atoms_valid c a Hv Haa).
  - exact (atoms_valid anc p Hva Hp).
  - by apply (Hc c a anc p).
  - by apply Ha, list_elem_of_In.
Qed.

Lemma checked_child_refuses_witness :
  allows (TimeWindow (Some 10) (Some 90))
    (mkRequestContext (u "a:b") ∅ 0 [] 50 None ∅ None None OFF) = true.
Proof.
  apply (checked_child_refuses [TimeWindow (Some 40) (Some 60)] [TimeWindow (Some 10) (Some 90)]
           (TimeWindow (Some 40) (Some 60))); try (vm_compute; reflexivity).
  - left.
  - left.
  - intros p Hp. apply elem_of_cons in Hp as [->|Hp].
    + exists (TimeWindow (Some 40) None). split; [left|reflexivity].
    + apply list_elem_of_singleton in Hp as ->.
      exists (TimeWindow None (Some 60)). split; [right; left|reflexivity].
Defined.

(** ** The effective bound *)

(** What the folded record says of a request. *)
Definition authority_allows (e : EffectiveAuthority) (ctx : RequestContext) : bool :=
  match ea_scopes e with Some X => bool_decide (operation ctx ∈ X) | None => true end
  && forallb (λ d, match ea_budget e !! d with
                   | Some v => requested_of ctx d <=? v | None => true end) all_dimensions
  && match ea_not_before e with Some t => t <=? ctx_now ctx | None => true end
  && match ea_not_after e with Some t => ctx_now ctx <? t | None => true end
  && match ea_tools_allowed e with
     | Some X => match ctx_tool ctx with Some t => bool_decide (t ∈ X) | None => false end
     | None => true
     end
  && match ctx_tool ctx with Some t => bool_decide (t ∉ ea_tools_denied e) | None => true end
  && match ea_max_depth e with Some n => current_depth ctx <=? n | None => true end
  && match ea_intent_hash e with Some h => bool_decide (request_intent ctx = h) | None => true end
  && bool_decide (operation ctx ∉ ea_approval_required e).

(** Argument predicates do not fold. *)
Definition folded (c : Caveat) : bool :=
  match c with ArgPredicate _ _ _ => false | _ => true end.

Definition consistent (e : EffectiveAuthority) (c : Caveat) : Prop :=
  match c, ea_intent_hash e with IntentBound h, Some h' => h = h' | _, _ => True end.

Lemma ceiling_fold (budget : gmap BudgetDimension Z) d v (req : BudgetDimension → Z) :
  forallb (λ d', match <[d := match budget !! d with None => v | Some b => Z.min b v end]> budget !! d' with
                 | Some v => req d' <=? v | None => true end) all_dimensions
  = forallb (λ d', match budget !! d' with Some v => req d' <=? v | None => true end) all_dimensions
    && (req d <=? v).
Proof.
  apply eq_true_iff_eq. rewrite andb_true_iff, !forallb_forall. split.
  - intros H. assert (∀ d', In d' all_dimensions) as Hall
      by (intros d'; apply list_elem_of_In, elem_of_all_dimensions).
    split.
    + intros d' Hd. specialize (H d' Hd). destruct (decide (d = d')) as [<-|Hne].
      * rewrite lookup_insert_eq in H. destruct (budget !! d); [blia|done].
      * by rewrite lookup_insert_ne in H.
    + specialize (H d (Hall d)). rewrite lookup_insert_eq in H. destruct (budget !! d); blia.
  - intros [H Hv] d' Hd. destruct (decide (d = d')) as [<-|Hne].
    + rewrite lookup_insert_eq. specialize (H d Hd). destruct (budget !! d); blia.
    + rewrite lookup_insert_ne by done. by apply H.
Qed.

Lemma tighten_scopes (scopes : option (gset pystr)) (X : gset pystr) (x : pystr) :
  match tighten (∩) scopes X with Some Y => bool_decide (x ∈ Y) | None => true end
  = match scopes with Some Y => bool_decide (x ∈ Y) | None => true end && bool_decide (x ∈ X).
Proof.
  destruct scopes as [Y|]; simpl; [|done].
  rewrite <- bool_decide_and. apply bool_decide_ext. set_solver.
Qed.

Lemma tighten_lower nb t now :
  match tighten Z.max nb t with Some t => t <=? now | None => true end
  = match nb with Some t => t <=? now | None => true end && (t <=? now).
Proof.
  destruct nb; simpl; [|done]. apply eq_true_iff_eq. rewrite andb_true_iff, !Z.leb_le. lia.
Qed.

Lemma tighten_upper na t now :
  match tighten Z.min na t with Some t => now <? t | None => true end
  = match na with Some t => now <? t | None => true end && (now <? t).
Proof.
  destruct na; simpl; [|done]. apply eq_true_iff_eq. rewrite andb_true_iff, !Z.ltb_lt. lia.
Qed.

Lemma not_elem_of_union_decide (x : pystr) (Y X : gset pystr) :
  bool_decide (x ∉ Y ∪ X) = bool_decide (x ∉ Y) && bool_decide (x ∉ X).
Proof. rewrite <- bool_decide_and. apply bool_decide_ext. set_solver. Qed.

Lemma allows_window nb na ctx :
  allows (TimeWindow nb na) ctx
  = match nb with Some t => t <=? ctx_now ctx | None => true end
    && match na with Some t => ctx_now ctx <? t | None => true end.
Proof.
  unfold allows. simpl. destruct nb as [t|], na as [t'|];
    repeat match goal with
    | |- context [?x <? ?y] => destruct (Z.ltb_spec x y)
    | |- context [?x <=? ?y] => destruct (Z.leb_spec x y)
    end; done || lia.
Qed.

(** Folding one caveat in: the component it touches gains its verdict. *)
Ltac conj_verdict v :=
  destruct v; repeat (rewrite ?andb_true_r, ?andb_false_r; cbn [andb negb]); reflexivity.

Lemma fold_caveat_allows e c ctx :
  folded c = true → consistent e c →
  authority_allows (fold_caveat e c) ctx = authority_allows e ctx && allows c ctx.
Proof.
  intros Hf Hi. destruct e as [scopes budget nb na allow deny depth intent approval].
  unfold authority_allows.
  destruct c as [X|d v|cnb cna|X|X|path op v|n|h|X]; try done;
    cbn [fold_caveat ea_scopes ea_budget ea_not_before ea_not_after ea_tools_allowed
         ea_tools_denied ea_max_depth ea_intent_hash ea_approval_required].
  - assert (allows (ScopeSubset X) ctx = bool_decide (operation ctx ∈ X)) as ->
      by (unfold allows; simpl; by case_bool_decide).
    rewrite tighten_scopes. conj_verdict (bool_decide (operation ctx ∈ X)).
  - assert (allows (BudgetCeiling d v) ctx = (requested_of ctx d <=? v)) as ->
      by (unfold allows; simpl; by destruct (requested_of ctx d <=? v)).
    rewrite ceiling_fold. conj_verdict (requested_of ctx d <=? v).
  - rewrite allows_window. destruct cnb as [t|], cna as [t'|]; rewrite ?tighten_lower, ?tighten_upper;
      try conj_verdict (t <=? ctx_now ctx); try conj_verdict (ctx_now ctx <? t');
      rewrite ?andb_true_r; try reflexivity.
    destruct (t <=? ctx_now ctx); conj_verdict (ctx_now ctx <? t').
  - assert (allows (ToolAllow X) ctx
      = match ctx_tool ctx with Some t => bool_decide (t ∈ X) | None => false end) as ->.
    { unfold allows. simpl. destruct (ctx_tool ctx); [|done]. by case_bool_decide. }
    destruct (ctx_tool ctx) as [t|].
    + rewrite tighten_scopes. conj_verdict (bool_decide (t ∈ X)).
    + destruct allow; cbn [tighten]; repeat (rewrite ?andb_false_r; cbn [andb]); reflexivity.
  - assert (allows (ToolDeny X) ctx
      = match ctx_tool ctx with Some t => bool_decide (t ∉ X) | None => true end) as ->.
    { unfold allows. simpl. destruct (ctx_tool ctx) as [t|]; [|done]. rewrite bool_decide_not.
      by case_bool_decide. }
    destruct (ctx_tool ctx) as [t|]; [|by rewrite ?andb_true_r].
    rewrite not_elem_of_union_decide. conj_verdict (bool_decide (t ∉ X)).
  - assert (allows (DepthLimit n) ctx = (current_depth ctx <=? n)) as ->
      by (unfold allows; simpl; by destruct (_ <=? _)).
    assert (match tighten Z.min depth n with Some n => current_depth ctx <=? n | None => true end
      = match depth with Some n => current_depth ctx <=? n | None => true end
        && (current_depth ctx <=? n)) as ->.
    { destruct depth; simpl; [|done]. apply eq_true_iff_eq. rewrite andb_true_iff, !Z.leb_le. lia. }
    conj_verdict (current_depth ctx <=? n).
  - assert (allows (IntentBound h) ctx = bool_decide (request_intent ctx = h)) as ->
      by (unfold allows; simpl; by case_bool_decide).
    simpl in Hi. destruct intent as [h'|]; [subst h'|]; conj_verdict (bool_decide (request_intent ctx = h)).
  - assert (allows (RequiresApproval X) ctx = bool_decide (operation ctx ∉ X)) as ->.
    { unfold allows. simpl. rewrite bool_decide_not. by case_bool_decide. }
    rewrite not_elem_of_union_decide. conj_verdict (bool_decide (operation ctx ∉ X)).
Qed.

(** Chains whose intent bindings agree; the fold keeps only the last. *)
Definition intents_agree (cs : list Caveat) : Prop :=
  ∀ h h', IntentBound h ∈ cs → IntentBound h' ∈ cs → h = h'.

Lemma effective_bound_snoc cs c :
  effective_bound (cs ++ [c]) = fold_caveat (effective_bound cs) c.
Proof. unfold effective_bound. by rewrite foldl_app. Qed.

Lemma fold_caveat_arg e c : folded c = false → fold_caveat e c = e.
Proof. by destruct c, e. Qed.

Lemma effective_intent cs h : ea_intent_hash (effective_bound cs) = Some h → IntentBound h ∈ cs.
Proof.
  induction cs as [|c cs IH] using rev_ind; [done|]. rewrite effective_bound_snoc, elem_of_app.
  destruct (effective_bound cs), c; simpl in *; try (intros; left; by apply IH).
  intros [= ->]. right. left.
Qed.

#[local] Instance consistent_dec e c : Decision (consistent e c).
Proof. unfold consistent. destruct c, (ea_intent_hash e); apply _. Defined.

(** Whatever the chain, its caveats bind at least as tightly as the fold says. *)
Lemma fold_caveat_keeps e c ctx :
  authority_allows e ctx = true → (folded c = true → allows c ctx = true) →
  authority_allows (fold_caveat e c) ctx = true.
Proof.
  intros He Hc. destruct (folded c) eqn:Hf; [|by rewrite fold_caveat_arg].
  destruct (decide (consistent e c)) as [Hi|Hi].
  - rewrite fold_caveat_allows, He by done. by apply Hc.
  - destruct c; try (by destruct Hi). unfold consistent in Hi.
    specialize (Hc eq_refl). unfold allows in Hc. simpl in Hc.
    case_bool_decide as Hh; [|done]. revert He. destruct e. unfold authority_allows. simpl.
    rewrite !andb_true_iff. intros H. split_and!; try apply H. by apply bool_decide_eq_true.
Qed.

(** The fold is what the chain leaves.  A request every folding caveat allows is
    within the effective bound; conversely, when the chain's intent bindings agree,
    the bound allows nothing some caveat refuses; and a bound called dead allows
    nothing. *)
Theorem effective_bound_exact cs ctx :
  ((∀ c, c ∈ cs → folded c = true → allows c ctx = true) →
     authority_allows (effective_bound cs) ctx = true)
  ∧ (intents_agree cs → authority_allows (effective_bound cs) ctx = true →
     ∀ c, c ∈ cs → folded c = true → allows c ctx = true)
  ∧ (is_dead (effective_bound cs) = true → authority_allows (effective_bound cs) ctx = false).
Proof.
  split_and!.
  - induction cs as [|c cs IH] using rev_ind; intros Hall.
    { unfold authority_allows. simpl. by destruct (ctx_tool ctx). }
    rewrite effective_bound_snoc. apply fold_caveat_keeps.
    + apply IH. intros c' Hc'. apply Hall. apply elem_of_app. by left.
    + apply Hall, elem_of_app. right. left.
  - induction cs as [|c cs IH] using rev_ind; intros Hi He c' Hc' Hf; [by apply elem_of_nil in Hc'|].
    assert (intents_agree cs) as Hi'.
    { intros h h' ??. apply Hi; apply elem_of_app; by left. }
    rewrite effective_bound_snoc in He.
    apply elem_of_app in Hc' as [Hc'|Hc'].
    + apply IH; try done. destruct (folded c) eqn:Hfc; [|by rewrite fold_caveat_arg in He].
      rewrite fold_caveat_allows in He; [by apply andb_true_iff in He as [? _]|done|].
      destruct c; try done. unfold consistent. destruct (ea_intent_hash _) eqn:Eh; [|done].
      apply Hi; apply elem_of_app; [right; left|left; by apply effective_intent].
    + apply list_elem_of_singleton in Hc' as ->.
      rewrite fold_caveat_allows in He; [by apply andb_true_iff in He as [_ ?]|done|].
      destruct c; try done. unfold consistent. destruct (ea_intent_hash _) eqn:Eh; [|done].
      apply Hi; apply elem_of_app; [right; left|left; by apply effective_intent].
  - intros Hd. apply not_true_is_false. unfold authority_allows. rewrite !andb_true_iff.
    intros [[[[[[[[Hs _] Hnb] Hna] _] _] _] _] _]. unfold is_dead in Hd.
    apply orb_true_iff in Hd as [Hd|Hd].
    + destruct (ea_scopes _) as [X|]; [|done]. apply bool_decide_eq_true in Hd as ->.
      apply bool_decide_eq_true in Hs. set_solver.
    + destruct (ea_not_before _), (ea_not_after _); try done. blia.
Qed.

Lemma effective_bound_exact_witness :
  authority_allows (effective_bound [ScopeSubset {[u "a:b"]}; ToolDeny {[u "rm"]}; DepthLimit 2])
    (mkRequestContext (u "a:b") ∅ 1 [] 0 (Some (u "pay")) ∅ None None OFF) = true.
Proof.
  apply effective_bound_exact. intros c Hc _.
  repeat (apply elem_of_cons in Hc as [->|Hc]; [vm_compute; reflexivity|]).
  by apply elem_of_nil in Hc.
Defined.

(** ** Scaled budgets *)
Lemma unscale_dec_exact n : Z.abs n < 10 ^ 24 → unscale_dec n = Ok (Dec n (-4)).
Proof.
  intros Hn. unfold unscale_dec. destruct (decide (n = 0)) as [->|Hne]; [done|].
  rewrite dec_fix_exact; [done|done| |unfold Etiny, Emax; lia].
  change (10 ^ 28) with (10 ^ 24 * 10000). lia.
Qed.

Lemma unscale_count_Ok n m : Z.abs n < 10 ^ 24 → unscale_count n = Ok m → n = m * 10000.
Proof.
  intros Hn. unfold unscale_count. rewrite unscale_dec_exact by done. cbn [mbind res_bind].
  unfold dec_is_integral, dec_to_int. cbn [dcoef dexp].
  change (0 <=? -4) with false. change (10 ^ - (-4)) with 10000. cbn [orb].
  destruct (Z.eqb_spec (n mod 10000) 0) as [Hz|]; [|done]. intros [= <-].
  apply Z.div_exact in Hz; [|lia]. rewrite Hz, (Z.mul_comm 10000), (quot_mul_exact _ 10000) by lia.
  lia.
Qed.

(** What a budget read back from its scaled form holds: a dimension that was not given
    reads as zero. *)
Lemma from_scaled_units values b d :
  from_scaled values = Ok b → (∀ d n, values d = Some n → Z.abs n < 10 ^ 24) →
  dec_units (Budget_get b d) = Some (default 0 (values d)) ∧ 0 <= default 0 (values d) < 10 ^ 24.
Proof.
  intros Hb Hn. unfold from_scaled in Hb.
  apply bind_Ok_inv in Hb as (s & Hs & Hb). apply bind_Ok_inv in Hb as (c & Hc & Hb).
  apply bind_Ok_inv in Hb as (r & Hr & Hb). apply bind_Ok_inv in Hb as (e & He & Hb).
  apply bind_Ok_inv in Hb as (w & Hw & Hb). unfold mk_Budget, count_of in Hb.
  apply bind_Ok_inv in Hb as (s' & Hs' & Hb). apply money_of_Ok in Hs' as [Hs' Hpos].
  repeat match type of Hb with
  | (mbind _ (if ?x then _ else _)) = _ => destruct x eqn:?; [|done]; cbn [mbind res_bind] in Hb
  end. injection Hb as <-. zify_bool.
  assert (∀ d m, 0 <= m → match values d with Some n => unscale_count n | None => Ok 0 end = Ok m →
    default 0 (values d) = m * 10000 ∧ Z.abs (default 0 (values d)) < 10 ^ 24) as Hcount.
  { intros d' m Hm H. destruct (values d') as [n|] eqn:E.
    - apply unscale_count_Ok in H; [|by eapply Hn]. specialize (Hn _ _ E). simpl. lia.
    - injection H as <-. simpl. lia. }
  destruct d; cbn [Budget_get spend_bdt tool_calls rows_read external_emails wall_clock_s].
  2-5: match goal with
       | Hc : (∀ _ _, _ → _ = Ok _ → _), H : match ?f ?x with _ => _ end = Ok ?m
         |- context [default 0 (?f ?x)] => destruct (Hc x m ltac:(done) H) as [-> ?]
       end; split; [done|lia].
  destruct (values SPEND_BDT) as [n|] eqn:E.
  - rewrite unscale_dec_exact in Hs by (by eapply Hn). injection Hs as <-.
    unfold dec_units in Hs'. simpl in Hs'. injection Hs' as <-. rewrite Z.mul_1_r in *.
    simpl. specialize (Hn _ _ E). split; [|lia]. unfold dec_units. simpl. by rewrite Z.mul_1_r.
  - injection Hs as <-. simpl in Hs'. injection Hs' as <-. done.
Qed.

Lemma Budget_scaled_units b d n :
  dec_units (Budget_get b d) = Some n → 0 <= n < 10 ^ 24 → Budget_scaled b d = Ok n.
Proof.
  unfold Budget_scaled, _to_scaled, dec_units.
  destruct d; cbn [Budget_get dec_of_units dec_of_int dexp dcoef]; intros [= <-] Hn.
  1: change (10 ^ (-4 + 4)) with 1 in *; rewrite Z.mul_1_r in *; apply scaled_or_units; lia.
  all: apply scaled_or_int; change (10 ^ (0 + 4)) with 10000 in Hn; lia.
Qed.

(** A budget read back from its scaled form scales to the same integers, one
    dimension at a time; a dimension that was not given reads as zero. *)
Theorem from_scaled_roundtrip values b d :
  from_scaled values = Ok b → (∀ d n, values d = Some n → Z.abs n < 10 ^ 24) →
  Budget_scaled b d = Ok (default 0 (values d)) ∧ 0 <= default 0 (values d).
Proof.
  intros Hb Hn. destruct (from_scaled_units _ _ d Hb Hn) as [H ?].
  split; [by apply Budget_scaled_units|lia].
Qed.

Lemma from_scaled_roundtrip_witness :
  Budget_scaled (mkBudget 12500 3 0 0 0) TOOL_CALLS = Ok 30000.
Proof.
  apply (from_scaled_roundtrip
           (λ d, match d with SPEND_BDT => Some 12500 | TOOL_CALLS => Some 30000 | _ => None end)).
  - vm_compute. reflexivity.
  - intros [] n; intros [= <-]; vm_compute; reflexivity.
Defined.

Lemma dict_of_dimensions (f : BudgetDimension → Z) vs d :
  Forall2 (λ d p, p = (d, f d)) all_dimensions vs → dict_of vs !! d = Some (f d).
Proof.
  intros H. unfold all_dimensions in H.
  repeat match goal with
  | H : Forall2 _ (_ :: _) _ |- _ => apply Forall2_cons_inv_l in H as (? & ? & -> & H & ->)
  end. apply Forall2_nil_inv_l in H as ->.
  unfold dict_of. simpl. destruct d;
    repeat (rewrite lookup_insert_eq || rewrite lookup_insert_ne by done); done.
Qed.

(** Folded ceilings are money. *)
Lemma effective_ceiling_money cs d v :
  Forall (λ c, Caveat_valid c = true) cs → ea_budget (effective_bound cs) !! d = Some v →
  0 <= v < MONEY_LIMIT.
Proof.
  intros Hcs. revert v. induction cs as [|c cs IH] using rev_ind; intros v; [done|].
  apply Forall_app in Hcs as [Hcs Hc]. rewrite Forall_singleton in Hc. specialize (IH Hcs).
  rewrite effective_bound_snoc.
  destruct c as [X|d' v'|nb na|X|X|path op v'|n|h|X];
    destruct (effective_bound cs) as [scopes budget nb' na' allow deny depth intent approval];
    cbn [fold_caveat ea_budget Caveat_valid] in *; try apply IH.
  zify_bool. destruct (decide (d' = d)) as [->|Hne].
  - rewrite lookup_insert_eq. intros [= <-]. destruct (budget !! d) as [b|].
    + specialize (IH b eq_refl). lia.
    + lia.
  - rewrite lookup_insert_ne by done. apply IH.
Qed.

(** The displayed budget is, per dimension, the smaller of the starting budget and
    the tightest ceiling of the chain. *)
Lemma effective_budget_units cs ceiling b (c : BudgetDimension → Z) d :
  effective_budget cs ceiling = Ok b → Forall (λ c, Caveat_valid c = true) cs →
  (∀ d, Budget_scaled ceiling d = Ok (c d) ∧ Z.abs (c d) < 10 ^ 24) →
  let n := match ea_budget (effective_bound cs) !! d with
           | Some v => Z.min (c d) v | None => c d end in
  dec_units (Budget_get b d) = Some n ∧ 0 <= n < 10 ^ 24.
Proof.
  intros Hb Hcs Hc. unfold effective_budget in Hb.
  apply bind_Ok_inv in Hb as (vs & Hvs & Hb). apply res_map_Forall2 in Hvs.
  set (f d := match ea_budget (effective_bound cs) !! d with
              | Some v => Z.min (c d) v | None => c d end) in *.
  assert (∀ d, dict_of vs !! d = Some (f d)) as Hd.
  { intros d'. apply dict_of_dimensions. eapply Forall2_impl; [exact Hvs|].
    intros x p Hp. simpl in Hp. destruct (Hc x) as [Hx _]. rewrite Hx in Hp.
    cbn [mbind res_bind] in Hp. unfold f.
    destruct (ea_budget (effective_bound cs) !! x) as [v|] eqn:E; [|by injection Hp as <-].
    assert (scale (dec_of_units v) = Ok v) as Hv.
    { apply scaled_or_units. pose proof (effective_ceiling_money _ _ _ Hcs E).
      unfold MONEY_LIMIT in *. change (10 ^ 24) with (10 ^ 20 * 10000). lia. }
    rewrite Hv in Hp. cbn [mbind res_bind] in Hp. by injection Hp as <-. }
  destruct (from_scaled_units _ _ d Hb) as [H H'].
  - intros d' n. rewrite Hd. intros [= <-]. unfold f. destruct (Hc d') as [_ Hlt].
    destruct (ea_budget (effective_bound cs) !! d') as [v|] eqn:E; [|done].
    pose proof (effective_ceiling_money _ _ _ Hcs E). unfold MONEY_LIMIT in *.
    change (10 ^ 24) with (10 ^ 20 * 10000) in *. lia.
  - rewrite Hd in H, H'. by split.
Qed.

(** Folding a budget never leaves more than it or any ceiling of the chain gave. *)
Theorem effective_budget_min cs ceiling b (c : BudgetDimension → Z) d :
  effective_budget cs ceiling = Ok b → Forall (λ c, Caveat_valid c = true) cs →
  (∀ d, Budget_scaled ceiling d = Ok (c d) ∧ Z.abs (c d) < 10 ^ 24) →
  Budget_scaled b d
  = Ok (match ea_budget (effective_bound cs) !! d with
        | Some v => Z.min (c d) v | None => c d end).
Proof.
  intros Hb Hcs Hc. destruct (effective_budget_units _ _ _ c d Hb Hcs Hc).
  by apply Budget_scaled_units.
Qed.

Lemma effective_budget_min_witness :
  Budget_scaled (mkBudget 12500 3 0 0 0) SPEND_BDT = Ok 12500.
Proof.
  refine (effective_budget_min [BudgetCeiling SPEND_BDT 12500] (mkBudget 90000 3 0 0 0)
            (mkBudget 12500 3 0 0 0)
            (λ d, match d with SPEND_BDT => 90000 | TOOL_CALLS => 30000 | _ => 0 end) SPEND_BDT
            _ _ _).
  - vm_compute. reflexivity.
  - repeat constructor.
  - intros []; split; vm_compute; reflexivity.
Defined.

(** ** Minting a child *)
Ltac list_in := first [left | right; list_in].

Section attenuate_spec.
Context `{BiscuitLib}.

Lemma grant_caveats_Ok parent grant :
  grant_caveats parent = Ok grant →
  ScopeSubset (vt_scopes parent) ∈ grant
  ∧ DepthLimit (vt_max_depth parent) ∈ grant
  ∧ IntentBound (vt_intent_hash parent) ∈ grant
  ∧ TimeWindow (Some (vt_not_before parent)) (Some (vt_expires_at parent)) ∈ grant
  ∧ ∀ d, ∃ v, money_of (Budget_get (vt_budget parent) d) = Ok v ∧ BudgetCeiling d v ∈ grant.
Proof.
  unfold grant_caveats. intros Hg.
  apply bind_Ok_inv in Hg as (s & Hs & Hg). apply bind_Ok_inv in Hg as (dl & Hd & Hg).
  apply bind_Ok_inv in Hg as (i & Hi & Hg). apply bind_Ok_inv in Hg as (w & Hw & Hg).
  apply bind_Ok_inv in Hg as (cs & Hcs & [= <-]).
  unfold mk_ScopeSubset in Hs. apply bind_Ok_inv in Hs as (X & HX%check_scopes_Ok & [= <-]).
  destruct HX as [-> _].
  unfold mk_DepthLimit in Hd. destruct (_ && _); [|done]. injection Hd as <-.
  unfold mk_IntentBound in Hi. apply bind_Ok_inv in Hi as (h & Hh%check_hex64_Ok & [= <-]).
  destruct Hh as [-> _].
  unfold mk_TimeWindow in Hw. simpl in Hw. destruct (_ <? _); [|done]. injection Hw as <-.
  do 4 (split; [list_in|]).
  intros d. apply res_map_Forall2 in Hcs.
  destruct (list_elem_of_lookup_1 _ _ (elem_of_all_dimensions d)) as (i & Hi).
  destruct (Forall2_lookup_l _ _ _ _ _ Hcs Hi) as (c & Hc%list_elem_of_lookup_2 & Hcd).
  unfold mk_BudgetCeiling in Hcd. apply bind_Ok_inv in Hcd as (v & Hv & [= <-]).
  exists v. split; [done|]. by do 4 right.
Qed.

(** A proposed caveat without pieces narrows each grant caveat of its slot. *)
Lemma narrows_grant parent cs anc grant c g :
  grant_caveats parent = Ok grant → narrowed cs (grant ++ anc) → c ∈ cs → g ∈ grant →
  atoms c = [c] → atoms g = [g] → comparability_slot c = comparability_slot g →
  narrows c g = Ok true.
Proof.
  intros _ Hn Hc Hg Hac Hag Hs. apply (Hn c c g g); try done.
  - rewrite Hac. left.
  - apply elem_of_app. by left.
  - rewrite Hag. left.
Qed.

(** What the new block says, before the caveats. *)
Definition identity_lines (parent : VerifiedToken) (agent_id role : pystr) : list pystr :=
  [string_fact "agent" agent_id; string_fact "role" role;
   u "declared_depth(" ++ py_str_int (vt_depth parent + 1) ++ u ");"].

(** C13: A token is minted only if both labels are safe and every proposed caveat
    narrows the grant: no scope the parent lacks, no raised ceiling, no extended or
    anticipated window, no deeper chain, no other intent.  What is appended is the
    identity facts and the caveats' Datalog, and the child is within the size
    limit. *)
Theorem attenuate_narrows parent cs agent_id role anc child :
  attenuate parent cs agent_id role anc = Ok child →
  validate_label agent_id = Ok agent_id ∧ validate_label role = Ok role
  ∧ (∀ X, ScopeSubset X ∈ cs → X ⊆ vt_scopes parent)
  ∧ (∀ d v, BudgetCeiling d v ∈ cs →
       ∃ g, money_of (Budget_get (vt_budget parent) d) = Ok g ∧ v <= g)
  ∧ (∀ nb na, TimeWindow nb na ∈ cs →
       (∀ t, na = Some t → t <= vt_expires_at parent)
       ∧ (∀ t, nb = Some t → vt_not_before parent <= t))
  ∧ (∀ n, DepthLimit n ∈ cs → n <= vt_max_depth parent)
  ∧ (∀ h, IntentBound h ∈ cs → h = vt_intent_hash parent)
  ∧ ∃ body b,
      block_datalog cs = Ok body
      ∧ raw (lib_append (vt_biscuit parent)
               (py_join [newline] (if bool_decide (body = [])
                                   then identity_lines parent agent_id role
                                   else identity_lines parent agent_id role ++ [body]))) = Ok b
      ∧ child = to_base64 b ∧ Z.of_nat (length child) <= HARD_SIZE_LIMIT_B64.
Proof.
  unfold attenuate. intros Ha.
  apply bind_Ok_inv in Ha as (l1 & Hl1 & Ha). apply bind_Ok_inv in Ha as (l2 & Hl2 & Ha).
  apply bind_Ok_inv in Ha as (grant & Hg & Ha). apply bind_Ok_inv in Ha as ([] & Hn & Ha).
  apply bind_Ok_inv in Ha as (body & Hb & Ha). cbv zeta in Ha.
  apply bind_Ok_inv in Ha as (b & Hap & Ha). apply bind_Ok_inv in Ha as ([] & Hsz & [= <-]).
  apply raise_if_Ok, Z.ltb_ge in Hsz. apply check_narrowing_spec in Hn.
  destruct (grant_caveats_Ok _ _ Hg) as (Gs & Gd & Gi & Gw & Gb).
  assert (∀ x y, validate_label x = Ok y → y = x) as Hlabel.
  { intros x y. unfold validate_label. intros H'. by inv_ok. }
  pose proof (Hlabel _ _ Hl1) as ->. pose proof (Hlabel _ _ Hl2) as ->.
  split_and!; try done.
  - intros X HX. pose proof (narrows_grant _ _ _ _ _ _ Hg Hn HX Gs eq_refl eq_refl eq_refl) as H'.
    unfold narrows in H'. simpl in H'. injection H' as H'%bool_decide_eq_true. done.
  - intros d v Hv. destruct (Gb d) as (g & Hm & Hin). exists g. split; [done|].
    pose proof (narrows_grant _ _ _ _ _ _ Hg Hn Hv Hin eq_refl eq_refl eq_refl) as H'.
    unfold narrows in H'. rewrite bool_decide_eq_true_2 in H' by done. simpl in H'.
    injection H' as H'. blia.
  - intros nb na Hw.
    assert (∀ a p, a ∈ atoms (TimeWindow nb na) →
      p ∈ atoms (TimeWindow (Some (vt_not_before parent)) (Some (vt_expires_at parent))) →
      comparability_slot a = comparability_slot p → narrows a p = Ok true) as Hat.
    { intros a p Ha Hp Hs. eapply (Hn _ a _ p); try done. apply elem_of_app. by left. }
    split; intros t ->.
    + specialize (Hat (TimeWindow None (Some t)) (TimeWindow None (Some (vt_expires_at parent)))).
      assert (narrows (TimeWindow None (Some t)) (TimeWindow None (Some (vt_expires_at parent))) = Ok true)
        as H' by (apply Hat; [destruct nb; simpl; set_solver|simpl; set_solver|done]).
      unfold narrows in H'. simpl in H'. injection H' as H'. blia.
    + specialize (Hat (TimeWindow (Some t) None) (TimeWindow (Some (vt_not_before parent)) None)).
      assert (narrows (TimeWindow (Some t) None) (TimeWindow (Some (vt_not_before parent)) None) = Ok true)
        as H' by (apply Hat; [destruct na; simpl; set_solver|simpl; set_solver|done]).
      unfold narrows in H'. simpl in H'. rewrite andb_true_r in H'. injection H' as H'. blia.
  - intros n HX. pose proof (narrows_grant _ _ _ _ _ _ Hg Hn HX Gd eq_refl eq_refl eq_refl) as H'.
    unfold narrows in H'. simpl in H'. injection H' as H'. blia.
  - intros h HX. pose proof (narrows_grant _ _ _ _ _ _ Hg Hn HX Gi eq_refl eq_refl eq_refl) as H'.
    unfold narrows in H'. simpl in H'. by injection H' as H'%bool_decide_eq_true.
  - exists body, b. done.
Qed.
End attenuate_spec.

#[local] Existing Instance toy_lib.

Lemma attenuate_narrows_witness :
  let parent := {| vt_biscuit := toy_token;
                   vt_mandate_id := 1%N; vt_task_id := 2%N; vt_principal_id := u "user:1";
                   vt_intent_hash := concat (repeat (u "0a") 32);
                   vt_scopes := {[u "invoice:read"; u "vendor:read"]};
                   vt_budget := mkBudget 500000 3 0 0 0; vt_scaled_budget := ∅;
                   vt_max_depth := 3; vt_not_before := 100; vt_expires_at := 900;
                   vt_depth := 0; vt_revocation_ids := []; vt_size_b64 := 4;
                   vt_size_warning := false |} in
  attenuate parent [ScopeSubset {[u "invoice:read"]}; TimeWindow None (Some 800)]
    (u "agt") (u "reader") [] = Ok (u "En0K+")
  ∧ 800 <= vt_expires_at parent.
Proof.
  intros parent.
  assert (attenuate parent [ScopeSubset {[u "invoice:read"]}; TimeWindow None (Some 800)]
            (u "agt") (u "reader") [] = Ok (u "En0K+")) as H by (vm_compute; reflexivity).
  split; [exact H|].
  destruct (attenuate_narrows _ _ _ _ _ _ H) as (_ & _ & _ & _ & Hw & _).
  apply (Hw None (Some 800)); [right; left|reflexivity].
Defined.
