(* ===== verification/Decide.v ===== *)
(** * The decision pipeline (agentiam_core/decision.py)

    Steps 3 to 7 of a request: revocation, the token's own authority, policy,
    drift, budget, in that order, the first failing step naming the cause.  The
    five oracles are interfaces ([Class]); the budget oracle is the PEP's lease
    pool, which schedules top-ups when asked, so its state is threaded through.
    [decide] is proved against the interfaces alone. *)
From S2P Require Import Prelude PyText Errors PyNum PyRe PyUuid Models Caveats Tokens.

(** ** Oracles *)
Class RevocationOracle (R : Type) := { is_revoked : R → pystr → py bool }.

Record PolicyVerdict := mkPolicyVerdict {
  pv_allowed : bool; pv_statement : option pystr; pv_version : pystr; pv_stale : bool }.

Class PolicyEngine (P : Type) := { policy_evaluate : P → RequestContext → py PolicyVerdict }.

Class BudgetOracle (B : Type) := {
  budget_check : B → gmap BudgetDimension Z → py BudgetVerdict * B }.

Class DriftOracle (D : Type) := { score_for : D → RequestContext → py (option decimal) }.

(** ** Decisions *)

(** [Decision]; the name is taken by the class of decidable propositions. *)
Record Verdict := mkVerdict {
  v_outcome : Outcome;
  v_reason_code : ReasonCode;
  v_reason_detail : fstr;
  v_failing_caveat : option CaveatRef;
  v_drift_score : option decimal }.

Definition v_allowed (v : Verdict) : bool := bool_decide (v_outcome v = ALLOW).

Definition _ALLOW : Verdict := mkVerdict ALLOW OK no_detail None None.
Definition _deny (code : ReasonCode) (detail : fstr) (caveat : option CaveatRef) : Verdict :=
  mkVerdict DENY code detail caveat None.

Definition DRIFT_ESCALATION_THRESHOLD : decimal := Dec 7 (-1).

(** Steps 1-2: the type's entry in the table, else the class attribute. *)
Definition _TOKEN_ERROR_CODES (e : exn) : option ReasonCode :=
  match e with
  | MalformedTokenError => Some MALFORMED_REQUEST
  | InvalidSignatureError => Some TOKEN_INVALID_SIGNATURE
  | TokenExpiredError => Some TOKEN_EXPIRED
  | TokenNotYetValidError => Some TOKEN_NOT_YET_VALID
  | TokenTooLargeError => Some TOKEN_TOO_LARGE
  | DepthExceededError => Some DEPTH_EXCEEDED
  | _ => None
  end.

Definition decision_for_token_error (e : exn) (message : fstr) : Verdict :=
  _deny (default (default MALFORMED_REQUEST (exn_reason_code e)) (_TOKEN_ERROR_CODES e))
    message None.

Definition _caveat_ref (index : Z) (c : Caveat) (detail : fstr) : CaveatRef :=
  mkCaveatRef index (caveat_kind_of c) (Some detail).

(** Step 4: the whole list is scanned; a deny returns at once, the first
    escalation is kept. *)
Fixpoint caveat_loop (index : Z) (caveats : list Caveat) (ctx : RequestContext)
    (escalation : option Verdict) : py (option Verdict) :=
  match caveats with
  | [] => Ok escalation
  | c :: rest =>
      r ← evaluate c ctx;
      let ref := Some (_caveat_ref index c (res_detail r)) in
      match res_outcome r with
      | ALLOW => caveat_loop (index + 1) rest ctx escalation
      | DENY => Ok (Some (_deny (res_reason r) (res_detail r) ref))
      | o =>
          caveat_loop (index + 1) rest ctx
            (match escalation with
             | None => Some (mkVerdict o (res_reason r) (res_detail r) ref None)
             | Some e => Some e
             end)
      end
  end.

Definition _evaluate_caveats (caveats : list Caveat) (ctx : RequestContext) : py (option Verdict) :=
  caveat_loop 0 caveats ctx None.

Section decide.
Context `{BiscuitLib} {R P B D : Type}
  `{RevocationOracle R, PolicyEngine P, BudgetOracle B, DriftOracle D}.

(** Step 3: the first revoked id, its own or an ancestor's. *)
Fixpoint revocation_loop (o : R) (position : Z) (ids : list pystr) (last : Z) : py (option Verdict) :=
  match ids with
  | [] => Ok None
  | rid :: rest =>
      match is_revoked o rid with
      | Ok true =>
          Ok (Some (_deny (if position =? last then TOKEN_REVOKED else ANCESTOR_REVOKED)
                      (F "block {} is revoked" [FStr rid]) None))
      | Ok false => revocation_loop o (position + 1) rest last
      | Raise (OracleUnavailable why) =>
          Ok (Some (_deny CONTROL_PLANE_UNAVAILABLE_FAIL_CLOSED (F "revocation: {}" [FStr why]) None))
      | Raise e => Raise e
      end
  end.

Definition revocation_step (o : R) (token : VerifiedToken) : py (option Verdict) :=
  let ids := vt_revocation_ids token in
  revocation_loop o 0 ids (Z.of_nat (length ids) - 1).

(** Step 4, what is re-implemented here before the caveats. *)
Definition grant_step (token : VerifiedToken) (ctx : RequestContext) : option Verdict :=
  if negb (bool_decide (operation ctx ∈ vt_scopes token)) then
    Some (_deny SCOPE_NOT_GRANTED
            (F "scope {!r} is not in the mandate's grant" [FStr (operation ctx)]) None)
  else if negb (bool_decide (request_intent ctx = vt_intent_hash token)) then
    Some (_deny INTENT_MISMATCH
            (F "the request's intent does not match the intent this token is bound to" []) None)
  else if vt_max_depth token <? current_depth ctx then
    Some (_deny DEPTH_EXCEEDED
            (F "depth {} exceeds the mandate's limit of {}"
               [FInt (current_depth ctx); FInt (vt_max_depth token)]) None)
  else None.

(** The token's own Datalog. *)
Definition authority_step (token : VerifiedToken) (ctx : RequestContext) : py (option Verdict) :=
  match authorize_request token ctx with
  | Ok None => Ok None
  | Ok (Some failure) =>
      Ok (Some (_deny (af_reason_code failure)
                  (F "refused by a check in block {} of the token: {}"
                     [FInt (af_block failure); FStr (af_source failure)]) None))
  | Raise VerificationLimitError =>
      Ok (Some (_deny VERIFICATION_LIMIT_EXCEEDED (F "token authorization: {}" []) None))
  | Raise e => Raise e
  end.

(** Step 5. *)
Definition policy_step (o : P) (ctx : RequestContext) : py (option Verdict) :=
  match policy_evaluate o ctx with
  | Raise (OracleUnavailable why) =>
      Ok (Some (_deny CONTROL_PLANE_UNAVAILABLE_FAIL_CLOSED (F "policy: {}" [FStr why]) None))
  | Raise e => Raise e
  | Ok verdict =>
      Ok (if pv_stale verdict then
            Some (_deny POLICY_BUNDLE_STALE
                    (F "policy bundle {} is past its staleness limit"
                       [FStr (if bool_decide (pv_version verdict = []) then u "unknown"
                              else pv_version verdict)]) None)
          else if negb (pv_allowed verdict) then
            Some (_deny POLICY_DENIED
                    (F "denied by policy statement {}"
                       [FStr (match pv_statement verdict with
                              | Some ((_ :: _) as s) => s | _ => u "unnamed" end)]) None)
          else None)
  end.

(** Step 6: advisory, so an unavailable oracle is no score. *)
Definition drift_score_of (o : option D) (ctx : RequestContext) : py (option decimal) :=
  match o with
  | Some o =>
      if bool_decide (drift_mode ctx = OFF) then Ok None else
      match score_for o ctx with
      | Ok s => Ok s
      | Raise (OracleUnavailable _) => Ok None
      | Raise e => Raise e
      end
  | None => Ok None
  end.

Definition drift_escalates (score : option decimal) (ctx : RequestContext) : bool :=
  match score with
  | Some s => dec_ltb DRIFT_ESCALATION_THRESHOLD s && bool_decide (drift_mode ctx = STRICT)
  | None => false
  end.

Definition drift_verdict (s : decimal) : Verdict :=
  mkVerdict ESCALATE DRIFT_ESCALATION
    (F "drift score {} is above the escalation threshold {}"
       [FDec s; FDec DRIFT_ESCALATION_THRESHOLD]) None (Some s).

(** Step 7. *)
Definition budget_step (o : B) (ctx : RequestContext) : py (option Verdict) * B :=
  let '(answer, o') := budget_check o (requested ctx) in
  (match answer with
   | Raise (OracleUnavailable why) =>
       Ok (Some (_deny CONTROL_PLANE_UNAVAILABLE_FAIL_CLOSED (F "lease pool: {}" [FStr why]) None))
   | Raise e => Raise e
   | Ok v =>
       if bv_ok v then Ok None else
       let named := match bv_exhausted_dimension v with
                    | Some d => dimension_value d | None => u "the request" end in
       Ok (Some (if bv_mandate_exhausted v then
                   _deny BUDGET_EXHAUSTED_MANDATE
                     (F "the mandate's budget for {} is exhausted" [FStr named]) None
                 else
                   _deny LEASE_UNAVAILABLE
                     (F "this PEP's lease for {} cannot cover the request" [FStr named]) None))
   end, o').

(** A step that answers ends the decision; one that does not hands over. *)
Definition or_else (m : py (option Verdict)) (k : py Verdict * B) (b : B) : py Verdict * B :=
  match m with
  | Raise e => (Raise e, b)
  | Ok (Some v) => (Ok v, b)
  | Ok None => k
  end.

Definition decide_request (token : VerifiedToken) (ctx : RequestContext) (caveats : list Caveat)
    (revocation : R) (policy : P) (budget : B) (drift : option D) : py Verdict * B :=
  or_else (revocation_step revocation token) (
  or_else (Ok (grant_step token ctx)) (
  match _evaluate_caveats caveats ctx with
  | Raise e => (Raise e, budget)
  | Ok caveat_decision =>
      if match caveat_decision with
         | Some v => bool_decide (v_outcome v = DENY) | None => false end
      then (Ok (default _ALLOW caveat_decision), budget) else
      or_else (authority_step token ctx) (
      or_else (policy_step policy ctx) (
      match drift_score_of drift ctx with
      | Raise e => (Raise e, budget)
      | Ok score =>
          match score, drift_escalates score ctx with
          | Some s, true => (Ok (drift_verdict s), budget)
          | _, _ =>
              match caveat_decision with
              | Some v =>
                  (Ok (mkVerdict (v_outcome v) (v_reason_code v) (v_reason_detail v)
                         (v_failing_caveat v) score), budget)
              | None =>
                  let '(answer, budget') := budget_step budget ctx in
                  or_else answer
                    (Ok (match score with
                         | None => _ALLOW
                         | Some s => mkVerdict ALLOW OK no_detail None (Some s)
                         end), budget') budget'
              end
          end
      end) budget) budget
  end) budget) budget.
End decide.

(** ** What the steps answer *)

(** A verdict whose outcome and reason code [DecisionRecord] accepts together. *)
Definition coherent (v : Verdict) : Prop :=
  outcome_matches_reason (v_outcome v) (v_reason_code v) = true.

Definition denies (m : py (option Verdict)) : Prop :=
  ∀ v, m = Ok (Some v) → v_outcome v = DENY ∧ v_reason_code v ≠ OK.

Lemma evaluate_coherent c ctx r :
  evaluate c ctx = Ok r → outcome_matches_reason (res_outcome r) (res_reason r) = true.
Proof.
  destruct c as [X|d v|nb na|X|X|path op v|n|h|X]; cbn [evaluate]; intros He.
  6: { destruct (ctx_args ctx !! path); [|by injection He as <-].
       apply bind_Ok_inv in He as (sat & _ & [= <-]). by destruct sat. }
  2, 6: injection He as <-; by destruct (_ <=? _).
  2: { injection He as <-. destruct nb, na; cbv zeta iota;
         repeat match goal with |- context [if ?x then _ else _] => destruct x end; done. }
  all: injection He as <-.
  1, 4, 5: by destruct (bool_decide _).
  all: destruct (ctx_tool ctx); [by destruct (bool_decide _)|done].
Qed.

Lemma escalation_kept (e : option Verdict) ref o (code : ReasonCode) (d : fstr) :
  (∀ v, e = Some v → v_outcome v ≠ ALLOW ∧ v_outcome v ≠ DENY ∧ coherent v) →
  match o with ESCALATE | ALLOW_WITH_FLAG => true | _ => false end = true →
  outcome_matches_reason o code = true →
  ∀ v, match e with None => Some (mkVerdict o code d ref None) | Some e => Some e end = Some v →
    v_outcome v ≠ ALLOW ∧ v_outcome v ≠ DENY ∧ coherent v.
Proof.
  intros He Ho Hc v. destruct e as [x|]; [intros [= <-]; by apply He|].
  intros [= <-]. simpl. split_and!; [by destruct o|by destruct o|exact Hc].
Qed.

Lemma caveat_loop_spec i cs ctx e :
  (∀ v, e = Some v → v_outcome v ≠ ALLOW ∧ v_outcome v ≠ DENY ∧ coherent v) →
  ∀ m, caveat_loop i cs ctx e = Ok m →
    (∀ v, m = Some v → v_outcome v ≠ ALLOW ∧ coherent v)
    ∧ (m = None ↔ e = None ∧ Forall (λ c, ∃ r, evaluate c ctx = Ok r ∧ res_outcome r = ALLOW) cs).
Proof.
  revert i e. induction cs as [|c cs IH]; intros i e He m Hm; simpl in Hm.
  { injection Hm as <-. split; [intros v ->; by destruct (He v eq_refl) as (? & _ & ?)|].
    split; [by intros ->|by intros [? _]]. }
  apply bind_Ok_inv in Hm as (r & Hr & Hm). pose proof (evaluate_coherent _ _ _ Hr) as Hco.
  rewrite Forall_cons. destruct (res_outcome r) eqn:Ho.
  - destruct (IH _ _ He _ Hm) as [H1 H2]. split; [exact H1|]. rewrite H2. split.
    + intros [-> Hf]. eauto 10.
    + by intros (-> & _ & Hf).
  - injection Hm as <-. split.
    + intros v [= <-]. split; [discriminate|]. exact Hco.
    + split; [discriminate|]. intros (_ & (r' & Hr' & Hr'') & _). congruence.
  - destruct (IH _ _ (escalation_kept e _ ESCALATE _ _ He eq_refl Hco) _ Hm) as [H1 H2].
    split; [exact H1|]. rewrite H2. split.
    + intros [He' _]. by destruct e.
    + intros (_ & (r' & Hr' & Hr'') & _). congruence.
  - destruct (IH _ _ (escalation_kept e _ ALLOW_WITH_FLAG _ _ He eq_refl Hco) _ Hm) as [H1 H2].
    split; [exact H1|]. rewrite H2. split.
    + intros [He' _]. by destruct e.
    + intros (_ & (r' & Hr' & Hr'') & _). congruence.
Qed.

(** Deny beats escalate: the first denying caveat is the answer, wherever the
    escalating ones are. *)
Lemma caveat_loop_deny i cs1 c cs2 ctx e r :
  Forall (λ c, ∃ r, evaluate c ctx = Ok r ∧ res_outcome r ≠ DENY) cs1 →
  evaluate c ctx = Ok r → res_outcome r = DENY →
  caveat_loop i (cs1 ++ c :: cs2) ctx e
  = Ok (Some (_deny (res_reason r) (res_detail r)
                (Some (_caveat_ref (i + Z.of_nat (length cs1)) c (res_detail r))))).
Proof.
  intros Hcs Hr Ho. revert i e. induction Hcs as [|c' cs1 (r' & Hr' & Ho') _ IH]; intros i e; simpl.
  - rewrite Hr. simpl. rewrite Ho. by rewrite Z.add_0_r.
  - rewrite Hr'. cbn [mbind res_bind].
    replace (i + Z.of_nat (S (length cs1))) with (i + 1 + Z.of_nat (length cs1)) by lia.
    destruct (res_outcome r'); try done; apply IH.
Qed.

Lemma first_failure_refuses detail f : _first_failure detail = Ok f → af_reason_code f ≠ OK.
Proof.
  unfold _first_failure. destruct (finditer _ _) as [|m ms]; [by intros [= <-]|].
  intros (n & _ & [= <-])%bind_Ok_inv. simpl.
  assert (∀ l s, Forall (λ p : string * ReasonCode, p.2 ≠ OK) l →
    default SCOPE_ATTENUATED_AWAY (reason_of_check l s) ≠ OK) as Hl.
  { intros l s Hl. unfold reason_of_check. destruct (list_find _ l) as [[i p]|] eqn:E; [|done].
    simpl. apply list_find_Some in E as (E & _ & _).
    rewrite Forall_forall in Hl. by eapply Hl, list_elem_of_lookup_2. }
  destruct (n =? AUTHORITY_BLOCK); apply Hl; repeat constructor; done.
Qed.

Section steps.
Context `{BiscuitLib} {R P B D : Type}
  `{RevocationOracle R, PolicyEngine P, BudgetOracle B, DriftOracle D}.

Lemma revocation_loop_denies (o : R) i ids last : denies (revocation_loop o i ids last).
Proof.
  revert i. induction ids as [|rid ids IH]; intros i v; simpl; [done|].
  destruct (is_revoked o rid) as [[]|e].
  - intros [= <-]. simpl. by destruct (_ =? _).
  - apply IH.
  - destruct e; try done. by intros [= <-].
Qed.

Lemma revocation_loop_None (o : R) i ids last :
  revocation_loop o i ids last = Ok None ↔ ∀ rid, rid ∈ ids → is_revoked o rid = Ok false.
Proof.
  revert i. induction ids as [|rid ids IH]; intros i; simpl.
  { split; [by intros _ rid ?%elem_of_nil|done]. }
  destruct (is_revoked o rid) as [[]|e] eqn:E.
  - split; [done|]. intros Hr. rewrite Hr in E by left. done.
  - rewrite IH. split.
    + intros Hr x [->|?]%elem_of_cons; auto.
    + intros Hr x ?. apply Hr. by right.
  - split; [by destruct e|]. intros Hr. rewrite Hr in E by left. done.
Qed.

Lemma grant_denies token ctx : denies (Ok (grant_step token ctx)).
Proof.
  unfold grant_step. intros v [= Hv].
  repeat match type of Hv with (if ?x then _ else _) = _ => destruct x end; by simplify_eq.
Qed.

Lemma grant_None token ctx :
  grant_step token ctx = None ↔
    operation ctx ∈ vt_scopes token ∧ request_intent ctx = vt_intent_hash token
    ∧ current_depth ctx <= vt_max_depth token.
Proof.
  unfold grant_step. case_bool_decide; simpl; [|naive_solver].
  case_bool_decide; simpl; [|naive_solver].
  destruct (Z.ltb_spec (vt_max_depth token) (current_depth ctx)); naive_solver lia.
Qed.
Lemma authority_denies token ctx : denies (authority_step token ctx).
Proof.
  unfold authority_step. intros v. destruct (authorize_request token ctx) as [[f|]|e] eqn:E.
  - intros [= <-]. split; [done|]. unfold authorize_request in E.
    apply bind_Ok_inv in E as (facts & _ & E).
    destruct (lib_authorize _ _ _) as [|[detail|]]; try done.
    apply bind_Ok_inv in E as (? & _ & E). apply bind_Ok_inv in E as (f' & Hf & [= <-]).
    by eapply first_failure_refuses.
  - done.
  - destruct e; try done. by intros [= <-].
Qed.

Lemma authority_None token ctx :
  authority_step token ctx = Ok None ↔ authorize_request token ctx = Ok None.
Proof.
  unfold authority_step. destruct (authorize_request token ctx) as [[f|]|e]; try done.
  by destruct e.
Qed.

Lemma policy_denies (o : P) ctx : denies (policy_step o ctx).
Proof.
  unfold policy_step. intros v. destruct (policy_evaluate o ctx) as [pv|e].
  - destruct (pv_stale pv); [by intros [= <-]|]. destruct (pv_allowed pv); [done|].
    by intros [= <-].
  - destruct e; try done. by intros [= <-].
Qed.

Lemma policy_None (o : P) ctx :
  policy_step o ctx = Ok None ↔
    ∃ pv, policy_evaluate o ctx = Ok pv ∧ pv_stale pv = false ∧ pv_allowed pv = true.
Proof.
  unfold policy_step. destruct (policy_evaluate o ctx) as [pv|e].
  - destruct (pv_stale pv) eqn:Es; [split; [done|intros (? & [= <-] & ? & _); congruence]|].
    destruct (pv_allowed pv) eqn:Ea; simpl; [split; [eauto|done]|].
    split; [done|]. intros (? & [= <-] & _ & ?). congruence.
  - split; [by destruct e|]. by intros (? & ? & _).
Qed.

Lemma budget_denies (o : B) ctx : denies (budget_step o ctx).1.
Proof.
  unfold budget_step. intros v. destruct (budget_check o (requested ctx)) as [[bv|e] o']; simpl.
  - destruct (bv_ok bv); [done|]. intros [= <-]. by destruct (bv_mandate_exhausted bv).
  - destruct e; try done. by intros [= <-].
Qed.

Lemma budget_None (o : B) ctx :
  (budget_step o ctx).1 = Ok None ↔
    ∃ bv, (budget_check o (requested ctx)).1 = Ok bv ∧ bv_ok bv = true.
Proof.
  unfold budget_step. destruct (budget_check o (requested ctx)) as [[bv|e] o']; simpl.
  - destruct (bv_ok bv) eqn:Eb; [split; [eauto|done]|].
    split; [done|]. intros (? & [= <-] & ?). congruence.
  - split; [by destruct e|]. by intros (? & ? & _).
Qed.

Lemma or_else_inv m (k : py Verdict * B) b v b' :
  or_else m k b = (Ok v, b') → (m = Ok (Some v)) ∨ (m = Ok None ∧ k = (Ok v, b')).
Proof. destruct m as [[x|]|e]; simpl; [|auto|done]. intros [= <- _]. by left. Qed.

Lemma denies_deny m v : denies m → m = Ok (Some v) → v_outcome v ≠ ALLOW ∧ coherent v.
Proof.
  intros Hd Hm. destruct (Hd v Hm) as [Ho Hr]. split; [by rewrite Ho|].
  unfold coherent. rewrite Ho. by destruct (v_reason_code v).
Qed.

(** Everything the decision requires of a request it allows. *)
Record permitted (token : VerifiedToken) (ctx : RequestContext) (caveats : list Caveat)
    (revocation : R) (policy : P) (budget : B) (drift : option D) : Prop := {
  pm_live : ∀ rid, rid ∈ vt_revocation_ids token → is_revoked revocation rid = Ok false;
  pm_scope : operation ctx ∈ vt_scopes token;
  pm_intent : request_intent ctx = vt_intent_hash token;
  pm_depth : current_depth ctx <= vt_max_depth token;
  pm_caveats : Forall (λ c, ∃ r, evaluate c ctx = Ok r ∧ res_outcome r = ALLOW) caveats;
  pm_blocks : authorize_request token ctx = Ok None;
  pm_policy : ∃ pv, policy_evaluate policy ctx = Ok pv
                    ∧ pv_stale pv = false ∧ pv_allowed pv = true;
  pm_drift : ∃ score, drift_score_of drift ctx = Ok score ∧ drift_escalates score ctx = false;
  pm_budget : ∃ bv, (budget_check budget (requested ctx)).1 = Ok bv ∧ bv_ok bv = true }.

Lemma allowed_permitted token ctx caveats (ro : R) (po : P) (bo : B) (dr : option D) v :
  (decide_request token ctx caveats ro po bo dr).1 = Ok v → v_outcome v = ALLOW →
  permitted token ctx caveats ro po bo dr.
Proof.
  intros Hv Ho.
  destruct (decide_request token ctx caveats ro po bo dr) as [a b'] eqn:E. simpl in Hv. subst a.
  assert (∀ m, denies m → m ≠ Ok (Some v)) as Hno.
  { intros m Hd Hm. by destruct (denies_deny m v Hd Hm). }
  unfold decide_request in E.
  apply or_else_inv in E as [E|[Hrev E]]; [by exfalso; eapply Hno; [apply revocation_loop_denies|exact E]|].
  apply or_else_inv in E as [E|[Hgr E]]; [by exfalso; eapply Hno; [apply grant_denies|exact E]|].
  destruct (_evaluate_caveats caveats ctx) as [cd|] eqn:Ec; [|done].
  destruct (caveat_loop_spec _ _ _ None ltac:(done) _ Ec) as [Hcd1 Hcd2].
  destruct (match cd with Some v => bool_decide (v_outcome v = DENY) | None => false end) eqn:Ed.
  { destruct cd as [x|]; [|done]. injection E as <- _. by destruct (Hcd1 x eq_refl). }
  apply or_else_inv in E as [E|[Hau E]]; [by exfalso; eapply Hno; [apply authority_denies|exact E]|].
  apply or_else_inv in E as [E|[Hpo E]]; [by exfalso; eapply Hno; [apply policy_denies|exact E]|].
  destruct (drift_score_of dr ctx) as [score|] eqn:Es; [|done].
  destruct (drift_escalates score ctx) eqn:Ede.
  { destruct score as [s|]; [|done]. cbv iota in E. rewrite ?Ede in E. by injection E as <- _. }
  assert (match cd with
    | Some v => (Ok (mkVerdict (v_outcome v) (v_reason_code v) (v_reason_detail v)
                       (v_failing_caveat v) score), bo)
    | None => let '(answer, budget') := budget_step bo ctx in
              or_else answer (Ok match score with None => _ALLOW
                       | Some s => mkVerdict ALLOW OK no_detail None (Some s) end, budget') budget'
    end = (Ok v, b')) as E'.
  { destruct score; cbv iota in E; rewrite ?Ede in E; exact E. }
  clear E.
  destruct cd as [x|].
  { injection E' as <- _. by destruct (Hcd1 x eq_refl). }
  destruct (budget_step bo ctx) as [answer bo'] eqn:Eb.
  apply or_else_inv in E' as [E'|[Hb _]].
  { exfalso. eapply Hno; [|exact E']. pose proof (budget_denies bo ctx) as Hd.
    by rewrite Eb in Hd. }
  assert ((budget_step bo ctx).1 = Ok None) as Hb' by (by rewrite Eb).
  injection Hgr as Hgr. apply grant_None in Hgr as (? & ? & ?).
  split; try done.
  - by eapply revocation_loop_None.
  - by apply Hcd2.
  - by apply authority_None.
  - by apply policy_None.
  - eauto.
  - by apply budget_None.
Qed.

Lemma permitted_allowed token ctx caveats (ro : R) (po : P) (bo : B) (dr : option D) :
  permitted token ctx caveats ro po bo dr →
  ∃ v, (decide_request token ctx caveats ro po bo dr).1 = Ok v ∧ v_outcome v = ALLOW.
Proof.
  intros [Hl Hs Hi Hd Hc Ha Hp (score & Hsc & Hne) Hb].
  unfold decide_request, revocation_step.
  rewrite (proj2 (revocation_loop_None _ _ _ _) Hl). cbn [or_else].
  rewrite (proj2 (grant_None _ _) (conj Hs (conj Hi Hd))). cbn [or_else].
  assert (_evaluate_caveats caveats ctx = Ok None) as ->.
  { unfold _evaluate_caveats. generalize 0. clear -Hc.
    induction Hc as [|c cs (r & Hr & Ho) _ IH]; intros i; [done|]. simpl. rewrite Hr. simpl.
    rewrite Ho. apply IH. }
  rewrite (proj2 (authority_None _ _) Ha). cbn [or_else].
  rewrite (proj2 (policy_None _ _) Hp). cbn [or_else]. rewrite Hsc.
  apply budget_None in Hb. destruct (budget_step bo ctx) as [answer bo']. simpl in Hb. subst answer.
  cbn [or_else]. destruct score; cbv iota; rewrite ?Hne; simpl; eauto.
Qed.

(** C19: A request is allowed exactly when no id of the chain is revoked, the grant
    covers its operation, intent and depth, every caveat allows it, the token's own
    checks pass, a fresh policy bundle allows it, drift does not escalate it and the
    lease covers it; every other answer is a refusal or an escalation. *)
Theorem decide_allow_iff token ctx caveats (ro : R) (po : P) (bo : B) (dr : option D) :
  (∃ v, (decide_request token ctx caveats ro po bo dr).1 = Ok v ∧ v_outcome v = ALLOW)
  ↔ permitted token ctx caveats ro po bo dr.
Proof. split; [intros (v & Hv & Ho); by eapply allowed_permitted|apply permitted_allowed]. Qed.

Lemma decide_answers_coherent token ctx caveats (ro : R) (po : P) (bo : B) (dr : option D) :
  match (decide_request token ctx caveats ro po bo dr).1 with
  | Ok v => coherent v
  | Raise _ => True
  end.
Proof.
  assert (∀ m (k : py Verdict * B) b, denies m → match k.1 with Ok v => coherent v | Raise _ => True end →
    match (or_else m k b).1 with Ok v => coherent v | Raise _ => True end) as Hor.
  { intros [[x|]|e] k b Hd Hk; simpl; [|done|done]. by eapply denies_deny. }
  unfold decide_request.
  apply Hor; [apply revocation_loop_denies|]. apply Hor; [apply grant_denies|].
  destruct (_evaluate_caveats caveats ctx) as [cd|] eqn:Ec; [|done].
  destruct (caveat_loop_spec _ _ _ None ltac:(done) _ Ec) as [Hcd _].
  destruct (match cd with Some v => bool_decide (v_outcome v = DENY) | None => false end) eqn:Ed.
  { destruct cd as [x|]; [|done]. exact (proj2 (Hcd x eq_refl)). }
  apply Hor; [apply authority_denies|]. apply Hor; [apply policy_denies|].
  destruct (drift_score_of dr ctx) as [score|]; [|done].
  assert (match (match cd with
      | Some v => (Ok (mkVerdict (v_outcome v) (v_reason_code v) (v_reason_detail v)
                         (v_failing_caveat v) score), bo)
      | None => let '(answer, budget') := budget_step bo ctx in
                or_else answer (Ok match score with None => _ALLOW
                         | Some s => mkVerdict ALLOW OK no_detail None (Some s) end, budget') budget'
      end).1 with Ok v => coherent v | Raise _ => True end) as Hrest.
  { destruct cd as [x|]; [exact (proj2 (Hcd x eq_refl))|].
    pose proof (budget_denies bo ctx) as Hb. destruct (budget_step bo ctx) as [answer bo'].
    apply Hor; [exact Hb|]. by destruct score. }
  destruct score as [s|]; [|exact Hrest].
  destruct (drift_escalates (Some s) ctx); [done|exact Hrest].
Qed.

(** C21: Every answer, on every path, pairs an outcome with a reason code the decision
    record accepts: [OK] exactly when the request is allowed. *)
Theorem decide_coherent token ctx caveats (ro : R) (po : P) (bo : B) (dr : option D) :
  match (decide_request token ctx caveats ro po bo dr).1 with
  | Ok v => coherent v
  | Raise _ => True
  end.
Proof. apply decide_answers_coherent. Qed.

Lemma revocation_loop_first (o : R) i ids1 rid ids2 last :
  (∀ x, x ∈ ids1 → is_revoked o x = Ok false) →
  revocation_loop o i (ids1 ++ rid :: ids2) last
  = revocation_loop o (i + Z.of_nat (length ids1)) (rid :: ids2) last.
Proof.
  revert i. induction ids1 as [|x ids1 IH]; intros i Hl; [simpl; by rewrite Z.add_0_r|].
  change ((x :: ids1) ++ rid :: ids2) with (x :: (ids1 ++ rid :: ids2)).
  cbn [revocation_loop]. rewrite (Hl x) by left. rewrite IH by (intros; apply Hl; by right).
  cbn [revocation_loop length]. by replace (i + 1 + Z.of_nat (length ids1))
    with (i + Z.of_nat (S (length ids1))) by lia.
Qed.

(** ** Which step decides *)

(** The steps in the order they are taken; the last is the allow. *)
Inductive step :=
| Revocation | Grant | DenyingCaveat | TokenAuthority | PolicyBundle | DriftScore
| EscalatingCaveat | Lease | Allowed.

Definition rank (s : step) : nat :=
  match s with
  | Revocation => 0 | Grant => 1 | DenyingCaveat => 2 | TokenAuthority => 3 | PolicyBundle => 4
  | DriftScore => 5 | EscalatingCaveat => 6 | Lease => 7 | Allowed => 8
  end.

Section causes.
Context (token : VerifiedToken) (ctx : RequestContext) (caveats : list Caveat)
  (ro : R) (po : P) (bo : B) (dr : option D).

(** The score the decision sees: none without an oracle, in mode [OFF], or when the oracle
    cannot answer. *)
Inductive score_seen : option decimal → Prop :=
| no_oracle : dr = None → score_seen None
| mode_off : drift_mode ctx = OFF → score_seen None
| oracle_down d why : dr = Some d → drift_mode ctx ≠ OFF →
    score_for d ctx = Raise (OracleUnavailable why) → score_seen None
| oracle_answers d s : dr = Some d → drift_mode ctx ≠ OFF → score_for d ctx = Ok s → score_seen s.

Definition not_denied (c : Caveat) : Prop := ∃ r, evaluate c ctx = Ok r ∧ res_outcome r ≠ DENY.
Definition caveat_allows (c : Caveat) : Prop := ∃ r, evaluate c ctx = Ok r ∧ res_outcome r = ALLOW.
Definition unanswerable (e : exn) : Prop := ∃ why, e = OracleUnavailable why.

(** When a step ends the decision, and with what.  An exception that is not one the step
    catches leaves [decide]. *)
Inductive ends : step → py Verdict → Prop :=
| revoked ids1 rid ids2 :
    vt_revocation_ids token = ids1 ++ rid :: ids2 → (∀ x, x ∈ ids1 → is_revoked ro x = Ok false) →
    is_revoked ro rid = Ok true →
    ends Revocation (Ok (_deny (if bool_decide (ids2 = []) then TOKEN_REVOKED else ANCESTOR_REVOKED)
                           (F "block {} is revoked" [FStr rid]) None))
| revocation_down ids1 rid ids2 why :
    vt_revocation_ids token = ids1 ++ rid :: ids2 → (∀ x, x ∈ ids1 → is_revoked ro x = Ok false) →
    is_revoked ro rid = Raise (OracleUnavailable why) →
    ends Revocation (Ok (_deny CONTROL_PLANE_UNAVAILABLE_FAIL_CLOSED (F "revocation: {}" [FStr why]) None))
| revocation_raises ids1 rid ids2 e :
    vt_revocation_ids token = ids1 ++ rid :: ids2 → (∀ x, x ∈ ids1 → is_revoked ro x = Ok false) →
    is_revoked ro rid = Raise e → ¬ unanswerable e → ends Revocation (Raise e)
| not_granted :
    operation ctx ∉ vt_scopes token →
    ends Grant (Ok (_deny SCOPE_NOT_GRANTED
                      (F "scope {!r} is not in the mandate's grant" [FStr (operation ctx)]) None))
| other_intent :
    operation ctx ∈ vt_scopes token → request_intent ctx ≠ vt_intent_hash token →
    ends Grant (Ok (_deny INTENT_MISMATCH
                      (F "the request's intent does not match the intent this token is bound to" []) None))
| too_deep :
    operation ctx ∈ vt_scopes token → request_intent ctx = vt_intent_hash token →
    vt_max_depth token < current_depth ctx →
    ends Grant (Ok (_deny DEPTH_EXCEEDED
                      (F "depth {} exceeds the mandate's limit of {}"
                         [FInt (current_depth ctx); FInt (vt_max_depth token)]) None))
| denied_by cs1 c cs2 r :
    caveats = cs1 ++ c :: cs2 → Forall not_denied cs1 → evaluate c ctx = Ok r → res_outcome r = DENY →
    ends DenyingCaveat
      (Ok (_deny (res_reason r) (res_detail r) (Some (_caveat_ref (Z.of_nat (length cs1)) c (res_detail r)))))
| caveat_raises cs1 c cs2 e :
    caveats = cs1 ++ c :: cs2 → Forall not_denied cs1 → evaluate c ctx = Raise e →
    ends DenyingCaveat (Raise e)
| checks_refuse failure :
    authorize_request token ctx = Ok (Some failure) →
    ends TokenAuthority (Ok (_deny (af_reason_code failure)
                               (F "refused by a check in block {} of the token: {}"
                                  [FInt (af_block failure); FStr (af_source failure)]) None))
| checks_unfinished :
    authorize_request token ctx = Raise VerificationLimitError →
    ends TokenAuthority (Ok (_deny VERIFICATION_LIMIT_EXCEEDED (F "token authorization: {}" []) None))
| checks_raise e :
    authorize_request token ctx = Raise e → e ≠ VerificationLimitError → ends TokenAuthority (Raise e)
| policy_down why :
    policy_evaluate po ctx = Raise (OracleUnavailable why) →
    ends PolicyBundle (Ok (_deny CONTROL_PLANE_UNAVAILABLE_FAIL_CLOSED (F "policy: {}" [FStr why]) None))
| policy_raises e : policy_evaluate po ctx = Raise e → ¬ unanswerable e → ends PolicyBundle (Raise e)
| bundle_stale v :
    policy_evaluate po ctx = Ok v → pv_stale v = true →
    ends PolicyBundle (Ok (_deny POLICY_BUNDLE_STALE
                             (F "policy bundle {} is past its staleness limit"
                                [FStr (if bool_decide (pv_version v = []) then u "unknown" else pv_version v)])
                             None))
| policy_refuses v :
    policy_evaluate po ctx = Ok v → pv_stale v = false → pv_allowed v = false →
    ends PolicyBundle (Ok (_deny POLICY_DENIED
                             (F "denied by policy statement {}"
                                [FStr (match pv_statement v with
                                       | Some ((_ :: _) as s) => s | _ => u "unnamed" end)]) None))
| drifted s :
    score_seen (Some s) → drift_mode ctx = STRICT → dec_ltb DRIFT_ESCALATION_THRESHOLD s = true →
    ends DriftScore (Ok (drift_verdict s))
| drift_raises d e :
    dr = Some d → drift_mode ctx ≠ OFF → score_for d ctx = Raise e → ¬ unanswerable e →
    ends DriftScore (Raise e)
| escalated_by cs1 c cs2 r score :
    caveats = cs1 ++ c :: cs2 → Forall caveat_allows cs1 → evaluate c ctx = Ok r →
    res_outcome r ≠ ALLOW → res_outcome r ≠ DENY → Forall not_denied cs2 → score_seen score →
    ends EscalatingCaveat
      (Ok (mkVerdict (res_outcome r) (res_reason r) (res_detail r)
             (Some (_caveat_ref (Z.of_nat (length cs1)) c (res_detail r))) score))
| lease_down why :
    (budget_check bo (requested ctx)).1 = Raise (OracleUnavailable why) →
    ends Lease (Ok (_deny CONTROL_PLANE_UNAVAILABLE_FAIL_CLOSED (F "lease pool: {}" [FStr why]) None))
| lease_raises e :
    (budget_check bo (requested ctx)).1 = Raise e → ¬ unanswerable e → ends Lease (Raise e)
| lease_short v :
    (budget_check bo (requested ctx)).1 = Ok v → bv_ok v = false →
    ends Lease (Ok (
      let named := match bv_exhausted_dimension v with
                   | Some d => dimension_value d | None => u "the request" end in
      if bv_mandate_exhausted v
      then _deny BUDGET_EXHAUSTED_MANDATE (F "the mandate's budget for {} is exhausted" [FStr named]) None
      else _deny LEASE_UNAVAILABLE (F "this PEP's lease for {} cannot cover the request" [FStr named]) None))
| allowed_with score :
    score_seen score →
    ends Allowed (Ok (match score with
                      | None => _ALLOW | Some _ => mkVerdict ALLOW OK no_detail None score end)).

(** What each step's code gives: an answer, or nothing. *)
Definition ended (m : py (option Verdict)) : option (py Verdict) :=
  match m with Raise e => Some (Raise e) | Ok (Some v) => Some (Ok v) | Ok None => None end.

Definition denying (cd : option Verdict) : bool :=
  match cd with Some v => bool_decide (v_outcome v = DENY) | None => false end.

Definition answer_at (s : step) : option (py Verdict) :=
  match s with
  | Revocation => ended (revocation_step ro token)
  | Grant => ended (Ok (grant_step token ctx))
  | DenyingCaveat =>
      match _evaluate_caveats caveats ctx with
      | Raise e => Some (Raise e)
      | Ok cd => if denying cd then Ok <$> cd else None
      end
  | TokenAuthority => ended (authority_step token ctx)
  | PolicyBundle => ended (policy_step po ctx)
  | DriftScore =>
      match drift_score_of dr ctx with
      | Raise e => Some (Raise e)
      | Ok score => if drift_escalates score ctx then (λ s, Ok (drift_verdict s)) <$> score else None
      end
  | EscalatingCaveat =>
      match _evaluate_caveats caveats ctx, drift_score_of dr ctx with
      | Ok (Some v), Ok score =>
          if denying (Some v) then None
          else Some (Ok (mkVerdict (v_outcome v) (v_reason_code v) (v_reason_detail v)
                           (v_failing_caveat v) score))
      | _, _ => None
      end
  | Lease => ended (budget_step bo ctx).1
  | Allowed =>
      match drift_score_of dr ctx with
      | Ok score => Some (Ok (match score with
                              | None => _ALLOW | Some _ => mkVerdict ALLOW OK no_detail None score end))
      | Raise _ => None
      end
  end.

(** [decide] is the first answer, and asks the lease pool only when the steps before it
    have none. *)
Fixpoint first_answer (steps : list step) : py Verdict * B :=
  match steps with
  | [] => (Ok _ALLOW, bo)
  | s :: steps =>
      match answer_at s with
      | Some a => (a, if Nat.ltb (rank s) (rank Lease) then bo else (budget_check bo (requested ctx)).2)
      | None => first_answer steps
      end
  end.

Definition all_steps : list step :=
  [Revocation; Grant; DenyingCaveat; TokenAuthority; PolicyBundle; DriftScore; EscalatingCaveat; Lease; Allowed].

Lemma or_else_ended m (k : py Verdict * B) b :
  or_else m k b = match ended m with Some a => (a, b) | None => k end.
Proof. by destruct m as [[v|]|e]. Qed.

Lemma budget_step_state : (budget_step bo ctx).2 = (budget_check bo (requested ctx)).2.
Proof. unfold budget_step. by destruct (budget_check _ _). Qed.

Lemma decide_first_answer :
  decide_request token ctx caveats ro po bo dr = first_answer all_steps.
Proof.
  unfold decide_request, all_steps. cbn [first_answer rank Nat.ltb Nat.leb].
  rewrite or_else_ended. cbn [answer_at]. destruct (ended (revocation_step _ _)); [done|].
  rewrite or_else_ended. destruct (ended (Ok (grant_step _ _))); [done|].
  destruct (_evaluate_caveats caveats ctx) as [cd|e]; [|done].
  fold (denying cd). destruct (denying cd) eqn:Hd; [by destruct cd|].
  rewrite or_else_ended. destruct (ended (authority_step _ _)); [done|].
  rewrite or_else_ended. destruct (ended (policy_step _ _)); [done|].
  destruct (drift_score_of dr ctx) as [score|e]; [|done].
  destruct (drift_escalates score ctx) eqn:He.
  { destruct score as [s|]; [by rewrite He|done]. }
  destruct score as [s|]; rewrite ?He; (destruct cd as [v|]; [by rewrite Hd|]);
    rewrite <- budget_step_state; destruct (budget_step bo ctx) as [answer b']; cbn [fst snd];
    rewrite or_else_ended; by destruct (ended answer).
Qed.

Lemma list_first {A} (p : A → bool) (l : list A) :
  Forall (λ x, p x = true) l ∨ ∃ l1 x l2, l = l1 ++ x :: l2 ∧ Forall (λ x, p x = true) l1 ∧ p x = false.
Proof.
  induction l as [|a l IH]; [by left|]. destruct (p a) eqn:Ha.
  - destruct IH as [IH|(l1 & x & l2 & -> & Hl & Hx)]; [left; by constructor|].
    right. exists (a :: l1), x, l2. split; [done|]. split; [by constructor|done].
  - right. exists [], a, l. by split.
Qed.

Lemma score_seen_iff score : drift_score_of dr ctx = Ok score ↔ score_seen score.
Proof.
  unfold drift_score_of. split.
  - destruct dr as [d|] eqn:Hd; [|intros [= <-]; by apply no_oracle].
    case_bool_decide as Hm; [intros [= <-]; by apply mode_off|].
    destruct (score_for d ctx) as [s|[]] eqn:Hs; intros [= <-]; [by eapply oracle_answers|by eapply oracle_down].
  - intros [-> |Hm|d why -> Hm Hs|d s -> Hm Hs]; [done| | |].
    + destruct dr; [|done]. by rewrite bool_decide_true.
    + by rewrite bool_decide_false, Hs.
    + by rewrite bool_decide_false, Hs.
Qed.

Lemma drift_raise_iff e :
  drift_score_of dr ctx = Raise e
  ↔ ∃ d, dr = Some d ∧ drift_mode ctx ≠ OFF ∧ score_for d ctx = Raise e ∧ ¬ unanswerable e.
Proof.
  unfold drift_score_of. split.
  - destruct dr as [d|]; [|done]. case_bool_decide as Hm; [done|].
    destruct (score_for d ctx) as [s|e'] eqn:Hs; [done|]. intros He. exists d. rewrite Hs.
    destruct e'; try discriminate He; injection He as <-; (split_and!; [done..|by intros [? ?]]).
  - intros (d & -> & Hm & Hs & Hne). rewrite bool_decide_false, Hs by done.
    destruct e; try done. by destruct Hne; eexists.
Qed.

Lemma revocation_answer a : answer_at Revocation = Some a ↔ ends Revocation a.
Proof.
  cbn [answer_at]. unfold revocation_step. set (ids := vt_revocation_ids token).
  assert (∀ ids1 rid ids2, ids = ids1 ++ rid :: ids2 → (∀ x, x ∈ ids1 → is_revoked ro x = Ok false) →
    revocation_loop ro 0 ids (Z.of_nat (length ids) - 1)
    = match is_revoked ro rid with
      | Ok true => Ok (Some (_deny (if bool_decide (ids2 = []) then TOKEN_REVOKED else ANCESTOR_REVOKED)
                               (F "block {} is revoked" [FStr rid]) None))
      | Ok false => revocation_loop ro (Z.of_nat (length ids1) + 1) ids2 (Z.of_nat (length ids) - 1)
      | Raise (OracleUnavailable why) =>
          Ok (Some (_deny CONTROL_PLANE_UNAVAILABLE_FAIL_CLOSED (F "revocation: {}" [FStr why]) None))
      | Raise e => Raise e
      end) as Hfirst.
  { intros ids1 rid ids2 Hids Hl. rewrite Hids at 1. rewrite revocation_loop_first by done.
    cbn [revocation_loop]. rewrite Z.add_0_l, Hids, length_app. cbn [length].
    destruct (is_revoked ro rid) as [[]|e]; [|done|done]. do 3 f_equal. destruct ids2 as [|x ids2].
    - by rewrite (proj2 (Z.eqb_eq _ _)) by (cbn [length]; lia).
    - by rewrite (proj2 (Z.eqb_neq _ _)) by (cbn [length]; lia). }
  split.
  - destruct (list_first (λ x, match is_revoked ro x with Ok false => true | _ => false end) ids)
      as [Hall|(ids1 & rid & ids2 & Hids & Hl & Hr)].
    + rewrite (proj2 (revocation_loop_None ro 0 ids _)); [done|]. intros rid Hin.
      rewrite Forall_forall in Hall. specialize (Hall rid Hin). by destruct (is_revoked ro rid) as [[]|].
    + assert (∀ x, x ∈ ids1 → is_revoked ro x = Ok false) as Hl'.
      { intros x Hx. rewrite Forall_forall in Hl. specialize (Hl x Hx). by destruct (is_revoked ro x) as [[]|]. }
      rewrite (Hfirst ids1 rid ids2 Hids Hl'). destruct (is_revoked ro rid) as [[]|e] eqn:E; [|done|].
      * intros [= <-]. by eapply revoked.
      * destruct e; intros [= <-]; try (eapply revocation_raises; [done..|by intros [? ?]]).
        by eapply revocation_down.
  - inversion 1; subst;
      match goal with Hids : vt_revocation_ids token = ?x ++ ?y :: ?z, Hl : ∀ _, _ → _, Hr : is_revoked _ _ = _ |- _ =>
        rewrite (Hfirst x y z Hids Hl), Hr end; [done|done|].
    match goal with Hne : ¬ unanswerable ?e |- _ => destruct e; try done; by destruct Hne; eexists end.
Qed.

Lemma grant_answer a : answer_at Grant = Some a ↔ ends Grant a.
Proof.
  cbn [answer_at]. unfold grant_step. split.
  - case_bool_decide; cbn [negb]; [|intros [= <-]; by apply not_granted].
    case_bool_decide; cbn [negb]; [|intros [= <-]; by apply other_intent].
    destruct (Z.ltb_spec (vt_max_depth token) (current_depth ctx)); [|done].
    intros [= <-]. by apply too_deep.
  - inversion 1; subst.
    + by rewrite bool_decide_false.
    + by rewrite bool_decide_true, bool_decide_false.
    + rewrite !bool_decide_true by done. cbn [negb]. by rewrite (proj2 (Z.ltb_lt _ _)).
Qed.

(** The caveats, scanned. *)
Lemma caveat_kept i cs v : Forall not_denied cs → caveat_loop i cs ctx (Some v) = Ok (Some v).
Proof.
  intros Hcs. revert i. induction Hcs as [|c cs (r & Hr & Ho) _ IH]; intros i; [done|].
  simpl. rewrite Hr. cbn [mbind res_bind]. destruct (res_outcome r); done || apply IH.
Qed.

Lemma caveat_allowed cs1 cs2 i :
  Forall caveat_allows cs1 → caveat_loop i (cs1 ++ cs2) ctx None = caveat_loop (i + Z.of_nat (length cs1)) cs2 ctx None.
Proof.
  intros Hcs. revert i. induction Hcs as [|c cs (r & Hr & Ho) _ IH]; intros i; simpl; [by rewrite Z.add_0_r|].
  rewrite Hr. cbn [mbind res_bind]. rewrite Ho, IH. f_equal. lia.
Qed.

Lemma caveat_raised cs1 c cs2 i e x :
  Forall not_denied cs1 → evaluate c ctx = Raise e → caveat_loop i (cs1 ++ c :: cs2) ctx x = Raise e.
Proof.
  intros Hcs Hc. revert i x. induction Hcs as [|c' cs (r & Hr & Ho) _ IH]; intros i x; simpl; [by rewrite Hc|].
  rewrite Hr. cbn [mbind res_bind]. destruct (res_outcome r); done || apply IH.
Qed.

Lemma caveat_escalated cs1 c cs2 r :
  Forall caveat_allows cs1 → evaluate c ctx = Ok r → res_outcome r ≠ ALLOW → res_outcome r ≠ DENY →
  Forall not_denied cs2 →
  _evaluate_caveats (cs1 ++ c :: cs2) ctx
  = Ok (Some (mkVerdict (res_outcome r) (res_reason r) (res_detail r)
                (Some (_caveat_ref (Z.of_nat (length cs1)) c (res_detail r))) None)).
Proof.
  intros Hcs1 Hr Ha Hd Hcs2. unfold _evaluate_caveats. rewrite caveat_allowed by done.
  rewrite Z.add_0_l. simpl. rewrite Hr. cbn [mbind res_bind]. destruct (res_outcome r); try done; by apply caveat_kept.
Qed.

(** Either a caveat denies or raises before any other does, or one escalates, or all allow. *)
Lemma caveats_cases cs :
  (∃ cs1 c cs2 r, cs = cs1 ++ c :: cs2 ∧ Forall not_denied cs1 ∧ evaluate c ctx = Ok r ∧ res_outcome r = DENY)
  ∨ (∃ cs1 c cs2 e, cs = cs1 ++ c :: cs2 ∧ Forall not_denied cs1 ∧ evaluate c ctx = Raise e)
  ∨ (∃ cs1 c cs2 r, cs = cs1 ++ c :: cs2 ∧ Forall caveat_allows cs1 ∧ evaluate c ctx = Ok r
       ∧ res_outcome r ≠ ALLOW ∧ res_outcome r ≠ DENY ∧ Forall not_denied cs2)
  ∨ Forall caveat_allows cs.
Proof.
  destruct (list_first (λ c, match evaluate c ctx with Ok r => negb (bool_decide (res_outcome r = DENY)) | _ => false end) cs)
    as [Hall|(cs1 & c & cs2 & -> & Hcs1 & Hc)].
  - assert (Forall not_denied cs) as Hnd.
    { eapply Forall_impl; [exact Hall|]. intros c. unfold not_denied. simpl.
      destruct (evaluate c ctx) as [r|]; [|done]. intros Hr%negb_true_iff%bool_decide_eq_false. by exists r. }
    right. right.
    destruct (list_first (λ c, match evaluate c ctx with Ok r => bool_decide (res_outcome r = ALLOW) | _ => false end) cs)
      as [Hal|(cs1 & c & cs2 & -> & Hcs1 & Hc)].
    + right. eapply Forall_impl; [exact Hal|]. intros c. unfold caveat_allows. simpl.
      destruct (evaluate c ctx) as [r|]; [|done]. intros Hr%bool_decide_eq_true. by exists r.
    + left. apply Forall_app in Hnd as [_ Hnd]. apply Forall_cons in Hnd as [(r & Hr & Ho) Hnd].
      rewrite Hr in Hc. exists cs1, c, cs2, r. apply bool_decide_eq_false in Hc. split_and!; try done.
      eapply Forall_impl; [exact Hcs1|]. intros c'. unfold caveat_allows. simpl.
      destruct (evaluate c' ctx) as [r'|]; [|done]. intros Hr'%bool_decide_eq_true. by exists r'.
  - assert (Forall not_denied cs1) as Hnd.
    { eapply Forall_impl; [exact Hcs1|]. intros c'. unfold not_denied. simpl.
      destruct (evaluate c' ctx) as [r|]; [|done]. intros Hr%negb_true_iff%bool_decide_eq_false. by exists r. }
    destruct (evaluate c ctx) as [r|e] eqn:He.
    + left. exists cs1, c, cs2, r. apply negb_false_iff, bool_decide_eq_true in Hc. done.
    + right. left. by exists cs1, c, cs2, e.
Qed.

(** A list is in one of those cases only. *)
Lemma evaluate_deny cs1 c cs2 r :
  Forall not_denied cs1 → evaluate c ctx = Ok r → res_outcome r = DENY →
  _evaluate_caveats (cs1 ++ c :: cs2) ctx
  = Ok (Some (_deny (res_reason r) (res_detail r) (Some (_caveat_ref (Z.of_nat (length cs1)) c (res_detail r))))).
Proof. intros. unfold _evaluate_caveats. by rewrite (caveat_loop_deny _ _ _ _ _ _ r). Qed.

Lemma caveat_answer a : answer_at DenyingCaveat = Some a ↔ ends DenyingCaveat a.
Proof.
  cbn [answer_at]. split.
  - destruct (caveats_cases caveats) as [(cs1 & c & cs2 & r & Hcs & Hc1 & Hr & Ho)|
      [(cs1 & c & cs2 & e & Hcs & Hc1 & Hr)|[(cs1 & c & cs2 & r & Hcs & Hc1 & Hr & Ha & Hd & Hc2)|Hall]]].
    + rewrite Hcs, (evaluate_deny _ _ _ r) by done. cbn [denying v_outcome _deny].
      rewrite bool_decide_true by done. intros [= <-]. by eapply denied_by.
    + rewrite Hcs. unfold _evaluate_caveats. rewrite (caveat_raised _ _ _ _ e) by done.
      intros [= <-]. by eapply caveat_raises.
    + rewrite Hcs, (caveat_escalated _ _ _ r) by done. cbn [denying v_outcome].
      by rewrite bool_decide_false.
    + unfold _evaluate_caveats. rewrite <- (app_nil_r caveats), caveat_allowed by done. done.
  - inversion 1; match goal with Hcs : caveats = _ |- _ => rewrite Hcs end.
    + rewrite (evaluate_deny _ _ _ r) by done. cbn [denying v_outcome _deny]. by rewrite bool_decide_true.
    + unfold _evaluate_caveats. by rewrite (caveat_raised _ _ _ _ e).
Qed.

Lemma token_answer a : answer_at TokenAuthority = Some a ↔ ends TokenAuthority a.
Proof.
  cbn [answer_at]. unfold authority_step. split.
  - destruct (authorize_request token ctx) as [[f|]|e] eqn:E; [|done|].
    + intros [= <-]. by apply checks_refuse.
    + destruct e; intros [= <-]; try (apply checks_raise; [done|discriminate]). by apply checks_unfinished.
  - inversion 1; subst; match goal with E : authorize_request _ _ = _ |- _ => rewrite E end; [done|done|].
    by destruct e.
Qed.

Lemma policy_answer a : answer_at PolicyBundle = Some a ↔ ends PolicyBundle a.
Proof.
  cbn [answer_at]. unfold policy_step. split.
  - destruct (policy_evaluate po ctx) as [v|e] eqn:E.
    + destruct (pv_stale v) eqn:Es; [intros [= <-]; by apply bundle_stale|].
      destruct (pv_allowed v) eqn:Ea; [done|]. intros [= <-]. by apply policy_refuses.
    + destruct e; intros [= <-]; try (apply policy_raises; [done|by intros [? ?]]). by apply policy_down.
  - inversion 1; subst; match goal with E : policy_evaluate _ _ = _ |- _ => rewrite E end.
    + done.
    + match goal with Hne : ¬ unanswerable ?e |- _ => destruct e; try done; by destruct Hne; eexists end.
    + by match goal with E : pv_stale _ = _ |- _ => rewrite E end.
    + match goal with E : pv_stale _ = _ |- _ => rewrite E end.
      by match goal with E : pv_allowed _ = _ |- _ => rewrite E end.
Qed.

Lemma drift_answer a : answer_at DriftScore = Some a ↔ ends DriftScore a.
Proof.
  cbn [answer_at]. split.
  - destruct (drift_score_of dr ctx) as [score|e] eqn:E.
    + apply score_seen_iff in E. unfold drift_escalates. destruct score as [s|]; [|done].
      destruct (dec_ltb _ s) eqn:Hs; cbn [andb]; [|done]. case_bool_decide; [|done].
      intros [= <-]. by apply drifted.
    + apply drift_raise_iff in E as (d & Hd & Hm & He & Hne). intros [= <-]. by eapply drift_raises.
  - inversion 1 as [| | | | | | | | | | | | | | |s Hs Hm Hlt|d e Hd Hm He Hne| | | | |]; subst.
    + apply score_seen_iff in Hs. rewrite Hs. unfold drift_escalates. by rewrite Hlt, bool_decide_true.
    + by rewrite (proj2 (drift_raise_iff e)) by eauto.
Qed.

Lemma escalation_answer a : answer_at EscalatingCaveat = Some a ↔ ends EscalatingCaveat a.
Proof.
  cbn [answer_at]. split.
  - destruct (caveats_cases caveats) as [(cs1 & c & cs2 & r & Hcs & Hc1 & Hr & Ho)|
      [(cs1 & c & cs2 & e & Hcs & Hc1 & Hr)|[(cs1 & c & cs2 & r & Hcs & Hc1 & Hr & Ha & Hd & Hc2)|Hall]]].
    + rewrite Hcs, (evaluate_deny _ _ _ r) by done. cbn [denying v_outcome _deny].
      rewrite bool_decide_true by done. by destruct (drift_score_of _ _).
    + rewrite Hcs. unfold _evaluate_caveats. by rewrite (caveat_raised _ _ _ _ e).
    + rewrite Hcs, (caveat_escalated _ _ _ r) by done. cbn [denying v_outcome].
      rewrite bool_decide_false by done. destruct (drift_score_of dr ctx) as [score|] eqn:E; [|done].
      intros [= <-]. apply score_seen_iff in E. by eapply escalated_by.
    + unfold _evaluate_caveats. rewrite <- (app_nil_r caveats), caveat_allowed by done. done.
  - inversion 1 as [| | | | | | | | | | | | | | | | |cs1 c cs2 r score Hcs Hc1 Hr Ha Hd Hc2 Hs| | | |].
    rewrite Hcs, (caveat_escalated _ _ _ r) by done. apply score_seen_iff in Hs. rewrite Hs.
    cbn [denying v_outcome]. by rewrite bool_decide_false.
Qed.

Lemma lease_answer a : answer_at Lease = Some a ↔ ends Lease a.
Proof.
  cbn [answer_at]. unfold budget_step. split.
  - destruct (budget_check bo (requested ctx)) as [[v|e] b'] eqn:E; cbn [fst].
    + destruct (bv_ok v) eqn:Eo; [done|]. intros [= <-]. apply lease_short; [by rewrite E|done].
    + destruct e; intros [= <-]; try (apply lease_raises; [by rewrite E|by intros [? ?]]).
      apply lease_down. by rewrite E.
  - inversion 1; subst; match goal with E : (budget_check _ _).1 = _ |- _ => revert E end;
      destruct (budget_check bo (requested ctx)) as [answer b']; cbn [fst]; intros ->.
    + done.
    + match goal with Hne : ¬ unanswerable ?e |- _ => destruct e; try done; by destruct Hne; eexists end.
    + by match goal with E : bv_ok _ = _ |- _ => rewrite E end.
Qed.

Lemma allowed_answer a : answer_at Allowed = Some a ↔ ends Allowed a.
Proof.
  cbn [answer_at]. split.
  - destruct (drift_score_of dr ctx) as [score|] eqn:E; [|done]. intros [= <-].
    apply score_seen_iff in E. by apply (allowed_with score).
  - inversion 1 as [| | | | | | | | | | | | | | | | | | | | |score Hs]; subst.
    apply score_seen_iff in Hs. by rewrite Hs.
Qed.

Lemma answer_ends s a : answer_at s = Some a ↔ ends s a.
Proof.
  destruct s; [apply revocation_answer|apply grant_answer|apply caveat_answer|apply token_answer
    |apply policy_answer|apply drift_answer|apply escalation_answer|apply lease_answer|apply allowed_answer].
Qed.

(** A step that ends the decision while no earlier one does. *)
Definition first_to_end (s : step) (a : py Verdict) : Prop :=
  ends s a ∧ ∀ s' a', (rank s' < rank s)%nat → ¬ ends s' a'.

Lemma first_answer_first s a :
  first_to_end s a →
  first_answer all_steps
  = (a, if Nat.ltb (rank s) (rank Lease) then bo else (budget_check bo (requested ctx)).2).
Proof.
  intros [Ha Hb]. assert (∀ s', (rank s' < rank s)%nat → answer_at s' = None) as Hnone.
  { intros s' Hs'. destruct (answer_at s') as [a'|] eqn:E; [|done]. apply answer_ends in E. by destruct (Hb _ _ Hs' E). }
  apply answer_ends in Ha. unfold all_steps. cbn [first_answer].
  destruct s; cbn [rank] in Hnone;
    repeat match goal with
    | |- context [answer_at ?s'] =>
        first [rewrite Ha; done|rewrite (Hnone s') by (cbn [rank]; lia)]
    end.
Qed.

Lemma some_step_ends : ∃ s a, first_to_end s a.
Proof.
  assert (∃ s a, answer_at s = Some a) as (s & a & Hs).
  { destruct (drift_score_of dr ctx) as [score|e] eqn:E.
    - exists Allowed. cbn [answer_at]. rewrite E. by eexists.
    - exists DriftScore. cbn [answer_at]. rewrite E. by eexists. }
  remember (rank s) as n eqn:Hn. revert s a Hs Hn. induction (lt_wf n) as [n _ IH]. intros s a Hs ->.
  destruct (list_first (λ s', negb (Nat.ltb (rank s') (rank s) && bool_decide (is_Some (answer_at s')))) all_steps)
    as [Hall|(l1 & s' & l2 & _ & _ & Hs')].
  - exists s, a. split; [by apply answer_ends|]. intros s' a' Hr He%answer_ends.
    rewrite Forall_forall in Hall. specialize (Hall s' ltac:(unfold all_steps; destruct s'; set_solver)).
    rewrite He, (proj2 (Nat.ltb_lt _ _) Hr), bool_decide_true in Hall by eauto. done.
  - apply negb_false_iff, andb_true_iff in Hs' as [Hr%Nat.ltb_lt [a' Ha']%bool_decide_eq_true].
    by apply (IH (rank s') Hr s' a').
Qed.

(** C20: The first step that ends the decision makes it, whatever the later ones would say.
    The steps are, in this order: a revoked id of the chain (the token's own when it is the
    last, else an ancestor's); the grant's operation, intent and depth; a caveat that denies,
    at its position; the token's own checks; the policy bundle, stale before refusing; a
    drift score over the threshold in strict mode; the first caveat that escalates, when
    none denies; the lease pool, asked only now; and the allow.  A revocation, policy or
    lease oracle that cannot answer ends the decision with the fail-closed code, a drift
    oracle that cannot answer is no score and ends nothing, and any other exception leaves
    at its step.  Some step always ends it. *)
Theorem decide_first_cause :
  (∀ s a, first_to_end s a →
     decide_request token ctx caveats ro po bo dr
     = (a, if Nat.ltb (rank s) (rank Lease) then bo else (budget_check bo (requested ctx)).2))
  ∧ ∃ s a, first_to_end s a.
Proof.
  split; [|apply some_step_ends]. intros s a Hs. rewrite decide_first_answer. by apply first_answer_first.
Qed.
End causes.
End steps.

(** ** Concrete oracles *)
#[local] Existing Instance toy_lib.
#[local] Instance toy_revocation : RevocationOracle (list pystr) :=
  {| is_revoked l x := Ok (bool_decide (x ∈ l)) |}.
#[local] Instance toy_policy : PolicyEngine bool :=
  {| policy_evaluate b _ := Ok (mkPolicyVerdict b None (u "v1") false) |}.
#[local] Instance toy_budget : BudgetOracle Z :=
  {| budget_check b req :=
       (Ok (mkBudgetVerdict (default 0 (req !! SPEND_BDT) <=? b) (Some SPEND_BDT) false), b) |}.
#[local] Instance toy_drift : DriftOracle unit := {| score_for _ _ := Ok (Some (Dec 2 (-1))) |}.

Definition toy_request : RequestContext :=
  mkRequestContext (u "invoice:read") {[SPEND_BDT := 40000]} 1 (u "ab") 150000000 None ∅
    None None STRICT.

Lemma decide_allow_iff_witness :
  permitted toy_vt toy_request [ScopeSubset {[u "invoice:read"]}] ([] : list pystr) true 50000
    (Some tt).
Proof.
  apply decide_allow_iff. eexists. split; vm_compute; reflexivity.
Defined.

(** A token revoked at its own id, under a caveat that denies: the revocation is the cause. *)
Lemma decide_first_cause_witness :
  (decide_request toy_vt toy_request [ScopeSubset ∅] [u "agent(b)"] true 50000 (Some tt)).1
  = Ok (_deny TOKEN_REVOKED (F "block {} is revoked" [FStr (u "agent(b)")]) None).
Proof.
  destruct (decide_first_cause toy_vt toy_request [ScopeSubset ∅] [u "agent(b)"] true 50000 (Some tt))
    as [Hfirst _].
  rewrite (Hfirst Revocation (Ok (_deny TOKEN_REVOKED (F "block {} is revoked" [FStr (u "agent(b)")]) None))).
  - reflexivity.
  - split; [|intros s' a' Hr; cbn [rank] in Hr; lia].
    apply (revoked toy_vt toy_request [ScopeSubset ∅] [u "agent(b)"] true 50000 (Some tt)
             [u "scope(a)"] (u "agent(b)") []).
    + vm_compute. reflexivity.
    + intros x Hx%list_elem_of_singleton. subst x. vm_compute. reflexivity.
    + vm_compute. reflexivity.
Defined.

(** A drift oracle that is down, in strict mode: the request is allowed without a score. *)
#[local] Instance down_drift : DriftOracle bool :=
  {| score_for _ _ := Raise (OracleUnavailable (u "drift service")) |}.
Example strict_drift_down_allows :
  drift_mode toy_request = STRICT
  ∧ (decide_request toy_vt toy_request [ScopeSubset {[u "invoice:read"]}]
       ([] : list pystr) true 50000 (Some false)).1 = Ok _ALLOW.
Proof. split; vm_compute; reflexivity. Qed.
