(* ===== verification/Revocation.v ===== *)
(** * Revocation (db/revocations.py, revocations_api.py, agentiam_pep/revocation.py)

    The control plane's table of revoked block ids, who may write to it, and the
    set a PEP answers from: pulled from the table by cursor, pushed as a fast
    path, refused when stale.  A revoke is cut where other transactions can
    interleave: the insert takes its [seq] from the identity sequence, the commit
    makes the row visible.  The Bloom filter is a library and a parameter. *)
From S2P Require Import Prelude PyText Errors PyNum PyRe Models Caveats Tokens Decide.

(** ** The table (db/models.py) *)
Record RevocationRow := mkRevocation {
  rv_id : uuid;
  rv_seq : Z;
  rv_block_id : pystr;
  rv_scope : pystr;
  rv_reason : pystr;
  rv_revoked_by : pystr;
  rv_revoked_at : Z;
  rv_expires_at : Z }.
#[global] Instance RevocationRow_eq_dec : EqDecision RevocationRow.
Proof. solve_decision. Defined.

(** Committed rows by [block_id], which is unique; inserted rows not yet committed;
    and the next value of the identity sequence. *)
Record revocations_db := mkRevocations {
  rv_rows : gmap pystr RevocationRow;
  rv_in_flight : gmap pystr RevocationRow;
  rv_next_seq : Z }.

Definition _REVOCATION_SCOPES : list pystr := [u "token"; u "subtree"; u "mandate"].

(** [String(128)] and the scope constraint; a [DataError] is refused like a violated
    constraint. *)
Definition revocation_constraints (row : RevocationRow) : bool :=
  (Z.of_nat (length (rv_block_id row)) <=? 128)
  && bool_decide (rv_scope row ∈ _REVOCATION_SCOPES).

Record revoke_args := mkRevoke {
  ra_id : uuid; ra_block_id : pystr; ra_scope : pystr; ra_reason : pystr;
  ra_revoked_by : pystr; ra_expires_at : Z; ra_now : Z }.

Definition row_for (a : revoke_args) (n : Z) : RevocationRow :=
  mkRevocation (ra_id a) n (ra_block_id a) (ra_scope a) (ra_reason a) (ra_revoked_by a)
    (ra_now a) (ra_expires_at a).

(** The [INSERT ... ON CONFLICT DO NOTHING]: [None] while a concurrent insert of the
    same id is undecided (PostgreSQL waits for it), otherwise the committed row the
    conflict is with, or the new row, in flight.  Either way a number is taken. *)
Definition insert_revocation (a : revoke_args) (db : revocations_db)
    : option (py (RevocationRow + RevocationRow) * revocations_db) :=
  match rv_in_flight db !! ra_block_id a with
  | Some _ => None
  | None =>
      let row := row_for a (rv_next_seq db) in
      let next := rv_next_seq db + 1 in
      if negb (revocation_constraints row) then
        Some (Raise IntegrityError, mkRevocations (rv_rows db) (rv_in_flight db) next)
      else
        match rv_rows db !! ra_block_id a with
        | Some existing => Some (Ok (inl existing), mkRevocations (rv_rows db) (rv_in_flight db) next)
        | None => Some (Ok (inr row),
                    mkRevocations (rv_rows db) (<[ra_block_id a := row]> (rv_in_flight db)) next)
        end
  end.

(** The end of the transaction that inserted a row. *)
Definition commit_revocation (block_id : pystr) (db : revocations_db) : revocations_db :=
  match rv_in_flight db !! block_id with
  | Some row => mkRevocations (<[block_id := row]> (rv_rows db)) (delete block_id (rv_in_flight db))
                  (rv_next_seq db)
  | None => db
  end.
Definition abort_revocation (block_id : pystr) (db : revocations_db) : revocations_db :=
  mkRevocations (rv_rows db) (delete block_id (rv_in_flight db)) (rv_next_seq db).

(** What [publisher.publish] is told, and whether that worked; a failure is logged. *)
Record publication := mkPublication { pub_block_id : pystr; pub_seq : Z }.

(** [revoke], with no other transaction in between: the row, what to publish after
    the commit, and the table. *)
Definition revoke (a : revoke_args) (db : revocations_db)
    : option (py (RevocationRow * publication) * revocations_db) :=
  match insert_revocation a db with
  | None => None
  | Some (Raise e, db') => Some (Raise e, db')
  | Some (Ok (inl existing), db') =>
      Some (Ok (existing, mkPublication (rv_block_id existing) (rv_seq existing)), db')
  | Some (Ok (inr row), db') =>
      Some (Ok (row, mkPublication (rv_block_id row) (rv_seq row)),
            commit_revocation (rv_block_id row) db')
  end.

Definition rv_seq_le (a b : RevocationRow) : Prop := rv_seq a <= rv_seq b.
#[global] Instance rv_seq_le_dec : RelDecision rv_seq_le.
Proof. intros a b. unfold rv_seq_le. apply _. Defined.

(** [pull]: the committed rows past the cursor, in order. *)
Definition pull (db : revocations_db) (since_seq : Z) : list RevocationRow :=
  merge_sort rv_seq_le
    (filter (λ row, since_seq < rv_seq row) (map_to_list (rv_rows db)).*2).

(** ** The API (revocations_api.py, settings.py) *)

(** [s.split(",")], and [s.partition("=")]. *)
Fixpoint split_on (c : Z) (s cur : pystr) : list pystr :=
  match s with
  | [] => [cur]
  | a :: s => if a =? c then cur :: split_on c s [] else split_on c s (cur ++ [a])
  end.
Fixpoint partition_at (c : Z) (s : pystr) : pystr * bool * pystr :=
  match s with
  | [] => ([], false, [])
  | a :: s => if a =? c then ([], true, s)
              else let '(x, found, y) := partition_at c s in (a :: x, found, y)
  end.

Definition add_operator_token (approvers : gset pystr) (tokens : gmap pystr pystr) (entry : pystr)
    : py (gmap pystr pystr) :=
  let entry := py_strip entry in
  if bool_decide (entry = []) then Ok tokens else
  let '(principal, separator, secret) := partition_at 61 entry in
  let principal := py_strip principal in
  let secret := py_strip secret in
  raise_if (negb separator || bool_decide (principal = []) || bool_decide (secret = [])) ValueError;;
  raise_if (negb (bool_decide (principal ∈ approvers))) ValueError;;
  raise_if (match tokens !! secret with
            | Some p => negb (bool_decide (p = principal)) | None => false end) ValueError;;
  Ok (<[secret := principal]> tokens).

Fixpoint add_operator_tokens (approvers : gset pystr) (tokens : gmap pystr pystr)
    (entries : list pystr) : py (gmap pystr pystr) :=
  match entries with
  | [] => Ok tokens
  | e :: entries =>
      tokens ← add_operator_token approvers tokens e; add_operator_tokens approvers tokens entries
  end.

Definition _parse_operator_tokens (raw : pystr) (approvers : gset pystr) : py (gmap pystr pystr) :=
  add_operator_tokens approvers ∅ (split_on 44 raw []).

Record ControlPlaneSettings := mkControlPlaneSettings {
  approvers : gset pystr;
  operator_tokens : gmap pystr pystr }.

(** The session's principal and the [Authorization] header, latin-1 text. *)
Record api_request := mkApiRequest {
  session_principal : option pystr;
  authorization : option pystr }.

Definition _acting_principal (r : api_request) (settings : ControlPlaneSettings) : option pystr :=
  match session_principal r with
  | Some ((_ :: _) as principal) => Some principal
  | _ =>
      let '(scheme, _, presented) := partition_at 32 (default [] (authorization r)) in
      if negb (bool_decide (ascii_lower <$> scheme = u "bearer"))
         || bool_decide (py_strip presented = []) then None
      else operator_tokens settings !! py_strip presented
  end.

(** The body, past [RevokeRequest]'s own validation. *)
Record revoke_body := mkRevokeBody {
  rb_block_id : pystr; rb_scope : pystr; rb_reason : pystr; rb_expires_at : Z }.

(** [POST /v1/revocations]: a status and the serialized row; [Raise] is a 500. *)
Definition post_revocation (settings : ControlPlaneSettings) (r : api_request) (body : revoke_body)
    (fresh_id : uuid) (now : Z) (db : revocations_db)
    : option (py (Z * option RevocationRow) * revocations_db) :=
  if bool_decide (rb_block_id body = []) then Some (Ok (422, None), db)
  else if negb (bool_decide (rb_scope body ∈ _REVOCATION_SCOPES)) then Some (Ok (400, None), db)
  else match _acting_principal r settings with
  | None => Some (Ok (401, None), db)
  | Some revoked_by =>
      if negb (bool_decide (revoked_by ∈ approvers settings)) then Some (Ok (403, None), db)
      else
        match revoke (mkRevoke fresh_id (rb_block_id body) (rb_scope body) (rb_reason body)
                        revoked_by (rb_expires_at body) now) db with
        | None => None
        | Some (Raise e, db') => Some (Raise e, db')
        | Some (Ok (row, _), db') => Some (Ok (201, Some row), db')
        end
  end.

(** [GET /v1/revocations?since=]: the entries and the next cursor. *)
Definition get_revocations (db : revocations_db) (since : Z) : list RevocationRow * Z :=
  let entries := pull db since in
  (entries, match last entries with Some row => rv_seq row | None => since end).

(** ** The PEP's sets *)

(** [fastbloom_rs]'s filter: what was added is always found. *)
Class Bloom (F : Type) := {
  new_bloom : F;
  add_str : pystr → F → F;
  contains_str : F → pystr → bool;
  contains_added f s : contains_str (add_str s f) s = true;
  contains_kept f s t : contains_str f t = true → contains_str (add_str s f) t = true }.

Record InMemoryRevocationSet := mkInMemory {
  mem_revoked : gset pystr; mem_unavailable : option pystr }.

#[global] Instance InMemoryRevocationSet_oracle : RevocationOracle InMemoryRevocationSet :=
  {| is_revoked s rid :=
       match mem_unavailable s with
       | Some why => Raise (OracleUnavailable why)
       | None => Ok (bool_decide (rid ∈ mem_revoked s))
       end |}.

Definition mem_revoke (rid : pystr) (s : InMemoryRevocationSet) : InMemoryRevocationSet :=
  mkInMemory ({[rid]} ∪ mem_revoked s) (mem_unavailable s).

Section redis.
Context {F : Type} {BF : Bloom F}.

(** The fields [is_revoked] and the two feeds share; the clients, the tasks and the
    intervals of the loops are not part of it. *)
Record RedisRevocationSet := mkRedis {
  _revoked : gset pystr;
  _bloom : F;
  _since_seq : Z;
  _last_pull_at : option Z }.

Definition new_redis_set : RedisRevocationSet := mkRedis ∅ new_bloom 0 None.

Definition add_block (rid : pystr) (s : RedisRevocationSet) : RedisRevocationSet :=
  mkRedis ({[rid]} ∪ _revoked s) (add_str rid (_bloom s)) (_since_seq s) (_last_pull_at s).

(** [RedisRevocationSet.is_revoked] at an instant; the figures of the message are
    dropped. *)
Definition redis_is_revoked (staleness_limit : Z) (now : Z) (s : RedisRevocationSet) (rid : pystr)
    : py bool :=
  match _last_pull_at s with
  | None => Raise (OracleUnavailable (u "no revocation pull has ever succeeded"))
  | Some pulled =>
      if staleness_limit <=? now - pulled
      then Raise (OracleUnavailable (u "revocation data is stale"))
      else if negb (contains_str (_bloom s) rid) then Ok false
      else Ok (bool_decide (rid ∈ _revoked s))
  end.

(** What one [GET] brought: nothing (a failure is logged), or a body.  An entry
    without [block_id], or no [next_seq], is [None]. *)
Inductive pull_response :=
| PullFailed
| PullBody (entries : list (option pystr)) (next_seq : option Z).

Fixpoint merge_entries (entries : list (option pystr)) (s : RedisRevocationSet)
    : py unit * RedisRevocationSet :=
  match entries with
  | [] => (Ok tt, s)
  | None :: _ => (Raise KeyError, s)
  | Some rid :: entries => merge_entries entries (add_block rid s)
  end.

(** [_pull_once]. *)
Definition _pull_once (now : Z) (r : pull_response) (s : RedisRevocationSet)
    : py unit * RedisRevocationSet :=
  match r with
  | PullFailed => (Ok tt, s)
  | PullBody entries next_seq =>
      let '(o, s') := merge_entries entries s in
      match o, next_seq with
      | Raise e, _ => (Raise e, s')
      | Ok _, None => (Raise KeyError, s')
      | Ok _, Some n => (Ok tt, mkRedis (_revoked s') (_bloom s') n (Some now))
      end
  end.

(** [_handle_push]: a message that does not parse is logged. *)
Definition _handle_push (message : option pystr) (s : RedisRevocationSet) : RedisRevocationSet :=
  match message with Some rid => add_block rid s | None => s end.

(** What a healthy control plane answers. *)
Definition served (db : revocations_db) (since : Z) : pull_response :=
  let '(entries, next) := get_revocations db since in
  PullBody (Some ∘ rv_block_id <$> entries) (Some next).
End redis.
Arguments RedisRevocationSet F : clear implicits.

(** The oracle [decide] consults: the set, the clock's reading and the limit. *)
Record redis_oracle (F : Type) := mkRedisOracle {
  ro_set : RedisRevocationSet F; ro_now : Z; ro_staleness_limit : Z }.
Arguments mkRedisOracle {F}. Arguments ro_set {F}. Arguments ro_now {F}.
Arguments ro_staleness_limit {F}.

#[global] Instance redis_revocation_oracle {F} {BF : Bloom F} : RevocationOracle (redis_oracle F) :=
  {| is_revoked o rid := redis_is_revoked (ro_staleness_limit o) (ro_now o) (ro_set o) rid |}.
