(* ===== verification/RevocationSpec.v ===== *)
(** * What revocation promises

    The table absorbs repeats; a PEP that pulls answers exactly as the table it
    pulled from, and refuses to answer when stale, so a token with a revoked block
    anywhere in its chain is denied; only an approver can revoke.  Convergence
    holds while rows become visible in [seq] order; one committed out of order is
    never pulled. *)
From S2P Require Import Prelude PyText Errors PyNum PyRe Models Caveats Tokens Decide Revocation.

(** ** The table *)
Definition table_ok (db : revocations_db) : Prop :=
  (∀ b r, rv_rows db !! b = Some r → rv_block_id r = b ∧ rv_seq r < rv_next_seq db)
  ∧ (∀ b r, rv_in_flight db !! b = Some r →
       rv_block_id r = b ∧ rv_seq r < rv_next_seq db ∧ rv_rows db !! b = None
       ∧ ∀ b' r', rv_rows db !! b' = Some r' → rv_seq r' ≠ rv_seq r)
  ∧ (∀ b b' r r', rv_in_flight db !! b = Some r → rv_in_flight db !! b' = Some r' →
       rv_seq r = rv_seq r' → b = b').

Lemma elem_of_pull db since r :
  table_ok db → r ∈ pull db since ↔ rv_rows db !! rv_block_id r = Some r ∧ since < rv_seq r.
Proof.
  intros [Hrows _]. unfold pull. rewrite merge_sort_Permutation, list_elem_of_filter, list_elem_of_fmap.
  split.
  - intros (Hs & [b r'] & -> & Hr%elem_of_map_to_list). cbn [snd] in *.
    destruct (Hrows b r' Hr) as [-> _]. done.
  - intros [Hr Hs]. split; [done|]. exists (rv_block_id r, r). by rewrite elem_of_map_to_list.
Qed.

#[local] Instance rv_seq_le_trans : Transitive rv_seq_le.
Proof. intros a b c. unfold rv_seq_le. lia. Qed.
#[local] Instance rv_seq_le_total : Total rv_seq_le.
Proof. intros a b. unfold rv_seq_le. lia. Qed.

Lemma sorted_last_max l : Sorted rv_seq_le l → ∀ m, last l = Some m → ∀ r, r ∈ l → rv_seq r <= rv_seq m.
Proof.
  intros Hs%Sorted_StronglySorted; [|apply _]. induction Hs as [|a l _ IH Ha]; [done|].
  intros m Hm r Hr. rewrite last_cons in Hm. destruct (last l) as [m'|] eqn:El.
  - injection Hm as ->. apply elem_of_cons in Hr as [-> | Hr]; [|by apply IH].
    rewrite Forall_forall in Ha. apply Ha, last_Some_elem_of. done.
  - injection Hm as <-. apply last_None in El as ->. apply list_elem_of_singleton in Hr as ->. lia.
Qed.

(** The next cursor is past every row served, and moves only over them. *)
Lemma get_revocations_cursor db since :
  table_ok db →
  let next := (get_revocations db since).2 in
  since <= next ∧ (∀ b r, rv_rows db !! b = Some r → rv_seq r <= next)
  ∧ (next = since ∨ ∃ b r, rv_rows db !! b = Some r ∧ rv_seq r = next).
Proof.
  intros Hok. unfold get_revocations. cbn [snd]. destruct (last (pull db since)) as [m|] eqn:Em.
  - assert (m ∈ pull db since) as Hm by by apply last_Some_elem_of.
    apply elem_of_pull in Hm as [Hm Hs]; [|done]. split_and!; [lia| |by eauto].
    intros b r Hr. destruct (Z.le_gt_cases (rv_seq r) since); [lia|].
    apply (sorted_last_max (pull db since)); [apply (Sorted_merge_sort rv_seq_le)|done|].
    apply elem_of_pull; [done|]. destruct (proj1 Hok b r Hr) as [-> _]. done.
  - apply last_None in Em. split_and!; [lia| |by left].
    intros b r Hr. destruct (Z.le_gt_cases (rv_seq r) since); [done|]. exfalso.
    assert (r ∈ pull db since) as Hin; [|by rewrite Em in Hin; apply not_elem_of_nil in Hin].
    apply elem_of_pull; [done|]. destruct (proj1 Hok b r Hr) as [-> _]. done.
Qed.

Lemma insert_table_ok a db o db' :
  table_ok db → insert_revocation a db = Some (o, db') → table_ok db'.
Proof.
  intros (Hr & Hf & Hi). unfold insert_revocation.
  destruct (rv_in_flight db !! ra_block_id a) eqn:Hin; [done|].
  assert (Hbump : table_ok (mkRevocations (rv_rows db) (rv_in_flight db) (rv_next_seq db + 1))).
  { split_and!; cbn; [| |done].
    - intros b r Hb. destruct (Hr b r Hb). split; [done|lia].
    - intros b r Hb. destruct (Hf b r Hb) as (? & ? & ? & ?). split_and!; [done|lia|done..]. }
  destruct (negb _); [by intros [= _ <-]|].
  destruct (rv_rows db !! ra_block_id a) eqn:Hrow; [by intros [= _ <-]|].
  intros [= _ <-]. split_and!; cbn; [apply Hbump|..].
  - intros b r. rewrite lookup_insert_Some. intros [[<- <-]|[Hne Hb]].
    + cbn. split_and!; [done|lia|done|]. intros b' r' Hb'. destruct (Hr b' r' Hb'). lia.
    + by apply (proj1 (proj2 Hbump) b r).
  - intros b b' r r'. rewrite !lookup_insert_Some.
    intros [[<- <-]|[_ H1]] [[<- <-]|[_ H2]] E; [done|..].
    + destruct (Hf _ _ H2) as (_ & ? & _). cbn in E. lia.
    + destruct (Hf _ _ H1) as (_ & ? & _). cbn in E. lia.
    + by eapply Hi.
Qed.

Lemma commit_table_ok b db : table_ok db → table_ok (commit_revocation b db).
Proof.
  intros (Hr & Hf & Hi). unfold commit_revocation.
  destruct (rv_in_flight db !! b) as [row|] eqn:Hb; [|done].
  destruct (Hf b row Hb) as (Hbk & Hs & Hnone & Hd). split_and!; cbn.
  - intros b' r'. rewrite lookup_insert_Some. intros [[<- <-]|[_ ?]]; [done|by apply Hr].
  - intros b' r'. rewrite lookup_delete_Some. intros [Hne Hb'].
    destruct (Hf b' r' Hb') as (? & ? & ? & Hd'). split_and!; [done..| |].
    + by rewrite lookup_insert_ne.
    + intros b2 r2. rewrite lookup_insert_Some. intros [[<- <-]|[_ H2]]; [|by eapply Hd'].
      intros E. apply Hne. by eapply Hi.
  - intros b1 b2 r1 r2. rewrite !lookup_delete_Some. intros [_ H1] [_ H2]. by eapply Hi.
Qed.

Lemma abort_table_ok b db : table_ok db → table_ok (abort_revocation b db).
Proof.
  intros (Hr & Hf & Hi). split_and!; cbn; [done|..].
  - intros b' r'. rewrite lookup_delete_Some. intros [_ ?]. by apply Hf.
  - intros b1 b2 r1 r2. rewrite !lookup_delete_Some. intros [_ H1] [_ H2]. by eapply Hi.
Qed.

(** Revoking is idempotent, the first revoke wins.  With no concurrent revoke of
    the same id, [revoke] of an acceptable row returns the one row the table then
    holds for that id; revoking it again, whatever the second call says, returns
    that row and leaves the rows as they are; and every pull from a cursor below it
    serves it. *)
Theorem revoke_idempotent a db row p db' :
  table_ok db → revoke a db = Some (Ok (row, p), db') →
  rv_rows db' !! ra_block_id a = Some row ∧ p = mkPublication (rv_block_id row) (rv_seq row)
  ∧ rv_block_id row = ra_block_id a
  ∧ (∀ b r, rv_rows db !! b = Some r → rv_rows db' !! b = Some r)
  ∧ (∀ since, since < rv_seq row → row ∈ pull db' since)
  ∧ ∀ a2, ra_block_id a2 = ra_block_id a → revocation_constraints (row_for a2 0) = true →
      ∃ db2, revoke a2 db' = Some (Ok (row, p), db2) ∧ rv_rows db2 = rv_rows db'.
Proof.
  intros Hok Hrev. unfold revoke in Hrev. destruct (insert_revocation a db) as [[[[ex|new]|e] db1]|] eqn:Hins;
    [| |done|done].
  - injection Hrev as <- <- <-. pose proof (insert_table_ok _ _ _ _ Hok Hins) as Hok1.
    unfold insert_revocation in Hins. destruct (rv_in_flight db !! _) eqn:Hfl; [done|].
    destruct (negb _); [done|]. destruct (rv_rows db !! ra_block_id a) as [r|] eqn:Hrow; [|done].
    injection Hins as -> <-. destruct (proj1 Hok _ _ Hrow) as [Hb _].
    cbn. split_and!; [done|done|done|done| |].
    + intros since Hs. apply elem_of_pull; [done|]. cbn. by rewrite Hb.
    + intros a2 Ha2 Hc. unfold revoke, insert_revocation. cbn. rewrite Ha2, Hfl, Hrow.
      unfold revocation_constraints in *. cbn in *. rewrite Ha2 in *. rewrite Hc. cbn. eauto.
  - injection Hrev as <- <- <-. pose proof (insert_table_ok _ _ _ _ Hok Hins) as Hok1.
    unfold insert_revocation in Hins. destruct (rv_in_flight db !! _) eqn:Hfl; [done|].
    destruct (negb _); [done|]. destruct (rv_rows db !! ra_block_id a) as [r|] eqn:Hrow; [done|].
    injection Hins as <- <-. pose proof (commit_table_ok (ra_block_id a) _ Hok1) as Hok2.
    unfold commit_revocation in *. cbn in *. rewrite lookup_insert_eq in *. cbn in *.
    split_and!; [by rewrite lookup_insert_eq|done|done| | |].
    + intros b r Hb. rewrite lookup_insert_ne; [done|]. intros <-. congruence.
    + intros since Hs. apply elem_of_pull; [done|]. cbn. by rewrite lookup_insert_eq.
    + intros a2 Ha2 Hc. unfold revoke, insert_revocation. cbn.
      rewrite Ha2, lookup_delete_eq, lookup_insert_eq.
      unfold revocation_constraints in *. cbn in *. rewrite Ha2 in *. rewrite Hc. cbn. eauto.
Qed.

(** ** Who may revoke *)
Lemma operator_token_approved approvers tokens entry tokens' :
  (∀ s p, tokens !! s = Some p → p ∈ approvers) →
  add_operator_token approvers tokens entry = Ok tokens' →
  ∀ s p, tokens' !! s = Some p → p ∈ approvers.
Proof.
  intros Ht. unfold add_operator_token. case_bool_decide; [by intros [= <-]|].
  destruct (partition_at 61 _) as [[principal sep] secret]. intros Hm.
  apply bind_Ok_inv in Hm as (? & _ & Hm). apply bind_Ok_inv in Hm as (? & Hp%raise_if_Ok & Hm).
  apply bind_Ok_inv in Hm as (? & _ & [= <-]). apply negb_false_iff in Hp.
  rewrite bool_decide_eq_true in Hp. intros s p. rewrite lookup_insert_Some.
  intros [[_ <-]|[_ ?]]; [done|by eapply Ht].
Qed.

Lemma operator_tokens_approved approvers entries : ∀ tokens tokens',
  (∀ s p, tokens !! s = Some p → p ∈ approvers) →
  add_operator_tokens approvers tokens entries = Ok tokens' →
  ∀ s p, tokens' !! s = Some p → p ∈ approvers.
Proof.
  induction entries as [|e entries IH]; intros tokens tokens' Ht; cbn [add_operator_tokens].
  - intros [= <-]. done.
  - intros (t1 & H1 & H2)%bind_Ok_inv. eapply IH; [|exact H2]. by eapply operator_token_approved.
Qed.

(** C15: only an approver revokes.  Whatever the request, if the table's rows change
    the acting principal was derived from the session or from a configured
    operator token, is an approver, and is the one the new row names; a request
    nothing authenticates gets 401, an authenticated one outside the approvers 403,
    and neither touches the table.  An operator token never gets 403, because none
    is configured for anyone else. *)
Theorem revocation_needs_approver settings r body i now db raw o db' :
  _parse_operator_tokens raw (approvers settings) = Ok (operator_tokens settings) →
  post_revocation settings r body i now db = Some (o, db') →
  (rv_rows db' ≠ rv_rows db →
    ∃ principal row, _acting_principal r settings = Some principal ∧ principal ∈ approvers settings
      ∧ o = Ok (201, Some row) ∧ rv_revoked_by row = principal
      ∧ rv_rows db' = <[rb_block_id body := row]> (rv_rows db))
  ∧ (o = Ok (401, None) → _acting_principal r settings = None ∧ db' = db)
  ∧ (o = Ok (403, None) → db' = db ∧ ∃ principal, session_principal r = Some principal
       ∧ principal ∉ approvers settings).
Proof.
  intros Htok. unfold post_revocation.
  case_bool_decide; [intros [= <- <-]; split_and!; by intros|].
  case_bool_decide; cbn [negb]; [|intros [= <- <-]; split_and!; by intros].
  destruct (_acting_principal r settings) as [principal|] eqn:Hact;
    [|intros [= <- <-]; split_and!; by intros].
  case_bool_decide as Happ; cbn [negb].
  - destruct (revoke _ db) as [[[[row p]|e] db1]|] eqn:Hrev; [| |done]; intros [= <- <-];
      (split_and!; [|by intros|by intros]); intros Hne.
    + exists principal, row. split_and!; try done; revert Hrev; unfold revoke, insert_revocation; cbn;
        (destruct (rv_in_flight db !! rb_block_id body); [done|]);
        (destruct (negb _); [done|]);
        (destruct (rv_rows db !! rb_block_id body) eqn:Hrow; [intros [= <- <- <-]; by destruct Hne|]);
        intros [= <- <- <-]; [done|].
      unfold commit_revocation. cbn. by rewrite lookup_insert_eq.
    + exfalso. apply Hne. revert Hrev. unfold revoke, insert_revocation. cbn.
      destruct (rv_in_flight db !! rb_block_id body); [done|].
      destruct (negb _); [by intros [= _ <-]|].
      by destruct (rv_rows db !! rb_block_id body).
  - intros [= <- <-]. split_and!; [by intros|by intros|]. intros _. split; [done|].
    unfold _acting_principal in Hact.
    assert (Hno : ∀ s, operator_tokens settings !! s ≠ Some principal).
    { intros s Hs. apply Happ.
      refine (operator_tokens_approved _ (split_on 44 raw []) ∅ _ _ Htok s principal Hs).
      intros ? ?. by rewrite lookup_empty. }
    destruct (session_principal r) as [[|c q]|] eqn:Hsess.
    + exfalso. destruct (partition_at 32 _) as [[? ?] presented].
      case_match; [done|]. exact (Hno _ Hact).
    + injection Hact as <-. eauto.
    + exfalso. destruct (partition_at 32 _) as [[? ?] presented].
      case_match; [done|]. exact (Hno _ Hact).
Qed.

(** ** One control plane, one PEP *)
Section system.
Context {F : Type} {BF : Bloom F}.

Record system := mkSystem { sy_db : revocations_db; sy_pep : RedisRevocationSet F }.

(** Transactions insert, commit and abort; the PEP pulls, with or without an answer;
    a publication of a committed row arrives. *)
Inductive revocation_event :=
| EvInsert (a : revoke_args)
| EvCommit (block_id : pystr)
| EvAbort (block_id : pystr)
| EvPull (now : Z)
| EvPullFailed (now : Z)
| EvPush (block_id : pystr).

Definition pull_now (now : Z) (s : system) : RedisRevocationSet F :=
  (_pull_once now (served (sy_db s) (_since_seq (sy_pep s))) (sy_pep s)).2.

Definition revocation_step_sys (s : system) (ev : revocation_event) : system :=
  match ev with
  | EvInsert a => match insert_revocation a (sy_db s) with
                  | Some (_, db) => mkSystem db (sy_pep s) | None => s end
  | EvCommit b => mkSystem (commit_revocation b (sy_db s)) (sy_pep s)
  | EvAbort b => mkSystem (abort_revocation b (sy_db s)) (sy_pep s)
  | EvPull now => mkSystem (sy_db s) (pull_now now s)
  | EvPullFailed now => mkSystem (sy_db s) (_pull_once now PullFailed (sy_pep s)).2
  | EvPush b => if decide (is_Some (rv_rows (sy_db s) !! b))
                then mkSystem (sy_db s) (_handle_push (Some b) (sy_pep s)) else s
  end.

Definition start_system : system := mkSystem (mkRevocations ∅ ∅ 1) new_redis_set.
Definition run_system (s : system) (evs : list revocation_event) : system :=
  foldl revocation_step_sys s evs.

(** Rows become visible in [seq] order, as far as a pull can tell: none in flight is
    older than one it serves. *)
Definition in_order_pull (s : system) : Prop :=
  ∀ b r b' r', rv_in_flight (sy_db s) !! b = Some r → rv_rows (sy_db s) !! b' = Some r' →
    rv_seq r' < rv_seq r.
Fixpoint in_order (s : system) (evs : list revocation_event) : Prop :=
  match evs with
  | [] => True
  | ev :: evs =>
      match ev with EvPull _ => in_order_pull s | _ => True end ∧ in_order (revocation_step_sys s ev) evs
  end.

(** ** The set *)
Definition bloom_ok (s : RedisRevocationSet F) : Prop :=
  ∀ b, b ∈ _revoked s → contains_str (_bloom s) b = true.

Lemma add_block_bloom b s : bloom_ok s → bloom_ok (add_block b s).
Proof.
  intros Hs b'. cbn. rewrite elem_of_union, elem_of_singleton.
  intros [-> | Hb]; [apply contains_added|by apply contains_kept, Hs].
Qed.

Lemma merge_entries_served rows s :
  merge_entries ((λ r, Some (rv_block_id r)) <$> rows) s
  = (Ok tt, foldl (λ s r, add_block (rv_block_id r) s) s rows).
Proof. revert s. induction rows as [|r rows IH]; intros s; [done|]. cbn. apply IH. Qed.

Lemma fold_add_block rows : ∀ s,
  let s' := foldl (λ s r, add_block (rv_block_id r) s) s rows in
  (bloom_ok s → bloom_ok s') ∧ _since_seq s' = _since_seq s
  ∧ (∀ b, b ∈ _revoked s' ↔ b ∈ _revoked s ∨ ∃ r, r ∈ rows ∧ rv_block_id r = b).
Proof.
  induction rows as [|r rows IH]; intros s; cbn [foldl].
  - split_and!; [done|done|]. intros b. split; [by left|]. intros [?|(r & Hr & _)]; [done|].
    by apply not_elem_of_nil in Hr.
  - destruct (IH (add_block (rv_block_id r) s)) as (H1 & H2 & H3). split_and!.
    + intros Hs. apply H1. by apply add_block_bloom.
    + by rewrite H2.
    + intros b. rewrite H3. cbn. rewrite elem_of_union, elem_of_singleton.
      split.
      * intros [[-> | ?]|(r' & ? & <-)]; [right; exists r; split; [left|done]|by left|right; exists r'].
        split; [by right|done].
      * intros [?|(r' & Hr' & <-)]; [by left; right|]. apply elem_of_cons in Hr' as [-> | Hr'];
          [by left; left|right; by exists r'].
Qed.

(** What a healthy pull leaves behind. *)
Lemma pull_now_spec now s :
  table_ok (sy_db s) → bloom_ok (sy_pep s) →
  let p := pull_now now s in
  bloom_ok p ∧ _last_pull_at p = Some now
  ∧ _since_seq p = (get_revocations (sy_db s) (_since_seq (sy_pep s))).2
  ∧ ∀ b, b ∈ _revoked p ↔ b ∈ _revoked (sy_pep s)
       ∨ ∃ r, rv_rows (sy_db s) !! b = Some r ∧ _since_seq (sy_pep s) < rv_seq r.
Proof.
  intros Hok Hb. unfold pull_now, served, get_revocations, _pull_once. cbn [fst snd].
  rewrite merge_entries_served.
  destruct (fold_add_block (pull (sy_db s) (_since_seq (sy_pep s))) (sy_pep s)) as (H1 & H2 & H3).
  cbn. split_and!; [by apply H1|done|done|]. intros b. rewrite H3. f_equiv. split.
  - intros (r & Hr%elem_of_pull & <-); [|done]. eauto.
  - intros (r & Hr & Hs). exists r. destruct (proj1 Hok b r Hr) as [E _].
    split; [|done]. apply elem_of_pull; [done|]. by rewrite E.
Qed.

(** ** The invariant *)
Record system_ok (s : system) : Prop := {
  so_table : table_ok (sy_db s);
  so_bloom : bloom_ok (sy_pep s);
  so_sound b : b ∈ _revoked (sy_pep s) → is_Some (rv_rows (sy_db s) !! b);
  so_cursor : _since_seq (sy_pep s) < rv_next_seq (sy_db s) }.

(** Under in-order commits: nothing at or below the cursor is missing or in flight. *)
Record caught_up (s : system) : Prop := {
  cu_rows b r : rv_rows (sy_db s) !! b = Some r → rv_seq r <= _since_seq (sy_pep s) →
    b ∈ _revoked (sy_pep s);
  cu_flight b r : rv_in_flight (sy_db s) !! b = Some r → _since_seq (sy_pep s) < rv_seq r }.

Lemma insert_grows a db o db' :
  insert_revocation a db = Some (o, db') →
  rv_rows db' = rv_rows db ∧ rv_next_seq db' = rv_next_seq db + 1
  ∧ ∀ b r, rv_in_flight db' !! b = Some r → rv_in_flight db !! b = Some r ∨ rv_seq r = rv_next_seq db.
Proof.
  unfold insert_revocation. destruct (rv_in_flight db !! _); [done|].
  destruct (negb _); [intros [= _ <-]; cbn; auto|].
  destruct (rv_rows db !! _); [intros [= _ <-]; cbn; auto|].
  intros [= _ <-]. cbn. split_and!; [done..|]. intros b r. rewrite lookup_insert_Some.
  intros [[_ <-]|[_ ?]]; auto.
Qed.

(** Committed rows stay, and the set only grows. *)
Lemma step_grows s ev :
  table_ok (sy_db s) → bloom_ok (sy_pep s) →
  (∀ b r, rv_rows (sy_db s) !! b = Some r → rv_rows (sy_db (revocation_step_sys s ev)) !! b = Some r)
  ∧ (∀ b, b ∈ _revoked (sy_pep s) → b ∈ _revoked (sy_pep (revocation_step_sys s ev))).
Proof.
  intros Hok Hbl. destruct ev as [a|b0|b0|now|now|b0]; cbn [revocation_step_sys].
  - destruct (insert_revocation a (sy_db s)) as [[o db']|] eqn:Hi; [|done].
    destruct (insert_grows _ _ _ _ Hi) as (E & _). cbn. by rewrite E.
  - split; [|done]. intros b r Hr. cbn. unfold commit_revocation.
    destruct (rv_in_flight (sy_db s) !! b0) eqn:Hf; [|done]. cbn.
    rewrite lookup_insert_ne; [done|]. intros <-.
    destruct (proj1 (proj2 Hok) _ _ Hf) as (_ & _ & Hn & _). congruence.
  - done.
  - split; [done|]. intros b Hb. cbn [sy_pep].
    destruct (pull_now_spec now s Hok Hbl) as (_ & _ & _ & H). apply H. by left.
  - done.
  - destruct (decide _); [|done]. split; [done|]. intros b Hb. cbn. set_solver.
Qed.

Lemma system_ok_step s ev : system_ok s → system_ok (revocation_step_sys s ev).
Proof.
  intros [Hok Hbl Hs Hc]. pose proof (step_grows s ev Hok Hbl) as [Hg _].
  destruct ev as [a|b0|b0|now|now|b0]; cbn [revocation_step_sys] in *.
  - destruct (insert_revocation a (sy_db s)) as [[o db']|] eqn:Hi; [|by split].
    destruct (insert_grows _ _ _ _ Hi) as (E & En & _). split; cbn in *; [|done| |lia].
    + by eapply insert_table_ok.
    + by rewrite E.
  - split; cbn in *; [by apply commit_table_ok|done| |].
    + intros b Hb. destruct (Hs b Hb) as [r Hr]. eauto.
    + unfold commit_revocation. by case_match.
  - split; cbn in *; [by apply abort_table_ok|done..].
  - destruct (pull_now_spec now s Hok Hbl) as (H1 & _ & H2 & H3).
    split; cbn [sy_db sy_pep] in *; [done|done| |].
    + intros b [Hb|(r & Hr & _)]%H3; [by apply Hs|by eexists].
    + destruct (get_revocations_cursor (sy_db s) (_since_seq (sy_pep s)) Hok) as (_ & _ & Hn).
      rewrite H2. destruct Hn as [-> |(b & r & Hr & <-)]; [done|]. by apply (proj1 Hok b).
  - by split.
  - destruct (decide _) as [Hd|]; [|by split]. split; cbn; [done|by apply add_block_bloom| |done].
    intros b. rewrite elem_of_union, elem_of_singleton. intros [-> | Hb]; [done|by apply Hs].
Qed.

Lemma caught_up_step s ev :
  system_ok s → caught_up s → match ev with EvPull _ => in_order_pull s | _ => True end →
  caught_up (revocation_step_sys s ev).
Proof.
  intros [Hok Hbl Hs Hc] [Hr Hf] Hord. destruct ev as [a|b0|b0|now|now|b0]; cbn [revocation_step_sys].
  - destruct (insert_revocation a (sy_db s)) as [[o db']|] eqn:Hi; [|by split].
    destruct (insert_grows _ _ _ _ Hi) as (E & En & Hfl). split; cbn.
    + rewrite E. apply Hr.
    + intros b r [H| ->]%Hfl; [by eapply Hf|done].
  - unfold commit_revocation. destruct (rv_in_flight (sy_db s) !! b0) as [row|] eqn:Hrow; [|by split].
    split; cbn.
    + intros b r. rewrite lookup_insert_Some. intros [[<- <-]|[_ Hb]]; [|by apply Hr].
      apply Hf in Hrow. lia.
    + intros b r. rewrite lookup_delete_Some. intros [_ Hb]. by eapply Hf.
  - split; cbn; [done|]. intros b r. rewrite lookup_delete_Some. intros [_ Hb]. by eapply Hf.
  - destruct (pull_now_spec now s Hok Hbl) as (_ & _ & H2 & H3). split; cbn [sy_db sy_pep].
    + intros b r Hb _. apply H3. destruct (Z.le_gt_cases (rv_seq r) (_since_seq (sy_pep s)));
        [left; by eapply Hr|right; by exists r].
    + intros b r Hb. rewrite H2.
      destruct (get_revocations_cursor (sy_db s) (_since_seq (sy_pep s)) Hok) as (_ & _ & Hn).
      destruct Hn as [-> |(b' & r' & Hr' & <-)]; [by eapply Hf|by eapply Hord].
  - by split.
  - destruct (decide _); [|by split]. split; cbn; [|done].
    intros b r Hb Hle. apply elem_of_union_r. by eapply Hr.
Qed.

Lemma run_invariants s evs :
  system_ok s → caught_up s → in_order s evs →
  system_ok (run_system s evs) ∧ caught_up (run_system s evs).
Proof.
  revert s. induction evs as [|ev evs IH]; intros s Hs Hc; [done|].
  intros [Ho H]. apply IH; [by apply system_ok_step|by apply caught_up_step|done].
Qed.

Lemma run_grows s evs :
  system_ok s → ∀ b, b ∈ _revoked (sy_pep s) → b ∈ _revoked (sy_pep (run_system s evs)).
Proof.
  revert s. induction evs as [|ev evs IH]; intros s Hs b Hb; [done|].
  apply IH; [by apply system_ok_step|]. destruct Hs. by apply step_grows.
Qed.

Lemma start_ok : system_ok start_system ∧ caught_up start_system.
Proof.
  by split; split.
Qed.

(** The filter in front of the set changes no answer. *)
Lemma redis_answer s limit now b pulled :
  bloom_ok s → _last_pull_at s = Some pulled → now - pulled < limit →
  redis_is_revoked limit now s b = Ok (bool_decide (b ∈ _revoked s)).
Proof.
  intros Hb Hp Hn. unfold redis_is_revoked. rewrite Hp, (proj2 (Z.leb_gt _ _)) by lia.
  destruct (contains_str (_bloom s) b) eqn:Hc; cbn [negb]; [done|].
  rewrite bool_decide_false; [done|]. intros Hin%Hb. congruence.
Qed.

(** A pull makes the PEP's answers the table's.  Whatever transactions, failed
    pulls and pushes came before, with rows becoming visible in order, a pull that
    gets an answer leaves a set that answers for every id, until the staleness
    limit, exactly whether the table holds it; past the limit it refuses to answer. *)
Theorem pull_refines_table evs t limit now b :
  in_order start_system evs →
  let s := run_system start_system (evs ++ [EvPull t]) in
  redis_is_revoked limit now (sy_pep s) b =
    if limit <=? now - t then Raise (OracleUnavailable (u "revocation data is stale"))
    else Ok (bool_decide (is_Some (rv_rows (sy_db s) !! b))).
Proof.
  intros Hord. destruct start_ok as [H1 H2].
  destruct (run_invariants _ _ H1 H2 Hord) as [Hs Hc]. unfold run_system. rewrite foldl_app.
  fold (run_system start_system evs). set (s := run_system start_system evs) in *.
  cbn [foldl revocation_step_sys sy_pep sy_db]. destruct Hs as [Hok Hbl Hso _], Hc as [Hcr _].
  destruct (pull_now_spec t s Hok Hbl) as (Hb' & Hp & _ & Hin).
  destruct (Z.leb_spec limit (now - t)) as [Hst|Hst].
  - unfold redis_is_revoked. rewrite Hp. by rewrite (proj2 (Z.leb_le _ _)).
  - rewrite (redis_answer _ _ _ _ t) by done. f_equal. apply bool_decide_ext. rewrite Hin. split.
    + intros [Hb|(r & Hr & _)]; [by apply Hso|by eexists].
    + intros [r Hr]. destruct (Z.le_gt_cases (rv_seq r) (_since_seq (sy_pep s)));
        [left; by eapply Hcr|right; by exists r].
Qed.

(** ** Enforcement *)
Context `{BiscuitLib} {P B D : Type} `{PolicyEngine P, BudgetOracle B, DriftOracle D}.

(** A chain with an id the oracle does not clear is denied, by name or fail-closed. *)
Lemma uncleared_denied (o : redis_oracle F) token ctx caveats (po : P) (bo : B) (dr : option D) b :
  b ∈ vt_revocation_ids token → is_revoked o b ≠ Ok false →
  ∃ v, (decide_request token ctx caveats o po bo dr).1 = Ok v ∧ v_outcome v = DENY
    ∧ v_reason_code v ∈ [TOKEN_REVOKED; ANCESTOR_REVOKED; CONTROL_PLANE_UNAVAILABLE_FAIL_CLOSED].
Proof.
  intros Hin Hno. unfold decide_request.
  assert (Hl : ∀ ids i last, b ∈ ids → ∃ v, revocation_loop o i ids last = Ok (Some v)
    ∧ v_outcome v = DENY
    ∧ v_reason_code v ∈ [TOKEN_REVOKED; ANCESTOR_REVOKED; CONTROL_PLANE_UNAVAILABLE_FAIL_CLOSED]).
  { induction ids as [|rid ids IH]; intros i last Hb; [by apply not_elem_of_nil in Hb|].
    cbn [revocation_loop]. destruct (is_revoked o rid) as [[]|e] eqn:Hr.
    - eexists. split_and!; [done|done|]. destruct (i =? last); cbn; set_solver.
    - apply IH. apply elem_of_cons in Hb as [-> | ?]; [congruence|done].
    - assert (∃ why, e = OracleUnavailable why) as [why ->].
      { revert Hr. cbn. unfold redis_is_revoked. repeat case_match; intros [= <-]; eauto. }
      eexists. split_and!; [done|done|]. cbn. set_solver. }
  destruct (Hl (vt_revocation_ids token) 0 (Z.of_nat (length (vt_revocation_ids token)) - 1) Hin)
    as (v & Hv & Ho & Hc).
  unfold revocation_step. rewrite Hv. by exists v.
Qed.

(** C14: a revoked token is refused for good.  If a block id was in the table when a
    PEP's pull was answered, rows having become visible in order until then, the
    PEP denies every later request whose chain contains that id, own or ancestor,
    whatever else happens to the table, the network, the clock and the other
    oracles: as revoked, or fail-closed when its data is stale. *)
Theorem revocation_enforced evs t later b r token ctx caveats now limit (po : P) (bo : B) (dr : option D) :
  in_order start_system evs →
  rv_rows (sy_db (run_system start_system evs)) !! b = Some r →
  b ∈ vt_revocation_ids token →
  let s := run_system start_system (evs ++ EvPull t :: later) in
  ∃ v, (decide_request token ctx caveats (mkRedisOracle (sy_pep s) now limit) po bo dr).1 = Ok v
    ∧ v_outcome v = DENY
    ∧ v_reason_code v ∈ [TOKEN_REVOKED; ANCESTOR_REVOKED; CONTROL_PLANE_UNAVAILABLE_FAIL_CLOSED].
Proof.
  intros Hord Hr Hb s. apply (uncleared_denied _ _ _ _ _ _ _ b); [done|].
  destruct start_ok as [Hst1 Hst2]. destruct (run_invariants _ _ Hst1 Hst2 Hord) as [Hs Hc].
  set (s1 := run_system start_system evs) in *.
  assert (Es : s = run_system (revocation_step_sys s1 (EvPull t)) later).
  { unfold s, run_system. by rewrite foldl_app. }
  assert (Hs2 : system_ok (revocation_step_sys s1 (EvPull t))) by by apply system_ok_step.
  assert (Hin : b ∈ _revoked (sy_pep s)).
  { rewrite Es. apply run_grows; [done|]. cbn [revocation_step_sys sy_pep].
    destruct Hs as [Hok Hbl _ _]. apply (pull_now_spec t s1 Hok Hbl).
    destruct (Z.le_gt_cases (rv_seq r) (_since_seq (sy_pep s1))).
    - left. destruct Hc as [Hcr _]. by eapply Hcr.
    - right. by exists r. }
  assert (Hbl : bloom_ok (sy_pep s)).
  { rewrite Es. clear -Hs2. revert Hs2. generalize (revocation_step_sys s1 (EvPull t)).
    induction later as [|ev later IH]; intros s0 Hs0; [apply Hs0|]. by apply IH, system_ok_step. }
  cbn [is_revoked redis_revocation_oracle ro_staleness_limit ro_now ro_set].
  unfold redis_is_revoked. destruct (_last_pull_at (sy_pep s)); [|done].
  destruct (limit <=? _); [done|]. rewrite (Hbl b Hin). cbn [negb].
  by rewrite bool_decide_true.
Qed.
End system.
Arguments system F : clear implicits.

(** ** Concrete runs *)
Definition set_bloom : Bloom (gset pystr).
Proof.
  refine {| new_bloom := ∅; add_str s f := {[s]} ∪ f; contains_str f s := bool_decide (s ∈ f) |}.
  - intros f s. apply bool_decide_eq_true. set_solver.
  - intros f s t. rewrite !bool_decide_eq_true. set_solver.
Defined.

Section witnesses.
#[local] Existing Instance set_bloom.
#[local] Existing Instance toy_lib.
#[local] Existing Instance toy_policy.
#[local] Existing Instance toy_budget.
#[local] Existing Instance toy_drift.

Definition revoke_of (b : string) : revoke_args :=
  mkRevoke 1 (u b) (u "token") (u "leaked") (u "kc:alice") 500 10.
Definition revoke_events (b : string) : list revocation_event :=
  [EvInsert (revoke_of b); EvCommit (u b)].

Lemma events_in_order b : in_order start_system (revoke_events b).
Proof. by repeat split. Qed.

Lemma pull_refines_table_witness :
  let s := run_system start_system (revoke_events "agent(b)" ++ [EvPull 20]) in
  redis_is_revoked 9 25 (sy_pep s) (u "agent(b)") = Ok (bool_decide (is_Some (rv_rows (sy_db s) !! u "agent(b)")))
  ∧ rv_rows (sy_db s) !! u "agent(b)" = Some (row_for (revoke_of "agent(b)") 1).
Proof.
  split; [|vm_compute; reflexivity].
  exact (pull_refines_table (revoke_events "agent(b)") 20 9 25 (u "agent(b)") (events_in_order _)).
Defined.

Lemma revocation_enforced_witness :
  ∃ v, (decide_request toy_vt toy_request [] (mkRedisOracle
          (sy_pep (run_system start_system (revoke_events "agent(b)" ++ EvPull 20 :: [EvPullFailed 24]))) 25 9)
          true 50000 None).1 = Ok v ∧ v_outcome v = DENY
    ∧ v_reason_code v ∈ [TOKEN_REVOKED; ANCESTOR_REVOKED; CONTROL_PLANE_UNAVAILABLE_FAIL_CLOSED].
Proof.
  refine (revocation_enforced (revoke_events "agent(b)") 20 [EvPullFailed 24] (u "agent(b)")
    (row_for (revoke_of "agent(b)") 1) toy_vt toy_request [] 25 9 true 50000 None (events_in_order _) _ _).
  - vm_compute. reflexivity.
  - apply (bool_decide_unpack _). vm_compute. exact I.
Defined.

(** An id that commits after a younger one was pulled is never pulled: the table
    holds it, the PEP answers that it is not revoked. *)
Theorem late_commit_missed :
  let s := run_system start_system
    [EvInsert (revoke_of "old"); EvInsert (revoke_of "new"); EvCommit (u "new"); EvPull 20;
     EvCommit (u "old"); EvPull 23; EvPull 26] in
  is_Some (rv_rows (sy_db s) !! u "old") ∧ redis_is_revoked 9 27 (sy_pep s) (u "old") = Ok false.
Proof. split; [vm_compute; by eexists|vm_compute; reflexivity]. Qed.

Lemma revoke_idempotent_witness :
  let db := mkRevocations ∅ ∅ 1 in
  ∃ db' db2, revoke (revoke_of "b") db
      = Some (Ok (row_for (revoke_of "b") 1, mkPublication (u "b") 1), db')
    ∧ revoke (mkRevoke 2 (u "b") (u "mandate") [] (u "kc:bob") 9 99) db'
      = Some (Ok (row_for (revoke_of "b") 1, mkPublication (u "b") 1), db2).
Proof.
  intros db. eexists. assert (table_ok db) as Hok.
  { split_and!; intros *; by rewrite ?lookup_empty. }
  destruct (revoke_idempotent (revoke_of "b") db _ _ _ Hok eq_refl) as (_ & _ & _ & _ & _ & H).
  destruct (H (mkRevoke 2 (u "b") (u "mandate") [] (u "kc:bob") 9 99) eq_refl) as (db2 & Hdb2 & _).
  { vm_compute. reflexivity. }
  exists db2. split; [reflexivity|exact Hdb2].
Defined.

Definition alice_settings : ControlPlaneSettings :=
  mkControlPlaneSettings {[u "kc:alice"]} {[u "s3cret" := u "kc:alice"]}.

Lemma revocation_needs_approver_witness :
  let r := mkApiRequest None (Some (u "Bearer s3cret")) in
  let body := mkRevokeBody (u "b") (u "token") (u "leaked") 500 in
  ∃ row db', post_revocation alice_settings r body 1 10 (mkRevocations ∅ ∅ 1) = Some (Ok (201, Some row), db')
    ∧ rv_revoked_by row = u "kc:alice".
Proof.
  intros r body.
  assert (Ht : _parse_operator_tokens (u " kc:alice = s3cret ,") (approvers alice_settings)
               = Ok (operator_tokens alice_settings)) by (vm_compute; reflexivity).
  destruct (post_revocation alice_settings r body 1 10 (mkRevocations ∅ ∅ 1)) as [[o db']|] eqn:E;
    [|vm_compute in E; discriminate].
  destruct (revocation_needs_approver _ _ _ _ _ _ _ _ _ Ht E) as (H & _ & _).
  destruct H as (p & row & Hp & _ & -> & Hrow & _).
  { intros Heq. assert (Hn : rv_rows db' !! u "b" = None) by (rewrite Heq; apply lookup_empty).
    revert Hn. vm_compute in E. injection E as _ <-. vm_compute. discriminate. }
  exists row, db'. split; [reflexivity|]. rewrite Hrow. vm_compute in Hp. by injection Hp as <-.
Defined.
End witnesses.
