(* ===== verification/Escalation.v ===== *)
(** * Escalations (agentiam_core/escalation.py, db/escalations.py, escalations_api.py)

    A request for human authority: the pure rules, the table they are applied to
    under a row lock, and the HTTP routes, where an approval mints the elevated
    mandate.  A transaction holds the row's lock from its read to its commit, so
    it is one step on the table. *)
From S2P Require Import Prelude PyText Errors PyNum PyRe PyUuid Models Caveats Tokens.

(** [datetime + timedelta]: [OverflowError] outside the years 1 to 9999. *)
Definition DATETIME_END : Z := 3652059 * 86400000000.
Definition dt_add (t delta : Z) : py Z :=
  if (0 <=? t + delta) && (t + delta <? DATETIME_END) then Ok (t + delta) else Raise OverflowError.

(** ** The rules *)
Inductive EscalationState := E_PENDING | E_APPROVED | E_DENIED | E_EXPIRED.
#[global] Instance EscalationState_eq_dec : EqDecision EscalationState.
Proof. solve_decision. Defined.

Record ElevationGrant := mkGrantOf {
  eg_escalation_id : uuid;
  eg_task_id : uuid;
  eg_principal_id : pystr;
  eg_agent_id : pystr;
  eg_intent_hash : pystr;
  eg_scopes : gset pystr;
  eg_amount : decimal;
  eg_not_before : Z;
  eg_expires_at : Z;
  eg_approved_by : pystr }.

Record Escalation := mkEscalation {
  es_id : uuid;
  es_decision_id : uuid;
  es_task_id : uuid;
  es_agent_id : pystr;
  es_principal_id : pystr;
  es_intent_hash : pystr;
  es_requested_scopes : gset pystr;
  es_requested_amount : decimal;
  es_reason : pystr;
  es_created_at : Z;
  es_expires_at : Z;
  es_state : EscalationState;
  es_resolved_by : option pystr;
  es_resolved_at : option Z;
  es_resolution_reason : option pystr }.

Definition is_expired (e : Escalation) (now : Z) : bool := es_expires_at e <=? now.

Definition state_at (e : Escalation) (now : Z) : EscalationState :=
  if bool_decide (es_state e = E_PENDING) && is_expired e now then E_EXPIRED else es_state e.

(** The keyword arguments of [request_escalation]. *)
Record escalation_request := mkEscalationRequest {
  er_decision_id : uuid;
  er_task_id : uuid;
  er_agent_id : pystr;
  er_principal_id : pystr;
  er_intent_hash : pystr;
  er_requested_scopes : gset pystr;
  er_requested_amount : decimal;
  er_reason : pystr }.

Definition request_escalation (q : escalation_request) (fresh_id : uuid) (now ttl : Z) : py Escalation :=
  raise_if (bool_decide (er_requested_scopes q = ∅)) ValueError;;
  raise_if (dec_ltb (er_requested_amount q) (Dec 0 0)) ValueError;;
  expires ← dt_add now ttl;
  Ok (mkEscalation fresh_id (er_decision_id q) (er_task_id q) (er_agent_id q) (er_principal_id q)
        (er_intent_hash q) (er_requested_scopes q) (er_requested_amount q) (er_reason q) now expires
        E_PENDING None None None).

Definition _check_resolvable (e : Escalation) (approver : pystr) (authorized : gset pystr) (now : Z)
    : py unit :=
  raise_if (negb (bool_decide (approver ∈ authorized))) (ApproverNotAuthorized approver);;
  raise_if (bool_decide (approver = es_principal_id e)) (ApproverNotAuthorized approver);;
  raise_if (negb (bool_decide (es_state e = E_PENDING))) EscalationNotPending;;
  raise_if (is_expired e now) EscalationExpired.

(** [replace(escalation, state=..., resolved_by=..., resolved_at=...)]. *)
Definition resolve_with (e : Escalation) (st : EscalationState) (approver : pystr) (now : Z)
    (reason : option pystr) : Escalation :=
  mkEscalation (es_id e) (es_decision_id e) (es_task_id e) (es_agent_id e) (es_principal_id e)
    (es_intent_hash e) (es_requested_scopes e) (es_requested_amount e) (es_reason e)
    (es_created_at e) (es_expires_at e) st (Some approver) (Some now) reason.

Definition approve (e : Escalation) (approver : pystr) (authorized : gset pystr) (now elevation_ttl : Z)
    (narrowed_scopes : option (gset pystr)) (max_amount : option decimal)
    : py (Escalation * ElevationGrant) :=
  _check_resolvable e approver authorized now;;
  let scopes := default (es_requested_scopes e) narrowed_scopes in
  raise_if (bool_decide (scopes = ∅)) ValueError;;
  raise_if (negb (bool_decide (scopes ∖ es_requested_scopes e = ∅))) NarrowingWidensRequest;;
  let amount := default (es_requested_amount e) max_amount in
  raise_if (dec_ltb (es_requested_amount e) amount) NarrowingWidensRequest;;
  let resolved := resolve_with e E_APPROVED approver now (es_resolution_reason e) in
  expires ← dt_add now elevation_ttl;
  Ok (resolved, mkGrantOf (es_id e) (es_task_id e) (es_principal_id e) (es_agent_id e)
                  (es_intent_hash e) scopes amount now expires approver).

Definition deny (e : Escalation) (approver : pystr) (authorized : gset pystr) (now : Z) (reason : pystr)
    : py Escalation :=
  _check_resolvable e approver authorized now;;
  raise_if (bool_decide (py_strip reason = [])) ValueError;;
  Ok (resolve_with e E_DENIED approver now (Some reason)).

(** ** The table (db/models.py, db/escalations.py) *)

(** The columns; [requested_amount] in units, as NUMERIC(20,4) holds it. *)
Record EscalationRow := mkEscalationRow {
  ew_decision_id : uuid;
  ew_task_id : uuid;
  ew_agent_id : pystr;
  ew_principal_id : pystr;
  ew_intent_hash : pystr;
  ew_requested_scopes : list pystr;
  ew_requested_amount : Z;
  ew_reason : pystr;
  ew_created_at : Z;
  ew_expires_at : Z;
  ew_state : EscalationState;
  ew_resolved_by : option pystr;
  ew_resolved_at : option Z;
  ew_resolution_reason : option pystr }.

Abbreviation escalations_db := (gmap uuid EscalationRow).

Definition _to_domain (i : uuid) (w : EscalationRow) : Escalation :=
  mkEscalation i (ew_decision_id w) (ew_task_id w) (ew_agent_id w) (ew_principal_id w)
    (ew_intent_hash w) (list_to_set (ew_requested_scopes w)) (dec_of_units (ew_requested_amount w))
    (ew_reason w) (ew_created_at w) (ew_expires_at w) (ew_state w) (ew_resolved_by w)
    (ew_resolved_at w) (ew_resolution_reason w).

(** A decimal stored in NUMERIC(20,4): rounded half away from zero, [DataError]
    past twenty digits. *)
Definition numeric_20_4 (d : decimal) : py Z :=
  let n := numeric_round d in
  if Z.abs n <? MONEY_LIMIT then Ok n else Raise DataError.

Definition _by_decision (decision_id : uuid) (db : escalations_db) : option Escalation :=
  match list_find (λ p, ew_decision_id p.2 = decision_id) (map_to_list db) with
  | Some (_, p) => Some (_to_domain p.1 p.2)
  | None => None
  end.

(** [uq_escalations_decision_id], the primary key, [String(64)], and the checks. *)
Definition escalation_insert (e : Escalation) (db : escalations_db) : py escalations_db :=
  amount ← numeric_20_4 (es_requested_amount e);
  raise_if (64 <? Z.of_nat (length (es_intent_hash e))) DataError;;
  raise_if (amount <? 0) IntegrityError;;
  raise_if (bool_decide (is_Some (db !! es_id e))) IntegrityError;;
  raise_if (bool_decide (is_Some (_by_decision (es_decision_id e) db))) IntegrityError;;
  Ok (<[es_id e := mkEscalationRow (es_decision_id e) (es_task_id e) (es_agent_id e)
         (es_principal_id e) (es_intent_hash e) (py_sorted (elements (es_requested_scopes e))) amount
         (es_reason e) (es_created_at e) (es_expires_at e) (es_state e) None None None]> db).

Definition create (q : escalation_request) (fresh_id : uuid) (now ttl : Z) (db : escalations_db)
    : py Escalation * escalations_db :=
  match request_escalation q fresh_id now ttl with
  | Raise e => (Raise e, db)
  | Ok escalation =>
      match escalation_insert escalation db with
      | Ok db' => (Ok escalation, db')
      | Raise IntegrityError =>
          (Raise (match _by_decision (er_decision_id q) db with
                  | Some existing => DuplicateEscalationError (es_id existing) (er_decision_id q)
                  | None => IntegrityError
                  end), db)
      | Raise e => (Raise e, db)
      end
  end.

Definition get (i : uuid) (db : escalations_db) : option Escalation := _to_domain i <$> db !! i.

Definition created_le (a b : Escalation) : Prop := es_created_at a <= es_created_at b.
#[global] Instance created_le_dec : RelDecision created_le.
Proof. intros a b. unfold created_le. apply _. Defined.

Definition list_by_state (st : EscalationState) (now : Z) (db : escalations_db) : list Escalation :=
  merge_sort created_le
    ((λ p, _to_domain p.1 p.2) <$>
       filter (λ p, ew_state p.2 = st ∧ (st = E_PENDING → now < ew_expires_at p.2)) (map_to_list db)).

Definition _load_for_update (i : uuid) (db : escalations_db) : py EscalationRow :=
  match db !! i with Some w => Ok w | None => Raise EscalationNotFoundError end.

(** The attributes a resolution writes back. *)
Definition write_state (w : EscalationRow) (e : Escalation) (reason : option pystr) : EscalationRow :=
  mkEscalationRow (ew_decision_id w) (ew_task_id w) (ew_agent_id w) (ew_principal_id w)
    (ew_intent_hash w) (ew_requested_scopes w) (ew_requested_amount w) (ew_reason w)
    (ew_created_at w) (ew_expires_at w) (es_state e) (es_resolved_by e) (es_resolved_at e) reason.

Definition resolve_approve (i : uuid) (approver : pystr) (authorized : gset pystr)
    (now elevation_ttl : Z) (narrowed_scopes : option (gset pystr)) (max_amount : option decimal)
    (db : escalations_db) : py (Escalation * ElevationGrant) * escalations_db :=
  match w ← _load_for_update i db;
        r ← approve (_to_domain i w) approver authorized now elevation_ttl narrowed_scopes max_amount;
        Ok (w, r) with
  | Ok (w, r) => (Ok r, <[i := write_state w r.1 (ew_resolution_reason w)]> db)
  | Raise e => (Raise e, db)
  end.

Definition resolve_deny (i : uuid) (approver : pystr) (authorized : gset pystr) (now : Z)
    (reason : pystr) (db : escalations_db) : py Escalation * escalations_db :=
  match w ← _load_for_update i db;
        r ← deny (_to_domain i w) approver authorized now reason;
        Ok (w, r) with
  | Ok (w, r) => (Ok r, <[i := write_state w r (es_resolution_reason r)]> db)
  | Raise e => (Raise e, db)
  end.

(** ** The routes (escalations_api.py) *)
Definition status_for (e : exn) : Z :=
  match e with
  | EscalationNotFoundError => 404
  | ApproverNotAuthorized _ => 403
  | EscalationExpired => 410
  | EscalationNotPending | DuplicateEscalationError _ _ => 409
  | NarrowingWidensRequest | ValueError | TokenTooLargeError => 400
  | _ => 500
  end.

(** [isinstance(exc, ValueError)] among the exceptions modelled. *)
Definition is_ValueError (e : exn) : bool :=
  match e with ValueError | ValidationError | UnicodeEncodeError => true | _ => false end.

Section api.
Context `{BiscuitLib}.

Record elevation_settings := mkElevationSettings {
  el_approvers : gset pystr;
  el_max_depth : Z;
  el_root_private_key : PrivateKey }.

(** [_seconds(body.ttl_s)]: [None] is not a finite, representable number. *)
Definition _seconds (ttl_s : option Z) : py Z :=
  match ttl_s with Some t => Ok t | None => Raise ValueError end.

(** What the approve route answers: a token, or an error status. *)
Inductive approve_response := Elevated (token : pystr) (grant : ElevationGrant) | Refused (status : Z).

(** The exceptions the route turns into responses; any other is a 500. *)
Definition approve_catches (e : exn) : bool :=
  match e with
  | EscalationNotFoundError | ApproverNotAuthorized _ | EscalationExpired | EscalationNotPending
  | NarrowingWidensRequest => true
  | e => is_ValueError e
  end.

(** The mandate an approval mints: built after the approval has been committed. *)
Definition elevation_mandate (s : elevation_settings) (fresh_id : uuid) (g : ElevationGrant) : py Mandate :=
  budget ← mk_Budget (eg_amount g) 0 0 0 0;
  mk_Mandate fresh_id (eg_task_id g) (eg_principal_id g) (eg_intent_hash g) (eg_scopes g) budget
    (el_max_depth s) (DT (eg_not_before g) true) (DT (eg_expires_at g) true).

(** [POST /v1/escalations/{id}/approve], past FastAPI's parsing of the body; [None]
    for [approver] is a request without a session. *)
Definition approve_escalation (s : elevation_settings) (i : uuid) (approver : option pystr)
    (ttl_s : option Z) (narrowed_scopes : option (gset pystr)) (max_amount : option decimal)
    (fresh_id : uuid) (now : Z) (db : escalations_db) : approve_response * escalations_db :=
  match approver with
  | None => (Refused 401, db)
  | Some approver =>
      if match max_amount with Some a => dec_ltb a (Dec 0 0) | None => false end
      then (Refused 422, db) else
      let '(r, db') :=
        match _seconds ttl_s with
        | Raise e => (Raise e, db)
        | Ok ttl => resolve_approve i approver (el_approvers s) now ttl narrowed_scopes max_amount db
        end in
      match r with
      | Raise e => (Refused (if approve_catches e then status_for e else 500), db')
      | Ok (_, grant) =>
          match m ← elevation_mandate s fresh_id grant; mint_root m (el_root_private_key s) with
          | Ok token => (Elevated token grant, db')
          | Raise TokenTooLargeError => (Refused 400, db')
          | Raise _ => (Refused 500, db')
          end
      end
  end.
End api.

Definition open_catches (e : exn) : bool :=
  match e with DuplicateEscalationError _ _ => true | e => is_ValueError e end.

(** [POST /v1/escalations]: a status and what is serialized. *)
Definition open_escalation (q : escalation_request) (ttl_s : option Z) (fresh_id : uuid) (now : Z)
    (db : escalations_db) : (Z * option Escalation) * escalations_db :=
  if bool_decide (er_requested_scopes q = ∅) || dec_ltb (er_requested_amount q) (Dec 0 0)
  then ((422, None), db) else
  let '(r, db') :=
    match _seconds ttl_s with
    | Raise e => (Raise e, db)
    | Ok ttl => create q fresh_id now ttl db
    end in
  match r with
  | Ok e => ((201, Some e), db')
  | Raise e => ((if open_catches e then status_for e else 500, None), db')
  end.

Definition escalation_state_value (st : EscalationState) : pystr :=
  match st with
  | E_PENDING => u "pending" | E_APPROVED => u "approved"
  | E_DENIED => u "denied" | E_EXPIRED => u "expired"
  end.

(** [GET /v1/escalations?state=]. *)
Definition list_escalations (state : pystr) (now : Z) (db : escalations_db) : Z * list Escalation :=
  match list_find (λ st, escalation_state_value st = state) [E_PENDING; E_APPROVED; E_DENIED; E_EXPIRED] with
  | Some (_, st) => (200, list_by_state st now db)
  | None => (400, [])
  end.

Definition deny_catches (e : exn) : bool :=
  match e with
  | EscalationNotFoundError | ApproverNotAuthorized _ | EscalationExpired | EscalationNotPending => true
  | e => is_ValueError e
  end.

(** [POST /v1/escalations/{id}/deny]. *)
Definition deny_escalation (approvers : gset pystr) (i : uuid) (approver : option pystr) (reason : pystr)
    (now : Z) (db : escalations_db) : (Z * option Escalation) * escalations_db :=
  match approver with
  | None => ((401, None), db)
  | Some approver =>
      let '(r, db') := resolve_deny i approver approvers now reason db in
      match r with
      | Ok e => ((200, Some e), db')
      | Raise e => ((if deny_catches e then status_for e else 500, None), db')
      end
  end.
