(* ===== verification/EscalationSpec.v ===== *)
(** * What an escalation can grant

    An approval never grants more than was asked, resolves the request once, and
    only while it is open; the table keeps that over any history; a token comes
    out of the route only for such an approval. *)
From S2P Require Import Prelude PyText Errors PyNum PyRe PyUuid Models Caveats Tokens Escalation.

(** ** The rules *)

(** What a grant may be, given the request it answers. *)
Record grant_within (e : Escalation) (g : ElevationGrant) : Prop := {
  gw_id : eg_escalation_id g = es_id e;
  gw_task : eg_task_id g = es_task_id e;
  gw_principal : eg_principal_id g = es_principal_id e;
  gw_agent : eg_agent_id g = es_agent_id e;
  gw_intent : eg_intent_hash g = es_intent_hash e;
  gw_nonempty : eg_scopes g ≠ ∅;
  gw_scopes : eg_scopes g ⊆ es_requested_scopes e;
  gw_amount : dec_leb (eg_amount g) (es_requested_amount e) = true }.

Lemma check_resolvable_Ok e approver authorized now x :
  _check_resolvable e approver authorized now = Ok x →
  approver ∈ authorized ∧ approver ≠ es_principal_id e ∧ state_at e now = E_PENDING
  ∧ es_state e = E_PENDING ∧ now < es_expires_at e.
Proof.
  unfold _check_resolvable, state_at. intros Hc.
  apply bind_Ok_inv in Hc as (? & H1%raise_if_Ok & Hc).
  apply bind_Ok_inv in Hc as (? & H2%raise_if_Ok & Hc).
  apply bind_Ok_inv in Hc as (? & H3%raise_if_Ok & H4%raise_if_Ok).
  apply negb_false_iff in H1, H3. rewrite bool_decide_eq_true in H1, H3.
  rewrite bool_decide_eq_false in H2. rewrite H4, andb_false_r.
  unfold is_expired in H4. apply Z.leb_gt in H4. done.
Qed.

Lemma dec_ltb_leb a b : dec_ltb a b = negb (dec_leb b a).
Proof.
  unfold dec_ltb, dec_leb. rewrite (dec_compare_antisym a b). by destruct (dec_compare a b).
Qed.

Lemma approve_Ok e approver authorized now ttl ns ma r g :
  approve e approver authorized now ttl ns ma = Ok (r, g) →
  approver ∈ authorized ∧ approver ≠ es_principal_id e ∧ state_at e now = E_PENDING
  ∧ grant_within e g ∧ eg_not_before g = now ∧ eg_expires_at g = now + ttl ∧ eg_approved_by g = approver
  ∧ es_state e = E_PENDING
  ∧ r = resolve_with e E_APPROVED approver now (es_resolution_reason e).
Proof.
  unfold approve. intros (x & Hc & Hm)%bind_Ok_inv.
  apply check_resolvable_Ok in Hc as (Ha & Hp & Hs & Hst & _).
  apply bind_Ok_inv in Hm as (? & H1%raise_if_Ok & Hm).
  apply bind_Ok_inv in Hm as (? & H2%raise_if_Ok & Hm).
  apply bind_Ok_inv in Hm as (? & H3%raise_if_Ok & Hm).
  apply bind_Ok_inv in Hm as (ex & Hex & [= <- <-]).
  rewrite bool_decide_eq_false in H1. apply negb_false_iff in H2. rewrite bool_decide_eq_true in H2.
  rewrite dec_ltb_leb in H3. apply negb_false_iff in H3.
  assert (ex = now + ttl) as -> by (revert Hex; unfold dt_add; case_match; congruence).
  split_and!; try done. split; cbn; try done.
  intros x' Hx'. destruct (decide (x' ∈ es_requested_scopes e)) as [|Hn]; [done|].
  assert (x' ∈ default (es_requested_scopes e) ns ∖ es_requested_scopes e) as Hin
    by (by apply elem_of_difference).
  rewrite H2 in Hin. by apply elem_of_empty in Hin.
Qed.

(** An approval grants no more than was asked.  It succeeds only for an
    authorized approver who is not the agent's own principal, while the escalation
    is pending and inside its window; the grant binds the same task, principal,
    agent and intent, its scopes are some of those requested, its amount at most
    the amount requested, and its window is [now, now + ttl].  An approver outside
    the list is told so whatever state the escalation is in. *)
Theorem approval_bounded e approver authorized now ttl ns ma :
  (∀ r g, approve e approver authorized now ttl ns ma = Ok (r, g) →
     approver ∈ authorized ∧ approver ≠ es_principal_id e ∧ state_at e now = E_PENDING
     ∧ grant_within e g ∧ eg_not_before g = now ∧ eg_expires_at g = now + ttl
     ∧ state_at r now = E_APPROVED ∧ es_resolved_by r = Some approver)
  ∧ (approver ∉ authorized →
     approve e approver authorized now ttl ns ma = Raise (ApproverNotAuthorized approver)).
Proof.
  split.
  - intros r g (Ha & Hp & Hs & Hw & Hnb & Hex & _ & _ & ->)%approve_Ok. done.
  - intros Hn. unfold approve, _check_resolvable.
    by rewrite (bool_decide_false (approver ∈ authorized)) by done.
Qed.

(** ** The table *)
Inductive escalation_op :=
| OpCreate (q : escalation_request) (fresh_id : uuid) (now ttl : Z)
| OpApprove (i : uuid) (approver : pystr) (authorized : gset pystr) (now ttl : Z)
    (ns : option (gset pystr)) (ma : option decimal)
| OpDeny (i : uuid) (approver : pystr) (authorized : gset pystr) (now : Z) (reason : pystr).

(** The table, the grants handed out and the denials answered so far. *)
Record escalation_run := mkEscalationRun {
  rn_db : escalations_db; rn_grants : list ElevationGrant; rn_denied : list Escalation }.

Definition escalation_step (s : escalation_run) (op : escalation_op) : escalation_run :=
  match op with
  | OpCreate q i now ttl => mkEscalationRun (create q i now ttl (rn_db s)).2 (rn_grants s) (rn_denied s)
  | OpApprove i approver authorized now ttl ns ma =>
      let '(r, db) := resolve_approve i approver authorized now ttl ns ma (rn_db s) in
      mkEscalationRun db (match r with Ok (_, g) => g :: rn_grants s | Raise _ => rn_grants s end)
        (rn_denied s)
  | OpDeny i approver authorized now reason =>
      let '(r, db) := resolve_deny i approver authorized now reason (rn_db s) in
      mkEscalationRun db (rn_grants s)
        (match r with Ok e => e :: rn_denied s | Raise _ => rn_denied s end)
  end.

Definition run_escalations (ops : list escalation_op) : escalation_run :=
  foldl escalation_step (mkEscalationRun ∅ [] []) ops.

Definition granted (w : EscalationRow) (i : uuid) (g : ElevationGrant) : Prop :=
  ew_state w = E_APPROVED ∧ ew_resolved_by w = Some (eg_approved_by g)
  ∧ grant_within (_to_domain i w) g.

Definition refused (w : EscalationRow) (e : Escalation) : Prop :=
  ew_state w = E_DENIED ∧ ew_resolved_by w = es_resolved_by e
  ∧ ew_resolution_reason w = es_resolution_reason e.

Definition answered (s : escalation_run) : list uuid :=
  (eg_escalation_id <$> rn_grants s) ++ (es_id <$> rn_denied s).

Record run_ok (s : escalation_run) : Prop := {
  ok_grants g : g ∈ rn_grants s →
    ∃ w, rn_db s !! eg_escalation_id g = Some w ∧ granted w (eg_escalation_id g) g;
  ok_denied e : e ∈ rn_denied s → ∃ w, rn_db s !! es_id e = Some w ∧ refused w e;
  ok_once : NoDup (answered s);
  ok_open i w : rn_db s !! i = Some w →
    (ew_state w = E_PENDING ∧ i ∉ answered s) ∨ ew_state w = E_APPROVED ∨ ew_state w = E_DENIED }.

Lemma create_inserts q i now ttl db :
  (create q i now ttl db).2 = db
  ∨ ∃ w, db !! i = None ∧ (create q i now ttl db).2 = <[i := w]> db ∧ ew_state w = E_PENDING.
Proof.
  unfold create. destruct (request_escalation q i now ttl) as [e|x] eqn:Hreq; [|by left].
  destruct (escalation_insert e db) as [db'|x] eqn:Hins; [right|left; by destruct x].
  unfold request_escalation in Hreq.
  apply bind_Ok_inv in Hreq as (? & _ & Hreq). apply bind_Ok_inv in Hreq as (? & _ & Hreq).
  apply bind_Ok_inv in Hreq as (ex & _ & [= <-]).
  unfold escalation_insert in Hins. cbn in Hins.
  apply bind_Ok_inv in Hins as (n & _ & Hins). apply bind_Ok_inv in Hins as (? & _ & Hins).
  apply bind_Ok_inv in Hins as (? & _ & Hins).
  apply bind_Ok_inv in Hins as (? & Hi%raise_if_Ok & Hins).
  apply bind_Ok_inv in Hins as (? & _ & [= <-]).
  rewrite bool_decide_eq_false, <- eq_None_not_Some in Hi. by eexists.
Qed.

Lemma resolve_approve_cases i approver authorized now ttl ns ma db :
  (∃ x, resolve_approve i approver authorized now ttl ns ma db = (Raise x, db))
  ∨ ∃ w r g, db !! i = Some w ∧ ew_state w = E_PENDING ∧ grant_within (_to_domain i w) g
      ∧ eg_approved_by g = approver ∧ approver ∈ authorized
      ∧ r = resolve_with (_to_domain i w) E_APPROVED approver now (ew_resolution_reason w)
      ∧ resolve_approve i approver authorized now ttl ns ma db
        = (Ok (r, g), <[i := write_state w r (ew_resolution_reason w)]> db).
Proof.
  unfold resolve_approve, _load_for_update. destruct (db !! i) as [w|] eqn:Hw; [|left; by eexists].
  cbn [mbind res_bind].
  destruct (approve (_to_domain i w) approver authorized now ttl ns ma) as [[r g]|x] eqn:Ha;
    [right|left; by eexists].
  apply approve_Ok in Ha as (Hin & _ & _ & Hg & _ & _ & Hby & Hst & ->). cbn.
  exists w, (resolve_with (_to_domain i w) E_APPROVED approver now (ew_resolution_reason w)), g.
  done.
Qed.

Lemma resolve_deny_cases i approver authorized now reason db :
  (∃ x, resolve_deny i approver authorized now reason db = (Raise x, db))
  ∨ ∃ w r, db !! i = Some w ∧ ew_state w = E_PENDING
      ∧ r = resolve_with (_to_domain i w) E_DENIED approver now (Some reason)
      ∧ resolve_deny i approver authorized now reason db
        = (Ok r, <[i := write_state w r (Some reason)]> db).
Proof.
  unfold resolve_deny, _load_for_update. destruct (db !! i) as [w|] eqn:Hw; [|left; by eexists].
  cbn [mbind res_bind]. unfold deny.
  destruct (_check_resolvable (_to_domain i w) approver authorized now) as [x|x] eqn:Hc;
    [|left; by eexists].
  apply check_resolvable_Ok in Hc as (_ & _ & _ & Hst & _). cbn [mbind res_bind].
  unfold raise_if. destruct (bool_decide _); [left; by eexists|right]. cbn.
  exists w. by eexists.
Qed.

Lemma escalation_step_ok s op : run_ok s → run_ok (escalation_step s op).
Proof.
  intros [Hg Hd Hn Ho]. destruct op as [q i now ttl|i approver authorized now ttl ns ma|i approver authorized now reason];
    cbn [escalation_step].
  - destruct (create_inserts q i now ttl (rn_db s)) as [-> |(w & Hi & -> & Hw)]; [by split|].
    assert (Hfresh : i ∉ answered s).
    { unfold answered. rewrite elem_of_app, !list_elem_of_fmap. intros [(g & -> & H)|(e & -> & H)].
      - destruct (Hg g H) as (w' & Hw' & _). congruence.
      - destruct (Hd e H) as (w' & Hw' & _). congruence. }
    split; cbn [rn_db rn_grants rn_denied].
    + intros g H. destruct (Hg g H) as (w' & Hw' & ?). exists w'. rewrite lookup_insert_ne; [done|].
      intros ->. congruence.
    + intros e H. destruct (Hd e H) as (w' & Hw' & ?). exists w'. rewrite lookup_insert_ne; [done|].
      intros ->. congruence.
    + done.
    + intros j w'. rewrite lookup_insert_Some. intros [[<- <-]|[_ H]]; [by left|by apply Ho].
  - destruct (resolve_approve_cases i approver authorized now ttl ns ma (rn_db s))
      as [[x ->]|(w & r & g & Hi & Hst & Hw & Hby & _ & -> & ->)]; [by split|].
    destruct (Ho i w Hi) as [[_ Hfresh]|[|]]; [|congruence..].
    pose proof (gw_id _ _ Hw) as Hid. cbn in Hid.
    assert (Hne : ∀ g', g' ∈ rn_grants s → eg_escalation_id g' ≠ i).
    { intros g' H <-. apply Hfresh, elem_of_app. left. by apply list_elem_of_fmap_2. }
    assert (Hne' : ∀ e, e ∈ rn_denied s → es_id e ≠ i).
    { intros e H <-. apply Hfresh, elem_of_app. right. by apply list_elem_of_fmap_2. }
    split; cbn [rn_db rn_grants rn_denied].
    + intros g' [-> | H]%elem_of_cons.
      * rewrite Hid, lookup_insert_eq. eexists. split; [done|]. split_and!; cbn; [done|by rewrite Hby|].
        by destruct Hw; split.
      * rewrite lookup_insert_ne by (symmetry; by apply Hne). by apply Hg.
    + intros e H. rewrite lookup_insert_ne by (symmetry; by apply Hne'). by apply Hd.
    + unfold answered. cbn [rn_grants rn_denied]. rewrite fmap_cons. cbn. rewrite Hid. by constructor.
    + intros j w'. rewrite lookup_insert_Some. intros [[<- <-]|[Hj H]]; [right; by left|].
      destruct (Ho j w' H) as [[? Hj']|?]; [left; split; [done|]|by right].
      unfold answered. cbn. rewrite Hid. rewrite elem_of_cons. intros [?|?]; [congruence|done].
  - destruct (resolve_deny_cases i approver authorized now reason (rn_db s))
      as [[x ->]|(w & r & Hi & Hst & -> & ->)]; [by split|].
    destruct (Ho i w Hi) as [[_ Hfresh]|[|]]; [|congruence..].
    assert (Hne : ∀ g', g' ∈ rn_grants s → eg_escalation_id g' ≠ i).
    { intros g' H <-. apply Hfresh, elem_of_app. left. by apply list_elem_of_fmap_2. }
    assert (Hne' : ∀ e, e ∈ rn_denied s → es_id e ≠ i).
    { intros e H <-. apply Hfresh, elem_of_app. right. by apply list_elem_of_fmap_2. }
    split; cbn [rn_db rn_grants rn_denied].
    + intros g' H. rewrite lookup_insert_ne by (symmetry; by apply Hne). by apply Hg.
    + intros e [-> | H]%elem_of_cons.
      * cbn. rewrite lookup_insert_eq. eexists. split; [done|]. done.
      * rewrite lookup_insert_ne by (symmetry; by apply Hne'). by apply Hd.
    + unfold answered in *. cbn [rn_grants rn_denied]. rewrite fmap_cons. cbn.
      rewrite <- Permutation_middle. by constructor.
    + intros j w'. rewrite lookup_insert_Some. intros [[<- <-]|[Hj H]]; [right; by right|].
      destruct (Ho j w' H) as [[? Hj']|?]; [left; split; [done|]|by right].
      unfold answered in *. cbn [rn_grants rn_denied]. rewrite fmap_cons, <- Permutation_middle. cbn.
      rewrite elem_of_cons. intros [?|?]; [congruence|done].
Qed.

Lemma run_escalations_ok ops : run_ok (run_escalations ops).
Proof.
  unfold run_escalations. assert (H : run_ok (mkEscalationRun ∅ [] [])).
  { split; cbn; [by intros ? ?%not_elem_of_nil..|constructor|]. intros i w. by rewrite lookup_empty. }
  revert H. generalize (mkEscalationRun ∅ [] []). induction ops as [|op ops IH]; intros s Hs; [done|].
  by apply IH, escalation_step_ok.
Qed.

(** C17: an escalation is answered once.  Over any history of requests, approvals
    and denials by anyone, no id is granted or denied twice; every grant handed
    out matches a row that is approved, by the approver it names, and whose request
    contains it; every denial matches a row denied with its reason. *)
Theorem resolved_once ops :
  let s := run_escalations ops in
  NoDup (answered s)
  ∧ (∀ g, g ∈ rn_grants s → ∃ w, rn_db s !! eg_escalation_id g = Some w ∧ granted w (eg_escalation_id g) g)
  ∧ (∀ e, e ∈ rn_denied s → ∃ w, rn_db s !! es_id e = Some w ∧ refused w e).
Proof. destruct (run_escalations_ok ops) as [Hg Hd Hn _]. done. Qed.

(** The queue shows exactly what can be resolved: the pending list at an instant
    holds the escalations whose state is then pending, and whatever the history
    nothing is ever listed as expired, although [state_at] reports it. *)
Theorem pending_queue_exact ops now :
  let db := rn_db (run_escalations ops) in
  (∀ e, e ∈ list_by_state E_PENDING now db ↔
     ∃ i, get i db = Some e ∧ state_at e now = E_PENDING)
  ∧ list_by_state E_EXPIRED now db = [].
Proof.
  intros db. destruct (run_escalations_ok ops) as [_ _ _ Ho]. fold db in Ho. split.
  - intros e. unfold list_by_state. rewrite merge_sort_Permutation, list_elem_of_fmap. split.
    + intros ([i w] & -> & [[Hs Hn] Hi%elem_of_map_to_list]%list_elem_of_filter). cbn [fst snd] in *.
      exists i. unfold get. rewrite Hi. split; [done|]. unfold state_at, is_expired. cbn.
      specialize (Hn eq_refl). rewrite (proj2 (Z.leb_gt _ _)) by done. by rewrite andb_false_r.
    + intros (i & Hi & Hst). unfold get in Hi. destruct (db !! i) as [w|] eqn:Hw; [|done].
      injection Hi as <-. exists (i, w). split; [done|]. apply list_elem_of_filter.
      split; [|by apply elem_of_map_to_list]. cbn [fst snd].
      unfold state_at, is_expired in Hst. cbn in Hst. case_bool_decide as Hp; cbn in Hst; [|congruence].
      split; [done|]. intros _. by destruct (Z.leb_spec (ew_expires_at w) now).
  - unfold list_by_state. destruct (filter _ _) as [|[i w] l] eqn:Hf; [done|]. exfalso.
    assert (Hin : (i, w) ∈ filter (λ p : uuid * EscalationRow, ew_state p.2 = E_EXPIRED
      ∧ (E_EXPIRED = E_PENDING → now < ew_expires_at p.2)) (map_to_list db)) by (rewrite Hf; left).
    apply list_elem_of_filter in Hin as [[Hs _] Hi%elem_of_map_to_list]. cbn in Hs.
    destruct (Ho i w Hi) as [[? _]|[?|?]]; congruence.
Qed.

(** ** The route *)
Lemma money_of_le d n k : money_of d = Ok n → dec_leb d (dec_of_units k) = true → n <= k.
Proof.
  intros [Hu _]%money_of_Ok. unfold dec_units in Hu. unfold dec_leb, dec_compare, dec_of_units. cbn [dcoef dexp].
  destruct (Z.leb_spec 0 (dexp d + 4)) as [He|He].
  - injection Hu as <-. rewrite Z.min_r, Z.sub_diag, Z.mul_1_r by lia.
    replace (dexp d - -4) with (dexp d + 4) by lia. destruct (Z.compare_spec (dcoef d * 10 ^ (dexp d + 4)) k); intros; lia || done.
  - destruct (Z.eqb_spec (dcoef d mod 10 ^ (- (dexp d + 4))) 0) as [Hm|]; [|done]. injection Hu as <-.
    rewrite Z.min_l, Z.sub_diag, Z.mul_1_r by lia.
    replace (-4 - dexp d) with (- (dexp d + 4)) by lia.
    assert (0 < 10 ^ (- (dexp d + 4))) as Hp by (apply Z.pow_pos_nonneg; lia).
    set (p := 10 ^ (- (dexp d + 4))) in *. clearbody p.
    pose proof (Z.div_mod (dcoef d) p ltac:(lia)) as E. rewrite Hm in E.
    destruct (Z.compare_spec (dcoef d) (k * p)); intros; try done; nia.
Qed.

Section route.
Context `{BiscuitLib}.

(** C16: no token without an open request and an approver.  When the approve route
    answers with a token, the session's principal is an approver and not the
    agent's own, the escalation was pending and in its window, the token is the one
    minted for a mandate of the same task, principal and intent whose scopes are
    among those requested and whose spend is at most the amount requested, valid
    from now for the given time, and the row is approved. *)
Theorem elevation_within_request s i approver ttl_s ns ma fresh_id now db token g db' :
  approve_escalation s i approver ttl_s ns ma fresh_id now db = (Elevated token g, db') →
  ∃ who w m ttl, approver = Some who ∧ who ∈ el_approvers s ∧ ttl_s = Some ttl
    ∧ db !! i = Some w ∧ who ≠ ew_principal_id w ∧ state_at (_to_domain i w) now = E_PENDING
    ∧ mint_root m (el_root_private_key s) = Ok token
    ∧ m_task_id m = ew_task_id w ∧ m_principal_id m = ew_principal_id w
    ∧ m_intent_hash m = ew_intent_hash w
    ∧ m_scopes m ⊆ list_to_set (ew_requested_scopes w)
    ∧ spend_bdt (m_budget m) <= ew_requested_amount w
    ∧ m_not_before m = now ∧ m_expires_at m = now + ttl ∧ 0 < ttl
    ∧ (ew_state <$> db' !! i) = Some E_APPROVED.
Proof.
  unfold approve_escalation. destruct approver as [who|]; [|done].
  destruct (match ma with Some a => _ | None => false end); [done|].
  destruct (_seconds ttl_s) as [ttl|x] eqn:Httl; [|done].
  destruct ttl_s as [t|]; [|done]. injection Httl as ->.
  unfold resolve_approve, _load_for_update. destruct (db !! i) as [w|] eqn:Hw; [|done].
  cbn [mbind res_bind].
  destruct (approve (_to_domain i w) who (el_approvers s) now ttl ns ma) as [[r gr]|x] eqn:Ha; [|done].
  cbn [mbind res_bind fst snd].
  destruct (elevation_mandate s fresh_id gr) as [m|x] eqn:Hm; cbn [mbind res_bind];
    [|by destruct x].
  destruct (mint_root m (el_root_private_key s)) as [tok|x] eqn:Hmint; [|by destruct x].
  intros [= -> <- <-]. apply approve_Ok in Ha as (Hin & Hp & Hst & Hg & Hnb & Hex & _ & _ & ->).
  unfold elevation_mandate in Hm. apply bind_Ok_inv in Hm as (b & Hb & Hm).
  unfold mk_Budget in Hb. apply bind_Ok_inv in Hb as (sp & Hsp & Hb). cbn in Hb. injection Hb as <-.
  unfold mk_Mandate in Hm. cbn [aware dt_aware dt_us] in Hm.
  apply bind_Ok_inv in Hm as (p & Hpl & Hm). apply bind_Ok_inv in Hm as (h & Hh & Hm).
  apply bind_Ok_inv in Hm as (sc & Hsc & Hm). apply bind_Ok_inv in Hm as (? & _ & Hm).
  cbn [mbind res_bind] in Hm. apply bind_Ok_inv in Hm as (? & Hwin%raise_if_Ok & [= <-]).
  apply check_hex64_Ok in Hh as [-> _]. apply check_scopes_Ok in Hsc as [-> _].
  assert (p = eg_principal_id gr) as ->.
  { unfold validated in Hpl. destruct (validate_label _) as [q|] eqn:Hv; [|done].
    injection Hpl as <-. unfold validate_label in Hv. by inv_ok. }
  apply Z.leb_gt in Hwin.
  exists who, w. eexists. exists ttl. split_and!; try done; cbn; try apply Hg; try lia.
  - apply (money_of_le _ _ _ Hsp). apply (gw_amount _ _ Hg).
  - by rewrite lookup_insert_eq.
Qed.
End route.

Section witnesses.
#[local] Existing Instance toy_lib.

Definition demo_request : escalation_request :=
  mkEscalationRequest 1 2 (u "payer") (u "user:1") (repeat 97 64) {[u "invoice:pay"; u "invoice:read"]}
    (Dec 50000 (-2)) (u "over the limit").
Definition demo_ops : list escalation_op := [OpCreate demo_request 7 100 900].
Definition demo_queue : escalations_db := rn_db (run_escalations demo_ops).
Definition demo_settings : elevation_settings :=
  mkElevationSettings {[u "kc:alice"; u "kc:bob"]} 1 7.

Lemma approval_bounded_witness :
  ∃ r g, approve (mkEscalation 7 1 2 (u "payer") (u "user:1") [] {[u "a:b"]} (Dec 5 0) [] 0 900 E_PENDING None None None)
           (u "kc:alice") {[u "kc:alice"]} 100 300 None (Some (Dec 3 0)) = Ok (r, g)
    ∧ dec_leb (eg_amount g) (Dec 5 0) = true ∧ state_at r 100 = E_APPROVED.
Proof.
  do 2 eexists. split; [vm_compute; reflexivity|].
  set (e := mkEscalation 7 1 2 (u "payer") (u "user:1") [] {[u "a:b"]} (Dec 5 0) [] 0 900 E_PENDING None None None).
  destruct (approval_bounded e (u "kc:alice") {[u "kc:alice"]} 100 300 None (Some (Dec 3 0))) as [H _].
  destruct (H _ _ eq_refl) as (_ & _ & _ & Hg & _ & _ & Hst & _). split; [apply Hg|exact Hst].
Defined.

(** An approval the route accepts, and the token it answers with. *)
Lemma elevation_within_request_witness :
  match approve_escalation demo_settings 7 (Some (u "kc:alice")) (Some 300) (Some {[u "invoice:read"]})
          (Some (Dec 100 0)) 9 200 demo_queue with
  | (Elevated token g, db') => (ew_state <$> db' !! 7%N) = Some E_APPROVED
  | _ => False
  end.
Proof.
  destruct (approve_escalation demo_settings 7 (Some (u "kc:alice")) (Some 300) (Some {[u "invoice:read"]})
          (Some (Dec 100 0)) 9 200 demo_queue) as [[token g|st] db'] eqn:E; [|vm_compute in E; discriminate].
  destruct (elevation_within_request _ _ _ _ _ _ _ _ _ _ _ _ E) as (who & w & m & ttl & H).
  apply H.
Defined.

(** The approval is committed before the mandate is built: with a window of no
    length the mandate is refused, the route answers 500 and mints nothing, and the
    escalation is spent, so the next attempt is a conflict. *)
Theorem approval_spent_without_token :
  let first := approve_escalation demo_settings 7 (Some (u "kc:alice")) (Some 0) None None 9 200 demo_queue in
  let second := approve_escalation demo_settings 7 (Some (u "kc:bob")) (Some 300) None None 9 210 first.2 in
  first.1 = Refused 500 ∧ (ew_state <$> first.2 !! 7%N) = Some E_APPROVED ∧ second.1 = Refused 409.
Proof. split_and!; vm_compute; reflexivity. Qed.

(** A caller outside the approvers can tell an id that exists from one that does not. *)
Theorem outsider_learns_existence :
  (approve_escalation demo_settings 7 (Some (u "kc:eve")) (Some 300) None None 9 200 demo_queue).1 = Refused 403
  ∧ (approve_escalation demo_settings 8 (Some (u "kc:eve")) (Some 300) None None 9 200 demo_queue).1 = Refused 404.
Proof. split; vm_compute; reflexivity. Qed.

(** An approval may grant a negative amount. *)
Theorem negative_amount_approved :
  ∃ r g, approve (mkEscalation 7 1 2 (u "payer") (u "user:1") [] {[u "a:b"]} (Dec 5 0) [] 0 900 E_PENDING None None None)
           (u "kc:alice") {[u "kc:alice"]} 100 300 None (Some (Dec (-3) 0)) = Ok (r, g)
    ∧ dec_ltb (eg_amount g) (Dec 0 0) = true.
Proof. do 2 eexists. split; vm_compute; reflexivity. Qed.
End witnesses.
