(* ===== verification/Bundles.v ===== *)
(** * Signed policy bundles (agentiam_core/bundles.py)

    What the control plane publishes and the PEP caches: the record, the bytes a
    signature covers, signing and verifying, and the hexadecimal form of a public
    key.  Ed25519 itself is third-party code: [Ed25519] states what the program
    relies on.  [signature_covers] is the reason the payload is canonical JSON. *)
From S2P Require Import Prelude PyText Errors PyNum PyTime PyRe PyUuid PySha Models Hashing HashingSpec.

(** The key objects of [cryptography], with [verify] as the answer it gives:
    [false] is its [InvalidSignature]. *)
Class Ed25519 := {
  private_key : Type;
  public_key : Type;
  public_key_of : private_key → public_key;
  key_sign : private_key → list Z → list Z;
  key_verify : public_key → list Z → list Z → bool;
  key_verify_sign k m : key_verify (public_key_of k) (key_sign k m) m = true;
  public_bytes_raw : public_key → list Z;
  from_public_bytes : list Z → public_key;
  public_bytes_length p : length (public_bytes_raw p) = 32%nat;
  public_bytes_range p : Forall (λ b, 0 <= b < 256) (public_bytes_raw p);
  public_bytes_from p : from_public_bytes (public_bytes_raw p) = p }.

(** [tools] is the resource catalogue, opaque here: names and whatever they map to. *)
Record PolicyBundle := mkPolicyBundle {
  pb_version : pystr;
  pb_cedar_source : pystr;
  pb_serial : Z;
  pb_entity_schema : option pystr;
  pb_created_at : option datetime;
  pb_tools : option (list (pystr * value)) }.

Section bundles.
Context {UN : Unicode} {ST : SortTies} {KEYS : Ed25519}.

Definition nullable {A} (f : A → value) (o : option A) : value :=
  match o with Some a => f a | None => VNone end.

Definition signing_body (created_at : option datetime → value) (bundle : PolicyBundle) : value :=
  VMap [(u "serial", VInt (pb_serial bundle));
        (u "version", VStr (pb_version bundle));
        (u "cedar_source", VStr (pb_cedar_source bundle));
        (u "entity_schema", nullable VStr (pb_entity_schema bundle));
        (u "created_at", created_at (pb_created_at bundle));
        (u "tools", nullable VMap (pb_tools bundle))].

Definition signing_payload (bundle : PolicyBundle) : py (list Z) :=
  canonical_json (signing_body (nullable VDatetime) bundle).

Definition sign_bundle (bundle : PolicyBundle) (k : private_key) : py (list Z) :=
  key_sign k <$> signing_payload bundle.

(** The payload is an argument of [verify]: what it raises comes first, and is not
    [InvalidSignature]. *)
Definition verify_bundle (bundle : PolicyBundle) (signature : list Z) (k : public_key) : py unit :=
  payload ← signing_payload bundle;
  raise_if (negb (key_verify k signature payload)) BundleSignatureError.

(** ** Keys in configuration *)
Definition public_key_to_hex (k : public_key) : pystr :=
  public_bytes_raw k ≫= λ b, [hex_digit (b / 16); hex_digit (b mod 16)].

Definition ascii_space (c : Z) : bool := (c =? 32) || ((9 <=? c) && (c <=? 13)).
Definition hex_value (c : Z) : option Z :=
  if is_digit c then Some (c - 48)
  else if rng 97 102 c then Some (c - 87)
  else if rng 65 70 c then Some (c - 55) else None.

(** [bytes.fromhex]: pairs of digits, whitespace between them; [None] is [ValueError]. *)
Fixpoint fromhex (s : pystr) : option (list Z) :=
  match s with
  | [] => Some []
  | c :: r =>
      if ascii_space c then fromhex r else
      match r with
      | [] => None
      | d :: r => h ← hex_value c; l ← hex_value d; (λ t, 16 * h + l :: t) <$> fromhex r
      end
  end.

Definition public_key_from_hex (text : pystr) : py public_key :=
  match fromhex (py_strip text) with
  | None => Raise BundleSignatureError
  | Some raw =>
      raise_if (negb (Nat.eqb (length raw) 32)) BundleSignatureError;;
      Ok (from_public_bytes raw)
  end.
End bundles.
