(* ===== verification/BundlesSpec.v ===== *)
(** * What a bundle signature covers

    Signing then verifying succeeds, a pasted key is the key that was printed, and
    two bundles share the signed bytes exactly when they agree on every field: text
    up to its normalization form, the creation instant to the second, the catalogue
    as a mapping. *)
From S2P Require Import Prelude PyText Errors PyNum PyTime PyRe PyUuid PySha Models Hashing HashingSpec Bundles.

Section bundles_spec.
Context {UN : Unicode} {ST : SortTies} {KEYS : Ed25519}.

(** ** Instants as text *)
Definition four_digit_year (t : Z) : Prop :=
  let '(y, _, _) := ord2ymd (t / secs_per_day + 1) in 1000 <= y <= 9999.

Lemma date_text_inj s t :
  four_digit_year s → four_digit_year t → date_text s = date_text t → s = t.
Proof.
  intros Hs Ht E. pose proof (parse_date_text_roundtrip s) as Rs.
  pose proof (parse_date_text_roundtrip t) as Rt. unfold four_digit_year in *.
  destruct (ord2ymd (s / _ + 1)) as [[ys ?] ?], (ord2ymd (t / _ + 1)) as [[yt ?] ?].
  specialize (Rs Hs). specialize (Rt Ht). congruence.
Qed.

Lemma date_text_ascii t :
  four_digit_year t → forallb (λ c, (0 <=? c) && (c <? 128)) (date_text t) = true.
Proof.
  unfold four_digit_year, date_text. pose proof (ord2ymd_spec (t / secs_per_day)) as Hspec.
  destruct (ord2ymd _) as [[y m] d]. intros Hy. destruct Hspec as (_ & Hm & Hd & _).
  pose proof (days_in_month_le y m) as Hd31.
  pose proof (Z.mod_pos_bound t secs_per_day ltac:(done)) as Hs.
  remember (t mod secs_per_day) as s eqn:E. clear E. unfold secs_per_day in Hs.
  unfold four, two. rewrite !forallb_app. cbn [forallb u chr].
  rewrite !andb_true_iff, ?Z.leb_le, ?Z.ltb_lt.
  split_and!; try done; Z.to_euclidean_division_equations; lia.
Qed.

(** The creation instant, as the text that is signed. *)
Definition created_text (o : option datetime) : value :=
  match o with
  | Some t => if dt_aware t then VStr (date_text (dt_us t / 1000000)) else VOther
  | None => VNone
  end.

Definition created_ok (o : option datetime) : Prop :=
  match o with Some t => four_digit_year (dt_us t / 1000000) | None => True end.

Lemma encode_created o : created_ok o → _encode (nullable VDatetime o) = _encode (created_text o).
Proof.
  destruct o as [t|]; [|done]. cbn [nullable created_text _encode created_ok]. unfold _encode_datetime.
  by destruct (dt_aware t).
Qed.

Definition body_keys : list pystr :=
  [u "serial"; u "version"; u "cedar_source"; u "entity_schema"; u "created_at"; u "tools"].

Lemma body_keys_distinct : NoDup (_normalize <$> body_keys).
Proof.
  cbn [fmap list_fmap body_keys]. rewrite !_normalize_ascii by (vm_compute; reflexivity).
  apply (bool_decide_unpack (NoDup body_keys)). vm_compute. exact I.
Qed.

(** The signed bytes are those of a value of JSON shape. *)
Lemma payload_text b :
  created_ok (pb_created_at b) →
  signing_payload b = canonical_json (signing_body created_text b).
Proof.
  intros Hc. unfold signing_payload, canonical_json. f_equal.
  unfold signing_body. rewrite !encode_map, !sorted_items_nodup by exact body_keys_distinct.
  cbn [fmap list_fmap encoded fst snd]. unfold encoded. cbn [fst snd].
  by rewrite (encode_created _ Hc).
Qed.

(** ** What the bytes determine *)
Definition same_text (s t : pystr) : Prop := _normalize s = _normalize t.

Definition same_opt {A} (R : A → A → Prop) (o p : option A) : Prop :=
  match o, p with Some a, Some b => R a b | None, None => True | _, _ => False end.

Definition same_second (s t : datetime) : Prop := dt_us s / 1000000 = dt_us t / 1000000.

Record same_bundle (b c : PolicyBundle) : Prop := SameBundle {
  same_serial : pb_serial b = pb_serial c;
  same_version : same_text (pb_version b) (pb_version c);
  same_source : same_text (pb_cedar_source b) (pb_cedar_source c);
  same_schema : same_opt same_text (pb_entity_schema b) (pb_entity_schema c);
  same_created : same_opt same_second (pb_created_at b) (pb_created_at c);
  same_tools : same_opt (λ l k, same (VMap l) (VMap k)) (pb_tools b) (pb_tools c) }.

(** Text of code points, a catalogue of JSON values, an instant [strftime] writes
    with four digits of year. *)
Definition bundle_ok (b : PolicyBundle) : Prop :=
  forallb is_code (pb_version b) = true ∧ forallb is_code (pb_cedar_source b) = true
  ∧ json_ok (nullable VStr (pb_entity_schema b)) = true
  ∧ json_ok (nullable VMap (pb_tools b)) = true ∧ created_ok (pb_created_at b)
  ∧ (∀ t, pb_created_at b = Some t → dt_aware t = true).

Lemma body_json_ok b : bundle_ok b → json_ok (signing_body created_text b) = true.
Proof.
  intros (Hv & Hs & He & Ht & Hc & Ha). unfold signing_body. cbn [json_ok forallb fst snd].
  rewrite Hv, Hs, He, Ht.
  assert (json_ok (created_text (pb_created_at b)) = true) as ->.
  { destruct (pb_created_at b) as [t|]; [|done]. cbn [created_text].
    rewrite (Ha t eq_refl). cbn [json_ok].
    pose proof (date_text_ascii _ Hc) as Hd. rewrite !forallb_forall in *. intros c Hin.
    specialize (Hd c Hin). unfold is_code. zify_bool. rewrite andb_true_iff. split; zify_bool; lia. }
  rewrite (bool_decide_true _ body_keys_distinct). by vm_compute.
Qed.

(** Mappings over the same distinct keys, in the same order, agree entry by entry. *)
Lemma same_map_inv l k :
  l.*1 = k.*1 → same (VMap l) (VMap k) → Forall2 (λ p q, same p.2 q.2) l k.
Proof.
  intros Hk Hs. inversion Hs as [| | | | | | | |? ? k' Hnd Hp HF| |]; subst.
  apply Forall2_lookup. intros i. destruct (l !! i) as [p|] eqn:Hi.
  - assert (length l = length k) as Hlen by (rewrite <- (length_fmap fst l), Hk; apply length_fmap).
    destruct (lookup_lt_is_Some_2 k i) as [q Hq].
    { rewrite <- Hlen. by eapply lookup_lt_Some. }
    rewrite Hq. constructor.
    destruct (Forall2_lookup_l _ _ _ _ _ HF Hi) as (q' & Hq' & En & Sv).
    assert (q' = q) as ->; [|done].
    assert (In : ∀ x, x ∈ k → (_normalize x.1, x) ∈ (λ x, (_normalize x.1, x)) <$> k).
    { intros x Hx. by apply (list_elem_of_fmap_2 (λ x, (_normalize x.1, x))). }
    enough ((_normalize q'.1, q') = (_normalize q.1, q)) by congruence.
    apply (NoDup_keys_inj ((λ x, (_normalize x.1, x)) <$> k)).
    + rewrite <- list_fmap_compose. change (NoDup (_normalize ∘ fst <$> k)).
      rewrite (list_fmap_compose fst _normalize k), <- Hk. exact Hnd.
    + apply In. rewrite <- Hp. by eapply list_elem_of_lookup_2.
    + apply In. by eapply list_elem_of_lookup_2.
    + cbn [fst]. rewrite <- En. f_equal.
      assert (E : l.*1 !! i = k.*1 !! i) by by rewrite Hk.
      rewrite !list_lookup_fmap, Hi, Hq in E. by injection E.
  - assert (length l = length k) as Hlen by (rewrite <- (length_fmap fst l), Hk; apply length_fmap).
    rewrite (lookup_ge_None_2 k i); [constructor|]. rewrite <- Hlen. by apply lookup_ge_None.
Qed.

Lemma same_nullable_text o p :
  same (nullable VStr o) (nullable VStr p) ↔ same_opt same_text o p.
Proof.
  destruct o as [s|], p as [t|]; cbn [nullable same_opt]; split; intros H;
    try done; try (by inversion H); by constructor.
Qed.

Lemma same_nullable_map o p :
  same (nullable VMap o) (nullable VMap p) ↔ same_opt (λ l k, same (VMap l) (VMap k)) o p.
Proof.
  destruct o as [s|], p as [t|]; cbn [nullable same_opt]; split; intros H;
    try done; try (by inversion H); by constructor.
Qed.

Lemma same_created_text o p :
  created_ok o → created_ok p →
  (∀ t, o = Some t → dt_aware t = true) → (∀ t, p = Some t → dt_aware t = true) →
  same (created_text o) (created_text p) ↔ same_opt same_second o p.
Proof.
  intros Ho Hp Ao Ap. destruct o as [s|], p as [t|]; cbn [created_text same_opt];
    rewrite ?(Ao _ eq_refl), ?(Ap _ eq_refl); split; intros H; try done; try (by inversion H).
  - inversion H as [| | | |? ? E| | | | | |]; subst.
    rewrite !_normalize_ascii in E by by apply date_text_ascii. by apply date_text_inj.
  - unfold same_second in H. rewrite H. by constructor.
  - constructor.
Qed.

Lemma same_body b c :
  bundle_ok b → bundle_ok c →
  same (signing_body created_text b) (signing_body created_text c) ↔ same_bundle b c.
Proof.
  intros (_ & _ & _ & _ & Hcb & Hab) (_ & _ & _ & _ & Hcc & Hac). split.
  - intros H%same_map_inv; [|done].
    apply Forall2_cons in H as [H1 H], H as [H2 H], H as [H3 H], H as [H4 H], H as [H5 H], H as [H6 _].
    cbn [snd] in *. constructor.
    + by inversion H1.
    + by inversion H2.
    + by inversion H3.
    + by apply same_nullable_text.
    + by apply same_created_text.
    + by apply same_nullable_map.
  - intros [H1 H2 H3 H4 H5 H6]. eapply same_map; [exact body_keys_distinct|reflexivity|].
    rewrite H1. repeat (apply Forall2_cons; split; [split; [done|cbn [snd]]|]); [..|constructor].
    + constructor.
    + by constructor.
    + by constructor.
    + by apply same_nullable_text.
    + by apply same_created_text.
    + by apply same_nullable_map.
Qed.

(** ** Properties *)

(** A signature covers every field.  Two well-formed bundles have the same signed
    bytes exactly when they agree on serial, version, source, schema, creation instant
    and catalogue, text being compared after normalization and instants to the second. *)
Theorem signature_covers b c m n :
  bundle_ok b → bundle_ok c → signing_payload b = Ok m → signing_payload c = Ok n →
  m = n ↔ same_bundle b c.
Proof.
  intros Hb Hc Hm Hn. rewrite payload_text in Hm by apply Hb. rewrite payload_text in Hn by apply Hc.
  rewrite <- (same_body b c Hb Hc). split.
  - intros <-. by apply (canonical_json_reads _ _ m (body_json_ok _ Hb) (body_json_ok _ Hc)).
  - intros Hs. pose proof (canonical_json_same _ _ _ Hs Hm). congruence.
Qed.

(** What was signed verifies under the signer's key. *)
Lemma signed_verifies b k s :
  sign_bundle b k = Ok s → verify_bundle b s (public_key_of k) = Ok tt.
Proof.
  unfold sign_bundle, verify_bundle. intros (m & -> & ->)%fmap_Ok_inv.
  cbn [mbind res_bind]. by rewrite key_verify_sign.
Qed.

(** ** Keys in configuration *)
Lemma hex_digit_facts n :
  0 <= n < 16 →
  hex_value (hex_digit n) = Some n ∧ ascii_space (hex_digit n) = false
  ∧ is_space (hex_digit n) = false.
Proof.
  intros Hn. assert (Hall : all_below (λ n, bool_decide (hex_value (hex_digit n) = Some n)
    && negb (ascii_space (hex_digit n)) && negb (is_space (hex_digit n))) 16 0 = true)
    by (vm_compute; reflexivity).
  pose proof (all_below_spec _ _ _ Hall n ltac:(lia)) as H. cbv beta in H.
  rewrite !andb_true_iff, !negb_true_iff in H. destruct H as [[H%bool_decide_eq_true ?] ?]. done.
Qed.

Lemma fromhex_bytes l :
  Forall (λ b, 0 <= b < 256) l →
  fromhex (l ≫= λ b, [hex_digit (b / 16); hex_digit (b mod 16)]) = Some l.
Proof.
  induction 1 as [|b l Hb _ IH]; [done|]. rewrite bind_cons. cbn [app fromhex].
  destruct (hex_digit_facts (b / 16)) as (H1 & H2 & _).
  { split; [apply Z.div_pos; lia|apply Z.div_lt_upper_bound; lia]. }
  destruct (hex_digit_facts (b mod 16)) as (H3 & _ & _); [apply Z.mod_pos_bound; lia|].
  rewrite H2, H1, H3. cbn [mbind option_bind]. rewrite IH. cbn [fmap option_fmap option_map].
  do 2 f_equal. rewrite <- (Z.div_mod b 16) by lia. done.
Qed.

Lemma drop_while_none p s : forallb (λ c, negb (p c)) s = true → drop_while p s = s.
Proof. destruct s as [|c s]; [done|]. simpl. by intros [->%negb_true_iff _]%andb_true_iff. Qed.

Lemma strip_none s : forallb (λ c, negb (is_space c)) s = true → py_strip s = s.
Proof.
  intros H. unfold py_strip. rewrite (drop_while_none _ s H), drop_while_none, reverse_involutive; [done|].
  rewrite forallb_forall in *. intros c Hc. apply H. by rewrite <- list_elem_of_In, elem_of_reverse, list_elem_of_In in *.
Qed.

(** A key printed for a configuration file reads back as the same key. *)
Theorem key_hex_roundtrip k : public_key_from_hex (public_key_to_hex k) = Ok k.
Proof.
  unfold public_key_from_hex, public_key_to_hex.
  pose proof (public_bytes_range k) as Hr. rewrite strip_none.
  - rewrite (fromhex_bytes _ Hr), public_bytes_length. cbn [Nat.eqb negb raise_if mbind res_bind].
    by rewrite public_bytes_from.
  - rewrite forallb_forall. intros c Hc. apply list_elem_of_In, list_elem_of_bind in Hc as (b & Hc & Hb).
    rewrite Forall_forall in Hr. specialize (Hr b Hb).
    assert (0 <= b / 16 < 16) as H1.
    { split; [apply Z.div_pos; lia|apply Z.div_lt_upper_bound; lia]. }
    pose proof (Z.mod_pos_bound b 16 ltac:(lia)) as H2.
    rewrite !elem_of_cons, elem_of_nil in Hc.
    destruct Hc as [->|[->|[]]].
    + by rewrite (proj2 (proj2 (hex_digit_facts _ H1))).
    + by rewrite (proj2 (proj2 (hex_digit_facts _ H2))).
Qed.
End bundles_spec.

(** ** Concrete keys *)
Definition echo_keys : Ed25519.
Proof.
  refine {| private_key := unit; public_key := unit; public_key_of _ := tt;
            key_sign _ m := m; key_verify _ s m := bool_decide (s = m);
            public_bytes_raw _ := repeat 171 32; from_public_bytes _ := tt |}.
  - intros _ m. by apply bool_decide_true.
  - done.
  - intros _. by repeat constructor.
  - by intros [].
Defined.

#[local] Existing Instance identity_unicode.
#[local] Existing Instance position_order.
#[local] Existing Instance echo_keys.

Definition demo_bundle (source : string) (serial us : Z) : PolicyBundle :=
  mkPolicyBundle (u "bundle-1") (u source) serial None
    (Some (DT (63900000000 * 1000000 + us) true))
    (Some [(u "pay", VMap [(u "sensitivity", VStr (u "high"))])]).

Lemma signature_covers_witness :
  signing_payload (demo_bundle "permit" 1 0) = signing_payload (demo_bundle "permit" 1 7)
  ∧ same_bundle (demo_bundle "permit" 1 0) (demo_bundle "permit" 1 7).
Proof.
  assert (E : ∃ m, signing_payload (demo_bundle "permit" 1 0) = Ok m
                   ∧ signing_payload (demo_bundle "permit" 1 7) = Ok m).
  { eexists. split; vm_compute; reflexivity. }
  destruct E as (m & H0 & H7). split; [by rewrite H0, H7|].
  refine (proj1 (signature_covers _ _ m m _ _ H0 H7) eq_refl).
  - unfold bundle_ok, created_ok, four_digit_year. split_and!;
      lazymatch goal with |- ∀ _, _ => by intros t [= <-] | |- _ => vm_compute; try (split; congruence); reflexivity end.
  - unfold bundle_ok, created_ok, four_digit_year. split_and!;
      lazymatch goal with |- ∀ _, _ => by intros t [= <-] | |- _ => vm_compute; try (split; congruence); reflexivity end.
Defined.
