(* ===== verification/PyUuidSpec.v ===== *)
(** * A UUID's text reads back

    [UUID(str(i))] is [i]: mandate, task and agent ids survive every token, record and file
    they are written into. *)
From S2P Require Import Prelude PyText Errors PyNum PyTime PyRe PyUuid Models Hashing Bundles BundlesSpec.

(** ** Hexadecimal text *)
Definition uuid_char (c : Z) : bool := rng 48 57 c || rng 97 102 c.

Lemma hex_digit_char d :
  0 <= d < 16 → uuid_char (hex_digit d) = true ∧ base_digit 16 (hex_digit d) = Some d.
Proof.
  intros Hd. assert (Hall : all_below (λ d, uuid_char (hex_digit d)
    && bool_decide (base_digit 16 (hex_digit d) = Some d)) 16 0 = true) by (vm_compute; reflexivity).
  pose proof (all_below_spec _ _ _ Hall d ltac:(lia)) as H. cbv beta in H.
  by apply andb_prop in H as [? ?%bool_decide_eq_true].
Qed.

Lemma hex_digits_chars k n : forallb uuid_char (hex_digits k n) = true ∧ length (hex_digits k n) = k.
Proof.
  revert n. induction k as [|k IH]; intros n; [done|]. destruct (IH (n / 16)) as [Hc Hl].
  cbn [hex_digits]. rewrite forallb_app, length_app, Hc, Hl. cbn [forallb length].
  rewrite (proj1 (hex_digit_char _ (Z.mod_pos_bound n 16 ltac:(lia)))). split; [done|lia].
Qed.

Lemma uuid_char_not c d : uuid_char c = true → uuid_char d = false → c ≠ d.
Proof. intros Hc Hd ->. congruence. Qed.

Lemma base_digits_hex k n : ∀ s acc after,
  0 <= n → base_digits 16 (hex_digits k n ++ s) acc after
  = base_digits 16 s (acc * 16 ^ Z.of_nat k + n mod 16 ^ Z.of_nat k) (match k with O => after | _ => true end).
Proof.
  revert n. induction k as [|k IH]; intros n s acc after Hn.
  - cbn [hex_digits app]. f_equal. change (16 ^ Z.of_nat 0) with 1. rewrite Z.mod_1_r. lia.
  - cbn [hex_digits]. rewrite <- app_assoc, IH by (apply Z.div_pos; lia). cbn [app].
    destruct (hex_digit_char (n mod 16)) as [Hc Hd]; [apply Z.mod_pos_bound; lia|].
    assert (Hstep : ∀ c v s acc after, uuid_char c = true → base_digit 16 c = Some v →
              base_digits 16 (c :: s) acc after = base_digits 16 s (16 * acc + v) true).
    { intros c v s' acc' after' Hu Hv. pose proof (uuid_char_not c 95 Hu eq_refl). cbn [base_digits].
      rewrite Hv. repeat (match goal with |- context [match ?x with _ => _ end] => is_var x; destruct x; try done end). }
    rewrite (Hstep _ _ _ _ _ Hc Hd). f_equal. rewrite Nat2Z.inj_succ, Z.pow_succ_r by lia.
    rewrite (Z.rem_mul_r n 16 (16 ^ Z.of_nat k)) by (try apply Z.pow_nonzero; lia). lia.
Qed.

(** ** Removing and stripping *)
Lemma remove_all_none p c0 fuel s :
  head p = Some c0 → Forall (λ c, c ≠ c0) s → remove_all fuel p s = s.
Proof.
  intros Hp Hs. destruct p as [|p0 p]; [done|]. injection Hp as ->. revert fuel.
  induction Hs as [|c s Hc _ IH]; intros [|fuel]; [done..|]. cbn [remove_all strip_prefix].
  destruct (Z.eqb_spec c0 c); [congruence|]. by rewrite IH.
Qed.

Lemma remove_all_char c0 fuel s :
  (length s < fuel)%nat → remove_all fuel [c0] s = filter (λ c, c ≠ c0) s.
Proof.
  revert s. induction fuel as [|fuel IH]; intros s Hl; [lia|]. destruct s as [|c s]; [done|].
  cbn [remove_all strip_prefix]. cbn [length] in Hl. rewrite filter_cons.
  destruct (Z.eqb_spec c0 c) as [<-|Hne].
  - rewrite decide_False by (intros H; by apply H). apply IH. lia.
  - rewrite decide_True by congruence. f_equal. apply IH. lia.
Qed.

(** ** The text of a UUID *)
Definition uuid_or_dash (c : Z) : bool := uuid_char c || (c =? 45).

Lemma uuid_text_chars i : forallb uuid_or_dash (uuid_text i) = true.
Proof.
  unfold uuid_text. set (h := hex_digits 32 (Z.of_N i)).
  assert (Hh : forallb uuid_or_dash h = true).
  { destruct (hex_digits_chars 32 (Z.of_N i)) as [Hc _]. fold h in Hc. rewrite forallb_forall in Hc |- *.
    intros c Hin. unfold uuid_or_dash. by rewrite (Hc c Hin). }
  assert (Hsub : ∀ a b, forallb uuid_or_dash (take a (drop b h)) = true).
  { intros a b. rewrite forallb_forall in Hh |- *. intros c Hc. apply Hh.
    apply list_elem_of_In. apply list_elem_of_In in Hc. by eapply subseteq_drop, subseteq_take. }
  rewrite !forallb_app. specialize (Hsub 8%nat 0%nat) as H0. change (drop 0 h) with h in H0. rewrite H0, !Hsub.
  replace (drop 20 h) with (take 32 (drop 20 h)); [by rewrite Hsub|].
  apply take_ge. rewrite length_drop. unfold h. rewrite (proj2 (hex_digits_chars _ _)). lia.
Qed.

Lemma uuid_text_digits i : filter (λ c : Z, c ≠ 45) (uuid_text i) = hex_digits 32 (Z.of_N i).
Proof.
  unfold uuid_text. set (h := hex_digits 32 (Z.of_N i)).
  assert (Hall : Forall (λ c, c ≠ 45) h).
  { destruct (hex_digits_chars 32 (Z.of_N i)) as [Hc _]. fold h in Hc. rewrite forallb_forall in Hc.
    apply Forall_forall. intros c Hin. eapply uuid_char_not; [|done]. by apply Hc, list_elem_of_In. }
  assert (Hsub : ∀ l : pystr, (∀ c, c ∈ l → c ∈ h) → filter (λ c : Z, c ≠ 45) l = l).
  { intros l Hl. apply filter_all. rewrite Forall_forall in Hall |- *. auto. }
  change (u "-") with [45]. rewrite !filter_app, !(Hsub (take _ _)), (Hsub (drop _ _)).
  - change (filter (λ c : Z, c ≠ 45) [45]) with (@nil Z). cbn [app].
    pose proof (take_drop 8 h) as E. pose proof (take_drop 4 (drop 8 h)) as E8.
    pose proof (take_drop 4 (drop 12 h)) as E12. pose proof (take_drop 4 (drop 16 h)) as E16.
    rewrite !drop_drop in *. simpl Nat.add in *. by rewrite E16, E12, E8.
  - intros c. apply subseteq_drop.
  - intros c Hc. by eapply subseteq_drop, subseteq_take.
  - intros c Hc. by eapply subseteq_drop, subseteq_take.
  - intros c Hc. by eapply subseteq_drop, subseteq_take.
  - intros c. apply subseteq_take.
Qed.

Lemma not_among i (p : Z → bool) :
  (∀ c, uuid_or_dash c = true → p c = true) → forallb p (uuid_text i) = true.
Proof.
  intros H. pose proof (uuid_text_chars i) as Hc. rewrite forallb_forall in Hc |- *. auto.
Qed.

Lemma dash_not c d : uuid_or_dash c = true → uuid_or_dash d = false → c ≠ d.
Proof. intros Hc Hd ->. congruence. Qed.

(** A text with no white space, sign or prefix: [int(s, 16)] is its digits. *)
Lemma parse_int16_hex n :
  0 <= n < 2 ^ 128 → parse_int16 (hex_digits 32 n) = Some n.
Proof.
  intros Hn. destruct (hex_digits_chars 32 n) as [Hc Hl].
  assert (Hx : ∀ c, c ∈ hex_digits 32 n → uuid_char c = true).
  { intros c Hin. rewrite forallb_forall in Hc. by apply Hc, list_elem_of_In. }
  pose proof (base_digits_hex 32 n [] 0 false ltac:(lia)) as Hb. rewrite app_nil_r in Hb.
  cbn [base_digits] in Hb. change (16 ^ Z.of_nat 32) with (2 ^ 128) in Hb. rewrite Z.mod_small, Z.mul_0_l, Z.add_0_l in Hb by done.
  unfold parse_int16. rewrite strip_none.
  - destruct (hex_digits 32 n) as [|c [|x t]]; [done..|].
    assert (uuid_char c = true) as Huc by (apply Hx; left).
    assert (uuid_char x = true) as Hux by (apply Hx; right; left).
    assert (split_sign (c :: x :: t) = (false, c :: x :: t)) as ->.
    { pose proof (uuid_char_not c 45 Huc eq_refl). pose proof (uuid_char_not c 43 Huc eq_refl).
      unfold split_sign. repeat (match goal with |- context [match ?v with _ => _ end] => is_var v; destruct v; try done end). }
    assert ((x =? 120) || (x =? 88) = false) as Ex.
    { apply orb_false_iff. rewrite !Z.eqb_neq. split; by apply uuid_char_not. }
    assert (∀ A (r : A) f, match c with 48 => if (x =? 120) || (x =? 88) then f tt else r | _ => r end = r) as Hm.
    { intros A r f. rewrite Ex. repeat (match goal with |- context [match ?v with _ => _ end] => is_var v; destruct v; try done end). }
    rewrite Ex. cbv iota.
    assert ((match c with 48 => c :: x :: t | _ => c :: x :: t end) = c :: x :: t) as ->
      by (repeat (match goal with |- context [match ?v with _ => _ end] => is_var v; destruct v; try done end)).
    rewrite Hb. done.
  - rewrite forallb_forall. intros c Hin%list_elem_of_In%Hx. unfold uuid_char, rng in Hin.
    assert (Hall : all_below (λ d, negb (uuid_char (48 + d)) || negb (is_space (48 + d))) 55 0 = true) by (vm_compute; reflexivity).
    assert (48 <= c <= 102) as Hr by (apply orb_prop in Hin as [Hin|Hin]; apply andb_prop in Hin as [? ?]; zify_bool; lia).
    pose proof (all_below_spec _ _ _ Hall (c - 48) ltac:(lia)) as H. cbv beta in H.
    replace (48 + (c - 48)) with c in H by lia. unfold uuid_char, rng in H. by rewrite Hin in H.
Qed.

(** The round trip. *)
Theorem uuid_roundtrip i : (i < 2 ^ 128)%N → parse_uuid (uuid_text i) = Some i.
Proof.
  intros Hi. unfold parse_uuid, str_remove.
  assert (Hf : ∀ c0, uuid_or_dash c0 = false → Forall (λ c, c ≠ c0) (uuid_text i)).
  { intros c0 Hc0. pose proof (uuid_text_chars i) as Hc. rewrite forallb_forall in Hc.
    apply Forall_forall. intros c Hin. eapply dash_not; [|done]. by apply Hc, list_elem_of_In. }
  rewrite (remove_all_none (u "urn:") 117) by (try apply Hf; done).
  rewrite (remove_all_none (u "uuid:") 117) by (try apply Hf; done).
  assert (strip_braces (uuid_text i) = uuid_text i) as ->.
  { unfold strip_braces. assert (Hb : forallb (λ c, negb ((c =? 123) || (c =? 125))) (uuid_text i) = true).
    { apply not_among. intros c Hc. apply negb_true_iff, orb_false_iff. rewrite !Z.eqb_neq.
      split; by apply dash_not. }
    rewrite (drop_while_none _ _ Hb), drop_while_none, reverse_involutive; [done|].
    rewrite forallb_forall in *. intros c Hc. apply Hb. by rewrite <- list_elem_of_In, elem_of_reverse, list_elem_of_In in *. }
  change (u "-") with [45]. rewrite remove_all_char, uuid_text_digits by lia.
  rewrite (proj2 (hex_digits_chars _ _)). cbn [Nat.eqb negb].
  assert (0 <= Z.of_N i < 2 ^ 128) as Hz by lia.
  rewrite parse_int16_hex by done. cbn [mbind option_bind].
  rewrite (proj2 (Z.leb_le _ _)), (proj2 (Z.ltb_lt _ _)) by lia. cbn [andb]. by rewrite N2Z.id.
Qed.
