(* ===== verification/CedarPolicy.v ===== *)
(** * The organisation's policy in the hot path (agentiam_pep/policy.py)

    A bundle loaded as an engine, the catalogue of tools it is evaluated against,
    and the engine bound to an agent: the [PolicyEngine] of the decision.  Cedar is
    third-party code: [Cedar] is what it answers, three ways. *)
From S2P Require Import Prelude PyText Errors PyNum PyTime PyRe PyUuid PySha Models Hashing Caveats Tokens Decide Bundles.

(** ** Cedar *)
Inductive CedarDecision := CedarAllow | CedarDeny | CedarNoDecision.

Inductive cedar_value :=
| CStr (s : pystr) | CLong (n : Z) | CBool (b : bool)
| CDecimal (arg : pystr).                (* [{"__extn": {"fn": "decimal", "arg": ...}}] *)

Record cedar_entity := mkEntity {
  ent_type : pystr; ent_id : pystr; ent_attrs : list (pystr * cedar_value) }.

Record cedar_request := mkCedarRequest {
  rq_principal : pystr; rq_action : pystr; rq_resource : pystr;
  rq_context : list (pystr * cedar_value) }.

(** [PolicySet.from_str] raises ([None]) on a source that does not parse;
    [is_authorized] answers a decision and the ids of the policies behind it. *)
Class Cedar := {
  policy_set : Type;
  PolicySet_from_str : pystr → option policy_set;
  is_authorized : cedar_request → policy_set → list cedar_entity → CedarDecision * list pystr }.

(** [str] of a value that is not a string, an integer, a boolean or [None]. *)
Class PyRepr := { repr_text : value → pystr }.

(** ** The catalogue *)
Record ToolFacts := mkToolFacts {
  tf_tool_id : pystr; tf_server : pystr; tf_sensitivity : pystr; tf_is_external : bool }.

Record AgentPrincipal := mkAgentPrincipal {
  ap_agent_id : pystr; ap_role : pystr; ap_principal_id : pystr; ap_task_id : uuid;
  ap_declared_role : pystr }.

Definition _UNKNOWN_TOOL : ToolFacts := mkToolFacts [] [] (u "low") false.

Definition _TOOL_ATTRIBUTES : list pystr :=
  [u "tool_id"; u "server"; u "sensitivity"; u "is_external"].

Section policy.
Context {RP : PyRepr} {CD : Cedar}.

(** [str(v)]. *)
Definition py_str (v : value) : py pystr :=
  match v with
  | VNone => Ok (u "None")
  | VBool b => Ok (if b then u "True" else u "False")
  | VInt n => str_int n
  | VStr s => Ok s
  | v => Ok (repr_text v)
  end.

Definition catalogue_entry (tool_id : pystr) (entry : value) : py ToolFacts :=
  match entry with
  | VMap entry =>
      raise_if (existsb (λ kv, negb (bool_decide (kv.1 ∈ _TOOL_ATTRIBUTES))) entry) PolicyBundleError;;
      match dict_get entry (u "is_external") (VBool false),
            dict_get entry (u "server") (VStr []),
            dict_get entry (u "sensitivity") (VStr (u "low")) with
      | VBool is_external, VStr server, VStr sensitivity =>
          name ← py_str (dict_get entry (u "tool_id") (VStr tool_id));
          Ok (mkToolFacts (match name with [] => tool_id | _ => name end)
                server sensitivity is_external)
      | _, _, _ => Raise PolicyBundleError
      end
  | _ => Raise PolicyBundleError
  end.

Fixpoint catalogue_loop (raw : list (pystr * value)) (catalogue : gmap pystr ToolFacts)
    : py (gmap pystr ToolFacts) :=
  match raw with
  | [] => Ok catalogue
  | (tool_id, entry) :: raw =>
      facts ← catalogue_entry tool_id entry;
      catalogue_loop raw (<[tool_id := facts]> catalogue)
  end.

Definition tool_catalogue (raw : option (list (pystr * value))) : py (gmap pystr ToolFacts) :=
  match raw with None => Ok ∅ | Some raw => catalogue_loop raw ∅ end.

(** ** The engine *)
Record CedarEngine := mkCedarEngine {
  ce_bundle : PolicyBundle;
  ce_tools : gmap pystr ToolFacts;
  ce_stale : bool;
  ce_unavailable : option pystr;
  ce_policy_set : option policy_set }.

(** [CedarEngine(bundle, tools=, stale=, unavailable=)]. *)
Definition new_engine (bundle : PolicyBundle) (tools : option (gmap pystr ToolFacts))
    (stale : bool) (unavailable : option pystr) : py CedarEngine :=
  facts ← match tools with Some t => Ok t | None => tool_catalogue (pb_tools bundle) end;
  match unavailable with
  | Some _ => Ok (mkCedarEngine bundle facts stale unavailable None)
  | None =>
      match PolicySet_from_str (pb_cedar_source bundle) with
      | Some ps => Ok (mkCedarEngine bundle facts stale None (Some ps))
      | None => Raise PolicyBundleError
      end
  end.

Definition unavailable (why : pystr) : py CedarEngine :=
  new_engine (mkPolicyBundle [] [] 0 None None None) None false (Some why).

Definition _facts_for (engine : CedarEngine) (tool : option pystr) : ToolFacts :=
  match tool with
  | None => _UNKNOWN_TOOL
  | Some t => default _UNKNOWN_TOOL (ce_tools engine !! t)
  end.

Definition _verdict_from (engine : CedarEngine) (decision : CedarDecision) (reasons : list pystr)
    : PolicyVerdict :=
  mkPolicyVerdict (match decision with CedarAllow => true | _ => false end)
    (head reasons) (pb_version (ce_bundle engine)) (ce_stale engine).

(** ** Bound to an agent *)
Record BoundCedarEngine := bound { bc_engine : CedarEngine; bc_principal : AgentPrincipal }.

Definition _as_cedar_decimal (v : decimal) : py cedar_value :=
  q ← quantize v; Ok (CDecimal (units_text (dcoef q))).

Definition cedar_entities (engine : CedarEngine) (p : AgentPrincipal) (context : RequestContext)
    : list cedar_entity :=
  let tool := _facts_for engine (ctx_tool context) in
  [mkEntity (u "Agent") (ap_agent_id p)
     [(u "role", CStr (ap_role p)); (u "depth", CLong (current_depth context));
      (u "task_id", CStr (uuid_text (ap_task_id p)));
      (u "principal_id", CStr (ap_principal_id p))];
   mkEntity (u "Tool") (default [] (ctx_tool context))
     [(u "tool_id", CStr (tf_tool_id tool)); (u "server", CStr (tf_server tool));
      (u "sensitivity", CStr (tf_sensitivity tool)); (u "is_external", CBool (tf_is_external tool))]].

Definition quoted (kind id : pystr) : pystr := kind ++ u "::" ++ [dquote] ++ id ++ [dquote].

Definition cedar_request_of (p : AgentPrincipal) (context : RequestContext) : py cedar_request :=
  amount ← _as_cedar_decimal (dec_of_units (requested_of context SPEND_BDT));
  Ok (mkCedarRequest (quoted (u "Agent") (ap_agent_id p)) (quoted (u "Action") (operation context))
        (quoted (u "Tool") (default [] (ctx_tool context)))
        [(u "amount", amount); (u "arg_digest", CStr []); (u "elevated", CBool false);
         (u "environment", CStr (u "production"))]).

Definition bound_evaluate (b : BoundCedarEngine) (context : RequestContext) : py PolicyVerdict :=
  let engine := bc_engine b in
  match ce_unavailable engine with
  | Some why => Raise (OracleUnavailable why)
  | None =>
      request ← cedar_request_of (bc_principal b) context;
      match ce_policy_set engine with
      | None => Raise AssertionError
      | Some ps =>
          let '(decision, reasons) :=
            is_authorized request ps (cedar_entities engine (bc_principal b) context) in
          Ok (_verdict_from engine decision reasons)
      end
  end.

(** The deferred backend. *)
Record OpaEngine := mkOpaEngine { opa_endpoint : pystr }.
Definition opa_evaluate (o : OpaEngine) (context : RequestContext) : py PolicyVerdict :=
  Raise NotImplementedError.

#[global] Instance cedar_policy_engine : PolicyEngine BoundCedarEngine :=
  {| policy_evaluate := bound_evaluate |}.
#[global] Instance opa_policy_engine : PolicyEngine OpaEngine :=
  {| policy_evaluate := opa_evaluate |}.
End policy.
