(* ===== verification/PolicyCache.v ===== *)
(** * The bundle a PEP enforces (agentiam_pep/policy_cache.py, agentiam_pep/activation.py,
      agentiam_core/policy_testing.py)

    The cache, the gates a candidate bundle passes to become current, the policy
    tests an activation runs first, and the engine a request is answered by.  Each
    call takes the clock's reading; the cache after it is part of its result. *)
From S2P Require Import Prelude PyText Errors PyNum PyTime PyRe PyUuid PySha Models Hashing Caveats Tokens Decide Bundles CedarPolicy.

(** ** Policy tests *)
Record PolicyTestCase := mkPolicyTestCase {
  tc_name : pystr;
  tc_description : pystr;
  tc_operation : pystr;
  tc_expected : bool;
  tc_role : pystr;
  tc_tool : option pystr;
  tc_amount : decimal;
  tc_depth : Z;
  tc_agent_id : pystr;
  tc_principal_id : pystr;
  tc_task_id : pystr;
  tc_tags : list pystr;
  tc_elevated : bool;
  tc_environment : pystr }.

Record PolicyTestResult := mkPolicyTestResult {
  tr_case : PolicyTestCase; tr_actual : bool; tr_passed : bool;
  tr_statement : option pystr; tr_error : option exn }.

Record PolicyTestSummary := mkPolicyTestSummary {
  ts_total : Z; ts_passed : Z; ts_failed : Z; ts_errors : Z; ts_all_passed : bool;
  ts_failures : list PolicyTestResult }.

(** [except Exception]: whatever a case raises is that case's failure. *)
Definition run_case (evaluate : PolicyTestCase → py PolicyVerdict) (case : PolicyTestCase)
    : PolicyTestResult :=
  match evaluate case with
  | Ok verdict =>
      mkPolicyTestResult case (pv_allowed verdict)
        (Bool.eqb (pv_allowed verdict) (tc_expected case)) (pv_statement verdict) None
  | Raise e => mkPolicyTestResult case (negb (tc_expected case)) false None (Some e)
  end.

Definition run_policy_tests (cases : list PolicyTestCase)
    (evaluate : PolicyTestCase → py PolicyVerdict) : list PolicyTestResult :=
  run_case evaluate <$> cases.

Definition count {A} (p : A → bool) (l : list A) : Z := Z.of_nat (length (List.filter p l)).

Definition summarize (results : list PolicyTestResult) : PolicyTestSummary :=
  let passed := count tr_passed results in
  let total := Z.of_nat (length results) in
  mkPolicyTestSummary total passed (total - passed)
    (count (λ r, match tr_error r with Some _ => true | None => false end) results)
    (total - passed =? 0) (List.filter (λ r, negb (tr_passed r)) results).

Section cache.
Context {UN : Unicode} {ST : SortTies} {KEYS : Ed25519} {RP : PyRepr} {CD : Cedar}.

(** ** The cache *)
Record PolicyCache := mkPolicyCache {
  pc_public_key : public_key;
  pc_tools : gmap pystr ToolFacts;
  pc_max_staleness : Z;
  pc_engine : option CedarEngine;
  pc_serial : option Z;
  pc_loaded_at : option Z;
  pc_rejected : Z;
  pc_loaded : Z }.

(** [PolicyCache(public_key=, tools=, max_staleness=)]; [dict(tools or {})]. *)
Definition new_cache (key : public_key) (tools : option (gmap pystr ToolFacts)) (max_staleness : Z)
    : PolicyCache :=
  mkPolicyCache key (default ∅ tools) max_staleness None None None 0 0.

Definition stale (c : PolicyCache) (now : Z) : bool :=
  match pc_loaded_at c with
  | None => false
  | Some t => pc_max_staleness c <? now - t
  end.

Record cache_status := mkCacheStatus {
  st_serial : option Z; st_loaded : Z; st_rejected : Z; st_stale : bool }.
Definition status (c : PolicyCache) (now : Z) : cache_status :=
  mkCacheStatus (pc_serial c) (pc_loaded c) (pc_rejected c) (stale c now).

Definition reject (c : PolicyCache) : PolicyCache :=
  mkPolicyCache (pc_public_key c) (pc_tools c) (pc_max_staleness c) (pc_engine c) (pc_serial c)
    (pc_loaded_at c) (pc_rejected c + 1) (pc_loaded c).

Definition swap (c : PolicyCache) (engine : CedarEngine) (bundle : PolicyBundle) (now : Z)
    : PolicyCache :=
  mkPolicyCache (pc_public_key c) (pc_tools c) (pc_max_staleness c) (Some engine)
    (Some (pb_serial bundle)) (Some now) (pc_rejected c) (pc_loaded c + 1).

Definition rollback (c : PolicyCache) (bundle : PolicyBundle) : bool :=
  match pc_serial c with Some s => pb_serial bundle <=? s | None => false end.

(** The gates both entry points put a candidate through, in order: signature, serial,
    parse.  What they refuse is counted; any other exception is not theirs. *)
Definition gates (c : PolicyCache) (bundle : PolicyBundle) (signature : list Z)
    : py CedarEngine * PolicyCache :=
  match verify_bundle bundle signature (pc_public_key c) with
  | Raise BundleSignatureError => (Raise BundleRejected, reject c)
  | Raise e => (Raise e, c)
  | Ok _ =>
      if rollback c bundle then (Raise BundleRejected, reject c) else
      match new_engine bundle (Some (pc_tools c)) false None with
      | Raise PolicyBundleError => (Raise BundleRejected, reject c)
      | Raise e => (Raise e, c)
      | Ok engine => (Ok engine, c)
      end
  end.

Definition load (c : PolicyCache) (bundle : PolicyBundle) (signature : list Z) (now : Z)
    : py unit * PolicyCache :=
  match gates c bundle signature with
  | (Raise e, c) => (Raise e, c)
  | (Ok engine, c) => (Ok tt, swap c engine bundle now)
  end.

(** The engine a request of [principal] is answered by. *)
Definition cache_bound (c : PolicyCache) (principal : AgentPrincipal) (now : Z)
    : py BoundCedarEngine :=
  match pc_engine c with
  | None => e ← unavailable (u "no policy bundle has been loaded"); Ok (bound e principal)
  | Some engine =>
      if stale c now then
        e ← new_engine (ce_bundle engine) (Some (pc_tools c)) true None; Ok (bound e principal)
      else Ok (bound engine principal)
  end.

(** ** Activation *)
Definition _evaluate_case (engine : CedarEngine) (now : Z) (case : PolicyTestCase)
    : py PolicyVerdict :=
  task ← match parse_uuid (tc_task_id case) with Some i => Ok i | None => Raise ValueError end;
  let principal := mkAgentPrincipal (tc_agent_id case) (tc_role case) (tc_principal_id case) task [] in
  let requested : gmap BudgetDimension decimal :=
    <[SPEND_BDT := tc_amount case]> (list_to_map ((λ d, (d, Dec 0 0)) <$> all_dimensions)) in
  context ← mk_RequestContext (tc_operation case) requested (tc_depth case) (repeat 97 64)
    (DT now true) (tc_tool case) [] None None STRICT;
  bound_evaluate (bound engine principal) context.

Definition activate_bundle (c : PolicyCache) (bundle : PolicyBundle) (signature : list Z)
    (test_cases : list PolicyTestCase) (now : Z) : py PolicyTestSummary * PolicyCache :=
  match gates c bundle signature with
  | (Raise e, c) => (Raise e, c)
  | (Ok engine, c) =>
      let summary := summarize (run_policy_tests test_cases (_evaluate_case engine now)) in
      if negb (ts_all_passed summary)
      then (Raise (ActivationFailed ((λ r, tc_name (tr_case r)) <$> ts_failures summary)), c)
      else (Ok summary, swap c engine bundle now)
  end.
End cache.
