(* ===== verification/PolicySpec.v ===== *)
(** * What the policy layer guarantees

    The cache as a state machine over [load] and [activate_bundle]: what it serves
    is a bundle that verified, its serial only advances, a refused candidate changes
    nothing but the counter, and an activation has run every test.  Composed with the
    decision: a request is allowed only under a fresh bundle whose Cedar says
    Allow. *)
From S2P Require Import Prelude PyText Errors PyNum PyTime PyRe PyUuid PySha Models Hashing HashingSpec Caveats Tokens Decide Bundles BundlesSpec CedarPolicy PolicyCache.

(** ** Counting test results *)
Lemma count_split {A} (p : A → bool) l : count p l + count (λ x, negb (p x)) l = Z.of_nat (length l).
Proof. unfold count. induction l as [|x l IH]; [done|]. simpl. destruct (p x); simpl; lia. Qed.

Lemma count_none {A} (p : A → bool) l :
  Z.of_nat (length l) - count p l = 0 ↔ Forall (λ x, p x = true) l.
Proof.
  unfold count. induction l as [|x l IH]; [simpl; by split|]. rewrite Forall_cons, <- IH.
  simpl. pose proof (List.filter_length_le p l) as Hl.
  destruct (p x); simpl; split; intros; try lia; try (split; [done|lia]); by destruct H.
Qed.

Section policy_spec.
Context {UN : Unicode} {ST : SortTies} {KEYS : Ed25519} {RP : PyRepr} {CD : Cedar}.

(** ** The gates *)
Definition accepts (c : PolicyCache) (b : PolicyBundle) (s : list Z) (e : CedarEngine) : Prop :=
  verify_bundle b s (pc_public_key c) = Ok tt
  ∧ (∀ n, pc_serial c = Some n → n < pb_serial b)
  ∧ ∃ ps, PolicySet_from_str (pb_cedar_source b) = Some ps
          ∧ e = mkCedarEngine b (pc_tools c) false None (Some ps).

Lemma rollback_false c b : rollback c b = false ↔ ∀ n, pc_serial c = Some n → n < pb_serial b.
Proof.
  unfold rollback. destruct (pc_serial c) as [m|]; [|split; [by intros _ n|done]].
  rewrite Z.leb_gt. split; [by intros ? n [= <-]|auto].
Qed.

(** A refused candidate is counted, unless its payload could not be encoded. *)
Definition refused (c : PolicyCache) (b : PolicyBundle) (s : list Z) (e : exn) (c' : PolicyCache) : Prop :=
  (e = BundleRejected ∧ c' = reject c)
  ∨ (verify_bundle b s (pc_public_key c) = Raise e ∧ e ≠ BundleSignatureError ∧ c' = c).

Lemma gates_spec c b s r c' :
  gates c b s = (r, c') →
  match r with
  | Ok e => c' = c ∧ accepts c b s e
  | Raise e => (∀ e', ¬ accepts c b s e') ∧ refused c b s e c'
  end.
Proof.
  unfold gates, accepts, refused. destruct (verify_bundle b s (pc_public_key c)) as [[]|e] eqn:Ev.
  - destruct (rollback c b) eqn:Er.
    + intros [= <- <-]. split; [|by left]. intros e' (_ & Hs & _).
      apply rollback_false in Hs. congruence.
    + unfold new_engine. cbn [mbind res_bind].
      destruct (PolicySet_from_str (pb_cedar_source b)) as [ps|] eqn:Ep.
      * intros [= <- <-]. split; [done|]. split; [done|]. split; [by apply rollback_false|eauto].
      * intros [= <- <-]. split; [|by left]. by intros e' (_ & _ & ps & ? & _).
  - destruct e; intros [= <- <-]; (split; [by intros ? (? & _)|]); auto.
Qed.

Lemma load_spec c b s now r c' :
  load c b s now = (r, c') →
  match r with
  | Ok _ => ∃ e, accepts c b s e ∧ c' = swap c e b now
  | Raise e => (∀ e', ¬ accepts c b s e') ∧ refused c b s e c'
  end.
Proof.
  unfold load. destruct (gates c b s) as [[e|e] c1] eqn:E; apply gates_spec in E.
  - destruct E as [-> Ha]. intros [= <- <-]. eauto.
  - by intros [= <- <-].
Qed.

(** ** Activation *)
Definition case_ok (e : CedarEngine) (now : Z) (case : PolicyTestCase) : Prop :=
  ∃ v, _evaluate_case e now case = Ok v ∧ pv_allowed v = tc_expected case.

Lemma run_case_passed e now case :
  tr_passed (run_case (_evaluate_case e now) case) = true ↔ case_ok e now case.
Proof.
  unfold run_case, case_ok. destruct (_evaluate_case e now case) as [v|x]; simpl.
  - rewrite Bool.eqb_true_iff. split; [eauto|]. by intros (? & [= <-] & ?).
  - split; [done|]. by intros (? & ? & _).
Qed.

Definition test_run (e : CedarEngine) (now : Z) (cases : list PolicyTestCase) : PolicyTestSummary :=
  summarize (run_policy_tests cases (_evaluate_case e now)).

Lemma all_passed_iff e now cases :
  ts_all_passed (test_run e now cases) = true ↔ Forall (case_ok e now) cases.
Proof.
  unfold test_run, summarize, run_policy_tests. cbn [ts_all_passed].
  rewrite Z.eqb_eq, count_none, Forall_fmap. apply Forall_iff. intros case. apply run_case_passed.
Qed.

Lemma failures_named e now cases name :
  name ∈ (λ r, tc_name (tr_case r)) <$> ts_failures (test_run e now cases) ↔
  ∃ case, case ∈ cases ∧ tc_name case = name ∧ ¬ case_ok e now case.
Proof.
  unfold test_run, summarize, run_policy_tests. cbn [ts_failures].
  rewrite list_elem_of_fmap. setoid_rewrite list_elem_of_In. setoid_rewrite List.filter_In.
  setoid_rewrite <- list_elem_of_In. setoid_rewrite list_elem_of_fmap.
  setoid_rewrite negb_true_iff. setoid_rewrite <- not_true_iff_false.
  assert (Hc : ∀ case, tr_case (run_case (_evaluate_case e now) case) = case).
  { intros case. unfold run_case. by destruct (_evaluate_case e now case). }
  split.
  - intros (r & -> & (case & -> & Hin) & Hf). rewrite run_case_passed in Hf. rewrite Hc. eauto.
  - intros (case & Hin & <- & Hf). rewrite <- run_case_passed in Hf.
    exists (run_case (_evaluate_case e now) case). rewrite Hc. eauto.
Qed.

Lemma activate_spec c b s cases now r c' :
  activate_bundle c b s cases now = (r, c') →
  match r with
  | Ok summary => ∃ e, accepts c b s e ∧ Forall (case_ok e now) cases
                       ∧ summary = test_run e now cases ∧ c' = swap c e b now
  | Raise x => ((∀ e, ¬ accepts c b s e) ∧ refused c b s x c')
               ∨ ∃ e names, accepts c b s e ∧ ¬ Forall (case_ok e now) cases ∧ c' = c
                   ∧ x = ActivationFailed names
                   ∧ ∀ name, name ∈ names ↔ ∃ case, case ∈ cases ∧ tc_name case = name
                                                    ∧ ¬ case_ok e now case
  end.
Proof.
  unfold activate_bundle. destruct (gates c b s) as [[e|e] c1] eqn:E; apply gates_spec in E.
  - destruct E as [-> Ha]. fold (test_run e now cases).
    destruct (ts_all_passed (test_run e now cases)) eqn:Ep; cbn [negb]; intros [= <- <-].
    + apply all_passed_iff in Ep. eauto 6.
    + right. exists e. eexists. split; [done|]. split; [by rewrite <- all_passed_iff, Ep|].
      split; [done|]. split; [done|]. intros name. apply failures_named.
  - intros [= <- <-]. by left.
Qed.

(** ** Histories of a cache *)
Inductive cache_step (c : PolicyCache) : PolicyCache → Prop :=
| step_load b s now : cache_step c (load c b s now).2
| step_activate b s cases now : cache_step c (activate_bundle c b s cases now).2.

(** One step leaves what is served alone, or swaps in an accepted bundle. *)
Lemma cache_step_inv c c' :
  cache_step c c' →
  c' = c ∨ c' = reject c ∨ ∃ b s e now, accepts c b s e ∧ c' = swap c e b now.
Proof.
  intros [b s now|b s cases now].
  - destruct (load c b s now) as [r c1] eqn:E. apply load_spec in E. simpl. destruct r as [[]|x].
    + destruct E as (e & ? & ->). eauto 10.
    + destruct E as (_ & [(_ & ->)|(_ & _ & ->)]); auto.
  - destruct (activate_bundle c b s cases now) as [r c1] eqn:E. apply activate_spec in E. simpl.
    destruct r as [summary|x].
    + destruct E as (e & ? & _ & _ & ->). eauto 10.
    + destruct E as [(_ & [(_ & ->)|(_ & _ & ->)])|(e & names & _ & _ & -> & _)]; auto.
Qed.

(** What a cache serves. *)
Definition serves (c : PolicyCache) (e : CedarEngine) : Prop :=
  pc_engine c = Some e
  ∧ (∃ s, verify_bundle (ce_bundle e) s (pc_public_key c) = Ok tt)
  ∧ pc_serial c = Some (pb_serial (ce_bundle e)) ∧ is_Some (pc_loaded_at c)
  ∧ ∃ ps, PolicySet_from_str (pb_cedar_source (ce_bundle e)) = Some ps
          ∧ e = mkCedarEngine (ce_bundle e) (pc_tools c) false None (Some ps).

Definition cache_ok (c : PolicyCache) : Prop :=
  match pc_engine c with
  | None => pc_serial c = None ∧ pc_loaded_at c = None
  | Some e => serves c e
  end.

Lemma swap_serves c b s e now : accepts c b s e → serves (swap c e b now) e.
Proof.
  intros (Hv & _ & ps & Hp & ->). unfold serves, swap. cbn [pc_engine pc_public_key pc_serial
    pc_loaded_at pc_tools ce_bundle]. eauto 10.
Qed.

Lemma cache_step_ok c c' : cache_ok c → cache_step c c' → cache_ok c'.
Proof.
  intros Hc [->|[->|(b & s & e & now & Ha & ->)]]%cache_step_inv; [done..|].
  unfold cache_ok. cbn [swap pc_engine]. by eapply swap_serves.
Qed.

Lemma reachable_ok k t m c : rtc cache_step (new_cache k t m) c → cache_ok c.
Proof.
  assert (H0 : cache_ok (new_cache k t m)) by done. revert H0.
  generalize (new_cache k t m) as d. intros d H0. induction 1 as [|x y z Hxy _ IH]; [done|].
  apply IH. by eapply cache_step_ok.
Qed.

(** ** Properties of the cache *)

(** Whatever the history of loads and activations, accepted and refused, what a cache
    serves is a bundle that verified under the configured key and parsed, at the serial
    the cache reports; a cache that serves nothing has no serial and no age. *)
Theorem served_bundle_verified k t m c :
  rtc cache_step (new_cache k t m) c →
  match pc_engine c with
  | None => pc_serial c = None ∧ pc_loaded_at c = None
  | Some e => serves c e
  end.
Proof. apply reachable_ok. Qed.

(** Rollback is refused.  Over any history the serial in force never goes down, and
    goes up by at least one for each bundle swapped in. *)
Theorem serial_advances c c' :
  rtc cache_step c c' →
  pc_loaded c <= pc_loaded c' ∧
  ∀ s, pc_serial c = Some s →
    ∃ s', pc_serial c' = Some s' ∧ s + (pc_loaded c' - pc_loaded c) <= s'.
Proof.
  induction 1 as [c|c d c' Hcd _ [IH1 IH2]]; [split; [lia|]; intros s ->; exists s; split; [done|lia]|].
  apply cache_step_inv in Hcd as [->|[->|(b & s & e & now & (_ & Hs & _) & ->)]]; [by split| |].
  - split; [exact IH1|exact IH2].
  - cbn [swap pc_loaded pc_serial] in *. split; [lia|]. intros n Hn.
    destruct (IH2 _ eq_refl) as (s' & Hs' & Hle). exists s'. split; [done|].
    specialize (Hs n Hn). lia.
Qed.

(** A candidate becomes current exactly when its signature verifies, its serial is
    past the current one and its source parses; otherwise the call raises and what the
    cache serves, its serial and its age are what they were. *)
Theorem load_accepts_exactly c b s now :
  (∀ e, accepts c b s e → load c b s now = (Ok tt, swap c e b now)) ∧
  ((∀ e, ¬ accepts c b s e) →
   ∃ x c', load c b s now = (Raise x, c') ∧ pc_engine c' = pc_engine c ∧ pc_serial c' = pc_serial c
           ∧ pc_loaded_at c' = pc_loaded_at c ∧ pc_loaded c' = pc_loaded c
           ∧ (x = BundleRejected → pc_rejected c' = pc_rejected c + 1
              ∨ verify_bundle b s (pc_public_key c) = Raise BundleRejected)).
Proof.
  destruct (load c b s now) as [r c'] eqn:E. apply load_spec in E. split.
  - intros e Ha. destruct r as [[]|x]; [|by destruct E as [E _]; destruct (E e)].
    destruct E as (e' & Ha' & ->).
    destruct Ha as (_ & _ & ps & Hp & ->), Ha' as (_ & _ & ps' & Hp' & ->).
    assert (ps' = ps) as -> by congruence. done.
  - intros Hn. destruct r as [[]|x]; [by destruct E as (e & ? & _); destruct (Hn e)|].
    exists x, c'. destruct E as (_ & [(-> & ->)|(Hv & _ & ->)]); split_and!; try done; auto.
    intros ->. auto.
Qed.

(** The activation gate.  An activation that succeeds found every test of its corpus to
    have the expected verdict under the candidate, which is then current; one that fails
    its corpus changes nothing and names exactly the cases at fault. *)
Theorem activation_tests_first c b s cases now :
  match activate_bundle c b s cases now with
  | (Ok summary, c') =>
      ∃ e, accepts c b s e ∧ Forall (case_ok e now) cases ∧ serves c' e
           ∧ ts_total summary = Z.of_nat (length cases) ∧ ts_failures summary = []
  | (Raise (ActivationFailed names), c') =>
      (pc_engine c', pc_serial c', pc_loaded_at c') = (pc_engine c, pc_serial c, pc_loaded_at c)
      ∧ (verify_bundle b s (pc_public_key c) = Ok tt →
         ∃ e, accepts c b s e
              ∧ ∀ name, name ∈ names ↔ ∃ case, case ∈ cases ∧ tc_name case = name ∧ ¬ case_ok e now case)
  | (Raise _, c') =>
      (pc_engine c', pc_serial c', pc_loaded_at c') = (pc_engine c, pc_serial c, pc_loaded_at c)
  end.
Proof.
  destruct (activate_bundle c b s cases now) as [r c'] eqn:E. apply activate_spec in E.
  destruct r as [summary|x].
  - destruct E as (e & Ha & Hf & -> & ->). exists e. split; [done|]. split; [done|].
    split; [by eapply swap_serves|]. unfold test_run, summarize, run_policy_tests.
    cbn [ts_total ts_failures]. split; [by rewrite length_fmap|].
    clear Ha. induction Hf as [|case cases Hc _ IH]; [done|].
    rewrite fmap_cons. cbn [List.filter]. by rewrite (proj2 (run_case_passed _ _ _) Hc).
  - destruct E as [(Hn & [(-> & ->)|(Hv & _ & ->)])|(e & names & Ha & _ & -> & -> & Hnames)]; [done| |].
    + destruct x; try done. split; [done|]. congruence.
    + split; [done|]. intros _. eauto.
Qed.

(** A cache built without a catalogue never reads the signed one. *)
Theorem signed_catalogue_unused k m c e :
  rtc cache_step (new_cache k None m) c → pc_engine c = Some e → ce_tools e = ∅.
Proof.
  intros Hr He. assert (Ht : pc_tools c = ∅).
  { clear He. remember (new_cache k None m) as d eqn:Ed.
    assert (H0 : pc_tools d = ∅) by by subst. clear Ed. induction Hr as [|x y z Hxy _ IH]; [done|].
    apply IH. by apply cache_step_inv in Hxy as [->|[->|(? & ? & ? & ? & _ & ->)]]. }
  pose proof (reachable_ok _ _ _ _ Hr) as Hok. unfold cache_ok in Hok. rewrite He in Hok.
  destruct Hok as (_ & _ & _ & _ & ps & _ & ->). exact Ht.
Qed.

(** What a test case says of elevation and environment does not reach the policy. *)
Theorem elevation_not_tested e now case elevated environment :
  _evaluate_case e now case
  = _evaluate_case e now (mkPolicyTestCase (tc_name case) (tc_description case) (tc_operation case)
      (tc_expected case) (tc_role case) (tc_tool case) (tc_amount case) (tc_depth case)
      (tc_agent_id case) (tc_principal_id case) (tc_task_id case) (tc_tags case)
      elevated environment).
Proof. done. Qed.

(** ** The policy step of a request *)
Lemma bound_evaluate_Ok b ctx v :
  bound_evaluate b ctx = Ok v →
  ∃ ps request decision reasons,
    ce_unavailable (bc_engine b) = None ∧ ce_policy_set (bc_engine b) = Some ps
    ∧ cedar_request_of (bc_principal b) ctx = Ok request
    ∧ is_authorized request ps (cedar_entities (bc_engine b) (bc_principal b) ctx)
      = (decision, reasons)
    ∧ v = _verdict_from (bc_engine b) decision reasons.
Proof.
  unfold bound_evaluate. destruct (ce_unavailable (bc_engine b)); [done|].
  intros (request & Hr & Hv)%bind_Ok_inv. destruct (ce_policy_set (bc_engine b)) as [ps|]; [|done].
  destruct (is_authorized _ _ _) as [decision reasons] eqn:Ea. injection Hv as <-. eauto 10.
Qed.

Lemma fresh_bound k t m c p now b ctx v :
  rtc cache_step (new_cache k t m) c → cache_bound c p now = Ok b →
  bound_evaluate b ctx = Ok v → pv_stale v = false →
  ∃ e, pc_engine c = Some e ∧ b = bound e p ∧ stale c now = false.
Proof.
  intros Hr Hb (ps & request & decision & reasons & Hu & Hp & _ & _ & ->)%bound_evaluate_Ok Hs.
  unfold cache_bound in Hb. destruct (pc_engine c) as [e|].
  - destruct (stale c now) eqn:Est; [|injection Hb as <-; eauto].
    apply bind_Ok_inv in Hb as (e' & He' & [= <-]). unfold new_engine in He'. cbn [mbind res_bind] in He'.
    destruct (PolicySet_from_str _); [|done]. by injection He' as <-.
  - by injection Hb as <-.
Qed.

Context `{BL : BiscuitLib} {R B D : Type} `{RO : RevocationOracle R, BO : BudgetOracle B, DO : DriftOracle D}.

(** C24: nothing is allowed but under the bundle in force.  Where the policy oracle is the
    cache's engine for an agent, an allowed request was put to Cedar as that agent's
    request, under a bundle that verified and is not past the staleness limit, and Cedar
    answered Allow: a parse failure or any other answer denies. *)
Theorem allow_needs_fresh_bundle k t m c p now b token ctx caveats (ro : R) (bo : B) (dr : option D) v :
  rtc cache_step (new_cache k t m) c → cache_bound c p now = Ok b →
  (decide_request token ctx caveats ro b bo dr).1 = Ok v → v_outcome v = ALLOW →
  ∃ e ps request reasons loaded_at,
    serves c e ∧ ce_policy_set e = Some ps
    ∧ pc_loaded_at c = Some loaded_at ∧ now - loaded_at <= pc_max_staleness c
    ∧ cedar_request_of p ctx = Ok request
    ∧ is_authorized request ps (cedar_entities e p ctx) = (CedarAllow, reasons).
Proof.
  intros Hr Hb Hv Ho. destruct (allowed_permitted _ _ _ _ _ _ _ _ Hv Ho) as [_ _ _ _ _ _ Hp _ _].
  destruct Hp as (pv & Hpv & Hs & Ha). cbn [policy_evaluate cedar_policy_engine] in Hpv.
  destruct (fresh_bound _ _ _ _ _ _ _ _ _ Hr Hb Hpv Hs) as (e & He & -> & Hst).
  apply bound_evaluate_Ok in Hpv as (ps & request & decision & reasons & Hu & Hps & Hreq & Haut & ->).
  pose proof (reachable_ok _ _ _ _ Hr) as Hok. unfold cache_ok in Hok. rewrite He in Hok.
  pose proof Hok as (_ & _ & _ & [loaded Hl] & _). exists e, ps, request, reasons, loaded.
  do 3 (split; [done|]). split; [|split; [done|]].
  - unfold stale in Hst. rewrite Hl in Hst. by apply Z.ltb_ge.
  - cbn [bc_engine bc_principal] in Haut. rewrite Haut. by destruct decision.
Qed.

(** Money a context holds crosses into the policy without rounding. *)
Lemma money_in_cedar n :
  Z.abs n < MONEY_LIMIT → _as_cedar_decimal (dec_of_units n) = Ok (CDecimal (units_text n)).
Proof.
  intros Hn. unfold _as_cedar_decimal, quantize, dec_of_units. cbn [dcoef dexp].
  change (- DECIMAL_PLACES <=? -4) with true. change (-4 + DECIMAL_PLACES) with 0. cbn match.
  rewrite Z.mul_1_r. rewrite (proj2 (Z.ltb_ge prec (ndigits n))); [done|].
  apply ndigits_le; [done|]. unfold MONEY_LIMIT, prec in *. lia.
Qed.

(** The policy layer fails closed.  With no bundle the step denies as unavailable; with
    one past its limit, as stale, whatever Cedar would say; and every answer of Cedar's
    but Allow is a denial. *)
Theorem policy_fails_closed k t m c p now ctx :
  rtc cache_step (new_cache k t m) c → Z.abs (requested_of ctx SPEND_BDT) < MONEY_LIMIT →
  ∃ b, cache_bound c p now = Ok b ∧
    match pc_engine c with
    | None => ∃ v, policy_step b ctx = Ok (Some v)
                   ∧ v_reason_code v = CONTROL_PLANE_UNAVAILABLE_FAIL_CLOSED
    | Some e =>
        if stale c now
        then ∃ v, policy_step b ctx = Ok (Some v) ∧ v_reason_code v = POLICY_BUNDLE_STALE
        else ∃ ps request, ce_policy_set e = Some ps ∧ cedar_request_of p ctx = Ok request ∧
          match is_authorized request ps (cedar_entities e p ctx) with
          | (CedarAllow, _) => policy_step b ctx = Ok None
          | (_, _) => ∃ v, policy_step b ctx = Ok (Some v) ∧ v_reason_code v = POLICY_DENIED
          end
    end.
Proof.
  intros Hr Hn. pose proof (reachable_ok _ _ _ _ Hr) as Hok. unfold cache_ok in Hok.
  unfold cache_bound. destruct (pc_engine c) as [e|] eqn:He.
  - destruct Hok as (_ & _ & _ & _ & ps & Hp & ->). set (bundle := ce_bundle e) in *.
    unfold policy_step. cbn [policy_evaluate cedar_policy_engine ce_bundle ce_policy_set].
    destruct (stale c now) eqn:Est.
    + unfold new_engine. cbn [mbind res_bind]. rewrite Hp. eexists. split; [reflexivity|].
      unfold bound_evaluate, cedar_request_of. cbn [bc_engine ce_unavailable ce_policy_set bc_principal].
      rewrite money_in_cedar by done. cbn [mbind res_bind].
      destruct (is_authorized _ _ _). cbn [_verdict_from pv_stale ce_stale]. eauto.
    + eexists. split; [reflexivity|]. unfold bound_evaluate, cedar_request_of.
      cbn [bc_engine ce_unavailable ce_policy_set bc_principal].
      rewrite money_in_cedar by done. cbn [mbind res_bind]. do 2 eexists.
      split; [done|]. split; [done|]. destruct (is_authorized _ _ _) as [[] reasons];
        cbn [_verdict_from pv_stale pv_allowed ce_stale negb]; eauto.
  - eexists. split; [reflexivity|]. eexists. split; reflexivity.
Qed.
End policy_spec.

(** ** A concrete cache *)
#[local] Existing Instance identity_unicode.
#[local] Existing Instance position_order.
#[local] Existing Instance echo_keys.
#[local] Existing Instance toy_lib.
#[local] Existing Instance toy_revocation.
#[local] Existing Instance toy_budget.
#[local] Existing Instance toy_drift.
#[local] Instance toy_repr : PyRepr := {| repr_text _ := u "{}" |}.
(** Two policies: one that permits everything, and any other, which denies. *)
#[local] Instance toy_cedar : Cedar :=
  {| policy_set := bool;
     PolicySet_from_str s := if bool_decide (s = []) then None else Some (bool_decide (s = u "permit"));
     is_authorized _ ps _ := if ps then (CedarAllow, [u "policy0"]) else (CedarDeny, []) |}.

Definition demo_signature (b : PolicyBundle) : list Z :=
  match signing_payload b with Ok m => m | Raise _ => [] end.

Definition empty_cache : PolicyCache := new_cache tt None 300.
Definition loaded_cache : PolicyCache :=
  (load empty_cache (demo_bundle "permit" 4 0) (demo_signature (demo_bundle "permit" 4 0)) 10).2.
Definition demo_agent : AgentPrincipal := mkAgentPrincipal (u "agt-1") (u "worker") (u "kc:alice") 0 [].
Definition demo_case (expected : bool) : PolicyTestCase :=
  mkPolicyTestCase (u "reads") [] (u "invoice:read") expected (u "worker") (Some (u "pay")) (Dec 0 0) 1
    (u "agt-1") (u "kc:alice") (u "00000000-0000-0000-0000-000000000000") [] false (u "production").

Lemma loaded_reachable : rtc cache_step empty_cache loaded_cache.
Proof. apply rtc_once. constructor. Qed.

Lemma served_bundle_verified_witness :
  ∃ e, pc_engine loaded_cache = Some e ∧ serves loaded_cache e.
Proof.
  pose proof (served_bundle_verified tt None 300 loaded_cache loaded_reachable) as H.
  assert (E : ∃ e, pc_engine loaded_cache = Some e) by (eexists; vm_compute; reflexivity).
  destruct E as (e & E). exists e. split; [exact E|]. by rewrite E in H.
Defined.

(** The rollback: serial 4 again, correctly signed, and then serial 5. *)
Lemma serial_advances_witness :
  let b := demo_bundle "permit" 4 0 in let b' := demo_bundle "deny" 5 0 in
  let c := (load (load loaded_cache b (demo_signature b) 11).2 b' (demo_signature b') 12).2 in
  pc_rejected c = 1 ∧ pc_serial c = Some 5 ∧ pc_loaded loaded_cache <= pc_loaded c.
Proof.
  intros b b' c. split; [vm_compute; reflexivity|]. split; [vm_compute; reflexivity|].
  apply (serial_advances loaded_cache c).
  eapply rtc_l; [apply (step_load loaded_cache b (demo_signature b) 11)|].
  apply rtc_once. constructor.
Defined.

Lemma load_accepts_exactly_witness :
  let b := demo_bundle "permit" 4 0 in
  ∃ x c', load loaded_cache b (demo_signature b) 11 = (Raise x, c')
          ∧ pc_engine c' = pc_engine loaded_cache.
Proof.
  intros b. destruct (load_accepts_exactly loaded_cache b (demo_signature b) 11) as [_ H].
  destruct H as (x & c' & H & He & _).
  - intros e (_ & Hs & _). specialize (Hs 4 eq_refl). by vm_compute in Hs.
  - eauto.
Defined.

Lemma activation_tests_first_witness :
  let b := demo_bundle "deny" 5 0 in
  ∃ names c', activate_bundle loaded_cache b (demo_signature b) [demo_case true] 20
              = (Raise (ActivationFailed names), c')
  ∧ names = [u "reads"] ∧ pc_serial c' = pc_serial loaded_cache.
Proof.
  intros b. pose proof (activation_tests_first loaded_cache b (demo_signature b) [demo_case true] 20) as H.
  assert (E : ∃ c', activate_bundle loaded_cache b (demo_signature b) [demo_case true] 20
                    = (Raise (ActivationFailed [u "reads"]), c')).
  { eexists. vm_compute. reflexivity. }
  destruct E as (c' & E). rewrite E in H. destruct H as [H _]. exists [u "reads"], c'.
  split; [exact E|]. split; [done|]. congruence.
Defined.

Lemma allow_needs_fresh_bundle_witness :
  ∃ loaded_at, pc_loaded_at loaded_cache = Some loaded_at ∧ 100 - loaded_at <= 300.
Proof.
  assert (E : ∃ b v, cache_bound loaded_cache demo_agent 100 = Ok b
    ∧ (decide_request toy_vt toy_request [ScopeSubset {[u "invoice:read"]}] ([] : list pystr) b 50000 (Some tt)).1
      = Ok v ∧ v_outcome v = ALLOW).
  { do 2 eexists. split; [|split]; vm_compute; reflexivity. }
  destruct E as (b & v & Hb & Hv & Ho).
  destruct (allow_needs_fresh_bundle _ _ _ loaded_cache demo_agent 100 b toy_vt toy_request
    _ _ _ _ v loaded_reachable Hb Hv Ho) as (e & ps & rq & rs & l & _ & _ & Hl & Hle & _).
  exists l. split; [exact Hl|exact Hle].
Defined.

Lemma policy_fails_closed_witness :
  ∃ b v, cache_bound empty_cache demo_agent 100 = Ok b ∧ policy_step b toy_request = Ok (Some v)
         ∧ v_reason_code v = CONTROL_PLANE_UNAVAILABLE_FAIL_CLOSED.
Proof.
  destruct (policy_fails_closed _ _ _ empty_cache demo_agent 100 toy_request (rtc_refl _ empty_cache)) as (b & Hb & H).
  - vm_compute. reflexivity.
  - destruct H as (v & Hv & Hr). exists b, v. split; [exact Hb|]. split; [exact Hv|exact Hr].
Defined.
