(* ===== verification/Extractor.v ===== *)
(** * Scope and argument extraction (agentiam_pep/extractor.py)

    Step 1 of a request: the route table compiled from a mapping, and the scope, the
    tool and the arguments read off an untrusted HTTP request, with ambiguity refused.
    Starlette's path compiler is third-party code ([Routing]); case folding outside
    ASCII is Unicode data ([Casing]). *)
From S2P Require Import Prelude PyText Errors PyNum PyTime PyRe PyUuid PySha PyUrl PyJson Models Hashing.

(** [str.lower] and [str.upper]. *)
Class Casing := {
  py_lower : pystr → pystr;
  py_upper : pystr → pystr;
  py_lower_ascii s : forallb (λ c, c <? 128) s = true → py_lower s = ascii_lower <$> s;
  py_upper_ascii s : forallb (λ c, (c <? 128) && negb (rng 97 122 c)) s = true → py_upper s = s }.

(** [compile_path(path)]: the pattern and the names of its parameters; [match] gives the
    text of each parameter, still encoded. *)
Class Routing := {
  route_regex : Type;
  compile_path : pystr → py (route_regex * list pystr);
  regex_match : route_regex → pystr → option (list (pystr * pystr)) }.

Definition SCALE : Z := 10000.
Definition DEFAULT_MAX_EXTRACT_BODY_BYTES : Z := 1048576.
Definition _NUMBER_SUFFIX : pystr := u ":number".

(** ** Sources *)
Inductive SourceKind := KPath | KQuery | KBody | KHeader.
#[global] Instance SourceKind_eq_dec : EqDecision SourceKind.
Proof. solve_decision. Defined.

Definition kind_text (k : SourceKind) : pystr :=
  match k with KPath => u "path" | KQuery => u "query" | KBody => u "body" | KHeader => u "header" end.

(** [_SOURCE_KINDS]. *)
Definition kind_of (s : pystr) : option SourceKind :=
  List.find (λ k, bool_decide (kind_text k = s)) [KPath; KQuery; KBody; KHeader].

Record Source := mkSource { src_kind : SourceKind; src_keys : list pystr; src_numeric : bool }.
#[global] Instance Source_eq_dec : EqDecision Source.
Proof. solve_decision. Defined.

Definition src_name (s : Source) : pystr := default [] (head (src_keys s)).

(** [expression.endswith(suffix)], and what is before it. *)
Definition strip_suffix (suffix s : pystr) : option pystr :=
  reverse <$> strip_prefix (reverse suffix) (reverse s).

Section extractor.
Context {UN : Unicode} {ST : SortTies} {CA : Casing} {RT : Routing}.

Definition _parse_source (expression : pystr) : py Source :=
  let '(numeric, body) := match strip_suffix _NUMBER_SUFFIX expression with
                          | Some b => (true, b) | None => (false, expression) end in
  let '(kind, rest) := partition_char 46 body in
  match kind_of kind, default [] rest with
  | None, _ => Raise ValueError
  | Some _, [] => Raise ValueError
  | Some KBody, rest =>
      let keys := split_char 46 rest in
      raise_if (existsb (λ k, bool_decide (k = [])) keys) ValueError;; Ok (mkSource KBody keys numeric)
  | Some KHeader, rest => Ok (mkSource KHeader [py_lower rest] numeric)
  | Some kind, rest =>
      raise_if (bool_decide (46 ∈ rest)) ValueError;; Ok (mkSource kind [rest] numeric)
  end.

(** ** Routes *)
Record RouteRule := mkRouteRule {
  rr_method : pystr; rr_path : pystr; rr_scope : pystr; rr_tool : pystr;
  rr_sources : list (pystr * Source); rr_regex : route_regex; rr_drift_mode : DriftMode }.

Definition needs_body (r : RouteRule) : bool :=
  existsb (λ s, bool_decide (src_kind s.2 = KBody)) (rr_sources r).

Definition rule_matches (r : RouteRule) (method path : pystr) : option (list (pystr * pystr)) :=
  if negb (bool_decide (rr_method r = u "ANY")) && negb (bool_decide (rr_method r = method))
  then None else regex_match (rr_regex r) path.

Record RouteTable := mkRouteTable {
  rt_rules : list RouteRule; rt_deny_unmapped : bool; rt_max_extract_body_bytes : Z;
  rt_mapping_version : pystr }.

(** [DriftMode(value)]. *)
Definition drift_mode_of (v : value) : option DriftMode :=
  match v with
  | VStr s => if bool_decide (s = u "off") then Some OFF
              else if bool_decide (s = u "log_only") then Some LOG_ONLY
              else if bool_decide (s = u "strict") then Some STRICT else None
  | _ => None
  end.

Definition nonempty_text (v : value) : py pystr :=
  match v with VStr ((_ :: _) as s) => Ok s | _ => Raise ValueError end.

Definition compile_arg (params : list pystr) (arg : pystr * value) : py (pystr * Source) :=
  raise_if (bool_decide (arg.1 = [])) ValueError;;
  match arg.2 with
  | VStr expression =>
      source ← _parse_source expression;
      raise_if (bool_decide (src_kind source = KPath) && negb (bool_decide (src_name source ∈ params)))
        ValueError;;
      Ok (arg.1, source)
  | _ => Raise ValueError
  end.

Definition _compile_rule (raw : value) : py RouteRule :=
  match raw with
  | VMap raw =>
      drift ← match drift_mode_of (dict_get raw (u "drift_mode") (VStr (u "strict"))) with
              | Some d => Ok d | None => Raise ValueError end;
      method ← nonempty_text (dict_get raw (u "method") (VStr []));
      path ← nonempty_text (dict_get raw (u "path") (VStr []));
      scope ← nonempty_text (dict_get raw (u "scope") (VStr []));
      tool ← nonempty_text (dict_get raw (u "tool") (VStr []));
      raise_if (negb (starts_with (u "/") path)) ValueError;;
      '(regex, params) ← compile_path path;
      match dict_get raw (u "args") (VMap []) with
      | VMap args =>
          sources ← res_map (compile_arg params) args;
          Ok (mkRouteRule (py_upper method) path scope tool sources regex drift)
      | _ => Raise ValueError
      end
  | _ => Raise ValueError
  end.

Definition source_text (s : Source) : pystr :=
  kind_text (src_kind s) ++ u "." ++ py_join (u ".") (src_keys s)
  ++ (if src_numeric s then _NUMBER_SUFFIX else []).

Definition rule_shape (r : RouteRule) : value :=
  VMap [(u "method", VStr (rr_method r)); (u "path", VStr (rr_path r)); (u "scope", VStr (rr_scope r));
        (u "tool", VStr (rr_tool r));
        (u "args", VMap ((λ s, (s.1, VStr (source_text s.2))) <$> merge_sort key_le (rr_sources r)))].

Definition mapping_shape (rules : list RouteRule) (action : pystr) (max_body : Z) : value :=
  VMap [(u "default", VStr action); (u "max_extract_body_bytes", VInt max_body);
        (u "routes", VSeq (rule_shape <$> rules))].

Definition _mapping_version (rules : list RouteRule) (action : pystr) (max_body : Z) : py pystr :=
  hash_object (mapping_shape rules action max_body).

(** [action not in {...}] hashes the action: a list or an object raises. *)
Definition check_action (v : value) : py pystr :=
  match v with
  | VStr s => raise_if (negb (bool_decide (s = u "deny") || bool_decide (s = u "allow_unmapped"))) ValueError;;
              Ok s
  | VMap _ | VSeq _ | VSet _ => Raise TypeError
  | _ => Raise ValueError
  end.

Definition from_config (config : list (pystr * value)) : py RouteTable :=
  match dict_get config (u "routes") (VSeq []) with
  | VSeq raw_rules =>
      rules ← res_map _compile_rule raw_rules;
      action ← check_action (match dict_get config (u "default") (VMap []) with
                             | VMap d => dict_get d (u "action") (VStr (u "deny"))
                             | _ => VStr (u "deny") end);
      match dict_get config (u "max_extract_body_bytes") (VInt DEFAULT_MAX_EXTRACT_BODY_BYTES) with
      | VInt max_body =>
          raise_if (max_body <=? 0) ValueError;;
          version ← _mapping_version rules action max_body;
          Ok (mkRouteTable rules (bool_decide (action = u "deny")) max_body version)
      | _ => Raise ValueError
      end
  | _ => Raise ValueError
  end.

(** ** Values *)
Inductive ArgValue := AInt (n : Z) | AText (s : pystr).

Definition malformed {A} : py A := Raise (ExtractionError MALFORMED_REQUEST).

(** [Decimal(str(value))], refused when it is not a number; a container's text starts
    with a bracket and never is. *)
Definition number_of (raw : json) : py pydec :=
  match raw with
  | JBool _ => malformed
  | JNum _ d => Ok (DFin d)
  | JStr s | JConst s => match parse_decimal s with Some d => Ok d | None => malformed end
  | JNull | JArr _ | JObj _ => malformed
  end.

Definition _to_scaled (raw : json) : py Z :=
  number ← number_of raw;
  match number with
  | DFin d =>
      scaled ← dec_mul d (dec_of_int SCALE);
      raise_if (negb (dec_is_integral scaled)) (ExtractionError MALFORMED_REQUEST);;
      Ok (dec_to_int scaled)
  | _ => malformed
  end.

Definition _to_text (raw : json) : py pystr :=
  match raw with
  | JBool b => Ok (if b then u "true" else u "false")
  | JNum neg d => Ok (dec_str neg d)
  | JStr s => Ok (_normalize s)
  | _ => malformed
  end.

(** ** Reading the request *)
Definition collect (pairs : list (pystr * pystr)) : gmap pystr (list pystr) :=
  foldl (λ m kv, <[kv.1 := default [] (m !! kv.1) ++ [kv.2]]> m) ∅ pairs.

Definition _collect_query (query_string : pystr) : gmap pystr (list pystr) :=
  collect (parse_qsl query_string).

Definition _collect_headers (headers : list (pystr * pystr)) : gmap pystr (list pystr) :=
  collect ((λ h, (py_lower h.1, h.2)) <$> headers).

Definition _one_of (collected : gmap pystr (list pystr)) (name : pystr) : py (option pystr) :=
  match default [] (collected !! name) with
  | [] => Ok None
  | [v] => Ok (Some v)
  | _ => malformed
  end.

(** A key's value is its last; [_Object.duplicates] are the keys met twice. *)
Definition obj_get (kvs : list (pystr * json)) (key : pystr) : option json :=
  snd <$> last (List.filter (λ kv, bool_decide (kv.1 = key)) kvs).
Definition obj_duplicate (kvs : list (pystr * json)) (key : pystr) : bool :=
  Nat.ltb 1 (length (List.filter (λ kv, bool_decide (kv.1 = key)) kvs)).

Fixpoint _resolve_body (root : json) (keys : list pystr) : py (option json) :=
  match keys with
  | [] => Ok (Some root)
  | key :: keys =>
      match root with
      | JObj kvs =>
          raise_if (obj_duplicate kvs key) (ExtractionError MALFORMED_REQUEST);;
          match obj_get kvs key with
          | None => Ok None
          | Some v => _resolve_body v keys
          end
      | _ => Ok None
      end
  end.

(** [None], and the root of no path, when the body is absent or not JSON. *)
Definition _parse_body (body : list Z) : py json :=
  if bool_decide (body = []) then Ok JNull else
  match utf8_decode body with
  | None => Ok JNull
  | Some text =>
      match json_loads text with
      | Ok parsed => Ok parsed
      | Raise ValueError => Ok JNull
      | Raise e => Raise e
      end
  end.

(** ** [extract] *)
Record Extraction := mkExtraction {
  ex_scope : pystr; ex_tool : pystr; ex_args : list (pystr * ArgValue); ex_arg_digest : pystr;
  ex_drift_mode : DriftMode }.

Definition arg_to_value (a : ArgValue) : value :=
  match a with AInt n => VInt n | AText s => VStr s end.
Definition args_value (args : list (pystr * ArgValue)) : value :=
  VMap ((λ a, (a.1, arg_to_value a.2)) <$> args).

Record request_parts := mkParts {
  rp_path : list (pystr * pystr); rp_query : gmap pystr (list pystr);
  rp_headers : gmap pystr (list pystr); rp_body : json }.

(** What a source finds: [None] is absent, and JSON [null] counts as absent. *)
Definition read_source (parts : request_parts) (source : Source) : py (option json) :=
  match src_kind source with
  | KPath => Ok ((λ kv : pystr * pystr, JStr kv.2) <$>
                 List.find (λ kv, bool_decide (kv.1 = src_name source)) (rp_path parts))
  | KQuery => v ← _one_of (rp_query parts) (src_name source); Ok (option_map (λ s, JStr (_normalize s)) v)
  | KHeader => v ← _one_of (rp_headers parts) (src_name source); Ok (option_map (λ s, JStr (_normalize s)) v)
  | KBody => v ← _resolve_body (rp_body parts) (src_keys source);
             Ok (match v with Some JNull => None | v => v end)
  end.

Definition convert (source : Source) (raw : json) : py ArgValue :=
  if src_numeric source then AInt <$> _to_scaled raw else AText <$> _to_text raw.

(** [args[label] = v]. *)
Fixpoint dict_set {A} (l : list (pystr * A)) (k : pystr) (v : A) : list (pystr * A) :=
  match l with
  | [] => [(k, v)]
  | (k', v') :: l => if bool_decide (k' = k) then (k, v) :: l else (k', v') :: dict_set l k v
  end.

Fixpoint read_args (parts : request_parts) (sources : list (pystr * Source))
    (args : list (pystr * ArgValue)) : py (list (pystr * ArgValue)) :=
  match sources with
  | [] => Ok args
  | (label, source) :: sources =>
      raw ← read_source parts source;
      match raw with
      | None => read_args parts sources args
      | Some raw => v ← convert source raw; read_args parts sources (dict_set args label v)
      end
  end.

(** The first rule that matches. *)
Fixpoint find_rule (rules : list RouteRule) (method path : pystr)
    : option (RouteRule * list (pystr * pystr)) :=
  match rules with
  | [] => None
  | r :: rules =>
      match rule_matches r method path with
      | Some params => Some (r, params)
      | None => find_rule rules method path
      end
  end.

Definition extract (table : RouteTable) (method path query_string : pystr)
    (headers : list (pystr * pystr)) (body : option (list Z)) : py Extraction :=
  match find_rule (rt_rules table) (py_upper method) path with
  | None =>
      if rt_deny_unmapped table then malformed else
      digest ← hash_object (VMap []);
      Ok (mkExtraction [] [] [] digest STRICT)
  | Some (rule, params) =>
      let path_params := (λ kv : pystr * pystr, (kv.1, _normalize (unquote kv.2))) <$> params in
      parsed ← match body with
               | Some b =>
                   if needs_body rule then
                     raise_if (rt_max_extract_body_bytes table <? Z.of_nat (length b))
                       (ExtractionError MALFORMED_REQUEST);;
                     _parse_body b
                   else Ok JNull
               | None => Ok JNull
               end;
      args ← read_args (mkParts path_params (_collect_query query_string) (_collect_headers headers) parsed)
               (rr_sources rule) [];
      digest ← hash_object (args_value args);
      Ok (mkExtraction (rr_scope rule) (rr_tool rule) args digest (rr_drift_mode rule))
  end.
End extractor.
