(* ===== verification/ExtractorSpec.v ===== *)
(** * What extraction promises

    Every argument comes from one occurrence in the request, whatever the wire repeats;
    a declared number is exact up to the precision of the arithmetic; a route table is
    checked when it is built; and a source prints as the expression it was read
    from. *)
From S2P Require Import Prelude PyText Errors PyNum PyTime PyRe PyUuid PySha PyUrl PyJson Models Hashing HashingSpec Extractor.

Section extractor_spec.
Context {UN : Unicode} {ST : SortTies} {CA : Casing} {RT : Routing}.

(** ** Collected values *)
Definition occurrences (name : pystr) (pairs : list (pystr * pystr)) : list pystr :=
  snd <$> filter (λ kv, kv.1 = name) pairs.

Lemma collect_occurrences pairs name : default [] (collect pairs !! name) = occurrences name pairs.
Proof.
  unfold collect, occurrences. replace (snd <$> _) with (default [] ((∅ : gmap pystr (list pystr)) !! name)
    ++ (snd <$> filter (λ kv, kv.1 = name) pairs)) by done.
  generalize (∅ : gmap pystr (list pystr)) as m. induction pairs as [|[k v] pairs IH]; intros m.
  { by rewrite app_nil_r. }
  cbn [foldl]. rewrite IH. cbn [fst snd]. rewrite filter_cons. cbn [fst].
  destruct (decide (k = name)) as [->|Hne].
  - rewrite lookup_insert_eq. cbn [from_option fmap list_fmap snd]. unfold id. by rewrite <- app_assoc.
  - by rewrite lookup_insert_ne.
Qed.

(** What [_one_of] answers is the one occurrence, and several are refused. *)
Lemma one_of_spec pairs name :
  _one_of (collect pairs) name =
    match occurrences name pairs with
    | [] => Ok None | [v] => Ok (Some v) | _ => Raise (ExtractionError MALFORMED_REQUEST)
    end.
Proof. unfold _one_of. by rewrite collect_occurrences. Qed.

(** ** The path through a JSON body *)

(** [at_path root keys v]: following [keys] from [root], each key once in its object. *)
Inductive at_path : json → list pystr → json → Prop :=
| at_here v : at_path v [] v
| at_key kvs key keys v w :
    filter (λ kv, kv.1 = key) kvs = [(key, v)] → at_path v keys w →
    at_path (JObj kvs) (key :: keys) w.

(** The path is absent: it stops at something that is not an object or lacks the key. *)
Inductive off_path : json → list pystr → Prop :=
| off_leaf root key keys : (∀ kvs, root ≠ JObj kvs) → off_path root (key :: keys)
| off_missing kvs key keys :
    filter (λ kv, kv.1 = key) kvs = [] → off_path (JObj kvs) (key :: keys)
| off_below kvs key keys v :
    filter (λ kv, kv.1 = key) kvs = [(key, v)] → off_path v keys → off_path (JObj kvs) (key :: keys).

Lemma filter_fst {A} key (kvs : list (pystr * A)) :
  List.filter (λ kv, bool_decide (kv.1 = key)) kvs = filter (λ kv, kv.1 = key) kvs.
Proof.
  induction kvs as [|[k v] kvs IH]; [done|]. rewrite filter_cons. cbn [List.filter fst].
  case_bool_decide; case_decide; try done. by rewrite IH.
Qed.

Lemma filter_fst_key {A} key (kvs : list (pystr * A)) kv l :
  filter (λ kv, kv.1 = key) kvs = kv :: l → kv.1 = key.
Proof.
  intros E. assert (H : kv ∈ filter (λ kv : pystr * A, kv.1 = key) kvs) by (rewrite E; left).
  by apply list_elem_of_filter in H as [H _].
Qed.

Lemma resolve_body_spec root keys r :
  _resolve_body root keys = Ok r →
  match r with Some v => at_path root keys v | None => off_path root keys end.
Proof.
  revert root. induction keys as [|key keys IH]; intros root; cbn [_resolve_body].
  { intros [= <-]. constructor. }
  destruct root as [| | | | | |kvs]; try (intros [= <-]; by constructor).
  unfold obj_duplicate, obj_get. rewrite filter_fst.
  destruct (filter _ kvs) as [|[k v] [|kv l]] eqn:E; cbn [length Nat.ltb Nat.leb raise_if mbind res_bind last fmap
    option_fmap option_map snd]; try done.
  - intros [= <-]. by constructor.
  - pose proof (filter_fst_key _ _ _ _ E) as Hk. cbn [fst] in Hk. subst k.
    intros Hr. specialize (IH _ Hr). destruct r; [by eapply at_key|by eapply off_below].
Qed.

(** ** Reading the arguments *)

(** The one value the request has for a source, or none. *)
Definition finds (parts : list (pystr * pystr)) (query_string : pystr) (headers : list (pystr * pystr))
    (body : json) (s : Source) (raw : option json) : Prop :=
  match src_kind s with
  | KPath => raw = JStr ∘ snd <$> List.find (λ kv, bool_decide (kv.1 = src_name s)) parts
  | KQuery =>
      (raw = None ∧ occurrences (src_name s) (parse_qsl query_string) = [])
      ∨ ∃ v, raw = Some (JStr (_normalize v)) ∧ occurrences (src_name s) (parse_qsl query_string) = [v]
  | KHeader =>
      (raw = None ∧ occurrences (src_name s) ((λ h, (py_lower h.1, h.2)) <$> headers) = [])
      ∨ ∃ v, raw = Some (JStr (_normalize v))
             ∧ occurrences (src_name s) ((λ h, (py_lower h.1, h.2)) <$> headers) = [v]
  | KBody =>
      (raw = None ∧ (off_path body (src_keys s) ∨ at_path body (src_keys s) JNull))
      ∨ ∃ v, raw = Some v ∧ v ≠ JNull ∧ at_path body (src_keys s) v
  end.

Lemma read_source_finds parts q h b s raw :
  read_source (mkParts parts (_collect_query q) (_collect_headers h) b) s = Ok raw →
  finds parts q h b s raw.
Proof.
  unfold read_source, finds, _collect_query, _collect_headers. cbn [rp_path rp_query rp_headers rp_body].
  destruct (src_kind s).
  - intros [= <-]. by destruct (List.find _ _).
  - rewrite one_of_spec. destruct (occurrences _ _) as [|v [|]]; [|destruct b|done];
      intros [= <-]; eauto.
  - intros (r & Hr & [= <-])%bind_Ok_inv. apply resolve_body_spec in Hr.
    destruct r as [[]|]; try (right; eexists; split; [done|]; split; [done|exact Hr]); left; auto.
  - rewrite one_of_spec. destruct (occurrences _ _) as [|v [|]]; [|destruct b|done];
      intros [= <-]; eauto.
Qed.

Definition arg_at (label : pystr) (args : list (pystr * ArgValue)) : option ArgValue :=
  snd <$> List.find (λ a, bool_decide (a.1 = label)) args.

Lemma arg_at_set args k v l :
  arg_at l (dict_set args k v) = if decide (k = l) then Some v else arg_at l args.
Proof.
  unfold arg_at. induction args as [|[k' v'] args IH]; cbn [dict_set List.find fst].
  { case_bool_decide; case_decide; try done. }
  destruct (decide (k' = k)) as [->|Hne].
  - rewrite (bool_decide_true (k = k)) by done. cbn [List.find fst].
    case_bool_decide; case_decide; try done.
  - rewrite (bool_decide_false (k' = k)) by done. cbn [List.find fst].
    destruct (decide (k' = l)) as [->|].
    + rewrite bool_decide_true by done. by rewrite decide_False by congruence.
    + rewrite bool_decide_false by done. apply IH.
Qed.

(** What [read_args] leaves at a label: what its source finds, converted. *)
Lemma read_args_spec parts sources args out :
  NoDup sources.*1 → read_args parts sources args = Ok out →
  (∀ label source, (label, source) ∈ sources →
     ∃ raw, read_source parts source = Ok raw ∧
       match raw with
       | None => arg_at label out = arg_at label args
       | Some raw => ∃ v, convert source raw = Ok v ∧ arg_at label out = Some v
       end)
  ∧ (∀ label, label ∉ sources.*1 → arg_at label out = arg_at label args).
Proof.
  revert args. induction sources as [|[l s] sources IH]; intros args Hnd; cbn [read_args].
  { intros [= <-]. split; [by intros ?? ?%elem_of_nil|done]. }
  cbn [fmap list_fmap fst] in Hnd. apply NoDup_cons in Hnd as [Hl Hnd].
  intros (raw & Hraw & H)%bind_Ok_inv.
  assert (Hstep : ∃ args', read_args parts sources args' = Ok out
    ∧ (∀ label, label ≠ l → arg_at label args' = arg_at label args)
    ∧ match raw with None => arg_at l args' = arg_at l args
      | Some r => ∃ v, convert s r = Ok v ∧ arg_at l args' = Some v end).
  { destruct raw as [r|]; [|by exists args].
    apply bind_Ok_inv in H as (v & Hv & H). exists (dict_set args l v). split; [done|]. split.
    - intros label Hne. rewrite arg_at_set, decide_False; [done|congruence].
    - exists v. split; [done|]. by rewrite arg_at_set, decide_True. }
  destruct Hstep as (args' & Hr & Hne & Hat). destruct (IH args' Hnd Hr) as [IH1 IH2]. split.
  - intros label source [[= -> ->]|Hin]%elem_of_cons.
    + exists raw. split; [done|]. rewrite (IH2 l Hl). exact Hat.
    + assert (label ≠ l).
      { intros ->. apply Hl. by apply (list_elem_of_fmap_2 fst) in Hin. }
      destruct (IH1 _ _ Hin) as (raw' & Hraw' & Hm). exists raw'. split; [done|].
      destruct raw'; [exact Hm|]. by rewrite Hm, Hne.
  - intros label Hn. cbn [fmap list_fmap fst] in Hn. apply not_elem_of_cons in Hn as [??].
    rewrite IH2 by done. by apply Hne.
Qed.

(** The body a rule's sources read: parsed only for a rule that needs it, within the
    limit, and the root of no path otherwise. *)
Definition body_read (table : RouteTable) (rule : RouteRule) (body : option (list Z)) (root : json) : Prop :=
  match body with
  | Some b => if needs_body rule
              then Z.of_nat (length b) <= rt_max_extract_body_bytes table ∧ _parse_body b = Ok root
              else root = JNull
  | None => root = JNull
  end.

(** C38: extraction reads exactly the request.  On a mapped route, whatever is returned has
    the rule's scope, tool and drift mode, the digest of its own arguments, and at each
    label the conversion of the single value the request has for that source: a query
    parameter, a header or a JSON key that occurs twice is never resolved, and an absent
    one leaves no argument. *)
Theorem extract_reads_exactly table method path q headers body ex rule params :
  find_rule (rt_rules table) (py_upper method) path = Some (rule, params) →
  NoDup (rr_sources rule).*1 →
  extract table method path q headers body = Ok ex →
  (ex_scope ex, ex_tool ex, ex_drift_mode ex) = (rr_scope rule, rr_tool rule, rr_drift_mode rule)
  ∧ hash_object (args_value (ex_args ex)) = Ok (ex_arg_digest ex)
  ∧ ∃ root, body_read table rule body root
    ∧ (∀ label source, (label, source) ∈ rr_sources rule →
         ∃ raw, finds ((λ kv, (kv.1, _normalize (unquote kv.2))) <$> params) q headers root source raw
           ∧ match raw with
             | None => arg_at label (ex_args ex) = None
             | Some raw => ∃ v, convert source raw = Ok v ∧ arg_at label (ex_args ex) = Some v
             end)
    ∧ ∀ label, label ∉ (rr_sources rule).*1 → arg_at label (ex_args ex) = None.
Proof.
  unfold extract. intros -> Hnd He. cbv zeta in He.
  apply bind_Ok_inv in He as (root & Hroot & He). apply bind_Ok_inv in He as (args & Hargs & He).
  apply bind_Ok_inv in He as (digest & Hd & [= <-]). cbn [ex_scope ex_tool ex_drift_mode ex_args ex_arg_digest].
  split; [done|]. split; [done|]. exists root. split.
  { unfold body_read. destruct body as [b|]; [|by injection Hroot]. destruct (needs_body rule); [|by injection Hroot].
    apply bind_Ok_inv in Hroot as (? & Hl%raise_if_Ok & Hp). split; [by apply Z.ltb_ge|done]. }
  destruct (read_args_spec _ _ _ _ Hnd Hargs) as [H1 H2]. split; [|exact H2].
  intros label source Hin. destruct (H1 _ _ Hin) as (raw & Hraw & Hm).
  exists raw. split; [by apply read_source_finds|exact Hm].
Qed.

(** ** Numbers *)
Lemma units_eqb n d :
  dec_eqb (dec_of_units n) d = true ↔
  n * 10 ^ Z.max 0 (- dexp d) = dcoef d * SCALE * 10 ^ Z.max 0 (dexp d).
Proof.
  unfold dec_eqb, dec_of_units, SCALE. rewrite (dec_compare_scale _ _ (Z.min 0 (dexp d) - 4)) by (simpl; lia).
  cbn [dcoef dexp].
  assert (E : ∀ a b, match a ?= b with Eq => true | _ => false end = true ↔ a = b).
  { intros a b. destruct (Z.compare_spec a b); split; intros; try done; lia. }
  rewrite E. replace (-4 - (Z.min 0 (dexp d) - 4)) with (Z.max 0 (- dexp d)) by lia.
  replace (dexp d - (Z.min 0 (dexp d) - 4)) with (4 + Z.max 0 (dexp d)) by lia.
  rewrite Z.pow_add_r by lia. by rewrite Z.mul_assoc.
Qed.

(** A declared number is exact or refused.  For every number of at most 24 significant
    digits and ordinary exponent, extraction yields [n] exactly when the number is [n]
    units of 1/10000: never a rounded one. *)
Theorem scaled_exact raw d n :
  number_of raw = Ok (DFin d) → Z.abs (dcoef d) < 10 ^ 24 → Etiny <= dexp d <= Emax - 28 →
  _to_scaled raw = Ok n ↔ dec_eqb (dec_of_units n) d = true.
Proof.
  intros Hr Hc He. rewrite units_eqb. unfold _to_scaled. rewrite Hr. cbn [mbind res_bind].
  unfold dec_mul, dec_of_int. cbn [dcoef dexp]. rewrite Z.add_0_r.
  assert (Hfix : ∃ e, dec_fix (Dec (dcoef d * SCALE) (dexp d)) = Ok (Dec (dcoef d * SCALE) e)
                      ∧ (dcoef d = 0 ∨ e = dexp d)).
  { destruct (Z.eq_dec (dcoef d) 0) as [->|Hne].
    - eexists. split; [reflexivity|by left].
    - exists (dexp d). split; [|by right]. apply dec_fix_exact; unfold SCALE; [lia| |lia].
      rewrite Z.abs_mul. change (Z.abs 10000) with (10 ^ 4). change (10 ^ 28) with (10 ^ 24 * 10 ^ 4). nia. }
  destruct Hfix as (e & -> & He'). cbn [mbind res_bind].
  assert (P : ∀ k, 0 < 10 ^ Z.max 0 k) by (intros; apply Z.pow_pos_nonneg; lia).
  destruct (Z.eq_dec (dcoef d) 0) as [H0|Hne].
  - rewrite H0. unfold dec_is_integral, dec_to_int. cbn [dcoef dexp]. rewrite !Z.mul_0_l, Zmod_0_l, orb_true_r.
    cbn [negb raise_if mbind res_bind]. assert ((if 0 <=? e then 0 else Z.quot 0 (10 ^ (- e))) = 0) as ->.
    { destruct (Z.leb_spec 0 e); [done|]. apply Z.quot_0_l. apply Z.pow_nonzero; lia. }
    specialize (P (- dexp d)). split; [intros [= <-]; lia|]. intros. f_equal. nia.
  - destruct He' as [?| ->]; [done|]. unfold dec_is_integral, dec_to_int. cbn [dcoef dexp].
    destruct (Z.leb_spec 0 (dexp d)) as [Hpos|Hneg]; cbn [orb negb raise_if mbind res_bind].
    + rewrite (Z.max_l 0 (- dexp d)), (Z.max_r 0 (dexp d)) by lia. rewrite Z.mul_1_r.
      split; [intros [= <-]; done|by intros ->].
    + rewrite (Z.max_r 0 (- dexp d)), (Z.max_l 0 (dexp d)) by lia. rewrite Z.mul_1_r.
      specialize (P (- dexp d)). rewrite Z.max_r in P by lia. set (p := 10 ^ (- dexp d)) in *.
      set (c := dcoef d * SCALE). destruct (Z.eqb_spec (c mod p) 0) as [Hm|Hm]; cbn [negb raise_if mbind res_bind].
      * apply Z.mod_divide in Hm as [k ->]; [|lia]. rewrite Z.quot_mul by lia.
        split; [intros [= <-]; done|]. intros H%Z.mul_reg_r; [by subst|lia].
      * split; [done|]. intros <-. by rewrite Z.mod_mul in Hm by lia.
Qed.

(** ** The mapping *)
Lemma strip_suffix_Some suf s b : strip_suffix suf s = Some b → s = b ++ suf.
Proof.
  unfold strip_suffix. destruct (strip_prefix _ _) as [r|] eqn:E; [|done]. intros [= <-].
  apply strip_prefix_Some in E. apply (f_equal reverse) in E.
  by rewrite reverse_involutive, reverse_app, reverse_involutive in E.
Qed.

Lemma partition_char_spec c s a o :
  partition_char c s = (a, o) →
  c ∉ a ∧ s = a ++ (match o with Some b => c :: b | None => [] end).
Proof.
  revert a o. induction s as [|x s IH]; intros a o; cbn [partition_char].
  { intros [= <- <-]. split; [apply not_elem_of_nil|done]. }
  destruct (Z.eqb_spec x c) as [->|Hne].
  { intros [= <- <-]. split; [apply not_elem_of_nil|done]. }
  destruct (partition_char c s) as [a' o'] eqn:E. destruct (IH _ _ eq_refl) as [Hn ->].
  intros [= <- <-]. split; [|done]. apply not_elem_of_cons. by split.
Qed.

Lemma split_char_fields c s k : k ∈ split_char c s → c ∉ k.
Proof.
  revert k. induction s as [|a s IH]; intros k; cbn [split_char].
  { intros ->%list_elem_of_singleton. apply not_elem_of_nil. }
  destruct (Z.eqb_spec a c) as [->|Hne].
  - intros [->|H]%elem_of_cons; [apply not_elem_of_nil|auto].
  - destruct (split_char c s) as [|p ps].
    + intros ->%list_elem_of_singleton. apply not_elem_of_cons. split; [congruence|apply not_elem_of_nil].
    + intros [->|H]%elem_of_cons; [|apply IH; by right].
      apply not_elem_of_cons. split; [congruence|]. apply IH. by left.
Qed.

Lemma split_char_nonempty c s : split_char c s ≠ [].
Proof. destruct s as [|a s]; cbn [split_char]; [done|]. repeat case_match; done. Qed.

Lemma kind_of_text s k : kind_of s = Some k → kind_text k = s.
Proof. unfold kind_of. intros [_ H]%find_some. by apply bool_decide_eq_true in H. Qed.

(** A source is one parameter name, or a non-empty path of them. *)
Definition source_ok (params : list pystr) (s : Source) : Prop :=
  match src_kind s with
  | KPath => ∃ k, src_keys s = [k] ∧ k ≠ [] ∧ 46 ∉ k ∧ k ∈ params
  | KQuery => ∃ k, src_keys s = [k] ∧ k ≠ [] ∧ 46 ∉ k
  | KHeader => ∃ k, src_keys s = [py_lower k] ∧ k ≠ []
  | KBody => src_keys s ≠ [] ∧ Forall (λ k, k ≠ [] ∧ 46 ∉ k) (src_keys s)
  end.

Lemma parse_source_spec e s :
  _parse_source e = Ok s →
  source_ok [src_name s] s
  ∧ ∃ rest, e = kind_text (src_kind s) ++ u "." ++ rest ++ (if src_numeric s then _NUMBER_SUFFIX else [])
    ∧ src_keys s = match src_kind s with KBody => split_char 46 rest | KHeader => [py_lower rest] | _ => [rest] end.
Proof.
  unfold _parse_source.
  destruct (match strip_suffix _NUMBER_SUFFIX e with Some b => _ | None => _ end) as [numeric body] eqn:Eb.
  assert (He : e = body ++ (if numeric then _NUMBER_SUFFIX else [])).
  { destruct (strip_suffix _ e) eqn:E; injection Eb as <- <-; [by apply strip_suffix_Some|by rewrite app_nil_r]. }
  destruct (partition_char 46 body) as [kind o] eqn:Ep. apply partition_char_spec in Ep as [_ Hb].
  destruct (kind_of kind) as [k|] eqn:Ek; [|done]. apply kind_of_text in Ek.
  destruct (default [] o) as [|c rest] eqn:Eo; [by destruct k|].
  destruct o as [b|]; [|done]. cbn in Eo. unfold id in Eo. subst b.
  assert (Hr : e = kind_text k ++ u "." ++ (c :: rest) ++ (if numeric then _NUMBER_SUFFIX else [])).
  { by rewrite He, Hb, Ek, <- !app_assoc. }
  remember (c :: rest) as r eqn:Er. assert (Hne : r ≠ []) by by subst. clear Er.
  destruct k; cbn match; intros Hs.
  - apply bind_Ok_inv in Hs as (? & Hd%raise_if_Ok & [= <-]). apply bool_decide_eq_false in Hd.
    split; [exists r; repeat split; auto; by left|eauto].
  - apply bind_Ok_inv in Hs as (? & Hd%raise_if_Ok & [= <-]). apply bool_decide_eq_false in Hd.
    split; [exists r; auto|eauto].
  - apply bind_Ok_inv in Hs as (? & Hd%raise_if_Ok & [= <-]). split; [|eauto].
    split; [apply split_char_nonempty|]. apply Forall_forall. intros k Hk.
    split; [|by eapply split_char_fields]. intros ->. rewrite <- not_true_iff_false in Hd. apply Hd.
    apply existsb_exists. exists []. split; [by apply list_elem_of_In|done].
  - injection Hs as <-. split; [exists r; auto|eauto].
Qed.

(** A source prints as the expression it was read from, header names apart, which are
    folded to lower case: the mapping version tells expressions apart as they were
    written. *)
Theorem source_prints_back e s :
  _parse_source e = Ok s → src_kind s ≠ KHeader → source_text s = e.
Proof.
  intros Hs Hk. apply parse_source_spec in Hs as (_ & rest & -> & Hkeys). unfold source_text. rewrite Hkeys.
  change (u ".") with [46]. do 2 f_equal. destruct (src_kind s); try done.
  by rewrite split_char_join.
Qed.

Definition rule_ok (r : RouteRule) : Prop :=
  starts_with (u "/") (rr_path r) = true ∧ rr_scope r ≠ [] ∧ rr_tool r ≠ []
  ∧ ∃ params, compile_path (rr_path r) = Ok (rr_regex r, params)
              ∧ Forall (λ s, s.1 ≠ [] ∧ source_ok params s.2) (rr_sources r).

Lemma nonempty_text_Ok v s : nonempty_text v = Ok s → v = VStr s ∧ s ≠ [].
Proof. destruct v as [| | | | | |[|c t]| | | | | | |]; try done. by intros [= <-]. Qed.

Lemma compile_arg_Ok params arg s :
  compile_arg params arg = Ok s → s.1 = arg.1 ∧ s.1 ≠ [] ∧ source_ok params s.2.
Proof.
  unfold compile_arg. destruct (bool_decide (arg.1 = [])) eqn:El; [done|]. cbn [raise_if mbind res_bind].
  apply bool_decide_eq_false in El. destruct arg.2; try done.
  intros (src & Hs & (? & Hp%raise_if_Ok & [= <-])%bind_Ok_inv)%bind_Ok_inv. cbn [fst snd].
  split; [done|]. split; [done|]. apply parse_source_spec in Hs as [Hok _]. unfold source_ok in *.
  destruct (src_kind src); try done. destruct Hok as (k & Hk & ? & ? & _). exists k.
  split_and!; try done. unfold src_name in Hp. rewrite Hk in Hp. cbn in Hp. unfold id in Hp.
  apply negb_false_iff, bool_decide_eq_true in Hp. done.
Qed.

Lemma compile_rule_Ok raw r : _compile_rule raw = Ok r → rule_ok r.
Proof.
  unfold _compile_rule. destruct raw as [| | | | | | | | | |raw| | |]; try done.
  intros (d & _ & (m & _ & (p & Hp & (s & Hs & (t & Ht & (? & Hsl%raise_if_Ok & H)%bind_Ok_inv)%bind_Ok_inv)%bind_Ok_inv)%bind_Ok_inv)%bind_Ok_inv)%bind_Ok_inv.
  apply bind_Ok_inv in H as ([regex params] & Hc & H).
  destruct (dict_get raw (u "args") (VMap [])) as [| | | | | | | | | |args| | |]; try done.
  apply bind_Ok_inv in H as (sources & Hsrc & [= <-]). unfold rule_ok.
  cbn [rr_path rr_scope rr_tool rr_regex rr_sources].
  apply nonempty_text_Ok in Hs as [_ ?], Ht as [_ ?]. apply negb_false_iff in Hsl.
  do 3 (split; [done|]). exists params. split; [done|]. apply res_map_Forall2 in Hsrc.
  apply Forall_forall. intros src Hx. apply list_elem_of_lookup_1 in Hx as [i Hi].
  destruct (Forall2_lookup_r _ _ _ _ _ Hsrc Hi) as (arg & _ & Hy). apply compile_arg_Ok in Hy. tauto.
Qed.

(** A route table that loads is sound: every rule has a rooted path that compiled, a
    scope, a tool, and sources that name parameters, those of the path among the ones the
    path defines; the body limit is positive and unmapped routes are denied unless the
    mapping says otherwise. *)
Theorem config_checked config table :
  from_config config = Ok table →
  Forall rule_ok (rt_rules table) ∧ 0 < rt_max_extract_body_bytes table
  ∧ (rt_deny_unmapped table = false →
     ∃ d, dict_get config (u "default") (VMap []) = VMap d
          ∧ dict_get d (u "action") (VStr (u "deny")) = VStr (u "allow_unmapped")).
Proof.
  unfold from_config. destruct (dict_get config (u "routes") _) as [| | | | | | | | | | | |raw|]; try done.
  intros (rules & Hr & (action & Ha & H)%bind_Ok_inv)%bind_Ok_inv.
  destruct (dict_get config (u "max_extract_body_bytes") _) as [| |n| | | | | | | | | | |]; try done.
  apply bind_Ok_inv in H as (? & Hn%raise_if_Ok & H). apply bind_Ok_inv in H as (version & _ & [= <-]).
  cbn [rt_rules rt_max_extract_body_bytes rt_deny_unmapped]. split_and!.
  - apply res_map_Forall2 in Hr. apply Forall_forall. intros r Hin. apply list_elem_of_lookup_1 in Hin as [i Hi].
    destruct (Forall2_lookup_r _ _ _ _ _ Hr Hi) as (raw_rule & _ & Hx). by eapply compile_rule_Ok.
  - by apply Z.leb_gt in Hn.
  - intros Hd%bool_decide_eq_false.
    destruct (dict_get config (u "default") (VMap [])) as [| | | | | | | | | |d| | |];
      try (cbn in Ha; by injection Ha as <-).
    exists d. split; [done|]. destruct (dict_get d (u "action") _) as [| | | | | |s| | | | | | |]; try done.
    cbn [check_action] in Ha. apply bind_Ok_inv in Ha as (? & Hs%raise_if_Ok & [= <-]).
    apply negb_false_iff, orb_true_iff in Hs as [Hs|Hs]; apply bool_decide_eq_true in Hs;
      [by destruct (Hd Hs)|by rewrite Hs].
Qed.

(** An unmapped route is refused, or yields the empty scope where the table says so. *)
Theorem unmapped_route table method path q headers body :
  find_rule (rt_rules table) (py_upper method) path = None →
  match extract table method path q headers body with
  | Ok ex => rt_deny_unmapped table = false ∧ ex_scope ex = [] ∧ ex_args ex = []
  | Raise e => rt_deny_unmapped table = true → e = ExtractionError MALFORMED_REQUEST
  end.
Proof.
  unfold extract. intros ->. destruct (rt_deny_unmapped table) eqn:Ed; [done|].
  by destruct (hash_object (VMap [])).
Qed.

(** The mapping version does not see the drift modes. *)
Definition with_drift (m : DriftMode) (r : RouteRule) : RouteRule :=
  mkRouteRule (rr_method r) (rr_path r) (rr_scope r) (rr_tool r) (rr_sources r) (rr_regex r) m.

Theorem drift_mode_not_versioned rules m action max_body :
  _mapping_version (with_drift m <$> rules) action max_body = _mapping_version rules action max_body.
Proof.
  unfold _mapping_version, mapping_shape. do 7 f_equal. rewrite <- list_fmap_compose.
  apply list_fmap_ext. by intros.
Qed.
End extractor_spec.

(** ** A concrete gateway *)
Definition ascii_upper (c : Z) : Z := if rng 97 122 c then c - 32 else c.

Definition ascii_casing : Casing.
Proof.
  refine {| py_lower := fmap ascii_lower; py_upper := fmap ascii_upper |}; [done|].
  intros s. induction s as [|c s IH]; [done|]. cbn [forallb]. intros [[_ Hc]%andb_true_iff Hs]%andb_true_iff.
  rewrite fmap_cons, (IH Hs). unfold ascii_upper. apply negb_true_iff in Hc. by rewrite Hc.
Defined.

(** One parameter, after a literal prefix. *)
Definition prefix_routing : Routing :=
  {| route_regex := pystr;
     compile_path path := Ok ((partition_char 123 path).1, [u "id"]);
     regex_match r path := (λ rest, [(u "id", rest)]) <$> strip_prefix r path |}.

#[local] Existing Instance identity_unicode.
#[local] Existing Instance position_order.
#[local] Existing Instance ascii_casing.
#[local] Existing Instance prefix_routing.

Definition demo_config : list (pystr * value) :=
  [(u "routes", VSeq [VMap [
      (u "method", VStr (u "post")); (u "path", VStr (u "/pay/{id}"));
      (u "scope", VStr (u "payment:write")); (u "tool", VStr (u "pay"));
      (u "args", VMap [(u "payment.amount", VStr (u "body.amount:number"));
                       (u "account", VStr (u "path.id")); (u "ref", VStr (u "query.ref"));
                       (u "note", VStr (u "header.X-Note"))])]])].

Definition no_table : RouteTable := mkRouteTable [] true 1 [].
Definition demo_table : RouteTable := match from_config demo_config with Ok t => t | Raise _ => no_table end.

Definition demo_body (s : string) : list Z := json_text s.
Definition demo_extract (q : string) (body : string) : py Extraction :=
  extract demo_table (u "POST") (u "/pay/a%2Fb") (u q) [(u "X-Note", u "hello")] (Some (demo_body body)).
Definition args_of (m : py Extraction) : option (list (pystr * ArgValue)) :=
  match m with Ok ex => Some (ex_args ex) | Raise _ => None end.

Example demo_args :
  args_of (demo_extract "x=1" "{'amount': 12.5}") =
  Some [(u "payment.amount", AInt 125000); (u "account", AText (u "a/b")); (u "note", AText (u "hello"))].
Proof. vm_compute. reflexivity. Qed.

(** Repetition is refused where a rule reads it. *)
Example repeated_query : demo_extract "ref=1&ref=2" "{'amount': 1}" = Raise (ExtractionError MALFORMED_REQUEST).
Proof. vm_compute. reflexivity. Qed.
Example repeated_key :
  demo_extract "" "{'amount': 1, 'amount': 999999}" = Raise (ExtractionError MALFORMED_REQUEST).
Proof. vm_compute. reflexivity. Qed.

Lemma extract_reads_exactly_witness :
  ∃ ex, demo_extract "x=1" "{'amount': 12.5}" = Ok ex
        ∧ arg_at (u "payment.amount") (ex_args ex) = Some (AInt 125000) ∧ arg_at (u "ref") (ex_args ex) = None.
Proof.
  assert (E : ∃ ex rule params, demo_extract "x=1" "{'amount': 12.5}" = Ok ex
    ∧ find_rule (rt_rules demo_table) (py_upper (u "POST")) (u "/pay/a%2Fb") = Some (rule, params)
    ∧ bool_decide (NoDup (rr_sources rule).*1) = true
    ∧ arg_at (u "payment.amount") (ex_args ex) = Some (AInt 125000)
    ∧ bool_decide (u "nothing" ∈ (rr_sources rule).*1) = false
    ∧ arg_at (u "ref") (ex_args ex) = None).
  { do 3 eexists. split_and!; vm_compute; reflexivity. }
  destruct E as (ex & rule & params & He & Hr & Hn%bool_decide_eq_true & Ha & _ & Hb).
  exists ex. split; [exact He|]. unfold demo_extract in He.
  destruct (extract_reads_exactly _ _ _ _ _ _ _ _ _ Hr Hn He) as (_ & Hd & _). split; [exact Ha|exact Hb].
Defined.

Lemma scaled_exact_witness : _to_scaled (JStr (u "12.5")) = Ok 125000.
Proof.
  apply (scaled_exact (JStr (u "12.5")) (Dec 125 (-1)) 125000); [vm_compute; reflexivity..| |vm_compute; reflexivity].
  split; vm_compute; discriminate.
Defined.

(** Past the precision of the arithmetic a number is rounded, not refused. *)
Theorem long_number_rounded :
  number_of (JStr (u "1000000000000000000000000.00001")) = Ok (DFin (Dec (10 ^ 29 + 1) (-5)))
  ∧ _to_scaled (JStr (u "1000000000000000000000000.00001")) = Ok (10 ^ 28)
  ∧ dec_eqb (dec_of_units (10 ^ 28)) (Dec (10 ^ 29 + 1) (-5)) = false.
Proof. split_and!; vm_compute; reflexivity. Qed.

(** A header whose name ends in the number suffix, in capitals, prints as another
    source: text and number share a mapping version. *)
Theorem header_source_ambiguous :
  ∃ s t, _parse_source (u "header.X:NUMBER") = Ok s ∧ _parse_source (u "header.x:number") = Ok t
         ∧ src_numeric s ≠ src_numeric t ∧ source_text s = source_text t.
Proof. do 2 eexists. split_and!; try (vm_compute; reflexivity); vm_compute; congruence. Qed.

Lemma source_prints_back_witness :
  ∃ s, _parse_source (u "body.order.amount:number") = Ok s
       ∧ source_text s = u "body.order.amount:number" ∧ src_keys s = [u "order"; u "amount"].
Proof.
  assert (E : ∃ s, _parse_source (u "body.order.amount:number") = Ok s
    ∧ src_kind s = KBody ∧ src_keys s = [u "order"; u "amount"]) by (eexists; split_and!; vm_compute; reflexivity).
  destruct E as (s & Hs & Hk & Hkeys). exists s. split; [exact Hs|]. split; [|exact Hkeys].
  apply (source_prints_back _ _ Hs). rewrite Hk. discriminate.
Defined.

Lemma config_checked_witness : from_config demo_config = Ok demo_table ∧ Forall rule_ok (rt_rules demo_table).
Proof.
  assert (E : from_config demo_config = Ok demo_table).
  { unfold demo_table. assert (is_ok (from_config demo_config) = true) by (vm_compute; reflexivity).
    by destruct (from_config demo_config). }
  split; [exact E|]. exact (proj1 (config_checked _ _ E)).
Defined.

Lemma unmapped_route_witness :
  extract demo_table (u "GET") (u "/pay/1") [] [] None = Raise (ExtractionError MALFORMED_REQUEST).
Proof.
  pose proof (unmapped_route demo_table (u "GET") (u "/pay/1") [] [] None) as H.
  assert (Hn : find_rule (rt_rules demo_table) (py_upper (u "GET")) (u "/pay/1") = None) by (vm_compute; reflexivity).
  specialize (H Hn). assert (Hd : rt_deny_unmapped demo_table = true) by (vm_compute; reflexivity).
  destruct (extract _ _ _ _ _ _) as [ex|e]; [|by rewrite (H Hd)].
  destruct H as [H _]. congruence.
Defined.
