(* ===== verification/Drift.v ===== *)
(** * Intent drift (agentiam_core/drift_features.py, agentiam_pep/drift.py)

    The features of a request and the rule-based score a strict request escalates on.
    The embedding model answers over HTTP: [serve] is what it answers to a prompt. *)
From Stdlib Require Import SpecFloat.
From S2P Require Import Prelude PyText Errors PyNum PyFloat PyTime PyRe PyUuid PySha PyUrl PyJson Models Hashing Caveats Tokens Decide Extractor.

(** ** drift_features.py *)

(** [unicodedata.normalize("NFKC", s)] and [str.casefold]. *)
Class Folding := { nfkc : pystr → pystr; casefold : pystr → pystr }.

(** An argument value; which numbers are [int] decides whether they are unscaled. *)
Inductive feature_arg := FInt (n : Z) | FNum (d : decimal) | FText (s : pystr).

Definition DRIFT_SCALE : Z := 10 ^ 4.

Record DriftFeatures := mkDriftFeatures { f1 : option pydec; f2 : option pydec; f5 : option decimal }.

Definition as_dict (f : DriftFeatures) : list (pystr * pydec) :=
  omap (λ p : pystr * option pydec, v ← p.2; Some (p.1, v))
    [(u "f1", f1 f); (u "f2", f2 f); (u "f5", DFin <$> f5 f)].

Definition cosine_similarity (a b : list pyfloat) : py pyfloat :=
  raise_if (negb (Nat.eqb (length a) (length b))) ValueError;;
  dot ← fsum (zip_with float_mul a b);
  na ← fsum ((λ x, float_mul x x) <$> a);
  nb ← fsum ((λ y, float_mul y y) <$> b);
  let norm_a := float_sqrt na in
  let norm_b := float_sqrt nb in
  if float_eq norm_a zero || float_eq norm_b zero then Ok zero
  else float_div dot (float_mul norm_a norm_b).

Definition action_template (scope : pystr) (tool : option pystr) : pystr :=
  match tool with
  | Some ((_ :: _) as tool) => scope ++ u " using " ++ tool
  | _ => scope
  end.

(** [key.rsplit(".", 1)[-1]]. *)
Definition _short_key (key : pystr) : pystr := default [] (last (split_char 46 key)).

Definition _unscale (n : Z) : py decimal := dec_div (dec_of_int n) (dec_of_int DRIFT_SCALE).

(** [format(d.normalize(), "f")]. *)
Definition normalize (d : decimal) : py decimal :=
  d ← dec_fix d;
  Ok (if dcoef d =? 0 then Dec 0 0 else strip_zeros (Z.to_nat (ndigits (dcoef d))) (dcoef d) (dexp d) Emax).
Definition fixed_text (d : decimal) : pystr :=
  let digits := py_str_int (Z.abs (dcoef d)) in
  let sign := if dcoef d <? 0 then u "-" else [] in
  if 0 <=? dexp d then sign ++ digits ++ (if dcoef d =? 0 then [] else zeros (dexp d))
  else
    let padded := zeros (1 - dexp d - Z.of_nat (length digits)) ++ digits in
    let cut := Z.to_nat (Z.of_nat (length padded) + dexp d) in
    sign ++ take cut padded ++ u "." ++ drop cut padded.
Definition _plain (d : decimal) : py pystr := d ← normalize d; Ok (fixed_text d).

Definition _render_value (v : feature_arg) : py pystr :=
  match v with
  | FInt n => d ← _unscale n; _plain d
  | FNum d => _plain d
  | FText s => Ok s
  end.

Definition arg_get (args : list (pystr * feature_arg)) (key : pystr) : py feature_arg :=
  match list_find (λ p, p.1 = key) args with Some (_, (_, v)) => Ok v | None => Raise KeyError end.

Definition rendered_action (scope : pystr) (tool : option pystr) (args : list (pystr * feature_arg))
    : py pystr :=
  let template := action_template scope tool in
  match args with
  | [] => Ok template
  | _ =>
      parts ← res_map (λ key, v ← arg_get args key; t ← _render_value v; Ok (_short_key key ++ u "=" ++ t))
                (py_sorted args.*1);
      Ok (template ++ u " with " ++ py_join (u ", ") parts)
  end.

(** [_NUMBER_RE.findall]: digits and commas from a digit on, and a decimal part. *)
Definition number_char (c : Z) : bool := is_unicode_digit c || (c =? 44).
Definition number_at (s : pystr) : pystr * pystr :=
  let '(whole, rest) := span number_char s in
  match rest with
  | 46 :: r =>
      let '(frac, r) := span is_unicode_digit r in
      match frac with [] => (whole, rest) | _ => (whole ++ 46 :: frac, r) end
  | _ => (whole, rest)
  end.
Fixpoint numbers_from (fuel : nat) (s : pystr) : list pystr :=
  match fuel, s with
  | S fuel, c :: r =>
      if is_unicode_digit c then let '(n, rest) := number_at s in n :: numbers_from fuel rest
      else numbers_from fuel r
  | _, _ => []
  end.

Section features.
Context {FO : Folding}.

Definition _fold (text : pystr) : pystr := casefold (nfkc text).

Definition _numbers_in (text : pystr) : list decimal :=
  omap (λ m, match parse_decimal (filter (λ c, c ≠ 44) m) with Some (DFin d) => Some d | _ => None end)
    (let t := nfkc text in numbers_from (length t) t).

Definition _appears (v : feature_arg) (haystack : pystr) (numbers : list decimal) : py bool :=
  match v with
  | FInt n => d ← _unscale n; Ok (existsb (dec_eqb d) numbers)
  | FNum d => Ok (existsb (dec_eqb d) numbers)
  | FText s => let folded := _fold s in Ok (negb (bool_decide (folded = [])) && contains folded haystack)
  end.

Definition argument_entity_overlap (task_text : pystr) (args : list (pystr * feature_arg)) : py decimal :=
  match args with
  | [] => Ok (Dec 10000 (-4))
  | _ =>
      let haystack := _fold task_text in
      let numbers := _numbers_in task_text in
      found ← res_map (λ p, _appears p.2 haystack numbers) args;
      let matched := Z.of_nat (length (filter (λ b, b = true) found)) in
      q ← dec_div (dec_of_int matched) (dec_of_int (Z.of_nat (length args)));
      quantize q
  end.
End features.

(** ** The embedding client *)
Definition _CACHE_MAX : Z := 2048.

(** What one POST gives: an error status, a transport error, a body that is not JSON, or
    JSON. *)
Inductive embedding_answer := EStatus (status : Z) | ENetwork | ENotJson | EBody (body : json).

(** [float(x)] of a JSON value; an [int] too large for a float is an error, a literal
    too large is an infinity. *)
Definition float_of_json (v : json) : py pyfloat :=
  match v with
  | JNum neg d =>
      let x := float_of_dec neg (Z.abs (dcoef d)) (dexp d) in
      raise_if (float_is_inf x && (dexp d =? 0)) OverflowError;; Ok x
  | JConst s | JStr s => match float_of_text s with Some x => Ok x | None => Raise ValueError end
  | JBool b => Ok (float_of_Z (if b then 1 else 0))
  | JNull | JArr _ | JObj _ => Raise TypeError
  end.

Definition json_falsy (v : json) : bool :=
  match v with
  | JNull | JBool false | JStr [] | JArr [] | JObj [] => true
  | JNum _ d => dcoef d =? 0
  | _ => false
  end.

(** The keys of an object, each where it first occurred. *)
Fixpoint first_keys (seen : list pystr) (kvs : list (pystr * json)) : list pystr :=
  match kvs with
  | [] => []
  | (k, _) :: kvs => if bool_decide (k ∈ seen) then first_keys seen kvs else k :: first_keys (k :: seen) kvs
  end.

(** [[float(x) for x in vector]]. *)
Definition floats_of (vector : json) : py (list pyfloat) :=
  match vector with
  | JArr l => res_map float_of_json l
  | JStr s => res_map (λ c, float_of_json (JStr [c])) s
  | JObj kvs => res_map (λ k, float_of_json (JStr k)) (first_keys [] kvs)
  | _ => Raise TypeError
  end.

(** [_post], past the request. *)
Definition _post (answer : embedding_answer) : py (list pyfloat) :=
  match answer with
  | EStatus _ | ENetwork | ENotJson => Raise (OracleUnavailable (u "embedding"))
  | EBody (JObj kvs) =>
      let vector := default JNull (obj_get kvs (u "embedding")) in
      raise_if (json_falsy vector) (OracleUnavailable (u "embedding"));;
      floats_of vector
  | EBody _ => Raise AttributeError
  end.

Record EmbeddingClient := mkEmbeddingClient {
  ec_cache_max : Z; ec_cache : list (pystr * list pyfloat) }.

(** A dictionary with its oldest entries first. *)
Definition cached {K V} `{EqDecision K} (l : list (K * V)) (k : K) : option V :=
  snd <$> (snd <$> list_find (λ p, p.1 = k) l).

(** [if len(cache) >= cap: cache.pop(next(iter(cache)))], then [cache[k] = v], for a [k]
    that is not there. *)
Definition remember {K V} (cap : Z) (l : list (K * V)) (k : K) (v : V) : py (list (K * V)) :=
  if cap <=? Z.of_nat (length l)
  then match l with [] => Raise StopIteration | _ :: l => Ok (l ++ [(k, v)]) end
  else Ok (l ++ [(k, v)]).

Section drift.
Context {FO : Folding} {CA : Casing}.

Section serving.
Context (serve : pystr → embedding_answer).

Definition warm (c : EmbeddingClient) : py bool :=
  match _post (serve (u "warm-up")) with
  | Ok _ => Ok true
  | Raise (OracleUnavailable _) => Ok false
  | Raise e => Raise e
  end.

Definition embed (text : pystr) (c : EmbeddingClient) : py (list pyfloat) * EmbeddingClient :=
  match cached (ec_cache c) text with
  | Some v => (Ok v, c)
  | None =>
      match _post (serve text) with
      | Raise e => (Raise e, c)
      | Ok v =>
          match remember (ec_cache_max c) (ec_cache c) text v with
          | Raise e => (Raise e, c)
          | Ok l => (Ok v, mkEmbeddingClient (ec_cache_max c) l)
          end
      end
  end.

(** [Decimal(str(value)).quantize(Decimal("0.0001"))]. *)
Definition _score (x : pyfloat) : py pydec :=
  match decimal_of_float x with
  | DFin d => q ← quantize d; Ok (DFin q)
  | DInf _ => Raise InvalidOperation
  | DNaN => Ok DNaN
  end.

(** *** FeatureExtractor *)
Definition cosine_of (task : py (list pyfloat)) (action : py (list pyfloat)) : py pydec :=
  a ← task; b ← action; s ← cosine_similarity a b; _score s.

(** The two vectors are fetched in turn; any exception leaves both features out. *)
Definition _embedding_features (task : pystr) (ctx : RequestContext) (args : list (pystr * feature_arg))
    (c : EmbeddingClient) : option pydec * option pydec * EmbeddingClient :=
  match rendered_action (operation ctx) (ctx_tool ctx) args with
  | Raise _ => (None, None, c)
  | Ok rendered =>
      let '(task_vector, c) := embed task c in
      match task_vector with
      | Raise _ => (None, None, c)
      | Ok tv =>
          let '(a1, c) := embed (action_template (operation ctx) (ctx_tool ctx)) c in
          match cosine_of (Ok tv) a1 with
          | Raise _ => (None, None, c)
          | Ok s1 =>
              let '(a2, c) := embed rendered c in
              match cosine_of (Ok tv) a2 with
              | Raise _ => (None, None, c)
              | Ok s2 => (Some s1, Some s2, c)
              end
          end
      end
  end.

(** [args] are [ctx_args ctx] before their numbers were made exact. *)
Definition extract_features (embeddings : option EmbeddingClient) (ctx : RequestContext)
    (args : list (pystr * feature_arg)) : DriftFeatures * option EmbeddingClient :=
  match task_intent_text ctx with
  | Some ((_ :: _) as task) =>
      let f5 := match argument_entity_overlap task args with Ok d => Some d | Raise _ => None end in
      match embeddings with
      | None => (mkDriftFeatures None None f5, None)
      | Some c => let '(f1, f2, c) := _embedding_features task ctx args c in (mkDriftFeatures f1 f2 f5, Some c)
      end
  | _ => (mkDriftFeatures None None None, embeddings)
  end.

(** *** RuleBasedDriftOracle *)
Definition literal (text : string) : pyfloat := default S754_nan (float_of_text (u text)).
Definition _DRIFT_THRESHOLD : decimal := Dec 7 (-1).
Definition _SIMILARITY_THRESHOLD : pyfloat := literal "0.3".

Record RuleBasedDriftOracle := mkRuleBased {
  ro_embeddings : EmbeddingClient;
  ro_scores : list ((pystr * pystr) * decimal) }.

(** [s.split()]. *)
Fixpoint words_from (word : pystr) (s : pystr) : list pystr :=
  match s with
  | [] => match word with [] => [] | _ => [word] end
  | c :: s =>
      if is_space c then match word with [] => words_from [] s | _ => word :: words_from [] s end
      else words_from (word ++ [c]) s
  end.
Definition words (s : pystr) : gset pystr := list_to_set (words_from [] (py_lower s)).

(** What a similarity is worth: 0.8 below the threshold; above it, a clamped slope.  The
    clamp is a number, so the last case does not happen ([clamped_finite]). *)
Definition similarity_score (similarity : pyfloat) : py decimal :=
  if float_lt similarity _SIMILARITY_THRESHOLD then Ok (Dec 8 (-1)) else
  slope ← float_div (float_sub similarity _SIMILARITY_THRESHOLD)
            (float_sub (literal "1.0") _SIMILARITY_THRESHOLD);
  let raw := float_sub (literal "1.0") slope in
  s ← _score (float_min (literal "0.7") (float_max (literal "0.0") raw));
  match s with DFin d => Ok d | _ => Raise InvalidOperation end.

Definition _compute (task action : pystr) (c : EmbeddingClient) : py decimal * EmbeddingClient :=
  if bool_decide (task = action) then (Ok (Dec 0 (-1)), c)
  else if negb (bool_decide (words action = ∅)) && bool_decide (words action ⊆ words task) then (Ok (Dec 1 (-1)), c)
  else
    let '(tv, c) := embed task c in
    match tv with
    | Raise e => (Raise e, c)
    | Ok tv =>
        let '(av, c) := embed action c in
        (av ← av; similarity ← cosine_similarity tv av; similarity_score similarity, c)
    end.

Definition rule_score (task action : pystr) (o : RuleBasedDriftOracle) : py decimal * RuleBasedDriftOracle :=
  match cached (ro_scores o) (task, action) with
  | Some s => (Ok s, o)
  | None =>
      let '(score, c) := _compute task action (ro_embeddings o) in
      match score with
      | Raise e => (Raise e, mkRuleBased c (ro_scores o))
      | Ok s =>
          match remember _CACHE_MAX (ro_scores o) (task, action) s with
          | Raise e => (Raise e, mkRuleBased c (ro_scores o))
          | Ok l => (Ok s, mkRuleBased c l)
          end
      end
  end.

Definition rule_score_for (ctx : RequestContext) (o : RuleBasedDriftOracle)
    : py (option decimal) * RuleBasedDriftOracle :=
  match task_intent_text ctx, action_intent_text ctx with
  | Some ((_ :: _) as task), Some ((_ :: _) as action) =>
      let '(s, o) := rule_score task action o in (Some <$> s, o)
  | _, _ => (Ok None, o)
  end.
End serving.

(** The oracle of a decision: the model's answers and the caches at that moment. *)
#[global] Instance rule_based_drift : DriftOracle ((pystr → embedding_answer) * RuleBasedDriftOracle) :=
  {| score_for o ctx := (rule_score_for o.1 ctx o.2).1 |}.
End drift.
