(* ===== verification/PyFloatSpec.v ===== *)
(** * Rounding stays within bounds

    Decimal division, quantizing and the shortest decimal of a float, as far as scores
    between 0 and 1 need them. *)
From Stdlib Require Import SpecFloat.
From S2P Require Import Prelude PyText Errors PyNum PyFloat Hashing.

Lemma pow10_pos k : 0 <= k → 0 < 10 ^ k.
Proof. intros. by apply Z.pow_pos_nonneg. Qed.

Lemma pow10_split a b : 0 <= a → 0 <= b → 10 ^ (a + b) = 10 ^ a * 10 ^ b.
Proof. intros. by apply Z.pow_add_r. Qed.

(** ** Decimals *)
Lemma round_half_even_bound c k B :
  0 <= k → 0 <= c → c <= B * 10 ^ k → 0 <= round_half_even c k <= B.
Proof.
  intros Hk Hc HB. pose proof (pow10_pos _ Hk) as Hp. unfold round_half_even. rewrite (Z.abs_eq c) by done.
  pose proof (Z.div_mod c (10 ^ k) ltac:(lia)) as E. pose proof (Z.mod_pos_bound c _ Hp) as Hr.
  assert (0 <= c / 10 ^ k) as Hq by (apply Z.div_pos; lia).
  destruct (Z.eq_dec c 0) as [->|Hn]; [simpl; nia|]. rewrite (Z.sgn_pos c) by lia.
  destruct ((2 * (c mod 10 ^ k) <? 10 ^ k) || ((2 * (c mod 10 ^ k) =? 10 ^ k) && Z.even (c / 10 ^ k))) eqn:Hb.
  - split; nia.
  - assert (c mod 10 ^ k ≠ 0).
    { intros H0. rewrite H0 in Hb. apply orb_false_iff in Hb as [Hb _]. apply Z.ltb_ge in Hb. lia. }
    split; nia.
Qed.

(** [d] is at most [B] units of 1/10000. *)
Definition dec_within (d : decimal) (B : Z) : Prop :=
  dexp d <= 0 ∧ 0 <= dcoef d ∧ dcoef d * 10000 <= B * 10 ^ (- dexp d).

Lemma quantize_within d B :
  dec_within d B → B < 10 ^ 20 → ∃ c, quantize d = Ok (Dec c (-4)) ∧ 0 <= c <= B.
Proof.
  intros (He & Hc & HB) H20. unfold quantize, DECIMAL_PLACES. change (- (4)) with (-4).
  assert (∀ c, 0 <= c <= B → (prec <? ndigits c) = false) as Hnd.
  { intros c Hcb. apply Z.ltb_ge. unfold prec.
    pose proof (ndigits_le c 28 ltac:(lia)) as H. apply H. rewrite Z.abs_eq by lia.
    transitivity (10 ^ 20); [lia|by vm_compute]. }
  destruct (Z.leb_spec (-4) (dexp d)) as [Hd|Hd].
  - assert (0 <= dcoef d * 10 ^ (dexp d + 4) <= B) as Hcb.
    { pose proof (pow10_pos (- dexp d) ltac:(lia)). pose proof (pow10_pos (dexp d + 4) ltac:(lia)).
      assert (10000 = 10 ^ (dexp d + 4) * 10 ^ (- dexp d)) as E.
      { rewrite <- pow10_split by lia. by replace (dexp d + 4 + - dexp d) with 4 by lia. }
      split; [nia|]. apply (Z.mul_le_mono_pos_r _ _ (10 ^ (- dexp d))); [lia|]. rewrite <- Z.mul_assoc, <- E. lia. }
    rewrite (Hnd _ Hcb). eauto.
  - assert (0 <= round_half_even (dcoef d) (-4 - dexp d) <= B) as Hcb.
    { apply round_half_even_bound; [lia|done|].
      assert (10 ^ (- dexp d) = 10 ^ (-4 - dexp d) * 10000) as E.
      { change 10000 with (10 ^ 4). rewrite <- pow10_split by lia. f_equal. lia. }
      rewrite E in HB. pose proof (pow10_pos (-4 - dexp d) ltac:(lia)). nia. }
    rewrite (Hnd _ Hcb). eauto.
Qed.

Lemma ndigits_lower c k : 0 < c → 0 < k → k <= ndigits c → 10 ^ (k - 1) <= c.
Proof.
  intros Hc Hk Hn. destruct (Z.lt_ge_cases c (10 ^ (k - 1))) as [Hlt|]; [|done].
  destruct (Z.eq_dec k 1) as [->|Hk1]; [simpl in Hlt; lia|].
  pose proof (ndigits_le c (k - 1) ltac:(lia) ltac:(rewrite Z.abs_eq; lia)). lia.
Qed.

(** Stripping zeros keeps the value; it stops at the exponent wanted or at a digit. *)
Lemma strip_zeros_spec fuel : ∀ c e ideal,
  0 < c → c < 10 ^ Z.of_nat fuel → e <= ideal →
  let d := strip_zeros fuel c e ideal in
  e <= dexp d <= ideal ∧ 0 < dcoef d ∧ c = dcoef d * 10 ^ (dexp d - e)
  ∧ (dexp d = ideal ∨ dcoef d mod 10 ≠ 0).
Proof.
  induction fuel as [|fuel IH]; intros c e ideal Hc Hf He; [simpl in Hf; lia|]. simpl.
  destruct (Z.ltb_spec e ideal) as [Hlt|]; simpl.
  - destruct (Z.eqb_spec (c mod 10) 0) as [H0|H0].
    + assert (c = 10 * (c / 10)) as E by (apply Z.div_exact; lia).
      rewrite Nat2Z.inj_succ, Z.pow_succ_r in Hf by lia.
      destruct (IH (c / 10) (e + 1) ideal) as (H1 & H2 & H3 & H4); [lia..|].
      split; [lia|]. split; [done|]. split; [|done].
      set (d := strip_zeros _ _ _ _) in *.
      replace (dexp d - e) with (Z.succ (dexp d - (e + 1))) by lia. rewrite Z.pow_succ_r by lia. lia.
    + simpl. rewrite Z.sub_diag. split; [lia|]. split; [done|]. split; [lia|]. by right.
  - simpl. rewrite Z.sub_diag. split; [lia|]. split; [done|]. split; [lia|]. left. lia.
Qed.

(** ** Quotients of counts *)
Lemma dec_fix_within d :
  dec_within d 10000 → -10000 <= dexp d → ∃ d', dec_fix d = Ok d' ∧ dec_within d' 10000.
Proof.
  intros (He & Hc & HB) Hlo. unfold dec_fix. destruct (Z.eqb_spec (dcoef d) 0) as [H0|H0].
  - eexists. split; [done|]. unfold dec_within, Etiny, Emax, prec. simpl. split; [lia|]. split; [done|].
    apply Z.mul_nonneg_nonneg; [done|]. apply Z.pow_nonneg. lia.
  - assert (dcoef d <= 10 ^ (- dexp d)) as Hc1 by lia.
    assert (ndigits (dcoef d) <= 1 - dexp d) as Hnd.
    { apply ndigits_le; [lia|]. rewrite Z.abs_eq by lia. replace (1 - dexp d) with (Z.succ (- dexp d)) by lia.
      rewrite Z.pow_succ_r by lia. pose proof (pow10_pos (- dexp d) ltac:(lia)). lia. }
    pose proof (ndigits_pos (dcoef d)) as Hn1.
    set (k := Z.max 0 (Z.max (ndigits (dcoef d) - prec) (Etiny - dexp d))).
    assert (0 <= k <= - dexp d) as Hk by (unfold k, prec, Etiny; lia).
    set (d' := if k =? 0 then d else _).
    assert (dec_within d' 10000) as Hd'.
    { unfold d'. destruct (Z.eqb_spec k 0); [done|]. unfold dec_within. simpl. split; [lia|].
      enough (0 <= round_half_even (dcoef d) k <= 10 ^ (- (dexp d + k))) by lia.
      apply round_half_even_bound; [lia|done|]. rewrite <- pow10_split by lia.
      by replace (- (dexp d + k) + k) with (- dexp d) by lia. }
    destruct (Z.ltb_spec Emax (ndigits (dcoef d') + dexp d' - 1)) as [Ho|_]; [|eauto].
    exfalso. destruct Hd' as (He' & Hc' & HB').
    assert (ndigits (dcoef d') <= 1 - dexp d').
    { apply ndigits_le; [lia|]. rewrite Z.abs_eq by lia. replace (1 - dexp d') with (Z.succ (- dexp d')) by lia.
      rewrite Z.pow_succ_r by lia. pose proof (pow10_pos (- dexp d') ltac:(lia)). lia. }
    unfold Emax in Ho. lia.
Qed.

Lemma ndigits_fuel_lt f : ∀ c, 0 <= c → c < 2 ^ (Z.of_nat f + 1) → c < 10 ^ ndigits_fuel f c.
Proof.
  induction f as [|f IH]; intros c Hc Hf; simpl ndigits_fuel.
  - simpl in Hf. lia.
  - destruct (Z.ltb_spec c 10); [lia|].
    pose proof (Z.div_pos c 10 Hc ltac:(lia)).
    assert (c / 10 < 2 ^ (Z.of_nat f + 1)) as Hd.
    { apply Z.div_lt_upper_bound; [lia|]. rewrite Nat2Z.inj_succ in Hf.
      replace (Z.succ (Z.of_nat f) + 1) with (Z.succ (Z.of_nat f + 1)) in Hf by lia.
      rewrite Z.pow_succ_r in Hf by lia. lia. }
    apply IH in Hd; [|done]. pose proof (Z.div_mod c 10 ltac:(lia)). pose proof (Z.mod_pos_bound c 10 ltac:(lia)).
    assert (0 <= ndigits_fuel f (c / 10)).
    { clear. generalize (c / 10). induction f as [|f IH]; intros n; simpl; [lia|]. destruct (n <? 10); [lia|].
      specialize (IH (n / 10)). lia. }
    rewrite Z.pow_add_r by lia. lia.
Qed.

Lemma ndigits_lt c : 0 <= c → c < 10 ^ ndigits c.
Proof.
  intros Hc. unfold ndigits. rewrite Z.abs_eq by done. apply ndigits_fuel_lt; [done|].
  destruct (Z.eq_dec c 0) as [->|]; [by vm_compute|].
  rewrite Z2Nat.id by apply Z.log2_nonneg. apply Z.log2_spec. lia.
Qed.

Lemma ndigits_mono a b : 0 <= a <= b → ndigits a <= ndigits b.
Proof.
  intros [Ha Hab]. apply ndigits_le; [pose proof (ndigits_pos b); lia|]. rewrite Z.abs_eq by done.
  pose proof (ndigits_lt b ltac:(lia)). lia.
Qed.

(** The quotient of [m] by [l], for counts [m <= l]. *)
Lemma dec_div_within m l :
  0 <= m <= l → 0 < l → ndigits l <= 1000 →
  ∃ d, dec_div (dec_of_int m) (dec_of_int l) = Ok d ∧ dec_within d 10000.
Proof.
  intros Hm Hl Hd. unfold dec_div, dec_of_int. simpl. destruct (Z.eqb_spec m 0) as [->|Hm0].
  { apply dec_fix_within; [|simpl; lia]. unfold dec_within. simpl. lia. }
  pose proof (ndigits_mono m l Hm). pose proof (ndigits_pos m).
  set (shift := ndigits l - ndigits m + prec + 1).
  assert (1 <= shift <= 1100) as Hs by (unfold shift, prec; lia).
  rewrite (proj2 (Z.leb_le 0 shift)) by lia. rewrite !Z.abs_eq by lia. rewrite Z.mul_1_r.
  rewrite !Z.sgn_pos by lia. pose proof (pow10_pos shift ltac:(lia)) as Hp.
  set (q := m * 10 ^ shift / l).
  assert (0 <= q) as Hq0 by (apply Z.div_pos; nia).
  pose proof (Z.div_mod (m * 10 ^ shift) l ltac:(lia)) as E. fold q in E.
  pose proof (Z.mod_pos_bound (m * 10 ^ shift) l ltac:(lia)) as Hr.
  assert (q <= 10 ^ shift) as Hq by (apply Z.div_le_upper_bound; nia).
  replace (0 - 0 - shift) with (- shift) by lia.
  destruct (Z.eqb_spec ((m * 10 ^ shift) mod l) 0) as [Hr0|Hr0]; simpl negb; cbn match.
  - assert (0 < q) as Hq1 by (destruct (Z.eq_dec q 0) as [Hz|]; [rewrite Hz in E; nia|lia]).
    destruct (strip_zeros_spec (Z.to_nat (ndigits q)) q (- shift) 0) as (H1 & H2 & H3 & _); [done| |lia|].
    { rewrite Z2Nat.id by (pose proof (ndigits_pos q); lia). by apply ndigits_lt. }
    change (0 - 0) with 0. set (d := strip_zeros _ _ _ _) in *. apply dec_fix_within; simpl; [|lia].
    unfold dec_within. simpl. split; [lia|]. split; [lia|].
    assert (10 ^ shift = 10 ^ (dexp d - - shift) * 10 ^ (- dexp d)) as E2.
    { rewrite <- pow10_split by lia. f_equal. lia. }
    pose proof (pow10_pos (dexp d - - shift) ltac:(lia)).
    enough (dcoef d <= 10 ^ (- dexp d)) by lia.
    apply (Z.mul_le_mono_pos_r _ _ (10 ^ (dexp d - - shift))); [done|]. lia.
  - apply dec_fix_within; simpl; [|lia]. unfold dec_within. simpl. rewrite Z.opp_involutive.
    assert (q < 10 ^ shift) by nia. split; [lia|]. destruct (q mod 5 =? 0); lia.
Qed.

(** [Decimal(n) / 10000] is exact. *)
Lemma unscale_exact n :
  Z.abs n < 10 ^ 28 →
  ∃ d, dec_div (dec_of_int n) (dec_of_int 10000) = Ok d ∧ dec_eqb d (Dec n (-4)) = true.
Proof.
  intros Hn. destruct (Z.eq_dec n 0) as [->|Hn0]; [eexists; split; vm_compute; reflexivity|].
  unfold dec_div, dec_of_int. cbn [dcoef dexp]. rewrite (proj2 (Z.eqb_neq n 0)) by done.
  assert (ndigits n <= 28) as Hnd by by apply ndigits_le. pose proof (ndigits_pos n).
  change (ndigits 10000) with 5. set (shift := 5 - ndigits n + prec + 1).
  assert (shift = 34 - ndigits n) as Es by (unfold shift, prec; lia).
  rewrite (proj2 (Z.leb_le 0 shift)) by lia. change (Z.abs 10000 * 1) with 10000.
  assert (Z.abs n * 10 ^ shift = Z.abs n * 10 ^ (shift - 4) * 10000) as E.
  { change 10000 with (10 ^ 4). rewrite <- Z.mul_assoc, <- pow10_split by lia. do 2 f_equal. lia. }
  rewrite E, Z.mod_mul, Z.div_mul by lia. simpl negb. cbn match.
  set (q := Z.abs n * 10 ^ (shift - 4)). change (0 - 0 - shift) with (- shift). change (0 - 0) with 0.
  pose proof (pow10_pos (shift - 4) ltac:(lia)) as Hp.
  destruct (strip_zeros_spec (Z.to_nat (ndigits q)) q (- shift) 0) as (H1 & H2 & H3 & H4); [unfold q; nia| |lia|].
  { rewrite Z2Nat.id by (pose proof (ndigits_pos q); lia). apply ndigits_lt. unfold q. nia. }
  set (d := strip_zeros _ _ _ _) in *. clearbody d.
  assert (-4 <= dexp d ∧ Z.abs n = dcoef d * 10 ^ (dexp d + 4)) as [He Ec].
  { unfold q in H3. destruct (Z.le_gt_cases (-4) (dexp d)) as [He|He].
    - split; [done|]. apply (Z.mul_cancel_r _ _ (10 ^ (shift - 4))); [lia|]. rewrite H3, <- Z.mul_assoc.
      rewrite <- pow10_split by lia. do 2 f_equal. lia.
    - exfalso. destruct H4 as [H4|H4]; [lia|]. apply H4.
      assert (dcoef d = Z.abs n * 10 ^ (-4 - dexp d)) as Hd.
      { apply (Z.mul_cancel_r _ _ (10 ^ (dexp d - - shift))); [pose proof (pow10_pos (dexp d - - shift)); lia|].
        rewrite <- H3, <- Z.mul_assoc, <- pow10_split by lia. do 2 f_equal. lia. }
      rewrite Hd. replace (-4 - dexp d) with (Z.succ (-5 - dexp d)) by lia. rewrite Z.pow_succ_r by lia.
      rewrite (Z.mul_comm 10), Z.mul_assoc. apply Z.mod_mul. lia. }
  pose proof (pow10_pos (dexp d + 4) ltac:(lia)).
  assert (Z.sgn n * Z.sgn 10000 * dcoef d * 10 ^ (dexp d + 4) = n) as Ev.
  { change (Z.sgn 10000) with 1. rewrite Z.mul_1_r, <- Z.mul_assoc, <- Ec, Z.mul_comm. apply Z.abs_sgn. }
  eexists. split.
  - apply dec_fix_exact.
    + intros Hz. rewrite Hz in Ev. lia.
    + change (Z.sgn 10000) with 1. rewrite Z.mul_1_r, Z.abs_mul, (Z.abs_eq (dcoef d)) by lia.
      assert (Z.abs (Z.sgn n) = 1) as -> by lia. nia.
    + unfold Etiny, Emax. lia.
  - unfold dec_eqb, dec_compare. cbn [dcoef dexp]. rewrite Z.min_r by lia. rewrite Z.sub_diag, Z.pow_0_r, (Z.mul_1_r n).
    replace (dexp d - -4) with (dexp d + 4) by lia. rewrite Ev, Z.compare_refl. done.
Qed.

(** ** Shortest decimals

    Seven tenths is a point of every grid of a number below one. *)
Lemma around_seven_tenths n d g c r step :
  0 < n → 0 < d → 10 * n <= 7 * d → g <= -1 → around n d g = (c, r, step) →
  0 <= c ∧ 10 * c <= 7 * 10 ^ (- g) ∧ (r ≠ 0 → 10 * (c + 1) <= 7 * 10 ^ (- g)).
Proof.
  intros Hn Hd H7 Hg. unfold around. rewrite (proj2 (Z.leb_gt 0 g)) by lia. intros [= <- <- <-].
  pose proof (pow10_pos (- g) ltac:(lia)) as Hp.
  assert (10 ^ (- g) = 10 * 10 ^ (- g - 1)) as Hp1.
  { rewrite <- Z.pow_succ_r by lia. f_equal. lia. }
  pose proof (Z.div_mod (n * 10 ^ (- g)) d ltac:(lia)) as E.
  pose proof (Z.mod_pos_bound (n * 10 ^ (- g)) d Hd) as Hr.
  set (c := n * 10 ^ (- g) / d) in *. assert (0 <= c) as Hc by (apply Z.div_pos; nia).
  split; [done|]. split.
  - apply (Z.mul_le_mono_pos_r _ _ d); [done|]. nia.
  - intros Hr0. assert (d * c < n * 10 ^ (- g)) as Hlt by lia.
    assert (d * (10 * c) < d * (7 * 10 ^ (- g))) as Hlt2 by nia.
    apply Z.mul_lt_mono_pos_l in Hlt2; lia.
Qed.

Lemma shortest_from_seven_tenths steps : ∀ m e n d g,
  0 < n → 0 < d → 10 * n <= 7 * d → g <= -1 →
  let '(c, g') := shortest_from steps m e n d g in g' <= -1 ∧ 0 <= c ∧ 10 * c <= 7 * 10 ^ (- g').
Proof.
  induction steps as [|steps IH]; intros m e n d g Hn Hd H7 Hg; cbn [shortest_from];
    destruct (around n d g) as [[c r] step] eqn:Ea;
    pose proof (around_seven_tenths _ _ _ _ _ _ Hn Hd H7 Hg Ea) as (Hc & H1 & H2);
    destruct (Z.eqb_spec r 0) as [Hr|Hr]; [lia| |..];
    try (specialize (H2 Hr); destruct (2 * r <=? step)); try lia;
    repeat match goal with |- context [if ?b then _ else _] => destruct b end;
    try lia; apply IH; lia.
Qed.

Lemma magnitude_below_one n d : 0 < n < d → magnitude n d <= 0.
Proof.
  intros H. unfold magnitude. rewrite (proj2 (Z.leb_gt d n)) by lia.
  pose proof (ndigits_pos ((d - 1) / n)). lia.
Qed.

Lemma shortest_seven_tenths m e :
  float_lt (S754_finite false m e) (S754_finite false 6305039478318694 (-53)) = true →
  dec_within (Dec (shortest m e).1 (shortest m e).2) 7000.
Proof.
  unfold float_lt, float_compare. simpl. unfold dyadic_compare. simpl.
  intros H. destruct (Z.compare_spec (Z.pos m * 2 ^ (e - Z.min e (-53)))
    (6305039478318694 * 2 ^ (-53 - Z.min e (-53)))) as [| Hlt|]; [done| |done]. clear H.
  assert (10 * (if 0 <=? e then Z.pos m * 2 ^ e else Z.pos m) <= 7 * (if 0 <=? e then 1 else 2 ^ (- e))
          ∧ e < 0) as [H7 He].
  { destruct (Z.leb_spec 0 e) as [He|He].
    - exfalso. rewrite Z.min_r in Hlt by lia. rewrite Z.sub_diag in Hlt.
      assert (2 ^ 53 <= 2 ^ (e - -53)) by (apply Z.pow_le_mono_r; lia).
      change (2 ^ 53) with 9007199254740992 in *. lia.
    - split; [|done]. destruct (Z.le_gt_cases e (-53)) as [H53|H53].
      + rewrite Z.min_l, Z.sub_diag in Hlt by lia.
        assert (2 ^ (- e) = 2 ^ 53 * 2 ^ (-53 - e)) as -> by (rewrite <- Z.pow_add_r by lia; f_equal; lia).
        assert (0 < 2 ^ (-53 - e)) by (apply Z.pow_pos_nonneg; lia).
        change (2 ^ 53) with 9007199254740992. lia.
      + rewrite Z.min_r, Z.sub_diag in Hlt by lia.
        assert (0 < 2 ^ (e - -53)) by (apply Z.pow_pos_nonneg; lia).
        assert (2 ^ (- e) * 2 ^ (e - -53) = 9007199254740992) as E.
        { rewrite <- Z.pow_add_r by lia. replace (- e + (e - -53)) with 53 by lia. done. }
        apply (Z.mul_le_mono_pos_r _ _ (2 ^ (e - -53))); [done|]. nia. }
  rewrite (proj2 (Z.leb_gt 0 e) He) in H7. unfold shortest. rewrite (proj2 (Z.leb_gt 0 e) He).
  assert (0 < 2 ^ (- e)) by (apply Z.pow_pos_nonneg; lia).
  pose proof (magnitude_below_one (Z.pos m) (2 ^ (- e)) ltac:(lia)).
  pose proof (shortest_from_seven_tenths 16 m e (Z.pos m) (2 ^ (- e)) (magnitude (Z.pos m) (2 ^ (- e)) - 1)
    ltac:(lia) ltac:(lia) H7 ltac:(lia)) as Hs.
  destruct (shortest_from _ _ _ _ _ _) as [c g]. unfold dec_within. simpl. lia.
Qed.

(** A count divided by itself. *)
Lemma dec_div_same n : 0 < n → dec_div (dec_of_int n) (dec_of_int n) = Ok (Dec 1 0).
Proof.
  intros Hn. unfold dec_div, dec_of_int. cbn [dcoef dexp]. rewrite (proj2 (Z.eqb_neq n 0)) by lia.
  replace (ndigits n - ndigits n + prec + 1) with 29 by (unfold prec; lia).
  rewrite (proj2 (Z.leb_le 0 29)) by lia. rewrite Z.abs_eq, Z.mul_1_r, !Z.sgn_pos by lia.
  rewrite (Z.mul_comm n), Z.mod_mul, Z.div_mul by lia. simpl negb. cbn match.
  vm_compute. reflexivity.
Qed.

Lemma dec_div_none n : 0 < n → dec_div (dec_of_int 0) (dec_of_int n) = Ok (Dec 0 0).
Proof. intros Hn. unfold dec_div, dec_of_int. cbn [dcoef dexp]. by vm_compute. Qed.
