(* ===== verification/DriftSpec.v ===== *)
(** * What the drift score can do

    Whatever an embedding model answers, a score stays between 0 and 0.8, crosses the
    escalation threshold only on a similarity below 0.3, and is remembered within bounds;
    the overlap feature counts what it says. *)
From Stdlib Require Import SpecFloat.
From S2P Require Import Prelude PyText Errors PyNum PyFloat PyTime PyRe PyUuid PySha PyUrl PyJson Models Hashing Caveats Tokens Decide Extractor ExtractorSpec Drift PyFloatSpec.

(** ** The clamp *)
Lemma dec_within_leb d : dec_within d 7000 → dec_ltb DRIFT_ESCALATION_THRESHOLD d = false.
Proof.
  intros (He & Hc & HB). unfold dec_ltb, dec_compare, DRIFT_ESCALATION_THRESHOLD. cbn [dcoef dexp].
  enough (dcoef d * 10 ^ (dexp d - Z.min (-1) (dexp d)) <= 7 * 10 ^ (-1 - Z.min (-1) (dexp d))) as H.
  { destruct (Z.compare_spec (7 * 10 ^ (-1 - Z.min (-1) (dexp d))) (dcoef d * 10 ^ (dexp d - Z.min (-1) (dexp d))));
      [done|lia|done]. }
  destruct (Z.eq_dec (dexp d) 0) as [E|Hn].
  - rewrite E in *. change (10 ^ (- 0)) with 1 in HB. simpl. lia.
  - rewrite Z.min_r, Z.sub_diag by lia.
    replace (- dexp d) with (Z.succ (-1 - dexp d)) in HB by lia. rewrite Z.pow_succ_r in HB by lia. lia.
Qed.

Lemma clamped_finite raw :
  ∃ c, _score (float_min (literal "0.7") (float_max (literal "0.0") raw)) = Ok (DFin (Dec c (-4)))
       ∧ 0 <= c <= 7000.
Proof.
  assert (literal "0.7" = S754_finite false 6305039478318694 (-53)) as -> by (vm_compute; reflexivity).
  assert (literal "0.0" = zero) as -> by (vm_compute; reflexivity).
  unfold float_min. destruct (float_lt (float_max zero raw) _) eqn:E;
    [|exists 7000; split; [vm_compute; reflexivity|lia]].
  unfold float_max in *. destruct (float_lt zero raw) eqn:Ez; [|exists 0; split; [vm_compute; reflexivity|lia]].
  destruct raw as [|[]| |[] m e]; [by cbn in Ez|by cbn in Ez|by cbn in E|by cbn in Ez| |].
  { exfalso. unfold float_lt in Ez. simpl in Ez. unfold dyadic_compare in Ez. simpl in Ez.
    pose proof (Z.pow_pos_nonneg 2 (e - Z.min 0 e) ltac:(lia) ltac:(lia)).
    destruct (- Z.pos m * 2 ^ (e - Z.min 0 e)) eqn:Ex; [done|lia|done]. }
  pose proof (shortest_seven_tenths m e E) as Hw. unfold _score, decimal_of_float.
  destruct (shortest m e) as [c g]. simpl in Hw.
  destruct (quantize_within _ _ Hw ltac:(lia)) as (c' & -> & Hc'). exists c'. done.
Qed.

(** What a similarity is worth; it is never an error. *)
Lemma similarity_score_spec sim :
  if float_lt sim _SIMILARITY_THRESHOLD then similarity_score sim = Ok (Dec 8 (-1))
  else ∃ c, similarity_score sim = Ok (Dec c (-4)) ∧ 0 <= c <= 7000.
Proof.
  unfold similarity_score. destruct (float_lt sim _SIMILARITY_THRESHOLD); [done|].
  unfold float_div. assert (float_eq (float_sub (literal "1.0") _SIMILARITY_THRESHOLD) zero = false) as ->
    by (vm_compute; reflexivity). cbn [mbind res_bind].
  destruct (clamped_finite (float_sub (literal "1.0")
    (SFdiv fprec femax (float_sub sim _SIMILARITY_THRESHOLD) (float_sub (literal "1.0") _SIMILARITY_THRESHOLD))))
    as (c & -> & Hc). cbn [mbind res_bind]. eauto.
Qed.

(** ** Bounded dictionaries *)
Record bounded {K V} (cap : Z) (l : list (K * V)) : Prop := {
  bd_size : Z.of_nat (length l) <= cap;
  bd_keys : NoDup l.*1 }.

Lemma cached_None {K V} `{EqDecision K} (l : list (K * V)) k : cached l k = None → k ∉ l.*1.
Proof.
  unfold cached. destruct (list_find _ l) as [[i p]|] eqn:E; [done|]. intros _ Hk.
  apply list_find_None in E. rewrite Forall_forall in E.
  apply list_elem_of_fmap in Hk as (p & -> & Hp). by apply (E p Hp).
Qed.

Lemma cached_Some {K V} `{EqDecision K} (l : list (K * V)) k v : cached l k = Some v → (k, v) ∈ l.
Proof.
  unfold cached. destruct (list_find _ l) as [[i [k' v']]|] eqn:E; [|done]. intros [= ->].
  apply list_find_Some in E as (E & Hk & _). simpl in Hk. subst k'. by eapply list_elem_of_lookup_2.
Qed.

Lemma cached_app {K V} `{EqDecision K} (l : list (K * V)) k v : k ∉ l.*1 → cached (l ++ [(k, v)]) k = Some v.
Proof.
  intros Hk. unfold cached. rewrite list_find_app_r.
  - simpl. by rewrite decide_True.
  - apply list_find_None, Forall_forall. intros p Hp E. apply Hk. rewrite <- E. by apply list_elem_of_fmap_2.
Qed.

Lemma remember_spec {K V} cap (l : list (K * V)) k v :
  bounded cap l → 1 <= cap → k ∉ l.*1 →
  ∃ l', remember cap l k v = Ok (l' ++ [(k, v)]) ∧ (l' ⊆ l) ∧ (k ∉ l'.*1) ∧ bounded cap (l' ++ [(k, v)]).
Proof.
  intros [Hs Hn] Hcap Hk. unfold remember.
  assert (∀ l' : list (K * V), NoDup l'.*1 → k ∉ l'.*1 → Z.of_nat (length l') + 1 <= cap → bounded cap (l' ++ [(k, v)]))
    as Hb.
  { intros l' Hn' Hk' Hl'. split; [rewrite length_app; simpl; lia|]. rewrite fmap_app. apply NoDup_app.
    split_and!; [done| |apply NoDup_singleton]. by intros x Hx ->%list_elem_of_singleton. }
  destruct (Z.leb_spec cap (Z.of_nat (length l))) as [Hfull|Hroom].
  - destruct l as [|p l]; [simpl in Hfull; lia|]. exists l. simpl in *. rewrite NoDup_cons in Hn.
    rewrite not_elem_of_cons in Hk. destruct Hn as [_ Hn], Hk as [_ Hk].
    split_and!; [done| |done|apply Hb; [done..|lia]]. by intros x Hx; right.
  - exists l. split_and!; [done|done|done|]. apply Hb; [done..|lia].
Qed.

Section oracle.
Context {FO : Folding} {CA : Casing}.

(** ** Remembered scores *)

(** What the embedding model has answered for a text, through any of the [serves] there
    were. *)
Definition answered (serves : list (pystr → embedding_answer)) (text : pystr) (v : list pyfloat) : Prop :=
  ∃ serve, serve ∈ serves ∧ _post (serve text) = Ok v.

(** The action says nothing the task does not: it has words, and all are the task's. *)
Definition within_words (task action : pystr) : Prop := words action ≠ ∅ ∧ words action ⊆ words task.
#[global] Instance within_words_dec task action : Decision (within_words task action).
Proof. unfold within_words. apply _. Defined.

(** The score of two texts: nothing for one text, 0.1 for an action within the task's words,
    and otherwise what the cosine of their two embeddings says: 0.8 below 0.3, at most 0.7
    from there on. *)
Definition judged (serves : list (pystr → embedding_answer)) (task action : pystr) (s : decimal) : Prop :=
  if decide (task = action) then s = Dec 0 (-1)
  else if decide (within_words task action) then s = Dec 1 (-1)
  else ∃ a b similarity, answered serves task a ∧ answered serves action b
         ∧ cosine_similarity a b = Ok similarity
         ∧ if float_lt similarity _SIMILARITY_THRESHOLD then s = Dec 8 (-1)
           else ∃ c, s = Dec c (-4) ∧ 0 <= c <= 7000.

Lemma answered_more serves serve text v : answered serves text v → answered (serves ++ [serve]) text v.
Proof. intros (f & Hf & Hv). exists f. split; [|done]. set_solver. Qed.

Lemma judged_more serves serve task action s : judged serves task action s → judged (serves ++ [serve]) task action s.
Proof.
  unfold judged. case_decide; [done|]. case_decide; [done|].
  intros (a & b & sim & Ha & Hb & Hj). exists a, b, sim. split_and!; [by apply answered_more..|apply Hj|apply Hj].
Qed.

Record oracle_ok (cap : Z) (serves : list (pystr → embedding_answer)) (o : RuleBasedDriftOracle) : Prop := {
  oo_cap : ec_cache_max (ro_embeddings o) = cap;
  oo_cache : bounded cap (ec_cache (ro_embeddings o));
  oo_vectors : ∀ text v, (text, v) ∈ ec_cache (ro_embeddings o) → answered serves text v;
  oo_scores : bounded _CACHE_MAX (ro_scores o);
  oo_each : ∀ task action s, ((task, action), s) ∈ ro_scores o → judged serves task action s }.

Record client_ok (cap : Z) (serves : list (pystr → embedding_answer)) (c : EmbeddingClient) : Prop := {
  co_cap : ec_cache_max c = cap;
  co_cache : bounded cap (ec_cache c);
  co_vectors : ∀ text v, (text, v) ∈ ec_cache c → answered serves text v }.

Lemma embed_ok serves serve cap text c :
  1 <= cap → serve ∈ serves → client_ok cap serves c →
  client_ok cap serves (embed serve text c).2
  ∧ ∀ v, (embed serve text c).1 = Ok v → answered serves text v.
Proof.
  intros Hcap Hin [Hm Hb Hv]. unfold embed. destruct (cached (ec_cache c) text) as [v|] eqn:E.
  { split; [done|]. intros ? [= <-]. by apply Hv, cached_Some. }
  destruct (_post (serve text)) as [v|] eqn:Ep; [|done]. rewrite Hm.
  assert (answered serves text v) as Hans by by exists serve.
  destruct (remember_spec cap (ec_cache c) text v Hb Hcap (cached_None _ _ E)) as (l' & -> & Hsub & _ & Hb').
  split; [|by intros ? [= <-]]. split; simpl; [done..|].
  intros t x [Hx|Hx%list_elem_of_singleton]%elem_of_app; [by apply Hv, Hsub|]. by injection Hx as -> ->.
Qed.

Lemma compute_ok serves serve cap task action c :
  1 <= cap → serve ∈ serves → client_ok cap serves c →
  client_ok cap serves (_compute serve task action c).2
  ∧ ∀ s, (_compute serve task action c).1 = Ok s → judged serves task action s.
Proof.
  intros Hcap Hin Hc. unfold _compute, judged. case_bool_decide as Heq.
  { split; [done|]. intros s [= <-]. by rewrite decide_True. }
  destruct (negb _ && _) eqn:Hw.
  { split; [done|]. intros s [= <-]. rewrite decide_False by done.
    apply andb_true_iff in Hw as [H1%negb_true_iff%bool_decide_eq_false H2%bool_decide_eq_true].
    by rewrite decide_True. }
  pose proof (embed_ok serves serve cap task c Hcap Hin Hc) as [Hc1 Hv1].
  destruct (embed serve task c) as [[tv|e] c1]; [|split; [done|by intros]].
  pose proof (embed_ok serves serve cap action c1 Hcap Hin Hc1) as [Hc2 Hv2].
  destruct (embed serve action c1) as [av c2]. simpl in *. split; [done|]. intros s Hs.
  apply bind_Ok_inv in Hs as (a & -> & Hs). apply bind_Ok_inv in Hs as (sim & Hsim & Hs).
  rewrite decide_False by done. rewrite decide_False.
  2: { intros [Hne Hsub]. rewrite bool_decide_eq_false_2 in Hw by done. by rewrite bool_decide_eq_true_2 in Hw. }
  exists tv, a, sim. split_and!; [by apply Hv1|by apply Hv2|done|].
  pose proof (similarity_score_spec sim) as Hspec. destruct (float_lt sim _SIMILARITY_THRESHOLD).
  - rewrite Hspec in Hs. by injection Hs as <-.
  - destruct Hspec as (n & E & Hn). rewrite E in Hs. injection Hs as <-. by exists n.
Qed.

Lemma rule_score_ok serves serve cap task action o :
  1 <= cap → serve ∈ serves → oracle_ok cap serves o →
  oracle_ok cap serves (rule_score serve task action o).2
  ∧ ∀ s, (rule_score serve task action o).1 = Ok s → judged serves task action s.
Proof.
  intros Hcap Hin [H1 H2 Hv H3 H4]. unfold rule_score. destruct (cached (ro_scores o) (task, action)) as [s|] eqn:E.
  { split; [done|]. intros ? [= <-]. by apply H4, cached_Some. }
  destruct (compute_ok serves serve cap task action (ro_embeddings o) Hcap Hin) as [[Hm Hb Hv'] Hs]; [by split|].
  destruct (_compute serve task action (ro_embeddings o)) as [[s|e] c]; simpl in *; [|split; [done|by intros]].
  specialize (Hs s eq_refl).
  destruct (remember_spec _CACHE_MAX (ro_scores o) (task, action) s H3 ltac:(done) (cached_None _ _ E))
    as (l' & -> & Hsub & _ & Hb').
  split; [|by intros ? [= <-]]. split; simpl; [done..|]. intros t a x Hx.
  apply elem_of_app in Hx as [Hx|Hx%list_elem_of_singleton]; [by apply H4, Hsub|by simplify_eq].
Qed.

Lemma rule_score_for_ok serves serve cap ctx o :
  1 <= cap → serve ∈ serves → oracle_ok cap serves o →
  oracle_ok cap serves (rule_score_for serve ctx o).2
  ∧ ∀ s, (rule_score_for serve ctx o).1 = Ok (Some s) →
      ∃ task action, task_intent_text ctx = Some task ∧ action_intent_text ctx = Some action
        ∧ judged serves task action s.
Proof.
  intros Hcap Hin Ho. unfold rule_score_for.
  destruct (task_intent_text ctx) as [[|c task]|]; [split; [done|by intros]| |split; [done|by intros]].
  destruct (action_intent_text ctx) as [[|c' action]|]; [split; [done|by intros]| |split; [done|by intros]].
  destruct (rule_score_ok serves serve cap (c :: task) (c' :: action) o Hcap Hin Ho) as [H1 H2].
  destruct (rule_score serve (c :: task) (c' :: action) o) as [[s|e] o']; simpl in *; (split; [done|]);
    intros x Hx; [|done]. injection Hx as <-. eauto 6.
Qed.

(** ** Histories

    Requests are scored, and the feature extractor embeds texts through the same client,
    the model answering differently every time; [serves] is what it answered by so far. *)
Definition fresh_oracle (cap : Z) : RuleBasedDriftOracle := mkRuleBased (mkEmbeddingClient cap []) [].

Inductive drift_run (cap : Z) : list (pystr → embedding_answer) → RuleBasedDriftOracle → Prop :=
| run_fresh : drift_run cap [] (fresh_oracle cap)
| run_score serves serve ctx o :
    drift_run cap serves o → drift_run cap (serves ++ [serve]) (rule_score_for serve ctx o).2
| run_embed serves serve text o :
    drift_run cap serves o →
    drift_run cap (serves ++ [serve]) (mkRuleBased (embed serve text (ro_embeddings o)).2 (ro_scores o)).

Lemma oracle_ok_more cap serves serve o : oracle_ok cap serves o → oracle_ok cap (serves ++ [serve]) o.
Proof. intros []. split; [done..| |done|]; eauto using answered_more, judged_more. Qed.

Lemma drift_reachable cap serves o : 1 <= cap → drift_run cap serves o → oracle_ok cap serves o.
Proof.
  intros Hcap Hr. induction Hr as [|serves serve ctx o _ IH|serves serve text o _ IH].
  - split; simpl; [done|split; [simpl; lia|constructor]|by intros ? ? ?%elem_of_nil|split; [by vm_compute|constructor]|].
    intros ? ? ? []%elem_of_nil.
  - apply rule_score_for_ok; [done|set_solver|by apply oracle_ok_more].
  - apply (oracle_ok_more _ _ serve) in IH as [Hm Hb Hv Hs He].
    destruct (embed_ok (serves ++ [serve]) serve cap text (ro_embeddings o) Hcap) as [[] _]; [set_solver|by split|].
    by split.
Qed.

(** C32: What a strict request escalates on.  Whatever requests were scored and whatever the
    embedding model answered, or did not, the oracle holds no more than its caps of vectors
    and scores.  A request that gets a score has a task text and an action text: one text
    scores 0 and an action within the task's words 0.1, neither escalating; any other pair is
    judged by two vectors, the first an answer of the model for the task's text and the
    second one for the action's, and it escalates exactly when the mode is strict and their
    cosine is under 0.3, on a score of 0.8; otherwise the score lies between 0 and 0.7. *)
Theorem drift_escalates_only_unrelated cap serves o serve ctx score :
  1 <= cap → drift_run cap serves o →
  drift_score_of (Some (serve, o)) ctx = Ok score →
  Z.of_nat (length (ec_cache (ro_embeddings o))) <= cap
  ∧ Z.of_nat (length (ro_scores o)) <= _CACHE_MAX
  ∧ match score with
    | None => drift_escalates score ctx = false
    | Some s => ∃ task action, task_intent_text ctx = Some task ∧ action_intent_text ctx = Some action
        ∧ if decide (task = action ∨ within_words task action) then
            s = (if decide (task = action) then Dec 0 (-1) else Dec 1 (-1)) ∧ drift_escalates score ctx = false
          else ∃ a b similarity,
            answered (serves ++ [serve]) task a ∧ answered (serves ++ [serve]) action b
            ∧ cosine_similarity a b = Ok similarity
            ∧ drift_escalates score ctx
              = float_lt similarity _SIMILARITY_THRESHOLD && bool_decide (drift_mode ctx = STRICT)
            ∧ if float_lt similarity _SIMILARITY_THRESHOLD then s = Dec 8 (-1)
              else ∃ c, s = Dec c (-4) ∧ 0 <= c <= 7000
    end.
Proof.
  intros Hcap Ho%drift_reachable Hs; [|done]. pose proof Ho as [_ [Hc _] _ [Hsc _] _].
  split; [done|]. split; [done|]. destruct score as [s|]; [|done].
  assert (∃ task action, task_intent_text ctx = Some task
            ∧ action_intent_text ctx = Some action ∧ judged (serves ++ [serve]) task action s) as (t & a & Ht & Ha & Hj).
  { unfold drift_score_of in Hs. case_bool_decide; [done|].
    destruct (score_for (serve, o) ctx) as [x|e] eqn:E; [|by destruct e].
    injection Hs as ->. apply (rule_score_for_ok (serves ++ [serve]) serve cap ctx o); [done|set_solver| |done].
    by apply oracle_ok_more. }
  exists t, a. split; [done|]. split; [done|]. unfold judged in Hj. unfold drift_escalates.
  destruct (decide (t = a)) as [Heq|Hne].
  { rewrite decide_True by by left. subst s. by split. }
  destruct (decide (within_words t a)) as [Hw|Hw].
  { rewrite decide_True by by right. subst s. by split. }
  rewrite decide_False by by intros [?|?].
  destruct Hj as (av & bv & sim & Hav & Hbv & Hsim & Hlt). exists av, bv, sim. split_and!; [done..| |done].
  destruct (float_lt sim _SIMILARITY_THRESHOLD); [by subst s|]. destruct Hlt as (c & -> & Hcb).
  enough (dec_ltb DRIFT_ESCALATION_THRESHOLD (Dec c (-4)) = false) as -> by done.
  apply (dec_within_leb (Dec c (-4))). unfold dec_within. simpl. lia.
Qed.

(** A score is answered again without asking the model. *)
Theorem score_remembered cap serves o serve serve' task action s :
  1 <= cap → drift_run cap serves o →
  (rule_score serve task action o).1 = Ok s →
  rule_score serve' task action (rule_score serve task action o).2 = (Ok s, (rule_score serve task action o).2).
Proof.
  intros Hcap Ho%drift_reachable Hs; [|done]. destruct Ho as [Hm Hb _ Hsc _].
  unfold rule_score in *. destruct (cached (ro_scores o) (task, action)) as [x|] eqn:E.
  { simpl in *. rewrite E. congruence. }
  destruct (_compute serve task action (ro_embeddings o)) as [[x|] c]; [|done].
  destruct (remember_spec _CACHE_MAX (ro_scores o) (task, action) x Hsc ltac:(done) (cached_None _ _ E))
    as (l' & Hrem & _ & Hk & _). rewrite Hrem in *. simpl in *. injection Hs as ->.
  by rewrite cached_app.
Qed.
End oracle.

(** ** The overlap of arguments with the task *)
Section overlap.
Context {FO : Folding}.

(** A number appears as one of the text's numbers, by value, an [int] being units of
    1/10000; a text as a folded substring. *)
Definition appears_in (task : pystr) (v : feature_arg) : Prop :=
  match v with
  | FInt n => ∃ m, m ∈ _numbers_in task ∧ dec_eqb (Dec n (-4)) m = true
  | FNum d => ∃ m, m ∈ _numbers_in task ∧ dec_eqb d m = true
  | FText s => _fold s ≠ [] ∧ contains (_fold s) (_fold task) = true
  end.
Definition in_range (v : feature_arg) : Prop :=
  match v with FInt n => Z.abs n < 10 ^ 28 | _ => True end.

Lemma existsb_elem {A} (p : A → bool) l : existsb p l = true ↔ ∃ x, x ∈ l ∧ p x = true.
Proof. rewrite existsb_exists. by setoid_rewrite list_elem_of_In. Qed.

Lemma appears_spec task v :
  in_range v →
  ∃ b, _appears v (_fold task) (_numbers_in task) = Ok b ∧ (b = true ↔ appears_in task v).
Proof.
  destruct v as [n|d|s]; simpl; intros Hr.
  - destruct (unscale_exact n Hr) as (d & Hd & Hv).
    unfold _unscale. change DRIFT_SCALE with 10000. rewrite Hd. cbn [mbind res_bind].
    eexists. split; [done|]. rewrite existsb_elem. split; intros (m & Hm & He); exists m; (split; [done|]).
    + rewrite dec_eqb_sym in Hv. by apply dec_eqb_trans with d.
    + by apply dec_eqb_trans with (Dec n (-4)).
  - eexists. split; [done|]. apply existsb_elem.
  - eexists. split; [done|]. rewrite andb_true_iff, negb_true_iff, bool_decide_eq_false. done.
Qed.

Lemma found_spec task (args : list (pystr * feature_arg)) :
  Forall in_range args.*2 →
  ∃ found, res_map (λ p, _appears p.2 (_fold task) (_numbers_in task)) args = Ok found
    ∧ Forall2 (λ p b, b = true ↔ appears_in task p.2) args found.
Proof.
  induction args as [|[k v] args IH]; simpl; [exists []; by constructor|].
  intros [Hv Ha]%Forall_cons. destruct (appears_spec task v Hv) as (b & -> & Hb).
  destruct (IH Ha) as (found & -> & Hf). exists (b :: found). split; [done|by constructor].
Qed.

(** The overlap feature is always computed, lies between 0 and 1, is 1 when every
    argument appears in the task text and 0 when none does, a scaled integer appearing
    exactly when one of the text's numbers has its value; a request without arguments
    scores 1. *)
Theorem overlap_counts task args :
  Forall in_range args.*2 → Z.of_nat (length args) < 10 ^ 1000 →
  ∃ c, argument_entity_overlap task args = Ok (Dec c (-4)) ∧ 0 <= c <= 10000
    ∧ (Forall (λ p, appears_in task p.2) args → c = 10000)
    ∧ (args ≠ [] → Forall (λ p, ¬ appears_in task p.2) args → c = 0).
Proof.
  intros Hr Hlen. unfold argument_entity_overlap. destruct args as [|p args]; [by exists 10000|].
  destruct (found_spec task (p :: args) Hr) as (found & -> & Hf). cbn [mbind res_bind].
  pose proof (Forall2_length _ _ _ Hf) as El. set (l := Z.of_nat (length (p :: args))) in *.
  set (m := Z.of_nat (length (filter (λ b, b = true) found))).
  assert (0 <= m <= l) as Hm.
  { unfold m, l. rewrite El. pose proof (length_filter (λ b, b = true) found). lia. }
  assert (0 < l) as Hl by (unfold l; simpl; lia).
  assert (ndigits l <= 1000) as Hd by (apply ndigits_le; [lia|rewrite Z.abs_eq; lia]).
  destruct (dec_div_within m l Hm Hl Hd) as (q & Hq & Hw).
  destruct (quantize_within q 10000 Hw ltac:(lia)) as (c & Hc & Hcb).
  exists c. rewrite Hq. cbn [mbind res_bind]. split; [done|]. split; [done|]. split.
  - intros Ha. assert (m = l) as E.
    { unfold m, l. rewrite El, filter_all; [done|]. clear -Hf Ha.
      induction Hf as [|? ? ? ? Hb _ IH]; [constructor|]. apply Forall_cons in Ha as [? ?].
      constructor; [by apply Hb|by apply IH]. }
    rewrite E, dec_div_same in Hq by done. injection Hq as <-. by vm_compute in Hc; injection Hc as <-.
  - intros _ Ha. assert (m = 0) as E.
    { unfold m. rewrite filter_none; [done|]. clear -Hf Ha.
      induction Hf as [|? ? ? ? Hb _ IH]; [constructor|]. apply Forall_cons in Ha as [? ?].
      constructor; [by intros ?%Hb|by apply IH]. }
    rewrite E, dec_div_none in Hq by done. injection Hq as <-. by vm_compute in Hc; injection Hc as <-.
Qed.

(** ** Rendering *)
Lemma arg_get_perm args args' k :
  args ≡ₚ args' → NoDup args.*1 → arg_get args k = arg_get args' k.
Proof.
  intros Hp Hn. pose proof Hn as Hn'. rewrite Hp in Hn'.
  assert (∀ l v, NoDup l.*1 → arg_get l k = Ok v ↔ (k, v) ∈ l) as Hiff.
  { clear. intros l v Hn. unfold arg_get. destruct (list_find (λ p, p.1 = k) l) as [[i [k' v']]|] eqn:E.
    - apply list_find_Some in E as (E & Hk & _). simpl in Hk. subst k'. split.
      + intros [= ->]. by eapply list_elem_of_lookup_2.
      + intros [j Hj]%list_elem_of_lookup_1.
        assert (i = j) as <-. { eapply NoDup_lookup; [done|by rewrite list_lookup_fmap, E|by rewrite list_lookup_fmap, Hj]. }
        rewrite E in Hj. by simplify_eq.
    - split; [done|]. intros Hv. apply list_find_None in E. rewrite Forall_forall in E. by destruct (E _ Hv). }
  destruct (arg_get args k) as [v|e] eqn:E.
  - apply Hiff in E; [|done]. rewrite Hp in E. by apply Hiff in E.
  - assert (∀ l e, arg_get l k = Raise e → e = KeyError) as Hk.
    { unfold arg_get. intros l x. by destruct (list_find _ l) as [[? [? ?]]|]; [|intros [= <-]]. }
    apply Hk in E as Ee. subst e. destruct (arg_get args' k) as [v|e'] eqn:E'.
    + apply Hiff in E'; [|done]. rewrite <- Hp in E'. apply Hiff in E'; [congruence|done].
    + by rewrite (Hk _ _ E').
Qed.

(** The rendering does not depend on the order the arguments were given in. *)
Theorem rendering_ignores_order scope tool args args' :
  args ≡ₚ args' → NoDup args.*1 → rendered_action scope tool args = rendered_action scope tool args'.
Proof.
  intros Hp Hn. unfold rendered_action.
  destruct args as [|a args]; destruct args' as [|a' args']; [done|by apply Permutation_nil_cons in Hp| |].
  { symmetry in Hp. by apply Permutation_nil_cons in Hp. }
  rewrite (py_sorted_perm (a :: args).*1 (a' :: args').*1) by by rewrite Hp.
  f_equal. generalize (py_sorted (a' :: args').*1). intros keys.
  induction keys as [|k keys IH]; [done|]. cbn [res_map]. by rewrite (arg_get_perm _ _ k Hp Hn), IH.
Qed.
End overlap.

(** ** A concrete model *)
#[local] Existing Instance ascii_casing.
#[local] Instance ascii_folding : Folding := {| nfkc s := s; casefold s := ascii_lower <$> s |}.

Definition vector (l : list string) : list pyfloat := literal <$> l.
Definition numbers (l : list Z) : embedding_answer :=
  EBody (JObj [(u "embedding", JArr ((λ n, JNum (n <? 0) (Dec n 0)) <$> l))]).
Definition toy_model (text : pystr) : embedding_answer :=
  if bool_decide (text = u "Pay ACME 45,000") then numbers [1; 0]
  else if bool_decide (text = u "delete everything") then numbers [0; 1] else numbers [1; 1].

Definition toy_requested : gmap BudgetDimension decimal :=
  <[SPEND_BDT := Dec 5 0]> (list_to_map ((λ d, (d, Dec 0 0)) <$> all_dimensions)).
Definition drift_context (action : string) (mode : DriftMode) : py RequestContext :=
  mk_RequestContext (u "payment:initiate") toy_requested 1 (repeat 97 64) (DT 0 true) (Some (u "payment_api")) []
    (Some (u "Pay ACME 45,000")) (Some (u action)) mode.
Definition scored (model : pystr → embedding_answer) (action : string) : py (option decimal) :=
  ctx ← drift_context action STRICT; (rule_score_for model ctx (fresh_oracle 2048)).1.

Lemma drift_escalates_only_unrelated_witness :
  ∃ ctx s, drift_context "delete everything" STRICT = Ok ctx
    ∧ drift_score_of (Some (toy_model, fresh_oracle 2048)) ctx = Ok (Some s)
    ∧ drift_escalates (Some s) ctx = true
    ∧ ∃ task action, task_intent_text ctx = Some task ∧ action_intent_text ctx = Some action
        ∧ if decide (task = action ∨ within_words task action) then False
          else ∃ a b similarity, answered [toy_model] task a ∧ answered [toy_model] action b
                 ∧ cosine_similarity a b = Ok similarity ∧ float_lt similarity _SIMILARITY_THRESHOLD = true.
Proof.
  destruct (drift_context "delete everything" STRICT) as [ctx|e] eqn:E.
  2: { exfalso. assert (is_ok (drift_context "delete everything" STRICT) = true) as H by (vm_compute; reflexivity).
       rewrite E in H. discriminate H. }
  assert ((ctx ← drift_context "delete everything" STRICT;
           s ← drift_score_of (Some (toy_model, fresh_oracle 2048)) ctx; Ok (s, drift_escalates s ctx))
          = Ok (Some (Dec 8 (-1)), true)) as H by (vm_compute; reflexivity).
  rewrite E in H. cbn [mbind res_bind] in H.
  destruct (drift_score_of (Some (toy_model, fresh_oracle 2048)) ctx) as [score|] eqn:Es; [|discriminate H].
  cbn [mbind res_bind] in H. injection H as Hs He. subst score. exists ctx, (Dec 8 (-1)).
  split; [reflexivity|]. split; [exact Es|]. split; [exact He|].
  destruct (drift_escalates_only_unrelated 2048 [] (fresh_oracle 2048) toy_model ctx (Some (Dec 8 (-1))))
    as (_ & _ & task & action & Ht & Ha & Hj); [lia|apply run_fresh|exact Es|].
  exists task, action. split; [exact Ht|]. split; [exact Ha|]. rewrite He in Hj.
  destruct (decide (task = action ∨ within_words task action)); [destruct Hj as [_ Hj]; discriminate Hj|].
  destruct Hj as (a & b & sim & Ha' & Hb' & Hsim & Hlt & _). exists a, b, sim.
  split; [exact Ha'|]. split; [exact Hb'|]. split; [exact Hsim|].
  destruct (float_lt sim _SIMILARITY_THRESHOLD); [reflexivity|discriminate Hlt].
Defined.

Definition toy_args : list (pystr * feature_arg) :=
  [(u "payment.amount", FInt 450000000); (u "payee", FText (u "acme"))].
Lemma overlap_counts_witness :
  ∃ c, argument_entity_overlap (u "Pay ACME 45,000") toy_args = Ok (Dec c (-4)) ∧ 0 <= c <= 10000.
Proof.
  destruct (overlap_counts (u "Pay ACME 45,000") toy_args) as (c & H1 & H2 & _).
  - repeat constructor.
  - vm_compute. reflexivity.
  - exists c. split; [exact H1|exact H2].
Defined.

(** What the features tell apart: an inflated amount, which the embeddings do not see. *)
Example overlap_sees_amounts :
  argument_entity_overlap (u "Pay ACME 45,000") toy_args = Ok (Dec 10000 (-4))
  ∧ argument_entity_overlap (u "Pay ACME 45,000") [(u "payment.amount", FInt 45000000)] = Ok (Dec 0 (-4))
  ∧ argument_entity_overlap (u "Pay ACME 45,000") [(u "payment.amount", FNum (Dec 450000000 0))] = Ok (Dec 0 (-4)).
Proof. split_and!; vm_compute; reflexivity. Qed.

(** ** What an answer can do

    The slope does not start at the threshold: from a similarity of 0.3 to one of about
    0.51 the score is the clamp, where the documented line falls from 0.7 to 0.49. *)
Theorem slope_is_flat :
  similarity_score (literal "0.3") = Ok (Dec 7000 (-4)) ∧ similarity_score (literal "0.5") = Ok (Dec 7000 (-4))
  ∧ similarity_score (literal "0.65") = Ok (Dec 5000 (-4)) ∧ similarity_score (literal "1.0") = Ok (Dec 0 (-4)).
Proof. split_and!; vm_compute; reflexivity. Qed.

(** Vectors whose squares overflow are parallel to everything of their kind, opposite
    ones included: the similarity is no number and the score is the best there is. *)
Theorem overflowing_vectors_align :
  cosine_similarity (vector ["1e200"]%string) (vector ["-1e200"]%string) = Ok S754_nan
  ∧ similarity_score S754_nan = Ok (Dec 0 (-4)).
Proof. split; vm_compute; reflexivity. Qed.

(** An answer that is JSON and no object, or whose numbers are none, is not an
    unavailable model: the exception leaves [warm], and the decision. *)
Theorem malformed_answers_raise :
  warm (λ _, EBody (JArr [])) (mkEmbeddingClient 2048 []) = Raise AttributeError
  ∧ scored (λ _, EBody (JArr [])) "delete everything" = Raise AttributeError
  ∧ scored (λ _, EBody (JObj [(u "embedding", JArr [JNull])])) "delete everything" = Raise TypeError
  ∧ scored (λ t, if bool_decide (t = u "delete everything") then numbers [1; 2] else numbers [1]) "delete everything"
    = Raise ValueError
  ∧ scored (λ _, ENetwork) "delete everything" = Raise (OracleUnavailable (u "embedding"))
  ∧ scored toy_model "delete everything" = Ok (Some (Dec 8 (-1))).
Proof. split_and!; vm_compute; reflexivity. Qed.

(** A cache of none is not no cache. *)
Theorem empty_cache_raises :
  (embed toy_model (u "x") (mkEmbeddingClient 0 [])).1 = Raise StopIteration.
Proof. vm_compute. reflexivity. Qed.
