(* ===== verification/Pipeline.v ===== *)
(** * The ten steps, wired (agentiam_pep/pipeline.py)

    [authorize] extracts, verifies, decides, reserves, records and answers; [settle]
    runs after the response.  What they touch is one state, threaded through a state
    and error monad: the lease pool, the emitter's buffer, the settlement queue and the
    escalation store.  Every clock reading, random id and trace id is an argument. *)
From S2P Require Import Prelude PyText Errors PyNum PyTime PyRe PyUuid PySha PyUrl PyJson Models Hashing Lease Settlement Emitter Pool Caveats Tokens Attenuation Decide Bundles CedarPolicy Extractor.

(** ** Responses *)

(** Spec 09's table; a code outside it is a [KeyError]. *)
Definition _STATUS (r : ReasonCode) : option Z :=
  match r with
  | MALFORMED_REQUEST | TOKEN_INVALID_SIGNATURE | TOKEN_EXPIRED | TOKEN_NOT_YET_VALID
  | TOKEN_TOO_LARGE | TOKEN_REVOKED | ANCESTOR_REVOKED => Some 401
  | SCOPE_NOT_GRANTED | SCOPE_ATTENUATED_AWAY | TOOL_DENIED | ARG_PREDICATE_FAILED
  | INTENT_MISMATCH | DEPTH_EXCEEDED | POLICY_DENIED | APPROVAL_REQUIRED | DRIFT_ESCALATION => Some 403
  | BUDGET_EXHAUSTED_MANDATE | BUDGET_EXHAUSTED_CAVEAT | LEASE_UNAVAILABLE | RATE_LIMITED => Some 429
  | CONTROL_PLANE_UNAVAILABLE_FAIL_CLOSED | POLICY_BUNDLE_STALE | VERIFICATION_LIMIT_EXCEEDED
  | LEASE_NOT_ACTIVE => Some 503
  | UPSTREAM_ERROR => Some 502
  | OK => None
  end.

Definition response_status (reason : ReasonCode) : py Z :=
  match _STATUS reason with Some s => Ok s | None => Raise KeyError end.

Definition INTENT_HEADER : pystr := u "x-agentiam-intent".
Definition AUTH_HEADER : pystr := u "authorization".

Record Refused := mkRefused {
  rf_status : Z; rf_reason_code : ReasonCode; rf_detail : fstr;
  rf_decision_id : option uuid; rf_trace_id : pystr; rf_escalation_id : option uuid }.

(** [Refused.body]: the text fields; the detail by its template. *)
Record refused_body := mkBody {
  bd_reason : ReasonCode; bd_detail : fstr; bd_trace_id : pystr;
  bd_decision_id : option pystr; bd_escalation_id : option pystr }.
Definition body (r : Refused) : refused_body :=
  mkBody (rf_reason_code r) (rf_detail r) (rf_trace_id r)
    (uuid_text <$> rf_decision_id r) (uuid_text <$> rf_escalation_id r).

(** ** The pool as the decision's budget oracle *)
Record pool_oracle := mkPoolOracle {
  po_settings : PoolSettings; po_pool : pool; po_now : Z; po_loop : bool }.

#[global] Instance pool_budget_oracle : BudgetOracle pool_oracle :=
  {| budget_check o requested :=
       let '(v, p) := pool_check (po_settings o) (po_pool o)
         ((λ d, (d, default 0 (requested !! d))) <$> all_dimensions) (po_now o) (po_loop o) in
       (v, mkPoolOracle (po_settings o) p (po_now o) (po_loop o)) |}.

(** ** Escalations, as the sink sees them *)
Record escalation_open := mkEscalationOpen {
  eo_decision_id : uuid; eo_task_id : uuid; eo_agent_id : pystr; eo_principal_id : pystr;
  eo_intent_hash : pystr; eo_scope : pystr; eo_amount : Z; eo_reason : fstr; eo_now : Z; eo_ttl : Z }.

(** [EscalationSink.create]: the id of the entry it opened, or whatever it raised. *)
Class EscalationSink (E : Type) := { sink_create : E → escalation_open → py uuid * E }.

(** ** State *)
Section pipeline.
Context {UN : Unicode} {ST : SortTies} {CA : Casing} {RT : Routing} {BL : BiscuitLib}
  {CD : Cedar} {RV DR E : Type} {RO : RevocationOracle RV} {DO : DriftOracle DR} {ES : EscalationSink E}.

Record world := mkWorld {
  w_pool : pool; w_emitter : emitter DecisionRecord; w_settlement : option queue; w_escalations : E }.

#[local] Notation M := (st world exn).

Definition on_pool {A} (f : pool → py A * pool) : M A := λ w,
  let '(a, p) := f (w_pool w) in (a, mkWorld p (w_emitter w) (w_settlement w) (w_escalations w)).
Definition on_emitter {A} (f : emitter DecisionRecord → py A * emitter DecisionRecord) : M A := λ w,
  let '(a, e) := f (w_emitter w) in (a, mkWorld (w_pool w) e (w_settlement w) (w_escalations w)).
Definition on_escalations {A} (f : E → py A * E) : M A := λ w,
  let '(a, e) := f (w_escalations w) in (a, mkWorld (w_pool w) (w_emitter w) (w_settlement w) e).

(** What the pipeline is built with. *)
Record Pipeline := mkPipeline {
  pl_routes : RouteTable;
  pl_key_set : RootKeySet;
  pl_policy : CedarEngine;
  pl_principal_for : VerifiedToken → py AgentPrincipal;
  pl_pool_settings : PoolSettings;
  pl_emitter_settings : EmitterSettings;
  pl_settlement_settings : SettlementSettings;
  pl_revocation : RV;
  pl_pep_id : pystr;
  pl_policy_version_fallback : pystr;
  pl_escalation_ttl : Z;
  pl_caveats_for : VerifiedToken → py (list Caveat);
  pl_drift_oracle : option DR;
  pl_features : option (RequestContext → py (list (pystr * decimal)));
  pl_has_escalation_sink : bool }.

(** The readings and draws of one request. *)
Record moments := mkMoments {
  at_decision_id : uuid; at_trace_id : option pystr;
  at_verify : Z; at_context : Z; at_check : Z; at_escalate : Z; at_reserve : Z; at_record : Z;
  at_refund : Z; at_reservation_id : uuid; at_fresh : uuid; at_loop : bool; at_latency : Z }.

Record http_request := mkHttp {
  hr_method : pystr; hr_path : pystr; hr_query : pystr; hr_headers : list (pystr * pystr);
  hr_body : option (list Z) }.

Record Authorized := mkAuthorized {
  au_extraction : Extraction; au_token : VerifiedToken; au_reservation : option Reservation;
  au_decision_id : uuid; au_trace_id : pystr }.

(** [{name.lower(): value for name, value in headers}]: the last of each name. *)
Definition header_map (headers : list (pystr * pystr)) : list (pystr * pystr) :=
  foldl (λ m h, dict_set m (py_lower h.1) h.2) [] headers.

Definition header_get (m : list (pystr * pystr)) (name : pystr) : option pystr :=
  snd <$> List.find (λ kv, bool_decide (kv.1 = name)) m.

(** [m.get(a) or m.get(b)]. *)
Definition header_either (m : list (pystr * pystr)) (a b : pystr) : option pystr :=
  match header_get m a with Some ((_ :: _) as s) => Some s | _ => header_get m b end.

(** ** [_context_for] *)
Definition requested_amounts (extraction : Extraction) : py (gmap BudgetDimension decimal) :=
  let zero : gmap BudgetDimension decimal := list_to_map ((λ d, (d, Dec 0 0)) <$> all_dimensions) in
  match List.find (λ a, bool_decide (a.1 = u "payment.amount")) (ex_args extraction) with
  | Some (_, AInt n) => amount ← dec_fix (Dec n (-4)); Ok (<[SPEND_BDT := amount]> zero)
  | _ => Ok zero
  end.

Definition to_pyval (a : ArgValue) : pyval := match a with AInt n => PInt n | AText s => PStr s end.

Definition _context_for (extraction : Extraction) (token : VerifiedToken)
    (headers : list (pystr * pystr)) (now : Z) : py RequestContext :=
  requested ← requested_amounts extraction;
  let task_intent_text := header_either headers (u "agentiam-task-intent") (u "AgentIAM-Task-Intent") in
  let action_intent_text := header_either headers (u "agentiam-action-intent") (u "AgentIAM-Action-Intent") in
  request_intent ← match task_intent_text with
                   | Some text => intent_hash text
                   | None => Ok (default (vt_intent_hash token) (header_get headers INTENT_HEADER))
                   end;
  mk_RequestContext (ex_scope extraction) requested (vt_depth token) request_intent (DT now true)
    (match ex_tool extraction with [] => None | t => Some t end)
    ((λ a : pystr * ArgValue, (a.1, to_pyval a.2)) <$> ex_args extraction)
    task_intent_text action_intent_text (ex_drift_mode extraction).

(** ** [_record] *)
Definition _authority (token : VerifiedToken) (caveats : option (list Caveat))
    : py (option RecordedAuthority) :=
  match caveats with
  | None => Ok None
  | Some caveats =>
      grant ← grant_caveats token;
      let b := effective_bound (grant ++ caveats) in
      Ok (Some (mkRecordedAuthority ((λ X, py_sorted (elements X)) <$> ea_scopes b)
                  ((λ e, (dimension_value e.1, dec_of_units e.2)) <$> map_to_list (ea_budget b))
                  (ea_not_after b) (ea_max_depth b)))
  end.

(** Feature extraction never fails a request. *)
Definition _feature_vector (p : Pipeline) (context : option RequestContext)
    : option (list (pystr * decimal)) :=
  match pl_features p, context with
  | Some f, Some ctx => match f ctx with Ok ((_ :: _) as l) => Some l | _ => None end
  | _, _ => None
  end.

Record record_args := mkRecordArgs {
  ra_reason : ReasonCode; ra_outcome : Outcome; ra_detail : fstr; ra_reservation : option Reservation;
  ra_principal : option AgentPrincipal; ra_drift_score : option decimal;
  ra_failing_caveat : option CaveatRef; ra_context_for_features : option RequestContext;
  ra_caveats : option (list Caveat) }.

Definition _record (p : Pipeline) (t : moments) (trace_id : pystr) (extraction : Extraction)
    (token : VerifiedToken) (a : record_args) (w_pool : pool) : py DecisionRecord :=
  let before := remaining w_pool SPEND_BDT in
  let spent := match ra_reservation a with Some r => rs_amount r | None => 0 end in
  let features := _feature_vector p (ra_context_for_features a) in
  principal ← match ra_principal a with Some x => Ok x | None => pl_principal_for p token end;
  budget_before ← mk_Budget (dec_of_units (before + spent)) 0 0 0 0;
  budget_after ← mk_Budget (dec_of_units before) 0 0 0 0;
  authority ← _authority token (ra_caveats a);
  mk_DecisionRecord
    (mkDecisionRecord (at_decision_id t) trace_id (at_record t) (pl_pep_id p)
       (vt_revocation_ids token) (vt_principal_id token) (vt_task_id token) (ap_agent_id principal)
       (ap_declared_role principal) (vt_depth token) (ex_scope extraction) (ex_tool extraction)
       (ex_arg_digest extraction) (ra_outcome a) (ra_reason a) (ra_detail a) (ra_failing_caveat a)
       (match pb_version (ce_bundle (pl_policy p)) with [] => pl_policy_version_fallback p | v => v end)
       budget_before budget_after (rs_id <$> ra_reservation a) (ra_drift_score a) features
       (at_latency t) None authority).

Definition _emit (p : Pipeline) (r : DecisionRecord) : M unit :=
  on_emitter (λ e, emit (pl_emitter_settings p) e r).

(** ** Refusing *)
Definition _refuse (reason : ReasonCode) (detail : fstr) (trace_id : pystr) : M (Authorized + Refused) :=
  status ← lift (response_status reason);
  mret (inr (mkRefused status reason detail None trace_id None)).

(** What [_record_and_refuse] has to say of a decision that was not reached. *)
Definition denial (reason : ReasonCode) (detail : fstr) : record_args :=
  mkRecordArgs reason DENY detail None None None None None None.

Definition _record_and_refuse (p : Pipeline) (t : moments) (trace_id : pystr) (extraction : Extraction)
    (token : VerifiedToken) (reason : ReasonCode) (detail : fstr) : M (Authorized + Refused) :=
  record ← (λ w, (_record p t trace_id extraction token (denial reason detail) (w_pool w), w)) : M _;
  m_try (_emit p record)
    (λ e, match e with AuditBufferFullError => Some (mret tt) | _ => None end);;
  _refuse reason detail trace_id.

(** ** [authorize], from the decision on *)
Definition run_decision (p : Pipeline) (t : moments) (token : VerifiedToken) (context : RequestContext)
    (caveats : list Caveat) (principal : AgentPrincipal) : M Verdict :=
  on_pool (λ pool,
    let '(v, o) := decide_request token context caveats (pl_revocation p)
      (bound (pl_policy p) principal)
      (mkPoolOracle (pl_pool_settings p) pool (at_check t) (at_loop t)) (pl_drift_oracle p) in
    (v, po_pool o)).

Definition escalation_of (p : Pipeline) (t : moments) (token : VerifiedToken) (context : RequestContext)
    (principal : AgentPrincipal) (decision : Verdict) : escalation_open :=
  mkEscalationOpen (at_decision_id t) (vt_task_id token) (ap_agent_id principal) (vt_principal_id token)
    (request_intent context) (operation context) (requested_of context SPEND_BDT)
    (v_reason_detail decision) (at_escalate t) (pl_escalation_ttl p).

(** [inl] goes on with the escalation's id, [inr] is the answer. *)
Definition open_escalation_step (p : Pipeline) (t : moments) (trace_id : pystr) (extraction : Extraction)
    (token : VerifiedToken) (context : RequestContext) (principal : AgentPrincipal) (decision : Verdict)
    : M (option uuid + (Authorized + Refused)) :=
  if bool_decide (v_outcome decision = ESCALATE) && pl_has_escalation_sink p then
    m_try (i ← on_escalations (λ s, sink_create s (escalation_of p t token context principal decision));
           mret (inl (Some i)))
      (λ e, Some (r ← _record_and_refuse p t trace_id extraction token
                        CONTROL_PLANE_UNAVAILABLE_FAIL_CLOSED
                        (F "could not open an escalation: {}" [FExn e]); mret (inr r)))
  else mret (inl None).

Definition reserve_step (p : Pipeline) (t : moments) (trace_id : pystr) (extraction : Extraction)
    (token : VerifiedToken) (context : RequestContext) (decision : Verdict)
    : M (option Reservation + (Authorized + Refused)) :=
  let requested := requested_of context SPEND_BDT in
  if bool_decide (v_outcome decision = ALLOW) && (0 <? requested) then
    m_try (r ← on_pool (λ pool, pool_reserve (pl_pool_settings p) pool SPEND_BDT requested
                                  (at_reserve t) (at_loop t) (at_reservation_id t));
           mret (inl (Some r)))
      (λ e, match e with
            | ReservationInsufficientError =>
                Some (r ← _record_and_refuse p t trace_id extraction token LEASE_UNAVAILABLE
                            (F "{}" [FExn e]); mret (inr r))
            | _ => None
            end)
  else mret (inl None).

(** Steps 10 and 8, in that order: record, then say whether to forward. *)
Definition emit_and_answer (p : Pipeline) (t : moments) (trace_id : pystr) (extraction : Extraction)
    (token : VerifiedToken) (decision : Verdict) (reservation : option Reservation)
    (escalation_id : option uuid) (record : DecisionRecord) : M (Authorized + Refused) :=
  refused ← m_try (_emit p record;; mret None)
    (λ e, match e with
          | AuditBufferFullError =>
              Some ((match reservation with
                     | Some r =>
                         on_pool (λ pool, pool_commit (pl_pool_settings p) pool SPEND_BDT r 0
                                            (at_refund t) (at_fresh t));; mret tt
                     | None => mret tt
                     end);;
                    answer ← _refuse CONTROL_PLANE_UNAVAILABLE_FAIL_CLOSED (F "{}" [FExn e]) trace_id;
                    mret (Some answer))
          | _ => None
          end);
  match refused with
  | Some answer => mret answer
  | None =>
      if negb (bool_decide (v_outcome decision = ALLOW)) then
        status ← lift (response_status (v_reason_code decision));
        mret (inr (mkRefused status (v_reason_code decision) (v_reason_detail decision)
                     (Some (at_decision_id t)) trace_id escalation_id))
      else mret (inl (mkAuthorized extraction token reservation (at_decision_id t) trace_id))
  end.

Definition after_verify (p : Pipeline) (t : moments) (trace_id : pystr) (headers : list (pystr * pystr))
    (extraction : Extraction) (token : VerifiedToken) : M (Authorized + Refused) :=
  context ← lift (_context_for extraction token headers (at_context t));
  principal ← lift (pl_principal_for p token);
  caveats ← lift (pl_caveats_for p token);
  decision ← run_decision p t token context caveats principal;
  escalation ← open_escalation_step p t trace_id extraction token context principal decision;
  match escalation with
  | inr answer => mret answer
  | inl escalation_id =>
      reserved ← reserve_step p t trace_id extraction token context decision;
      match reserved with
      | inr answer => mret answer
      | inl reservation =>
          record ← (λ w, (_record p t trace_id extraction token
            (mkRecordArgs (v_reason_code decision) (v_outcome decision) (v_reason_detail decision)
               reservation (Some principal) (v_drift_score decision) (v_failing_caveat decision)
               (Some context) (Some caveats)) (w_pool w), w)) : M _;
          emit_and_answer p t trace_id extraction token decision reservation escalation_id record
      end
  end.

(** The bearer credential: the scheme is required. *)
Definition bearer (headers : list (pystr * pystr)) : option pystr :=
  let raw := py_strip (default [] (header_get headers AUTH_HEADER)) in
  if starts_with (u "bearer ") (py_lower raw) then Some (py_strip (drop 7 raw)) else None.

Definition authorize (p : Pipeline) (t : moments) (r : http_request) : M (Authorized + Refused) :=
  let trace_id := match at_trace_id t with
                  | Some ((_ :: _) as s) => s | _ => uuid_text (at_decision_id t) end in
  let headers := header_map (hr_headers r) in
  match extract (pl_routes p) (hr_method r) (hr_path r) (hr_query r) headers (hr_body r) with
  | Raise (ExtractionError reason) => _refuse reason (F "{}" [FExn (ExtractionError reason)]) trace_id
  | Raise e => lift (Raise e)
  | Ok extraction =>
      match bearer headers with
      | None => _refuse MALFORMED_REQUEST (F "{} must carry a Bearer credential" [FStr AUTH_HEADER]) trace_id
      | Some token_text =>
          match verify token_text (pl_key_set p) (DT (at_verify t) true) with
          | Raise e =>
              if is_TokenError e
              then _refuse (default MALFORMED_REQUEST (exn_reason_code e)) (F "{}" [FExn e]) trace_id
              else lift (Raise e)
          | Ok token => after_verify p t trace_id headers extraction token
          end
      end
  end.

(** ** Step 9 *)
Definition settle (p : Pipeline) (a : Authorized) (actual : option Z) (now_commit now_settle : Z) (fresh : uuid)
    : M unit := λ w,
  match au_reservation a with
  | None => (Ok tt, w)
  | Some r =>
      match pool_commit (pl_pool_settings p) (w_pool w) SPEND_BDT r (default (rs_amount r) actual)
              now_commit fresh with
      | (Raise e, pool) => (Raise e, mkWorld pool (w_emitter w) (w_settlement w) (w_escalations w))
      | (Ok outcome, pool) =>
          match w_settlement w with
          | None => (Ok tt, mkWorld pool (w_emitter w) None (w_escalations w))
          | Some q =>
              let '(o, q) := enqueue (pl_settlement_settings p) q outcome (Some now_settle) None in
              (o, mkWorld pool (w_emitter w) (Some q) (w_escalations w))
          end
      end
  end.
End pipeline.
