(* ===== verification/PipelineSpec.v ===== *)
(** * What the pipeline guarantees

    An authorized request was permitted by every step, holds exactly the money it
    asked for and is in the audit buffer; a refused one holds nothing, has the status
    of its reason, and names a record only when there is one.  [answered] lists the
    ways [authorize] can end; the properties are read off it. *)
From S2P Require Import Prelude PyText Errors PyNum PyTime PyRe PyUuid PySha PyUrl PyJson Models Hashing HashingSpec Lease Settlement Emitter Pool Caveats Tokens Attenuation Decide Bundles BundlesSpec CedarPolicy PolicyCache PolicySpec Extractor ExtractorSpec Pipeline.

(** ** What a check leaves of the pool *)
Lemma maybe_schedule_remaining s p d h now loop p' k :
  p_held p !! d = Some h → _maybe_schedule_topup s p d h now loop = Ok p' →
  remaining p' k = remaining p k.
Proof.
  intros Hd. unfold _maybe_schedule_topup. destruct (_ || _); [by intros [= <-]|].
  intros (dr & _ & H)%bind_Ok_inv. destruct (_ || _); injection H as <-; [|done].
  unfold _schedule_topup. destruct (_ || _); [done|]. destruct (negb loop); [done|].
  unfold remaining. cbn [p_held]. destruct (decide (d = k)) as [<-|].
  - by rewrite lookup_insert_eq, Hd.
  - by rewrite lookup_insert_ne.
Qed.

Lemma check_remaining s reqs p now loop k :
  remaining (pool_check s p reqs now loop).2 k = remaining p k.
Proof.
  revert p. induction reqs as [|[d a] reqs IH]; intros p; simpl; [done|].
  destruct (a <=? 0); [apply IH|]. destruct (p_held p !! d) as [h|] eqn:Hd; [|done].
  destruct (p_closed p); [done|]. destruct (lease_refuses _ _ _ _); [|apply IH].
  destruct (_maybe_schedule_topup _ _ _ _ _ _) eqn:Hm; [|done].
  by eapply maybe_schedule_remaining.
Qed.

(** A reservation takes its amount from what is left, and giving it back unspent
    restores it. *)
Lemma pool_reserve_Ok s p d amount now loop rid r p' :
  pool_reserve s p d amount now loop rid = (Ok r, p') →
  rs_amount r = amount ∧ rs_id r = rid
  ∧ remaining p' d = remaining p d - amount
  ∧ (∀ k, k ≠ d → remaining p' k = remaining p k)
  ∧ is_Some (p_held p' !! d).
Proof.
  unfold pool_reserve. destruct (p_held p !! d) as [h|] eqn:Hd; [|done]. destruct (p_closed p); [done|].
  destruct (reserve _ _ _ _ _) as [[r'|e] l] eqn:Er; [|done].
  apply reserve_Ok in Er as (_ & _ & _ & -> & ->). set (h' := mkHeld _ _ _).
  destruct (_maybe_schedule_topup _ _ _ _ _ _) as [p1|] eqn:Hm; [|done]. intros [= <- <-].
  assert (Hp' : p_held (put_held p d h') !! d = Some h') by apply lookup_insert_eq.
  assert (Hrem : ∀ k, remaining p1 k = remaining (put_held p d h') k).
  { intros k. by eapply maybe_schedule_remaining. }
  split; [done|]. split; [done|]. split; [|split].
  - rewrite Hrem. unfold remaining. by rewrite Hp', Hd.
  - intros k Hk. rewrite Hrem. unfold remaining, put_held. cbn [p_held]. by rewrite lookup_insert_ne.
  - specialize (Hrem d). unfold _maybe_schedule_topup in Hm. destruct (_ || _); [injection Hm as <-; eauto|].
    apply bind_Ok_inv in Hm as (dr & _ & Hm). destruct (_ || _); injection Hm as <-; [|eauto].
    unfold _schedule_topup. destruct (_ || _); [eauto|]. destruct (negb loop); [eauto|].
    cbn [p_held]. rewrite lookup_insert_eq. eauto.
Qed.

Lemma pool_refund s p d r now fresh :
  is_Some (p_held p !! d) → 0 < rs_amount r →
  ∃ o p', pool_commit s p d r 0 now fresh = (Ok o, p')
    ∧ remaining p' d = remaining p d + rs_amount r ∧ ∀ k, k ≠ d → remaining p' k = remaining p k.
Proof.
  intros [h Hd] Ha. unfold pool_commit. rewrite Hd. unfold commit. cbv zeta.
  rewrite (proj2 (Z.ltb_ge 0 (0 - rs_amount r))), (proj2 (Z.ltb_lt (0 - rs_amount r) 0)) by lia.
  do 2 eexists. split; [reflexivity|]. unfold remaining, put_held. cbn [p_held]. split.
  - rewrite lookup_insert_eq, Hd. cbn. lia.
  - intros k Hk. by rewrite lookup_insert_ne.
Qed.

Lemma pool_reserve_Raise s p d amount now loop rid p' :
  pool_reserve s p d amount now loop rid = (Raise ReservationInsufficientError, p') →
  ∀ k, remaining p' k = remaining p k.
Proof.
  unfold pool_reserve. destruct (p_held p !! d) as [h|] eqn:Hd; [|by intros [= <-]].
  destruct (p_closed p); [by intros [= <-]|].
  destruct (reserve _ _ _ _ _) as [[r'|x] l] eqn:Er; [|by intros [= _ <-]].
  destruct (_maybe_schedule_topup _ _ _ _ _ _) as [p1|x] eqn:Hm; [done|]. intros [= -> <-].
  exfalso. unfold _maybe_schedule_topup in Hm. destruct (_ || _); [done|].
  unfold drained in Hm. destruct (dec_mul _ _) as [m|y] eqn:Em; cbn [mbind res_bind] in Hm.
  - by destruct (_ || _).
  - injection Hm as ->. unfold dec_mul, dec_fix in Em. repeat case_match; done.
Qed.

Lemma decide_budget_state `{BiscuitLib} {R P B D : Type}
    `{RevocationOracle R, PolicyEngine P, BudgetOracle B, DriftOracle D}
    token ctx caveats (ro : R) (po : P) (bo : B) (dr : option D) :
  (decide_request token ctx caveats ro po bo dr).2 = bo
  ∨ (decide_request token ctx caveats ro po bo dr).2 = (budget_check bo (requested ctx)).2.
Proof.
  assert (Hor : ∀ m (k : py Verdict * B) b (P : B → Prop), P b → P k.2 → P (or_else m k b).2)
    by (by intros [[]|] ???).
  set (Q := λ b, b = bo ∨ b = (budget_check bo (requested ctx)).2).
  change (Q (decide_request token ctx caveats ro po bo dr).2). unfold decide_request.
  assert (Q bo) as Hbo by by left.
  apply (Hor _ _ _ Q); [done|]. apply (Hor _ _ _ Q); [done|]. destruct (_evaluate_caveats caveats ctx) as [cd|]; [|done].
  destruct (match cd with Some v => _ | None => _ end); [done|].
  apply (Hor _ _ _ Q); [done|]. apply (Hor _ _ _ Q); [done|]. destruct (drift_score_of dr ctx) as [score|]; [|done].
  assert (Hlast : Q (match cd with
      | Some v => (Ok (mkVerdict (v_outcome v) (v_reason_code v) (v_reason_detail v)
                         (v_failing_caveat v) score), bo)
      | None => let '(answer, budget') := budget_step bo ctx in
                or_else answer (Ok match score with None => _ALLOW
                         | Some s => mkVerdict ALLOW OK no_detail None (Some s) end, budget') budget'
      end).2).
  { destruct cd; [done|]. unfold budget_step. destruct (budget_check bo (requested ctx)) as [a b'] eqn:E.
    apply (Hor _ _ _ Q); by right. }
  destruct score as [x|]; [|exact Hlast]. destruct (drift_escalates (Some x) ctx); [done|exact Hlast].
Qed.

Section pipeline_spec.
Context {UN : Unicode} {ST : SortTies} {CA : Casing} {RT : Routing} {BL : BiscuitLib}
  {CD : Cedar} {RV DR E : Type} {RO : RevocationOracle RV} {DO : DriftOracle DR} {ES : EscalationSink E}.
Implicit Types (p : Pipeline (RV := RV) (DR := DR)) (w : world (E := E)) (t : moments).

(** The decision leaves the money alone. *)
Lemma run_decision_inv p t token ctx caveats principal w v w' :
  run_decision p t token ctx caveats principal w = (Ok v, w') →
  (decide_request token ctx caveats (pl_revocation p) (bound (pl_policy p) principal)
     (mkPoolOracle (pl_pool_settings p) (w_pool w) (at_check t) (at_loop t)) (pl_drift_oracle p)).1 = Ok v
  ∧ (∀ k, remaining (w_pool w') k = remaining (w_pool w) k)
  ∧ w_emitter w' = w_emitter w ∧ w_settlement w' = w_settlement w ∧ w_escalations w' = w_escalations w.
Proof.
  unfold run_decision, on_pool.
  set (o := mkPoolOracle (pl_pool_settings p) (w_pool w) (at_check t) (at_loop t)).
  pose proof (decide_budget_state token ctx caveats (pl_revocation p) (bound (pl_policy p) principal) o
    (pl_drift_oracle p)) as Hb.
  destruct (decide_request _ _ _ _ _ _ _) as [a o']. cbn [fst snd] in Hb. intros [= -> <-].
  cbn [w_pool w_emitter w_settlement w_escalations]. split; [done|]. split_and!; try done.
  intros k. destruct Hb as [->| ->]; [done|]. cbn [budget_check pool_budget_oracle].
  pose proof (check_remaining (po_settings o) ((λ d, (d, default 0 (requested ctx !! d))) <$> all_dimensions)
    (po_pool o) (po_now o) (po_loop o) k) as Hc.
  destruct (pool_check _ _ _ _ _). exact Hc.
Qed.

(** ** How a request can end *)

(** A refusal, with the status of its reason. *)
Definition refusal (f : Refused) : Prop := _STATUS (rf_reason_code f) = Some (rf_status f).

Lemma refuse_inv reason detail trace w a w' :
  _refuse (E := E) reason detail trace w = (Ok a, w') →
  ∃ f, a = inr f ∧ w' = w ∧ refusal f ∧ rf_reason_code f = reason ∧ rf_decision_id f = None.
Proof.
  intros (s & w1 & [Hs ->]%lift_inv & [-> ->]%st_ret_inv)%st_bind_inv. unfold response_status in Hs.
  destruct (_STATUS reason) eqn:Es; [|done]. injection Hs as ->. eauto 10.
Qed.

(** A record that reached the emitter. *)
Definition offered p t (w : world (E := E)) (d : DecisionRecord) (r : py unit) (w' : world (E := E)) : Prop :=
  emit (pl_emitter_settings p) (w_emitter w) d = (r, w_emitter w') ∧ decision_id d = at_decision_id t.

Lemma record_id p t trace ex token a pool d :
  _record p t trace ex token a pool = Ok d →
  decision_id d = at_decision_id t ∧ outcome d = ra_outcome a ∧ reason_code d = ra_reason a
  ∧ rec_reservation_id d = rs_id <$> ra_reservation a
  ∧ outcome_matches_reason (ra_outcome a) (ra_reason a) = true.
Proof.
  unfold _record. intros (pr & _ & (b1 & _ & (b2 & _ & (au & _ & H)%bind_Ok_inv)%bind_Ok_inv)%bind_Ok_inv)%bind_Ok_inv.
  unfold mk_DecisionRecord in H. destruct (DecisionRecord_valid _) eqn:Ev; [|done]. injection H as <-.
  unfold DecisionRecord_valid in Ev. rewrite !andb_true_iff in Ev. destruct Ev as [_ Ev].
  cbn [outcome reason_code] in Ev. done.
Qed.

Lemma emit_cases p (r : DecisionRecord) w x w' :
  _emit (E := E) p r w = (x, w') →
  emit (pl_emitter_settings p) (w_emitter w) r = (x, w_emitter w')
  ∧ w_pool w' = w_pool w ∧ w_settlement w' = w_settlement w ∧ w_escalations w' = w_escalations w
  ∧ (x = Ok tt ∨ x = Raise AuditBufferFullError ∧ w_emitter w' = w_emitter w).
Proof.
  unfold _emit, on_emitter. destruct (emit _ _ r) as [y e'] eqn:Ee. intros [= <- <-].
  cbn [w_emitter w_pool w_settlement w_escalations]. split_and!; try done.
  unfold emit in Ee. repeat case_match; simplify_eq; auto.
Qed.

Lemma record_and_refuse_inv p t trace ex token reason detail w a w' :
  _record_and_refuse (E := E) p t trace ex token reason detail w = (Ok a, w') →
  ∃ f d r, a = inr f ∧ refusal f ∧ rf_reason_code f = reason ∧ rf_decision_id f = None
    ∧ offered p t w d r w' ∧ outcome d = DENY ∧ reason_code d = reason
    ∧ w_pool w' = w_pool w ∧ w_settlement w' = w_settlement w.
Proof.
  unfold _record_and_refuse. intros (d & w1 & Hd & H)%st_bind_inv. injection Hd as Hd <-.
  apply record_id in Hd as (Hid & Ho & Hr & _). cbn [denial ra_outcome ra_reason] in Ho, Hr.
  apply st_bind_inv in H as ([] & w1 & Ht & (f & -> & -> & Hf & Hrc & Hn)%refuse_inv). exists f, d.
  apply m_try_inv in Ht as [He|(e & w2 & k & He & Hk & Hw)].
  - apply emit_cases in He as (He & Hp & Hs & _). exists (Ok tt). done.
  - apply emit_cases in He as (He & Hp & Hs & _ & Hx). destruct e; try done. injection Hk as <-.
    apply st_ret_inv in Hw as [_ ->]. exists (Raise AuditBufferFullError). done.
Qed.

(** Everything decided before the money moves. *)
Record decided p t (r : http_request) (w : world (E := E)) (token : VerifiedToken) (ctx : RequestContext)
    (principal : AgentPrincipal) (caveats : list Caveat) (ex : Extraction) (v : Verdict) : Prop := {
  de_extract : extract (pl_routes p) (hr_method r) (hr_path r) (hr_query r) (header_map (hr_headers r))
                 (hr_body r) = Ok ex;
  de_verify : ∃ text, bearer (header_map (hr_headers r)) = Some text
                      ∧ verify text (pl_key_set p) (DT (at_verify t) true) = Ok token;
  de_context : _context_for ex token (header_map (hr_headers r)) (at_context t) = Ok ctx;
  de_principal : pl_principal_for p token = Ok principal;
  de_caveats : pl_caveats_for p token = Ok caveats;
  de_verdict : (decide_request token ctx caveats (pl_revocation p) (bound (pl_policy p) principal)
     (mkPoolOracle (pl_pool_settings p) (w_pool w) (at_check t) (at_loop t)) (pl_drift_oracle p)).1 = Ok v }.

Inductive answered p t r w : Authorized + Refused → world (E := E) → Prop :=
| refused_early f : refusal f → rf_decision_id f = None → answered p t r w (inr f) w
| refused_recorded f d x w' token ctx principal caveats ex v :
    decided p t r w token ctx principal caveats ex v →
    refusal f → rf_decision_id f = None → offered p t w d x w' → outcome d = DENY →
    reason_code d = rf_reason_code f →
    (∀ k, remaining (w_pool w') k = remaining (w_pool w) k) → w_settlement w' = w_settlement w →
    answered p t r w (inr f) w'
| refused_unrecorded f d w' token ctx principal caveats ex v :
    decided p t r w token ctx principal caveats ex v →
    refusal f → rf_decision_id f = None → rf_reason_code f = CONTROL_PLANE_UNAVAILABLE_FAIL_CLOSED →
    offered p t w d (Raise AuditBufferFullError) w' → w_emitter w' = w_emitter w →
    (∀ k, remaining (w_pool w') k = remaining (w_pool w) k) → w_settlement w' = w_settlement w →
    answered p t r w (inr f) w'
| refused_decided f d w' token ctx principal caveats ex v :
    decided p t r w token ctx principal caveats ex v →
    refusal f → rf_decision_id f = Some (at_decision_id t) → offered p t w d (Ok tt) w' →
    v_outcome v ≠ ALLOW → outcome d = v_outcome v → reason_code d = rf_reason_code f →
    rf_reason_code f = v_reason_code v →
    (∀ k, remaining (w_pool w') k = remaining (w_pool w) k) → w_settlement w' = w_settlement w →
    answered p t r w (inr f) w'
| forwarded a d w' token ctx principal caveats ex v :
    decided p t r w token ctx principal caveats ex v → v_outcome v = ALLOW →
    a = mkAuthorized ex token (au_reservation a) (at_decision_id t) (au_trace_id a) →
    offered p t w d (Ok tt) w' → outcome d = ALLOW → reason_code d = OK →
    rec_reservation_id d = rs_id <$> au_reservation a →
    match au_reservation a with
    | Some s => rs_amount s = requested_of ctx SPEND_BDT ∧ 0 < rs_amount s
                ∧ remaining (w_pool w') SPEND_BDT = remaining (w_pool w) SPEND_BDT - rs_amount s
                ∧ is_Some (p_held (w_pool w') !! SPEND_BDT)
    | None => requested_of ctx SPEND_BDT <= 0
              ∧ remaining (w_pool w') SPEND_BDT = remaining (w_pool w) SPEND_BDT
    end →
    (∀ k, k ≠ SPEND_BDT → remaining (w_pool w') k = remaining (w_pool w) k) →
    w_settlement w' = w_settlement w →
    answered p t r w (inl a) w'.

(** ** The steps *)

(** A refusal that was recorded as a denial, from a state with the same buffer. *)
Definition denied_on_record p t (w : world (E := E)) (a : Authorized + Refused) (w' : world (E := E)) : Prop :=
  ∃ f d x, a = inr f ∧ refusal f ∧ rf_decision_id f = None ∧ offered p t w d x w' ∧ outcome d = DENY
    ∧ reason_code d = rf_reason_code f
    ∧ (∀ k, remaining (w_pool w') k = remaining (w_pool w) k) ∧ w_settlement w' = w_settlement w.

Lemma record_and_refuse_denied p t trace ex token reason detail w0 w a w' :
  w_emitter w = w_emitter w0 → w_settlement w = w_settlement w0 →
  (∀ k, remaining (w_pool w) k = remaining (w_pool w0) k) →
  _record_and_refuse (E := E) p t trace ex token reason detail w = (Ok a, w') →
  denied_on_record p t w0 a w'.
Proof.
  intros He Hs Hp (f & d & x & -> & Hf & Hr & Hn & [Ho Hid] & Hd & Hc & Hpool & Hset)%record_and_refuse_inv.
  exists f, d, x. unfold offered. rewrite He in Ho. split; [done|]. split; [done|]. split; [done|].
  split; [by split|]. split; [done|]. split; [congruence|]. split; [intros k; by rewrite Hpool|congruence].
Qed.

Lemma open_escalation_inv p t trace ex token ctx principal v w e w' :
  open_escalation_step p t trace ex token ctx principal v w = (Ok e, w') →
  match e with
  | inl _ => w_pool w' = w_pool w ∧ w_emitter w' = w_emitter w ∧ w_settlement w' = w_settlement w
  | inr a => denied_on_record p t w a w'
  end.
Proof.
  unfold open_escalation_step. destruct (_ && _); [|by intros [-> ->]%st_ret_inv].
  assert (Hesc : ∀ w x w1, on_escalations (λ s, sink_create s (escalation_of p t token ctx principal v)) w
    = (x, w1) → w_pool w1 = w_pool w ∧ w_emitter w1 = w_emitter w ∧ w_settlement w1 = w_settlement w).
  { intros w0 x w1. unfold on_escalations. destruct (sink_create _ _). by intros [= _ <-]. }
  intros [H|(x & w1 & k & H & Hk & Hw)]%m_try_inv.
  - apply st_bind_inv in H as (i & w2 & Hc & [-> ->]%st_ret_inv). by apply Hesc in Hc.
  - assert (Hsame : w_pool w1 = w_pool w ∧ w_emitter w1 = w_emitter w ∧ w_settlement w1 = w_settlement w).
    { unfold mbind, st_bind in H. destruct (on_escalations _ w) as [[i|y] w2] eqn:Ec; [done|].
      injection H as -> ->. by apply Hesc in Ec. }
    destruct Hsame as (Hp & He & Hs). injection Hk as <-.
    apply st_bind_inv in Hw as (a & w2 & Hr & [-> ->]%st_ret_inv).
    eapply record_and_refuse_denied; [exact He|exact Hs| |exact Hr]. by rewrite Hp.
Qed.

Lemma reserve_inv p t trace ex token ctx v w e w' :
  reserve_step (E := E) p t trace ex token ctx v w = (Ok e, w') →
  match e with
  | inl None => w' = w ∧ (v_outcome v = ALLOW → requested_of ctx SPEND_BDT <= 0)
  | inl (Some s) =>
      v_outcome v = ALLOW ∧ rs_amount s = requested_of ctx SPEND_BDT ∧ 0 < rs_amount s
      ∧ remaining (w_pool w') SPEND_BDT = remaining (w_pool w) SPEND_BDT - rs_amount s
      ∧ (∀ k, k ≠ SPEND_BDT → remaining (w_pool w') k = remaining (w_pool w) k)
      ∧ is_Some (p_held (w_pool w') !! SPEND_BDT)
      ∧ w_emitter w' = w_emitter w ∧ w_settlement w' = w_settlement w
  | inr a => denied_on_record p t w a w'
  end.
Proof.
  unfold reserve_step. cbv zeta. destruct (bool_decide (v_outcome v = ALLOW)) eqn:Ho; cbn [andb].
  2: { intros [-> ->]%st_ret_inv. split; [done|]. by apply bool_decide_eq_false in Ho. }
  apply bool_decide_eq_true in Ho. destruct (Z.ltb_spec 0 (requested_of ctx SPEND_BDT)) as [Hpos|Hle].
  2: { by intros [-> ->]%st_ret_inv. }
  intros [H|(x & w1 & k & H & Hk & Hw)]%m_try_inv.
  - apply st_bind_inv in H as (r & w2 & Hc & [-> ->]%st_ret_inv). unfold on_pool in Hc.
    destruct (pool_reserve _ _ _ _ _ _ _) as [y q] eqn:Er. injection Hc as -> <-.
    apply pool_reserve_Ok in Er as (Ha & _ & Hr & Hne & Hheld). cbn [w_pool w_emitter w_settlement].
    rewrite Ha. split_and!; done.
  - unfold mbind, st_bind, on_pool in H. destruct (pool_reserve _ _ _ _ _ _ _) as [[r|y] q] eqn:Er; [done|].
    injection H as -> <-. destruct x; try done. injection Hk as <-.
    apply st_bind_inv in Hw as (a & w2 & Hr & [-> ->]%st_ret_inv).
    eapply record_and_refuse_denied; [..|exact Hr]; cbn [w_pool w_emitter w_settlement]; [done..|].
    intros k. by eapply pool_reserve_Raise.
Qed.

Lemma emit_and_answer_inv p t trace ex token v reservation esc d w a w' :
  emit_and_answer (E := E) p t trace ex token v reservation esc d w = (Ok a, w') →
  decision_id d = at_decision_id t →
  (∀ s, reservation = Some s → 0 < rs_amount s ∧ is_Some (p_held (w_pool w) !! SPEND_BDT)) →
  w_settlement w' = w_settlement w ∧
  ((∃ f, a = inr f ∧ refusal f ∧ rf_decision_id f = None
         ∧ rf_reason_code f = CONTROL_PLANE_UNAVAILABLE_FAIL_CLOSED
         ∧ offered p t w d (Raise AuditBufferFullError) w' ∧ w_emitter w' = w_emitter w
         ∧ remaining (w_pool w') SPEND_BDT
           = remaining (w_pool w) SPEND_BDT + match reservation with Some s => rs_amount s | None => 0 end
         ∧ ∀ k, k ≠ SPEND_BDT → remaining (w_pool w') k = remaining (w_pool w) k)
   ∨ (w_pool w' = w_pool w ∧ offered p t w d (Ok tt) w' ∧
      if decide (v_outcome v = ALLOW)
      then a = inl (mkAuthorized ex token reservation (at_decision_id t) trace)
      else ∃ f, a = inr f ∧ refusal f ∧ rf_decision_id f = Some (at_decision_id t)
                ∧ rf_reason_code f = v_reason_code v)).
Proof.
  intros H Hid Hres. unfold emit_and_answer in H.
  apply st_bind_inv in H as (refused & w1 & Ht & H). apply m_try_inv in Ht as [Ht|(x & w2 & k & Ht & Hk & Hw)].
  - apply st_bind_inv in Ht as ([] & w2 & He & [-> ->]%st_ret_inv).
    apply emit_cases in He as (He & Hp & Hs & _).
    destruct (decide (v_outcome v = ALLOW)) as [Ho|Ho].
    + rewrite bool_decide_true in H by done. apply st_ret_inv in H as [-> ->].
      split; [done|]. right. by split.
    + rewrite bool_decide_false in H by done. cbn [negb] in H.
      apply st_bind_inv in H as (status & w3 & [Hst ->]%lift_inv & [-> ->]%st_ret_inv).
      split; [done|]. right. split; [done|]. split; [done|]. eexists. split; [done|].
      unfold response_status in Hst. destruct (_STATUS _) eqn:Es; [|done]. injection Hst as ->. done.
  - assert (Hem : _emit p d w = (Raise x, w2)).
    { unfold mbind, st_bind in Ht. destruct (_emit p d w) as [[[]|y] w3]; [done|]. by injection Ht as -> ->. }
    apply emit_cases in Hem as (He & Hp & Hs & _ & [?|[[= ->] Hsame]]); [done|]. injection Hk as <-.
    apply st_bind_inv in Hw as ([] & w3 & Hrefund & Hw).
    apply st_bind_inv in Hw as (ans & w4 & (f & -> & -> & Hf & Hr & Hn)%refuse_inv & [-> ->]%st_ret_inv).
    apply st_ret_inv in H as [-> ->].
    assert (Hw3 : w_emitter w3 = w_emitter w2 ∧ w_settlement w3 = w_settlement w2
      ∧ remaining (w_pool w3) SPEND_BDT
        = remaining (w_pool w) SPEND_BDT + match reservation with Some s => rs_amount s | None => 0 end
      ∧ ∀ k, k ≠ SPEND_BDT → remaining (w_pool w3) k = remaining (w_pool w) k).
    { destruct reservation as [s|]; [|apply st_ret_inv in Hrefund as [_ ->]; rewrite Hp;
        split_and!; try done; lia].
      apply st_bind_inv in Hrefund as (o & w5 & Hc & [_ ->]%st_ret_inv). unfold on_pool in Hc. rewrite Hp in Hc.
      destruct (Hres s eq_refl) as [Hpos Hheld].
      destruct (pool_refund (pl_pool_settings p) (w_pool w) SPEND_BDT s (at_refund t) (at_fresh t) Hheld Hpos)
        as (o' & q & Hq & Hrem & Hne). rewrite Hq in Hc. injection Hc as _ <-. done. }
    destruct Hw3 as (He3 & Hs3 & Hrem & Hne). split; [congruence|]. left. exists f.
    unfold offered. rewrite He3, Hsame. split_and!; done || congruence.
Qed.

Lemma after_verify_answered p t trace r ex token w a w' :
  extract (pl_routes p) (hr_method r) (hr_path r) (hr_query r) (header_map (hr_headers r)) (hr_body r) = Ok ex →
  (∃ text, bearer (header_map (hr_headers r)) = Some text
           ∧ verify text (pl_key_set p) (DT (at_verify t) true) = Ok token) →
  after_verify p t trace (header_map (hr_headers r)) ex token w = (Ok a, w') → answered p t r w a w'.
Proof.
  intros Hex Hver H. unfold after_verify in H.
  apply st_bind_inv in H as (ctx & w0 & [Hctx ->]%lift_inv & H).
  apply st_bind_inv in H as (principal & w0 & [Hpr ->]%lift_inv & H).
  apply st_bind_inv in H as (caveats & w0 & [Hcav ->]%lift_inv & H).
  apply st_bind_inv in H as (v & w1 & (Hv & Hp1 & He1 & Hs1 & _)%run_decision_inv & H).
  assert (Hdec : decided p t r w token ctx principal caveats ex v) by done.
  assert (Hdenied : ∀ w0 a w', w_emitter w0 = w_emitter w → w_settlement w0 = w_settlement w →
    (∀ k, remaining (w_pool w0) k = remaining (w_pool w) k) →
    denied_on_record p t w0 a w' → answered p t r w a w').
  { intros w0 a0 w0' He Hs Hp (f & d & x & -> & Hf & Hn & [Ho Hid] & Hd & Hc & Hrem & Hset).
    eapply refused_recorded; [exact Hdec|done|done| |done|done| |congruence].
    - split; [rewrite <- He; exact Ho|done].
    - intros k. by rewrite Hrem. }
  apply st_bind_inv in H as (esc & w2 & Hesc%open_escalation_inv & H). destruct esc as [esc|a'].
  2: { apply st_ret_inv in H as [-> ->]. by eapply (Hdenied w1). }
  destruct Hesc as (Hp2 & He2 & Hs2).
  assert (Hr2 : ∀ k, remaining (w_pool w2) k = remaining (w_pool w) k) by (intros k; by rewrite Hp2).
  apply st_bind_inv in H as (res & w3 & Hres%reserve_inv & H). destruct res as [res|a'].
  2: { apply st_ret_inv in H as [-> ->]. eapply (Hdenied w2); [congruence|congruence|done|done]. }
  apply st_bind_inv in H as (d & w4 & Hd & H). injection Hd as Hd <-.
  apply record_id in Hd as (Hid & Hout & Hreason & Hrid & Hmatch).
  cbn [ra_outcome ra_reason ra_reservation] in Hout, Hreason, Hrid, Hmatch.
  assert (Hw3 : w_emitter w3 = w_emitter w ∧ w_settlement w3 = w_settlement w
    ∧ remaining (w_pool w3) SPEND_BDT
      = remaining (w_pool w) SPEND_BDT - match res with Some s => rs_amount s | None => 0 end
    ∧ (∀ k, k ≠ SPEND_BDT → remaining (w_pool w3) k = remaining (w_pool w) k)
    ∧ ∀ s, res = Some s → v_outcome v = ALLOW ∧ rs_amount s = requested_of ctx SPEND_BDT ∧ 0 < rs_amount s
                         ∧ is_Some (p_held (w_pool w3) !! SPEND_BDT)).
  { destruct res as [s|].
    - destruct Hres as (Ho & Ha & Hpos & Hrem & Hne & Hheld & He & Hs).
      split; [congruence|]. split; [congruence|]. split; [by rewrite Hrem, Hr2|]. split.
      + intros k Hk. by rewrite Hne, Hr2.
      + intros s' [= <-]. done.
    - destruct Hres as [-> _]. split; [congruence|]. split; [congruence|]. split; [rewrite Hr2; lia|]. by split. }
  destruct Hw3 as (He3 & Hs3 & Hrem3 & Hne3 & Hs).
  destruct (emit_and_answer_inv _ _ _ _ _ _ _ _ _ _ _ _ H Hid) as [Hset Hfin].
  { intros s ->. destruct (Hs s eq_refl) as (_ & _ & ? & ?). done. }
  destruct Hfin as [(f & -> & Hf & Hn & Hrc & [Ho _] & Hsame & Hrem & Hne)|(Hpool & [Ho _] & Hfin)].
  - eapply refused_unrecorded; [exact Hdec|done|done|done| | | |congruence].
    + split; [by rewrite <- He3|done].
    + congruence.
    + intros k. destruct (decide (k = SPEND_BDT)) as [->|Hk]; [lia|]. by rewrite Hne, Hne3.
  - assert (Hoff : offered p t w d (Ok tt) w') by (split; [by rewrite <- He3|done]).
    destruct (decide (v_outcome v = ALLOW)) as [Hal|Hal].
    + subst a. assert (Hok : v_reason_code v = OK).
      { rewrite Hal in Hmatch. by destruct (v_reason_code v). }
      eapply forwarded; [exact Hdec|done|done|exact Hoff|congruence|congruence|exact Hrid| | |congruence];
        cbn [au_reservation].
      * rewrite Hpool. destruct res as [s|].
        -- destruct (Hs s eq_refl) as (_ & Ha & Hpos & Hheld). done.
        -- destruct Hres as [_ Hle]. split; [auto|]. rewrite Hrem3. lia.
      * intros k Hk. rewrite Hpool. by apply Hne3.
    + destruct Hfin as (f & -> & Hf & Hn & Hrc).
      eapply refused_decided; [exact Hdec|done|done|exact Hoff|done|done|congruence|done| |congruence].
      intros k. rewrite Hpool. destruct (decide (k = SPEND_BDT)) as [->|Hk]; [|by apply Hne3].
      rewrite Hrem3. destruct res as [s|]; [|lia]. by destruct (Hs s eq_refl).
Qed.

Lemma authorize_answered p t r w a w' :
  authorize p t r w = (Ok a, w') → answered p t r w a w'.
Proof.
  assert (Hearly : ∀ reason detail trace, _refuse (E := E) reason detail trace w = (Ok a, w') → answered p t r w a w').
  { intros reason detail trace (f & -> & -> & Hf & _ & Hn)%refuse_inv. by apply refused_early. }
  unfold authorize. cbv zeta.
  destruct (extract _ _ _ _ _ _) as [ex|e] eqn:Hex.
  2: { destruct e; try (by intros [? _]%lift_inv); apply Hearly. }
  destruct (bearer _) as [text|] eqn:Hb; [|apply Hearly].
  destruct (verify _ _ _) as [token|e] eqn:Hv.
  - apply after_verify_answered; eauto.
  - destruct (is_TokenError e); [apply Hearly|by intros [? _]%lift_inv].
Qed.
End pipeline_spec.

Section pipeline_properties.
Context {UN : Unicode} {ST : SortTies} {CA : Casing} {RT : Routing} {BL : BiscuitLib}
  {CD : Cedar} {RV DR E : Type} {RO : RevocationOracle RV} {DO : DriftOracle DR} {ES : EscalationSink E}.
Implicit Types (p : Pipeline (RV := RV) (DR := DR)) (w : world (E := E)) (t : moments).

(** C4: A request is forwarded only when it was extracted, its token verified, and every
    step of the decision permits it against the pool as it was; what it then holds is
    one reservation of exactly the amount it asked for (none when it asked for none),
    taken from the spend lease and from nothing else, and the emitter took an ALLOW
    record that carries the answer's decision id and that reservation's id. *)
Theorem authorized_is_permitted p t r w a w' :
  authorize p t r w = (Ok (inl a), w') →
  ∃ token ctx principal caveats text d,
    extract (pl_routes p) (hr_method r) (hr_path r) (hr_query r) (header_map (hr_headers r)) (hr_body r)
      = Ok (au_extraction a)
    ∧ bearer (header_map (hr_headers r)) = Some text
    ∧ verify text (pl_key_set p) (DT (at_verify t) true) = Ok token
    ∧ _context_for (au_extraction a) token (header_map (hr_headers r)) (at_context t) = Ok ctx
    ∧ pl_principal_for p token = Ok principal ∧ pl_caveats_for p token = Ok caveats
    ∧ permitted token ctx caveats (pl_revocation p) (bound (pl_policy p) principal)
        (mkPoolOracle (pl_pool_settings p) (w_pool w) (at_check t) (at_loop t)) (pl_drift_oracle p)
    ∧ match au_reservation a with
      | Some s => rs_amount s = requested_of ctx SPEND_BDT ∧ 0 < rs_amount s
      | None => requested_of ctx SPEND_BDT <= 0
      end
    ∧ remaining (w_pool w') SPEND_BDT
      = remaining (w_pool w) SPEND_BDT - match au_reservation a with Some s => rs_amount s | None => 0 end
    ∧ (∀ k, k ≠ SPEND_BDT → remaining (w_pool w') k = remaining (w_pool w) k)
    ∧ emit (pl_emitter_settings p) (w_emitter w) d = (Ok tt, w_emitter w')
    ∧ decision_id d = au_decision_id a ∧ outcome d = ALLOW ∧ reason_code d = OK
    ∧ rec_reservation_id d = rs_id <$> au_reservation a.
Proof.
  intros H%authorize_answered. inversion H as
    [| | | |a0 d w0 token ctx principal caveats ex v [Hex (text & Hb & Hv) Hctx Hpr Hcav Hver] Hal Ha [He Hid] Ho Hr Hrid
       Hres Hne Hset]; subst a0 w0.
  exists token, ctx, principal, caveats, text, d. rewrite Ha. cbn [au_extraction au_decision_id].
  pose proof (allowed_permitted _ _ _ _ _ _ _ _ Hver Hal) as Hperm. cbn [au_reservation].
  destruct (au_reservation a) as [s|].
  - destruct Hres as (? & ? & Hrem & _). do 13 (split; [done|]). done.
  - destruct Hres as (? & Hrem). do 7 (split; [done|]). split; [done|]. split; [rewrite Hrem; lia|].
    do 4 (split; [done|]). done.
Qed.

(** C5: A refused request leaves every lease with the balance it had, and the settlement
    queue as it was: a reservation taken before the record could not be stored is given
    back.  Its status is the one spec 09 gives its reason. *)
Theorem refusal_holds_nothing p t r w f w' :
  authorize p t r w = (Ok (inr f), w') →
  (∀ k, remaining (w_pool w') k = remaining (w_pool w) k) ∧ w_settlement w' = w_settlement w
  ∧ _STATUS (rf_reason_code f) = Some (rf_status f).
Proof. by intros H%authorize_answered; inversion H; subst. Qed.

(** A refusal that names a decision names a record the emitter took, with the same
    reason and an outcome other than ALLOW; one that names none either came before the
    token was verified, leaving the state alone, or offered the emitter a DENY record of
    its reason, or could not store the record of the decision it had reached. *)
Theorem refusals_recorded p t r w f w' :
  authorize p t r w = (Ok (inr f), w') →
  match rf_decision_id f with
  | Some i => ∃ d, i = at_decision_id t ∧ decision_id d = i
                ∧ emit (pl_emitter_settings p) (w_emitter w) d = (Ok tt, w_emitter w')
                ∧ outcome d ≠ ALLOW ∧ reason_code d = rf_reason_code f
  | None =>
      w' = w
      ∨ (∃ d x, decision_id d = at_decision_id t ∧ outcome d = DENY ∧ reason_code d = rf_reason_code f
                ∧ emit (pl_emitter_settings p) (w_emitter w) d = (x, w_emitter w'))
      ∨ (rf_reason_code f = CONTROL_PLANE_UNAVAILABLE_FAIL_CLOSED ∧ w_emitter w' = w_emitter w
         ∧ ∃ d, emit (pl_emitter_settings p) (w_emitter w) d = (Raise AuditBufferFullError, w_emitter w'))
  end.
Proof.
  intros H%authorize_answered.
  inversion H as [f0 Hf Hn|f0 d x w0 token ctx principal caveats ex v _ Hf Hn [He Hid] Ho Hr
    |f0 d w0 token ctx principal caveats ex v _ Hf Hn Hrc [He Hid] Hsame
    |f0 d w0 token ctx principal caveats ex v _ Hf Hn [He Hid] Hal Ho Hr|]; subst f0; try subst w0.
  - rewrite Hn. by left.
  - rewrite Hn. right. left. eauto 10.
  - rewrite Hn. right. right. eauto.
  - rewrite Hn. exists d. split; [done|]. split; [done|]. split; [done|]. by rewrite Ho.
Qed.

(** Settlement returns to the lease what was reserved and not spent, at once, and hands
    the outcome to the settlement queue when there is one; without a reservation it does
    nothing. *)
Theorem settle_returns_unspent p a actual tc ts fresh w h r :
  au_reservation a = Some r → p_held (w_pool w) !! SPEND_BDT = Some h → 0 < rs_amount r →
  0 <= default (rs_amount r) actual <= rs_amount r →
  ∃ o pool, pool_commit (pl_pool_settings p) (w_pool w) SPEND_BDT r (default (rs_amount r) actual) tc fresh
            = (Ok o, pool)
    ∧ remaining pool SPEND_BDT = remaining (w_pool w) SPEND_BDT + (rs_amount r - default (rs_amount r) actual)
    ∧ (∀ k, k ≠ SPEND_BDT → remaining pool k = remaining (w_pool w) k)
    ∧ settle p a actual tc ts fresh w
      = match w_settlement w with
        | None => (Ok tt, mkWorld pool (w_emitter w) None (w_escalations w))
        | Some q => let '(x, q) := enqueue (pl_settlement_settings p) q o (Some ts) None in
                    (x, mkWorld pool (w_emitter w) (Some q) (w_escalations w))
        end.
Proof.
  intros Ha Hd Hpos Hact. unfold settle. rewrite Ha. set (n := default _ _) in *.
  assert (E0 : ∃ o pool, pool_commit (pl_pool_settings p) (w_pool w) SPEND_BDT r n tc fresh = (Ok o, pool)
    ∧ remaining pool SPEND_BDT = remaining (w_pool w) SPEND_BDT + (rs_amount r - n)
    ∧ ∀ k, k ≠ SPEND_BDT → remaining pool k = remaining (w_pool w) k).
  { unfold pool_commit. rewrite Hd. unfold commit. cbv zeta.
    rewrite (proj2 (Z.ltb_ge 0 (n - rs_amount r))) by lia.
    destruct (n - rs_amount r <? 0) eqn:El; [apply Z.ltb_lt in El|apply Z.ltb_ge in El];
      do 2 eexists; (split; [reflexivity|]); unfold remaining, put_held; cbn [p_held];
      (split; [rewrite lookup_insert_eq, Hd; cbn; lia|intros k Hk; by rewrite lookup_insert_ne]). }
  destruct E0 as (o & pool & Hc & Hrem & Hne). exists o, pool. do 3 (split; [done|]). rewrite Hc.
  by destruct (w_settlement w).
Qed.
End pipeline_properties.

(** ** A concrete pipeline

    One root key, one token; its intent is the argument, so that a chain whose recorded
    intent is not a hash can be tried too.  Cedar permits everything. *)
Definition chain_of (intent : pystr) : toy_biscuit :=
  let one p t := (u "d($x) <- " ++ u p ++ u "($x)", [[t]]) in
  mkToy (u "En0K") [u "scope(a)"]
    [one "mandate"%string (BStr (uuid_text 1)); one "task"%string (BStr (uuid_text 2));
     one "principal"%string (BStr (u "user:1")); one "intent"%string (BStr intent);
     one "max_depth"%string (BInt 3); one "not_before"%string (BDate 100);
     one "expires_at"%string (BDate 200);
     (u "d($s) <- scope($s)", [[BStr (u "payment:write")]]);
     (u "d($k, $v) <- budget($k, $v)", [[BStr (u "spend_bdt"); BInt 500000]])] None.

Definition one_chain_lib (intent : pystr) : BiscuitLib := {|
  Biscuit := toy_biscuit; PublicKey := Z; PrivateKey := Z;
  from_base64 token key :=
    if (key =? 7) && bool_decide (token = u "En0K") then Some (chain_of intent) else None;
  to_base64 := toy_text;
  block_count b := Z.of_nat (length (toy_blocks b));
  block_source b i := default [] (toy_blocks b !! Z.to_nat i);
  lib_revocation_ids b := toy_blocks b;
  lib_query _ _ b rule := Ok (toy_query b rule);
  lib_authorize _ _ b :=
    match toy_refuses b with Some d => Raise (AuthorizationError d) | None => Ok tt end;
  lib_append b text := Ok b;
  lib_build text key := Ok (mkToy (u "En0K") [text] [] None) |}.

#[local] Existing Instance identity_unicode.
#[local] Existing Instance position_order.
#[local] Existing Instance ascii_casing.
#[local] Existing Instance prefix_routing.
#[local] Existing Instance toy_cedar.
#[local] Existing Instance toy_revocation.
#[local] Existing Instance toy_drift.
#[local] Instance open_sink : EscalationSink (list escalation_open) :=
  {| sink_create s e := (Ok (eo_decision_id e), s ++ [e]) |}.

Definition hash_intent : pystr := replicate 64 97.
Definition demo_engine : CedarEngine :=
  mkCedarEngine (demo_bundle "permit" 4 0) ∅ false None (Some true).
Definition demo_pipeline {BL : BiscuitLib} (keys : list PublicKey) : Pipeline (RV := list pystr) (DR := unit) :=
  mkPipeline demo_table (mkRootKeySet keys) demo_engine
    (λ _, Ok (mkAgentPrincipal (u "agt-1") (u "worker") (u "user:1") 2%N [])) demo_settings
    (mkEmitterSettings 1 BP_DENY 10 1) (mkSettlementSettings 10 10 3 1) [] (u "pep-1") (u "none") 900000000
    (λ _, Ok []) None None false.
Definition demo_world (e : emitter DecisionRecord) : world (E := list escalation_open) :=
  mkWorld demo_pool e None [].
Definition demo_moments : moments :=
  mkMoments 9%N None 150000000 150000000 0 0 0 150000000 0 7%N 8%N true 12.
Definition pay (headers : list (pystr * pystr)) (body : string) : http_request :=
  mkHttp (u "POST") (u "/pay/1") [] ((u "Authorization", u "Bearer En0K") :: headers) (Some (demo_body body)).
Definition answer_of {BL : BiscuitLib} (keys : list PublicKey) (e : emitter DecisionRecord) (r : http_request) :=
  authorize (demo_pipeline keys) demo_moments r (demo_world e).
Definition full_buffer : emitter DecisionRecord := mkEmitter [] None true 0 0 0 0.

Definition good : BiscuitLib := one_chain_lib hash_intent.
Definition unhashed : BiscuitLib := one_chain_lib (u "ab").
#[local] Existing Instance good.
Definition held_token : VerifiedToken :=
  mkVerifiedToken (chain_of hash_intent) 1%N 2%N (u "user:1") hash_intent ∅ Budget_default ∅ 3 0 0 0 [] 4 false.

Lemma authorized_is_permitted_witness :
  ∃ a w' token ctx principal caveats,
    answer_of [7] new_emitter (pay [] "{'amount': 12.5}") = (Ok (inl a), w')
    ∧ permitted token ctx caveats ([] : list pystr) (bound demo_engine principal)
        (mkPoolOracle demo_settings demo_pool 0 true) (None : option unit)
    ∧ rs_amount <$> au_reservation a = Some 125000.
Proof.
  assert (E0 : ∃ a w', answer_of [7] new_emitter (pay [] "{'amount': 12.5}") = (Ok (inl a), w')
                       ∧ rs_amount <$> au_reservation a = Some 125000).
  { do 2 eexists. split; vm_compute; reflexivity. }
  destruct E0 as (a & w' & H & Ha).
  destruct (authorized_is_permitted _ _ _ _ _ _ H)
    as (token & ctx & principal & caveats & _ & _ & _ & _ & _ & _ & _ & _ & Hp & _).
  exists a, w', token, ctx, principal, caveats. split; [exact H|]. split; [exact Hp|exact Ha].
Defined.

(** The buffer is closed: the reservation taken for the request is given back. *)
Lemma refusal_holds_nothing_witness :
  ∃ f w', answer_of [7] full_buffer (pay [] "{'amount': 12.5}") = (Ok (inr f), w')
    ∧ rf_reason_code f = CONTROL_PLANE_UNAVAILABLE_FAIL_CLOSED ∧ rf_status f = 503
    ∧ remaining (w_pool w') SPEND_BDT = remaining demo_pool SPEND_BDT.
Proof.
  assert (E0 : ∃ f w', answer_of [7] full_buffer (pay [] "{'amount': 12.5}") = (Ok (inr f), w')
    ∧ rf_reason_code f = CONTROL_PLANE_UNAVAILABLE_FAIL_CLOSED ∧ rf_status f = 503).
  { do 2 eexists. split; [|split]; vm_compute; reflexivity. }
  destruct E0 as (f & w' & H & Hr & Hs). exists f, w'. do 3 (split; [assumption|]).
  destruct (refusal_holds_nothing _ _ _ _ _ _ H) as [Hrem _]. exact (Hrem SPEND_BDT).
Defined.

(** More than the lease holds: refused by the decision, on the record under its id. *)
Lemma refusals_recorded_witness :
  ∃ f w' d, answer_of [7] new_emitter (pay [] "{'amount': 52.5}") = (Ok (inr f), w')
    ∧ rf_decision_id f = Some 9%N ∧ decision_id d = 9%N ∧ outcome d ≠ ALLOW.
Proof.
  assert (E0 : ∃ f w', answer_of [7] new_emitter (pay [] "{'amount': 52.5}") = (Ok (inr f), w')
    ∧ rf_decision_id f = Some 9%N).
  { do 2 eexists. split; vm_compute; reflexivity. }
  destruct E0 as (f & w' & H & Hi). pose proof (refusals_recorded _ _ _ _ _ _ H) as Hd. rewrite Hi in Hd.
  destruct Hd as (d & _ & Hid & _ & Ho & _). exists f, w', d. do 3 (split; [assumption|]). exact Ho.
Defined.

Lemma settle_returns_unspent_witness :
  ∃ pool, remaining pool SPEND_BDT = remaining demo_pool SPEND_BDT + (125000 - 25000)
    ∧ settle (demo_pipeline [7])
        (mkAuthorized (mkExtraction [] [] [] [] OFF) held_token (Some (mkReservation 7%N 3%N 125000)) 9%N [])
        (Some 25000) 0 0 8%N (demo_world new_emitter)
      = (Ok tt, mkWorld pool new_emitter None []).
Proof.
  assert (E0 : ∃ h, p_held (w_pool (demo_world new_emitter)) !! SPEND_BDT = Some h).
  { eexists. vm_compute. reflexivity. }
  destruct E0 as (h & Hh).
  destruct (settle_returns_unspent (BL := good) (demo_pipeline (BL := good) [7])
    (mkAuthorized (mkExtraction [] [] [] [] OFF) held_token (Some (mkReservation 7%N 3%N 125000)) 9%N [])
    (Some 25000) 0 0 8%N (demo_world new_emitter) h (mkReservation 7%N 3%N 125000) eq_refl Hh ltac:(done)
    ltac:(done)) as (o & pool & _ & Hrem & _ & Hs).
  exists pool. split; [exact Hrem|exact Hs].
Defined.

(** ** What the pipeline does not refuse *)

(** Two headers of one name reach [extract] as one, the last: its own refusal of a
    repeated header is not reached. *)
Theorem repeated_header_collapsed :
  let headers := [(u "X-Note", u "a"); (u "X-Note", u "b")] in
  extract demo_table (u "POST") (u "/pay/1") [] headers (Some (demo_body "{'amount': 1}"))
    = Raise (ExtractionError MALFORMED_REQUEST)
  ∧ match (answer_of [7] new_emitter (pay headers "{'amount': 1}")).1 with
    | Ok (inl a) => arg_at (u "note") (ex_args (au_extraction a)) = Some (AText (u "b"))
    | _ => False
    end.
Proof. split; vm_compute; reflexivity. Qed.

(** A negative amount is an exception out of [authorize], not a refusal. *)
Theorem negative_amount_escapes :
  (answer_of [7] new_emitter (pay [] "{'amount': -1}")).1 = Raise ValidationError.
Proof. vm_compute. reflexivity. Qed.

(** When the record cannot be built after the reservation, as when the chain's recorded
    intent is not a hash, the exception leaves the amount reserved and nothing recorded. *)
Theorem reservation_outlives_exception :
  let a := answer_of (BL := unhashed) [7] new_emitter (pay [] "{'amount': 12.5}") in
  a.1 = Raise ValidationError ∧ remaining (w_pool a.2) SPEND_BDT = remaining demo_pool SPEND_BDT - 125000
  ∧ em_queue (w_emitter a.2) = [].
Proof. split_and!; vm_compute; reflexivity. Qed.
