(* ===== verification/Gateway.v ===== *)
(** * The gateway (agentiam_pep/app.py, agentiam_pep/headers.py)

    The reverse proxy around the pipeline: which headers cross the hop, when the body is
    read, and one proxied request from the client to the upstream and back.  The upstream
    and the HTTP client in front of it are the interface [Upstream]; the byte stream of a
    response is forwarded untouched and appears as the list of its chunks. *)
From S2P Require Import Prelude PyText Errors PyNum PyTime PyRe PyUuid PySha PyUrl PyJson Models Hashing Lease Settlement Emitter Pool Caveats Tokens Attenuation Decide Bundles CedarPolicy Extractor Pipeline.

(** ** headers.py *)
Definition HOP_BY_HOP : list pystr :=
  u <$> ["connection"; "keep-alive"; "proxy-authenticate"; "proxy-authorization"; "te"; "trailer";
         "transfer-encoding"; "upgrade"]%string.
Definition _SERVER_OWNED : list pystr := u <$> ["date"; "server"]%string.
Definition _FRAMING : list pystr := [u "content-length"].
Definition _REQUEST_ONLY : list pystr := [u "host"].

(** ** The upstream *)
Record upstream_request := mkUpstreamRequest {
  uq_method : pystr; uq_path : pystr; uq_query : pystr; uq_headers : list (pystr * pystr);
  uq_content : list Z }.

Record upstream_response := mkUpstreamResponse {
  ur_status : Z; ur_raw_headers : list (list Z * list Z); ur_chunks : list (list Z) }.

(** [await client.send(request, stream=True)]. *)
Inductive sent := Responded (r : upstream_response) | TimeoutException | HTTPError.

(** [client.build_request], which may refuse the target, and [client.send]. *)
Class Upstream (U : Type) := {
  build_request : U → upstream_request → py unit;
  client_send : U → upstream_request → sent * U }.

(** ** Answers *)
Inductive json_content := RefusedContent (b : refused_body) | ErrorContent (reason : ReasonCode) (detail : pystr).
Inductive response :=
| JSONResponse (content : json_content) (status : Z)
| StreamingResponse (status : Z) (raw_headers : list (pystr * pystr)) (chunks : list (list Z)).

Definition response_code (r : response) : Z :=
  match r with JSONResponse _ s => s | StreamingResponse s _ _ => s end.

Definition _gateway_error (status : Z) (detail : pystr) : response :=
  JSONResponse (ErrorContent UPSTREAM_ERROR detail) status.

Section gateway.
Context {UN : Unicode} {ST : SortTies} {CA : Casing} {RT : Routing} {BL : BiscuitLib}
  {CD : Cedar} {RV DR E U : Type} {RO : RevocationOracle RV} {DO : DriftOracle DR}
  {ES : EscalationSink E} {UP : Upstream U}.

Definition _without (headers : list (pystr * pystr)) (excluded : list pystr) : list (pystr * pystr) :=
  filter (λ h, py_lower h.1 ∉ excluded) headers.

Definition filter_request_headers (headers : list (pystr * pystr)) : list (pystr * pystr) :=
  _without headers (HOP_BY_HOP ++ _FRAMING ++ _REQUEST_ONLY).
Definition filter_response_headers (headers : list (pystr * pystr)) : list (pystr * pystr) :=
  _without headers (HOP_BY_HOP ++ _FRAMING ++ _SERVER_OWNED).

(** What the client sent: the path after the prefix, the headers as received. *)
Record client_request := mkClientRequest {
  cr_method : pystr; cr_upstream_path : pystr; cr_query : pystr;
  cr_headers : list (pystr * pystr); cr_body : list Z }.

(** [request.headers.get(name, default)]: the first of that name. *)
Definition headers_get (headers : list (pystr * pystr)) (name : pystr) : pystr :=
  default [] (snd <$> List.find (λ h, bool_decide (py_lower h.1 = name)) headers).

Definition _reads_body (r : client_request) : bool :=
  if bool_decide (cr_method r ∈ u <$> ["GET"; "HEAD"; "DELETE"; "OPTIONS"]%string) then false
  else contains (u "json") (py_lower (headers_get (cr_headers r) (u "content-type"))).

(** ** State: the pipeline's, the upstream, and [requests_total] by method and status *)
Record gateway := mkGateway {
  gw_world : world (E := E); gw_upstream : U; gw_requests : gmap (pystr * Z) Z }.
#[local] Notation G := (st gateway exn).

Definition on_world {A} (m : st (world (E := E)) exn A) : G A := λ g,
  let '(a, w) := m (gw_world g) in (a, mkGateway w (gw_upstream g) (gw_requests g)).

(** [await client.send(...)]: the request leaves, and until it is answered the loop runs other
    things; [during] is what they do to the gateway - other requests, top-ups, renewals,
    drains. *)
Definition send (during : gateway → gateway) (q : upstream_request) : G sent := λ g,
  let '(a, s) := client_send (gw_upstream g) q in
  (Ok a, during (mkGateway (gw_world g) s (gw_requests g))).
Definition count (method : pystr) (status : Z) : G unit := λ g,
  (Ok tt, mkGateway (gw_world g) (gw_upstream g)
            (<[(method, status) := default 0 (gw_requests g !! (method, status)) + 1]> (gw_requests g))).

(** [k.decode()] and [v.decode()]: a byte sequence that is not UTF-8 raises. *)
Definition decode_header (h : list Z * list Z) : py (pystr * pystr) :=
  match utf8_decode h.1, utf8_decode h.2 with
  | Some k, Some v => Ok (k, v)
  | _, _ => Raise ValueError
  end.

(** The clock readings and id of [settle]. *)
Record settle_moments := mkSettleMoments { sm_commit : Z; sm_settle : Z; sm_fresh : uuid }.

Definition upstream_path (r : client_request) : pystr := u "/" ++ cr_upstream_path r.

Definition http_of (r : client_request) : http_request :=
  mkHttp (cr_method r) (upstream_path r) (cr_query r) (cr_headers r)
    (if _reads_body r then Some (cr_body r) else None).

Definition upstream_of (r : client_request) : upstream_request :=
  mkUpstreamRequest (cr_method r) (upstream_path r) (cr_query r)
    (filter_request_headers (cr_headers r)) (cr_body r).

(** Step 9: the reserved amount is settled as it is. *)
Definition settle_step (authorized : option (Pipeline (RV := RV) (DR := DR) * Authorized)) (ts : settle_moments)
    : G unit :=
  match authorized with
  | Some (p, a) => on_world (settle p a None (sm_commit ts) (sm_settle ts) (sm_fresh ts))
  | None => mret tt
  end.

(** From the authorized request on; [None] is the transport without a pipeline. *)
Definition forward (authorized : option (Pipeline (RV := RV) (DR := DR) * Authorized)) (ts : settle_moments)
    (during : gateway → gateway) (r : client_request) : G response :=
  (λ g, (build_request (gw_upstream g) (upstream_of r), g));;
  answer ← send during (upstream_of r);
  match answer with
  | TimeoutException =>
      count (cr_method r) 504;; mret (_gateway_error 504 (u "the upstream did not respond in time"))
  | HTTPError =>
      count (cr_method r) 502;; mret (_gateway_error 502 (u "the upstream could not be reached"))
  | Responded resp =>
      count (cr_method r) (ur_status resp);;
      settle_step authorized ts;;
      headers ← lift (res_map decode_header (ur_raw_headers resp));
      mret (StreamingResponse (ur_status resp) (filter_response_headers headers) (ur_chunks resp))
  end.

(** The body is read before [authorize], whose one await opens an escalation for a request it
    then refuses: an authorized request goes from its checks to [client.send] without giving
    up the loop. *)
Definition proxy (pipeline : option (Pipeline (RV := RV) (DR := DR))) (t : moments) (ts : settle_moments)
    (during : gateway → gateway) (r : client_request) : G response :=
  match pipeline with
  | None => forward None ts during r
  | Some p =>
      outcome ← on_world (authorize p t (http_of r));
      match outcome with
      | inr f =>
          count (cr_method r) (rf_status f);;
          mret (JSONResponse (RefusedContent (body f)) (rf_status f))
      | inl a => forward (Some (p, a)) ts during r
      end
  end.

(** [/readyz] says whether it enforces. *)
Definition readyz (pipeline : option (Pipeline (RV := RV) (DR := DR))) : bool := bool_decide (is_Some pipeline).
End gateway.
