(* ===== verification/GatewaySpec.v ===== *)
(** * What the gateway guarantees

    The upstream is reached only by an authorized request, in the form the client sent it
    less the headers of its own hop; an answered one is settled in full.  What it does not
    guarantee is at the end: a delivery that fails keeps its reservation, and a body whose
    media type is not JSON is forwarded unread. *)
From S2P Require Import Prelude PyText Errors PyNum PyTime PyRe PyUuid PySha PyUrl PyJson Models Hashing HashingSpec Lease Settlement Emitter Pool Caveats Tokens Attenuation Decide Bundles BundlesSpec CedarPolicy PolicyCache PolicySpec Extractor ExtractorSpec Pipeline PipelineSpec Gateway.

Section gateway_spec.
Context {UN : Unicode} {ST : SortTies} {CA : Casing} {RT : Routing} {BL : BiscuitLib}
  {CD : Cedar} {RV DR E U : Type} {RO : RevocationOracle RV} {DO : DriftOracle DR}
  {ES : EscalationSink E} {UP : Upstream U}.
Implicit Types (p : Pipeline (RV := RV) (DR := DR)) (g : gateway (E := E) (U := U)) (w : world (E := E)).

(** ** Headers *)

(** Every name outside the list crosses, each of its occurrences in order; no name of the
    list does. *)
Lemma without_exact headers excluded h :
  h ∈ _without headers excluded ↔ py_lower h.1 ∉ excluded ∧ h ∈ headers.
Proof. unfold _without. by rewrite list_elem_of_filter. Qed.

Lemma without_keeps headers excluded name :
  py_lower name ∉ excluded →
  filter (λ h, py_lower h.1 = py_lower name) (_without headers excluded)
  = filter (λ h, py_lower h.1 = py_lower name) headers.
Proof.
  intros Hn. unfold _without. rewrite list_filter_filter. apply list_filter_iff. intros h.
  split; [by intros [??]|]. intros Hh. split; [done|]. by rewrite Hh.
Qed.

(** ** The monad's pieces *)
Lemma on_world_inv {A} (m : st (world (E := E)) exn A) g x g' :
  on_world (U := U) m g = (x, g') →
  ∃ w', m (gw_world g) = (x, w') ∧ g' = mkGateway w' (gw_upstream g) (gw_requests g).
Proof. unfold on_world. destruct (m (gw_world g)) as [y w']. intros [= -> <-]. eauto. Qed.

Definition counted g (method : pystr) (status : Z) : gmap (pystr * Z) Z :=
  <[(method, status) := default 0 (gw_requests g !! (method, status)) + 1]> (gw_requests g).

Lemma settle_step_inv (a : option (Pipeline (RV := RV) (DR := DR) * Authorized)) ts g x g' :
  settle_step a ts g = (x, g') → ∃ w', g' = mkGateway w' (gw_upstream g) (gw_requests g).
Proof.
  unfold settle_step. destruct a as [[p a]|]; [intros (w' & _ & ->)%on_world_inv; eauto|].
  intros [= _ <-]. exists (gw_world g). by destruct g.
Qed.

(** What the loop did while the upstream worked on [r]. *)
Definition answered (during : gateway (E := E) (U := U) → gateway (E := E) (U := U)) (r : client_request) g : gateway :=
  during (mkGateway (gw_world g) (client_send (gw_upstream g) (upstream_of r)).2 (gw_requests g)).

(** [forward] sends once, or not at all when the target cannot be built. *)
Lemma forward_upstream (a : option (Pipeline (RV := RV) (DR := DR) * Authorized)) ts during r g x g' :
  forward a ts during r g = (x, g') →
  gw_upstream g' = gw_upstream g ∨ gw_upstream g' = gw_upstream (answered during r g).
Proof.
  unfold forward, answered, mbind, st_bind. destruct (build_request _ _); [|by intros [= _ <-]; left].
  unfold send. destruct (client_send (gw_upstream g) (upstream_of r)) as [ans s]. cbn [snd].
  set (g0 := during _). intros H. right. destruct ans; cbv [count mret st_ret] in H; try (by injection H as _ <-).
  destruct (settle_step a ts _) as [y g1] eqn:Ew. apply settle_step_inv in Ew as (w' & ->).
  destruct y; [|by injection H as _ <-]. unfold lift in H. destruct (res_map _ _); by injection H as _ <-.
Qed.

(** C6: The upstream is reached only by a request the pipeline authorized: its arguments
    were extracted, its token verified, and every step of the decision permits it against
    the pool as it was; what is sent is the client's method, path, query and body, with
    the headers that may cross, and it is sent once: nothing else reaches the upstream but
    what other requests send while this one is answered. *)
Theorem only_authorized_reach_upstream p t ts during r g x g' :
  proxy (Some p) t ts during r g = (x, g') → gw_upstream g' ≠ gw_upstream g →
  ∃ a w' token ctx principal caveats text,
    authorize p t (http_of r) (gw_world g) = (Ok (inl a), w')
    ∧ bearer (header_map (cr_headers r)) = Some text
    ∧ verify text (pl_key_set p) (DT (at_verify t) true) = Ok token
    ∧ _context_for (au_extraction a) token (header_map (cr_headers r)) (at_context t) = Ok ctx
    ∧ pl_principal_for p token = Ok principal ∧ pl_caveats_for p token = Ok caveats
    ∧ permitted token ctx caveats (pl_revocation p) (bound (pl_policy p) principal)
        (mkPoolOracle (pl_pool_settings p) (w_pool (gw_world g)) (at_check t) (at_loop t)) (pl_drift_oracle p)
    ∧ gw_upstream g'
      = gw_upstream (during (mkGateway w' (client_send (gw_upstream g) (upstream_of r)).2 (gw_requests g))).
Proof.
  unfold proxy, mbind, st_bind. intros H Hne. destruct (on_world _ g) as [o g1] eqn:Ew.
  apply on_world_inv in Ew as (w' & Ha & ->). destruct o as [[a|f]|e].
  - pose proof (authorize_answered _ _ _ _ _ _ Ha) as Hans.
    inversion Hans as [| | | |a0 d w0 token ctx principal caveats ex v [Hex (text & Hb & Hv) Hctx Hpr Hcav Hver] Hal Heq
       _ _ _ _ _ _ _]; subst a0 w0.
    exists a, w', token, ctx, principal, caveats, text.
    pose proof (allowed_permitted _ _ _ _ _ _ _ _ Hver Hal) as Hperm.
    split; [done|]. split; [exact Hb|]. split; [exact Hv|]. split; [by rewrite Heq|].
    split; [done|]. split; [done|]. split; [done|].
    apply forward_upstream in H as [H|H]; [by destruct Hne|exact H].
  - cbv [count mret st_ret] in H. injection H as _ <-. by destruct Hne.
  - injection H as _ <-. by destruct Hne.
Qed.

(** A refusal is answered with its own status and body, the upstream untouched. *)
Theorem refusal_answered_here p t ts during r g f w' :
  authorize p t (http_of r) (gw_world g) = (Ok (inr f), w') →
  proxy (Some p) t ts during r g
  = (Ok (JSONResponse (RefusedContent (body f)) (rf_status f)),
     mkGateway w' (gw_upstream g) (counted g (cr_method r) (rf_status f)))
  ∧ bd_reason (body f) = rf_reason_code f ∧ _STATUS (rf_reason_code f) = Some (rf_status f).
Proof.
  intros Ha. split; [|split; [done|]].
  - unfold proxy, mbind, st_bind, on_world. by rewrite Ha.
  - apply authorize_answered in Ha. by inversion Ha; subst.
Qed.

(** Every answer the gateway gives is counted once, under its own status, beside what others
    counted while the upstream worked on it. *)
Theorem answers_counted (pl : option (Pipeline (RV := RV) (DR := DR))) t ts during r g resp g' :
  proxy pl t ts during r g = (Ok resp, g') →
  ∃ before, gw_requests g' = counted before (cr_method r) (response_code resp)
    ∧ (before = g ∨ ∃ w', before = answered during r (mkGateway w' (gw_upstream g) (gw_requests g))).
Proof.
  assert (Hf : ∀ (a : option (Pipeline (RV := RV) (DR := DR) * Authorized)) g0 resp g',
    forward a ts during r g0 = (Ok resp, g') →
    gw_requests g' = counted (answered during r g0) (cr_method r) (response_code resp)).
  { intros a g0 resp0 g0'. unfold forward, answered, mbind, st_bind, send.
    destruct (build_request _ _); [|done]. destruct (client_send _ _) as [ans s]. cbn [snd].
    set (g1 := during _). destruct ans; cbv [count mret st_ret]; cbn [gw_requests gw_upstream gw_world].
    - destruct (settle_step a ts _) as [y g2] eqn:Ew. apply settle_step_inv in Ew as (w' & ->).
      destruct y; [|done]. unfold lift. destruct (res_map _ _); [|done]. by intros [= <- <-].
    - by intros [= <- <-].
    - by intros [= <- <-]. }
  unfold proxy. destruct pl as [p|].
  2: { intros H%Hf. exists (answered during r g). split; [done|]. right. exists (gw_world g). by destruct g. }
  unfold mbind, st_bind. destruct (on_world _ g) as [o g1] eqn:Ew.
  apply on_world_inv in Ew as (w' & Ha & ->). destruct o as [[a|f]|e]; [|..|done].
  - intros H%Hf. eexists. split; [exact H|]. right. by exists w'.
  - cbv [count mret st_ret]. intros [= <- <-]. exists g. split; [done|by left].
Qed.

(** ** Settling *)
Lemma commit_in_full s pool d r now fresh :
  ∀ h, p_held pool !! d = Some h →
  ∃ pool', pool_commit s pool d r (rs_amount r) now fresh
      = (Ok (mkCommitOutcome (rs_id r) (ll_id (hd_lease h)) (rs_amount r) false), pool')
    ∧ ∀ k, remaining pool' k = remaining pool k.
Proof.
  intros h Hd. unfold pool_commit. rewrite Hd. unfold commit. cbv zeta. rewrite Z.sub_diag.
  change (0 <? 0) with false. cbv iota. eexists. split; [reflexivity|].
  intros k. unfold remaining, put_held. cbn [p_held]. destruct (decide (d = k)) as [<-|Hk].
  - by rewrite lookup_insert_eq, Hd.
  - by rewrite lookup_insert_ne.
Qed.

Lemma settle_in_full p a r ts h q w :
  au_reservation a = Some r → p_held (w_pool w) !! SPEND_BDT = Some h → w_settlement w = Some q →
  q_closed q = false → Z.of_nat (length (q_pending q)) < ss_capacity (pl_settlement_settings p) →
  ∃ pool',
    settle p a None (sm_commit ts) (sm_settle ts) (sm_fresh ts) w
    = (Ok tt, mkWorld pool' (w_emitter w)
                (Some (mkQueue (q_pending q ++ [mkPending (ll_id (hd_lease h)) (rs_id r) (rs_amount r) (sm_settle ts)])
                         (q_closed q) (q_applied q) (q_declined q) (q_dropped q) (q_failed_attempts q)))
                (w_escalations w))
    ∧ ∀ k, remaining pool' k = remaining (w_pool w) k.
Proof.
  intros Ha Hd Hq Hc Hlen. unfold settle. rewrite Ha. cbn [default option_rect from_option].
  destruct (commit_in_full (pl_pool_settings p) (w_pool w) SPEND_BDT r (sm_commit ts) (sm_fresh ts) h Hd)
    as (pool' & Hcm & Hrem).
  change (default (rs_amount r) None) with (rs_amount r). rewrite Hcm, Hq. unfold enqueue.
  rewrite Hc, (proj2 (Z.leb_gt _ _)) by done. eexists. split; [reflexivity|exact Hrem].
Qed.

(** C7: An answered request is settled in full, whatever the loop did while the upstream
    worked on it.  Let a request be authorized holding a reservation, its target be one the
    client can build, and the upstream answer with headers that decode.  The lease was down
    by exactly the reservation when the request left.  If, when the answer comes, a lease for
    spend is held and the settlement queue is there, open and with room, the client gets the
    status, the bytes and the headers that may cross, the request is counted under that
    status, and the reservation is owed to the ledger: it joins the queue at its full amount
    against the lease held then, and nothing of it goes back to that lease. *)
Theorem delivered_is_settled p t ts during r g a w' s h q resp headers :
  authorize p t (http_of r) (gw_world g) = (Ok (inl a), w') → au_reservation a = Some s →
  build_request (gw_upstream g) (upstream_of r) = Ok tt →
  (client_send (gw_upstream g) (upstream_of r)).1 = Responded resp →
  res_map decode_header (ur_raw_headers resp) = Ok headers →
  let g1 := during (mkGateway w' (client_send (gw_upstream g) (upstream_of r)).2 (gw_requests g)) in
  p_held (w_pool (gw_world g1)) !! SPEND_BDT = Some h →
  w_settlement (gw_world g1) = Some q → q_closed q = false →
  Z.of_nat (length (q_pending q)) < ss_capacity (pl_settlement_settings p) →
  remaining (w_pool w') SPEND_BDT = remaining (w_pool (gw_world g)) SPEND_BDT - rs_amount s
  ∧ ∃ g' q',
    proxy (Some p) t ts during r g
    = (Ok (StreamingResponse (ur_status resp) (filter_response_headers headers) (ur_chunks resp)), g')
    ∧ gw_requests g' = counted g1 (cr_method r) (ur_status resp)
    ∧ remaining (w_pool (gw_world g')) SPEND_BDT = remaining (w_pool (gw_world g1)) SPEND_BDT
    ∧ w_settlement (gw_world g') = Some q'
    ∧ q_pending q' = q_pending q ++ [mkPending (ll_id (hd_lease h)) (rs_id s) (rs_amount s) (sm_settle ts)].
Proof.
  intros Ha Hs Hb Hsend Hh g1 Hheld Hq Hc Hlen.
  pose proof (authorize_answered _ _ _ _ _ _ Ha) as Hans.
  inversion Hans as [| | | |a0 d w0 token ctx principal caveats ex v _ _ _ _ _ _ _ Hres _ _]; subst a0 w0.
  rewrite Hs in Hres. destruct Hres as (_ & _ & Hrem & _). split; [exact Hrem|].
  unfold proxy, mbind, st_bind, on_world at 1. rewrite Ha. unfold forward, mbind, st_bind, send.
  cbn [gw_upstream gw_world gw_requests]. rewrite Hb.
  destruct (client_send (gw_upstream g) (upstream_of r)) as [ans u'] eqn:Esend. cbn [fst snd] in *. subst ans.
  fold g1. cbv [count mret st_ret]. cbn [gw_upstream gw_world gw_requests]. unfold settle_step, on_world.
  cbn [gw_upstream gw_world gw_requests].
  destruct (settle_in_full p a s ts h q (gw_world g1) Hs Hheld Hq Hc Hlen) as (pool' & Hst & Hrem').
  rewrite Hst. unfold lift. rewrite Hh. do 2 eexists. split; [reflexivity|]. cbn [gw_world w_pool w_settlement].
  split; [done|]. split; [by rewrite Hrem'|]. split; reflexivity.
Qed.

(** When the upstream does not answer, in time or at all, the client gets 504 or 502 and
    the world stays as the others left it: what was reserved is neither given back nor
    settled. *)
Theorem failed_delivery_keeps_reservation p t ts during r g a w' :
  authorize p t (http_of r) (gw_world g) = (Ok (inl a), w') →
  build_request (gw_upstream g) (upstream_of r) = Ok tt →
  match (client_send (gw_upstream g) (upstream_of r)).1 with Responded _ => False | _ => True end →
  ∃ status detail g', proxy (Some p) t ts during r g = (Ok (_gateway_error status detail), g')
    ∧ (status = 504 ∨ status = 502)
    ∧ gw_world g'
      = gw_world (during (mkGateway w' (client_send (gw_upstream g) (upstream_of r)).2 (gw_requests g)))
    ∧ w_settlement w' = w_settlement (gw_world g)
    ∧ ∀ s, au_reservation a = Some s →
        remaining (w_pool w') SPEND_BDT = remaining (w_pool (gw_world g)) SPEND_BDT - rs_amount s
        ∧ 0 < rs_amount s.
Proof.
  intros Ha Hb Hsend. pose proof (authorize_answered _ _ _ _ _ _ Ha) as Hans.
  inversion Hans as [| | | |a0 d w0 token ctx principal caveats ex v _ _ _ _ _ _ _ Hres _ Hset]; subst a0 w0.
  unfold proxy, mbind, st_bind, on_world at 1. rewrite Ha. unfold forward, mbind, st_bind, send.
  cbn [gw_upstream gw_world gw_requests]. rewrite Hb.
  destruct (client_send (gw_upstream g) (upstream_of r)) as [ans u'] eqn:Esend. cbn [fst snd] in *.
  assert (Hm : ∀ s, au_reservation a = Some s →
    remaining (w_pool w') SPEND_BDT = remaining (w_pool (gw_world g)) SPEND_BDT - rs_amount s ∧ 0 < rs_amount s).
  { intros s Hs. rewrite Hs in Hres. by destruct Hres as (_ & ? & ? & _). }
  destruct ans; [done|..]; cbv [count mret st_ret]; do 3 eexists; (split; [reflexivity|]);
    cbn [gw_world]; (split; [by eauto|]); done.
Qed.
End gateway_spec.

(** ** A concrete gateway

    The pipeline of PipelineSpec in front of an upstream that logs what reaches it and
    gives one answer. *)
#[local] Existing Instance identity_unicode.
#[local] Existing Instance position_order.
#[local] Existing Instance ascii_casing.
#[local] Existing Instance prefix_routing.
#[local] Existing Instance toy_cedar.
#[local] Existing Instance toy_revocation.
#[local] Existing Instance toy_drift.
#[local] Existing Instance open_sink.
#[local] Existing Instance good.

Record logging_upstream := mkLogging { lu_log : list upstream_request; lu_answer : sent }.
#[local] Instance logging : Upstream logging_upstream :=
  {| build_request _ _ := Ok tt;
     client_send s q := (lu_answer s, mkLogging (lu_log s ++ [q]) (lu_answer s)) |}.

Definition demo_gateway (answer : sent) : gateway (E := list escalation_open) (U := logging_upstream) :=
  mkGateway (mkWorld demo_pool new_emitter (Some empty_queue) []) (mkLogging [] answer) ∅.
Definition demo_client (content_type body : string) : client_request :=
  mkClientRequest (u "POST") (u "pay/1") []
    [(u "authorization", u "Bearer En0K"); (u "content-type", u content_type); (u "host", u "pep")] (demo_body body).
Definition demo_ts : settle_moments := mkSettleMoments 0 5 8%N.
Definition answered_ok (raw_headers : list (list Z * list Z)) : sent := Responded (mkUpstreamResponse 200 raw_headers []).
Definition demo_proxy (answer : sent) (r : client_request) :=
  proxy (Some (demo_pipeline [7])) demo_moments demo_ts id r (demo_gateway answer).

Lemma demo_authorized answer :
  ∃ a w' s, authorize (demo_pipeline [7]) demo_moments (http_of (demo_client "application/json" "{'amount': 12.5}"))
              (gw_world (demo_gateway answer)) = (Ok (inl a), w')
            ∧ au_reservation a = Some s ∧ rs_amount s = 125000 ∧ rs_id s = 7%N.
Proof. do 3 eexists. split; [|split; [|split]]; vm_compute; reflexivity. Qed.

Lemma only_authorized_reach_upstream_witness :
  let x := demo_proxy TimeoutException (demo_client "application/json" "{'amount': 12.5}") in
  gw_upstream x.2 = (client_send (gw_upstream (demo_gateway TimeoutException))
                       (upstream_of (demo_client "application/json" "{'amount': 12.5}"))).2
  ∧ uq_headers <$> lu_log (gw_upstream x.2)
    = [[(u "authorization", u "Bearer En0K"); (u "content-type", u "application/json")]].
Proof.
  intros x. assert (E0 : ∃ y g', x = (y, g')) by (destruct x; eauto). destruct E0 as (y & g' & E0).
  assert (E1 : uq_headers <$> lu_log (gw_upstream x.2)
    = [[(u "authorization", u "Bearer En0K"); (u "content-type", u "application/json")]]) by (vm_compute; reflexivity).
  split; [|exact E1]. rewrite E0 in *. cbn [snd] in *.
  destruct (only_authorized_reach_upstream _ _ _ _ _ _ _ _ E0)
    as (a & w' & token & ctx & principal & caveats & text & _ & _ & _ & _ & _ & _ & _ & H).
  { intros Hu. rewrite Hu in E1. discriminate. }
  exact H.
Defined.

Lemma refusal_answered_here_witness :
  (demo_proxy TimeoutException (demo_client "application/json" "{'amount': 52.5}")).2.(gw_upstream)
  = mkLogging [] TimeoutException.
Proof.
  assert (E0 : ∃ f w', authorize (demo_pipeline [7]) demo_moments
      (http_of (demo_client "application/json" "{'amount': 52.5}")) (gw_world (demo_gateway TimeoutException))
    = (Ok (inr f), w')).
  { do 2 eexists. vm_compute. reflexivity. }
  destruct E0 as (f & w' & H). unfold demo_proxy.
  rewrite (proj1 (refusal_answered_here _ _ demo_ts id _ _ _ _ H)). reflexivity.
Defined.

Lemma answers_counted_witness :
  gw_requests (demo_proxy HTTPError (demo_client "application/json" "{'amount': 12.5}")).2 !! (u "POST", 502) = Some 1.
Proof.
  assert (E0 : ∃ g', demo_proxy HTTPError (demo_client "application/json" "{'amount': 12.5}")
    = (Ok (_gateway_error 502 (u "the upstream could not be reached")), g')).
  { eexists. vm_compute. reflexivity. }
  destruct E0 as (g' & H). destruct (answers_counted _ _ _ _ _ _ _ _ H) as (before & Hb & [-> | (w' & ->)]);
    rewrite H; cbn [snd]; rewrite Hb; reflexivity.
Defined.

(** While the upstream works, a top-up replaces the lease and another request is settled. *)
Definition demo_held : Held := mkHeld (mkLocalLease 9%N 300000 300000 90000000 ACTIVE) false false.
Definition demo_queue : queue := mkQueue [mkPending 3%N 6%N 1 0] false 0 0 0 0.
Definition demo_meanwhile (g : gateway (E := list escalation_open) (U := logging_upstream)) :=
  mkGateway (mkWorld (put_held (w_pool (gw_world g)) SPEND_BDT demo_held) (w_emitter (gw_world g))
               (Some demo_queue) (w_escalations (gw_world g)))
    (gw_upstream g) (gw_requests g).

Lemma delivered_is_settled_witness :
  ∃ g' q', proxy (Some (demo_pipeline [7])) demo_moments demo_ts demo_meanwhile
             (demo_client "application/json" "{'amount': 12.5}") (demo_gateway (answered_ok []))
      = (Ok (StreamingResponse 200 [] []), g')
    ∧ remaining (w_pool (gw_world g')) SPEND_BDT = 300000
    ∧ w_settlement (gw_world g') = Some q'
    ∧ q_pending q' = [mkPending 3%N 6%N 1 0; mkPending 9%N 7%N 125000 5].
Proof.
  destruct (demo_authorized (answered_ok [])) as (a & w' & s & Ha & Hs & Hn & Hi).
  destruct (delivered_is_settled (BL := good) (UP := logging) (demo_pipeline (BL := good) [7]) demo_moments demo_ts demo_meanwhile
    _ (demo_gateway (answered_ok [])) a w' s demo_held demo_queue (mkUpstreamResponse 200 [] []) [] Ha Hs eq_refl eq_refl eq_refl
    (lookup_insert_eq _ SPEND_BDT demo_held) eq_refl eq_refl ltac:(done))
    as (_ & g' & q' & H & _ & Hrem & Hq & Hp).
  rewrite Hn, Hi in Hp. exists g', q'.
  split; [exact H|]. split; [|split; [exact Hq|exact Hp]].
  rewrite Hrem. unfold remaining, demo_meanwhile, put_held. cbn [gw_world w_pool p_held].
  by rewrite lookup_insert_eq.
Defined.

Lemma failed_delivery_keeps_reservation_witness :
  ∃ g', demo_proxy TimeoutException (demo_client "application/json" "{'amount': 12.5}")
      = (Ok (_gateway_error 504 (u "the upstream did not respond in time")), g')
    ∧ remaining (w_pool (gw_world g')) SPEND_BDT = remaining demo_pool SPEND_BDT - 125000
    ∧ w_settlement (gw_world g') = Some empty_queue.
Proof.
  destruct (demo_authorized TimeoutException) as (a & w' & s & Ha & Hs & Hn & _).
  destruct (failed_delivery_keeps_reservation (BL := good) (UP := logging) (demo_pipeline (BL := good) [7]) demo_moments demo_ts id _
    (demo_gateway TimeoutException) a w' Ha eq_refl I) as (status & detail & g' & H & _ & Hw & Hq & Hrem).
  destruct (Hrem s Hs) as [Hr _]. rewrite Hn in Hr. unfold id in Hw. cbn [gw_world] in Hw.
  exists g'. rewrite Hw. split; [|split; [exact Hr|exact Hq]].
  assert (E0 : (demo_proxy TimeoutException (demo_client "application/json" "{'amount': 12.5}")).1
    = Ok (_gateway_error 504 (u "the upstream did not respond in time"))) by (vm_compute; reflexivity).
  unfold demo_proxy in E0 |- *. rewrite H in E0 |- *. cbn [fst] in E0. injection E0 as -> ->. reflexivity.
Defined.

(** ** What the gateway lets through *)

(** A body announced as anything but JSON, on a route whose amount is read from the body,
    is forwarded unread: the same payment is authorized without an amount, reserves
    nothing, and reaches the upstream whole.  Announced as JSON it exceeds the lease. *)
Theorem unread_body_is_unpriced :
  let pays := "{'amount': 999999}"%string in
  let plain := demo_proxy (answered_ok []) (demo_client "text/plain" pays) in
  (response_code <$> (demo_proxy (answered_ok []) (demo_client "application/json" pays)).1) = Ok 429
  ∧ (response_code <$> plain.1) = Ok 200
  ∧ remaining (w_pool (gw_world plain.2)) SPEND_BDT = remaining demo_pool SPEND_BDT
  ∧ uq_content <$> lu_log (gw_upstream plain.2) = [demo_body pays].
Proof. split; [|split; [|split]]; vm_compute; reflexivity. Qed.

(** A response header that is not UTF-8 raises after the request was delivered and
    settled: the client is told the call failed. *)
Theorem undecodable_header_raises :
  let x := demo_proxy (answered_ok [(u "x-name", [233])]) (demo_client "application/json" "{'amount': 12.5}") in
  x.1 = Raise ValueError ∧ length (lu_log (gw_upstream x.2)) = 1%nat
  ∧ remaining (w_pool (gw_world x.2)) SPEND_BDT = remaining demo_pool SPEND_BDT - 125000.
Proof. split; [|split]; vm_compute; reflexivity. Qed.
