(* ===== verification/Recognizer.v ===== *)
(** * Reading a token's Datalog back (agentiam_core/datalog.py)

    The recognizer of rendered block source: splitting into statements, the closed
    set of clause shapes, the identity facts, and the fold of a chain's caveats to
    its effective authority.  Everything it reads is untrusted text; what it cannot
    recognize it lists. *)
From S2P Require Import Prelude PyText Errors PyNum PyTime PyRe PyUuid Models Caveats Datalogic Tokens Attribution Attenuation.

Definition MAX_STATEMENTS_PER_BLOCK : nat := 512.
Definition MAX_STATEMENT_LENGTH : nat := 4096.

(** ** Patterns *)
Definition not_quote (c : Z) : bool := negb (c =? dquote).
Definition not_bracket (c : Z) : bool := negb (c =? 93).
Definition var_start (c : Z) : bool := rng 65 90 c || rng 97 122 c || (c =? 95).
Definition var_char (c : Z) : bool := var_start c || rng 48 57 c.
Definition any_char (_ : Z) : bool := true.

Definition quoted (name : string) : re :=
  (Lit [dquote] ⋅ Grp name (Star not_quote) ⋅ Lit [dquote])%re.
Definition _STR : re := quoted "text".
Definition _PATH : re := quoted "path".
Definition _DIM : re := quoted "dim".
Definition _VAR : re := (Lit (u "$") ⋅ Cls var_start ⋅ Star var_char)%re.
Definition _NUM : re := Grp "num" ((Lit (u "-") ∥ Eps) ⋅ Plus is_unicode_digit)%re.
Definition _DATE : re :=
  Grp "date" (Rep is_unicode_digit 4 ⋅ Lit (u "-") ⋅ Rep is_unicode_digit 2 ⋅ Lit (u "-")
              ⋅ Rep is_unicode_digit 2 ⋅ Lit (u "T") ⋅ Rep is_unicode_digit 2 ⋅ Lit (u ":")
              ⋅ Rep is_unicode_digit 2 ⋅ Lit (u ":") ⋅ Rep is_unicode_digit 2 ⋅ Lit (u "Z"))%re.
Definition _SET : re := (Lit (u "[") ⋅ Grp "members" (Star not_bracket) ⋅ Lit (u "]"))%re.
Definition _OP : re :=
  Grp "op" (Lit (u "<=") ∥ Lit (u "<") ∥ Lit (u ">=") ∥ Lit (u ">") ∥ Lit (u "==")
            ∥ Lit (u "!="))%re.

Definition _MEMBER_RE : re :=
  (Lit [dquote] ⋅ Grp "1" (Star not_quote) ⋅ Lit [dquote] ⋅ Eos)%re.

Definition _DENEGATED (op : pystr) : option ArgOperator :=
  if bool_decide (op = u ">") then Some LE else
  if bool_decide (op = u ">=") then Some LT else
  if bool_decide (op = u "<") then Some GE else
  if bool_decide (op = u "<=") then Some GT else
  if bool_decide (op = u "!=") then Some EQ else
  if bool_decide (op = u "==") then Some NE else None.

Inductive clause_name :=
| scope_subset | grant_scope | budget_ceiling | time_lower | time_upper | tool_allow
| tool_deny | arg_in | arg_not_in | arg_number | arg_string | depth_limit | intent_bound
| grant_intent.

Definition v_ : re := Grp "v" _VAR.
Definition contains_v : re := (_SET ⋅ Lit (u ".contains(") ⋅ Back "v" ⋅ Lit (u ")") ⋅ Eos)%re.

(** The dict's order is the order the shapes are tried in. *)
Definition _CLAUSE_RES : list (clause_name * re) :=
  [(scope_subset, (Lit (u "check if operation(") ⋅ v_ ⋅ Lit (u "), ") ⋅ contains_v)%re);
   (grant_scope, (Lit (u "check if operation(") ⋅ v_ ⋅ Lit (u "), scope(") ⋅ Back "v"
                  ⋅ Lit (u ")") ⋅ Eos)%re);
   (budget_ceiling, (Lit (u "check if requested(") ⋅ _DIM ⋅ Lit (u ", ") ⋅ v_ ⋅ Lit (u "), ")
                     ⋅ Back "v" ⋅ Lit (u " <= ") ⋅ _NUM ⋅ Eos)%re);
   (time_lower, (Lit (u "check if time(") ⋅ v_ ⋅ Lit (u "), ") ⋅ Back "v" ⋅ Lit (u " >= ")
                 ⋅ _DATE ⋅ Eos)%re);
   (time_upper, (Lit (u "check if time(") ⋅ v_ ⋅ Lit (u "), ") ⋅ Back "v" ⋅ Lit (u " < ")
                 ⋅ _DATE ⋅ Eos)%re);
   (tool_allow, (Lit (u "check if tool(") ⋅ v_ ⋅ Lit (u "), ") ⋅ contains_v)%re);
   (tool_deny, (Lit (u "reject if tool(") ⋅ v_ ⋅ Lit (u "), ") ⋅ contains_v)%re);
   (arg_in, (Lit (u "reject if arg(") ⋅ _PATH ⋅ Lit (u ", ") ⋅ v_ ⋅ Lit (u "), !")
             ⋅ contains_v)%re);
   (arg_not_in, (Lit (u "reject if arg(") ⋅ _PATH ⋅ Lit (u ", ") ⋅ v_ ⋅ Lit (u "), ")
                 ⋅ contains_v)%re);
   (arg_number, (Lit (u "reject if arg(") ⋅ _PATH ⋅ Lit (u ", ") ⋅ v_ ⋅ Lit (u "), ")
                 ⋅ Back "v" ⋅ Lit (u " ") ⋅ _OP ⋅ Lit (u " ") ⋅ _NUM ⋅ Eos)%re);
   (arg_string, (Lit (u "reject if arg(") ⋅ _PATH ⋅ Lit (u ", ") ⋅ v_ ⋅ Lit (u "), ")
                 ⋅ Back "v" ⋅ Lit (u " ") ⋅ _OP ⋅ Lit (u " ") ⋅ _STR ⋅ Eos)%re);
   (depth_limit, (Lit (u "check if current_depth(") ⋅ v_ ⋅ Lit (u "), ") ⋅ Back "v"
                  ⋅ Lit (u " <= ") ⋅ _NUM ⋅ Eos)%re);
   (intent_bound, (Lit (u "check if request_intent(") ⋅ v_ ⋅ Lit (u "), ") ⋅ Back "v"
                   ⋅ Lit (u " == ") ⋅ _STR ⋅ Eos)%re);
   (grant_intent, (Lit (u "check if request_intent(") ⋅ v_ ⋅ Lit (u "), intent(") ⋅ Back "v"
                   ⋅ Lit (u ")") ⋅ Eos)%re)].

Definition pred_start (c : Z) : bool := rng 97 122 c || (c =? 95).
Definition _FACT_RE : re :=
  (Grp "1" (Cls pred_start ⋅ Star az09_) ⋅ Lit (u "(") ⋅ Grp "2" (Star any_char)
   ⋅ Lit (u ")") ⋅ Eos)%re.

Definition _AUTHORITY_FACTS : list pystr :=
  [u "budget"; u "expires_at"; u "intent"; u "issued_at"; u "mandate"; u "max_depth";
   u "not_before"; u "principal"; u "scope"; u "task"].

Definition _IDENTITY_STRING_FACTS : list pystr := [u "agent"; u "role"].

(** ** Results *)
Record BlockIdentity := mkBlockIdentity {
  agent_id : option pystr; role : option pystr; declared_depth : option Z }.
Definition no_identity : BlockIdentity := mkBlockIdentity None None None.

Record ChainIdentity := mkChainIdentity { terminal : BlockIdentity; path : list pystr }.

Record ParsedBlock := mkParsedBlock {
  pb_index : Z;
  pb_identity : BlockIdentity;
  pb_caveats : list Caveat;
  pb_unrecognized : list pystr;
  pb_duplicate_facts : list pystr }.

Definition complete (b : ParsedBlock) : bool := bool_decide (pb_unrecognized b = []).

Record TokenAuthority := mkTokenAuthority {
  ta_bound : EffectiveAuthority; ta_complete : bool; ta_unrecognized : list pystr }.

(** ** Statements *)

(** [s.split(c)] for a one-character [c]: the first piece and the others. *)
Fixpoint split_on (c : Z) (s : pystr) : pystr * list pystr :=
  match s with
  | [] => ([], [])
  | a :: s =>
      let '(p, ps) := split_on c s in
      if a =? c then ([], p :: ps) else (a :: p, ps)
  end.

(** The pieces after the first [;] of a segment outside a literal: each one ends
    the statement before it.  [inl] is the return at the cap. *)
Fixpoint split_pieces (pieces : list pystr) (statements : list pystr) (current : pystr)
    : list pystr + list pystr * pystr :=
  match pieces with
  | [] => inr (statements, current)
  | piece :: pieces =>
      let statements := statements ++ [py_strip current] in
      if Nat.leb MAX_STATEMENTS_PER_BLOCK (length statements) then inl statements
      else split_pieces pieces statements piece
  end.

(** The segments between double quotes; every other one is inside a literal. *)
Fixpoint split_segments (inside : bool) (segment : pystr) (rest : list pystr)
    (statements : list pystr) (current : pystr) : list pystr :=
  if inside then
    let closing := match rest with [] => [] | _ => [dquote] end in
    let current := current ++ [dquote] ++ segment ++ closing in
    match rest with
    | [] => statements ++ [py_strip current]
    | s :: rest => split_segments false s rest statements current
    end
  else
    let '(head, pieces) := split_on 59 segment in
    match split_pieces pieces statements (current ++ head) with
    | inl statements => statements
    | inr (statements, current) =>
        match rest with
        | [] => statements ++ [py_strip current]
        | s :: rest => split_segments true s rest statements current
        end
    end.

(** [_statements]; the trailing piece, like every other, counts only if it is not
    blank. *)
Definition _statements (source : pystr) : list pystr :=
  let '(s, rest) := split_on dquote source in
  filter (λ s, s ≠ []) (split_segments false s rest [] []).

(** ** Terms *)
Definition _members (rendered : pystr) : option (gset pystr) :=
  let inner := py_strip rendered in
  if bool_decide (inner = []) then Some ∅ else
  let '(p, ps) := split_on 44 inner in
  members ← mapM (λ part, env ← re_match _MEMBER_RE (py_strip part); group env "1") (p :: ps);
  Some (list_to_set members).

(** [Decimal(rendered) / BUDGET_SCALE]. *)
Definition _unscale (rendered : pystr) : py decimal :=
  match parse_decimal rendered with
  | Some (DFin d) => dec_fix (Dec (dcoef d) (dexp d - 4))
  | _ => Raise InvalidOperation
  end.

Definition _parse_date (rendered : pystr) : option datetime :=
  t ← parse_date_text rendered; Some (DT (t * 1000000) true).

(** ** Clauses *)
Inductive clause_match := MCaveat (c : Caveat) | MRecognized | MRefused.

(** A caveat the recognizer constructs, through the model's validators. *)
Definition built (m : py Caveat) : py clause_match := c ← m; Ok (MCaveat c).

Definition _build (name : clause_name) (env : captures) : py clause_match :=
  let g n := default [] (group env n) in
  match name with
  | grant_scope | grant_intent => Ok MRecognized
  | scope_subset =>
      match _members (g "members"%string) with
      | None => Ok MRefused | Some X => built (mk_ScopeSubset X) end
  | budget_ceiling =>
      match dimension_of (g "dim"%string) with
      | None => Ok MRefused
      | Some d => v ← _unscale (g "num"%string); built (mk_BudgetCeiling d v)
      end
  | time_lower =>
      match _parse_date (g "date"%string) with
      | None => Ok MRefused | Some t => built (mk_TimeWindow (Some t) None) end
  | time_upper =>
      match _parse_date (g "date"%string) with
      | None => Ok MRefused | Some t => built (mk_TimeWindow None (Some t)) end
  | tool_allow =>
      match _members (g "members"%string) with
      | None => Ok MRefused | Some X => Ok (MCaveat (ToolAllow X)) end
  | tool_deny =>
      match _members (g "members"%string) with
      | None => Ok MRefused | Some X => Ok (MCaveat (ToolDeny X)) end
  | arg_in =>
      match _members (g "members"%string) with
      | None => Ok MRefused
      | Some X => built (mk_ArgPredicate (g "path"%string) IN (CSet X)) end
  | arg_not_in =>
      match _members (g "members"%string) with
      | None => Ok MRefused
      | Some X => built (mk_ArgPredicate (g "path"%string) NOT_IN (CSet X)) end
  | arg_number =>
      match _DENEGATED (g "op"%string) with
      | None => Raise KeyError
      | Some op => v ← _unscale (g "num"%string);
                   built (mk_ArgPredicate (g "path"%string) op (CNum v))
      end
  | arg_string =>
      match _DENEGATED (g "op"%string) with
      | None => Raise KeyError
      | Some op =>
          if negb (bool_decide (op = EQ) || bool_decide (op = NE)) then Ok MRefused
          else built (mk_ArgPredicate (g "path"%string) op (CStr (g "text"%string)))
      end
  | depth_limit =>
      match parse_int10 (g "num"%string) with
      | None => Raise ValueError
      | Some n => if n <? 0 then Ok MRefused else built (mk_DepthLimit n)
      end
  | intent_bound => built (mk_IntentBound (g "text"%string))
  end.

(** The first shape that matches. *)
Fixpoint try_shapes (shapes : list (clause_name * re)) (statement : pystr) : py clause_match :=
  match shapes with
  | [] => Ok MRefused
  | (name, pattern) :: shapes =>
      match re_match pattern statement with
      | Some env => _build name env
      | None => try_shapes shapes statement
      end
  end.
Definition _clause (statement : pystr) : py clause_match := try_shapes _CLAUSE_RES statement.

(** ** Identity *)
Definition _label (value : pystr) : option pystr :=
  match validate_label value with Ok v => Some v | Raise _ => None end.

(** [facts.setdefault(predicate, []).append(value)]. *)
Definition add_fact (p v : pystr) (facts : gmap pystr (list pystr)) : gmap pystr (list pystr) :=
  <[p := default [] (facts !! p) ++ [v]]> facts.

(** The value of a predicate that occurs exactly once, and the complaint. *)
Definition one (facts : gmap pystr (list pystr)) (p : pystr) : option pystr * list pystr :=
  match default [] (facts !! p) with
  | [v] => (Some v, [])
  | [] => (None, [])
  | _ => (None, [p])
  end.

Definition label_field (raw : option pystr) (p : pystr) : option pystr * list pystr :=
  match raw with
  | None => (None, [])
  | Some v => match _label v with Some l => (Some l, []) | None => (None, [p]) end
  end.

Definition _identity_from (facts : gmap pystr (list pystr)) : BlockIdentity * list pystr :=
  let '(agent_raw, a1) := one facts (u "agent") in
  let '(role_raw, a2) := one facts (u "role") in
  let '(depth_raw, a3) := one facts (u "declared_depth") in
  let '(agent, a4) := label_field agent_raw (u "agent") in
  let '(role, a5) := label_field role_raw (u "role") in
  let '(depth, a6) :=
    match depth_raw with
    | None => (None, [])
    | Some d => match parse_int10 d with
                | Some n => (Some n, []) | None => (None, [u "declared_depth"]) end
    end in
  (mkBlockIdentity agent role depth, a1 ++ a2 ++ a3 ++ a4 ++ a5 ++ a6).

(** ** Blocks *)
Record reading := mkReading {
  rd_caveats : list Caveat; rd_unrecognized : list pystr; rd_approval : gset pystr;
  rd_facts : gmap pystr (list pystr) }.

Definition unread (r : reading) (s : pystr) : reading :=
  mkReading (rd_caveats r) (rd_unrecognized r ++ [s]) (rd_approval r) (rd_facts r).

Definition is_clause (s : pystr) : bool :=
  starts_with (u "check if ") s || starts_with (u "reject if ") s.

Definition read_fact (r : reading) (statement : pystr) : reading :=
  match re_match _FACT_RE statement with
  | None => unread r statement
  | Some env =>
      let predicate := default [] (group env "1") in
      let terms := default [] (group env "2") in
      if bool_decide (predicate ∈ _AUTHORITY_FACTS) then r else
      if bool_decide (predicate ∈ _IDENTITY_STRING_FACTS)
         || bool_decide (predicate = u "requires_approval") then
        match env' ← re_match _MEMBER_RE (py_strip terms); group env' "1" with
        | None => unread r statement
        | Some m =>
            if bool_decide (predicate = u "requires_approval")
            then mkReading (rd_caveats r) (rd_unrecognized r) ({[m]} ∪ rd_approval r) (rd_facts r)
            else mkReading (rd_caveats r) (rd_unrecognized r) (rd_approval r)
                   (add_fact predicate m (rd_facts r))
        end
      else if bool_decide (predicate = u "declared_depth") then
        mkReading (rd_caveats r) (rd_unrecognized r) (rd_approval r)
          (add_fact predicate (py_strip terms) (rd_facts r))
      else unread r statement
  end.

Definition read_statement (r : reading) (statement : pystr) : py reading :=
  if Nat.ltb MAX_STATEMENT_LENGTH (length statement) then
    Ok (unread r (take MAX_STATEMENT_LENGTH statement))
  else if is_clause statement then
    m ← _clause statement;
    Ok (match m with
        | MRefused => unread r statement
        | MRecognized => r
        | MCaveat c => mkReading (rd_caveats r ++ [c]) (rd_unrecognized r) (rd_approval r)
                         (rd_facts r)
        end)
  else Ok (read_fact r statement).

Fixpoint read_all (r : reading) (l : list pystr) : py reading :=
  match l with [] => Ok r | s :: l => r ← read_statement r s; read_all r l end.

Definition parse_block_source (source : pystr) (index : Z) : py ParsedBlock :=
  r ← read_all (mkReading [] [] ∅ ∅) (_statements source);
  let caveats := rd_caveats r ++
    (if bool_decide (rd_approval r = ∅) then [] else [RequiresApproval (rd_approval r)]) in
  let '(identity, ambiguous) := _identity_from (rd_facts r) in
  Ok (mkParsedBlock index identity caveats (rd_unrecognized r) ambiguous).

(** ** Chains *)
Section chain.
Context `{BiscuitLib}.

Definition parse_token (token : VerifiedToken) : py (list ParsedBlock) :=
  let biscuit := vt_biscuit token in
  res_map (λ i, parse_block_source (block_source biscuit i) i) (seqZ 0 (block_count biscuit)).

Definition token_caveats (token : VerifiedToken) : py (list Caveat) :=
  blocks ← parse_token token; Ok (drop 1 blocks ≫= pb_caveats).

Definition path_segment (b : ParsedBlock) : pystr :=
  match agent_id (pb_identity b) with
  | Some ((_ :: _) as a) => a
  | _ => u "agt-depth-" ++ py_str_int (pb_index b)
  end.

Definition chain_identity (token : VerifiedToken) : py ChainIdentity :=
  blocks ← parse_token token;
  Ok (mkChainIdentity
        (if Nat.leb 2 (length blocks)
         then from_option pb_identity no_identity (last blocks) else no_identity)
        (path_segment <$> drop 1 blocks)).

Definition token_identity (token : VerifiedToken) : py BlockIdentity :=
  c ← chain_identity token; Ok (terminal c).

Definition effective_authority (token : VerifiedToken) : py TokenAuthority :=
  blocks ← parse_token token;
  grant ← grant_caveats token;
  let caveats := grant ++ (drop 1 blocks ≫= pb_caveats) in
  let unrecognized := blocks ≫= pb_unrecognized in
  Ok (mkTokenAuthority (effective_bound caveats) (bool_decide (unrecognized = [])) unrecognized).
End chain.
