(* ===== verification/Layout.v ===== *)
(** * Splitting block source, and the layout of what the compiler writes

    The quote-splitting statement splitter equals the character loop it replaced;
    the text [to_datalog] and [attenuate] emit is a layout of statements the
    splitter returns one by one. *)
From S2P Require Import Prelude PyText Errors PyNum PyTime PyRe PyUuid Models Caveats Datalogic Tokens Attribution Attenuation Recognizer.

(** ** Splitting, one character at a time *)

(** The loop the module's documentation says the splitter is equivalent to: every
    double quote toggles, and a [;] outside a literal ends a statement. *)
Fixpoint scan (inside : bool) (s : pystr) (statements : list pystr) (current : pystr)
    : list pystr :=
  match s with
  | [] => statements ++ [py_strip current]
  | c :: s =>
      if c =? dquote then scan (negb inside) s statements (current ++ [c])
      else if (c =? 59) && negb inside then
        let statements := statements ++ [py_strip current] in
        if Nat.leb MAX_STATEMENTS_PER_BLOCK (length statements) then statements
        else scan false s statements []
      else scan inside s statements (current ++ [c])
  end.

Lemma split_on_spec c s : let '(p, ps) := split_on c s in
  s = p ++ (ps ≫= λ x, c :: x) ∧ (c ∉ p) ∧ Forall (λ x, c ∉ x) ps.
Proof.
  induction s as [|a s IH]; simpl; [by split_and!; [|apply not_elem_of_nil|]|].
  destruct (split_on c s) as [p ps]. destruct IH as (-> & Hp & Hps).
  destruct (Z.eqb_spec a c) as [->|Hne]; simpl.
  - split_and!; [done|apply not_elem_of_nil|by constructor].
  - split_and!; [done| |done]. by apply not_elem_of_cons.
Qed.

Lemma scan_inside p t sts cur :
  dquote ∉ p → scan true (p ++ t) sts cur = scan true t sts (cur ++ p).
Proof.
  revert cur. induction p as [|c p IH]; intros cur Hp; [by rewrite app_nil_r|].
  apply not_elem_of_cons in Hp as [Hc Hp]. cbn [app scan].
  rewrite (proj2 (Z.eqb_neq _ _)) by done. rewrite andb_false_r, IH by done.
  by rewrite <- app_assoc.
Qed.

Lemma scan_plain p t sts cur :
  dquote ∉ p → 59 ∉ p → scan false (p ++ t) sts cur = scan false t sts (cur ++ p).
Proof.
  revert cur. induction p as [|c p IH]; intros cur Hp Hq; [by rewrite app_nil_r|].
  apply not_elem_of_cons in Hp as [Hc Hp]. apply not_elem_of_cons in Hq as [Hd Hq].
  cbn [app scan]. rewrite !(proj2 (Z.eqb_neq _ _)) by done. cbn [andb]. rewrite IH by done.
  by rewrite <- app_assoc.
Qed.

Lemma scan_pieces pieces t sts cur :
  Forall (λ x, 59 ∉ x) pieces → Forall (λ x, dquote ∉ x) pieces →
  scan false ((pieces ≫= λ x, 59 :: x) ++ t) sts cur
  = match split_pieces pieces sts cur with
    | inl sts => sts
    | inr (sts, cur) => scan false t sts cur
    end.
Proof.
  revert sts cur. induction pieces as [|x pieces IH]; intros sts cur Hs Hq; [done|].
  apply Forall_cons in Hs as [Hx Hs]. apply Forall_cons in Hq as [Hy Hq].
  cbn [mbind list_bind split_pieces]. rewrite <- app_assoc. cbn [app scan].
  change (59 =? dquote) with false. cbn [andb negb].
  destruct (Nat.leb _ _); [done|].
  rewrite scan_plain by done. rewrite app_nil_l. by apply IH.
Qed.

Lemma elem_of_pieces c d (ps : list pystr) : c ≠ d → c ∉ (ps ≫= λ x, d :: x) → Forall (λ x, c ∉ x) ps.
Proof.
  intros Hne. induction ps as [|x ps IH]; intros Hc; [done|]. cbn [mbind list_bind] in Hc.
  rewrite elem_of_app, elem_of_cons in Hc. constructor; tauto.
Qed.

Lemma scan_segments ps p inside sts cur :
  dquote ∉ p → Forall (λ x, dquote ∉ x) ps →
  scan inside (p ++ (ps ≫= λ x, dquote :: x)) sts (if inside then cur ++ [dquote] else cur)
  = split_segments inside p ps sts cur.
Proof.
  revert p inside sts cur. induction ps as [|q ps IH]; intros p inside sts cur Hp Hps.
  - cbn [mbind list_bind]. destruct inside; cbn [split_segments].
    + rewrite scan_inside by done. simpl. by rewrite app_nil_r, <- app_assoc.
    + pose proof (split_on_spec 59 p) as Hs. destruct (split_on 59 p) as [head pieces].
      destruct Hs as (-> & Hh & Hpc). rewrite not_elem_of_app in Hp. destruct Hp as [Hp1 Hp2].
      rewrite <- app_assoc, scan_plain by done. rewrite scan_pieces; [|done|].
      2: { by apply (elem_of_pieces dquote 59). }
      by destruct (split_pieces _ _ _) as [?|[? ?]].
  - apply Forall_cons in Hps as [Hq Hps]. cbn [mbind list_bind]. destruct inside.
    + rewrite scan_inside by done. cbn [app scan]. rewrite Z.eqb_refl. cbn [negb].
      cbn [split_segments]. rewrite <- (IH q false) by done. by rewrite <- !app_assoc.
    + cbn [split_segments].
      pose proof (split_on_spec 59 p) as Hs. destruct (split_on 59 p) as [head pieces].
      destruct Hs as (-> & Hh & Hpc). rewrite not_elem_of_app in Hp. destruct Hp as [Hp1 Hp2].
      rewrite <- app_assoc, scan_plain by done. rewrite scan_pieces; [|done|].
      2: { by apply (elem_of_pieces dquote 59). }
      destruct (split_pieces _ _ _) as [?|[sts' cur']]; [done|].
      cbn [app scan]. rewrite Z.eqb_refl. cbn [negb]. by rewrite <- (IH q true).
Qed.

Lemma statements_scan source :
  _statements source = filter (λ s, s ≠ []) (scan false source [] []).
Proof.
  unfold _statements. pose proof (split_on_spec dquote source) as Hs.
  destruct (split_on dquote source) as [p ps]. destruct Hs as (-> & Hp & Hps).
  by rewrite <- (scan_segments ps p false).
Qed.

(** Splitting on double quotes is the character loop: the same statements, up to
    the same cap, for every source text. *)
Theorem statements_by_char source :
  _statements source = filter (λ s, s ≠ []) (scan false source [] []).
Proof. apply statements_scan. Qed.

(** ** Layouts

    A block's text as statements, each closed by [;], with any white space between
    them: what the compiler writes and what any renderer of it prints. *)
Fixpoint quiet (inside : bool) (s : pystr) : option bool :=
  match s with
  | [] => Some inside
  | c :: s =>
      if c =? dquote then quiet (negb inside) s
      else if (c =? 59) && negb inside then None else quiet inside s
  end.

Definition trimmed (s : pystr) : Prop :=
  s ≠ [] ∧ (∀ c, head s = Some c → is_space c = false)
  ∧ (∀ c, last s = Some c → is_space c = false).

Definition statement (s : pystr) : Prop := quiet false s = Some false ∧ trimmed s.

Inductive layout : pystr → list pystr → Prop :=
| layout_nil ws : forallb is_space ws = true → layout ws []
| layout_cons ws s t l :
    forallb is_space ws = true → statement s → layout t l →
    layout (ws ++ s ++ u ";" ++ t) (s :: l).

Lemma quiet_app b s t : quiet b (s ++ t) = (b' ← quiet b s; quiet b' t).
Proof.
  revert b. induction s as [|c s IH]; intros b; [done|]. cbn [app quiet].
  destruct (c =? dquote); [apply IH|]. destruct ((c =? 59) && negb b); [done|]. apply IH.
Qed.

Lemma scan_quiet b s b' t sts cur :
  quiet b s = Some b' → scan b (s ++ t) sts cur = scan b' t sts (cur ++ s).
Proof.
  revert b cur. induction s as [|c s IH]; intros b cur; cbn [app quiet scan].
  - intros [= ->]. by rewrite app_nil_r.
  - intros Hq. destruct (c =? dquote).
    + rewrite (IH _ _ Hq). by rewrite <- app_assoc.
    + destruct ((c =? 59) && negb b); [done|]. rewrite (IH _ _ Hq). by rewrite <- app_assoc.
Qed.

Lemma space_quiet ws : forallb is_space ws = true → quiet false ws = Some false.
Proof.
  induction ws as [|c ws IH]; [done|]. cbn [forallb quiet]. intros [Hc Hws]%andb_true_iff.
  destruct (Z.eqb_spec c dquote) as [->|]; [done|].
  destruct (Z.eqb_spec c 59) as [->|]; [done|]. by apply IH.
Qed.

Lemma py_strip_trimmed ws s : forallb is_space ws = true → trimmed s → py_strip (ws ++ s) = s.
Proof.
  intros Hws (Hne & Hh & Hl). unfold py_strip. rewrite drop_while_app by done.
  rewrite (drop_while_head _ s) by (destruct s; [done|by apply Hh]).
  rewrite drop_while_head; [apply reverse_involutive|].
  rewrite <- head_reverse in Hl. destruct (reverse s) as [|c r]; [done|]. by apply Hl.
Qed.

Lemma py_strip_id s : trimmed s → py_strip s = s.
Proof. by apply (py_strip_trimmed []). Qed.

Lemma layout_scan src l sts :
  layout src l → (length sts + length l <= MAX_STATEMENTS_PER_BLOCK)%nat →
  filter (λ s, s ≠ []) (scan false src sts []) = filter (λ s, s ≠ []) sts ++ l.
Proof.
  intros Hl. revert sts. induction Hl as [ws Hws|ws s t l Hws [Hq Ht] Hl IH]; intros sts Hlen.
  - rewrite <- (app_nil_r ws), (scan_quiet false ws false) by by apply space_quiet.
    cbn [scan]. rewrite app_nil_l, filter_app.
    assert (py_strip ws = []) as ->; [|f_equal; by rewrite filter_cons_False by (by intros [])].
    unfold py_strip. rewrite <- (app_nil_r ws), drop_while_app by done. done.
  - rewrite (scan_quiet false ws false) by by apply space_quiet.
    rewrite (scan_quiet false s false) by done. rewrite app_nil_l.
    change (u ";" ++ t) with (59 :: t). cbn [scan].
    change (59 =? dquote) with false. change ((59 =? 59) && negb false) with true. cbv iota.
    rewrite py_strip_trimmed by done. destruct Ht as (Hne & _).
    assert (filter (λ s, s ≠ []) (sts ++ [s]) = filter (λ s, s ≠ []) sts ++ [s]) as Hf.
    { rewrite filter_app. f_equal. by rewrite filter_cons_True. }
    cbn [length] in Hlen. destruct (Nat.leb_spec MAX_STATEMENTS_PER_BLOCK (length (sts ++ [s]))) as [Hm|Hm].
    + rewrite length_app in Hm. cbn [length] in Hm. destruct l; [|cbn [length] in Hlen; lia].
      exact Hf.
    + rewrite IH by (rewrite length_app; cbn [length]; lia). rewrite Hf, <- app_assoc. done.
Qed.

Lemma layout_statements src l :
  layout src l → (length l <= MAX_STATEMENTS_PER_BLOCK)%nat → _statements src = l.
Proof. intros Hl Hlen. rewrite statements_scan. by rewrite (layout_scan _ l). Qed.

Lemma layout_space ws t l : forallb is_space ws = true → layout t l → layout (ws ++ t) l.
Proof.
  intros Hws Hl. destruct Hl as [ws' Hws'|ws' s t l Hws' Hs Hl].
  - constructor. by rewrite forallb_app, Hws, Hws'.
  - rewrite app_assoc. constructor; [by rewrite forallb_app, Hws, Hws'|done|done].
Qed.

Lemma layout_app s t l k : layout s l → layout t k → layout (s ++ t) (l ++ k).
Proof.
  intros Hs Ht. induction Hs as [ws Hws|ws s t' l Hws Hst Hl IH].
  - by apply layout_space.
  - rewrite <- !app_assoc. by constructor.
Qed.

Lemma layout_one s : statement s → layout (s ++ u ";") [s].
Proof.
  intros Hs. rewrite <- (app_nil_l (s ++ u ";")), <- (app_nil_r (u ";")).
  constructor; [done|done|by constructor].
Qed.

Lemma layout_empty l : layout [] l → l = [].
Proof.
  inversion 1 as [|ws s t k ? ? ? E]; subst; [done|]. by destruct ws, s.
Qed.

Lemma layout_join ts ls : Forall2 layout ts ls → layout (py_join [newline] ts) (concat ls).
Proof.
  induction 1 as [|t l ts ls Ht Hts IH]; [by constructor|]. destruct Hts as [|t' l' ts ls].
  - simpl. by rewrite app_nil_r.
  - change (py_join [newline] (t :: t' :: ts)) with (t ++ [newline] ++ py_join [newline] (t' :: ts)).
    apply layout_app; [done|]. by apply layout_space.
Qed.

Lemma layout_filter ts ls :
  Forall2 layout ts ls → layout (py_join [newline] (filter (λ t, t ≠ []) ts)) (concat ls).
Proof.
  intros H. assert (∃ ls', Forall2 layout (filter (λ t, t ≠ []) ts) ls' ∧ concat ls' = concat ls)
    as (ls' & Hls & <-); [|by apply layout_join].
  induction H as [|t l ts ls Ht Hts (ls' & Hls & E)]; [by exists []|].
  destruct t as [|c t].
  - apply layout_empty in Ht as ->. exists ls'. by rewrite filter_cons_False by (by intros []).
  - exists (l :: ls'). rewrite filter_cons_True by done. split; [by constructor|]. simpl. by f_equal.
Qed.

(** ** What the compiler writes is laid out *)

(** Text the renderer reproduces as it is: nothing to escape. *)
Definition clean (s : pystr) : bool :=
  forallb (λ c, negb (c =? dquote) && negb (c =? backslash)) s.
(** A member of a set literal can also hold no comma and no closing bracket. *)
Definition clean_member (s : pystr) : bool :=
  clean s && forallb (λ c, negb (c =? 44) && negb (c =? 93)) s.

Definition date_ok (t : Z) : bool :=
  let '(y, _, _) := ord2ymd (t / 1000000 / secs_per_day + 1) in (1000 <=? y) && (y <=? 9999).
Definition bound_ok (t : option Z) : bool := match t with Some t => date_ok t | None => true end.

Definition units_ok (d : decimal) : bool :=
  (Z.abs (dcoef d) <? 10 ^ 24) && (-24 <=? dexp d) && (dexp d <=? 24)
  && match dec_units d with Some n => Z.abs n <? 10 ^ 24 | None => false end.

(** The caveats whose text has one reading. *)
Definition readable (c : Caveat) : bool :=
  Caveat_valid c &&
  match c with
  | ScopeSubset X | ToolAllow X | ToolDeny X => forallb clean_member (elements X)
  | RequiresApproval X => forallb clean (elements X)
  | TimeWindow nb na => bound_ok nb && bound_ok na
  | ArgPredicate p op v =>
      clean p &&
      match v with
      | CNum d => units_ok d
      | CStr s => clean s && (bool_decide (op = EQ) || bool_decide (op = NE))
      | CSet X => forallb clean_member (elements X)
      end
  | _ => true
  end.

Lemma quote_clean s : clean s = true → quote_string s = [dquote] ++ s ++ [dquote].
Proof.
  intros Hs. unfold quote_string. do 2 f_equal.
  assert (∀ c r, (∀ x, x ∈ s → x ≠ c) → replace_char c r s = s) as Hr.
  { clear Hs. intros c r. unfold replace_char. induction s as [|x s IH]; intros Hx; [done|].
    cbn [mbind list_bind]. rewrite (proj2 (Z.eqb_neq _ _)) by (apply Hx; left).
    cbn [app]. f_equal. apply IH. intros; apply Hx; by right. }
  unfold clean in Hs. rewrite forallb_forall in Hs.
  assert (∀ x, x ∈ s → x ≠ dquote ∧ x ≠ backslash) as Hx.
  { intros x Hx%list_elem_of_In. specialize (Hs _ Hx). by zify_bool. }
  rewrite !Hr; [done|..]; intros; by apply Hx.
Qed.

Definition Q (s : pystr) : Prop := quiet false s = Some false.

Lemma Q_app s t : Q s → Q t → Q (s ++ t).
Proof. unfold Q. rewrite quiet_app. by intros ->. Qed.

Lemma quiet_inside s : forallb not_quote s = true → quiet true s = Some true.
Proof.
  induction s as [|c s IH]; [done|]. cbn [forallb quiet]. unfold not_quote at 1.
  intros [Hc Hs]%andb_true_iff. apply negb_true_iff in Hc as ->. rewrite andb_false_r. by apply IH.
Qed.

Lemma clean_not_quote s : clean s = true → forallb not_quote s = true.
Proof.
  unfold clean. rewrite !forallb_forall. intros H x Hx. specialize (H x Hx).
  by apply andb_true_iff in H as [? _].
Qed.

Lemma Q_quote s : clean s = true → Q (quote_string s).
Proof.
  intros Hs. rewrite quote_clean by done. unfold Q. change ([dquote] ++ s ++ [dquote])
    with (dquote :: (s ++ [dquote])). cbn [quiet]. rewrite Z.eqb_refl. cbn [negb].
  rewrite quiet_app, quiet_inside by by apply clean_not_quote. done.
Qed.

Lemma Q_join l : Forall Q l → Q (py_join (u ", ") l).
Proof.
  induction 1 as [|x l Hx Hl IH]; [done|]. destruct l as [|y l]; [done|].
  change (Q (x ++ u ", " ++ py_join (u ", ") (y :: l))). apply Q_app; [done|]. by apply Q_app.
Qed.

Lemma clean_members (X : gset pystr) s :
  forallb clean_member (elements X) = true → s ∈ py_sorted (elements X) →
  clean s = true ∧ forallb (λ c, negb (c =? 44) && negb (c =? 93)) s = true.
Proof.
  intros HX Hs. rewrite elem_of_py_sorted in Hs. rewrite forallb_forall in HX.
  apply list_elem_of_In in Hs. specialize (HX _ Hs). by apply andb_true_iff in HX.
Qed.

Lemma Q_set X : forallb clean_member (elements X) = true → Q (_set_literal X).
Proof.
  intros HX. unfold _set_literal. apply Q_app; [done|]. apply Q_app; [|done]. apply Q_join.
  apply Forall_fmap, Forall_forall. intros s Hs. apply Q_quote.
  by destruct (clean_members X s HX Hs).
Qed.

Definition int_char (c : Z) : bool := is_digit c || (c =? 45).

Lemma int_chars n : forallb int_char (py_str_int n) = true ∧ py_str_int n ≠ [].
Proof.
  assert (∀ s, forallb is_digit s = true → forallb int_char s = true) as Hd.
  { intros s. rewrite !forallb_forall. intros H x Hx. unfold int_char. by rewrite H. }
  destruct (decide (0 <= n)) as [Hn|Hn].
  - destruct (py_str_int_digits n Hn). split; [by apply Hd|done].
  - unfold py_str_int. destruct n as [|p|p]; [done|lia|]. simpl. split; [|done].
    apply Hd, uint_chars_digits.
Qed.

Lemma Q_chars (p : Z → bool) s :
  p dquote = false → p 59 = false → forallb p s = true → Q s.
Proof.
  intros H1 H2. unfold Q. induction s as [|c s IH]; [done|]. cbn [forallb quiet].
  intros [Hc Hs]%andb_true_iff.
  destruct (Z.eqb_spec c dquote) as [->|]; [congruence|].
  destruct (Z.eqb_spec c 59) as [->|]; [congruence|]. by apply IH.
Qed.

Lemma Q_int n : Q (py_str_int n).
Proof. apply (Q_chars int_char); [done|done|]. apply int_chars. Qed.

(** *** Dates *)
Definition date_shape (a b c d e f g h i j k l m n : Z) : pystr :=
  [a; b; c; d; 45; e; f; 45; g; h; 84; i; j; 58; k; l; 58; m; n; 90].

Lemma two_digit n : 0 <= n < 100 → is_digit (48 + n / 10) = true ∧ is_digit (48 + n mod 10) = true.
Proof.
  intros Hn. unfold is_digit. pose proof (Z.mod_pos_bound n 10 ltac:(lia)).
  assert (0 <= n / 10 < 10) by (split; [apply Z.div_pos; lia|apply Z.div_lt_upper_bound; lia]).
  split; apply andb_true_iff; split; apply Z.leb_le; lia.
Qed.

Lemma date_text_shape t :
  date_ok t = true →
  ∃ a b c d e f g h i j k l m n,
    datalog_date t = date_shape a b c d e f g h i j k l m n
    ∧ forallb is_digit [a; b; c; d; e; f; g; h; i; j; k; l; m; n] = true.
Proof.
  unfold date_ok, datalog_date, date_text. set (s := t / 1000000).
  pose proof (ord2ymd_spec (s / secs_per_day)) as Hspec.
  destruct (ord2ymd _) as [[y m] d]. destruct Hspec as (_ & Hm & Hd & _). intros Hy.
  zify_bool. pose proof (days_in_month_le y m).
  assert (0 <= s mod secs_per_day < 86400) as Hs by (apply Z.mod_pos_bound; done).
  assert (0 <= s mod secs_per_day / 3600 < 100).
  { split; [apply Z.div_pos; lia|apply Z.div_lt_upper_bound; lia]. }
  pose proof (Z.mod_pos_bound (s mod secs_per_day / 60) 60 ltac:(lia)).
  pose proof (Z.mod_pos_bound (s mod secs_per_day) 60 ltac:(lia)).
  pose proof (Z.mod_pos_bound y 100 ltac:(lia)).
  assert (0 <= y / 100 < 100).
  { split; [apply Z.div_pos; lia|apply Z.div_lt_upper_bound; lia]. }
  do 14 eexists. split; [reflexivity|]. cbn [forallb].
  rewrite !andb_true_iff. split_and!; try done; apply two_digit; lia.
Qed.

Lemma Q_date t : date_ok t = true → Q (datalog_date t).
Proof.
  intros Ht. destruct (date_text_shape t Ht) as (a&b&c&d&e&f&g&h&i&j&k&l&m&n&->&H).
  cbn [forallb] in H. zify_bool.
  apply (Q_chars (λ c, int_char c || (c =? 84) || (c =? 58) || (c =? 90))); [done|done|].
  unfold date_shape. cbn [forallb]. unfold int_char.
  repeat match goal with H : is_digit _ = true |- _ => rewrite H; clear H end. done.
Qed.

(** *** Clauses *)
Definition tight (s : pystr) : Prop := ∃ a c, s = a ++ [c] ∧ is_space c = false.

Lemma tight_app s t : tight t → tight (s ++ t).
Proof. intros (a & c & -> & Hc). exists (s ++ a), c. by rewrite app_assoc. Qed.

Lemma tight_trimmed c s : is_space c = false → tight (c :: s) → trimmed (c :: s).
Proof.
  intros Hc (a & d & E & Hd). split_and!; [done|by intros ? [= <-]|].
  intros x. rewrite E, last_snoc. by intros [= <-].
Qed.

Lemma int_tight n : tight (py_str_int n).
Proof.
  destruct (int_chars n) as [Hc Hne]. destruct (exists_last Hne) as (a & c & E).
  exists a, c. split; [done|]. rewrite E, forallb_app in Hc.
  apply andb_true_iff in Hc as [_ Hc]. cbn [forallb] in Hc. rewrite andb_true_r in Hc.
  apply orb_true_iff in Hc as [Hc|Hc%Z.eqb_eq]; [by apply digit_not_space|by subst].
Qed.

Lemma quote_tight s : tight (quote_string s).
Proof. unfold quote_string. do 2 apply tight_app. by exists [], dquote. Qed.

(** What a clause of the compiler holds. *)
Definition clause_clean (cl : clause) : Prop :=
  Q (u (cl_pred cl)) ∧ Q (u (cl_var cl))
  ∧ match cl_key cl with Some k => clean k = true | None => True end
  ∧ match cl_guard cl with
    | GContains _ X => forallb clean_member (elements X) = true
    | GCompare _ t => Q (render_term t) ∧ tight (render_term t)
    end.

Lemma check_text_statement cl : clause_clean cl → statement (check_text cl).
Proof.
  intros (Hp & Hv & Hk & Hg). split.
  - change (Q (check_text cl)). unfold check_text.
    apply Q_app; [by destruct (cl_reject cl)|]. apply Q_app; [done|]. apply Q_app; [done|].
    apply Q_app.
    { destruct (cl_key cl); [|done]. apply Q_app; [by apply Q_quote|done]. }
    do 2 (apply Q_app; [done|]). apply Q_app; [done|].
    destruct (cl_guard cl) as [neg X|op t].
    + apply Q_app; [by destruct neg|]. apply Q_app; [by apply Q_set|].
      do 2 (apply Q_app; [done|]). done.
    + do 3 (apply Q_app; [done|]). apply Q_app; [by destruct op|]. apply Q_app; [done|]. apply Hg.
  - assert (tight (check_text cl)) as Ht.
    { unfold check_text. do 7 apply tight_app. destruct (cl_guard cl) as [neg X|op t].
      - do 4 apply tight_app. by exists [], 41.
      - do 5 apply tight_app. apply Hg. }
    unfold check_text in *. destruct (cl_reject cl).
    + by apply (tight_trimmed 114).
    + by apply (tight_trimmed 99).
Qed.

Lemma date_tight t : date_ok t = true → tight (datalog_date t).
Proof.
  intros Ht. destruct (date_text_shape t Ht) as (a&b&c&d&e&f&g&h&i&j&k&l&m&n&->&_).
  exists [a; b; c; d; 45; e; f; 45; g; h; 84; i; j; 58; k; l; 58; m; n], 90. done.
Qed.

Lemma hex_clean h : matches _HEX64_RE h = true → clean h = true.
Proof.
  unfold matches. rewrite bool_decide_eq_true. intros [env Hm].
  unfold re_match, _HEX64_RE in Hm. cbn [match_re] in Hm.
  assert (∀ n (s : pystr) (k : pystr → captures → option captures) e x,
    match_re (Rep hex_lower n) s e k = Some x →
    ∃ a b, s = a ++ b ∧ clean a = true ∧ k b e = Some x) as Hr.
  { clear. induction n as [|n IH]; intros s k e x; cbn [Rep match_re]; [by exists [], s|].
    destruct s as [|c s]; [done|]. destruct (hex_lower c) eqn:Hc; [|done].
    intros (a & b & -> & Ha & Hb)%IH. exists (c :: a), b. split_and!; [done| |done].
    unfold clean. cbn [forallb]. change (forallb _ a) with (clean a). rewrite Ha, andb_true_r.
    unfold hex_lower, rng in Hc. apply andb_true_iff.
    unfold dquote, backslash. split; apply negb_true_iff, Z.eqb_neq;
      intros ->; vm_compute in Hc; discriminate. }
  apply Hr in Hm as (a & b & -> & Ha & Hb). destruct (at_end b) eqn:Hb'; [|done].
  unfold clean. rewrite forallb_app. fold (clean a) (clean b). rewrite Ha.
  apply at_end_iff in Hb' as [-> | ->]; done.
Qed.

Lemma compile_clean c cls cl :
  readable c = true → compile c = Ok cls → cl ∈ cls → clause_clean cl.
Proof.
  intros [Hv Hr]%andb_true_iff Hc Hcl. unfold clause_clean.
  destruct c as [X|d v|nb na|X|X|path op v|n|h|X]; simpl in Hc.
  3: { inv_ok. apply andb_true_iff in Hr as [Hb Ha].
       apply elem_of_app in Hcl as [Hcl|Hcl]; [destruct nb|destruct na];
         try (by apply elem_of_nil in Hcl); apply list_elem_of_singleton in Hcl as ->;
         cbn [cl_pred cl_var cl_key cl_guard render_term];
         (split_and!; [done|done|done|by apply Q_date|by apply date_tight]). }
  5: { apply andb_true_iff in Hr as [Hp Hr].
       destruct v as [b|s|Y], op; try done; simpl in Hc; inv_ok;
         apply list_elem_of_singleton in Hcl as ->;
         cbn [cl_pred cl_var cl_key cl_guard render_term];
         (split_and!; [done|done|done|..]); try done;
         first [apply Q_int | apply int_tight | apply quote_tight
               | apply andb_true_iff in Hr as [Hr _]; by apply Q_quote]. }
  7: { inv_ok. by apply elem_of_nil in Hcl. }
  all: inv_ok; apply list_elem_of_singleton in Hcl as ->;
    cbn [cl_pred cl_var cl_key cl_guard render_term]; (split_and!; [done|done|..]).
  all: try done; try apply Q_int; try apply int_tight; try apply quote_tight.
  - by destruct d.
  - apply Q_quote. by apply hex_clean.
Qed.

Definition approval_text (s : pystr) : pystr := u "requires_approval(" ++ quote_string s ++ u ")".

Definition statements_of (c : Caveat) : list pystr :=
  match c with
  | RequiresApproval X => approval_text <$> py_sorted (elements X)
  | _ => match compile c with Ok cls => check_text <$> cls | Raise _ => [] end
  end.

Lemma layout_lines f (l : list pystr) :
  (∀ s, s ∈ l → statement (f s)) →
  layout (py_join [newline] ((λ s, f s ++ u ";") <$> l)) (f <$> l).
Proof.
  intros Hl. assert (concat ((λ s, [f s]) <$> l) = f <$> l) as <-.
  { clear. induction l as [|x l IH]; [done|]. cbn. by f_equal. }
  apply layout_join. apply Forall2_fmap, Forall_Forall2_diag, Forall_forall.
  intros s Hs. by apply layout_one, Hl.
Qed.

Lemma approval_statement s : clean s = true → statement (approval_text s).
Proof.
  intros Hs. split.
  - apply Q_app; [done|]. apply Q_app; [by apply Q_quote|done].
  - apply (tight_trimmed 114); [done|]. change (tight (approval_text s)). unfold approval_text.
    do 2 apply tight_app. by exists [], 41.
Qed.

Lemma to_datalog_layout c t :
  readable c = true → to_datalog c = Ok t → layout t (statements_of c).
Proof.
  intros Hr Ht. destruct (decide (caveat_kind_of c = K_REQUIRES_APPROVAL)) as [Hk|Hk].
  - destruct c as [| | | | | | | |X]; try done. simpl in Ht. injection Ht as <-. cbn [statements_of].
    replace ((λ s, u "requires_approval(" ++ quote_string s ++ u ");") <$> py_sorted (elements X))
      with ((λ s, approval_text s ++ u ";") <$> py_sorted (elements X)).
    2: { apply list_fmap_ext. intros _ s _. unfold approval_text. by rewrite <- !app_assoc. }
    apply layout_lines. intros s Hs. rewrite elem_of_py_sorted in Hs. apply approval_statement.
    unfold readable in Hr. cbn [Caveat_valid andb] in Hr. rewrite forallb_forall in Hr.
    by apply Hr, list_elem_of_In.
  - rewrite to_datalog_compile in Ht by (intros X ->; by apply Hk).
    apply bind_Ok_inv in Ht as (cls & Hc & [= <-]).
    assert (statements_of c = check_text <$> cls) as ->.
    { destruct c; cbn [statements_of]; try (by rewrite Hc). done. }
    rewrite (list_fmap_ext render_clause (λ cl, check_text cl ++ u ";"))
      by (intros; apply check_text_render).
    assert (concat ((λ cl, [check_text cl]) <$> cls) = check_text <$> cls) as <-.
    { clear. induction cls as [|x l IH]; [done|]. cbn. by f_equal. }
    apply layout_join. apply Forall2_fmap, Forall_Forall2_diag, Forall_forall.
    intros cl Hcl. apply layout_one, check_text_statement. by eapply compile_clean.
Qed.

Lemma bind_concat {A B} (f : A → list B) l : l ≫= f = concat (f <$> l).
Proof. induction l as [|x l IH]; [done|]. cbn. by f_equal. Qed.

Lemma block_layout cs body :
  forallb readable cs = true → block_datalog cs = Ok body → layout body (cs ≫= statements_of).
Proof.
  intros Hr Hb. unfold block_datalog in Hb. apply bind_Ok_inv in Hb as (ts & Hts & [= <-]).
  apply res_map_Forall2 in Hts.
  assert (Forall2 layout ts (statements_of <$> cs)) as Hl.
  { clear -Hr Hts. induction Hts as [|c t cs ts Ht Hts IH]; [by constructor|].
    cbn [forallb] in Hr. apply andb_true_iff in Hr as [Hc Hr]. constructor; [|by apply IH].
    by apply to_datalog_layout. }
  apply layout_filter in Hl. by rewrite bind_concat.
Qed.
