(* ===== verification/Shapes.v ===== *)
(** * Each clause the compiler emits matches its own shape

    Matching lemmas for the recognizer's patterns, and the round trip of one clause:
    the text of every caveat whose strings need no escaping reads back as that
    caveat, each window bound and each number in its canonical form. *)
From S2P Require Import Prelude PyText Errors PyNum PyTime PyRe PyUuid Models Caveats Datalogic Tokens Attribution Attenuation Recognizer Layout.

(** ** One shape matches each clause *)
Section shapes.
Context {A : Type}.
Implicit Types (k : pystr → captures → option A) (env : captures).

Lemma m_lit l r s env k : match_re (Lit l ⋅ r) (l ++ s) env k = match_re r s env k.
Proof. cbn [match_re]. by rewrite strip_prefix_app. Qed.

Lemma m_lit_ne l r s env k : starts_with l s = false → match_re (Lit l ⋅ r) s env k = None.
Proof. intros Hs. cbn [match_re]. by rewrite strip_prefix_starts. Qed.

Lemma take_diff (x s : pystr) : take (length (x ++ s) - length s) (x ++ s) = x.
Proof.
  rewrite length_app. replace (length x + length s - length s)%nat with (length x) by lia.
  apply take_app_length.
Qed.

(** A group over a run that stops at [c]. *)
Lemma m_run name p x c s env k :
  forallb p x = true → p c = false →
  (∀ y t e, p y = true → k (y :: t) e = None) →
  match_re (Grp name (Star p)) (x ++ c :: s) env k = k (c :: s) ((name, x) :: env).
Proof.
  intros Hx Hc Hk. cbn [match_re]. rewrite (star_re_delim p x c s) by (auto || (intros; by apply Hk)).
  by rewrite take_diff.
Qed.

Lemma m_quoted name x r s env k :
  clean x = true →
  match_re (quoted name ⋅ r) (quote_string x ++ s) env k = match_re r s ((name, x) :: env) k.
Proof.
  intros Hx. rewrite quote_clean by done. rewrite <- !app_assoc.
  change (match_re (quoted name ⋅ r) ([dquote] ++ x ++ [dquote] ++ s) env k)
    with (match_re (Lit [dquote] ⋅ Grp name (Star not_quote) ⋅ Lit [dquote] ⋅ Eps)
            ([dquote] ++ x ++ [dquote] ++ s) env (λ s e, match_re r s e k)).
  rewrite m_lit. change ([dquote] ++ s) with (dquote :: s).
  change (match_re (Grp name (Star not_quote) ⋅ Lit [dquote] ⋅ Eps) (x ++ dquote :: s) env
            (λ s e, match_re r s e k))
    with (match_re (Grp name (Star not_quote)) (x ++ dquote :: s) env
            (λ s e, match_re (Lit [dquote] ⋅ Eps) s e (λ s e, match_re r s e k))).
  rewrite m_run; [|by apply clean_not_quote|done|].
  - change (dquote :: s) with ([dquote] ++ s). by rewrite m_lit.
  - intros y t e Hy. apply m_lit_ne. cbn [starts_with]. unfold not_quote in Hy.
    apply negb_true_iff in Hy. by rewrite Z.eqb_sym, Hy.
Qed.

Lemma m_set x r s env k :
  forallb not_bracket x = true →
  match_re (_SET ⋅ r) (u "[" ++ x ++ u "]" ++ s) env k = match_re r s (("members"%string, x) :: env) k.
Proof.
  intros Hx.
  change (match_re (_SET ⋅ r) (u "[" ++ x ++ u "]" ++ s) env k)
    with (match_re (Lit (u "[") ⋅ Grp "members" (Star not_bracket) ⋅ Lit (u "]") ⋅ Eps)
            (u "[" ++ x ++ u "]" ++ s) env (λ s e, match_re r s e k)).
  rewrite m_lit. change (u "]" ++ s) with (93 :: s).
  change (match_re (Grp "members" (Star not_bracket) ⋅ Lit (u "]") ⋅ Eps) (x ++ 93 :: s) env
            (λ s e, match_re r s e k))
    with (match_re (Grp "members" (Star not_bracket)) (x ++ 93 :: s) env
            (λ s e, match_re (Lit (u "]") ⋅ Eps) s e (λ s e, match_re r s e k))).
  rewrite m_run; [|done|done|].
  - change (93 :: s) with (u "]" ++ s). by rewrite m_lit.
  - intros y t e Hy. apply m_lit_ne. change (u "]") with [93]. cbn [starts_with].
    unfold not_bracket in Hy. apply negb_true_iff in Hy. by rewrite Z.eqb_sym, Hy.
Qed.

(** [$x], captured, up to the closing parenthesis. *)
Lemma m_var a w l r s env k :
  var_start a = true → forallb var_char w = true →
  match_re (v_ ⋅ Lit (41 :: l) ⋅ r) (u "$" ++ (a :: w) ++ 41 :: s) env k
  = match_re (Lit (41 :: l) ⋅ r) (41 :: s) (("v"%string, u "$" ++ a :: w) :: env) k.
Proof.
  intros Ha Hw. set (k' := λ s e, match_re (Lit (41 :: l) ⋅ r) s e k).
  change (match_re v_ (36 :: a :: w ++ 41 :: s) env k'
          = k' (41 :: s) (("v"%string, u "$" ++ a :: w) :: env)).
  unfold v_, _VAR. cbn [match_re]. change (strip_prefix (u "$") (36 :: a :: w ++ 41 :: s))
    with (Some (a :: w ++ 41 :: s)). cbv iota. rewrite Ha.
  rewrite star_re_delim; [|done|done|].
  - f_equal. f_equal. f_equal. change (36 :: a :: w ++ 41 :: s) with ((36 :: a :: w) ++ 41 :: s).
    by rewrite take_diff.
  - intros x t Hx. apply m_lit_ne. cbn [starts_with].
    destruct (Z.eqb_spec 41 x) as [<-|]; done.
Qed.

Lemma m_back w r s env k :
  group env "v" = Some w → match_re (Back "v" ⋅ r) (w ++ s) env k = match_re r s env k.
Proof. intros Hg. cbn [match_re]. by rewrite Hg, strip_prefix_app. Qed.

Lemma m_back_ne w r s env k :
  group env "v" = Some w → starts_with w s = false → match_re (Back "v" ⋅ r) s env k = None.
Proof. intros Hg Hs. cbn [match_re]. by rewrite Hg, strip_prefix_starts. Qed.

Lemma m_eos env k : match_re Eos [] env k = k [] env.
Proof. done. Qed.
End shapes.

Lemma at_end_digit c s : is_unicode_digit c = true → at_end (c :: s) = false.
Proof.
  intros Hc. destruct s; [|done]. simpl. apply Z.eqb_neq. intros ->. vm_compute in Hc. done.
Qed.

Lemma digits_unicode s : forallb is_digit s = true → forallb is_unicode_digit s = true.
Proof.
  rewrite !forallb_forall. intros H x Hx. by apply is_unicode_digit_ascii, H.
Qed.

Definition found_env (_ : pystr) (env : captures) : option captures := Some env.

Lemma py_str_int_sign n :
  ∃ d ds, forallb is_digit (d :: ds) = true
          ∧ py_str_int n = (if n <? 0 then u "-" else []) ++ d :: ds.
Proof.
  destruct (Z.ltb_spec n 0) as [Hn|Hn].
  - unfold py_str_int. destruct n as [|p|p]; [lia|lia|]. cbn [Z.to_int].
    pose proof (uint_chars_digits (Pos.to_uint p)) as Hd.
    destruct (uint_chars (Pos.to_uint p)) as [|d ds] eqn:E.
    + pose proof (py_int_str (Z.neg p)) as Hi. unfold py_str_int in Hi. cbn [Z.to_int] in Hi.
      rewrite E in Hi. discriminate Hi.
    + by exists d, ds.
  - destruct (py_str_int_digits n Hn) as [Hd Hne].
    destruct (py_str_int n) as [|d ds]; [done|]. by exists d, ds.
Qed.

Lemma m_num n env :
  match_re (_NUM ⋅ Eos) (py_str_int n) env found_env
  = Some (("num"%string, py_str_int n) :: env).
Proof.
  destruct (py_str_int_sign n) as (d & ds & Hd & ->).
  cbn [forallb] in Hd. apply andb_true_iff in Hd as [Hd Hds].
  assert (∀ x : pystr, match star_re is_unicode_digit ds (λ s', if at_end s'
      then found_env s' (("num"%string, take (length x - length s') x) :: env) else None) with
    | Some y => Some y | None => None end = Some (("num"%string, x) :: env)) as Hs.
  { intros x. rewrite star_re_end; [|by apply digits_unicode|].
    - cbn [at_end found_env length]. by rewrite Nat.sub_0_r, firstn_all.
    - intros y t Hy. by rewrite at_end_digit. }
  assert (∀ x : pystr, star_re is_unicode_digit ds (λ s', if at_end s'
      then found_env s' (("num"%string, take (length x - length s') x) :: env) else None)
    = Some (("num"%string, x) :: env)) as Hs'.
  { intros x. specialize (Hs x). by destruct (star_re _ _ _). }
  unfold _NUM. destruct (n <? 0).
  - change (u "-" ++ d :: ds) with (45 :: d :: ds). cbn [match_re Plus].
    change (strip_prefix (u "-") (45 :: d :: ds)) with (Some (d :: ds)). cbv iota.
    rewrite is_unicode_digit_ascii by done. by rewrite Hs'.
  - rewrite app_nil_l. cbn [match_re Plus].
    assert (strip_prefix (u "-") (d :: ds) = None) as ->.
    { apply strip_prefix_starts. change (u "-") with [45]. cbn [starts_with].
      destruct (Z.eqb_spec 45 d) as [<-|]; done. }
    rewrite is_unicode_digit_ascii by done. by rewrite Hs'.
Qed.

Lemma m_date t env :
  date_ok t = true →
  match_re (_DATE ⋅ Eos) (datalog_date t) env found_env
  = Some (("date"%string, datalog_date t) :: env).
Proof.
  intros Ht. destruct (date_text_shape t Ht) as (a&b&c&d&e&f&g&h&i&j&k&l&m&n&->&H).
  apply digits_unicode in H. cbn [forallb] in H. zify_bool.
  unfold _DATE, date_shape. cbn [match_re Rep].
  change (u "-") with [45]. change (u "T") with [84]. change (u ":") with [58].
  change (u "Z") with [90].
  repeat (match goal with H : is_unicode_digit _ = true |- _ => rewrite H; clear H end;
          cbn [strip_prefix Z.eqb Pos.eqb]).
  reflexivity.
Qed.

Lemma m_str x env :
  clean x = true →
  match_re (_STR ⋅ Eos) (quote_string x) env found_env = Some (("text"%string, x) :: env).
Proof.
  intros Hx. rewrite <- (app_nil_r (quote_string x)). unfold _STR. by rewrite m_quoted.
Qed.

Lemma m_alternatives {A} op s env (k : pystr → captures → option A) :
  (∀ t e, k (61 :: t) e = None) →
  match_re (Lit (u "<=") ∥ Lit (u "<") ∥ Lit (u ">=") ∥ Lit (u ">") ∥ Lit (u "==")
            ∥ Lit (u "!=")) (cmp_text op ++ 32 :: s) env k = k (32 :: s) env.
Proof.
  intros Hk. cbn [match_re].
  change (u "<=") with [60; 61]. change (u "<") with [60]. change (u ">=") with [62; 61].
  change (u ">") with [62]. change (u "==") with [61; 61]. change (u "!=") with [33; 61].
  assert (∀ o : option A, match o with Some x => Some x | None => None end = o) as Ho by (by intros []).
  destruct op.
  - change (cmp_text CLe) with [60; 61].
    cbn [app strip_prefix Z.eqb Pos.eqb]. by rewrite Hk, Ho.
  - change (cmp_text CLt) with [60]. cbn [app strip_prefix Z.eqb Pos.eqb]. by rewrite Ho.
  - change (cmp_text CGe) with [62; 61].
    cbn [app strip_prefix Z.eqb Pos.eqb]. by rewrite Hk, Ho.
  - change (cmp_text CGt) with [62]. cbn [app strip_prefix Z.eqb Pos.eqb]. by rewrite Ho.
  - change (cmp_text CEq) with [61; 61]. cbn [app strip_prefix Z.eqb Pos.eqb]. by rewrite Ho.
  - change (cmp_text CNe) with [33; 61]. cbn [app strip_prefix Z.eqb Pos.eqb]. done.
Qed.

Lemma m_op op r s env :
  match_re (_OP ⋅ Lit (u " ") ⋅ r) (cmp_text op ++ u " " ++ s) env found_env
  = match_re r s (("op"%string, cmp_text op) :: env) found_env.
Proof.
  set (k := λ s e, match_re (Lit (u " ") ⋅ r) s e found_env).
  change (u " " ++ s) with (32 :: s). unfold _OP.
  match goal with |- match_re (Grp _ ?a ⋅ _) ?x _ _ = _ =>
    change (match_re a x env (λ s' e', k s' (("op"%string, take (length x - length s') x) :: e'))
            = match_re r s (("op"%string, cmp_text op) :: env) found_env) end.
  rewrite m_alternatives by done. rewrite take_diff. unfold k.
  change (32 :: s) with (u " " ++ s). apply m_lit.
Qed.

(** *** Set literals *)
Lemma split_on_app c p s : c ∉ p →
  split_on c (p ++ c :: s) = (p, let '(q, qs) := split_on c s in q :: qs).
Proof.
  induction p as [|a p IH]; intros Hp; cbn [app split_on].
  - rewrite Z.eqb_refl. by destruct (split_on c s).
  - apply not_elem_of_cons in Hp as [Ha Hp]. rewrite IH by done.
    by rewrite (proj2 (Z.eqb_neq _ _)).
Qed.

Lemma split_on_none c p : c ∉ p → split_on c p = (p, []).
Proof.
  induction p as [|a p IH]; intros Hp; cbn [split_on]; [done|].
  apply not_elem_of_cons in Hp as [Ha Hp]. rewrite IH by done.
  by rewrite (proj2 (Z.eqb_neq _ _)).
Qed.

Lemma split_join x l :
  (44 ∉ x) → Forall (λ y, 44 ∉ y) l →
  split_on 44 (py_join (u ", ") (x :: l)) = (x, (λ y, 32 :: y) <$> l).
Proof.
  intros Hx Hl. revert x Hx. induction Hl as [|y l Hy Hl IH]; intros x Hx; [by apply split_on_none|].
  change (py_join (u ", ") (x :: y :: l)) with (x ++ 44 :: 32 :: py_join (u ", ") (y :: l)).
  rewrite split_on_app by done. cbn [split_on]. rewrite IH by done. done.
Qed.

Lemma member_quote x : clean x = true →
  re_match _MEMBER_RE (quote_string x) ≫= (λ env, group env "1") = Some x.
Proof.
  intros Hx. unfold re_match, _MEMBER_RE.
  change (match_re (Lit [dquote] ⋅ Grp "1" (Star not_quote) ⋅ Lit [dquote] ⋅ Eos) (quote_string x) []
            found_env ≫= (λ env, group env "1") = Some x).
  assert (match_re (quoted "1" ⋅ Eos) (quote_string x ++ []) [] found_env = Some [("1"%string, x)])
    as H by by rewrite m_quoted.
  rewrite app_nil_r in H.
  change (match_re (quoted "1" ⋅ Eos) (quote_string x) [] found_env)
    with (match_re (Lit [dquote] ⋅ Grp "1" (Star not_quote) ⋅ Lit [dquote] ⋅ Eos) (quote_string x) []
            found_env) in H.
  by rewrite H.
Qed.

Lemma quote_trimmed x : trimmed (quote_string x).
Proof.
  destruct (quote_tight x) as (a & c & E & Hc). unfold quote_string in *.
  apply (tight_trimmed dquote); [done|]. exists a, c. split; [exact E|done].
Qed.

Lemma quote_no_comma x :
  clean x = true → forallb (λ c, negb (c =? 44) && negb (c =? 93)) x = true → 44 ∉ quote_string x.
Proof.
  intros Hc Hx. rewrite quote_clean by done. rewrite forallb_forall in Hx.
  rewrite !elem_of_app, !list_elem_of_singleton. intros [H|[H|H]]; [done| |done].
  apply list_elem_of_In, Hx in H. by vm_compute in H.
Qed.

Lemma join_members_trimmed x l : trimmed (py_join (u ", ") (quote_string <$> x :: l)).
Proof.
  cbn [fmap list_fmap]. assert (∀ y, tight (py_join (u ", ") (quote_string y :: (quote_string <$> l)))) as Ht.
  { induction l as [|z l IH]; intros y; [apply quote_tight|].
    change (tight (quote_string y ++ u ", " ++ py_join (u ", ") (quote_string z :: (quote_string <$> l)))).
    do 2 apply tight_app. apply IH. }
  specialize (Ht x). destruct (quote_trimmed x) as (_ & Hh & _).
  assert (∃ r, py_join (u ", ") (quote_string x :: (quote_string <$> l)) = dquote :: r) as [r E].
  { destruct l; unfold quote_string; eexists; reflexivity. }
  rewrite E in Ht |- *. by apply tight_trimmed.
Qed.

Lemma members_literal X :
  forallb clean_member (elements X) = true →
  _members (py_join (u ", ") (quote_string <$> py_sorted (elements X))) = Some X.
Proof.
  intros HX.
  assert (list_to_set (py_sorted (elements X)) = X) as HE.
  { apply set_eq. intros s. by rewrite elem_of_list_to_set, elem_of_py_sorted, elem_of_elements. }
  assert (∀ s, s ∈ py_sorted (elements X) → clean s = true ∧ 44 ∉ quote_string s) as Hc.
  { intros s Hs. destruct (clean_members X s HX Hs). split; [done|by apply quote_no_comma]. }
  unfold _members. destruct (py_sorted (elements X)) as [|x l]; [by rewrite <- HE|].
  rewrite py_strip_id by apply join_members_trimmed.
  destruct (join_members_trimmed x l) as (Hne & _). rewrite bool_decide_eq_false_2 by done.
  cbn [fmap list_fmap]. rewrite split_join.
  2: { apply Hc. left. }
  2: { apply Forall_fmap, Forall_forall. intros s Hs. apply Hc. by right. }
  assert (mapM (λ part, env ← re_match _MEMBER_RE (py_strip part); group env "1")
            (quote_string x :: ((λ y, 32 :: y) <$> (quote_string <$> l))) = Some (x :: l)) as ->.
  { apply mapM_Some. constructor.
    - cbn beta. rewrite py_strip_id by apply quote_trimmed. apply member_quote, Hc. left.
    - rewrite <- list_fmap_compose. apply Forall2_fmap_l, Forall_Forall2_diag, Forall_forall.
      intros s Hs. change (re_match _MEMBER_RE (py_strip ([32] ++ quote_string s))
        ≫= (λ env, group env "1") = Some s).
      rewrite py_strip_trimmed by (done || apply quote_trimmed). apply member_quote, Hc. by right. }
  cbn [mbind option_bind]. by rewrite HE.
Qed.

Lemma join_no_bracket (X : gset pystr) :
  forallb clean_member (elements X) = true →
  forallb not_bracket (py_join (u ", ") (quote_string <$> py_sorted (elements X))) = true.
Proof.
  intros HX. assert (∀ s, s ∈ py_sorted (elements X) → forallb not_bracket (quote_string s) = true) as Hs.
  { intros s Hs. destruct (clean_members X s HX Hs) as [Hc Hm]. rewrite quote_clean by done.
    rewrite !forallb_app. apply andb_true_iff; split; [done|]. apply andb_true_iff; split; [|done].
    rewrite forallb_forall in Hm |- *. intros c Hin. apply Hm in Hin.
    by apply andb_true_iff in Hin as [_ ?]. }
  induction (py_sorted (elements X)) as [|x l IH]; [done|]. destruct l as [|y l].
  - apply Hs. left.
  - change (forallb not_bracket (quote_string x ++ u ", "
      ++ py_join (u ", ") (quote_string <$> y :: l)) = true).
    rewrite !forallb_app. apply andb_true_iff; split; [apply Hs; left|].
    apply andb_true_iff; split; [done|]. apply IH. intros s Hin. apply Hs. by right.
Qed.

(** *** Shapes in order *)
Lemma try_hit name r shapes s env :
  re_match r s = Some env → try_shapes ((name, r) :: shapes) s = _build name env.
Proof. intros H. cbn [try_shapes]. by rewrite H. Qed.

Lemma try_miss name r shapes s :
  re_match r s = None → try_shapes ((name, r) :: shapes) s = try_shapes shapes s.
Proof. intros H. cbn [try_shapes]. by rewrite H. Qed.

Lemma try_skip name l r shapes s :
  starts_with l s = false → try_shapes ((name, Lit l ⋅ r) :: shapes) s = try_shapes shapes s.
Proof. intros H. apply try_miss. by apply m_lit_ne. Qed.

Lemma m_prefix {A} pre a w l r s env (k : pystr → captures → option A) :
  var_start a = true → forallb var_char w = true →
  match_re (Lit pre ⋅ v_ ⋅ Lit (41 :: l) ⋅ r) (pre ++ u "$" ++ (a :: w) ++ (41 :: l) ++ s) env k
  = match_re r s (("v"%string, u "$" ++ a :: w) :: env) k.
Proof.
  intros Ha Hw. rewrite m_lit.
  change ((41 :: l) ++ s) with (41 :: l ++ s). rewrite m_var by done.
  change (41 :: l ++ s) with ((41 :: l) ++ s). by rewrite m_lit.
Qed.

(** The argument and ceiling shapes: a quoted key before the variable. *)
Lemma m_keyed {A} pre name key a w l r s env (k : pystr → captures → option A) :
  var_start a = true → forallb var_char w = true → clean key = true →
  match_re (Lit pre ⋅ quoted name ⋅ Lit (u ", ") ⋅ v_ ⋅ Lit (41 :: l) ⋅ r)
    (pre ++ quote_string key ++ u ", " ++ u "$" ++ (a :: w) ++ 41 :: s) env k
  = match_re (Lit (41 :: l) ⋅ r) (41 :: s)
      (("v"%string, u "$" ++ a :: w) :: (name, key) :: env) k.
Proof.
  intros Ha Hw Hk. rewrite m_lit, m_quoted, m_lit by done. by rewrite m_var.
Qed.

Lemma m_contains X w env :
  forallb clean_member (elements X) = true → group env "v" = Some w →
  match_re contains_v (_set_literal X ++ u ".contains(" ++ w ++ u ")") env found_env
  = Some (("members"%string, py_join (u ", ") (quote_string <$> py_sorted (elements X))) :: env).
Proof.
  intros HX Hw. unfold _set_literal, contains_v. rewrite <- !app_assoc.
  rewrite m_set by by apply join_no_bracket. rewrite m_lit.
  rewrite m_back by done. rewrite <- (app_nil_r (u ")")). by rewrite m_lit.
Qed.

(** *** Terms *)
Lemma digits_of_ascii ds : forallb is_digit ds = true → digits_of ds = digits_val ds.
Proof.
  unfold digits_of, digits_val.
  assert (∀ acc, forallb is_digit ds = true →
    foldl (λ acc c, 10 * acc + default 0 (digit_value c)) acc ds
    = foldl (λ acc c, 10 * acc + (c - 48)) acc ds) as H; [|apply H].
  induction ds as [|d ds IH]; intros acc; [done|].
  cbn [forallb foldl]. intros [Hd Hds]%andb_true_iff. rewrite digit_value_ascii by done.
  by apply IH.
Qed.

Lemma filter_int_chars s : forallb int_char s = true → filter (λ c, c ≠ 95) s = s.
Proof.
  induction s as [|c s IH]; [done|]. cbn [forallb]. intros [Hc Hs]%andb_true_iff.
  rewrite filter_cons_True by (intros ->; done). f_equal. by apply IH.
Qed.

Lemma int_trimmed n : trimmed (py_str_int n).
Proof.
  destruct (int_chars n) as [Hc Hne]. pose proof (int_tight n) as Hti.
  destruct (py_str_int n) as [|c s]; [done|]. apply tight_trimmed; [|done].
  cbn [forallb] in Hc. apply andb_true_iff in Hc as [Hc _].
  apply orb_true_iff in Hc as [Hc|Hc%Z.eqb_eq]; [by apply digit_not_space|by subst].
Qed.

Lemma parse_unsigned_digits d ds :
  forallb is_digit (d :: ds) = true → Z.abs (digits_val (d :: ds)) < 10 ^ 24 →
  parse_unsigned (d :: ds) = Some (Dec (digits_val (d :: ds)) 0).
Proof.
  intros Hd Hn. unfold parse_unsigned, parse_number. rewrite span_all by by apply digits_unicode.
  rewrite bool_decide_eq_false_2 by done. cbn [andb mbind option_bind length].
  rewrite app_nil_r, digits_of_ascii by done. cbn [dcoef dexp].
  pose proof (ndigits_le _ 24 ltac:(lia) Hn). pose proof (ndigits_pos (digits_val (d :: ds))).
  change (0 - Z.of_nat 0) with 0.
  rewrite (proj2 (Z.leb_le _ _)) by lia. done.
Qed.

Lemma py_int_sign n d ds :
  forallb is_digit (d :: ds) = true → py_str_int n = (if n <? 0 then u "-" else []) ++ d :: ds →
  digits_val (d :: ds) = Z.abs n.
Proof.
  intros Hd E. pose proof (py_int_str n) as Hi. rewrite E in Hi.
  destruct (Z.ltb_spec n 0).
  - change (u "-" ++ d :: ds) with (45 :: d :: ds) in Hi. cbn [py_int] in Hi. lia.
  - rewrite app_nil_l in Hi. assert (py_int (d :: ds) = digits_val (d :: ds)) as Hp.
    { cbn [forallb] in Hd. apply andb_true_iff in Hd as [Hd _]. unfold is_digit in Hd. zify_bool.
      unfold py_int.
      repeat (match goal with |- context [match ?x with _ => _ end] => destruct x end; try done; try lia). }
    lia.
Qed.

Lemma parse_decimal_int n :
  Z.abs n < 10 ^ 24 → parse_decimal (py_str_int n) = Some (DFin (Dec n 0)).
Proof.
  intros Hn. unfold parse_decimal. rewrite py_strip_id by apply int_trimmed.
  rewrite filter_int_chars by apply int_chars.
  destruct (py_str_int_sign n) as (d & ds & Hd & E).
  pose proof (py_int_sign _ _ _ Hd E) as Hv. rewrite E.
  pose proof (parse_unsigned_digits d ds Hd) as Hp. rewrite Hv, Z.abs_idemp in Hp.
  specialize (Hp Hn). destruct (Z.ltb_spec n 0).
  - change (u "-" ++ d :: ds) with (45 :: d :: ds). cbv iota. rewrite Hp. cbn [dcoef dexp].
    do 3 f_equal. lia.
  - rewrite app_nil_l. cbn [forallb] in Hd. apply andb_true_iff in Hd as [Hd _].
    unfold is_digit in Hd. zify_bool.
    assert (match d :: ds with 45 :: r => (true, r) | 43 :: r => (false, r) | _ => (false, d :: ds) end
            = (false, d :: ds)) as ->.
    { repeat (match goal with |- context [match ?x with _ => _ end] => destruct x end; try done; try lia). }
    rewrite Hp. do 3 f_equal. lia.
Qed.

Lemma _unscale_int n : Z.abs n < 10 ^ 24 → _unscale (py_str_int n) = Ok (Dec n (-4)).
Proof.
  intros Hn. unfold _unscale. rewrite parse_decimal_int by done.
  by apply unscale_dec_exact.
Qed.

Lemma money_of_units n : 0 <= n < MONEY_LIMIT → money_of (Dec n (-4)) = Ok n.
Proof.
  intros Hn. unfold money_of, dec_units. cbn [dexp dcoef]. change (0 <=? -4 + 4) with true.
  cbv iota. change (10 ^ (-4 + 4)) with 1. rewrite Z.mul_1_r.
  rewrite (proj2 (Z.leb_le _ _)), (proj2 (Z.ltb_lt _ _)) by lia. done.
Qed.

(** Scaling a decimal within 24 digits and four places is exact. *)
Lemma scale_of_units d n :
  dec_units d = Some n → Z.abs (dcoef d) < 10 ^ 24 → -24 <= dexp d <= 24 → scale d = Ok n.
Proof.
  destruct d as [c e]. unfold dec_units. cbn [dcoef dexp]. intros Hu Hc He.
  unfold scale, scaled_or, dec_mul, dec_of_int, BUDGET_SCALE. cbn [dcoef dexp].
  destruct (decide (c = 0)) as [->|Hne].
  { rewrite Z.mul_0_l. unfold dec_fix. cbn [dcoef dexp].
    change (0 =? 0) with true. cbv iota. cbn [mbind res_bind].
    assert (n = 0) as ->.
    { destruct (Z.leb_spec 0 (e + 4)); [by injection Hu as <-|]. rewrite Z.mod_0_l in Hu by (apply Z.pow_nonzero; lia).
      rewrite Z.div_0_l in Hu by (apply Z.pow_nonzero; lia). by injection Hu as <-. }
    unfold dec_is_integral, dec_to_int. cbn [dcoef dexp].
    set (x := Z.max Etiny _). destruct (Z.leb_spec 0 x); cbn [orb]; [done|].
    rewrite Z.mod_0_l by (apply Z.pow_nonzero; lia). rewrite Z.quot_0_l by (apply Z.pow_nonzero; lia).
    done. }
  rewrite dec_fix_exact; [|lia| |unfold Etiny, Emax; lia].
  2: { rewrite Z.abs_mul. change (10 ^ 28) with (10 ^ 24 * 10000). lia. }
  cbn [mbind res_bind]. unfold dec_is_integral, dec_to_int. cbn [dcoef dexp]. rewrite Z.add_0_r.
  assert (0 <= e → n = c * 10000 * 10 ^ e) as H1.
  { intros H. rewrite (proj2 (Z.leb_le 0 (e + 4))) in Hu by lia. injection Hu as <-.
    rewrite Z.pow_add_r by lia. change (10 ^ 4) with 10000. lia. }
  assert (e < 0 → c * 10000 = n * 10 ^ (- e)) as H2.
  { intros H. destruct (Z.leb_spec 0 (e + 4)).
    - injection Hu as <-. rewrite <- Z.mul_assoc, <- Z.pow_add_r by lia.
      by replace (e + 4 + - e) with 4 by lia.
    - destruct (Z.eqb_spec (c mod 10 ^ (- (e + 4))) 0) as [Hm|]; [|done]. injection Hu as <-.
      replace (- e) with (- (e + 4) + 4) by lia. rewrite Z.pow_add_r by lia. rewrite Z.mul_assoc.
      f_equal. rewrite Z.mul_comm. apply Z.div_exact; [|done]. apply Z.pow_nonzero; lia. }
  destruct (Z.leb_spec 0 e); cbn [orb]; [by rewrite <- H1|].
  rewrite H2 by lia. assert (0 < 10 ^ (- e)) by (apply Z.pow_pos_nonneg; lia).
  rewrite Z.mod_mul by lia. cbn [Z.eqb]. by rewrite quot_mul_exact.
Qed.

(** ** Clauses read back *)

(** What a caveat reads back as: a window one bound at a time and on whole seconds,
    a number at four places; the approval scopes are gathered per block. *)
Definition whole (t : Z) : Z := t / 1000000 * 1000000.
Definition at_four_places (d : decimal) : decimal := Dec (default 0 (dec_units d)) (-4).

Definition read_atoms (c : Caveat) : list Caveat :=
  match c with
  | TimeWindow nb na =>
      match nb with Some t => [TimeWindow (Some (whole t)) None] | None => [] end
      ++ match na with Some t => [TimeWindow None (Some (whole t))] | None => [] end
  | ArgPredicate p op (CNum d) => [ArgPredicate p op (CNum (at_four_places d))]
  | RequiresApproval _ => []
  | c => [c]
  end.

Definition reads (s : pystr) (c : Caveat) : Prop := _clause s = Ok (MCaveat c).

Lemma parse_date_ok t : date_ok t = true →
  _parse_date (datalog_date t) = Some (DT (whole t) true).
Proof.
  unfold date_ok, datalog_date, _parse_date. intros Ht.
  pose proof (parse_date_text_roundtrip (t / 1000000)) as Hp.
  destruct (ord2ymd _) as [[y m] d]. rewrite Hp by (zify_bool; done). done.
Qed.

Ltac build := cbn [_build]; cbv beta zeta;
  cbn [group String.eqb Ascii.eqb Bool.eqb from_option id].
Ltac skip := repeat rewrite try_skip by reflexivity.

Lemma reads_scope X :
  forallb clean_member (elements X) = true → Caveat_valid (ScopeSubset X) = true →
  reads (check_text (Clause false "operation" None "op" (GContains false X))) (ScopeSubset X).
Proof.
  intros HX Hv. unfold reads, _clause, _CLAUSE_RES.
  assert (re_match (Lit (u "check if operation(") ⋅ v_ ⋅ Lit (u "), ") ⋅ contains_v)
    (check_text (Clause false "operation" None "op" (GContains false X)))
    = Some [("members"%string, py_join (u ", ") (quote_string <$> py_sorted (elements X)));
            ("v"%string, u "$op")]) as H.
  { change (check_text _) with
      (u "check if operation(" ++ u "$" ++ (111 :: [112]) ++ (41 :: u ", ")
       ++ (_set_literal X ++ u ".contains(" ++ u "$op" ++ u ")")).
    change (u "), ") with (41 :: u ", "). unfold re_match. rewrite m_prefix by done.
    by apply m_contains. }
  rewrite (try_hit _ _ _ _ _ H). build.
  rewrite members_literal by done. unfold built, mk_ScopeSubset, check_scopes.
  cbn [Caveat_valid] in Hv. by rewrite Hv.
Qed.

Lemma reads_tool deny X :
  forallb clean_member (elements X) = true →
  reads (check_text (Clause deny "tool" None "t" (GContains false X)))
    (if deny then ToolDeny X else ToolAllow X).
Proof.
  intros HX. unfold reads, _clause, _CLAUSE_RES.
  assert (re_match (Lit (u (if deny then "reject if tool(" else "check if tool(")) ⋅ v_ ⋅ Lit (u "), ") ⋅ contains_v)
    (check_text (Clause deny "tool" None "t" (GContains false X)))
    = Some [("members"%string, py_join (u ", ") (quote_string <$> py_sorted (elements X)));
            ("v"%string, u "$t")]) as H.
  { assert (check_text (Clause deny "tool" None "t" (GContains false X)) =
      u (if deny then "reject if tool(" else "check if tool(") ++ u "$" ++ (116 :: []) ++ (41 :: u ", ")
       ++ (_set_literal X ++ u ".contains(" ++ u "$t" ++ u ")")) as -> by by destruct deny.
    change (u "), ") with (41 :: u ", "). unfold re_match. rewrite m_prefix by done.
    by apply m_contains. }
  destruct deny; skip; rewrite (try_hit _ _ _ _ _ H);
    build; by rewrite members_literal.
Qed.

Lemma reads_window (upper : bool) t :
  date_ok t = true →
  reads (check_text (Clause false "time" None "t"
           (GCompare (if upper then CLt else CGe) (TDate (t / 1000000)))))
    (if upper then TimeWindow None (Some (whole t)) else TimeWindow (Some (whole t)) None).
Proof.
  intros Ht. unfold reads, _clause, _CLAUSE_RES. skip.
  set (s := check_text _).
  assert (∀ (l : pystr) (r : re) (k : pystr → captures → option captures),
    match_re (Lit (u "check if time(") ⋅ v_ ⋅ Lit (u "), ") ⋅ Back "v" ⋅ r) s [] k
    = match_re r (u " " ++ cmp_text (if upper then CLt else CGe) ++ u " " ++ datalog_date t)
        [("v"%string, u "$t")] k) as Hpre.
  { intros l r k. change s with
      (u "check if time(" ++ u "$" ++ (116 :: []) ++ (41 :: u ", ")
       ++ (u "$t" ++ u " " ++ cmp_text (if upper then CLt else CGe) ++ u " " ++ datalog_date t)).
    change (u "), ") with (41 :: u ", "). rewrite m_prefix by done. by rewrite m_back. }
  destruct upper.
  - rewrite try_miss.
    2: { unfold re_match. rewrite (Hpre []). apply m_lit_ne. reflexivity. }
    assert (re_match (Lit (u "check if time(") ⋅ v_ ⋅ Lit (u "), ") ⋅ Back "v" ⋅ Lit (u " < ")
                 ⋅ _DATE ⋅ Eos) s = Some [("date"%string, datalog_date t); ("v"%string, u "$t")]) as H.
    { unfold re_match. rewrite (Hpre []).
      change (u " " ++ cmp_text CLt ++ u " " ++ datalog_date t) with (u " < " ++ datalog_date t).
      rewrite m_lit. by apply m_date. }
    rewrite (try_hit _ _ _ _ _ H). build. by rewrite parse_date_ok.
  - assert (re_match (Lit (u "check if time(") ⋅ v_ ⋅ Lit (u "), ") ⋅ Back "v" ⋅ Lit (u " >= ")
                 ⋅ _DATE ⋅ Eos) s = Some [("date"%string, datalog_date t); ("v"%string, u "$t")]) as H.
    { unfold re_match. rewrite (Hpre []).
      change (u " " ++ cmp_text CGe ++ u " " ++ datalog_date t) with (u " >= " ++ datalog_date t).
      rewrite m_lit. by apply m_date. }
    rewrite (try_hit _ _ _ _ _ H). build. by rewrite parse_date_ok.
Qed.

Lemma reads_ceiling d n :
  0 <= n < MONEY_LIMIT →
  reads (check_text (Clause false "requested" (Some (dimension_value d)) "v" (GCompare CLe (TInt n))))
    (BudgetCeiling d n).
Proof.
  intros Hn. unfold reads, _clause, _CLAUSE_RES. skip.
  assert (re_match (Lit (u "check if requested(") ⋅ _DIM ⋅ Lit (u ", ") ⋅ v_ ⋅ Lit (u "), ")
                     ⋅ Back "v" ⋅ Lit (u " <= ") ⋅ _NUM ⋅ Eos)
    (check_text (Clause false "requested" (Some (dimension_value d)) "v" (GCompare CLe (TInt n))))
    = Some [("num"%string, py_str_int n); ("v"%string, u "$v"); ("dim"%string, dimension_value d)]) as H.
  { unfold check_text. cbn [cl_reject cl_pred cl_key cl_var cl_guard render_term].
    rewrite <- app_assoc.
    change (re_match (Lit (u "check if requested(") ⋅ _DIM ⋅ Lit (u ", ") ⋅ v_ ⋅ Lit (41 :: u ", ")
                     ⋅ Back "v" ⋅ Lit (u " <= ") ⋅ _NUM ⋅ Eos)
      (u "check if requested(" ++ quote_string (dimension_value d) ++ u ", " ++ u "$" ++ (118 :: [])
       ++ 41 :: (u ", " ++ u "$v" ++ u " <= " ++ py_str_int n)) = 
      Some [("num"%string, py_str_int n); ("v"%string, u "$v"); ("dim"%string, dimension_value d)]).
    unfold re_match, _DIM. rewrite m_keyed; [|done|done|by destruct d].
    change (41 :: (u ", " ++ u "$v" ++ u " <= " ++ py_str_int n))
      with ((41 :: u ", ") ++ u "$v" ++ u " <= " ++ py_str_int n).
    rewrite m_lit, m_back, m_lit by done. apply m_num. }
  rewrite (try_hit _ _ _ _ _ H). build. rewrite dimension_of_value.
  rewrite _unscale_int by (unfold MONEY_LIMIT in Hn; change (10 ^ 24) with (10 ^ 20 * 10000); lia).
  cbn [mbind res_bind]. unfold built, mk_BudgetCeiling. by rewrite money_of_units.
Qed.

Definition depth_reads (n : Z) : bool :=
  match parse_int10 (py_str_int n) with Some m => m =? n | None => false end.

Lemma parse_int10_int n : 0 <= n <= MAX_DELEGATION_DEPTH → parse_int10 (py_str_int n) = Some n.
Proof.
  intros Hn. unfold MAX_DELEGATION_DEPTH in Hn.
  pose proof (all_below_spec depth_reads 9 0 ltac:(vm_compute; reflexivity) n ltac:(lia)) as H.
  unfold depth_reads in H. destruct (parse_int10 _); [|done]. by apply Z.eqb_eq in H as ->.
Qed.

Lemma reads_depth n :
  Caveat_valid (DepthLimit n) = true →
  reads (check_text (Clause false "current_depth" None "d" (GCompare CLe (TInt n)))) (DepthLimit n).
Proof.
  intros Hv. unfold reads, _clause, _CLAUSE_RES. skip.
  assert (re_match (Lit (u "check if current_depth(") ⋅ v_ ⋅ Lit (u "), ") ⋅ Back "v"
                  ⋅ Lit (u " <= ") ⋅ _NUM ⋅ Eos)
    (check_text (Clause false "current_depth" None "d" (GCompare CLe (TInt n))))
    = Some [("num"%string, py_str_int n); ("v"%string, u "$d")]) as H.
  { change (check_text _) with (u "check if current_depth(" ++ u "$" ++ (100 :: []) ++ (41 :: u ", ")
       ++ (u "$d" ++ u " <= " ++ py_str_int n)).
    change (u "), ") with (41 :: u ", "). unfold re_match.
    rewrite m_prefix, m_back, m_lit by done. apply m_num. }
  rewrite (try_hit _ _ _ _ _ H). build. cbn [Caveat_valid] in Hv.
  rewrite parse_int10_int by (zify_bool; lia).
  rewrite (proj2 (Z.ltb_ge _ _)) by (zify_bool; lia). unfold built, mk_DepthLimit. by rewrite Hv.
Qed.

Lemma reads_intent h :
  Caveat_valid (IntentBound h) = true →
  reads (check_text (Clause false "request_intent" None "h" (GCompare CEq (TStr h)))) (IntentBound h).
Proof.
  intros Hv. unfold reads, _clause, _CLAUSE_RES. skip.
  assert (re_match (Lit (u "check if request_intent(") ⋅ v_ ⋅ Lit (u "), ") ⋅ Back "v"
                   ⋅ Lit (u " == ") ⋅ _STR ⋅ Eos)
    (check_text (Clause false "request_intent" None "h" (GCompare CEq (TStr h))))
    = Some [("text"%string, h); ("v"%string, u "$h")]) as H.
  { change (check_text _) with (u "check if request_intent(" ++ u "$" ++ (104 :: []) ++ (41 :: u ", ")
       ++ (u "$h" ++ u " == " ++ quote_string h)).
    change (u "), ") with (41 :: u ", "). unfold re_match.
    rewrite m_prefix, m_back, m_lit by done. apply m_str. by apply hex_clean. }
  rewrite (try_hit _ _ _ _ _ H). build. unfold built, mk_IntentBound, check_hex64.
  cbn [Caveat_valid] in Hv. by rewrite Hv.
Qed.

(** The argument shapes: the key, the variable, then the test. *)
Lemma arg_head_skip path tail name l r shapes :
  clean path = true →
  starts_with l (41 :: tail) = false →
  (∃ l', l = 41 :: l') →
  try_shapes ((name, Lit (u "reject if arg(") ⋅ _PATH ⋅ Lit (u ", ") ⋅ v_ ⋅ Lit l ⋅ r) :: shapes)
    (u "reject if arg(" ++ quote_string path ++ u ", " ++ u "$" ++ (118 :: []) ++ 41 :: tail)
  = try_shapes shapes
    (u "reject if arg(" ++ quote_string path ++ u ", " ++ u "$" ++ (118 :: []) ++ 41 :: tail).
Proof.
  intros Hp Hl [l' ->]. apply try_miss. unfold re_match, _PATH. rewrite m_keyed by done.
  by apply m_lit_ne.
Qed.

Lemma arg_match path tail l r :
  clean path = true →
  re_match (Lit (u "reject if arg(") ⋅ _PATH ⋅ Lit (u ", ") ⋅ v_ ⋅ Lit (41 :: l) ⋅ r)
    (u "reject if arg(" ++ quote_string path ++ u ", " ++ u "$" ++ (118 :: []) ++ 41 :: l ++ tail)
  = match_re r tail [("v"%string, u "$v"); ("path"%string, path)] found_env.
Proof.
  intros Hp. unfold re_match, _PATH. rewrite m_keyed by done.
  change (41 :: l ++ tail) with ((41 :: l) ++ tail). by rewrite m_lit.
Qed.

Definition arg_text (path tail : pystr) : pystr :=
  u "reject if arg(" ++ quote_string path ++ u ", " ++ u "$" ++ (118 :: []) ++ 41 :: u ", " ++ tail.

Lemma check_text_arg path g :
  check_text (Clause true "arg" (Some path) "v" g)
  = arg_text path (match g with
      | GContains neg X =>
          (if neg then u "!" else []) ++ _set_literal X ++ u ".contains(" ++ u "$v" ++ u ")"
      | GCompare op t => u "$v" ++ u " " ++ cmp_text op ++ u " " ++ render_term t
      end).
Proof.
  unfold check_text, arg_text. cbn [cl_reject cl_pred cl_key cl_var cl_guard].
  rewrite <- app_assoc. destruct g; reflexivity.
Qed.

Lemma built_arg path op v :
  Caveat_valid (ArgPredicate path op v) = true →
  built (mk_ArgPredicate path op v) = Ok (MCaveat (ArgPredicate path op v)).
Proof.
  cbn [Caveat_valid]. intros [Hp Ho]%andb_true_iff. apply negb_true_iff in Hp.
  unfold built, mk_ArgPredicate. rewrite Hp. cbn [raise_if mbind res_bind]. by rewrite Ho.
Qed.

Lemma reads_arg_set neg path X :
  clean path = true → forallb clean_member (elements X) = true →
  Caveat_valid (ArgPredicate path (if neg : bool then IN else NOT_IN) (CSet X)) = true →
  reads (check_text (Clause true "arg" (Some path) "v" (GContains neg X)))
    (ArgPredicate path (if neg then IN else NOT_IN) (CSet X)).
Proof.
  intros Hp HX Hv. unfold reads, _clause, _CLAUSE_RES. rewrite check_text_arg. unfold arg_text.
  skip. destruct neg.
  - assert (re_match (Lit (u "reject if arg(") ⋅ _PATH ⋅ Lit (u ", ") ⋅ v_ ⋅ Lit (u "), !") ⋅ contains_v)
      (u "reject if arg(" ++ quote_string path ++ u ", " ++ u "$" ++ (118 :: []) ++ 41 :: u ", "
       ++ u "!" ++ _set_literal X ++ u ".contains(" ++ u "$v" ++ u ")")
      = Some [("members"%string, py_join (u ", ") (quote_string <$> py_sorted (elements X)));
              ("v"%string, u "$v"); ("path"%string, path)]) as H.
    { change (u "), !") with (41 :: u ", !").
      change (u ", " ++ u "!" ++ _set_literal X ++ u ".contains(" ++ u "$v" ++ u ")")
        with (u ", !" ++ _set_literal X ++ u ".contains(" ++ u "$v" ++ u ")").
      rewrite arg_match by done. by apply m_contains. }
    rewrite (try_hit _ _ _ _ _ H). build. rewrite members_literal by done. by apply built_arg.
  - rewrite app_nil_l. unfold _set_literal at 1.
    rewrite (arg_head_skip path); [|done|reflexivity|by eexists]. fold (_set_literal X).
    assert (re_match (Lit (u "reject if arg(") ⋅ _PATH ⋅ Lit (u ", ") ⋅ v_ ⋅ Lit (u "), ") ⋅ contains_v)
      (u "reject if arg(" ++ quote_string path ++ u ", " ++ u "$" ++ (118 :: []) ++ 41 :: u ", "
       ++ _set_literal X ++ u ".contains(" ++ u "$v" ++ u ")")
      = Some [("members"%string, py_join (u ", ") (quote_string <$> py_sorted (elements X)));
              ("v"%string, u "$v"); ("path"%string, path)]) as H.
    { change (u "), ") with (41 :: u ", "). rewrite arg_match by done. by apply m_contains. }
    rewrite (try_hit _ _ _ _ _ H). build. rewrite members_literal by done. by apply built_arg.
Qed.

Lemma denegated op : is_membership op = false → _DENEGATED (cmp_text (negated_cmp op)) = Some op.
Proof. by destruct op. Qed.

(** Up to the operator: neither set shape matches a comparison. *)
Lemma skip_set_shapes path op rest shapes :
  clean path = true →
  let s := arg_text path (u "$v" ++ u " " ++ cmp_text op ++ u " " ++ rest) in
  try_shapes
    ((arg_in, (Lit (u "reject if arg(") ⋅ _PATH ⋅ Lit (u ", ") ⋅ v_ ⋅ Lit (u "), !") ⋅ contains_v)%re)
     :: (arg_not_in, (Lit (u "reject if arg(") ⋅ _PATH ⋅ Lit (u ", ") ⋅ v_ ⋅ Lit (u "), ")
                      ⋅ contains_v)%re) :: shapes) s
  = try_shapes shapes s.
Proof.
  intros Hp s. unfold s, arg_text. rewrite (arg_head_skip path); [|done|reflexivity|by eexists].
  apply try_miss. change (u "), ") with (41 :: u ", "). rewrite arg_match by done.
  unfold contains_v, _SET. cbn [match_re]. by rewrite strip_prefix_starts.
Qed.

Lemma match_comparison path op rest r :
  clean path = true →
  re_match (Lit (u "reject if arg(") ⋅ _PATH ⋅ Lit (u ", ") ⋅ v_ ⋅ Lit (u "), ")
                 ⋅ Back "v" ⋅ Lit (u " ") ⋅ _OP ⋅ Lit (u " ") ⋅ r)
    (arg_text path (u "$v" ++ u " " ++ cmp_text op ++ u " " ++ rest))
  = match_re r rest [("op"%string, cmp_text op); ("v"%string, u "$v"); ("path"%string, path)] found_env.
Proof.
  intros Hp. unfold arg_text. change (u "), ") with (41 :: u ", "). rewrite arg_match by done.
  rewrite m_back, m_lit by done. apply m_op.
Qed.

Lemma reads_arg_number path op n :
  clean path = true → is_membership op = false → path ≠ [] → Z.abs n < 10 ^ 24 →
  reads (check_text (Clause true "arg" (Some path) "v" (GCompare (negated_cmp op) (TInt n))))
    (ArgPredicate path op (CNum (Dec n (-4)))).
Proof.
  intros Hp Ho Hne Hn. unfold reads, _clause, _CLAUSE_RES. rewrite check_text_arg.
  cbn [render_term]. unfold arg_text. skip. fold (arg_text path (u "$v" ++ u " " ++ cmp_text (negated_cmp op) ++ u " " ++ py_str_int n)).
  rewrite skip_set_shapes by done. erewrite try_hit.
  2: { rewrite match_comparison by done. apply m_num. }
  build. rewrite denegated, _unscale_int by done. cbn [mbind res_bind].
  apply built_arg. cbn [Caveat_valid operator_matches_value].
  by rewrite Ho, bool_decide_eq_false_2.
Qed.

Lemma reads_arg_string path op x :
  clean path = true → clean x = true → op = EQ ∨ op = NE → path ≠ [] →
  reads (check_text (Clause true "arg" (Some path) "v" (GCompare (negated_cmp op) (TStr x))))
    (ArgPredicate path op (CStr x)).
Proof.
  intros Hp Hx Ho Hne. unfold reads, _clause, _CLAUSE_RES. rewrite check_text_arg.
  cbn [render_term]. unfold arg_text. skip.
  fold (arg_text path (u "$v" ++ u " " ++ cmp_text (negated_cmp op) ++ u " " ++ quote_string x)).
  rewrite skip_set_shapes by done.
  assert (is_membership op = false) as Hm by by destruct Ho as [-> | ->].
  rewrite try_miss by by rewrite match_comparison.
  erewrite try_hit.
  2: { rewrite match_comparison by done. by apply m_str. }
  build. rewrite denegated by done.
  destruct Ho as [-> | ->]; cbn [negb bool_decide orb]; apply built_arg;
    cbn [Caveat_valid operator_matches_value]; by rewrite bool_decide_eq_false_2.
Qed.

Lemma clauses_read c cls :
  readable c = true → compile c = Ok cls →
  Forall2 (λ cl a, reads (check_text cl) a) cls (read_atoms c).
Proof.
  intros Hr Hc. pose proof Hr as [Hv Hk]%andb_true_iff.
  destruct c as [X|d v|nb na|X|X|path op v|n|h|X]; cbn [compile] in Hc; cbn [read_atoms].
  - inv_ok. repeat constructor. by apply reads_scope.
  - cbn [Caveat_valid] in Hv. zify_bool. rewrite scale_units in Hc by done. inv_ok.
    repeat constructor. by apply reads_ceiling.
  - inv_ok. apply andb_true_iff in Hk as [Hb Ha]. apply Forall2_app.
    + destruct nb as [t|]; repeat constructor. by apply (reads_window false).
    + destruct na as [t|]; repeat constructor. by apply (reads_window true).
  - inv_ok. repeat constructor. by apply (reads_tool false).
  - inv_ok. repeat constructor. by apply (reads_tool true).
  - apply andb_true_iff in Hk as [Hp Hk]. pose proof Hv as Hv'. cbn [Caveat_valid] in Hv'.
    apply andb_true_iff in Hv' as [Hne Hm]. apply negb_true_iff, bool_decide_eq_false in Hne.
    destruct v as [b|s|Y].
    + assert (is_membership op = false) as Ho by by apply negb_true_iff.
      unfold units_ok in Hk. apply andb_true_iff in Hk as [Hk Hu].
      destruct (dec_units b) as [n|] eqn:En; [|done]. zify_bool.
      assert (cls = [Clause true "arg" (Some path) "v" (GCompare (negated_cmp op) (TInt n))]) as ->.
      { assert (term_of_scalar (SNum b) = Ok (TInt n)) as Et
          by (cbn [term_of_scalar]; rewrite (scale_of_units b n); done || lia).
        destruct op; try done; cbn [scalar_of mbind res_bind] in Hc; rewrite Et in Hc; by inv_ok. }
      repeat constructor. unfold at_four_places. rewrite En. by apply reads_arg_number.
    + apply andb_true_iff in Hk as [Hs Ho].
      assert (op = EQ ∨ op = NE) as Ho'.
      { apply orb_true_iff in Ho as [Ho|Ho]; apply bool_decide_eq_true in Ho; auto. }
      assert (cls = [Clause true "arg" (Some path) "v" (GCompare (negated_cmp op) (TStr s))]) as ->
        by (destruct Ho' as [-> | ->]; by injection Hc as <-).
      repeat constructor. by apply reads_arg_string.
    + cbn [operator_matches_value] in Hm. destruct op; try done; cbn in Hc; inv_ok;
        repeat constructor; [by apply (reads_arg_set true)|by apply (reads_arg_set false)].
  - inv_ok. repeat constructor. by apply reads_depth.
  - inv_ok. repeat constructor. by apply reads_intent.
  - inv_ok. constructor.
Qed.

(** ** Facts *)
Lemma star_any {A} (t : pystr) (k : pystr → option A) x :
  k [] = None → k [41] = Some x → star_re any_char (t ++ [41]) k = Some x.
Proof.
  intros H1 H2. induction t as [|c t IH]; cbn [app star_re any_char].
  - by rewrite H1.
  - by rewrite IH.
Qed.

Lemma fact_match p ps t :
  pred_start p = true → forallb az09_ ps = true →
  re_match _FACT_RE ((p :: ps) ++ u "(" ++ t ++ u ")") = Some [("2"%string, t); ("1"%string, p :: ps)].
Proof.
  intros Hp Hps. unfold re_match, _FACT_RE. cbn [match_re app]. rewrite Hp.
  change (u "(" ++ t ++ u ")") with (40 :: t ++ [41]).
  rewrite star_re_delim; [|done|done|].
  2: { intros x s Hx. change (u "(") with [40]. cbn [strip_prefix].
       destruct (Z.eqb_spec 40 x) as [<-|]; done. }
  change (u "(") with [40]. cbn [strip_prefix Z.eqb Pos.eqb].
  change (p :: ps ++ 40 :: t ++ [41]) with ((p :: ps) ++ 40 :: t ++ [41]). rewrite take_diff.
  rewrite (star_any _ _ [("2"%string, t); ("1"%string, p :: ps)]); [done|done|].
  change (u ")") with [41]. cbn [strip_prefix Z.eqb Pos.eqb at_end length].
  rewrite length_app. cbn [length]. replace (length t + 1 - 1)%nat with (length t) by lia.
  by rewrite take_app_length.
Qed.

Lemma read_identity_string (p : string) v r :
  u p ∈ _IDENTITY_STRING_FACTS → clean v = true →
  read_fact r (u p ++ u "(" ++ quote_string v ++ u ")")
  = mkReading (rd_caveats r) (rd_unrecognized r) (rd_approval r) (add_fact (u p) v (rd_facts r)).
Proof.
  intros Hp Hv. unfold read_fact.
  assert (re_match _FACT_RE (u p ++ u "(" ++ quote_string v ++ u ")")
          = Some [("2"%string, quote_string v); ("1"%string, u p)]) as ->.
  { unfold _IDENTITY_STRING_FACTS in Hp.
    repeat (apply elem_of_cons in Hp as [->|Hp]; [by apply fact_match|]). by apply elem_of_nil in Hp. }
  cbn [group String.eqb Ascii.eqb Bool.eqb from_option id].
  rewrite py_strip_id by apply quote_trimmed. rewrite member_quote by done.
  rewrite (bool_decide_eq_true_2 (u p ∈ _IDENTITY_STRING_FACTS)) by done. cbn [orb].
  assert (u p ∉ _AUTHORITY_FACTS ∧ u p ≠ u "requires_approval") as [Ha Hr].
  { unfold _IDENTITY_STRING_FACTS in Hp.
    repeat (apply elem_of_cons in Hp as [->|Hp]; [split; [|done];
      apply (bool_decide_unpack (_ ∉ _AUTHORITY_FACTS)); vm_compute; exact I|]). by apply elem_of_nil in Hp. }
  by rewrite !bool_decide_eq_false_2.
Qed.

Lemma read_approval s r :
  clean s = true →
  read_fact r (approval_text s)
  = mkReading (rd_caveats r) (rd_unrecognized r) ({[s]} ∪ rd_approval r) (rd_facts r).
Proof.
  intros Hs. unfold read_fact, approval_text.
  change (u "requires_approval(" ++ quote_string s ++ u ")")
    with (u "requires_approval" ++ u "(" ++ quote_string s ++ u ")").
  assert (re_match _FACT_RE (u "requires_approval" ++ u "(" ++ quote_string s ++ u ")")
          = Some [("2"%string, quote_string s); ("1"%string, u "requires_approval")]) as ->
    by by apply fact_match.
  cbn [group String.eqb Ascii.eqb Bool.eqb from_option id].
  rewrite py_strip_id by apply quote_trimmed. rewrite member_quote by done.
  reflexivity.
Qed.

Lemma read_depth_fact n r :
  read_fact r (u "declared_depth" ++ u "(" ++ py_str_int n ++ u ")")
  = mkReading (rd_caveats r) (rd_unrecognized r) (rd_approval r)
      (add_fact (u "declared_depth") (py_str_int n) (rd_facts r)).
Proof.
  unfold read_fact.
  assert (re_match _FACT_RE (u "declared_depth" ++ u "(" ++ py_str_int n ++ u ")")
          = Some [("2"%string, py_str_int n); ("1"%string, u "declared_depth")]) as ->
    by by apply fact_match.
  cbn [group String.eqb Ascii.eqb Bool.eqb from_option id].
  rewrite py_strip_id by apply int_trimmed. reflexivity.
Qed.
