(* ===== verification/RecognizerSpec.v ===== *)
(** * The recognizer reads back what the compiler writes

    A block [attenuate] appends reads back as its identity and caveats, along the
    whole chain; nothing is dropped from [unrecognized] below the statement cap, and
    an ambiguous identity fact is refused. *)
From S2P Require Import Prelude PyText Errors PyNum PyTime PyRe PyUuid Models Caveats Datalogic Tokens Attribution Attenuation Recognizer Layout Shapes.

(** ** Blocks *)
Definition approval_of (c : Caveat) : gset pystr :=
  match c with RequiresApproval X => X | _ => ∅ end.
Definition approvals (cs : list Caveat) : gset pystr := ⋃ (approval_of <$> cs).
Definition readback (cs : list Caveat) : list Caveat :=
  (cs ≫= read_atoms) ++
  (if bool_decide (approvals cs = ∅) then [] else [RequiresApproval (approvals cs)]).

Definition short (s : pystr) : Prop := (length s <= MAX_STATEMENT_LENGTH)%nat.

Lemma read_short s r : short s → read_statement r s =
  if is_clause s then
    m ← _clause s;
    Ok (match m with
        | MRefused => unread r s
        | MRecognized => r
        | MCaveat c => mkReading (rd_caveats r ++ [c]) (rd_unrecognized r) (rd_approval r)
                         (rd_facts r)
        end)
  else Ok (read_fact r s).
Proof. intros Hs. unfold read_statement. by rewrite (proj2 (Nat.ltb_ge _ _)). Qed.

Lemma read_all_app r l k : read_all r (l ++ k) = (r ← read_all r l; read_all r k).
Proof.
  revert r. induction l as [|s l IH]; intros r; [done|]. cbn [app read_all].
  destruct (read_statement r s); [apply IH|done].
Qed.

Lemma read_clauses r cls cs :
  Forall2 (λ cl a, reads (check_text cl) a) cls cs → Forall short (check_text <$> cls) →
  read_all r (check_text <$> cls)
  = Ok (mkReading (rd_caveats r ++ cs) (rd_unrecognized r) (rd_approval r) (rd_facts r)).
Proof.
  intros Hf. revert r. induction Hf as [|cl a cls cs Ha Hf IH]; intros r Hs.
  - cbn. rewrite app_nil_r. by destruct r.
  - cbn [fmap list_fmap] in Hs. apply Forall_cons in Hs as [Hcl Hs].
    cbn [fmap list_fmap read_all]. rewrite read_short by done.
    assert (is_clause (check_text cl) = true) as ->.
    { unfold check_text. by destruct (cl_reject cl). }
    rewrite Ha. cbn [mbind res_bind]. rewrite IH by done. cbn. by rewrite <- app_assoc.
Qed.

Lemma read_approvals r l :
  (∀ s, s ∈ l → clean s = true) → Forall short (approval_text <$> l) →
  read_all r (approval_text <$> l)
  = Ok (mkReading (rd_caveats r) (rd_unrecognized r) (list_to_set l ∪ rd_approval r) (rd_facts r)).
Proof.
  revert r. induction l as [|s l IH]; intros r Hl Hs.
  - cbn. rewrite (left_id_L ∅ (∪)). by destruct r.
  - cbn [fmap list_fmap] in Hs. apply Forall_cons in Hs as [Hcl Hs].
    cbn [fmap list_fmap read_all]. rewrite read_short by done.
    assert (is_clause (approval_text s) = false) as -> by reflexivity.
    rewrite read_approval by (apply Hl; left). cbn [mbind res_bind].
    rewrite IH; [|intros; apply Hl; by right|done]. cbn. do 2 f_equal. set_solver.
Qed.

Lemma read_caveat r c t :
  readable c = true → to_datalog c = Ok t → Forall short (statements_of c) →
  read_all r (statements_of c)
  = Ok (mkReading (rd_caveats r ++ read_atoms c) (rd_unrecognized r)
          (approval_of c ∪ rd_approval r) (rd_facts r)).
Proof.
  intros Hr Ht Hs. destruct (decide (caveat_kind_of c = K_REQUIRES_APPROVAL)) as [Hk|Hk].
  - destruct c as [| | | | | | | |X]; try done. cbn [statements_of read_atoms approval_of] in *.
    rewrite read_approvals; [| |done].
    + rewrite app_nil_r. do 2 f_equal. f_equal. apply set_eq. intros s.
      by rewrite elem_of_list_to_set, elem_of_py_sorted, elem_of_elements.
    + intros s Hin. rewrite elem_of_py_sorted in Hin. unfold readable in Hr.
      cbn [Caveat_valid andb] in Hr. rewrite forallb_forall in Hr. by apply Hr, list_elem_of_In.
  - rewrite to_datalog_compile in Ht by (intros X ->; by apply Hk).
    apply bind_Ok_inv in Ht as (cls & Hc & _).
    assert (statements_of c = check_text <$> cls ∧ approval_of c = ∅) as [E ->].
    { destruct c; cbn [statements_of approval_of]; try (by rewrite Hc). done. }
    rewrite E in Hs |- *. rewrite (read_clauses _ _ (read_atoms c)) by (done || by apply clauses_read).
    by rewrite (left_id_L ∅ (∪)).
Qed.

Lemma read_block r cs body :
  forallb readable cs = true → block_datalog cs = Ok body →
  Forall short (cs ≫= statements_of) →
  read_all r (cs ≫= statements_of)
  = Ok (mkReading (rd_caveats r ++ (cs ≫= read_atoms)) (rd_unrecognized r)
          (approvals cs ∪ rd_approval r) (rd_facts r)).
Proof.
  intros Hr Hb. unfold block_datalog in Hb. apply bind_Ok_inv in Hb as (ts & Hts & _).
  apply res_map_Forall2 in Hts. revert r.
  induction Hts as [|c t cs ts Ht Hts IH]; intros r Hs.
  - cbn. rewrite app_nil_r, (left_id_L ∅ (∪)). by destruct r.
  - cbn [forallb] in Hr. apply andb_true_iff in Hr as [Hc Hr].
    cbn [mbind list_bind] in Hs |- *. apply Forall_app in Hs as [Hs1 Hs2].
    rewrite read_all_app, (read_caveat _ _ t) by done. cbn [mbind res_bind].
    rewrite IH by done. cbn [rd_caveats rd_unrecognized rd_approval rd_facts].
    rewrite <- app_assoc. do 2 f_equal. unfold approvals. cbn. set_solver.
Qed.

(** Two decimals of one value compare alike. *)
Lemma dec_compare_same a b c : dec_compare a b = Eq → dec_compare c a = dec_compare c b.
Proof.
  set (m := dec_common a b c). unfold dec_common in m. intros H.
  rewrite (dec_compare_scale a b m) in H by lia. apply Z.compare_eq_iff in H.
  rewrite !(dec_compare_scale c _ m) by lia. by rewrite H.
Qed.

Lemma four_places_same d : units_ok d = true → dec_compare d (at_four_places d) = Eq.
Proof.
  unfold units_ok, at_four_places. intros [Hd Hu]%andb_true_iff. destruct (dec_units d) as [n|] eqn:E; [|done].
  destruct d as [c e]. unfold dec_units in E. cbn [dexp dcoef] in E. cbn [default].
  unfold dec_compare. cbn [dexp dcoef]. apply Z.compare_eq_iff.
  destruct (Z.leb_spec 0 (e + 4)).
  - injection E as <-. rewrite Z.min_r by lia. rewrite Z.sub_diag, Z.pow_0_r, Z.mul_1_r.
    by replace (e - -4) with (e + 4) by lia.
  - destruct (Z.eqb_spec (c mod 10 ^ (- (e + 4))) 0) as [Hm|]; [|done]. injection E as <-.
    rewrite Z.min_l by lia. rewrite Z.sub_diag, Z.pow_0_r, Z.mul_1_r.
    replace (-4 - e) with (- (e + 4)) by lia. rewrite Z.mul_comm.
    apply Z.div_exact; [|done]. apply Z.pow_nonzero; lia.
Qed.

Lemma compare_same a op d d' :
  dec_compare d d' = Eq → _compare a op (SNum d) = _compare a op (SNum d').
Proof.
  intros H. assert (∀ x, pydec_compare x (DFin d) = pydec_compare x (DFin d')) as Hp.
  { intros [x|n|]; [|done|done]. cbn. by rewrite (dec_compare_same _ _ _ H). }
  assert (scalar_eqb a (SNum d) = scalar_eqb a (SNum d')) as Heq.
  { destruct a as [x|x]; [|done]. cbn. unfold dec_eqb. by rewrite (dec_compare_same _ _ _ H). }
  destruct op; cbn [_compare]; rewrite ?Heq; try done;
    (destruct (decimal_of_scalar a) as [x|]; [|done]); cbn; by rewrite Hp.
Qed.

Definition whole_seconds (c : Caveat) : bool :=
  match c with
  | TimeWindow nb na =>
      match nb with Some t => t mod 1000000 =? 0 | None => true end
      && match na with Some t => t mod 1000000 =? 0 | None => true end
  | _ => true
  end.

Lemma whole_id t : (t mod 1000000 =? 0) = true → whole t = t.
Proof. intros H%Z.eqb_eq. unfold whole. pose proof (Z.div_mod t 1000000 ltac:(lia)). lia. Qed.

(** A caveat and what it reads back as allow the same requests; the approval scopes
    are the one kind gathered per block. *)
Lemma read_atoms_allow c ctx :
  readable c = true → whole_seconds c = true →
  allows c ctx
  = forallb (λ a, allows a ctx) (read_atoms c) && negb (bool_decide (operation ctx ∈ approval_of c)).
Proof.
  intros [Hv Hr]%andb_true_iff Hw.
  destruct c as [X|d v|nb na|X|X|path op v|n|h|X]; cbn [read_atoms approval_of].
  9: { cbn [forallb andb]. unfold allows. cbn [evaluate]. by destruct (bool_decide _). }
  all: rewrite (bool_decide_eq_false_2 (_ ∈ ∅)) by set_solver; rewrite andb_true_r.
  3: { cbn [whole_seconds] in Hw. apply andb_true_iff in Hw as [Hb Ha].
       unfold allows. cbn [evaluate]. rewrite forallb_app.
       destruct nb as [nb|], na as [na|]; rewrite ?whole_id by done; cbn [forallb evaluate];
         rewrite ?andb_true_r; try done.
       by destruct (ctx_now ctx <? nb), (na <=? ctx_now ctx). }
  5: { destruct v as [d|s|Y]; cbn [forallb]; rewrite andb_true_r; try done.
       apply andb_true_iff in Hr as [_ Hu]. rewrite !allows_arg.
       destruct (ctx_args ctx !! path) as [a|]; [|done].
       pose proof (compare_same (scalar_of_arg a) op _ _ (four_places_same d Hu)) as E.
       destruct op; cbn [scalar_of set_of mbind res_bind]; try done; by rewrite E. }
  all: cbn [forallb]; by rewrite andb_true_r.
Qed.

Lemma elem_of_approvals s cs : s ∈ approvals cs ↔ ∃ c, c ∈ cs ∧ s ∈ approval_of c.
Proof.
  unfold approvals. rewrite elem_of_union_list. split.
  - intros (X & (c & -> & Hc)%list_elem_of_fmap & Hs). eauto.
  - intros (c & Hc & Hs). exists (approval_of c). split; [|done]. by apply list_elem_of_fmap_2.
Qed.

Lemma readback_allows cs ctx :
  forallb readable cs = true → forallb whole_seconds cs = true →
  forallb (λ c, allows c ctx) (readback cs) = forallb (λ c, allows c ctx) cs.
Proof.
  intros Hr Hw. unfold readback. rewrite forallb_app.
  assert (forallb (λ c, allows c ctx) cs
    = forallb (λ a, allows a ctx) (cs ≫= read_atoms)
      && forallb (λ c, negb (bool_decide (operation ctx ∈ approval_of c))) cs) as ->.
  { induction cs as [|c cs IH]; [done|]. cbn [forallb] in Hr, Hw |- *.
    apply andb_true_iff in Hr as [Hc Hr]. apply andb_true_iff in Hw as [Hc' Hw].
    cbn [mbind list_bind]. rewrite forallb_app, (read_atoms_allow c), IH by done.
    destruct (forallb _ (read_atoms c)), (negb _); cbn [andb]; rewrite ?andb_false_r; done. }
  f_equal. destruct (bool_decide_reflect (operation ctx ∈ approvals cs)) as [Hin|Hin].
  - rewrite bool_decide_eq_false_2 by set_solver. cbn [forallb]. rewrite andb_true_r.
    unfold allows. cbn [evaluate]. rewrite bool_decide_eq_true_2 by done. cbn.
    apply elem_of_approvals in Hin as (c & Hc & Hs). symmetry. apply not_true_iff_false.
    intros H. rewrite forallb_forall in H. apply list_elem_of_In, H in Hc.
    by rewrite bool_decide_eq_true_2 in Hc.
  - assert (forallb (λ c, negb (bool_decide (operation ctx ∈ approval_of c))) cs = true) as ->.
    { apply forallb_forall. intros c Hc%list_elem_of_In. apply negb_true_iff, bool_decide_eq_false.
      intros Hs. apply Hin, elem_of_approvals. eauto. }
    case_bool_decide; [done|]. cbn [forallb]. rewrite andb_true_r.
    unfold allows. cbn [evaluate]. by rewrite bool_decide_eq_false_2.
Qed.

(** ** The round trip *)
Lemma label_clean v : validate_label v = Ok v → clean v = true.
Proof.
  unfold validate_label. intros H. inv_ok. unfold clean. apply forallb_forall. intros c Hc.
  match goal with H : existsb _ _ = false |- _ => rename H into He end.
  apply not_false_iff_true. intros Hx.
  enough (existsb unsafe_label_char v = true) by congruence.
  apply existsb_exists. exists c. split; [done|]. unfold unsafe_label_char.
  apply andb_false_iff in Hx as [Hx|Hx]; apply negb_false_iff in Hx; rewrite Hx;
    [done|by rewrite orb_true_r].
Qed.

Section roundtrip.
Context `{BiscuitLib}.

Definition identity_statements (parent : VerifiedToken) (agent_id role : pystr) : list pystr :=
  [u "agent" ++ u "(" ++ quote_string agent_id ++ u ")";
   u "role" ++ u "(" ++ quote_string role ++ u ")";
   u "declared_depth" ++ u "(" ++ py_str_int (vt_depth parent + 1) ++ u ")"].

(** What [attenuate] appends. *)
Definition appended (parent : VerifiedToken) (agent_id role body : pystr) : pystr :=
  py_join [newline] (if bool_decide (body = []) then identity_lines parent agent_id role
                     else identity_lines parent agent_id role ++ [body]).

Definition block_statements (parent : VerifiedToken) (agent_id role : pystr) (cs : list Caveat)
    : list pystr := identity_statements parent agent_id role ++ (cs ≫= statements_of).

Lemma identity_statement p t : Q p → head p = Some 97 ∨ head p = Some 114 ∨ head p = Some 100 →
  Q t → statement (p ++ u "(" ++ t ++ u ")").
Proof.
  intros Hp Hh Ht. split.
  - apply Q_app; [done|]. apply Q_app; [done|]. by apply Q_app.
  - destruct p as [|c p]; [naive_solver|]. cbn [app]. apply tight_trimmed.
    + by destruct Hh as [[= ->]|[[= ->]|[= ->]]].
    + change (c :: p ++ u "(" ++ t ++ u ")") with ((c :: p) ++ u "(" ++ t ++ u ")").
      do 3 apply tight_app. by exists [], 41.
Qed.

Lemma appended_layout parent agent_id role cs body :
  clean agent_id = true → clean role = true →
  forallb readable cs = true → block_datalog cs = Ok body →
  layout (appended parent agent_id role body) (block_statements parent agent_id role cs).
Proof.
  intros Ha Hro Hr Hb. pose proof (block_layout _ _ Hr Hb) as Hl.
  assert (identity_lines parent agent_id role
          = (λ s, s ++ u ";") <$> identity_statements parent agent_id role) as E.
  { unfold identity_lines, identity_statements, string_fact. cbn [fmap list_fmap].
    rewrite <- !app_assoc. reflexivity. }
  assert (Forall2 layout (identity_lines parent agent_id role)
            ((λ s, [s]) <$> identity_statements parent agent_id role)) as Hid.
  { rewrite E. apply Forall2_fmap, Forall_Forall2_diag. unfold identity_statements.
    repeat constructor; apply layout_one, identity_statement; auto using Q_quote, Q_int; done. }
  assert (concat ((λ s, [s]) <$> identity_statements parent agent_id role)
          = identity_statements parent agent_id role) as Ec by reflexivity.
  unfold appended, block_statements. case_bool_decide as Hbody.
  - subst body. apply layout_empty in Hl as ->. rewrite app_nil_r.
    apply layout_join in Hid. by rewrite Ec in Hid.
  - assert (Forall2 layout (identity_lines parent agent_id role ++ [body])
      (((λ s, [s]) <$> identity_statements parent agent_id role) ++ [cs ≫= statements_of])) as Hall
      by (apply Forall2_app; [done|]; by repeat constructor).
    apply layout_join in Hall. rewrite concat_app, Ec in Hall.
    change (concat [cs ≫= statements_of]) with ((cs ≫= statements_of) ++ []) in Hall.
    by rewrite app_nil_r in Hall.
Qed.

Lemma read_identity r parent agent_id role :
  clean agent_id = true → clean role = true →
  Forall short (identity_statements parent agent_id role) →
  read_all r (identity_statements parent agent_id role)
  = Ok (mkReading (rd_caveats r) (rd_unrecognized r) (rd_approval r)
          (add_fact (u "declared_depth") (py_str_int (vt_depth parent + 1))
             (add_fact (u "role") role (add_fact (u "agent") agent_id (rd_facts r))))).
Proof.
  intros Ha Hr Hs. unfold identity_statements in *.
  apply Forall_cons in Hs as [H1 Hs]. apply Forall_cons in Hs as [H2 Hs].
  apply Forall_cons in Hs as [H3 _]. cbn [read_all].
  rewrite read_short by done.
  change (is_clause (u "agent" ++ u "(" ++ quote_string agent_id ++ u ")")) with false. cbv iota.
  rewrite read_identity_string by (done || by left). cbn [mbind res_bind].
  rewrite read_short by done.
  change (is_clause (u "role" ++ u "(" ++ quote_string role ++ u ")")) with false. cbv iota.
  rewrite read_identity_string by (done || by right; left). cbn [mbind res_bind].
  rewrite read_short by done.
  change (is_clause (u "declared_depth" ++ u "(" ++ py_str_int (vt_depth parent + 1) ++ u ")"))
    with false. cbv iota.
  by rewrite read_depth_fact.
Qed.

Lemma identity_facts a r n :
  validate_label a = Ok a → validate_label r = Ok r → 0 <= n →
  (length (py_str_int n) <= MAX_STR_DIGITS)%nat →
  _identity_from (add_fact (u "declared_depth") (py_str_int n)
                    (add_fact (u "role") r (add_fact (u "agent") a ∅)))
  = (mkBlockIdentity (Some a) (Some r) (Some n), []).
Proof.
  intros Ha Hr Hn Hl. pose proof (parse_int10_str n Hn Hl) as Hp. revert Hp.
  generalize (py_str_int n). clear Hl. intros d Hp. unfold _identity_from, one.
  set (m := add_fact _ d _).
  assert (m !! u "agent" = Some [a] ∧ m !! u "role" = Some [r] ∧ m !! u "declared_depth" = Some [d])
    as (-> & -> & ->) by (split_and!; vm_compute; reflexivity).
  cbn [from_option id app]. unfold label_field, _label. by rewrite Ha, Hr, Hp.
Qed.

(** The renderer groups facts ahead of checks, each group in order. *)
Definition facts_first (l : list pystr) : list pystr :=
  filter (λ s, is_clause s = false) l ++ filter (λ s, is_clause s = true) l.

(** A clause that reads as a caveat may trade places with a fact. *)
Lemma read_swap r s t c :
  short s → short t → is_clause s = true → reads s c → is_clause t = false →
  read_all r [s; t] = read_all r [t; s].
Proof.
  intros Hs Ht Hcs Hc Hct. cbn [read_all]. rewrite !(read_short s), Hcs, Hc by done.
  cbn [mbind res_bind]. rewrite !(read_short t), Hct by done. cbn [mbind res_bind].
  rewrite (read_short s), Hcs, Hc by done. cbn [mbind res_bind]. f_equal.
  unfold read_fact. destruct (re_match _ t) as [env|]; [|done].
  destruct (bool_decide _); [done|]. destruct (_ || _).
  - destruct (_ ≫= _) as [m|]; [|done]. by destruct (bool_decide _).
  - by destruct (bool_decide _).
Qed.

Lemma read_past_facts r s c l k :
  short s → is_clause s = true → reads s c →
  Forall short l → Forall (λ t, is_clause t = false) l →
  read_all r (s :: l ++ k) = read_all r (l ++ s :: k).
Proof.
  intros Hs Hcs Hc Hl. revert r. induction Hl as [|t l Ht Hl IH]; intros r Hf; [done|].
  apply Forall_cons in Hf as [Hct Hf].
  change (s :: (t :: l) ++ k) with ([s; t] ++ (l ++ k)). rewrite read_all_app.
  rewrite (read_swap r s t c), <- read_all_app by done.
  change ([t; s] ++ l ++ k) with (t :: s :: l ++ k). cbn [app read_all].
  destruct (read_statement r t) as [r'|]; [|done]. cbn [mbind res_bind]. by apply IH.
Qed.

Lemma read_facts_first r l :
  Forall short l → Forall (λ s, is_clause s = true → ∃ c, reads s c) l →
  read_all r (facts_first l) = read_all r l.
Proof.
  intros Hl Hc. revert r. induction l as [|s l IH]; intros r; [done|].
  apply Forall_cons in Hl as [Hs Hl]. apply Forall_cons in Hc as [Hsc Hc].
  unfold facts_first. destruct (is_clause s) eqn:E.
  - rewrite filter_cons_False, filter_cons_True by (rewrite E; done).
    destruct (Hsc eq_refl) as [c Hr]. rewrite <- (read_past_facts _ _ c); try done.
    + cbn [read_all]. destruct (read_statement r s) as [r'|]; [|done]. by apply IH.
    + apply Forall_forall. intros t [_ Ht]%list_elem_of_filter. by eapply Forall_forall in Hl.
    + apply Forall_forall. by intros t [? _]%list_elem_of_filter.
  - rewrite filter_cons_True, filter_cons_False by (rewrite E; done). cbn [app read_all].
    destruct (read_statement r s) as [r'|]; [|done]. by apply IH.
Qed.

Lemma statements_read c t s :
  readable c = true → to_datalog c = Ok t → s ∈ statements_of c → is_clause s = true →
  ∃ a, reads s a.
Proof.
  intros Hr Ht Hs Hcl. destruct (decide (caveat_kind_of c = K_REQUIRES_APPROVAL)) as [Hk|Hk].
  - destruct c as [| | | | | | | |X]; try done. cbn [statements_of] in Hs.
    apply list_elem_of_fmap in Hs as (x & -> & _). done.
  - rewrite to_datalog_compile in Ht by (intros X ->; by apply Hk).
    apply bind_Ok_inv in Ht as (cls & Hc & _).
    assert (statements_of c = check_text <$> cls) as E.
    { destruct c; cbn [statements_of]; try (by rewrite Hc). done. }
    rewrite E in Hs. apply list_elem_of_fmap in Hs as (cl & -> & Hcl').
    pose proof (clauses_read _ _ Hr Hc) as Hf.
    apply list_elem_of_lookup in Hcl' as [j Hj].
    destruct (Forall2_lookup_l _ _ _ _ _ Hf Hj) as (a & _ & Ha). eauto.
Qed.

Lemma block_statements_read cs body :
  forallb readable cs = true → block_datalog cs = Ok body →
  Forall (λ s, is_clause s = true → ∃ c, reads s c) (cs ≫= statements_of).
Proof.
  intros Hr Hb. unfold block_datalog in Hb. apply bind_Ok_inv in Hb as (ts & Hts & _).
  apply res_map_Forall2 in Hts. induction Hts as [|c t cs ts Ht Hts IH]; [constructor|].
  cbn [forallb] in Hr. apply andb_true_iff in Hr as [Hc Hr]. cbn [mbind list_bind].
  apply Forall_app. split; [|by apply IH]. apply Forall_forall. intros s Hs Hcl.
  by apply (statements_read c t).
Qed.

Lemma facts_first_Permutation l : facts_first l ≡ₚ l.
Proof.
  unfold facts_first. induction l as [|s l IH]; [done|]. destruct (is_clause s) eqn:E.
  - rewrite filter_cons_False, filter_cons_True by (rewrite E; done).
    rewrite <- Permutation_middle. by constructor.
  - rewrite filter_cons_True, filter_cons_False by (rewrite E; done). by constructor.
Qed.

Lemma parse_appended parent agent_id role cs body i src :
  validate_label agent_id = Ok agent_id → validate_label role = Ok role →
  0 <= vt_depth parent + 1 → forallb readable cs = true → block_datalog cs = Ok body →
  (length (block_statements parent agent_id role cs) <= MAX_STATEMENTS_PER_BLOCK)%nat →
  Forall short (block_statements parent agent_id role cs) →
  layout src (facts_first (block_statements parent agent_id role cs)) →
  parse_block_source src i
  = Ok (mkParsedBlock i (mkBlockIdentity (Some agent_id) (Some role) (Some (vt_depth parent + 1)))
          (readback cs) [] []).
Proof.
  intros Hva Hvr Hd Hr Hb Hlen Hshort Hl.
  pose proof (label_clean _ Hva) as Ha. pose proof (label_clean _ Hvr) as Hro.
  unfold parse_block_source. rewrite (layout_statements _ _ Hl) by by rewrite facts_first_Permutation.
  rewrite read_facts_first; [|done|].
  2: { apply Forall_app. split; [|by apply (block_statements_read _ body)].
       unfold identity_statements. repeat constructor; by intros ?. }
  unfold block_statements in Hshort |- *. apply Forall_app in Hshort as [Hs1 Hs2].
  rewrite read_all_app, read_identity by done. cbn [mbind res_bind].
  rewrite (read_block _ cs body) by done. cbn [mbind res_bind rd_caveats rd_unrecognized rd_approval rd_facts].
  rewrite (identity_facts agent_id role (vt_depth parent + 1)); [|done|done|done|].
  - rewrite app_nil_l, (right_id_L ∅ (∪)). done.
  - apply Forall_cons in Hs1 as [_ Hs1]. apply Forall_cons in Hs1 as [_ Hs1].
    apply Forall_cons in Hs1 as [Hs1 _]. unfold short in Hs1. rewrite !length_app in Hs1.
    unfold MAX_STATEMENT_LENGTH, MAX_STR_DIGITS in *. lia.
Qed.

(** C25: What [attenuate] writes, the recognizer reads back, within its limits.  For safe
    labels and readable caveats (their strings need no escaping), when the block has at most
    512 statements of at most 4096 characters each, the appended text is those statements,
    and any rendering of them with the facts grouped first parses to exactly the declared
    identity, depth and caveats, nothing unrecognized or ambiguous; and when the windows are
    on whole seconds the caveats read back allow exactly the requests the originals allow. *)
Theorem block_roundtrip parent agent_id role cs body i src :
  validate_label agent_id = Ok agent_id → validate_label role = Ok role →
  0 <= vt_depth parent + 1 → forallb readable cs = true → block_datalog cs = Ok body →
  (length (block_statements parent agent_id role cs) <= MAX_STATEMENTS_PER_BLOCK)%nat →
  Forall short (block_statements parent agent_id role cs) →
  layout (appended parent agent_id role body) (block_statements parent agent_id role cs)
  ∧ (layout src (facts_first (block_statements parent agent_id role cs)) →
     parse_block_source src i
     = Ok (mkParsedBlock i (mkBlockIdentity (Some agent_id) (Some role) (Some (vt_depth parent + 1)))
             (readback cs) [] []))
  ∧ (forallb whole_seconds cs = true →
     ∀ ctx, forallb (λ c, allows c ctx) (readback cs) = forallb (λ c, allows c ctx) cs).
Proof.
  intros Hva Hvr Hd Hr Hb Hlen Hshort. split_and!.
  - apply appended_layout; [by apply label_clean..|done|done].
  - by apply parse_appended with (body := body).
  - intros. by apply readback_allows.
Qed.
End roundtrip.

(** ** Nothing is dropped silently *)
Definition reading_le (r r' : reading) : Prop :=
  (∀ c, c ∈ rd_caveats r → c ∈ rd_caveats r')
  ∧ (∀ s, s ∈ rd_unrecognized r → s ∈ rd_unrecognized r')
  ∧ rd_approval r ⊆ rd_approval r'
  ∧ (∀ p, ∃ k, default [] (rd_facts r' !! p) = default [] (rd_facts r !! p) ++ k).

#[export] Instance reading_le_refl : Reflexive reading_le.
Proof. intros r. split_and!; [done..|]. intros p. exists []. by rewrite app_nil_r. Qed.

#[export] Instance reading_le_trans : Transitive reading_le.
Proof.
  intros a b c (H1 & H2 & H3 & H4) (K1 & K2 & K3 & K4). split_and!; [auto..|set_solver|].
  intros p. destruct (H4 p) as [k Hk], (K4 p) as [l Hl]. exists (k ++ l).
  by rewrite Hl, Hk, <- app_assoc.
Qed.

Lemma unread_le r s : reading_le r (unread r s).
Proof.
  split_and!; [done| |done|].
  - intros x Hx. apply elem_of_app. by left.
  - intros p. exists []. by rewrite app_nil_r.
Qed.

Lemma add_fact_le m p v q :
  ∃ k, default [] (add_fact p v m !! q) = default [] (m !! q) ++ k.
Proof.
  unfold add_fact. destruct (decide (p = q)) as [->|Hne].
  - rewrite lookup_insert_eq. by eexists.
  - rewrite lookup_insert_ne by done. exists []. by rewrite app_nil_r.
Qed.

Lemma read_fact_le r s : reading_le r (read_fact r s).
Proof.
  unfold read_fact. destruct (re_match _ s) as [env|]; [|apply unread_le].
  destruct (bool_decide _); [reflexivity|]. destruct (_ || _).
  - destruct (_ ≫= _) as [m|]; [|apply unread_le]. destruct (bool_decide _).
    + split_and!; [done|done|cbn; set_solver|]. intros p. exists []. by rewrite app_nil_r.
    + split_and!; [done|done|done|]. intros p. apply add_fact_le.
  - destruct (bool_decide _); [|apply unread_le].
    split_and!; [done|done|done|]. intros p. apply add_fact_le.
Qed.

Lemma read_statement_le r s r' : read_statement r s = Ok r' → reading_le r r'.
Proof.
  unfold read_statement. destruct (Nat.ltb _ _); [intros [= <-]; apply unread_le|].
  destruct (is_clause s); [|intros [= <-]; apply read_fact_le].
  intros (m & _ & [= <-])%bind_Ok_inv. destruct m as [c| |]; [|done|apply unread_le].
  split_and!; [|done|done|].
  - intros x Hx. apply elem_of_app. by left.
  - intros p. exists []. by rewrite app_nil_r.
Qed.

Lemma read_all_le r l r' : read_all r l = Ok r' → reading_le r r'.
Proof.
  revert r. induction l as [|s l IH]; intros r; cbn [read_all]; [by intros [= <-]|].
  intros (r1 & H1 & H2)%bind_Ok_inv. transitivity r1; [by eapply read_statement_le|by apply IH].
Qed.

Lemma read_all_at r l r' s :
  read_all r l = Ok r' → s ∈ l →
  ∃ r1 r2, read_statement r1 s = Ok r2 ∧ reading_le r2 r'.
Proof.
  revert r. induction l as [|x l IH]; intros r Hr Hs; [by apply elem_of_nil in Hs|].
  cbn [read_all] in Hr. apply bind_Ok_inv in Hr as (r1 & H1 & H2).
  apply elem_of_cons in Hs as [->|Hs]; [|by apply (IH r1)].
  exists r, r1. split; [done|]. by eapply read_all_le.
Qed.

(** The facts a block may hold that are not restrictions. *)
Definition known_facts : list pystr :=
  _AUTHORITY_FACTS ++ _IDENTITY_STRING_FACTS ++ [u "requires_approval"; u "declared_depth"].

Lemma approval_not_known :
  (u "requires_approval" ∉ _AUTHORITY_FACTS) ∧ u "requires_approval" ∉ _IDENTITY_STRING_FACTS.
Proof.
  split; [apply (bool_decide_unpack (_ ∉ _AUTHORITY_FACTS))
         |apply (bool_decide_unpack (_ ∉ _IDENTITY_STRING_FACTS))]; vm_compute; exact I.
Qed.

(** No statement the splitter returns is dropped silently.  Each is listed as
    unrecognized (its first 4096 characters), or is a clause read as a caveat of the
    block or as one of the grant's own two checks, or is a known fact; the scope of a
    [requires_approval] fact ends up in a caveat.  So in a complete block every
    restriction is in the caveats. *)
Theorem nothing_dropped src i b s :
  parse_block_source src i = Ok b → s ∈ _statements src →
  take MAX_STATEMENT_LENGTH s ∈ pb_unrecognized b
  ∨ (is_clause s = true ∧ (_clause s = Ok MRecognized ∨ ∃ c, _clause s = Ok (MCaveat c) ∧ c ∈ pb_caveats b))
  ∨ (is_clause s = false ∧ ∃ env,
       re_match _FACT_RE s = Some env ∧ default [] (group env "1") ∈ known_facts
       ∧ (default [] (group env "1") = u "requires_approval" →
          ∃ x X, re_match _MEMBER_RE (py_strip (default [] (group env "2")))
                   ≫= (λ env, group env "1") = Some x
                 ∧ x ∈ X ∧ RequiresApproval X ∈ pb_caveats b)).
Proof.
  unfold parse_block_source. intros (r & Hr & Hb)%bind_Ok_inv Hs.
  destruct (read_all_at _ _ _ _ Hr Hs) as (r1 & r2 & Hst & Hc & Hu & Ha & _).
  destruct (_identity_from (rd_facts r)) as [id amb]. injection Hb as <-.
  cbn [pb_unrecognized pb_caveats].
  assert (∀ r0, r2 = unread r0 (take MAX_STATEMENT_LENGTH s) →
    take MAX_STATEMENT_LENGTH s ∈ rd_unrecognized r) as Hunread.
  { intros r0 ->. apply Hu. apply elem_of_app. right. by left. }
  unfold read_statement in Hst. destruct (Nat.ltb_spec MAX_STATEMENT_LENGTH (length s)) as [Hlen|Hlen].
  { injection Hst as <-. left. by eapply Hunread. }
  rewrite take_ge in Hunread |- * by done. destruct (is_clause s) eqn:Ecl.
  - apply bind_Ok_inv in Hst as (m & Hm & [= <-]). destruct m as [c| |].
    + right. left. split; [done|]. right. exists c. split; [done|]. apply elem_of_app. left.
      apply Hc. apply elem_of_app. right. by left.
    + right. left. split; [done|]. by left.
    + left. by eapply Hunread.
  - injection Hst as <-. unfold read_fact in *.
    destruct (re_match _FACT_RE s) as [env|] eqn:Em; [|left; by eapply Hunread].
    set (p := default [] (group env "1")) in *. set (t := default [] (group env "2")) in *.
    unfold known_facts.
    destruct (bool_decide_reflect (p ∈ _AUTHORITY_FACTS)) as [Hp|Hp].
    { right. right. split; [done|]. exists env. split_and!; [done|apply elem_of_app; by left|].
      intros E. change (p = u "requires_approval") in E. rewrite E in Hp.
      by apply approval_not_known in Hp. }
    destruct (bool_decide_reflect (p ∈ _IDENTITY_STRING_FACTS)) as [Hi|Hi];
      [|destruct (bool_decide_reflect (p = u "requires_approval")) as [Ha'|Ha']]; cbn [orb] in *.
    + destruct (re_match _MEMBER_RE _ ≫= _) as [m|]; [|left; by eapply Hunread].
      right. right. split; [done|]. exists env.
      split_and!; [done|rewrite !elem_of_app; auto|].
      intros E. change (p = u "requires_approval") in E. rewrite E in Hi.
      by apply approval_not_known in Hi.
    + destruct (re_match _MEMBER_RE _ ≫= _) as [m|] eqn:Emm; [|left; by eapply Hunread].
      right. right. split; [done|]. exists env.
      split_and!; [done|fold p; rewrite Ha', !elem_of_app; right; right; by left|]. intros _.
      assert (m ∈ rd_approval r) as Hm by (apply Ha; cbn; set_solver).
      exists m, (rd_approval r). split_and!; [done|done|]. apply elem_of_app. right.
      rewrite bool_decide_eq_false_2 by set_solver. by left.
    + destruct (bool_decide_reflect (p = u "declared_depth")) as [Hd|Hd]; [|left; by eapply Hunread].
      right. right. split; [done|]. exists env.
      split_and!; [done|fold p; rewrite Hd, !elem_of_app; right; right; right; by left|done].
Qed.

(** ** Identity *)
Lemma label_safe raw p v c : label_field raw p = (Some v, c) → validate_label v = Ok v.
Proof.
  unfold label_field, _label. destruct raw as [x|]; [|done].
  destruct (validate_label x) as [y|e] eqn:E; [|done]. intros [= -> _].
  assert (v = x) as -> by (revert E; unfold validate_label; intros E; by inv_ok). done.
Qed.

Lemma read_twice l r r' p v w :
  read_all r l = Ok r' →
  (∃ l1 l2 l3 s t, l = l1 ++ s :: l2 ++ t :: l3
     ∧ (∀ r0, read_statement r0 s = Ok (mkReading (rd_caveats r0) (rd_unrecognized r0)
                                         (rd_approval r0) (add_fact p v (rd_facts r0))))
     ∧ (∀ r0, read_statement r0 t = Ok (mkReading (rd_caveats r0) (rd_unrecognized r0)
                                         (rd_approval r0) (add_fact p w (rd_facts r0))))) →
  one (rd_facts r') p = (None, [p]).
Proof.
  intros Hr (l1 & l2 & l3 & s & t & -> & Hs & Ht).
  rewrite read_all_app in Hr. apply bind_Ok_inv in Hr as (r1 & _ & Hr).
  cbn [read_all] in Hr. rewrite Hs in Hr. cbn [mbind res_bind] in Hr.
  rewrite read_all_app in Hr. apply bind_Ok_inv in Hr as (r2 & H2 & Hr).
  cbn [read_all] in Hr. rewrite Ht in Hr. cbn [mbind res_bind] in Hr.
  destruct (read_all_le _ _ _ H2) as (_ & _ & _ & Hf2). destruct (Hf2 p) as [k Hk].
  destruct (read_all_le _ _ _ Hr) as (_ & _ & _ & Hf3). destruct (Hf3 p) as [k' Hk'].
  cbn [rd_facts] in Hk, Hk'. unfold add_fact in Hk, Hk'. rewrite lookup_insert_eq in Hk, Hk'.
  cbn [from_option id] in Hk, Hk'. rewrite Hk in Hk'. unfold one. rewrite Hk'.
  destruct (default [] (rd_facts r1 !! p)) as [|x [|y z]]; cbn [app].
  - by destruct k.
  - by destruct k.
  - done.
Qed.

(** An identity read off a block can be shown: its labels pass the same
    validation the mint applies, and a predicate stated twice (the mark of a value
    that broke out of its literal) yields no identity and is named as ambiguous. *)
Theorem identity_unambiguous src i b :
  parse_block_source src i = Ok b →
  (∀ v, agent_id (pb_identity b) = Some v ∨ role (pb_identity b) = Some v → validate_label v = Ok v)
  ∧ (∀ v w l1 l2 l3, clean v = true → clean w = true →
       let fact p x := u p ++ u "(" ++ quote_string x ++ u ")" in
       (∀ p, p ∈ ["agent"; "role"]%string → short (fact p v) → short (fact p w) →
          _statements src = l1 ++ fact p v :: l2 ++ fact p w :: l3 →
          u p ∈ pb_duplicate_facts b
          ∧ (p = "agent"%string → agent_id (pb_identity b) = None)
          ∧ (p = "role"%string → role (pb_identity b) = None))).
Proof.
  unfold parse_block_source. intros (r & Hr & Hb)%bind_Ok_inv.
  unfold _identity_from in Hb.
  destruct (one _ (u "agent")) as [ra a1] eqn:Ea. destruct (one _ (u "role")) as [rr a2] eqn:Er.
  destruct (one _ (u "declared_depth")) as [rd a3].
  destruct (label_field ra (u "agent")) as [ag a4] eqn:Ela.
  destruct (label_field rr (u "role")) as [ro a5] eqn:Elr.
  destruct (match rd with None => _ | Some _ => _ end) as [dp a6].
  injection Hb as <-. cbn [pb_identity agent_id role pb_duplicate_facts].
  split.
  - intros v [->| ->]; by eapply label_safe.
  - intros v w l1 l2 l3 Hv Hw p Hp Hs1 Hs2 Hst.
    assert (one (rd_facts r) (u p) = (None, [u p])) as Hone.
    { apply (read_twice _ _ _ _ v w Hr). eexists l1, l2, l3, _, _. split; [exact Hst|].
      assert (u p ∈ _IDENTITY_STRING_FACTS ∧ ∀ x, is_clause (u p ++ x) = false) as [Hid Hcl].
      { repeat (apply elem_of_cons in Hp as [->|Hp]; [split; [|done]|]);
          [by left|by right; left|by apply elem_of_nil in Hp]. }
      split; intros r0; rewrite read_short by done; rewrite Hcl; by rewrite read_identity_string. }
    apply elem_of_cons in Hp as [->|Hp]; [|apply list_elem_of_singleton in Hp as ->].
    + rewrite Ea in Hone. injection Hone as -> ->. cbn [label_field] in Ela.
      injection Ela as <- _. split_and!; [by left|done|done].
    + rewrite Er in Hone. injection Hone as -> ->. cbn [label_field] in Elr.
      injection Elr as <- _. split_and!; [|done|done]. rewrite !elem_of_app. right. left. by left.
Qed.

(** ** The statement cap *)

(** Past 512 statements, blank ones included, the splitter stops: a restriction after
    that is neither a caveat nor listed, and the block still counts as complete. *)
Theorem statement_cap_drops :
  ∃ b, parse_block_source (repeat 59 512 ++ u "check if tool($t), [].contains($t);") 1 = Ok b
       ∧ complete b = true ∧ pb_caveats b = [].
Proof. eexists. split_and!; vm_compute; reflexivity. Qed.

(** ** Along a chain *)
Section chains.
Context `{BiscuitLib}.

(** What the library does with an appended block: the chain grows by one block, the
    earlier ones print as before, and the new one prints its statements with the
    facts first. *)
Record grown (parent child : VerifiedToken) (sts : list pystr) : Prop := {
  gr_count : block_count (vt_biscuit child) = block_count (vt_biscuit parent) + 1;
  gr_old i : 0 <= i < block_count (vt_biscuit parent) →
    block_source (vt_biscuit child) i = block_source (vt_biscuit parent) i;
  gr_new : layout (block_source (vt_biscuit child) (block_count (vt_biscuit parent))) (facts_first sts) }.

Lemma res_map_app {A B} (f : A → py B) l k :
  res_map f (l ++ k) = (xs ← res_map f l; ys ← res_map f k; Ok (xs ++ ys)).
Proof.
  induction l as [|x l IH]; cbn [app res_map mbind res_bind]; [by destruct (res_map f k)|].
  rewrite IH. destruct (f x); [|done]. cbn [mbind res_bind].
  destruct (res_map f l); [|done]. cbn [mbind res_bind]. by destruct (res_map f k).
Qed.

Lemma res_map_ext_in {A B} (f g : A → py B) l : (∀ x, x ∈ l → f x = g x) → res_map f l = res_map g l.
Proof.
  induction l as [|x l IH]; intros Hfg; [done|]. cbn [res_map].
  rewrite Hfg by left. rewrite IH by (intros; apply Hfg; by right). done.
Qed.

Lemma res_map_length {E A B} (f : A → res E B) l k : res_map f l = Ok k → length k = length l.
Proof. intros Hf%res_map_Forall2. by apply Forall2_length in Hf. Qed.

Lemma parse_grown parent child sts b :
  1 <= block_count (vt_biscuit parent) → grown parent child sts →
  parse_block_source (block_source (vt_biscuit child) (block_count (vt_biscuit parent)))
    (block_count (vt_biscuit parent)) = Ok b →
  parse_token child = (bs ← parse_token parent; Ok (bs ++ [b])).
Proof.
  intros Hn [Hc Ho Hnew] Hb. unfold parse_token. rewrite Hc, seqZ_app by lia.
  rewrite res_map_app. rewrite Z.add_0_l. change (seqZ (block_count (vt_biscuit parent)) 1)
    with [block_count (vt_biscuit parent)]. cbn [res_map]. rewrite Hb.
  rewrite (res_map_ext_in _ (λ i, parse_block_source (block_source (vt_biscuit parent) i) i)).
  - by destruct (res_map _ _).
  - intros i Hi%elem_of_seqZ. by rewrite Ho by lia.
Qed.

(** Delegation reads back along the chain.  When [attenuate]'s text is appended,
    the child's caveats are the parent's followed by the ones just added, its
    declared identity is the one just given, and its delegation path is the
    parent's extended by the new agent: no block rewrites an ancestor's. *)
Theorem delegation_reads_back parent child agent_id role cs body bs :
  validate_label agent_id = Ok agent_id → validate_label role = Ok role →
  0 <= vt_depth parent + 1 → forallb readable cs = true → block_datalog cs = Ok body →
  (length (block_statements parent agent_id role cs) <= MAX_STATEMENTS_PER_BLOCK)%nat →
  Forall short (block_statements parent agent_id role cs) →
  1 <= block_count (vt_biscuit parent) →
  grown parent child (block_statements parent agent_id role cs) →
  parse_token parent = Ok bs →
  token_caveats child = Ok ((drop 1 bs ≫= pb_caveats) ++ readback cs)
  ∧ token_caveats parent = Ok (drop 1 bs ≫= pb_caveats)
  ∧ token_identity child
    = Ok (mkBlockIdentity (Some agent_id) (Some role) (Some (vt_depth parent + 1)))
  ∧ ∃ id p, chain_identity parent = Ok (mkChainIdentity id p)
    ∧ chain_identity child
      = Ok (mkChainIdentity (mkBlockIdentity (Some agent_id) (Some role) (Some (vt_depth parent + 1)))
              (p ++ [agent_id])).
Proof.
  intros Hva Hvr Hd Hr Hb Hlen Hshort Hn Hg Hp.
  pose proof (parse_appended parent agent_id role cs body (block_count (vt_biscuit parent)) _
                Hva Hvr Hd Hr Hb Hlen Hshort (gr_new _ _ _ Hg)) as Hnew.
  pose proof (parse_grown _ _ _ _ Hn Hg Hnew) as Hc. rewrite Hp in Hc. cbn [mbind res_bind] in Hc.
  assert (1 <= length bs)%nat as Hl.
  { unfold parse_token in Hp. apply res_map_length in Hp. rewrite Hp, length_seqZ. lia. }
  assert (∀ x, drop 1 (bs ++ [x]) = drop 1 bs ++ [x]) as Hdrop by (intros; by rewrite drop_app_le).
  unfold token_identity, token_caveats, chain_identity. rewrite Hc, Hp. cbn [mbind res_bind].
  rewrite Hdrop, bind_app, fmap_app.
  assert (∀ x, length (bs ++ [x]) = S (length bs)) as Hlen' by (intros; rewrite length_app; cbn; lia).
  rewrite Hlen', last_snoc, (proj2 (Nat.leb_le 2 _)) by lia. cbn [from_option terminal pb_identity].
  split_and!; [|done|done|].
  - cbn [mbind list_bind pb_caveats]. by rewrite app_nil_r.
  - eexists _, _. split; [done|]. do 3 f_equal. cbn [fmap list_fmap]. unfold path_segment.
    cbn [pb_identity Recognizer.agent_id]. destruct agent_id as [|a l]; [exfalso; by vm_compute in Hva|]. reflexivity.
Qed.
End chains.

(** ** Witnesses *)
#[local] Existing Instance toy_lib.
Definition sample_caveats : list Caveat :=
  [ScopeSubset {[u "invoice:read"; u "vendor:read"]}; BudgetCeiling SPEND_BDT 1234500;
   TimeWindow None (Some (63000000000 * 1000000)); ToolDeny {[u "rm;-rf"]};
   ArgPredicate (u "amount") LE (CNum (Dec 25 (-1))); ArgPredicate (u "to") NE (CStr (u "eve"))].

Definition sample_body : pystr := match block_datalog sample_caveats with Ok t => t | Raise _ => [] end.

Lemma sample_layout :
  layout (appended toy_vt (u "agt") (u "reader") sample_body)
    (block_statements toy_vt (u "agt") (u "reader") sample_caveats).
Proof. apply appended_layout; vm_compute; reflexivity. Qed.

Lemma sample_count :
  (length (block_statements toy_vt (u "agt") (u "reader") sample_caveats)
   <= MAX_STATEMENTS_PER_BLOCK)%nat.
Proof. apply Nat.leb_le. vm_compute. reflexivity. Qed.

Lemma sample_short :
  Forall short (block_statements toy_vt (u "agt") (u "reader") sample_caveats).
Proof.
  assert (forallb (λ s, Nat.leb (length s) MAX_STATEMENT_LENGTH)
            (block_statements toy_vt (u "agt") (u "reader") sample_caveats) = true) as H
    by (vm_compute; reflexivity).
  rewrite forallb_forall in H. apply Forall_forall. intros s Hs%list_elem_of_In.
  by apply Nat.leb_le, H.
Qed.

Lemma sample_facts_first :
  facts_first (block_statements toy_vt (u "agt") (u "reader") sample_caveats)
  = block_statements toy_vt (u "agt") (u "reader") sample_caveats.
Proof. vm_compute. reflexivity. Qed.

Lemma block_roundtrip_witness :
  parse_block_source (appended toy_vt (u "agt") (u "reader") sample_body) 1
  = Ok (mkParsedBlock 1 (mkBlockIdentity (Some (u "agt")) (Some (u "reader")) (Some 2))
          (readback sample_caveats) [] []).
Proof.
  refine (proj1 (proj2 (block_roundtrip toy_vt (u "agt") (u "reader") sample_caveats sample_body 1
    (appended toy_vt (u "agt") (u "reader") sample_body) _ _ _ _ _ _ _)) _).
  1, 2, 4, 5: vm_compute; reflexivity.
  - vm_compute. discriminate.
  - exact sample_count.
  - exact sample_short.
  - rewrite sample_facts_first. exact sample_layout.
Defined.

Definition sample_child : VerifiedToken :=
  let '(mkVerifiedToken b m t p i s bu sb md nb ex d r sz w) := toy_vt in
  mkVerifiedToken
    (mkToy (u "En0K+") (toy_blocks toy_token ++ [appended toy_vt (u "agt") (u "reader") sample_body])
       (toy_answers toy_token) None) m t p i s bu sb md nb ex (d + 1) r sz w.

Definition sample_blocks : list ParsedBlock :=
  match parse_token toy_vt with Ok bs => bs | Raise _ => [] end.

Lemma delegation_reads_back_witness :
  token_caveats sample_child = Ok (readback sample_caveats).
Proof.
  refine (eq_trans (proj1 (delegation_reads_back toy_vt sample_child (u "agt") (u "reader")
    sample_caveats sample_body sample_blocks _ _ _ _ _ _ _ _ _ _)) _).
  1, 2, 4, 5, 11: vm_compute; reflexivity.
  - vm_compute. discriminate.
  - exact sample_count.
  - exact sample_short.
  - vm_compute. discriminate.
  - split; [vm_compute; reflexivity| |].
    + intros i Hi. assert (i = 0 ∨ i = 1) as [-> | ->] by (change (0 <= i < 2) in Hi; lia);
        vm_compute; reflexivity.
    + rewrite sample_facts_first. exact sample_layout.
  - vm_compute. reflexivity.
Defined.

Lemma nothing_dropped_witness :
  take MAX_STATEMENT_LENGTH (u "check if rate($r), $r < 5") ∈ [u "check if rate($r), $r < 5"].
Proof.
  destruct (nothing_dropped (u "scope(a);check if rate($r), $r < 5;") 0
    (mkParsedBlock 0 no_identity [] [u "check if rate($r), $r < 5"] [])
    (u "check if rate($r), $r < 5")) as [H|[(_ & [H|(c & _ & H)])|(H & _)]].
  - vm_compute. reflexivity.
  - vm_compute. right. left.
  - exact H.
  - vm_compute in H. discriminate H.
  - by apply elem_of_nil in H.
  - vm_compute in H. discriminate H.
Defined.

(** The block text a [role] of [x"); admin(true); role("y] prints as. *)
Definition broken_out : pystr :=
  u "role(" ++ quote_string (u "x") ++ u "); admin(true); role(" ++ quote_string (u "y") ++ u ");".

Definition broken_block : ParsedBlock :=
  mkParsedBlock 1 no_identity [] [u "admin(true)"] [u "role"].

Lemma identity_unambiguous_witness : role (pb_identity broken_block) = None.
Proof.
  destruct (identity_unambiguous broken_out 1 broken_block) as [_ H]; [vm_compute; reflexivity|].
  destruct (H (u "x") (u "y") [] [u "admin(true)"] [] eq_refl eq_refl "role"%string) as (_ & _ & Hr).
  - right. left.
  - apply Nat.leb_le. vm_compute. reflexivity.
  - apply Nat.leb_le. vm_compute. reflexivity.
  - vm_compute. reflexivity.
  - by apply Hr.
Defined.
