(* ===== verification/Service.v ===== *)
(** * The PEP as a service (scripts/pep_service.py, agentiam_pep/config.py)

    The composition root: settings read from the environment, the signed policy bundle
    and the role assignments read from disk, the policy principal of a token, and the
    pipeline they are assembled into.  A process either starts with everything it enforces
    with or refuses to start. *)
From S2P Require Import Prelude PyText Errors PyNum PyFloat PyTime PyRe PyUuid PySha PyUrl PyJson Models Hashing HashingSpec Lease Settlement Emitter Pool Caveats Tokens Attenuation Decide Bundles CedarPolicy Extractor Pipeline Recognizer.

(** ** The environment *)
Abbreviation environ := (gmap pystr pystr).

Definition ENV_PREFIX : pystr := u "AGENTIAM_PEP_".
Definition var (name : string) : pystr := ENV_PREFIX ++ u name.

(** [os.environ.get(name, "").strip()]. *)
Definition env_text (env : environ) (name : pystr) : pystr := py_strip (default [] (env !! name)).

Definition _require (env : environ) (name : pystr) : py pystr :=
  match env_text env name with [] => Raise ValueError | v => Ok v end.

(** A decimal above zero; comparing a NaN is [InvalidOperation]. *)
Definition _decimal_env (env : environ) (name : pystr) (dflt : pydec) : py pydec :=
  match env_text env name with
  | [] => Ok dflt
  | raw =>
      match parse_decimal raw with
      | None => Raise ValueError
      | Some v => c ← pydec_compare v (DFin (Dec 0 0)); match c with Gt => Ok v | _ => Raise ValueError end
      end
  end.

Definition _optional_path (env : environ) (name : pystr) : option pystr :=
  match env_text env name with [] => None | raw => Some raw end.

Definition _mandate_id (env : environ) : py uuid :=
  raw ← _require env (var "MANDATE_ID");
  match parse_uuid raw with Some i => Ok i | None => Raise ValueError end.

Section service.
Context {UN : Unicode} {ST : SortTies} {CA : Casing} {RT : Routing} {BL : BiscuitLib}
  {RP : PyRepr} {KEYS : Ed25519} {CD : Cedar}.

Definition _optional_positive_float (env : environ) (name : pystr) : py (option pyfloat) :=
  match env_text env name with
  | [] => Ok None
  | raw =>
      match float_of_text raw with
      | None => Raise ValueError
      | Some v => raise_if (negb (float_gt0 v) || float_is_inf v) ValueError;; Ok (Some v)
      end
  end.

(** ** config.py *)
Record PepSettings := mkPepSettings {
  upstream_base_url : pystr; connect_timeout_s : pyfloat; read_timeout_s : pyfloat;
  write_timeout_s : pyfloat; pool_timeout_s : pyfloat; connect_retries : Z; max_connections : Z;
  max_keepalive_connections : Z; otel_exporter_endpoint : option pystr }.

Definition _positive (v : pyfloat) : py pyfloat := raise_if (float_le0 v) ValueError;; Ok v.

(** [__post_init__]. *)
Definition check_pep_settings (s : PepSettings) : py PepSettings :=
  raise_if (bool_decide (upstream_base_url s = [])) ValueError;;
  _positive (connect_timeout_s s);; _positive (read_timeout_s s);;
  _positive (write_timeout_s s);; _positive (pool_timeout_s s);;
  raise_if (connect_retries s <? 0) ValueError;;
  Ok s.

Definition worst_case_connect_s (s : PepSettings) : pyfloat :=
  float_times (connect_timeout_s s) (connect_retries s + 1).

(** [number]: not stripped, and unset is the default. *)
Definition number (env : environ) (name : string) (dflt : Z) : py pyfloat :=
  match env !! var name with
  | None => Ok (float_of_Z dflt)
  | Some raw => match float_of_text raw with Some v => Ok v | None => Raise ValueError end
  end.
Definition int_number (env : environ) (name : string) (dflt : Z) : py Z :=
  v ← number env name dflt; float_int v.

Definition pep_settings_from_env (env : environ) : py PepSettings :=
  match env !! var "UPSTREAM_BASE_URL" with
  | None | Some [] => Raise ValueError
  | Some upstream =>
      connect ← number env "CONNECT_TIMEOUT_S" 1;
      read ← number env "READ_TIMEOUT_S" 30;
      write ← number env "WRITE_TIMEOUT_S" 10;
      pool ← number env "POOL_TIMEOUT_S" 5;
      retries ← int_number env "CONNECT_RETRIES" 2;
      connections ← int_number env "MAX_CONNECTIONS" 100;
      keepalive ← int_number env "MAX_KEEPALIVE_CONNECTIONS" 20;
      check_pep_settings (mkPepSettings upstream connect read write pool retries connections keepalive
        (match env !! var "OTEL_EXPORTER_ENDPOINT" with Some ((_ :: _) as e) => Some e | _ => None end))
  end.

(** ** Settings *)
Definition DEFAULT_LEASE_SIZE : pydec := DFin (Dec 50000000 (-4)).
Definition DEFAULT_LOW_WATER : decimal := Dec 25 (-2).
Definition DEFAULT_ROLE : pystr := u "agent".

Record ServiceSettings := mkServiceSettings {
  ss_pep : PepSettings; ss_pep_id : pystr; ss_database_url : pystr; ss_redis_url : pystr;
  ss_control_plane_url : pystr; ss_mandate_id : uuid; ss_root_public_keys_hex : list pystr;
  ss_policy_bundle_path : pystr; ss_policy_bundle_sig_path : pystr; ss_policy_public_key_hex : pystr;
  ss_routes_path : pystr; ss_lease_size : pydec; ss_escalation_ttl_s : option pyfloat;
  ss_default_role : pystr; ss_role_assignments_path : option pystr; ss_ollama_url : option pystr }.

Definition is_hex (c : Z) : bool := bool_decide (is_Some (hex_value c)).
Definition hex_key (key : pystr) : bool := Nat.eqb (length key) 64 && forallb is_hex key.

Definition root_key_texts (raw : pystr) : list pystr :=
  py_strip <$> filter (λ part, py_strip part ≠ []) (split_char 44 raw).

Definition from_env (env : environ) : py ServiceSettings :=
  keys_raw ← _require env (var "ROOT_PUBLIC_KEYS");
  let keys := root_key_texts keys_raw in
  raise_if (negb (forallb hex_key keys)) ValueError;;
  pep ← pep_settings_from_env env;
  database_url ← _require env (var "DATABASE_URL");
  redis_url ← _require env (var "REDIS_URL");
  control_plane_url ← _require env (var "CONTROL_PLANE_URL");
  mandate_id ← _mandate_id env;
  policy_bundle_path ← _require env (var "POLICY_BUNDLE_PATH");
  policy_bundle_sig_path ← _require env (var "POLICY_BUNDLE_SIG_PATH");
  policy_public_key_hex ← _require env (var "POLICY_PUBLIC_KEY");
  routes_path ← _require env (var "ROUTES_PATH");
  lease_size ← _decimal_env env (var "LEASE_SIZE") DEFAULT_LEASE_SIZE;
  escalation_ttl_s ← _optional_positive_float env (var "ESCALATION_TTL_S");
  Ok (mkServiceSettings pep (match env_text env (var "ID") with [] => u "pep-1" | i => i end)
        database_url redis_url control_plane_url mandate_id keys policy_bundle_path
        policy_bundle_sig_path policy_public_key_hex routes_path lease_size escalation_ttl_s
        (match env_text env (var "DEFAULT_ROLE") with [] => DEFAULT_ROLE | r => r end)
        (_optional_path env (var "ROLE_ASSIGNMENTS_PATH"))
        (match env_text env (var "OLLAMA_URL") with [] => None | o => Some o end)).

(** ** Files *)

(** [json.loads(path.read_text(encoding="utf-8"))]: the file cannot be read, is not
    UTF-8, is not JSON, or is a value. *)
Inductive document := Unreadable | NotText | NotJson | Parsed (v : value).

Definition load_document (d : document) : py value :=
  match d with
  | Unreadable | NotJson => Raise ServiceConfigError
  | NotText => Raise ValueError
  | Parsed v => Ok v
  end.

(** [payload[key]] and [payload.get(key)]. *)
Definition payload_item (payload : list (pystr * value)) (key : pystr) : py value :=
  match list_find (λ kv, kv.1 = key) payload with Some (_, kv) => Ok kv.2 | None => Raise KeyError end.

(** [int(v)] of a JSON value. *)
Definition serial_of (v : value) : py Z :=
  match v with
  | VInt n => Ok n
  | VBool b => Ok (if b then 1 else 0)
  | VFloat x => float_int x
  | VStr s => match parse_int10 s with Some n => Ok n | None => Raise ValueError end
  | _ => Raise TypeError
  end.

(** The [PolicyBundle] made of the file: nothing checks what its fields are. *)
Record LoadedBundle := mkLoadedBundle {
  lb_version : value; lb_cedar_source : value; lb_serial : Z; lb_entity_schema : value; lb_tools : value }.

Definition bundle_of (payload : value) : py LoadedBundle :=
  match payload with
  | VMap payload =>
      version ← payload_item payload (u "version");
      source ← payload_item payload (u "cedar_source");
      serial ← serial_of (dict_get payload (u "serial") (VInt 0));
      Ok (mkLoadedBundle version source serial (dict_get payload (u "entity_schema") VNone)
            (dict_get payload (u "tools") VNone))
  | _ => Raise TypeError
  end.

(** [dict(v)] of a JSON value that is not an object: the pairs of an array, keys by their
    text. *)
Definition pair_of (item : value) : py (value * value) :=
  match item with
  | VSeq [k; v] => Ok (k, v)
  | VStr [a; b] => Ok (VStr [a], VStr [b])
  | VMap [(a, _); (b, _)] => Ok (VStr a, VStr b)
  | VSeq _ | VStr _ | VMap _ => Raise ValueError
  | _ => Raise TypeError
  end.
Definition put_pair (d : py (list (pystr * value))) (item : value) : py (list (pystr * value)) :=
  d ← d;
  kv ← pair_of item;
  k ← match kv.1 with VSeq _ | VMap _ => Raise TypeError | k => py_str k end;
  Ok (filter (λ e, e.1 ≠ k) d ++ [(k, kv.2)]).
Definition dict_items (v : value) : py (list (pystr * value)) :=
  match v with
  | VMap kvs => Ok kvs
  | VSeq items => foldl put_pair (Ok []) items
  | VStr [] => Ok []
  | VStr _ => Raise ValueError
  | _ => Raise TypeError
  end.

(** The bytes its signature covers, and [verify_bundle] on it. *)
Definition loaded_payload (b : LoadedBundle) : py (list Z) :=
  tools ← match lb_tools b with VNone => Ok VNone | v => VMap <$> dict_items v end;
  canonical_json
    (VMap [(u "serial", VInt (lb_serial b)); (u "version", lb_version b);
           (u "cedar_source", lb_cedar_source b); (u "entity_schema", lb_entity_schema b);
           (u "created_at", VNone); (u "tools", tools)]).
Definition verify_loaded (b : LoadedBundle) (signature : list Z) (k : public_key) : py unit :=
  payload ← loaded_payload b;
  raise_if (negb (key_verify k signature payload)) BundleSignatureError.

(** The bundle an engine is built on.  A catalogue that is no object has no [items]; a
    policy that is no text does not parse.  The version and the schema the source leaves
    unchecked to the end: of a signed bundle in which they are no texts it would make an
    engine, this reading a [TypeError]. *)
Definition typed_bundle (b : LoadedBundle) : py PolicyBundle :=
  tools ← match lb_tools b with VNone => Ok None | VMap kvs => Ok (Some kvs) | _ => Raise AttributeError end;
  source ← match lb_cedar_source b with VStr s => Ok s | _ => Raise PolicyBundleError end;
  version ← match lb_version b with VStr s => Ok s | _ => Raise TypeError end;
  schema ← match lb_entity_schema b with VNone => Ok None | VStr s => Ok (Some s) | _ => Raise TypeError end;
  Ok (mkPolicyBundle version source (lb_serial b) schema None tools).

(** [except (BundleSignatureError, ValueError)] and the like: those become
    [ServiceConfigError], anything else goes on. *)
Definition as_config_error {A} (caught : exn → bool) (m : py A) : py A :=
  match m with Raise e => if caught e then Raise ServiceConfigError else Raise e | r => r end.

Definition bad_signature (e : exn) : bool :=
  match e with BundleSignatureError | ValueError | UnicodeEncodeError => true | _ => false end.
Definition bad_bundle (e : exn) : bool := match e with PolicyBundleError => true | _ => false end.

Definition load_policy (key_hex : pystr) (bundle_file : document) (signature_file : option (list Z))
    : py CedarEngine :=
  payload ← load_document bundle_file;
  match signature_file with
  | None => Raise ServiceConfigError
  | Some signature =>
      bundle ← bundle_of payload;
      as_config_error bad_signature
        (k ← public_key_from_hex key_hex; verify_loaded bundle signature k);;
      as_config_error bad_bundle (bundle ← typed_bundle bundle; new_engine bundle None false None)
  end.

(** ** Roles *)
Definition slash : Z := 47.

(** The ancestors of a path: its proper prefixes by segment. *)
Definition ancestors (path : pystr) : list pystr :=
  let segments := split_char slash path in
  (λ cut, py_join [slash] (take cut segments)) <$> seq 1 (length segments - 1).

Definition widens (assignments : list (pystr * pystr)) (entry : pystr * pystr) : bool :=
  negb (bool_decide (entry.1 = []))
  && existsb (λ a, match header_get assignments a with
                   | Some r => negb (bool_decide (r = entry.2)) | None => false end) (ancestors entry.1).

Definition _refuse_widening_roles (assignments : list (pystr * pystr)) : py unit :=
  raise_if (existsb (widens assignments) assignments) ServiceConfigError.

Definition role_entry (kv : pystr * value) : py (pystr * pystr) :=
  match kv.2 with VStr ((_ :: _) as role) => Ok (kv.1, role) | _ => Raise ServiceConfigError end.

Definition load_role_assignments (file : option document) : py (list (pystr * pystr)) :=
  match file with
  | None => Ok []
  | Some d =>
      payload ← load_document d;
      match payload with
      | VMap kvs => assignments ← res_map role_entry kvs; _refuse_widening_roles assignments;; Ok assignments
      | _ => Raise ServiceConfigError
      end
  end.

(** The role an agent at this path has. *)
Definition role_at (assignments : list (pystr * pystr)) (default_role : pystr) (p : list pystr) : pystr :=
  default default_role (header_get assignments (py_join [slash] p)).

Definition principal_for (assignments : list (pystr * pystr)) (default_role : pystr) (token : VerifiedToken)
    : py AgentPrincipal :=
  chain ← chain_identity token;
  let identity := terminal chain in
  Ok (mkAgentPrincipal
        (match agent_id identity with
         | Some ((_ :: _) as a) => a | _ => u "agt-depth-" ++ py_str_int (vt_depth token) end)
        (role_at assignments default_role (path chain))
        (vt_principal_id token) (vt_task_id token) (default [] (role identity))).

(** [PublicKey.from_bytes(bytes.fromhex(hexed), Ed25519)] is biscuit's: [point] says which
    bytes are a key. *)
Definition _root_keys (point : list Z → option PublicKey) (texts : list pystr) : py (list PublicKey) :=
  res_map (λ hexed, match fromhex hexed ≫= point with Some k => Ok k | None => Raise ServiceConfigError end) texts.

(** ** Assembly *)
Record deployment_files := mkFiles {
  df_bundle : document; df_signature : option (list Z); df_roles : option document;
  df_routes : list (pystr * value) }.

Definition build_service {RV DR : Type} (env : environ) (files : deployment_files) (point : list Z → option PublicKey)
    (pool : PoolSettings) (emitter : EmitterSettings) (settlement : SettlementSettings)
    (revocation : RV) (drift : option DR) (ttl : pyfloat → Z) : py (Pipeline (RV := RV) (DR := DR)) :=
  settings ← from_env env;
  policy ← load_policy (ss_policy_public_key_hex settings) (df_bundle files) (df_signature files);
  roles ← load_role_assignments (match ss_role_assignments_path settings with
                                 | Some _ => df_roles files | None => None end);
  routes ← from_config (df_routes files);
  ks ← _root_keys point (ss_root_public_keys_hex settings);
  key_set ← mk_RootKeySet ks;
  Ok (mkPipeline routes key_set policy (principal_for roles (ss_default_role settings)) pool emitter
        settlement revocation (ss_pep_id settings) (u "none")
        (match ss_escalation_ttl_s settings with Some s => ttl s | None => 900 * 1000000 end)
        token_caveats (match ss_ollama_url settings with Some _ => drift | None => None end) None true).
End service.

(** ** Lifespan

    Start-up draws the first lease and goes on without it when the ledger refuses or
    raises; shutdown settles what is queued, then releases the leases, then drains the
    emitter. *)
Definition startup (p : pool) (ask : unit → py (option LeaseGrant)) : pool * bool :=
  match p_held p !! SPEND_BDT with
  | Some _ => (p, true)
  | None =>
      match ask tt with
      | Raise _ => (p, false)
      | Ok grant => let '(p, primed, _) := acquire_reply p SPEND_BDT grant in (p, primed)
      end
  end.

Section lifespan.
Context {W A : Type} (sink : W → list PendingSettlement → py (list bool) * W)
  (audit_sink : A → list DecisionRecord → write_result * A).

Record running := mkRunning {
  rn_queue : queue; rn_ledger : W; rn_pool : pool; rn_emitter : emitter DecisionRecord; rn_audit : A }.

(** The leases released come with the pool. *)
Definition shutdown (ss : SettlementSettings) (es : EmitterSettings) (r : running) : running * list uuid :=
  let '(q, ledger) := aclose sink ss (rn_queue r) (rn_ledger r) in
  let '(p, released) := aclose_pool (rn_pool r) in
  let '(e, audit) := close_emitter audit_sink es (rn_emitter r) (rn_audit r) in
  (mkRunning q ledger p e audit, released).
End lifespan.
