(* ===== verification/ServiceSpec.v ===== *)
(** * What a deployed PEP starts with

    The service starts only with a bundle that verified under the configured key, with the
    catalogue that bundle signs, and with every required setting; and an agent whose path
    has an assigned role cannot reach another assigned role by minting descendants.  One
    whose path has none can. *)
From Stdlib Require Import SpecFloat.
From S2P Require Import Prelude PyText Errors PyNum PyFloat PyTime PyRe PyUuid PySha PyUrl PyJson Models Hashing HashingSpec Lease Settlement Emitter Pool Caveats Tokens Attenuation Decide Bundles BundlesSpec CedarPolicy PolicyCache PolicySpec Extractor ExtractorSpec Pipeline PipelineSpec Recognizer Service.

(** ** Paths as text *)
Lemma split_char_app_gen c a x : split_char c (a ++ c :: x) = split_char c a ++ split_char c x.
Proof.
  induction a as [|b a IH]; cbn [app split_char].
  - by rewrite Z.eqb_refl.
  - destruct (b =? c); [by rewrite IH|]. rewrite IH.
    destruct (split_char c a) as [|p ps] eqn:E; [by destruct (split_char_nonempty c a)|done].
Qed.

Lemma join_app c l k : l ≠ [] → k ≠ [] → py_join [c] (l ++ k) = py_join [c] l ++ c :: py_join [c] k.
Proof.
  intros Hl Hk. induction l as [|a l IH]; [done|]. destruct l as [|b l].
  - destruct k; [done|]. done.
  - cbn [app py_join] in *. rewrite IH by done. by rewrite <- !app_assoc.
Qed.

Lemma elem_of_ancestors a p : a ∈ ancestors p ↔ ∃ x, p = a ++ slash :: x.
Proof.
  unfold ancestors. rewrite list_elem_of_fmap. split.
  - intros (cut & -> & Hc%elem_of_seq). exists (py_join [slash] (drop cut (split_char slash p))).
    rewrite <- join_app.
    + by rewrite take_drop, split_char_join.
    + intros Hn. apply (f_equal length) in Hn. rewrite length_take in Hn. cbn [length] in Hn. lia.
    + intros Hn. apply (f_equal length) in Hn. rewrite length_drop in Hn. cbn [length] in Hn. lia.
  - intros [x ->]. exists (length (split_char slash a)). rewrite split_char_app_gen, take_app_length, split_char_join.
    split; [done|]. apply elem_of_seq. rewrite length_app.
    pose proof (split_char_nonempty slash a). pose proof (split_char_nonempty slash x).
    destruct (split_char slash a), (split_char slash x); done || (cbn [length]; lia).
Qed.

Lemma header_get_Some m k v : NoDup m.*1 → header_get m k = Some v ↔ (k, v) ∈ m.
Proof.
  unfold header_get. induction m as [|[k0 v0] m IH]; cbn [List.find fmap list_fmap fst].
  - intros _. split; [done|]. by intros ?%elem_of_nil.
  - intros [Hn Hm]%NoDup_cons. rewrite elem_of_cons. case_bool_decide as Hk; cbn [fst] in Hk.
    + subst k0. cbn. split; [intros [= ->]; by left|]. intros [[= <-]|Hin]; [done|].
      destruct Hn. apply list_elem_of_fmap. by exists (k, v).
    + rewrite IH by done. split; [by right|]. intros [[= <- <-]|Hin]; done.
Qed.

(** ** Role assignments *)
Lemma widening_exact m :
  NoDup m.*1 →
  _refuse_widening_roles m = Ok tt ↔
  ∀ k1 r1 k2 r2 x, (k1, r1) ∈ m → (k2, r2) ∈ m → k2 = k1 ++ slash :: x → r1 = r2.
Proof.
  intros Hnd. unfold _refuse_widening_roles.
  assert (Hw : ∀ k2 r2, (k2, r2) ∈ m → widens m (k2, r2) = true ↔
    ∃ k1 r1 x, (k1, r1) ∈ m ∧ k2 = k1 ++ slash :: x ∧ r1 ≠ r2).
  { intros k2 r2 H2. unfold widens. cbn [fst snd]. rewrite andb_true_iff, existsb_exists. split.
    - intros (_ & a & Ha%list_elem_of_In & Hr). apply elem_of_ancestors in Ha as [x Hx].
      destruct (header_get m a) as [r|] eqn:E; [|done]. apply header_get_Some in E; [|done].
      exists a, r, x. split; [done|]. split; [done|]. by apply negb_true_iff, bool_decide_eq_false in Hr.
    - intros (k1 & r1 & x & H1 & -> & Hne). split; [by apply negb_true_iff, bool_decide_eq_false; destruct k1|].
      exists k1. split; [apply list_elem_of_In, elem_of_ancestors; eauto|].
      apply header_get_Some in H1; [|done]. rewrite H1. by apply negb_true_iff, bool_decide_eq_false. }
  split.
  - intros He%raise_if_Ok k1 r1 k2 r2 x H1 H2 Hx. destruct (decide (r1 = r2)) as [|Hne]; [done|].
    assert (existsb (widens m) m = true); [|congruence].
    apply existsb_exists. exists (k2, r2). split; [by apply list_elem_of_In|]. apply Hw; eauto 10.
  - intros H. destruct (existsb (widens m) m) eqn:E; [|done]. exfalso.
    apply existsb_exists in E as ([k2 r2] & H2%list_elem_of_In & (k1 & r1 & x & H1 & Hx & Hne)%Hw); [|done].
    destruct Hne. by eapply H.
Qed.

Lemma role_entry_keys kvs m : res_map role_entry kvs = Ok m → m.*1 = kvs.*1.
Proof.
  intros Hm%res_map_Forall2. induction Hm as [|[k v] [k' r] kvs m He _ IH]; [done|]. rewrite !fmap_cons, IH. f_equal.
  unfold role_entry in He. cbn [fst snd] in He. by destruct v as [| | | | | |[|c s]| | | | | | |]; try done; injection He as <- _.
Qed.

(** A role map is accepted exactly when every path it assigns has the role of each of
    its assigned ancestors. *)
Theorem widening_refused_exactly kvs m :
  NoDup kvs.*1 → res_map role_entry kvs = Ok m →
  load_role_assignments (Some (Parsed (VMap kvs))) = Ok m ↔
  ∀ k1 r1 k2 r2 x, (k1, r1) ∈ m → (k2, r2) ∈ m → k2 = k1 ++ slash :: x → r1 = r2.
Proof.
  intros Hnd Hm. rewrite <- widening_exact by (by rewrite (role_entry_keys _ _ Hm)).
  unfold load_role_assignments. cbn [load_document mbind res_bind]. rewrite Hm. cbn [mbind res_bind].
  destruct (_refuse_widening_roles m) as [[]|e]; cbn [mbind res_bind]; done.
Qed.

Lemma loaded_roles kvs m :
  NoDup kvs.*1 → load_role_assignments (Some (Parsed (VMap kvs))) = Ok m →
  NoDup m.*1 ∧ _refuse_widening_roles m = Ok tt ∧ Forall (λ e, e.2 ≠ []) m.
Proof.
  intros Hnd. unfold load_role_assignments. cbn [load_document mbind res_bind].
  intros (m' & Hm & ([] & Hw & [= <-])%bind_Ok_inv)%bind_Ok_inv. pose proof (role_entry_keys _ _ Hm) as Hk. apply res_map_Forall2 in Hm.
  split; [by rewrite Hk|]. split; [done|]. clear -Hm.
  induction Hm as [|[k v] [k' r] kvs m He _ IH]; constructor; [|done]. cbn [snd].
  unfold role_entry in He. cbn [fst snd] in He. by destruct v as [| | | | | |[|c s]| | | | | | |]; try done; injection He as _ <-.
Qed.

Section roles.
Context {BL : BiscuitLib}.

(** C22: An agent below the root, whose delegation path is then not empty, and whose path has
    an assigned role gains none by minting: whatever chain it extends its own to, the role
    Cedar is asked about is its own or the deployment's default.  The roles the blocks claim
    do not enter.  [root_gains] is why the root is left out. *)
Theorem minting_gains_no_role kvs m dflt parent child cp cc pp pc s r :
  NoDup kvs.*1 → load_role_assignments (Some (Parsed (VMap kvs))) = Ok m →
  chain_identity parent = Ok cp → chain_identity child = Ok cc → path cc = path cp ++ s → path cp ≠ [] →
  header_get m (py_join [slash] (path cp)) = Some r →
  principal_for m dflt parent = Ok pp → principal_for m dflt child = Ok pc →
  ap_role pp = r ∧ (ap_role pc = r ∨ ap_role pc = dflt).
Proof.
  intros Hnd (Hm & Hw & _)%loaded_roles Hcp Hcc Hpath Hne Hr Hpp Hpc; [|done].
  unfold principal_for in Hpp, Hpc. rewrite Hcp in Hpp. rewrite Hcc in Hpc.
  cbn [mbind res_bind] in Hpp, Hpc. injection Hpp as <-. injection Hpc as <-. cbn [ap_role].
  unfold role_at. rewrite Hr. split; [done|]. rewrite Hpath.
  destruct (decide (s = [])) as [->|Hs]; [rewrite app_nil_r, Hr; by left|].
  destruct (header_get m (py_join [slash] (path cp ++ s))) as [q|] eqn:Hq; [|by right].
  left. cbn. symmetry. eapply widening_exact; [exact Hm|exact Hw| | |].
  - by apply header_get_Some in Hr.
  - by apply header_get_Some in Hq.
  - by apply join_app.
Qed.
End roles.

(** A map that assigns a descendant a role and leaves its ancestor to the default is
    accepted: the ancestor is an [agent], and a child it names [agt-settlement] is
    [senior]. *)
Theorem unassigned_ancestor_gains :
  let m := [(u "agt-payer/agt-settlement", u "senior")] in
  load_role_assignments (Some (Parsed (VMap [(u "agt-payer/agt-settlement", VStr (u "senior"))]))) = Ok m
  ∧ role_at m DEFAULT_ROLE [u "agt-payer"] = u "agent"
  ∧ role_at m DEFAULT_ROLE [u "agt-payer"; u "agt-settlement"] = u "senior".
Proof. split; [|split]; vm_compute; reflexivity. Qed.

(** The empty path is nobody's ancestor: a map may give the root a role and a child another. *)
Theorem root_gains :
  let m := [([], u "agent"); (u "agt-payer", u "senior")] in
  load_role_assignments (Some (Parsed (VMap [([], VStr (u "agent")); (u "agt-payer", VStr (u "senior"))]))) = Ok m
  ∧ role_at m DEFAULT_ROLE [] = u "agent" ∧ role_at m DEFAULT_ROLE [u "agt-payer"] = u "senior".
Proof. split; [|split]; vm_compute; reflexivity. Qed.

(** ** Starting *)
Section starting.
Context {UN : Unicode} {ST : SortTies} {CA : Casing} {RT : Routing} {BL : BiscuitLib}
  {RP : PyRepr} {KEYS : Ed25519} {CD : Cedar}.

Lemma as_config_error_Ok {A} caught (m : py A) a : as_config_error caught m = Ok a → m = Ok a.
Proof. destruct m as [x|e]; [done|]. cbn. by destruct (caught e). Qed.

Lemma require_Ok env name v : _require env name = Ok v → v = env_text env name ∧ v ≠ [].
Proof. unfold _require. by destruct (env_text env name); [|intros [= <-]]. Qed.

(** What the signature of a loaded bundle covers is what that of the typed one does. *)
Lemma typed_payload lb bundle : typed_bundle lb = Ok bundle → loaded_payload lb = signing_payload bundle.
Proof.
  destruct lb as [version source serial schema tools]. unfold typed_bundle.
  intros (t & Ht & H)%bind_Ok_inv. apply bind_Ok_inv in H as (s & Hs & H).
  apply bind_Ok_inv in H as (v & Hv & H). apply bind_Ok_inv in H as (sc & Hsc & H). apply Ok_inj in H. subst bundle.
  cbn [lb_tools lb_cedar_source lb_version lb_entity_schema] in *.
  destruct tools; try done; apply Ok_inj in Ht; subst t; destruct source; try done; apply Ok_inj in Hs; subst s;
    destruct version; try done; apply Ok_inj in Hv; subst v; destruct schema; try done; apply Ok_inj in Hsc; by subst sc.
Qed.

Lemma typed_verifies lb bundle signature k :
  typed_bundle lb = Ok bundle → verify_loaded lb signature k = verify_bundle bundle signature k.
Proof. intros H. unfold verify_loaded, verify_bundle. by rewrite (typed_payload _ _ H). Qed.

Lemma load_policy_Ok key_hex doc signature e :
  load_policy key_hex doc signature = Ok e →
  ∃ payload s bundle k ps, doc = Parsed payload ∧ signature = Some s
    ∧ (bundle_of payload ≫= typed_bundle) = Ok bundle
    ∧ public_key_from_hex key_hex = Ok k ∧ verify_bundle bundle s k = Ok tt
    ∧ tool_catalogue (pb_tools bundle) = Ok (ce_tools e) ∧ PolicySet_from_str (pb_cedar_source bundle) = Some ps
    ∧ e = mkCedarEngine bundle (ce_tools e) false None (Some ps).
Proof.
  unfold load_policy. intros (payload & Hd & H)%bind_Ok_inv. destruct doc; try done. injection Hd as ->.
  destruct signature as [s|]; [|done]. apply bind_Ok_inv in H as (lb & Hb & H).
  apply bind_Ok_inv in H as ([] & Hv%as_config_error_Ok & He%as_config_error_Ok).
  apply bind_Ok_inv in He as (bundle & Hty & He). apply bind_Ok_inv in Hv as (k & Hk & Hv).
  rewrite (typed_verifies _ _ _ _ Hty) in Hv. unfold new_engine in He.
  assert ((bundle_of payload ≫= typed_bundle) = Ok bundle) as Hbt by (rewrite Hb; exact Hty).
  apply bind_Ok_inv in He as (facts & Hf & He).
  destruct (PolicySet_from_str _) as [ps|] eqn:Hps; [|done]. injection He as <-. cbn [ce_tools]. eauto 15.
Qed.

(** C23: What starts is what was signed and configured.  A service that is built enforces the
    policy of a bundle whose signature verified under the configured key, with the tool
    catalogue that bundle carries; accepts exactly the root keys configured, at least one;
    gives an agent the role the configured assignments have for its path, never one its
    token states; and reads the caveats off the chain. *)
Theorem deployed_as_configured {RV DR : Type} env files point pool emitter settlement (revocation : RV)
    (drift : option DR) ttl (p : Pipeline (RV := RV) (DR := DR)) :
  build_service env files point pool emitter settlement revocation drift ttl = Ok p →
  ∃ settings payload s bundle k ps roles,
    from_env env = Ok settings
    ∧ df_bundle files = Parsed payload ∧ (bundle_of payload ≫= typed_bundle) = Ok bundle ∧ df_signature files = Some s
    ∧ public_key_from_hex (ss_policy_public_key_hex settings) = Ok k ∧ verify_bundle bundle s k = Ok tt
    ∧ ce_bundle (pl_policy p) = bundle ∧ tool_catalogue (pb_tools bundle) = Ok (ce_tools (pl_policy p))
    ∧ PolicySet_from_str (pb_cedar_source bundle) = Some ps ∧ ce_policy_set (pl_policy p) = Some ps
    ∧ ce_stale (pl_policy p) = false
    ∧ Forall2 (λ text key, fromhex text ≫= point = Some key) (ss_root_public_keys_hex settings) (keys (pl_key_set p))
    ∧ keys (pl_key_set p) ≠ []
    ∧ (load_role_assignments (match ss_role_assignments_path settings with
                                Some _ => df_roles files | None => None end) = Ok roles
       ∧ pl_principal_for p = principal_for roles (ss_default_role settings))
    ∧ pl_caveats_for p = token_caveats.
Proof.
  unfold build_service. intros (settings & Hs & H)%bind_Ok_inv.
  apply bind_Ok_inv in H as (e & Hp & H). apply bind_Ok_inv in H as (roles & Hroles & H).
  apply bind_Ok_inv in H as (routes & Hroutes & H). apply bind_Ok_inv in H as (ks & Hks & H).
  apply bind_Ok_inv in H as (key_set & Hk & [= <-]).
  apply load_policy_Ok in Hp as (payload & s & bundle & k & ps & Hd & Hsig & Hb & Hkey & Hv & Ht & Hps & ->).
  cbn [ce_tools] in Ht. unfold mk_RootKeySet in Hk. destruct ks as [|k0 ks]; [done|]. injection Hk as <-.
  exists settings, payload, s, bundle, k, ps, roles.
  cbn [pl_policy pl_key_set pl_principal_for pl_caveats_for ce_bundle ce_tools ce_policy_set ce_stale keys].
  do 11 (split; [done|]). split.
  { apply res_map_Forall2 in Hks. eapply Forall2_impl; [exact Hks|]. intros text key Hx. cbn beta in Hx.
    by destruct (fromhex text ≫= point); [injection Hx as ->|]. }
  split; [done|]. split; [|done]. split; [|done].
  by destruct (ss_role_assignments_path settings).
Qed.

(** The service has every setting it enforces with: an unset, blank or malformed one
    stops it before anything is built. *)
Theorem settings_complete env s :
  from_env env = Ok s →
  Forall (λ name, env_text env (var name) ≠ [])
    ["ROOT_PUBLIC_KEYS"; "DATABASE_URL"; "REDIS_URL"; "CONTROL_PLANE_URL"; "MANDATE_ID"; "POLICY_BUNDLE_PATH";
     "POLICY_BUNDLE_SIG_PATH"; "POLICY_PUBLIC_KEY"; "ROUTES_PATH"]%string
  ∧ Forall (λ key, hex_key key = true) (ss_root_public_keys_hex s)
  ∧ parse_uuid (env_text env (var "MANDATE_ID")) = Some (ss_mandate_id s)
  ∧ upstream_base_url (ss_pep s) ≠ [] ∧ 0 <= connect_retries (ss_pep s)
  ∧ pydec_compare (ss_lease_size s) (DFin (Dec 0 0)) = Ok Gt
  ∧ ss_default_role s ≠ [] ∧ ss_pep_id s ≠ [].
Proof.
  unfold from_env. intros (kr & Hkr%require_Ok & H)%bind_Ok_inv.
  apply bind_Ok_inv in H as ([] & Hhex%raise_if_Ok%negb_false_iff & H).
  apply bind_Ok_inv in H as (pep & Hpep & H).
  do 3 (let v := fresh "v" in let Hv := fresh "Hv" in apply bind_Ok_inv in H as (v & Hv%require_Ok & H)).
  apply bind_Ok_inv in H as (mid & Hm & H).
  do 4 (let v := fresh "v" in let Hv := fresh "Hv" in apply bind_Ok_inv in H as (v & Hv%require_Ok & H)).
  apply bind_Ok_inv in H as (lease & Hl & H). apply bind_Ok_inv in H as (esc & _ & [= <-]).
  cbn [ss_root_public_keys_hex ss_mandate_id ss_pep ss_lease_size ss_default_role ss_pep_id].
  unfold _mandate_id in Hm. apply bind_Ok_inv in Hm as (raw & [-> Hraw]%require_Ok & Hm).
  destruct (parse_uuid _) as [i|] eqn:Hu; [|done]. injection Hm as <-.
  assert (Hup : upstream_base_url pep ≠ [] ∧ 0 <= connect_retries pep).
  { unfold pep_settings_from_env in Hpep. destruct (env !! var "UPSTREAM_BASE_URL") as [[|c up]|]; try done.
    do 7 apply bind_Ok_inv in Hpep as (? & _ & Hpep). unfold check_pep_settings in Hpep.
    apply bind_Ok_inv in Hpep as (_ & Hne%raise_if_Ok & Hpep).
    do 4 apply bind_Ok_inv in Hpep as (? & _ & Hpep).
    apply bind_Ok_inv in Hpep as (_ & Hr%raise_if_Ok & [= <-]).
    split; [by apply bool_decide_eq_false in Hne|by apply Z.ltb_ge in Hr]. }
  split.
  { repeat (constructor; [intuition congruence|]). constructor. }
  split.
  { apply Forall_forall. intros key Hk. apply list_elem_of_In in Hk. by apply (proj1 (forallb_forall _ _) Hhex). }
  split; [done|]. split; [tauto|]. split; [tauto|]. split; [|split].
  - unfold _decimal_env in Hl. destruct (env_text env (var "LEASE_SIZE")); [injection Hl as <-; reflexivity|].
    destruct (parse_decimal _) as [d|]; [|done]. apply bind_Ok_inv in Hl as (c & Hc & Hl).
    destruct c; try done. by injection Hl as <-.
  - by destruct (env_text env (var "DEFAULT_ROLE")).
  - by destruct (env_text env (var "ID")).
Qed.
End starting.

(** ** Running *)
Section lifespan_spec.
Context {W A : Type} (sink : W → list PendingSettlement → py (list bool) * W)
  (audit_sink : A → list DecisionRecord → write_result * A).

(** Shutdown settles before it releases: while the ledger answers, nothing is owed to
    it when the leases go back, exactly the leases still active are released, and the pool
    takes no more. *)
Theorem shutdown_settles_first ss es r :
  0 < ss_batch_max ss → answers_all sink → (∀ w b, is_ok (sink w b).1 = true) → q_closed (rn_queue r) = false →
  let '(r', released) := shutdown sink audit_sink ss es r in
  q_pending (rn_queue r') = [] ∧ p_closed (rn_pool r') = true
  ∧ (∀ id, id ∈ released ↔ ∃ d h, p_held (rn_pool r) !! d = Some h ∧ ll_state (hd_lease h) = ACTIVE
                                   ∧ ll_id (hd_lease h) = id)
  ∧ ∀ d h, p_held (rn_pool r') !! d = Some h → ll_state (hd_lease h) ≠ ACTIVE.
Proof.
  intros Hs Hall Hok Hq. unfold shutdown. destruct (aclose _ _ _ _) as [q w] eqn:Eq.
  unfold aclose_pool. destruct (close_emitter _ _ _ _) as [e a]. cbn [rn_queue rn_pool p_closed p_held].
  split.
  { unfold aclose in Eq. rewrite Hq in Eq. apply (f_equal (λ x, q_pending x.1)) in Eq. cbn [fst] in Eq.
    rewrite <- Eq. unfold drain. by apply drain_fuel_empties. }
  split; [done|]. split.
  - intros id. rewrite list_elem_of_fmap. split.
    + intros ([d h] & -> & [Hst Hin]%list_elem_of_filter). apply elem_of_map_to_list in Hin. eauto.
    + intros (d & h & Hh & Hst & <-). exists (d, h). split; [done|]. apply list_elem_of_filter.
      split; [done|]. by apply elem_of_map_to_list.
  - intros d h. rewrite lookup_fmap. destruct (p_held (rn_pool r) !! d) as [h0|]; [|done].
    intros [= <-]. by destruct (decide _).
Qed.
End lifespan_spec.

(** What can happen to a pool while it serves: the request path, settlements, the renewal
    sweep, and the end of a top-up under way. *)
Inductive serving (s : PoolSettings) : pool → pool → Prop :=
| serve_check p reqs now loop : serving s p (pool_check s p reqs now loop).2
| serve_reserve p d amount now loop rid : serving s p (pool_reserve s p d amount now loop rid).2
| serve_commit p d r actual now fresh : serving s p (pool_commit s p d r actual now fresh).2
| serve_sweep p now : serving s p (renew_sweep s p now)
| serve_topup p d grant : d ∈ p_tasks p → serving s p (topup_done (acquire_reply p d grant).1.1 d).

Lemma serving_unprimed s p p' :
  serving s p p' → p_held p = ∅ → p_tasks p = [] → p_held p' = ∅ ∧ p_tasks p' = [].
Proof.
  intros Hst Hh Ht. assert (Hn : ∀ d, p_held p !! d = None) by (intros d; by rewrite Hh).
  destruct Hst as [p reqs now loop|p d amount now loop rid|p d r actual now fresh|p now|p d grant Hd].
  - assert (Hc : (pool_check s p reqs now loop).2 = p); [|by rewrite Hc].
    induction reqs as [|[d a] reqs IH]; simpl; [done|]. destruct (a <=? 0); [done|]. by rewrite Hn.
  - unfold pool_reserve. by rewrite Hn.
  - unfold pool_commit. by rewrite Hn.
  - unfold renew_sweep. destruct (p_closed p); [done|]. rewrite Hh, map_to_list_empty. done.
  - rewrite Ht in Hd. by apply elem_of_nil in Hd.
Qed.

(** A service that got no lease at start-up never gets one.  Whatever is asked of it
    afterwards, it holds no lease and asks the ledger for none, and it refuses every
    request that costs money, until it is restarted. *)
Theorem unprimed_never_recovers s ask p :
  match ask tt with Ok (Some _) => False | _ => True end →
  rtc (serving s) (startup empty_pool ask).1 p →
  p_held p = ∅ ∧ p_tasks p = []
  ∧ ∀ d amount now loop, 0 < amount →
      (pool_check s p [(d, amount)] now loop).1 = Ok (mkBudgetVerdict false (Some d) false)
      ∧ ∀ rid, (pool_reserve s p d amount now loop rid).1 = Raise ReservationInsufficientError.
Proof.
  intros Hask Hr. assert (H : p_held p = ∅ ∧ p_tasks p = []).
  { assert (H0 : p_held (startup empty_pool ask).1 = ∅ ∧ p_tasks (startup empty_pool ask).1 = []).
    { unfold startup. change (p_held empty_pool !! SPEND_BDT) with (None : option Held).
      destruct (ask tt) as [[g|]|]; done. }
    revert H0. induction Hr as [|x y z Hxy _ IH]; [done|]. intros [??]. apply IH. by eapply serving_unprimed. }
  destruct H as [Hh Ht]. split; [done|]. split; [done|]. intros d amount now loop Ha.
  assert (Hn : p_held p !! d = None) by (by rewrite Hh). split.
  - simpl. rewrite (proj2 (Z.leb_gt _ _)) by done. by rewrite Hn.
  - intros rid. unfold pool_reserve. by rewrite Hn.
Qed.

(** ** A concrete deployment *)
#[local] Existing Instance identity_unicode.
#[local] Existing Instance position_order.
#[local] Existing Instance ascii_casing.
#[local] Existing Instance prefix_routing.
#[local] Existing Instance toy_cedar.
#[local] Existing Instance toy_lib.
#[local] Existing Instance toy_repr.
#[local] Existing Instance echo_keys.

Definition demo_key : pystr := repeat 97 64.
Definition demo_env (more : list (string * string)) : environ :=
  list_to_map ((λ kv : string * string, (var kv.1, u kv.2)) <$> more
    ++ [("DATABASE_URL", "postgres"); ("REDIS_URL", "redis"); ("CONTROL_PLANE_URL", "http://cp");
        ("MANDATE_ID", "00000000-0000-0000-0000-000000000001"); ("POLICY_BUNDLE_PATH", "b.json");
        ("POLICY_BUNDLE_SIG_PATH", "b.sig"); ("ROUTES_PATH", "r.json"); ("UPSTREAM_BASE_URL", "http://tools");
        ("ROLE_ASSIGNMENTS_PATH", "roles.json");
        ("ROOT_PUBLIC_KEYS", "aaaaaaaaaaaaaaaaaaaaaaaaaaaaaaaaaaaaaaaaaaaaaaaaaaaaaaaaaaaaaaaa");
        ("POLICY_PUBLIC_KEY", "abababababababababababababababababababababababababababababababab")]%string).

Definition demo_payload : list (pystr * value) :=
  [(u "version", VStr (u "bundle-1")); (u "cedar_source", VStr (u "permit")); (u "serial", VInt 4);
   (u "tools", VMap [(u "pay", VMap [(u "sensitivity", VStr (u "high"))])])].
Definition demo_roles : list (pystr * value) :=
  [(u "payer", VStr (u "senior")); (u "payer/sub", VStr (u "senior"))].
Definition demo_files : deployment_files :=
  mkFiles (Parsed (VMap demo_payload))
    (match bundle_of (VMap demo_payload) ≫= loaded_payload with Ok m => Some m | Raise _ => None end)
    (Some (Parsed (VMap demo_roles))) demo_config.
Definition demo_service (more : list (string * string)) : py (Pipeline (RV := unit) (DR := unit)) :=
  build_service (demo_env more) demo_files (λ _, Some 7) demo_settings (mkEmitterSettings 1 BP_DENY 10 1)
    (mkSettlementSettings 10 10 3 1) tt None (λ _, 0).

Lemma deployed_as_configured_witness :
  ∃ p, demo_service [] = Ok p ∧ keys (pl_key_set p) ≠ [] ∧ ce_stale (pl_policy p) = false
       ∧ ce_tools (pl_policy p) !! u "pay" = Some (mkToolFacts (u "pay") [] (u "high") false).
Proof.
  assert (E0 : match demo_service [] with
    | Ok p => ce_tools (pl_policy p) !! u "pay" = Some (mkToolFacts (u "pay") [] (u "high") false)
    | Raise _ => False end) by (vm_compute; reflexivity).
  destruct (demo_service []) as [p|] eqn:Hp; [|destruct E0]. exists p. rename E0 into Ht.
  pose proof Hp as Hq. unfold demo_service in Hq.
  destruct (deployed_as_configured _ _ _ _ _ _ _ _ _ _ Hq)
    as (settings & payload & s & bundle & k & ps & roles & _ & _ & _ & _ & _ & _ & _ & _ & _ & _ & Hst & _ & Hk & _).
  split; [reflexivity|]. split; [exact Hk|]. split; [exact Hst|exact Ht].
Defined.

Lemma settings_complete_witness :
  ∃ s, from_env (demo_env []) = Ok s ∧ Forall (λ key, hex_key key = true) (ss_root_public_keys_hex s).
Proof.
  assert (E0 : is_ok (from_env (demo_env [])) = true) by (vm_compute; reflexivity).
  destruct (from_env (demo_env [])) as [s|] eqn:Hs; [|discriminate E0]. exists s. split; [reflexivity|].
  exact (proj1 (proj2 (settings_complete _ _ Hs))).
Defined.

Lemma widening_refused_exactly_witness :
  load_role_assignments (Some (Parsed (VMap demo_roles)))
  = Ok [(u "payer", u "senior"); (u "payer/sub", u "senior")].
Proof.
  apply widening_refused_exactly.
  - apply (bool_decide_unpack _). vm_compute. exact I.
  - vm_compute. reflexivity.
  - intros k1 r1 k2 r2 x H1 H2 _. apply elem_of_cons in H1 as [H1|H1%list_elem_of_singleton];
      apply elem_of_cons in H2 as [H2|H2%list_elem_of_singleton]; congruence.
Defined.

(** A payer that delegates to [sub], which claims to be an [admin]: it is [senior], as its
    parent is, and a further child is an [agent]. *)
Definition role_chain (agents : list string) : VerifiedToken :=
  let '(mkVerifiedToken b m t p i s bu sb md nb ex d r sz w) := toy_vt in
  mkVerifiedToken
    (mkToy (u "En0K") (u "scope(a);" :: ((λ a, u "agent(" ++ [34] ++ u a ++ [34] ++ u ");" ++ [newline]
                          ++ u "role(" ++ [34] ++ u "admin" ++ [34] ++ u ");") <$> agents)) [] None)
    m t p i s bu sb md nb ex d r sz w.

Lemma minting_gains_no_role_witness :
  ∃ pp pc, principal_for [(u "payer", u "senior"); (u "payer/sub", u "senior")] DEFAULT_ROLE (role_chain ["payer"]) = Ok pp
    ∧ principal_for [(u "payer", u "senior"); (u "payer/sub", u "senior")] DEFAULT_ROLE
        (role_chain ["payer"; "helper"]) = Ok pc
    ∧ ap_role pp = u "senior" ∧ ap_role pc = DEFAULT_ROLE ∧ ap_declared_role pc = u "admin"
    ∧ (ap_role pc = u "senior" ∨ ap_role pc = DEFAULT_ROLE).
Proof.
  assert (E0 : ∃ pp pc cp cc,
    principal_for [(u "payer", u "senior"); (u "payer/sub", u "senior")] DEFAULT_ROLE (role_chain ["payer"]) = Ok pp
    ∧ principal_for [(u "payer", u "senior"); (u "payer/sub", u "senior")] DEFAULT_ROLE
        (role_chain ["payer"; "helper"]) = Ok pc
    ∧ chain_identity (role_chain ["payer"]) = Ok cp ∧ chain_identity (role_chain ["payer"; "helper"]) = Ok cc
    ∧ path cp = [u "payer"] ∧ path cc = [u "payer"; u "helper"] ∧ ap_role pc = DEFAULT_ROLE
    ∧ ap_declared_role pc = u "admin").
  { do 4 eexists. repeat (split; [vm_compute; reflexivity|]). vm_compute; reflexivity. }
  destruct E0 as (pp & pc & cp & cc & Hpp & Hpc & Hcp & Hcc & Hp & Hc & Hd & Ha). exists pp, pc.
  destruct (minting_gains_no_role demo_roles [(u "payer", u "senior"); (u "payer/sub", u "senior")] DEFAULT_ROLE
    (role_chain ["payer"]) (role_chain ["payer"; "helper"]) cp cc pp pc [u "helper"] (u "senior")) as [H1 H2].
  - apply (bool_decide_unpack _). vm_compute. exact I.
  - vm_compute. reflexivity.
  - exact Hcp.
  - exact Hcc.
  - rewrite Hc, Hp. reflexivity.
  - rewrite Hp. discriminate.
  - rewrite Hp. vm_compute. reflexivity.
  - exact Hpp.
  - exact Hpc.
  - split; [exact Hpp|]. split; [exact Hpc|]. split; [exact H1|]. split; [exact Hd|]. split; [exact Ha|exact H2].
Defined.

(** ** What the settings let through *)

(** An infinite lease size is above zero. *)
Theorem infinite_lease_accepted :
  (ss_lease_size <$> from_env (demo_env [("LEASE_SIZE", "Infinity")]%string)) = Ok (DInf false).
Proof. vm_compute. reflexivity. Qed.

(** A timeout that is not a number is not at most zero. *)
Theorem nan_timeout_accepted :
  match from_env (demo_env [("READ_TIMEOUT_S", "nan")]%string) with
  | Ok s => read_timeout_s (ss_pep s) = S754_nan
  | Raise _ => False
  end.
Proof. vm_compute. reflexivity. Qed.

(** A list of separators is a setting with no root key: it passes the settings and stops
    the assembly. *)
Theorem no_root_keys_refused :
  is_ok (from_env (demo_env [("ROOT_PUBLIC_KEYS", ",")]%string)) = true
  ∧ match demo_service [("ROOT_PUBLIC_KEYS", ",")]%string with Raise e => e = ValueError | Ok _ => False end.
Proof. split; vm_compute; reflexivity. Qed.

Lemma shutdown_settles_first_witness :
  let r := mkRunning (mkQueue [mkPending 3%N 7%N 5 0] false 0 0 0 0) 0 demo_pool new_emitter tt in
  let x := shutdown counting_sink (λ a _, (Written, a)) (mkSettlementSettings 8 250 2 500)
             (mkEmitterSettings 1 BP_DENY 10 1) r in
  q_pending (rn_queue x.1) = [] ∧ x.2 = [3%N].
Proof.
  intros r x. split; [|vm_compute; reflexivity].
  pose proof (shutdown_settles_first counting_sink (λ (a : unit) _, (Written, a)) (mkSettlementSettings 8 250 2 500)
    (mkEmitterSettings 1 BP_DENY 10 1) r) as H.
  destruct (shutdown _ _ _ _ r) as [r' released] eqn:E0. subst x.
  destruct H as (H & _); [reflexivity| |reflexivity|reflexivity|].
  - intros w b vs w' [= <- <-]. apply length_replicate.
  - exact H.
Defined.

(** The ledger was down at boot; a minute later the PEP still refuses, and asks nothing. *)
Lemma unprimed_never_recovers_witness :
  let p := (startup empty_pool (λ _, Raise OperationalError)).1 in
  p_tasks (pool_check demo_settings p [(SPEND_BDT, 10000)] 60000000 true).2 = []
  ∧ p_held (pool_check demo_settings p [(SPEND_BDT, 10000)] 60000000 true).2 = ∅.
Proof.
  intros p.
  destruct (unprimed_never_recovers demo_settings (λ _, Raise OperationalError)
    (pool_check demo_settings p [(SPEND_BDT, 10000)] 60000000 true).2 I) as (Hh & Ht & _).
  - apply rtc_once. constructor.
  - split; [exact Ht|exact Hh].
Defined.
