(* ===== verification/Chains.v ===== *)
(** * Chains that grow

    What verification reads of a token, and what appending a block to its chain changes
    of it: nothing but the depth. *)
From S2P Require Import Prelude PyText Errors PyNum PyRe PyTime PyUuid Models Caveats Tokens Attenuation.

(** ** Appending a block *)

(** What biscuit documents: a token spells one chain, whichever root key opens it; and a
    chain with a block appended opens under the same keys, is one block longer, and shows
    a fact-reading authorizer the facts of the authority block, as it did before. *)
Class AppendOnly {BL : BiscuitLib} := {
  append_opens : ∀ t k b k' source b',
    from_base64 t k = Some b → lib_append b source = Ok b' →
    from_base64 (to_base64 b') k' = match from_base64 t k' with Some _ => Some b' | None => None end;
  open_once : ∀ t k k' b b', from_base64 t k = Some b → from_base64 t k' = Some b' → b' = b;
  append_count : ∀ b source b', lib_append b source = Ok b' → block_count b' = block_count b + 1;
  append_facts : ∀ b source b' rule r r',
    lib_append b source = Ok b' → lib_query limits reader b rule = Ok r →
    lib_query limits reader b' rule = Ok r' → r' = r }.

Section child.
Context {BL : BiscuitLib}.

(** Everything [verify] read. *)
Record read_token (b : Biscuit) (vt : VerifiedToken) : Prop := {
  rt_biscuit : vt_biscuit vt = b;
  rt_mandate : ∃ t, required b "mandate" = Ok t ∧ _as_uuid t = Ok (vt_mandate_id vt);
  rt_intent : ∃ t, required b "intent" = Ok t ∧ vt_intent_hash vt = str_of_term t;
  rt_depth_limit : ∃ t, required b "max_depth" = Ok t ∧ as_int t = Some (vt_max_depth vt);
  rt_nb : ∃ t, required b "not_before" = Ok t ∧ as_date t = Some (vt_not_before vt);
  rt_exp : ∃ t, required b "expires_at" = Ok t ∧ as_date t = Some (vt_expires_at vt);
  rt_depth : vt_depth vt = block_count b - 1;
  rt_deep : vt_depth vt <= vt_max_depth vt;
  rt_scopes : ∃ fs l, raw (lib_query limits reader b (u "d($s) <- scope($s)")) = Ok fs
    ∧ res_map (λ f, t ← term0 f; Ok (str_of_term t)) fs = Ok l ∧ vt_scopes vt = list_to_set l;
  rt_budget : ∃ fs l, raw (lib_query limits reader b (u "d($k, $v) <- budget($k, $v)")) = Ok fs
    ∧ res_map budget_entry fs = Ok l ∧ vt_scaled_budget vt = dict_of l
    ∧ from_scaled (λ d, dict_of l !! d) = Ok (vt_budget vt) }.

Lemma verify_inv token ks now vt :
  verify token ks now = Ok vt → ∃ b, _parse token ks = Ok b ∧ read_token b vt.
Proof.
  unfold verify. intros Hv.
  apply bind_Ok_inv in Hv as (? & Haware & Hv). apply bind_Ok_inv in Hv as (? & Hsize & Hv).
  apply bind_Ok_inv in Hv as (b & Hb & Hv). exists b. split; [done|].
  apply bind_Ok_inv in Hv as (mandate & Hm & Hv). apply bind_Ok_inv in Hv as (task & Ht & Hv).
  apply bind_Ok_inv in Hv as (principal & Hp & Hv). apply bind_Ok_inv in Hv as (intent & Hi & Hv).
  apply bind_Ok_inv in Hv as (depth & Hd & Hv). apply bind_Ok_inv in Hv as (nb & Hnb & Hv).
  apply bind_Ok_inv in Hv as (ex & Hex & Hv).
  destruct (as_date nb) as [nb'|] eqn:Enb; [|done]. destruct (as_date ex) as [ex'|] eqn:Eex; [|done].
  destruct (as_int depth) as [md|] eqn:Ed; [|done]. cbn [mbind res_bind] in Hv.
  inv_ok. zify_bool. split; simpl; eauto 10.
Qed.

Context {AO : AppendOnly}.

Lemma parse_child t ks b source b' ks' c :
  _parse t ks = Ok b → lib_append b source = Ok b' → _parse (to_base64 b') ks' = Ok c → c = b'.
Proof.
  intros Hp Ha Hp'. apply _parse_Ok in Hp as (_ & k & _ & Hk). apply _parse_Ok in Hp' as (_ & k' & _ & Hk').
  rewrite (append_opens _ _ _ k' _ _ Hk Ha) in Hk'.
  destruct (from_base64 t k'); [by injection Hk'|done].
Qed.

Lemma parse_once t ks b ks' b' : _parse t ks = Ok b → _parse t ks' = Ok b' → b' = b.
Proof.
  intros Hp Hp'. apply _parse_Ok in Hp as (_ & k & _ & Hk). apply _parse_Ok in Hp' as (_ & k' & _ & Hk').
  by eapply open_once.
Qed.

(** Two chains that show the same facts. *)
Definition same_facts (b b' : Biscuit) : Prop := ∀ rule r r',
  lib_query limits reader b rule = Ok r → lib_query limits reader b' rule = Ok r' → r' = r.

Lemma same_facts_refl b : same_facts b b.
Proof. intros rule r r'. congruence. Qed.

Lemma append_same_facts b source b' : lib_append b source = Ok b' → same_facts b b'.
Proof. intros Ha rule r r'. by apply append_facts with source. Qed.

Lemma query_facts b b' rule r r' :
  same_facts b b' → raw (lib_query limits reader b rule) = Ok r →
  raw (lib_query limits reader b' rule) = Ok r' → r' = r.
Proof.
  unfold raw. intros Ha Hr Hr'.
  destruct (lib_query limits reader b rule) as [x|[]] eqn:E; [|done|done]. injection Hr as <-.
  destruct (lib_query limits reader b' rule) as [y|[]] eqn:E'; [|done|done]. injection Hr' as <-.
  by eapply Ha.
Qed.

Lemma required_same b b' p t t' :
  same_facts b b' → required b p = Ok t → required b' p = Ok t' → t' = t.
Proof.
  unfold required, _query_one. intros Ha Ht Ht'.
  destruct (lib_query _ _ b _) as [r|[]] eqn:E; [|done|done].
  destruct (lib_query _ _ b' _) as [r'|[]] eqn:E'; [|done|done].
  rewrite (Ha _ _ _ E E') in Ht'. congruence.
Qed.

(** Tokens that show the same facts carry the same grant. *)
Lemma read_same b b' vt vt' :
  same_facts b b' → read_token b vt → read_token b' vt' →
  vt_mandate_id vt' = vt_mandate_id vt
  ∧ grant_caveats vt' = grant_caveats vt ∧ vt_scopes vt' = vt_scopes vt
  ∧ vt_max_depth vt' = vt_max_depth vt.
Proof.
  intros Ha [_ (m & Hm & Hm') (i & Hi & Hi') (d & Hd & Hd') (n & Hn & Hn') (e & He & He') Hdep _
              (sf & sl & Hs & Hs' & Hs'') (bf & bl & Hb & Hb' & _ & Hb'')].
  intros [_ (m2 & Hm2 & Hm2') (i2 & Hi2 & Hi2') (d2 & Hd2 & Hd2') (n2 & Hn2 & Hn2') (e2 & He2 & He2')
            Hdep2 _ (sf2 & sl2 & Hs2 & Hs2' & Hs2'') (bf2 & bl2 & Hb2 & Hb2' & _ & Hb2'')].
  pose proof (required_same _ _ _ _ _ Ha Hm Hm2) as ->.
  pose proof (required_same _ _ _ _ _ Ha Hi Hi2) as ->.
  pose proof (required_same _ _ _ _ _ Ha Hd Hd2) as ->.
  pose proof (required_same _ _ _ _ _ Ha Hn Hn2) as ->.
  pose proof (required_same _ _ _ _ _ Ha He He2) as ->.
  pose proof (query_facts _ _ _ _ _ Ha Hs Hs2) as ->.
  pose proof (query_facts _ _ _ _ _ Ha Hb Hb2) as ->.
  assert (sl2 = sl) as -> by congruence. assert (bl2 = bl) as -> by congruence.
  assert (vt_scopes vt' = vt_scopes vt) as Es by congruence.
  assert (vt_max_depth vt' = vt_max_depth vt) as Ed by congruence.
  split_and!; [congruence| |done|done].
  unfold grant_caveats. rewrite Es, Ed, Hi2', Hi'.
  replace (vt_not_before vt') with (vt_not_before vt) by congruence.
  replace (vt_expires_at vt') with (vt_expires_at vt) by congruence.
  by replace (vt_budget vt') with (vt_budget vt) by congruence.
Qed.

(** The child's grant is its parent's; only the depth differs. *)
Lemma read_child b source b' vt vt' :
  lib_append b source = Ok b' → read_token b vt → read_token b' vt' →
  vt_mandate_id vt' = vt_mandate_id vt
  ∧ grant_caveats vt' = grant_caveats vt ∧ vt_scopes vt' = vt_scopes vt
  ∧ vt_depth vt' = vt_depth vt + 1 ∧ vt_max_depth vt' = vt_max_depth vt.
Proof.
  intros Ha Hr Hr'.
  destruct (read_same _ _ _ _ (append_same_facts _ _ _ Ha) Hr Hr') as (? & ? & ? & ?).
  pose proof (append_count _ _ _ Ha). pose proof (rt_depth _ _ Hr). pose proof (rt_depth _ _ Hr').
  split_and!; try done. lia.
Qed.

Lemma attenuate_inv parent cs agent_id role anc child :
  attenuate parent cs agent_id role anc = Ok child →
  ∃ g source b, grant_caveats parent = Ok g ∧ check_narrowing cs (g ++ anc) = Ok tt
    ∧ lib_append (vt_biscuit parent) source = Ok b ∧ child = to_base64 b.
Proof.
  unfold attenuate. intros Ha.
  apply bind_Ok_inv in Ha as (? & _ & Ha). apply bind_Ok_inv in Ha as (? & _ & Ha).
  apply bind_Ok_inv in Ha as (g & Hg & Ha). apply bind_Ok_inv in Ha as ([] & Hn & Ha).
  apply bind_Ok_inv in Ha as (body & _ & Ha). cbv zeta in Ha.
  apply bind_Ok_inv in Ha as (b & Hb & Ha). apply bind_Ok_inv in Ha as (? & _ & [= <-]).
  unfold raw in Hb. destruct (lib_append (vt_biscuit parent) _) as [y|[]] eqn:E; [|done|done].
  injection Hb as ->. by eexists g, _, b.
Qed.
End child.

(** ** A concrete library whose chains grow

    A chain is the list of its appended blocks; its text spells them out, and the
    authority facts are fixed. *)
Fixpoint spell (blocks : list pystr) : pystr :=
  match blocks with
  | [] => []
  | b :: bs => (b ≫= λ x, [1; x]) ++ 0 :: spell bs
  end.

Fixpoint unspell (acc : pystr) (t : pystr) : option (list pystr) :=
  match t with
  | [] => match acc with [] => Some [] | _ => None end
  | 0 :: t => bs ← unspell [] t; Some (rev acc :: bs)
  | 1 :: x :: t => unspell (x :: acc) t
  | _ => None
  end.

Lemma unspell_spell blocks : unspell [] (spell blocks) = Some blocks.
Proof.
  induction blocks as [|b bs IH]; [done|]. simpl.
  assert (∀ acc, unspell acc ((b ≫= λ x, [1; x]) ++ 0 :: spell bs) = Some ((rev acc ++ b) :: bs)) as H.
  { induction b as [|x b IHb]; intros acc; simpl.
    - rewrite IH. simpl. by rewrite app_nil_r.
    - rewrite IHb. simpl. by rewrite <- app_assoc. }
  by rewrite H.
Qed.

Definition growing_answers : list (pystr * list (list bterm)) :=
  let one p t := (u "d($x) <- " ++ u p ++ u "($x)", [[t]]) in
  [one "mandate"%string (BStr (uuid_text 1)); one "task"%string (BStr (uuid_text 2));
   one "principal"%string (BStr (u "user:1")); one "intent"%string (BStr (repeat 97 64));
   one "max_depth"%string (BInt 2); one "not_before"%string (BDate 100);
   one "expires_at"%string (BDate 200);
   (u "d($s) <- scope($s)", [[BStr (u "invoice:read")]; [BStr (u "payment:initiate")]]);
   (u "d($k, $v) <- budget($k, $v)", [[BStr (u "spend_bdt"); BInt 500000]; [BStr (u "tool_calls"); BInt 50000]])].

Definition growing : BiscuitLib := {|
  Biscuit := list pystr; PublicKey := Z; PrivateKey := Z;
  from_base64 token key :=
    if key =? 7 then t ← strip_prefix (u "En0K") token; unspell [] t else None;
  to_base64 b := u "En0K" ++ spell b;
  block_count b := 1 + Z.of_nat (length b);
  block_source b i := default [] (b !! Z.to_nat (i - 1));
  lib_revocation_ids b := u "root" :: b;
  lib_query _ _ b rule := Ok (default [] (snd <$> (snd <$> list_find (λ p, p.1 = rule) growing_answers)));
  lib_authorize _ _ b := Ok tt;
  lib_append b text := Ok (b ++ [text]);
  lib_build text key := Ok [] |}.

Lemma growing_append_only : @AppendOnly growing.
Proof.
  split.
  - intros t k b k' source b' Hk [= <-]. simpl in *.
    destruct (Z.eqb_spec k 7); [|done]. destruct (Z.eqb_spec k' 7); [|done].
    rewrite Hk. apply unspell_spell.
  - intros t k k' b b'. simpl. do 2 (destruct (_ =? _); [|done]). congruence.
  - intros b source b' [= <-]. simpl. rewrite length_app. simpl. lia.
  - intros b source b' rule r r' _ [= <-] [= <-]. done.
Qed.
