(* ===== verification/Sdk.v ===== *)
(** * The client SDK (agentiam_sdk: identity.py, client.py, context.py, decorators.py)

    What an agent holds: its identity, folded from its grant and the caveats it knows;
    the client that mints narrower children offline; the identity that is current in a
    ctx_id; and the scope check at a call site. *)
From S2P Require Import Prelude PyText Errors PyNum PyRe PyTime PyUuid Models Caveats Tokens Attenuation Escalation.

(** Names of contexts and of scope objects. *)
Abbreviation ctx_id := nat.
Abbreviation scope_id := nat.

Section sdk.
Context {BL : BiscuitLib}.

(** ** identity.py *)
Record AgentIdentity := mkIdentity {
  ai_token : pystr;
  ai_verified : VerifiedToken;
  ai_agent_id : pystr;
  ai_role : pystr;
  ai_known_caveats : list Caveat;
  ai_authority : EffectiveAuthority;
  ai_budget : Budget }.

(** [budget.get(dimension)], in units. *)
Definition budget_units (b : Budget) (d : BudgetDimension) : Z := default 0 (dec_units (Budget_get b d)).

(** [grant if bound is None else f(grant, bound)]. *)
Definition or_bound {A} (f : A → A → A) (grant : A) (bound : option A) : A :=
  match bound with None => grant | Some b => f grant b end.

Definition fold_grant (grant : VerifiedToken) (budget : Budget) (bound : EffectiveAuthority)
    : EffectiveAuthority :=
  mkEffectiveAuthority
    (Some (or_bound (∩) (vt_scopes grant) (ea_scopes bound)))
    (dict_of ((λ d, (d, budget_units budget d)) <$> all_dimensions))
    (Some (or_bound Z.max (vt_not_before grant) (ea_not_before bound)))
    (Some (or_bound Z.min (vt_expires_at grant) (ea_not_after bound)))
    (ea_tools_allowed bound) (ea_tools_denied bound)
    (Some (or_bound Z.min (vt_max_depth grant) (ea_max_depth bound)))
    (Some (or_bound (λ _ b, b) (vt_intent_hash grant) (ea_intent_hash bound)))
    (ea_approval_required bound).

(** [AgentIdentity(...)] with its [__post_init__]. *)
Definition mk_AgentIdentity (token : pystr) (verified : VerifiedToken) (agent_id role : pystr)
    (known_caveats : list Caveat) : py AgentIdentity :=
  budget ← effective_budget known_caveats (vt_budget verified);
  Ok (mkIdentity token verified agent_id role known_caveats
        (fold_grant verified budget (effective_bound known_caveats)) budget).

Definition ai_scopes (i : AgentIdentity) : gset pystr := default ∅ (ea_scopes (ai_authority i)).
Definition granted_scopes (i : AgentIdentity) : gset pystr := vt_scopes (ai_verified i).
Definition ai_depth (i : AgentIdentity) : Z := vt_depth (ai_verified i).
Definition ai_expires_at (i : AgentIdentity) : Z := default 0 (ea_not_after (ai_authority i)).

(** ** client.py *)
Record AgentIAM := mkClient {
  cl_identity : AgentIdentity;
  cl_key_set : RootKeySet;
  cl_task_intent : option pystr }.

Definition cl_token (c : AgentIAM) : pystr := ai_token (cl_identity c).

(** [s or d]. *)
Definition or_default (s : option pystr) (d : pystr) : pystr :=
  match s with Some ((_ :: _) as s) => s | _ => d end.

(** [now] is the reading of the injected clock. *)
Definition mk_AgentIAM (token : pystr) (ks : RootKeySet) (role : pystr) (agent_id : option pystr)
    (known_caveats : list Caveat) (task_intent : option pystr) (now : datetime) : py AgentIAM :=
  verified ← verify token ks now;
  identity ← mk_AgentIdentity token verified
    (or_default agent_id (u "agent:" ++ uuid_text (vt_mandate_id verified))) role known_caveats;
  Ok (mkClient identity ks task_intent).

Definition headers (c : AgentIAM) (action_intent : option pystr) : list (pystr * pystr) :=
  [(u "Authorization", u "Bearer " ++ cl_token c)]
  ++ match cl_task_intent c with Some ((_ :: _) as i) => [(u "AgentIAM-Task-Intent", i)] | _ => [] end
  ++ match action_intent with Some ((_ :: _) as i) => [(u "AgentIAM-Action-Intent", i)] | _ => [] end.

(** The keyword shorthands; a budget key is the dimension's value. *)
Record restrictions := mkRestrictions {
  r_scopes : option (list pystr);
  r_budget : option (list (pystr * pyval));
  r_ttl_s : option Z;
  r_tools_allow : option (list pystr);
  r_tools_deny : option (list pystr) }.

(** A decimal field given a number or its text: [NaN] and infinities are refused. *)
Definition decimal_input (v : pyval) : py decimal :=
  match v with
  | PFloat => Raise ValidationError
  | PInt n => Ok (dec_of_int n)
  | PDec d => Ok d
  | PStr s => match parse_decimal s with Some (DFin d) => Ok d | _ => Raise ValidationError end
  end.

(** [BudgetCeiling.model_validate({"dimension": BudgetDimension(k), "value": v})]. *)
Definition ceiling_entry (e : pystr * pyval) : py Caveat :=
  d ← match dimension_of e.1 with Some d => Ok d | None => Raise ValueError end;
  v ← _reject_float e.2;
  x ← decimal_input v;
  mk_BudgetCeiling d x.

Definition _keyword_caveats (r : restrictions) (now : datetime) : py (list Caveat) :=
  scopes ← match r_scopes r with
           | Some l => c ← mk_ScopeSubset (list_to_set l); Ok [c]
           | None => Ok []
           end;
  budget ← match r_budget r with Some l => res_map ceiling_entry l | None => Ok [] end;
  window ← match r_ttl_s r with
           | Some ttl =>
               raise_if (ttl <=? 0) ValueError;;
               t ← dt_add (dt_us now) (ttl * 1000000);
               c ← mk_TimeWindow None (Some (DT t (dt_aware now)));
               Ok [c]
           | None => Ok []
           end;
  Ok (scopes ++ budget ++ window
      ++ match r_tools_allow r with Some l => [ToolAllow (list_to_set l)] | None => [] end
      ++ match r_tools_deny r with Some l => [ToolDeny (list_to_set l)] | None => [] end).

(** Warnings issued, by the length of the token they are about. *)
#[local] Notation M := (st (list Z) exn).
Definition warn_size (token : pystr) : M unit := λ w,
  let size := Z.of_nat (length token) in
  (Ok tt, if WARN_SIZE_LIMIT_B64 <? size then w ++ [size] else w).

(** [now] is read for the window, [now'] when the child is verified. *)
Definition client_attenuate (c : AgentIAM) (role : pystr) (agent_id : option pystr)
    (r : restrictions) (caveats : list Caveat) (now now' : datetime) : M AgentIAM :=
  keyword ← lift (_keyword_caveats r now);
  let proposed := keyword ++ caveats in
  lift (raise_if (bool_decide (proposed = [])) ValueError);;
  let parent := cl_identity c in
  lift (raise_if (vt_max_depth (ai_verified parent) <? ai_depth parent + 1) DepthExceededError);;
  let child_agent_id :=
    or_default agent_id (u "agent:" ++ uuid_text (vt_mandate_id (ai_verified parent)) ++ u ":"
                         ++ py_str_int (ai_depth parent + 1)) in
  child_token ← lift (attenuate (ai_verified parent) proposed child_agent_id role
                        (ai_known_caveats parent));
  warn_size child_token;;
  lift (mk_AgentIAM child_token (cl_key_set c) role (Some child_agent_id)
          (ai_known_caveats parent ++ proposed) (cl_task_intent c) now').

(** ** context.py

    [ContextVar]s: each context has its own value; setting one returns a token that
    remembers the context and the value it replaced. *)
Record cv_token := mkCvToken { ct_context : ctx_id; ct_old : option AgentIdentity }.

Record scope_object := mkScope { so_identity : AgentIdentity; so_reset : option cv_token }.

Record interp := mkInterp {
  in_current : gmap ctx_id (option AgentIdentity);
  in_scopes : gmap scope_id scope_object }.

Definition cv_get (w : interp) (k : ctx_id) : option AgentIdentity := default None (in_current w !! k).
Definition cv_set (k : ctx_id) (v : option AgentIdentity) (w : interp) : interp :=
  mkInterp (<[k := v]> (in_current w)) (in_scopes w).
Definition set_scope (s : scope_id) (o : scope_object) (w : interp) : interp :=
  mkInterp (in_current w) (<[s := o]> (in_scopes w)).

#[local] Notation I := (st interp exn).

Definition current_identity_or_none (k : ctx_id) : I (option AgentIdentity) := λ w, (Ok (cv_get w k), w).

Definition current_identity (k : ctx_id) : I AgentIdentity :=
  i ← current_identity_or_none k;
  match i with Some i => mret i | None => lift (Raise NoIdentityError) end.

(** [use_identity(identity)] allocates a scope object. *)
Definition use_identity (i : AgentIdentity) : I scope_id := λ w,
  let s := fresh (dom (in_scopes w)) in (Ok s, set_scope s (mkScope i None) w).

Definition get_scope (s : scope_id) : I scope_object := λ w,
  match in_scopes w !! s with Some o => (Ok o, w) | None => (Raise KeyError, w) end.

Definition scope_enter (k : ctx_id) (s : scope_id) : I AgentIdentity :=
  o ← get_scope s;
  match so_reset o return I AgentIdentity with
  | Some _ => lift (Raise IdentityContextError)
  | None => λ w,
      (Ok (so_identity o),
       set_scope s (mkScope (so_identity o) (Some (mkCvToken k (cv_get w k))))
         (cv_set k (Some (so_identity o)) w))
  end.

(** [_CURRENT.reset(token)]: [ValueError] in any other context, translated. *)
Definition scope_exit (k : ctx_id) (s : scope_id) : I unit :=
  o ← get_scope s;
  match so_reset o return I unit with
  | None => mret tt
  | Some t => λ w,
      let w := set_scope s (mkScope (so_identity o) None) w in
      if bool_decide (ct_context t = k) then (Ok tt, cv_set k (ct_old t) w)
      else (Raise IdentityContextError, w)
  end.

(** [try: body finally: cleanup]; an exception of the cleanup replaces the body's. *)
Definition m_finally {A} (body : I A) (cleanup : I unit) : I A := λ w,
  let '(r, w) := body w in
  match cleanup w with (Ok _, w) => (r, w) | (Raise e, w) => (Raise e, w) end.

(** [with scope: body]. *)
Definition with_scope {A} (k : ctx_id) (s : scope_id) (body : I A) : I A :=
  scope_enter k s;; m_finally body (scope_exit k s).

Definition with_identity {A} (k : ctx_id) (i : AgentIdentity) (body : I A) : I A :=
  s ← use_identity i; with_scope k s body.

(** [bind_identity(func)], bound in context [k] and called in the context it is given. *)
Definition bind_identity {A} (k : ctx_id) (func : ctx_id → I A) : I (ctx_id → I A) :=
  i ← current_identity_or_none k;
  mret (λ k', match i with None => func k' | Some i => with_identity k' i (func k') end).

(** A new task copies its creator's ctx_id; a pool thread starts from an empty one. *)
Definition copy_context (k : ctx_id) : I ctx_id := λ w,
  let k' := fresh (dom (in_current w)) in (Ok k', cv_set k' (cv_get w k) w).
Definition empty_context : I ctx_id := λ w,
  let k' := fresh (dom (in_current w)) in (Ok k', cv_set k' None w).

Definition run_in_executor {A} (k : ctx_id) (func : ctx_id → I A) : I A :=
  bound ← bind_identity k func;
  k' ← empty_context;
  bound k'.

(** ** decorators.py *)

(** What [_check] decides for an identity. *)
Definition scope_verdict (required : gset pystr) (i : AgentIdentity) : py unit :=
  let missing := required ∖ ai_scopes i in
  if bool_decide (missing = ∅) then Ok tt else
  let never_granted := missing ∖ granted_scopes i in
  Raise (ScopeDeniedError
           (if bool_decide (never_granted = ∅) then SCOPE_ATTENUATED_AWAY else SCOPE_NOT_GRANTED)
           missing).

Definition _check (k : ctx_id) (required : gset pystr) : I unit :=
  i ← current_identity k; lift (scope_verdict required i).

(** [requires_scope( *scopes)(func)]: the decoration, then the decorated call. *)
Definition requires_scope {A} (scopes : list pystr) (func : ctx_id → I A) : py (ctx_id → I A) :=
  raise_if (bool_decide (scopes = [])) ValueError;;
  raise_if (existsb (λ s, bool_decide (py_strip s = [])) scopes) ValueError;;
  Ok (λ k, _check k (list_to_set scopes);; func k).
End sdk.
