(* ===== verification/SdkSpec.v ===== *)
(** * What the SDK promises

    An identity's authority is exactly what its grant and its known caveats leave; a
    child minted offline never holds more; the ambient identity computes what passing
    it explicitly would; and a scope refused locally is refused by the decision. *)
From S2P Require Import Prelude PyText Errors PyNum PyRe PyTime PyUuid Models Caveats Tokens Attenuation Chains Decide Escalation Sdk.

(** ** Folding a caveat in never widens *)

Lemma fold_caveat_widens e c ctx :
  consistent e c → authority_allows (fold_caveat e c) ctx = true → authority_allows e ctx = true.
Proof.
  destruct (folded c) eqn:Hf; [|by rewrite fold_caveat_arg].
  intros Hi. rewrite fold_caveat_allows by done. by intros [? _]%andb_true_iff.
Qed.

Lemma intents_consistent cs c :
  (∀ h h', c = IntentBound h → IntentBound h' ∈ cs → h = h') → consistent (effective_bound cs) c.
Proof.
  intros H. unfold consistent. destruct c; try done.
  destruct (ea_intent_hash _) eqn:E; [|done]. by apply H, effective_intent.
Qed.

(** The later intents agree with each other and with every earlier one. *)
Definition intents_kept (cs cs' : list Caveat) : Prop :=
  ∀ h h', IntentBound h ∈ cs' → IntentBound h' ∈ cs ++ cs' → h = h'.

Lemma bound_app_widens cs cs' ctx :
  intents_kept cs cs' →
  authority_allows (effective_bound (cs ++ cs')) ctx = true →
  authority_allows (effective_bound cs) ctx = true.
Proof.
  induction cs' as [|c cs' IH] using rev_ind; [by rewrite app_nil_r|].
  rewrite app_assoc, effective_bound_snoc. intros Hi Ha. apply IH.
  - intros h h' ??. apply Hi; set_solver.
  - eapply fold_caveat_widens; [|exact Ha]. apply intents_consistent.
    intros h h' -> Hh'. apply Hi; set_solver.
Qed.

Lemma scopes_narrow (S : gset pystr) cs cs' :
  match ea_scopes (effective_bound (cs ++ cs')) with None => S | Some X => S ∩ X end
  ⊆ match ea_scopes (effective_bound cs) with None => S | Some X => S ∩ X end.
Proof.
  induction cs' as [|c cs' IH] using rev_ind; [by rewrite app_nil_r|].
  rewrite app_assoc, effective_bound_snoc. etransitivity; [|exact IH].
  destruct (effective_bound (cs ++ cs')) as [[Y|] ????????], c; simpl; set_solver.
Qed.

(** ** The folded identity *)
Section identity.
Context {BL : BiscuitLib}.

Lemma dict_of_all (f : BudgetDimension → Z) d :
  dict_of ((λ d, (d, f d)) <$> all_dimensions) !! d = Some (f d).
Proof. apply dict_of_dimensions. unfold all_dimensions. simpl. repeat constructor. Qed.

Lemma dict_of_all_ext (f : BudgetDimension → Z) (m : gmap BudgetDimension Z) :
  (∀ d, m !! d = Some (f d)) → m = dict_of ((λ d, (d, f d)) <$> all_dimensions).
Proof. intros H. apply map_eq. intros d. by rewrite H, dict_of_all. Qed.

(** The grant narrowed by a bound, its ceilings being [f]. *)
Definition ceiling_within (f : BudgetDimension → Z) (e : EffectiveAuthority) (d : BudgetDimension) : Z :=
  or_bound Z.min (f d) (ea_budget e !! d).

Definition within_grant (vt : VerifiedToken) (f : BudgetDimension → Z) (e : EffectiveAuthority)
    : EffectiveAuthority :=
  mkEffectiveAuthority
    (Some (or_bound (∩) (vt_scopes vt) (ea_scopes e)))
    (dict_of ((λ d, (d, ceiling_within f e d)) <$> all_dimensions))
    (Some (or_bound Z.max (vt_not_before vt) (ea_not_before e)))
    (Some (or_bound Z.min (vt_expires_at vt) (ea_not_after e)))
    (ea_tools_allowed e) (ea_tools_denied e)
    (Some (or_bound Z.min (vt_max_depth vt) (ea_max_depth e)))
    (Some (or_bound (λ _ b, b) (vt_intent_hash vt) (ea_intent_hash e)))
    (ea_approval_required e).

Lemma or_bound_tighten {A} (f : A → A → A) g b v :
  (∀ x y z, f x (f y z) = f (f x y) z) →
  or_bound f g (tighten f b v) = f (or_bound f g b) v.
Proof. intros H. by destruct b; simpl. Qed.

Lemma within_step vt f e c : within_grant vt f (fold_caveat e c) = fold_caveat (within_grant vt f e) c.
Proof.
  destruct e as [scopes budget nb na allow deny depth intent approval], c as [X|d v|cnb cna|X|X|path op v|n|h|X];
    unfold within_grant, ceiling_within; cbn [fold_caveat ea_scopes ea_budget ea_not_before ea_not_after
      ea_tools_allowed ea_tools_denied ea_max_depth ea_intent_hash ea_approval_required]; try reflexivity.
  - f_equal. rewrite or_bound_tighten by (intros; apply assoc_L, _). done.
  - f_equal. symmetry. apply dict_of_all_ext. intros d'. rewrite !dict_of_all.
    destruct (decide (d = d')) as [<-|Hne].
    + rewrite !lookup_insert_eq. destruct (budget !! d); simpl; f_equal; lia.
    + by rewrite !lookup_insert_ne, dict_of_all by done.
  - destruct cnb, cna; f_equal; unfold tighten; f_equal; rewrite <- or_bound_tighten by lia; done.
  - f_equal. by rewrite or_bound_tighten by lia.
Qed.

(** The grant's own caveats, as they are listed. *)
Lemma grant_caveats_shape vt g :
  grant_caveats vt = Ok g →
  ∃ f, (∀ d, money_of (Budget_get (vt_budget vt) d) = Ok (f d))
    ∧ g = [ScopeSubset (vt_scopes vt); DepthLimit (vt_max_depth vt); IntentBound (vt_intent_hash vt);
           TimeWindow (Some (vt_not_before vt)) (Some (vt_expires_at vt))]
          ++ ((λ d, BudgetCeiling d (f d)) <$> all_dimensions).
Proof.
  unfold grant_caveats. intros Hg.
  apply bind_Ok_inv in Hg as (s & Hs & Hg). apply bind_Ok_inv in Hg as (dl & Hd & Hg).
  apply bind_Ok_inv in Hg as (i & Hi & Hg). apply bind_Ok_inv in Hg as (w & Hw & Hg).
  apply bind_Ok_inv in Hg as (cs & Hcs & [= <-]).
  unfold mk_ScopeSubset in Hs. apply bind_Ok_inv in Hs as (X & HX%check_scopes_Ok & [= <-]).
  destruct HX as [-> _].
  unfold mk_DepthLimit in Hd. destruct (_ && _); [|done]. injection Hd as <-.
  unfold mk_IntentBound in Hi. apply bind_Ok_inv in Hi as (h & Hh%check_hex64_Ok & [= <-]).
  destruct Hh as [-> _].
  unfold mk_TimeWindow in Hw. simpl in Hw. destruct (_ <? _); [|done]. injection Hw as <-.
  exists (λ d, match money_of (Budget_get (vt_budget vt) d) with Ok v => v | Raise _ => 0 end).
  apply res_map_Forall2 in Hcs. unfold all_dimensions in *.
  repeat match goal with
  | H : Forall2 _ (_ :: _) _ |- _ =>
      let c := fresh in let Hc := fresh "Hc" in
      apply Forall2_cons_inv_l in H as (c & ? & Hc & H & ->);
      unfold mk_BudgetCeiling in Hc; apply bind_Ok_inv in Hc as (? & Hc & [= <-])
  end. apply Forall2_nil_inv_l in Hcs as ->.
  split.
  - by intros []; repeat match goal with H : money_of _ = Ok _ |- _ => rewrite H; clear H end.
  - cbn [fmap list_fmap app]. repeat match goal with H : money_of _ = Ok _ |- _ => rewrite H; clear H end.
    reflexivity.
Qed.

Lemma within_bound vt g cs :
  grant_caveats vt = Ok g →
  ∃ f, (∀ d, money_of (Budget_get (vt_budget vt) d) = Ok (f d))
    ∧ effective_bound (g ++ cs) = within_grant vt f (effective_bound cs).
Proof.
  intros (f & Hf & ->)%grant_caveats_shape. exists f. split; [done|].
  unfold effective_bound at 1. rewrite foldl_app.
  assert (∀ e e', e' = within_grant vt f e → foldl fold_caveat e' cs = within_grant vt f (foldl fold_caveat e cs))
    as H.
  { induction cs as [|c cs IH]; intros e e' ->; simpl; [done|]. apply IH. by rewrite within_step. }
  apply H. by rewrite foldl_app.
Qed.

Lemma mk_AgentIdentity_Ok token vt aid role known i :
  mk_AgentIdentity token vt aid role known = Ok i →
  ai_token i = token ∧ ai_verified i = vt ∧ ai_agent_id i = aid ∧ ai_role i = role
  ∧ ai_known_caveats i = known
  ∧ effective_budget known (vt_budget vt) = Ok (ai_budget i)
  ∧ ai_authority i = fold_grant vt (ai_budget i) (effective_bound known).
Proof. unfold mk_AgentIdentity. intros (b & Hb & [= <-])%bind_Ok_inv. by split_and!. Qed.

(** The identity's authority is the bound of its grant and its known caveats. *)
Lemma identity_bound token vt aid role known i g :
  mk_AgentIdentity token vt aid role known = Ok i → grant_caveats vt = Ok g →
  Forall (λ c, Caveat_valid c = true) known →
  ai_authority i = effective_bound (g ++ known).
Proof.
  intros (_ & _ & _ & _ & _ & Hb & ->)%mk_AgentIdentity_Ok Hg Hk.
  destruct (within_bound _ _ known Hg) as (f & Hf & ->).
  unfold fold_grant, within_grant. f_equal. apply dict_of_all_ext. intros d. rewrite dict_of_all.
  destruct (effective_budget_units _ _ _ f d Hb Hk) as [H _].
  - intros d'. destruct (money_of_Ok _ _ (Hf d')) as [Hu Hm]. unfold MONEY_LIMIT in Hm.
    split; [|lia]. apply Budget_scaled_units; [done|]. lia.
  - unfold budget_units. rewrite H. unfold ceiling_within. simpl. by destruct (_ !! d).
Qed.

(** C31: An identity's folded authority is exact for what its holder knows and the fold can
    hold.  Whatever the folding caveats of the grant and the known ones allow it allows, so
    against caveats the holder does not know it can only overstate; and when the intents the
    chain names agree, whatever it allows is allowed by the grant and by every known caveat
    that folds.  Argument predicates do not fold: a request one of them refuses may still be
    within the authority. *)
Theorem identity_exact token vt aid role known i g ctx :
  mk_AgentIdentity token vt aid role known = Ok i → grant_caveats vt = Ok g →
  Forall (λ c, Caveat_valid c = true) known →
  (∀ unknown, (∀ c, c ∈ g ++ known ++ unknown → folded c = true → allows c ctx = true) →
     authority_allows (ai_authority i) ctx = true)
  ∧ (intents_agree (g ++ known) → authority_allows (ai_authority i) ctx = true →
     ∀ c, c ∈ g ++ known → folded c = true → allows c ctx = true).
Proof.
  intros Hi Hg Hk. rewrite (identity_bound _ _ _ _ _ _ _ Hi Hg Hk). split.
  - intros unknown Hall. apply effective_bound_exact. intros c Hc. apply Hall.
    rewrite app_assoc. apply elem_of_app. by left.
  - apply effective_bound_exact.
Qed.
End identity.

(** ** A child client *)
Section child.
Context {BL : BiscuitLib}.

(** A checked proposal's intents are the grant's and every known one's. *)
Lemma checked_intents vt g known proposed :
  grant_caveats vt = Ok g → check_narrowing proposed (g ++ known) = Ok tt →
  intents_kept (g ++ known) proposed.
Proof.
  intros Hg Hn%check_narrowing_spec.
  assert (∀ h h', IntentBound h ∈ proposed → IntentBound h' ∈ g ++ known → h = h') as H.
  { intros h h' Hh Hh'.
    pose proof (Hn _ (IntentBound h) _ (IntentBound h') Hh ltac:(left) Hh' ltac:(left) eq_refl) as H.
    unfold narrows in H. simpl in H. by injection H as H%bool_decide_eq_true. }
  destruct (grant_caveats_Ok _ _ Hg) as (_ & _ & Gi & _).
  assert (IntentBound (vt_intent_hash vt) ∈ g ++ known) as Gi' by (apply elem_of_app; by left).
  intros h h' Hh [Hh'|Hh']%elem_of_app; [by apply H|].
  rewrite (H _ _ Hh Gi'). symmetry. by apply H.
Qed.

Context {AO : AppendOnly}.

Lemma mk_AgentIAM_inv token ks role agent_id known intent now c :
  mk_AgentIAM token ks role agent_id known intent now = Ok c →
  ∃ vt aid, verify token ks now = Ok vt
    ∧ mk_AgentIdentity token vt aid role known = Ok (cl_identity c)
    ∧ cl_key_set c = ks ∧ cl_task_intent c = intent
    ∧ aid = or_default agent_id (u "agent:" ++ uuid_text (vt_mandate_id vt)).
Proof.
  unfold mk_AgentIAM. intros Hc. apply bind_Ok_inv in Hc as (vt & Hv & Hc).
  apply bind_Ok_inv in Hc as (i & Hi & [= <-]). by eexists _, _.
Qed.

(** What the keyword shorthands build is valid. *)
Lemma keyword_valid r now cs :
  _keyword_caveats r now = Ok cs → Forall (λ c, Caveat_valid c = true) cs.
Proof.
  unfold _keyword_caveats. intros Hk.
  apply bind_Ok_inv in Hk as (s & Hs & Hk). apply bind_Ok_inv in Hk as (b & Hb & Hk).
  apply bind_Ok_inv in Hk as (w & Hw & [= <-]).
  repeat (apply Forall_app; split).
  - destruct (r_scopes r) as [l|]; [|by injection Hs as <-].
    apply bind_Ok_inv in Hs as (c & Hc & [= <-]). unfold mk_ScopeSubset in Hc.
    apply bind_Ok_inv in Hc as (X & HX%check_scopes_Ok & [= <-]). constructor; [|done].
    by destruct HX as [-> ?].
  - destruct (r_budget r) as [l|]; [|by injection Hb as <-].
    apply res_map_Forall2 in Hb. clear -Hb. induction Hb as [|e c l cs Hc _ IH]; constructor; [|done].
    unfold ceiling_entry in Hc. apply bind_Ok_inv in Hc as (d & _ & Hc).
    apply bind_Ok_inv in Hc as (? & _ & Hc). apply bind_Ok_inv in Hc as (? & _ & Hc).
    unfold mk_BudgetCeiling in Hc. apply bind_Ok_inv in Hc as (n & Hn%money_of_Ok & [= <-]).
    simpl. blia.
  - destruct (r_ttl_s r) as [ttl|]; [|by injection Hw as <-].
    apply bind_Ok_inv in Hw as (? & _ & Hw). apply bind_Ok_inv in Hw as (t & _ & Hw).
    apply bind_Ok_inv in Hw as (c & Hc & [= <-]). unfold mk_TimeWindow in Hc.
    apply bind_Ok_inv in Hc as (nb & _ & Hc). apply bind_Ok_inv in Hc as (na & _ & Hc).
    destruct (sane_interval nb na) eqn:E; [|done]. injection Hc as <-. by constructor.
  - destruct (r_tools_allow r); by repeat constructor.
  - destruct (r_tools_deny r); by repeat constructor.
Qed.

Lemma client_attenuate_inv c crole cid r caveats now now' ws child ws' :
  client_attenuate c crole cid r caveats now now' ws = (Ok child, ws') →
  let parent := cl_identity c in
  ∃ keyword caid token,
    _keyword_caveats r now = Ok keyword ∧ keyword ++ caveats ≠ []
    ∧ ai_depth parent + 1 <= vt_max_depth (ai_verified parent)
    ∧ attenuate (ai_verified parent) (keyword ++ caveats) caid crole (ai_known_caveats parent) = Ok token
    ∧ mk_AgentIAM token (cl_key_set c) crole (Some caid)
        (ai_known_caveats parent ++ keyword ++ caveats) (cl_task_intent c) now' = Ok child.
Proof.
  unfold client_attenuate. intros Hch.
  apply st_bind_inv in Hch as (keyword & ? & [Hkw ->]%lift_inv & Hch). cbv zeta in Hch.
  apply st_bind_inv in Hch as ([] & ? & [Hne%raise_if_Ok%bool_decide_eq_false ->]%lift_inv & Hch).
  apply st_bind_inv in Hch as ([] & ? & [Hdp%raise_if_Ok ->]%lift_inv & Hch).
  apply st_bind_inv in Hch as (tok & ? & [Hat ->]%lift_inv & Hch).
  apply st_bind_inv in Hch as ([] & ? & _ & Hch). apply lift_inv in Hch as [Hch _].
  eexists keyword, _, tok. split_and!; try done. blia.
Qed.

(** C29: A child client never holds more than its parent.  Whatever a client that was
    built from a token is asked for, a child it mints is one step deeper and within the
    mandate's depth, remembers the parent's caveats and the new ones, is checked against
    the same root keys, and allows no request the parent does not. *)
Theorem child_within_parent token ks role agent_id known intent now c
    crole cid r caveats now1 now2 ws child ws' :
  mk_AgentIAM token ks role agent_id known intent now = Ok c →
  Forall (λ c, Caveat_valid c = true) known → Forall (λ c, Caveat_valid c = true) caveats →
  client_attenuate c crole cid r caveats now1 now2 ws = (Ok child, ws') →
  ai_depth (cl_identity child) = ai_depth (cl_identity c) + 1
  ∧ ai_depth (cl_identity child) <= vt_max_depth (ai_verified (cl_identity c))
  ∧ cl_key_set child = cl_key_set c ∧ cl_task_intent child = cl_task_intent c
  ∧ granted_scopes (cl_identity child) = granted_scopes (cl_identity c)
  ∧ (∃ proposed, proposed ≠ [] ∧ ai_known_caveats (cl_identity child) = known ++ proposed)
  ∧ ai_scopes (cl_identity child) ⊆ ai_scopes (cl_identity c)
  ∧ ∀ ctx, authority_allows (ai_authority (cl_identity child)) ctx = true →
           authority_allows (ai_authority (cl_identity c)) ctx = true.
Proof.
  intros Hc Hk Hcs Hch.
  apply mk_AgentIAM_inv in Hc as (vt & aid & Hv & Hi & Hks & Hin & _).
  apply verify_inv in Hv as (b & Hp & Hr).
  pose proof (mk_AgentIdentity_Ok _ _ _ _ _ _ Hi) as (_ & Ev & _ & _ & Ek & _ & _).
  apply client_attenuate_inv in Hch as (keyword & caid & tok & Hkw & Hne & Hdp & Hat & Hch).
  rewrite Ev, Ek in *. apply attenuate_inv in Hat as (g & source & b' & Hg & Hn & Hap & ->).
  rewrite (rt_biscuit _ _ Hr) in Hap.
  apply mk_AgentIAM_inv in Hch as (vt' & aid' & Hv' & Hi' & Hks' & Hin' & _).
  apply verify_inv in Hv' as (b2 & Hp2 & Hr2).
  pose proof (parse_child _ _ _ _ _ _ _ Hp Hap Hp2) as ->.
  destruct (read_child _ _ _ _ _ Hap Hr Hr2) as (_ & Hg' & Hs' & Hd' & _).
  pose proof (mk_AgentIdentity_Ok _ _ _ _ _ _ Hi') as (_ & Ev' & _ & _ & Ek' & _ & _).
  unfold ai_depth, granted_scopes in *. rewrite Ev in *. rewrite Ev'.
  assert (Forall (λ c, Caveat_valid c = true) (known ++ keyword ++ caveats)) as Hval.
  { rewrite !Forall_app. split_and!; [done|by eapply keyword_valid|done]. }
  rewrite Hg in Hg'.
  pose proof (identity_bound _ _ _ _ _ _ _ Hi' Hg' Hval) as Ea'.
  pose proof (identity_bound _ _ _ _ _ _ _ Hi Hg Hk) as Ea.
  split_and!; try done; try congruence; try lia.
  - exists (keyword ++ caveats). split; [done|congruence].
  - unfold ai_scopes. rewrite Ea, Ea'.
    destruct (within_bound _ _ known Hg) as (f & _ & ->).
    destruct (within_bound _ _ (known ++ keyword ++ caveats) Hg) as (f' & _ & ->).
    apply scopes_narrow.
  - intros ctx. rewrite Ea, Ea', app_assoc. apply bound_app_widens. by eapply checked_intents.
Qed.
End child.

(** ** The scope check at a call site *)
Section check.
Context {BL : BiscuitLib}.

Lemma scopes_of_bound (S : gset pystr) cs s :
  s ∈ match ea_scopes (effective_bound cs) with None => S | Some X => S ∩ X end
  ↔ s ∈ S ∧ ∀ X, ScopeSubset X ∈ cs → s ∈ X.
Proof.
  induction cs as [|c cs IH] using rev_ind.
  { simpl. split; [intros; split; [done|by intros X ?%elem_of_nil]|tauto]. }
  assert ((∀ X, ScopeSubset X ∈ cs ++ [c] → s ∈ X)
          ↔ (∀ X, ScopeSubset X ∈ cs → s ∈ X) ∧ (∀ X, c = ScopeSubset X → s ∈ X)) as ->.
  { setoid_rewrite elem_of_app. setoid_rewrite list_elem_of_singleton. naive_solver. }
  rewrite effective_bound_snoc.
  destruct (effective_bound cs) as [scopes ????????]; destruct c; simpl in *;
    try (rewrite IH; naive_solver). destruct scopes; simpl; set_solver.
Qed.

Lemma identity_scopes token vt aid role known i s :
  mk_AgentIdentity token vt aid role known = Ok i →
  s ∈ ai_scopes i ↔ s ∈ vt_scopes vt ∧ ∀ X, ScopeSubset X ∈ known → s ∈ X.
Proof.
  intros (_ & _ & _ & _ & _ & _ & Ha)%mk_AgentIdentity_Ok. unfold ai_scopes. rewrite Ha.
  unfold fold_grant. simpl. apply scopes_of_bound.
Qed.

Lemma scope_lost (known : list Caveat) (s : pystr) :
  ¬ (∀ X, ScopeSubset X ∈ known → s ∈ X) → ∃ X, ScopeSubset X ∈ known ∧ s ∉ X.
Proof.
  set (lost c := match c with ScopeSubset X => negb (bool_decide (s ∈ X)) | _ => false end).
  intros H. destruct (existsb lost known) eqn:E.
  - apply existsb_exists in E as (c & Hc%list_elem_of_In & Hl). destruct c as [X| | | | | | | | ]; try done.
    exists X. split; [done|]. by apply negb_true_iff, bool_decide_eq_false in Hl.
  - exfalso. apply H. intros X HX. destruct (decide (s ∈ X)) as [|Hn]; [done|].
    apply not_true_iff_false in E. destruct E. apply existsb_exists.
    exists (ScopeSubset X). split; [by apply list_elem_of_In|]. simpl. by rewrite bool_decide_eq_false_2.
Qed.

(** A caveat that denies makes the caveats' answer a denial, if they answer. *)
Lemma caveats_deny cs ctx c r i e m :
  c ∈ cs → evaluate c ctx = Ok r → res_outcome r = DENY → caveat_loop i cs ctx e = Ok m →
  ∃ v, m = Some v ∧ v_outcome v = DENY.
Proof.
  intros Hc Hr Ho. revert i e. induction cs as [|c' cs IH]; intros i e Hm; [by apply elem_of_nil in Hc|].
  simpl in Hm. apply bind_Ok_inv in Hm as (r' & Hr' & Hm).
  destruct (res_outcome r') eqn:Ho'; [| |apply elem_of_cons in Hc as [->|Hc]..];
    try (by eapply IH); try congruence.
  - apply elem_of_cons in Hc as [->|Hc]; [congruence|by eapply IH].
  - injection Hm as <-. eauto.
Qed.

Context {R P B D : Type} `{RevocationOracle R, PolicyEngine P, BudgetOracle B, DriftOracle D}.

Lemma or_else_deny m (k : py Verdict * B) b v b' :
  denies m → (m = Ok None → k = (Ok v, b') → v_outcome v = DENY) → or_else m k b = (Ok v, b') →
  v_outcome v = DENY.
Proof. intros Hd Hk [Hm|[??]]%or_else_inv; [by destruct (Hd v Hm)|by apply Hk]. Qed.

(** The check a client makes is the PEP's own.  It passes exactly when the mandate
    granted every required scope and no known caveat gave one up; when it refuses, it names
    exactly the scopes that are missing, blames the mandate if one of them was never
    granted, and any decision on a request for a missing scope that answers, whatever the
    oracles and whatever other caveats the chain holds, is a denial. *)
Theorem local_check_agrees token vt aid role known i required (ro : R) (po : P) (bo : B) (dr : option D) :
  mk_AgentIdentity token vt aid role known = Ok i →
  (scope_verdict required i = Ok tt
   ↔ ∀ s, s ∈ required → s ∈ vt_scopes vt ∧ ∀ X, ScopeSubset X ∈ known → s ∈ X)
  ∧ (∀ e, scope_verdict required i = Raise e →
     ∃ reason missing, e = ScopeDeniedError reason missing
       ∧ missing = required ∖ ai_scopes i ∧ missing ≠ ∅
       ∧ (reason = SCOPE_NOT_GRANTED ↔ ∃ s, s ∈ required ∧ s ∉ vt_scopes vt)
       ∧ (reason = SCOPE_ATTENUATED_AWAY ↔ required ⊆ vt_scopes vt)
       ∧ ∀ ctx caveats v bo', operation ctx ∈ missing → known ⊆ caveats →
           decide_request vt ctx caveats ro po bo dr = (Ok v, bo') → v_outcome v = DENY).
Proof.
  intros Hi. assert (granted_scopes i = vt_scopes vt) as Hg.
  { unfold granted_scopes. by destruct (mk_AgentIdentity_Ok _ _ _ _ _ _ Hi) as (_ & -> & _). }
  assert (∀ s, s ∈ ai_scopes i ↔ s ∈ vt_scopes vt ∧ ∀ X, ScopeSubset X ∈ known → s ∈ X) as Hs
    by (intros s; by eapply identity_scopes).
  unfold scope_verdict. cbv zeta. rewrite Hg. case_bool_decide as Hm; [|split].
  - split; [|done]. split; [|done]. intros _ s Hreq. apply Hs. set_solver.
  - split; [done|]. intros H'. exfalso. apply Hm. apply set_eq. intros s. setoid_rewrite <- Hs in H'.
    set_solver.
  - intros e [= <-]. eexists _, _. split_and!; [reflexivity|reflexivity|done|..].
    + case_bool_decide as Hn; (split; [intros Hr; try done|]).
      * intros (s & Hsr & Hsg). exfalso. apply Hm.
        assert (s ∈ (required ∖ ai_scopes i) ∖ vt_scopes vt) as Hx; [|set_solver].
        specialize (Hs s). set_solver.
      * apply set_choose_L in Hn as (s & Hn). exists s. set_solver.
      * done.
    + case_bool_decide as Hn; (split; [intros Hr; try done|]).
      * intros s Hsr. destruct (decide (s ∈ vt_scopes vt)) as [|Hng]; [done|].
        specialize (Hs s). set_solver.
      * done.
      * intros Hsub. exfalso. apply Hn. set_solver.
    + intros ctx caveats v bo' Hop Hk Hd. unfold decide_request in Hd.
      eapply or_else_deny; [apply revocation_loop_denies| |exact Hd]. clear Hd. intros _ Hd.
      eapply or_else_deny; [apply grant_denies| |exact Hd]. clear Hd. intros [= Hg'] Hd.
      apply grant_None in Hg' as (Hin & _).
      destruct (scope_lost known (operation ctx)) as (X & HX & Hout).
      { intros Hall. apply elem_of_difference in Hop as [_ Hop]. by apply Hop, Hs. }
      destruct (_evaluate_caveats caveats ctx) as [cd|] eqn:Ec; [|done].
      assert (∃ r, evaluate (ScopeSubset X) ctx = Ok r ∧ res_outcome r = DENY) as (r & Hr & Ho).
      { simpl. rewrite bool_decide_eq_false_2 by done. by eexists. }
      destruct (caveats_deny _ _ _ _ _ _ _ (Hk _ HX) Hr Ho Ec) as (v' & -> & Hv').
      rewrite bool_decide_eq_true_2 in Hd by done. by injection Hd as <- _.
Qed.
End check.

(** ** The ambient identity *)
Section ambient.
Context {BL : BiscuitLib}.

(** What an agent does, as far as its identity matters. *)
Inductive code :=
| Guarded (required : gset pystr)        (* a call of a decorated function *)
| Fails (e : exn)
| Then (a b : code)
| Attempt (a handler : code)             (* [try: a except Exception: handler] *)
| Under (i : AgentIdentity) (a : code)   (* [with use_identity(i): a] *)
| InTask (a : code)                      (* [await create_task(a)] *)
| InExecutor (a : code)                  (* [await run_in_executor(a)] *)
| InThread (a : code).                   (* the loop's own [run_in_executor] *)

#[local] Notation I := (st interp exn).

(** The code as it runs, against the context variables. *)
Fixpoint run (c : code) (k : ctx_id) : I unit :=
  match c with
  | Guarded required => _check k required
  | Fails e => lift (Raise e)
  | Then a b => run a k;; run b k
  | Attempt a h => m_try (run a k) (λ _, Some (run h k))
  | Under i a => with_identity k i (run a k)
  | InTask a => k' ← copy_context k; run a k'
  | InExecutor a => run_in_executor k (run a)
  | InThread a => k' ← empty_context; run a k'
  end.

(** The same code with the identity passed explicitly. *)
Fixpoint explicit (c : code) (i : option AgentIdentity) : py unit :=
  match c with
  | Guarded required =>
      match i with Some i => scope_verdict required i | None => Raise NoIdentityError end
  | Fails e => Raise e
  | Then a b => explicit a i;; explicit b i
  | Attempt a h => match explicit a i with Ok x => Ok x | Raise _ => explicit h i end
  | Under i a => explicit a (Some i)
  | InTask a | InExecutor a => explicit a i
  | InThread a => explicit a None
  end.

(** Every context and every scope object is as it was. *)
Definition kept (w w' : interp) : Prop :=
  (∀ k, k ∈ dom (in_current w) → in_current w' !! k = in_current w !! k)
  ∧ ∀ s, s ∈ dom (in_scopes w) → in_scopes w' !! s = in_scopes w !! s.

#[local] Instance kept_preorder : PreOrder kept.
Proof.
  split; [by split|]. intros w w2 w3 [H1 H1'] [H2 H2']. split.
  - intros k Hk. rewrite H2, H1; try done. apply elem_of_dom. rewrite H1 by done. by apply elem_of_dom.
  - intros s Hs. rewrite H2', H1'; try done. apply elem_of_dom. rewrite H1' by done. by apply elem_of_dom.
Qed.

Lemma kept_get w w' k : kept w w' → k ∈ dom (in_current w) → cv_get w' k = cv_get w k.
Proof. intros [H _] Hk. unfold cv_get. by rewrite H. Qed.

Lemma kept_dom w w' k : kept w w' → k ∈ dom (in_current w) → k ∈ dom (in_current w').
Proof. intros [H _] Hk. apply elem_of_dom. rewrite H by done. by apply elem_of_dom. Qed.

(** A computation in context [k] that keeps everything and answers [r] when the identity
    of [k] is [i]. *)
Definition computes (m : I unit) (k : ctx_id) (i : option AgentIdentity) (r : py unit) : Prop :=
  ∀ w, k ∈ dom (in_current w) → cv_get w k = i → (m w).1 = r ∧ kept w (m w).2.

Lemma computes_bind (m n : I unit) k i r r' :
  computes m k i r → computes n k i r' → computes (m;; n) k i (r;; r').
Proof.
  intros Hm Hn w Hk Hi. destruct (Hm w Hk Hi) as [H1 H2]. unfold mbind, st_bind.
  destruct (m w) as [[[]|e] w1]; simpl in *; subst r; simpl; [|done].
  destruct (Hn w1) as [H3 H4]; [by eapply kept_dom|by erewrite kept_get|].
  split; [done|]. by etransitivity.
Qed.

Lemma computes_try (m h : I unit) k i r r' :
  computes m k i r → computes h k i r' →
  computes (m_try m (λ _, Some h)) k i (match r with Ok x => Ok x | Raise _ => r' end).
Proof.
  intros Hm Hh w Hk Hi. destruct (Hm w Hk Hi) as [H1 H2]. unfold m_try.
  destruct (m w) as [[[]|e] w1]; simpl in *; subst r; simpl; [done|].
  destruct (Hh w1) as [H3 H4]; [by eapply kept_dom|by erewrite kept_get|].
  split; [done|]. by etransitivity.
Qed.

Lemma computes_under (m : I unit) k i j r :
  computes m k (Some j) r → computes (with_identity k j m) k i r.
Proof.
  intros Hm w Hk Hi.
  unfold with_identity, with_scope, use_identity, scope_enter, scope_exit, get_scope, m_finally.
  unfold mbind, st_bind, set_scope, cv_set. simpl.
  assert (fresh (dom (in_scopes w)) ∉ dom (in_scopes w)) as Hs by apply is_fresh.
  generalize dependent (fresh (dom (in_scopes w))). intros s Hs. rewrite lookup_insert_eq. simpl.
  set (w1 := mkInterp _ _).
  destruct (Hm w1) as [H1 [H2 H3]].
  - subst w1. simpl. set_solver.
  - subst w1. unfold cv_get. simpl. by rewrite lookup_insert_eq.
  - destruct (m w1) as [r' w2]. simpl in *.
    assert (in_scopes w2 !! s = Some (mkScope j (Some (mkCvToken k (cv_get w k))))) as ->.
    { rewrite H3 by (subst w1; simpl; set_solver). subst w1. simpl. by rewrite lookup_insert_eq. }
    simpl. rewrite bool_decide_eq_true_2 by done. simpl. split; [done|]. split; simpl.
    + intros k' Hk'. destruct (decide (k = k')) as [<-|Hne].
      * rewrite lookup_insert_eq. unfold cv_get.
        apply elem_of_dom in Hk as [v Hv]. by rewrite Hv.
      * rewrite lookup_insert_ne by done. rewrite H2 by (subst w1; simpl; set_solver).
        subst w1. simpl. by rewrite lookup_insert_ne.
    + intros s' Hs'. assert (s ≠ s') by (intros ->; done).
      rewrite lookup_insert_ne by done. rewrite H3 by (subst w1; simpl; set_solver).
      subst w1. simpl. by rewrite !lookup_insert_ne by done.
Qed.

(** A computation run in a new context that holds [v]. *)
Lemma computes_elsewhere (m : ctx_id → I unit) (new : I ctx_id) k i v r :
  (∀ w, cv_get w k = i → new w = (let k' := fresh (dom (in_current w)) in (Ok k', cv_set k' v w))) →
  (∀ k', computes (m k') k' v r) → computes (k' ← new; m k') k i r.
Proof.
  intros Hnew Hm w Hk Hi. pose proof (Hnew w Hi) as Hn.
  unfold mbind, st_bind. rewrite Hn. cbn zeta.
  pose proof (is_fresh (dom (in_current w))) as Hf.
  generalize dependent (fresh (dom (in_current w))). intros k' Hn Hf.
  destruct (Hm k' (cv_set k' v w)) as [H1 [H2 H3]].
  - unfold cv_set. simpl. set_solver.
  - unfold cv_get, cv_set. simpl. by rewrite lookup_insert_eq.
  - split; [done|]. split.
    + intros x Hx. rewrite H2 by (unfold cv_set; simpl; set_solver). simpl.
      rewrite lookup_insert_ne; [done|]. by intros ->.
    + intros x Hx. by rewrite H3.
Qed.

Lemma run_computes c : ∀ k i, computes (run c k) k i (explicit c i).
Proof.
  induction c as [required|e|a IHa b IHb|a IHa h IHh|j a IH|a IH|a IH|a IH]; intros k i; simpl.
  - intros w Hk Hi. unfold _check, current_identity, current_identity_or_none.
    unfold mbind, st_bind. simpl. rewrite Hi. by destruct i.
  - by intros w Hk Hi.
  - by apply computes_bind.
  - eapply computes_try; eauto.
  - by apply computes_under.
  - apply (computes_elsewhere _ _ _ _ i); [by intros w <-|done].
  - assert (computes (k' ← empty_context;
      match i with None => run a k' | Some i => with_identity k' i (run a k') end) k i (explicit a i)) as H.
    { apply (computes_elsewhere _ _ _ _ None); [done|]. intros k'.
      destruct i as [i|]; [by apply computes_under|done]. }
    intros w Hk Hi. destruct (H w Hk Hi). clear H.
    assert (run_in_executor k (run a) w = (k' ← empty_context;
      match i with None => run a k' | Some i => with_identity k' i (run a k') end) w) as ->; [|done].
    unfold run_in_executor, bind_identity, current_identity_or_none.
    unfold mbind, st_bind. simpl. by rewrite Hi.
  - apply (computes_elsewhere _ _ _ _ None); [done|]. intros k'. apply IH.
Qed.

(** C30: Ambient identities are explicit ones.  Whatever an agent does - guarded calls,
    exceptions and handlers, [with] blocks, tasks, pool threads, nested in any way - it
    answers as it would if the identity were passed down by hand: a block's identity
    reaches exactly its body, a task inherits its creator's, [run_in_executor] carries it
    across, a bare thread has none; and when it is over every context and every scope
    object is as it was, whether it returned or raised. *)
Theorem ambient_is_explicit c k w :
  k ∈ dom (in_current w) →
  (run c k w).1 = explicit c (cv_get w k)
  ∧ (∀ k', k' ∈ dom (in_current w) → cv_get (run c k w).2 k' = cv_get w k')
  ∧ (∀ s, s ∈ dom (in_scopes w) → in_scopes (run c k w).2 !! s = in_scopes w !! s).
Proof.
  intros Hk. destruct (run_computes c k (cv_get w k) w Hk eq_refl) as [H1 H2].
  split_and!; [done| |apply H2]. intros k' Hk'. by apply kept_get.
Qed.

(** An exit from a context the scope was not entered in is refused; it leaves every
    context as it was, and disarms the scope, so the context it was entered in keeps the
    identity and a second exit there does nothing. *)
Theorem foreign_exit_refused k k' s i t w :
  in_scopes w !! s = Some (mkScope i (Some t)) → ct_context t = k → k ≠ k' →
  (scope_exit k' s w).1 = Raise IdentityContextError
  ∧ in_current (scope_exit k' s w).2 = in_current w
  ∧ (scope_exit k s (scope_exit k' s w).2) = (Ok tt, (scope_exit k' s w).2).
Proof.
  intros Hs Ht Hne. unfold scope_exit, get_scope, mbind, st_bind. rewrite Hs. simpl.
  rewrite bool_decide_eq_false_2 by congruence. simpl. by rewrite lookup_insert_eq.
Qed.
End ambient.

(** ** A concrete client *)
#[local] Existing Instance growing.
#[local] Existing Instance growing_append_only.

Definition demo_ks : RootKeySet := mkRootKeySet ([7] : list (@PublicKey growing)).
Definition demo_clock : datetime := DT 150000000 true.
Definition demo_client : AgentIAM :=
  match mk_AgentIAM (u "En0K") demo_ks (u "root") None [] None demo_clock with
  | Ok c => c
  | Raise _ => mkClient (mkIdentity [] (mkVerifiedToken [] 0 0 [] [] ∅ Budget_default ∅ 0 0 0 0 [] 0 false)
                           [] [] [] no_bound Budget_default) (mkRootKeySet []) None
  end.

(** What the reader gets: one scope, a fortieth of the money, a minute. *)
Definition reader_restrictions : restrictions :=
  mkRestrictions (Some [u "invoice:read"]) (Some [(u "spend_bdt", PDec (Dec 125 (-2)))]) (Some 20) None
    (Some [u "shell"]).
Definition demo_child : py AgentIAM * list Z :=
  client_attenuate demo_client (u "doc-reader") None reader_restrictions [DepthLimit 1] demo_clock demo_clock [].

Lemma demo_client_ok : is_ok (mk_AgentIAM (u "En0K") demo_ks (u "root") None [] None demo_clock) = true.
Proof. vm_compute. reflexivity. Qed.
Lemma demo_client_built :
  mk_AgentIAM (u "En0K") demo_ks (u "root") None [] None demo_clock = Ok demo_client.
Proof.
  pose proof demo_client_ok as H. unfold demo_client. destruct (mk_AgentIAM _ _ _ _ _ _ _); [reflexivity|discriminate H].
Qed.
Lemma demo_child_minted : is_ok demo_child.1 = true.
Proof. vm_compute. reflexivity. Qed.

Lemma child_within_parent_witness :
  ∃ child ws, demo_child = (Ok child, ws)
    ∧ ai_depth (cl_identity child) = ai_depth (cl_identity demo_client) + 1
    ∧ ai_scopes (cl_identity child) ⊆ ai_scopes (cl_identity demo_client).
Proof.
  pose proof demo_child_minted as Hok. destruct demo_child as [[child|e] ws] eqn:E; [|discriminate Hok].
  exists child, ws. split; [reflexivity|].
  destruct (child_within_parent (u "En0K") demo_ks (u "root") None [] None demo_clock demo_client
              (u "doc-reader") None reader_restrictions [DepthLimit 1] demo_clock demo_clock [] child ws
              demo_client_built) as (Hd & _ & _ & _ & _ & _ & Hs & _).
  - constructor.
  - repeat constructor.
  - exact E.
  - split; [exact Hd|exact Hs].
Defined.

Definition demo_vt : VerifiedToken := ai_verified (cl_identity demo_client).
Definition demo_known : list Caveat := [ScopeSubset {[u "invoice:read"]}; BudgetCeiling SPEND_BDT 12500].
Definition demo_identity : AgentIdentity :=
  match mk_AgentIdentity (u "En0K") demo_vt (u "agent") (u "reader") demo_known with
  | Ok i => i
  | Raise _ => cl_identity demo_client
  end.

Definition demo_request (scope : string) : RequestContext :=
  mkRequestContext (u scope) ∅ 1 (repeat 97 64) 150000000 None ∅ None None OFF.

Lemma demo_identity_ok : is_ok (mk_AgentIdentity (u "En0K") demo_vt (u "agent") (u "reader") demo_known) = true.
Proof. vm_compute. reflexivity. Qed.
Lemma demo_identity_built :
  mk_AgentIdentity (u "En0K") demo_vt (u "agent") (u "reader") demo_known = Ok demo_identity.
Proof.
  pose proof demo_identity_ok as H. unfold demo_identity.
  destruct (mk_AgentIdentity _ _ _ _ _); [reflexivity|discriminate H].
Qed.

Definition all_allow (ctx : RequestContext) (cs : list Caveat) : bool :=
  forallb (λ c, implb (folded c) (allows c ctx)) cs.
Lemma demo_grant_allows :
  match grant_caveats demo_vt with
  | Ok g => all_allow (demo_request "invoice:read") (g ++ demo_known ++ [RequiresApproval ∅])
  | Raise _ => false
  end = true.
Proof. vm_compute. reflexivity. Qed.

Lemma identity_exact_witness :
  authority_allows (ai_authority demo_identity) (demo_request "invoice:read") = true.
Proof.
  pose proof demo_grant_allows as Hall. destruct (grant_caveats demo_vt) as [g|] eqn:Eg; [|discriminate Hall].
  destruct (identity_exact (u "En0K") demo_vt (u "agent") (u "reader") demo_known demo_identity g
              (demo_request "invoice:read") demo_identity_built Eg) as [H _]; [repeat constructor|].
  apply (H [RequiresApproval ∅]). intros c Hc Hf. unfold all_allow in Hall. rewrite forallb_forall in Hall.
  apply list_elem_of_In in Hc. specialize (Hall c Hc). rewrite Hf in Hall. exact Hall.
Defined.

#[local] Instance demo_revocation : RevocationOracle unit := {| is_revoked _ _ := Ok false |}.
#[local] Instance demo_policy : PolicyEngine unit :=
  {| policy_evaluate _ _ := Ok (mkPolicyVerdict true None (u "v1") false) |}.
#[local] Instance demo_budget : BudgetOracle unit :=
  {| budget_check b _ := (Ok (mkBudgetVerdict true None false), b) |}.
#[local] Instance demo_drift : DriftOracle unit := {| score_for _ _ := Ok None |}.

Lemma demo_refused :
  bool_decide (scope_verdict {[u "payment:initiate"]} demo_identity
    = Raise (ScopeDeniedError SCOPE_ATTENUATED_AWAY {[u "payment:initiate"]})) = true.
Proof. vm_compute. reflexivity. Qed.

Lemma local_check_agrees_witness :
  scope_verdict {[u "payment:initiate"]} demo_identity
  = Raise (ScopeDeniedError SCOPE_ATTENUATED_AWAY {[u "payment:initiate"]})
  ∧ ∀ v bo', decide_request demo_vt (demo_request "payment:initiate")
      demo_known tt tt tt None = (Ok v, bo') → v_outcome v = DENY.
Proof.
  pose proof demo_refused as He. apply bool_decide_eq_true in He. split; [exact He|].
  destruct (local_check_agrees (u "En0K") demo_vt (u "agent") (u "reader") demo_known demo_identity
              {[u "payment:initiate"]} tt tt tt None demo_identity_built) as [_ H].
  destruct (H _ He) as (r & missing & E & _ & _ & _ & _ & Hd). injection E as <- <-.
  intros v bo'. apply Hd; [by apply elem_of_singleton|done].
Defined.

(** Two agents at once: the task acts for the child, the pool thread for no one. *)
Definition demo_code : code :=
  Under demo_identity (Then (InTask (Guarded {[u "invoice:read"]}))
    (Attempt (InThread (Guarded {[u "invoice:read"]})) (InExecutor (Guarded {[u "payment:initiate"]})))).
Lemma demo_code_refused :
  bool_decide (explicit demo_code None
    = Raise (ScopeDeniedError SCOPE_ATTENUATED_AWAY {[u "payment:initiate"]})) = true.
Proof. vm_compute. reflexivity. Qed.

Lemma ambient_is_explicit_witness :
  (run demo_code 0%nat (mkInterp {[0%nat := None]} ∅)).1
  = Raise (ScopeDeniedError SCOPE_ATTENUATED_AWAY {[u "payment:initiate"]}).
Proof.
  destruct (ambient_is_explicit demo_code 0%nat (mkInterp {[0%nat := None]} ∅)) as [H _].
  - change (0%nat ∈ dom ({[0%nat := None]} : gmap nat (option AgentIdentity))). by apply elem_of_dom_2 with None.
  - rewrite H. pose proof demo_code_refused as He. by apply bool_decide_eq_true in He.
Defined.

(** A ceiling of one and a half calls narrows a grant of five and is minted, but cannot
    be folded: the child client is refused with an error the method does not name. *)
Theorem fractional_ceiling_unfoldable :
  (client_attenuate demo_client (u "a") None
     (mkRestrictions None (Some [(u "tool_calls", PDec (Dec 15 (-1)))]) None None None) []
     demo_clock demo_clock []).1 = Raise ScaleError.
Proof. vm_compute. reflexivity. Qed.
