(* ===== verification/Tasks.v ===== *)
(** * Tasks an operator starts (agentiam_controlplane/tasks.py)

    The process-local registry behind the console's demo driver: minting a root token
    for a task, attenuating it for sub-agents, and forgetting it.  [now] is the injected
    clock, [fresh_id] what [uuid4] returns. *)
From S2P Require Import Prelude PyText Errors PyNum PyRe PyTime PyUuid Models Hashing Caveats Tokens Attenuation Escalation.

Definition DEMO_MANDATE_ID : uuid := 0xd0d0d0d0000040008000000000000001%N.
Definition GRANTABLE_SCOPES : list pystr :=
  u <$> ["invoice:read"; "vendor:read"; "payment:initiate"; "email:send"]%string.
Definition DEFAULT_TTL : Z := 8 * 3600 * 1000000.
Definition DEFAULT_MAX_DEPTH : Z := 4.

Record AgentRecord := mkAgentRecord {
  ar_agent_id : pystr;
  ar_role : pystr;
  ar_depth : Z;
  ar_scopes : gset pystr;
  ar_ceiling : option pydec;
  ar_token : pystr;
  ar_parent_id : option pystr }.

Record TaskRecord := mkTaskRecord {
  tk_task_id : uuid;
  tk_description : pystr;
  tk_budget : pydec;
  tk_scopes : gset pystr;
  tk_principal_id : pystr;
  tk_created_at : datetime;
  tk_expires_at : Z;
  tk_agents : gmap pystr AgentRecord }.

Definition task_root (t : TaskRecord) : py AgentRecord :=
  match tk_agents t !! u "root" with Some a => Ok a | None => Raise KeyError end.

(** What [as_dict] shows of an agent: everything but its token. *)
Record agent_view := mkAgentView {
  av_agent_id : pystr; av_role : pystr; av_depth : Z; av_scopes : list pystr;
  av_ceiling : option pydec; av_parent_id : option pystr }.

Definition view_of (a : AgentRecord) : agent_view :=
  mkAgentView (ar_agent_id a) (ar_role a) (ar_depth a) (py_sorted (elements (ar_scopes a)))
    (ar_ceiling a) (ar_parent_id a).

(** [sorted(..., key=lambda a: (a.depth, a.agent_id))]. *)
Definition agent_le (a b : AgentRecord) : Prop :=
  ar_depth a < ar_depth b ∨ (ar_depth a = ar_depth b ∧ pystr_le (ar_agent_id a) (ar_agent_id b)).
#[global] Instance agent_le_dec a b : Decision (agent_le a b).
Proof. unfold agent_le. apply _. Defined.

Definition task_agents (t : TaskRecord) : list agent_view :=
  view_of <$> merge_sort agent_le (map_to_list (tk_agents t)).*2.

Section tasks.
Context {UN : Unicode} {ST : SortTies} {BL : BiscuitLib}.

(** The tasks in the order they were started. *)
Record TaskRegistry := mkTaskRegistry {
  rg_private_key : PrivateKey;
  rg_public_key : PublicKey;
  rg_tasks : list (uuid * TaskRecord) }.

Definition find_task (r : TaskRegistry) (i : uuid) : option TaskRecord :=
  snd <$> (snd <$> list_find (λ p, p.1 = i) (rg_tasks r)).

(** [self._tasks[i] = t]. *)
Definition put_task (i : uuid) (t : TaskRecord) (r : TaskRegistry) : TaskRegistry :=
  mkTaskRegistry (rg_private_key r) (rg_public_key r)
    (match find_task r i with
     | Some _ => (λ p, if bool_decide (p.1 = i) then (i, t) else p) <$> rg_tasks r
     | None => rg_tasks r ++ [(i, t)]
     end).

Definition get (r : TaskRegistry) (i : uuid) : py TaskRecord :=
  match find_task r i with Some t => Ok t | None => Raise TaskRegistryError end.

(** [sorted(..., key=created_at, reverse=True)]: newest first, ties as they were started. *)
Definition newer (a b : TaskRecord) : Prop := dt_us (tk_created_at b) <= dt_us (tk_created_at a).
#[global] Instance newer_dec a b : Decision (newer a b).
Proof. unfold newer. apply _. Defined.
Definition list_tasks (r : TaskRegistry) : list TaskRecord := merge_sort newer (rg_tasks r).*2.

Definition token_for (r : TaskRegistry) (i : uuid) (agent_id : pystr) : py pystr :=
  t ← get r i;
  match tk_agents t !! agent_id with Some a => Ok (ar_token a) | None => Raise TaskRegistryError end.

(** [Budget(spend_bdt=budget, tool_calls=1000, rows_read=100_000)]. *)
Definition task_budget (budget : pydec) : py Budget :=
  match budget with DFin d => mk_Budget d 1000 100000 0 0 | _ => Raise ValidationError end.

Definition create_task (description : pystr) (budget : pydec) (scopes : gset pystr)
    (principal_id : pystr) (ttl : Z) (now : datetime) (fresh_id : uuid) (r : TaskRegistry)
    : py TaskRecord * TaskRegistry :=
  let description := py_strip description in
  let outcome :=
    raise_if (bool_decide (description = [])) TaskRegistryError;;
    c ← pydec_compare budget (DFin (Dec 0 0));
    raise_if (match c with Gt => false | _ => true end) TaskRegistryError;;
    raise_if (bool_decide (scopes = ∅)) TaskRegistryError;;
    raise_if (negb (bool_decide (scopes ⊆ list_to_set GRANTABLE_SCOPES))) TaskRegistryError;;
    ih ← intent_hash description;
    b ← task_budget budget;
    nb ← dt_add (dt_us now) (- 60000000);
    ex ← dt_add (dt_us now) ttl;
    mandate ← mk_Mandate DEMO_MANDATE_ID fresh_id principal_id ih scopes b DEFAULT_MAX_DEPTH
                (DT nb (dt_aware now)) (DT ex (dt_aware now));
    token ← mint_root mandate (rg_private_key r);
    Ok (mkTaskRecord fresh_id description budget scopes principal_id now (m_expires_at mandate)
          {[ u "root" := mkAgentRecord (u "root") (u "principal") 0 scopes None token None ]}) in
  match outcome with
  | Ok t => (Ok t, put_task fresh_id t r)
  | Raise e => (Raise e, r)
  end.

(** [BudgetCeiling(dimension=SPEND_BDT, value=ceiling)]. *)
Definition spend_ceiling (ceiling : pydec) : py Caveat :=
  match ceiling with DFin d => mk_BudgetCeiling SPEND_BDT d | _ => Raise ValidationError end.

(** [try: ... except Exception: raise TaskRegistryError]. *)
Definition as_registry_error {A} (m : py A) : py A :=
  match m with Ok a => Ok a | Raise _ => Raise TaskRegistryError end.

Definition spawn_agent (task_id : uuid) (parent_id agent_id role : pystr) (scopes : gset pystr)
    (ceiling : pydec) (now : datetime) (r : TaskRegistry) : py AgentRecord * TaskRegistry :=
  let outcome :=
    task ← get r task_id;
    let agent_id := py_strip agent_id in
    raise_if (bool_decide (agent_id = [])) TaskRegistryError;;
    raise_if (bool_decide (is_Some (tk_agents task !! agent_id))) TaskRegistryError;;
    parent ← match tk_agents task !! parent_id with
             | Some p => Ok p | None => Raise TaskRegistryError end;
    raise_if (bool_decide (scopes = ∅)) TaskRegistryError;;
    c ← pydec_compare ceiling (DFin (Dec 0 0));
    raise_if (match c with Lt => true | _ => false end) TaskRegistryError;;
    ks ← mk_RootKeySet [rg_public_key r];
    verified ← verify (ar_token parent) ks now;
    token ← as_registry_error (
      s ← mk_ScopeSubset scopes;
      b ← spend_ceiling ceiling;
      attenuate verified [s; b] agent_id role []);
    Ok (task, mkAgentRecord agent_id role (ar_depth parent + 1) scopes (Some ceiling) token
                (Some parent_id)) in
  match outcome with
  | Ok (task, a) =>
      (Ok a,
       put_task task_id
         (mkTaskRecord (tk_task_id task) (tk_description task) (tk_budget task) (tk_scopes task)
            (tk_principal_id task) (tk_created_at task) (tk_expires_at task)
            (<[ar_agent_id a := a]> (tk_agents task))) r)
  | Raise e => (Raise e, r)
  end.

Definition forget (i : uuid) (r : TaskRegistry) : TaskRegistry :=
  mkTaskRegistry (rg_private_key r) (rg_public_key r) (filter (λ p, p.1 ≠ i) (rg_tasks r)).
End tasks.
