(* ===== verification/TasksSpec.v ===== *)
(** * What the task registry promises

    Whatever an operator starts, spawns and forgets, every agent's token descends from
    its task's root token; what the registry does not promise - that a child holds no
    more than its parent - is shown by an example. *)
From S2P Require Import Prelude PyText Errors PyNum PyRe PyTime PyUuid Models Hashing HashingSpec Caveats Tokens Attenuation Chains Escalation Tasks.

Section registry.
Context {UN : Unicode} {ST : SortTies} {BL : BiscuitLib} {AO : AppendOnly}.

(** ** Tokens of one task *)

(** Whoever verifies the two tokens, and when: the same grant, [n] blocks deeper. *)
Definition descends (root token : pystr) (n : Z) : Prop :=
  ∀ ks now vt ks' now' vt', verify root ks now = Ok vt → verify token ks' now' = Ok vt' →
    grant_caveats vt' = grant_caveats vt ∧ vt_scopes vt' = vt_scopes vt
    ∧ vt_depth vt' = vt_depth vt + n.

Lemma descends_refl root : descends root root 0.
Proof.
  intros ks now vt ks' now' vt' (b & Hp & Hr)%verify_inv (b' & Hp' & Hr')%verify_inv.
  pose proof (parse_once _ _ _ _ _ Hp Hp') as ->.
  destruct (read_same _ _ _ _ (same_facts_refl b) Hr Hr') as (_ & ? & ? & _).
  pose proof (rt_depth _ _ Hr). pose proof (rt_depth _ _ Hr'). split_and!; try done. lia.
Qed.

Lemma descends_child root parent n ks now vt cs aid role anc child :
  descends root parent n → verify parent ks now = Ok vt →
  attenuate vt cs aid role anc = Ok child → descends root child (n + 1).
Proof.
  intros Hd Hv (g & source & b' & _ & _ & Ha & ->)%attenuate_inv ks1 now1 vt1 ks2 now2 vt2 Hv1 Hv2.
  destruct (Hd _ _ _ _ _ _ Hv1 Hv) as (E1 & E2 & E3).
  apply verify_inv in Hv as (b & Hp & Hr). rewrite (rt_biscuit _ _ Hr) in Ha.
  apply verify_inv in Hv2 as (b2 & Hp2 & Hr2).
  pose proof (parse_child _ _ _ _ _ _ _ Hp Ha Hp2) as ->.
  destruct (read_child _ _ _ _ _ Ha Hr Hr2) as (_ & ? & ? & ? & _).
  split_and!; [congruence..|lia].
Qed.

(** ** Tasks *)

(** Where an agent stands in its task. *)
Record agent_ok (t : TaskRecord) (root : AgentRecord) (i : pystr) (a : AgentRecord) : Prop := {
  ao_key : ar_agent_id a = i;
  ao_parent : match ar_parent_id a with
              | None => a = root
              | Some p => ∃ parent, tk_agents t !! p = Some parent ∧ ar_depth a = ar_depth parent + 1
              end;
  ao_token : descends (ar_token root) (ar_token a) (ar_depth a);
  ao_scopes : ar_scopes a ≠ ∅ ∧
    (ar_parent_id a ≠ None → ∀ ks now vt, verify (ar_token root) ks now = Ok vt →
       ar_scopes a ⊆ vt_scopes vt) }.

Record task_ok (i : uuid) (t : TaskRecord) : Prop := {
  to_id : tk_task_id t = i;
  to_grantable : tk_scopes t ⊆ list_to_set GRANTABLE_SCOPES;
  to_agents : ∃ root, tk_agents t !! u "root" = Some root
    ∧ ar_depth root = 0 ∧ ar_parent_id root = None ∧ ar_scopes root = tk_scopes t
    ∧ map_Forall (agent_ok t root) (tk_agents t) }.

Definition registry_ok (r : TaskRegistry) : Prop :=
  Forall (λ p, task_ok p.1 p.2) (rg_tasks r) ∧ NoDup (rg_tasks r).*1.

Lemma find_task_Some r i t : find_task r i = Some t → (i, t) ∈ rg_tasks r.
Proof.
  unfold find_task. intros H. destruct (list_find _ _) as [[k [j t']]|] eqn:E; [|done].
  injection H as <-. apply list_find_Some in E as (E & Hj & _). simpl in Hj. subst j.
  by eapply list_elem_of_lookup_2.
Qed.

Lemma put_task_ok i t r : registry_ok r → task_ok i t → registry_ok (put_task i t r).
Proof.
  intros [Hr Hn] Ht. unfold registry_ok, put_task. simpl. destruct (find_task r i) eqn:E.
  - split.
    + rewrite Forall_fmap. eapply Forall_impl; [exact Hr|]. intros [j t'] Hj. simpl in *.
      case_bool_decide; simpl; done.
    + assert (((λ p, if bool_decide (p.1 = i) then (i, t) else p) <$> rg_tasks r).*1 = (rg_tasks r).*1) as ->;
        [|done].
      rewrite <- list_fmap_compose. apply list_fmap_ext. intros k [j t'] _. simpl.
      case_bool_decide; simpl; done.
  - split; [apply Forall_app_2; [done|by apply Forall_singleton]|]. rewrite fmap_app. apply NoDup_app.
    split_and!; [done| |apply NoDup_singleton].
    intros j ([j' t'] & Ej & Hj)%list_elem_of_fmap Hs%list_elem_of_singleton. simpl in *. subst.
    unfold find_task in E. destruct (list_find _ _) as [[]|] eqn:El; [done|].
    apply list_find_None in El. rewrite Forall_forall in El. by apply (El _ Hj).
Qed.

Lemma create_task_ok description budget scopes principal ttl now i r :
  registry_ok r → registry_ok (create_task description budget scopes principal ttl now i r).2.
Proof.
  intros Hr. unfold create_task.
  match goal with |- context [match ?m with Ok _ => _ | Raise _ => _ end] => destruct m as [t|e] eqn:E end;
    [|done]. simpl. apply put_task_ok; [done|].
  inv_ok. match goal with H : negb (bool_decide (_ ⊆ _)) = false |- _ => rename H into Hg end.
  apply negb_false_iff, bool_decide_eq_true in Hg.
  split; simpl; [done|done|]. eexists. split; [apply lookup_singleton_eq|].
  split_and!; [done..|]. intros j y [<- <-]%lookup_singleton_Some. split; simpl; try done.
  - apply descends_refl.
  - split; [|done]. repeat case_bool_decide; done.
Qed.

(** What a spawn found and did. *)
Lemma spawn_agent_inv task_id parent_id agent_id role scopes ceiling now r x r' :
  spawn_agent task_id parent_id agent_id role scopes ceiling now r = (Ok x, r') →
  ∃ task parent ks vt token s b,
    find_task r task_id = Some task
    ∧ tk_agents task !! py_strip agent_id = None ∧ tk_agents task !! parent_id = Some parent
    ∧ scopes ≠ ∅ ∧ verify (ar_token parent) ks now = Ok vt
    ∧ mk_ScopeSubset scopes = Ok s
    ∧ attenuate vt [s; b] (py_strip agent_id) role [] = Ok token
    ∧ x = mkAgentRecord (py_strip agent_id) role (ar_depth parent + 1) scopes (Some ceiling) token
            (Some parent_id)
    ∧ r' = put_task task_id
         (mkTaskRecord (tk_task_id task) (tk_description task) (tk_budget task) (tk_scopes task)
            (tk_principal_id task) (tk_created_at task) (tk_expires_at task)
            (<[py_strip agent_id := x]> (tk_agents task))) r.
Proof.
  unfold spawn_agent.
  match goal with |- context [match ?m with Ok _ => _ | Raise _ => _ end] => destruct m as [[task y]|e] eqn:E end;
    [|done]. intros [= <- <-].
  apply bind_Ok_inv in E as (t & Ht & E). unfold get in Ht. destruct (find_task r task_id) as [t'|] eqn:Ef; [|done].
  injection Ht as ->. cbv zeta in E.
  apply bind_Ok_inv in E as (? & _ & E). apply bind_Ok_inv in E as (? & Hnew%raise_if_Ok & E).
  apply bind_Ok_inv in E as (parent & Hp & E). apply bind_Ok_inv in E as (? & Hs%raise_if_Ok & E).
  apply bind_Ok_inv in E as (? & _ & E). apply bind_Ok_inv in E as (? & _ & E).
  apply bind_Ok_inv in E as (ks & _ & E). apply bind_Ok_inv in E as (vt & Hv & E).
  apply bind_Ok_inv in E as (token & Htok & [= <- <-]).
  unfold as_registry_error in Htok. destruct (mk_ScopeSubset scopes) as [s|] eqn:Es; [|done].
  cbn [mbind res_bind] in Htok. destruct (spend_ceiling ceiling) as [b|]; [|done]. cbn [mbind res_bind] in Htok.
  destruct (attenuate vt _ _ _ _) eqn:Ea; [|done]. injection Htok as ->.
  destruct (tk_agents t !! parent_id) as [p|] eqn:Ep; [|done]. injection Hp as ->.
  apply bool_decide_eq_false in Hnew, Hs. apply eq_None_not_Some in Hnew.
  eexists t, parent, ks, vt, token, s, b. by split_and!.
Qed.

(** The scopes of a caveat that was checked against a grant are granted. *)
Lemma checked_scopes vt X cs aid role anc child :
  attenuate vt cs aid role anc = Ok child → ScopeSubset X ∈ cs → X ⊆ vt_scopes vt.
Proof.
  intros (g & _ & _ & Hg & Hn%check_narrowing_spec & _)%attenuate_inv HX.
  destruct (grant_caveats_Ok _ _ Hg) as (Gs & _).
  pose proof (narrows_grant _ _ _ _ _ _ Hg Hn HX Gs eq_refl eq_refl eq_refl) as H.
  unfold narrows in H. simpl in H. by injection H as H%bool_decide_eq_true.
Qed.

Lemma agent_ok_add t root i a k x :
  tk_agents t !! k = None → agent_ok t root i a →
  agent_ok (mkTaskRecord (tk_task_id t) (tk_description t) (tk_budget t) (tk_scopes t)
              (tk_principal_id t) (tk_created_at t) (tk_expires_at t) (<[k := x]> (tk_agents t)))
    root i a.
Proof.
  intros Hk [H1 H2 H3 H4]. split; try done. destruct (ar_parent_id a) as [p|]; [|done].
  destruct H2 as (parent & Hp & Hd). exists parent. split; [|done]. simpl.
  rewrite lookup_insert_ne; [done|]. intros ->. congruence.
Qed.

Lemma spawn_agent_ok task_id parent_id agent_id role scopes ceiling now r :
  registry_ok r → registry_ok (spawn_agent task_id parent_id agent_id role scopes ceiling now r).2.
Proof.
  intros Hr. destruct (spawn_agent task_id parent_id agent_id role scopes ceiling now r) as [[x|e] r'] eqn:E.
  2: { unfold spawn_agent in E.
       match type of E with (match ?m with Ok _ => _ | Raise _ => _ end) = _ => destruct m as [[? ?]|] end;
         [done|]. by injection E as _ <-. }
  apply spawn_agent_inv in E as (t & parent & ks & vt & token & s & b & Ht & Hnew & Hp & Hs & Hv & Hms & Ha & -> & ->).
  simpl. apply put_task_ok; [done|].
  pose proof (find_task_Some _ _ _ Ht) as Hin. destruct Hr as [Hr _]. rewrite Forall_forall in Hr.
  destruct (Hr _ Hin) as [Hid Hg (root & Hroot & Hd & Hpar & Hsc & Hall)]. simpl in *.
  split; [done|done|]. exists root. simpl. split.
  { rewrite lookup_insert_ne; [done|]. intros Hk. rewrite Hk in Hnew. congruence. }
  split_and!; [done..|]. apply map_Forall_insert_2.
  - destruct (Hall _ _ Hp) as [_ _ Hdesc _]. split; simpl; [done| | |].
    + exists parent. split; [|done]. rewrite lookup_insert_ne; [done|]. intros Hk. congruence.
    + by eapply descends_child.
    + split; [done|]. intros _ ks' now' vt' Hv'.
      destruct (Hdesc _ _ _ _ _ _ Hv' Hv) as (_ & <- & _).
      unfold mk_ScopeSubset in Hms. apply bind_Ok_inv in Hms as (X & HX%check_scopes_Ok & [= <-]).
      destruct HX as [-> _]. eapply checked_scopes; [exact Ha|left].
  - intros i a Hi. apply agent_ok_add; [done|]. by apply Hall.
Qed.

Lemma forget_ok i r : registry_ok r → registry_ok (forget i r).
Proof.
  intros [Hr Hn]. unfold forget. split; simpl.
  - rewrite Forall_forall in *. intros p [_ Hp]%list_elem_of_filter. by apply Hr.
  - clear Hr. induction (rg_tasks r) as [|p l IH]; [done|]. simpl in Hn. apply NoDup_cons in Hn as [Hp Hn].
    rewrite filter_cons. case_decide; [|by apply IH]. simpl. apply NoDup_cons. split; [|by apply IH].
    intros (q & Hq & [_ Hin]%list_elem_of_filter)%list_elem_of_fmap. apply Hp.
    rewrite Hq. by apply list_elem_of_fmap_2.
Qed.

(** ** Histories *)
Inductive registry_step : TaskRegistry → TaskRegistry → Prop :=
| step_create description budget scopes principal_id ttl now fresh_id r :
    registry_step r (create_task description budget scopes principal_id ttl now fresh_id r).2
| step_spawn task_id parent_id agent_id role scopes ceiling now r :
    registry_step r (spawn_agent task_id parent_id agent_id role scopes ceiling now r).2
| step_forget i r : registry_step r (forget i r).

(** C28: Whatever tasks an operator starts, spawns agents under and forgets, with whatever
    arguments, accepted or refused: every task's scopes are grantable, it has one root at
    depth 0, every other agent has a parent in the same task and is one deeper, and every
    agent's token, whoever verifies it and when, carries exactly the root token's grant as
    many blocks deeper as the record says, the scopes recorded for it being among those
    the root token grants. *)
Theorem registry_invariant sk pk r i t :
  rtc registry_step (mkTaskRegistry sk pk []) r → find_task r i = Some t → task_ok i t.
Proof.
  intros Hr Ht. assert (registry_ok r) as [Hok _].
  - assert (registry_ok (mkTaskRegistry sk pk [])) as H0 by (split; constructor).
    revert H0. induction Hr as [|r1 r2 r3 Hs _ IH]; intros H1; [done|]. apply IH; [done|].
    destruct Hs; [by apply create_task_ok|by apply spawn_agent_ok|by apply forget_ok].
  - rewrite Forall_forall in Hok. exact (Hok _ (find_task_Some _ _ _ Ht)).
Qed.

(** A forgotten task's tokens cannot be had. *)
Theorem forgotten_has_no_token r i agent_id : token_for (forget i r) i agent_id = Raise TaskRegistryError.
Proof.
  unfold token_for, get, find_task, forget. simpl.
  destruct (list_find _ _) as [[k p]|] eqn:E; [|done].
  apply list_find_Some in E as (E%list_elem_of_lookup_2 & Hp & _).
  by apply list_elem_of_filter in E as [? _].
Qed.
End registry.

(** ** A concrete registry *)
#[local] Existing Instance growing.
#[local] Existing Instance growing_append_only.
#[local] Existing Instance identity_unicode.
#[local] Existing Instance position_order.


Definition task_clock : datetime := DT 150000000 true.
Definition empty_registry : TaskRegistry := mkTaskRegistry (7 : @PrivateKey growing) (7 : @PublicKey growing) [].
Definition started : TaskRegistry :=
  (create_task (u " Pay the vendors ") (DFin (Dec 50 0)) {[u "invoice:read"; u "payment:initiate"]}
     (u "kc:alice") DEFAULT_TTL task_clock 5%N empty_registry).2.
Definition with_reader : TaskRegistry :=
  (spawn_agent 5%N (u "root") (u "reader") (u "reader") {[u "invoice:read"]} (DFin (Dec 10 0)) task_clock started).2.
Definition paying : py AgentRecord * TaskRegistry :=
  spawn_agent 5%N (u "reader") (u "payer") (u "payer") {[u "payment:initiate"]} (DFin (Dec 50 0)) task_clock with_reader.

Lemma reading_started : is_Some (find_task with_reader 5%N).
Proof. apply (bool_decide_unpack _). vm_compute. exact I. Qed.

Lemma registry_invariant_witness : ∃ t, find_task with_reader 5%N = Some t ∧ task_ok 5%N t.
Proof.
  destruct reading_started as [t E]. exists t. split; [exact E|].
  apply (registry_invariant (7 : @PrivateKey growing) (7 : @PublicKey growing) with_reader 5%N t); [|exact E].
  apply rtc_l with started; [apply step_create|]. apply rtc_once, step_spawn.
Defined.

(** A spawn is checked against the task's grant and not against the parent: the reader,
    who may neither pay nor spend more than ten, is given a child recorded as paying up
    to fifty. *)
Theorem spawn_ignores_parent :
  task_agents <$> find_task paying.2 5%N
  = Some [mkAgentView (u "root") (u "principal") 0 [u "invoice:read"; u "payment:initiate"] None None;
          mkAgentView (u "reader") (u "reader") 1 [u "invoice:read"] (Some (DFin (Dec 10 0))) (Some (u "root"));
          mkAgentView (u "payer") (u "payer") 2 [u "payment:initiate"] (Some (DFin (Dec 50 0))) (Some (u "reader"))].
Proof. vm_compute. reflexivity. Qed.

(** Nor is the depth checked: a child beyond the mandate's depth is minted and recorded,
    under a token no verification accepts. *)
Theorem spawn_beyond_depth :
  let deeper := (spawn_agent 5%N (u "payer") (u "helper") (u "helper") {[u "payment:initiate"]} (DFin (Dec 1 0))
                   task_clock paying.2).1 in
  (a ← deeper; verify (ar_token a) (mkRootKeySet ([7] : list (@PublicKey growing))) task_clock;; Ok tt)
  = Raise DepthExceededError ∧ is_ok deeper = true.
Proof. split; vm_compute; reflexivity. Qed.

(** A budget of a hundred-thousandth is positive, and raises what no caller catches. *)
Theorem tiny_budget_raises :
  (create_task (u "x") (DFin (Dec 1 (-5))) {[u "invoice:read"]} (u "kc:alice") DEFAULT_TTL task_clock 6%N
     empty_registry).1 = Raise ValidationError.
Proof. vm_compute. reflexivity. Qed.
