(* ===== verification/Corpus.v ===== *)
(** * The policy corpus (agentiam_core/corpus.py)

    The demo's organization policy, its tool catalogue and the cases it is held to, in
    the source's order and under its headings. *)
From S2P Require Import Prelude PyText Errors PyNum PyTime PyRe PyUuid PySha Models Hashing Caveats Tokens Decide Bundles CedarPolicy PolicyCache.

(** A line of Cedar, its double quotes written as single ones. *)
Definition cedar_line (s : string) : pystr := ((λ c, if c =? 39 then 34 else c) <$> u s) ++ [newline].

Definition CORPUS_SOURCE : pystr :=
  (["permit(principal, action == Action::'invoice:read', resource);";
    "permit(principal, action == Action::'vendor:read', resource);";
    "";
    "permit(principal, action == Action::'invoice:write', resource)";
    "when { principal.role == 'senior' };";
    "";
    "permit(principal, action == Action::'payment:initiate', resource)";
    "when {";
    "  context.amount.lessThanOrEqual(decimal('500000.0')) && principal.depth <= 2";
    "};";
    "";
    "permit(principal, action == Action::'email:send', resource)";
    "when { !resource.is_external };";
    "";
    "forbid(principal, action, resource)";
    "when { resource.sensitivity == 'critical' && principal.role != 'senior' };";
    "";
    "forbid(principal, action == Action::'payment:initiate', resource)";
    "when { decimal('1000000.0').lessThan(context.amount) };"]%string : list string) ≫= cedar_line.

Definition CORPUS_TOOLS : list (pystr * value) :=
  [(u "invoice_api", VMap [(u "tool_id", VStr (u "invoice_api")); (u "server", VStr (u "erp")); (u "sensitivity", VStr (u "low"))]);
   (u "vendor_api", VMap [(u "tool_id", VStr (u "vendor_api")); (u "server", VStr (u "erp")); (u "sensitivity", VStr (u "low"))]);
   (u "payment_api", VMap [(u "tool_id", VStr (u "payment_api")); (u "server", VStr (u "bank")); (u "sensitivity", VStr (u "critical")); (u "is_external", VBool true)]);
   (u "email_internal", VMap [(u "tool_id", VStr (u "email_internal")); (u "server", VStr (u "mail")); (u "sensitivity", VStr (u "low"))]);
   (u "email_external", VMap [(u "tool_id", VStr (u "email_external")); (u "server", VStr (u "mail")); (u "sensitivity", VStr (u "medium")); (u "is_external", VBool true)])].

Definition _c (name : string) (description : pystr) (operation : string) (expected : bool)
    (role : string) (tool : option string) (amount : decimal) (depth : Z) (tags : list string)
    : PolicyTestCase :=
  mkPolicyTestCase (u name) description (u operation) expected (u role) (u <$> tool) amount depth
    (u "agt-1") (u "kc:alice") (u "00000000-0000-0000-0000-000000000000") (u <$> tags) false
    (u "production").

#[local] Open Scope string_scope.
(** Beat 1 - Human approves a task: unconditional permits. *)
Definition CORPUS_1 : list PolicyTestCase :=
  [_c "beat1_worker_reads_invoices" (u "unconditional permit; invoice:read is always allowed")
      "invoice:read" true "worker" (Some "invoice_api") (Dec 0 0) 1 ["beat-1"; "unconditional"];
   _c "beat1_worker_reads_vendors" (u "unconditional permit; vendor:read is always allowed")
      "vendor:read" true "worker" (Some "vendor_api") (Dec 0 0) 1 ["beat-1"; "unconditional"];
   _c "beat1_senior_reads_invoices" (u "role is irrelevant for an unconditional permit")
      "invoice:read" true "senior" (Some "invoice_api") (Dec 0 0) 1 ["beat-1"; "unconditional"];
   _c "beat1_deep_agent_reads_invoices" (u "depth is irrelevant for an unconditional permit")
      "invoice:read" true "worker" (Some "invoice_api") (Dec 0 0) 8 ["beat-1"; "unconditional"]].

(** Beat 2 - Delegation tree grows: role-conditioned permits. *)
Definition CORPUS_2 : list PolicyTestCase :=
  [_c "beat2_senior_writes_invoices" (u "the role guard is satisfied")
      "invoice:write" true "senior" (Some "invoice_api") (Dec 0 0) 1 ["beat-2"; "role-conditioned"];
   _c "beat2_worker_cannot_write_invoices" (u "the role guard fails for a worker")
      "invoice:write" false "worker" (Some "invoice_api") (Dec 0 0) 1 ["beat-2"; "role-conditioned"];
   _c "beat2_empty_role_cannot_write" (u "empty string is not 'senior'")
      "invoice:write" false "" (Some "invoice_api") (Dec 0 0) 1 ["beat-2"; "role-conditioned"];
   _c "beat2_admin_role_cannot_write" (u "any non-senior role fails the guard")
      "invoice:write" false "admin" (Some "invoice_api") (Dec 0 0) 1 ["beat-2"; "role-conditioned"];
   _c "beat2_senior_reads_vendors" (u "senior can do everything a worker can, plus more")
      "vendor:read" true "senior" (Some "vendor_api") (Dec 0 0) 1 ["beat-2"; "role-conditioned"]].

(** Beat 3 - Least privilege enforced: default deny, deny causes. *)
Definition CORPUS_3 : list PolicyTestCase :=
  [_c "beat3_worker_cannot_admin" ((u "no permit mentions admin:write " ++ [8212] ++ u " deny by default"))
      "admin:write" false "worker" (Some "invoice_api") (Dec 0 0) 1 ["beat-3"; "default-deny"];
   _c "beat3_senior_cannot_admin" ((u "seniority does not grant admin access " ++ [8212] ++ u " no permit mentions it"))
      "admin:write" false "senior" (Some "invoice_api") (Dec 0 0) 1 ["beat-3"; "default-deny"];
   _c "beat3_worker_cannot_negotiate" ((u "vendor:negotiate is not vendor:read " ++ [8212] ++ u " deny by default"))
      "vendor:negotiate" false "worker" (Some "vendor_api") (Dec 0 0) 1 ["beat-3"; "default-deny"];
   _c "beat3_worker_cannot_delete" (u "invoice:delete is not permitted anywhere")
      "invoice:delete" false "worker" (Some "invoice_api") (Dec 0 0) 1 ["beat-3"; "default-deny"]].

(** Beat 4 - Judge sets the ceiling: amount + depth conditions. *)
Definition CORPUS_4 : list PolicyTestCase :=
  [_c "beat4_payment_under_ceiling" (([2547] ++ u "1,000 is well under " ++ [2547] ++ u "500,000"))
      "payment:initiate" true "worker" (Some "invoice_api") (Dec 1000 0) 1 ["beat-4"; "amount-bounded"];
   _c "beat4_payment_at_ceiling" (([2547] ++ u "500,000 exactly " ++ [8212] ++ u " the boundary is inclusive"))
      "payment:initiate" true "worker" (Some "invoice_api") (Dec 500000 0) 1 ["beat-4"; "boundary"];
   _c "beat4_payment_one_over_ceiling" (([2547] ++ u "500,001 " ++ [8212] ++ u " one taka over the ceiling"))
      "payment:initiate" false "worker" (Some "invoice_api") (Dec 500001 0) 1 ["beat-4"; "boundary"];
   _c "beat4_payment_well_over_ceiling" (([2547] ++ u "750,000 " ++ [8212] ++ u " clearly above the ceiling"))
      "payment:initiate" false "worker" (Some "invoice_api") (Dec 750000 0) 1 ["beat-4"; "amount-bounded"];
   _c "beat4_payment_at_max_depth" (u "depth 2 is the maximum allowed")
      "payment:initiate" true "worker" (Some "invoice_api") (Dec 0 0) 2 ["beat-4"; "boundary"];
   _c "beat4_payment_one_past_max_depth" ((u "depth 3 " ++ [8212] ++ u " one past the maximum"))
      "payment:initiate" false "worker" (Some "invoice_api") (Dec 0 0) 3 ["beat-4"; "boundary"];
   _c "beat4_payment_far_past_max_depth" ((u "depth 8 " ++ [8212] ++ u " far past the maximum"))
      "payment:initiate" false "worker" (Some "invoice_api") (Dec 0 0) 8 ["beat-4"; "depth-bounded"];
   _c "beat4_senior_payment_under_ceiling" (u "seniority does not bypass the amount ceiling")
      "payment:initiate" true "senior" (Some "invoice_api") (Dec 1000 0) 1 ["beat-4"; "amount-bounded"];
   _c "beat4_senior_payment_over_ceiling" (u "nor does seniority raise the ceiling")
      "payment:initiate" false "senior" (Some "invoice_api") (Dec 500001 0) 1 ["beat-4"; "amount-bounded"];
   _c "beat4_payment_zero_amount" (([2547] ++ u "0 is a valid (degenerate) amount " ++ [8212] ++ u " below the ceiling"))
      "payment:initiate" true "worker" (Some "invoice_api") (Dec 0 0) 1 ["beat-4"; "edge-case"];
   _c "beat4_payment_fractional_amount" (([2547] ++ u "499999.9999 " ++ [8212] ++ u " fractional taka, under ceiling"))
      "payment:initiate" true "worker" (Some "invoice_api") (Dec 4999999999 (-4)) 1 ["beat-4"; "edge-case"]].

(** Beat 5 - Judge writes a policy: cross-cutting interactions. *)
Definition CORPUS_5 : list PolicyTestCase :=
  [_c "beat5_senior_depth1_under_ceiling" (u "all three conditions met simultaneously")
      "payment:initiate" true "senior" (Some "invoice_api") (Dec 100000 0) 1 ["beat-5"; "multi-condition"];
   _c "beat5_worker_depth1_at_ceiling" (u "role irrelevant here; amount and depth both at boundary")
      "payment:initiate" true "worker" (Some "invoice_api") (Dec 500000 0) 1 ["beat-5"; "multi-condition"];
   _c "beat5_worker_deep_under_ceiling" (u "amount OK but depth too deep")
      "payment:initiate" false "worker" (Some "invoice_api") (Dec 1000 0) 4 ["beat-5"; "multi-condition"];
   _c "beat5_worker_shallow_over_ceiling" (u "depth OK but amount too high")
      "payment:initiate" false "worker" (Some "invoice_api") (Dec 600000 0) 1 ["beat-5"; "multi-condition"]].

(** Beat 7 - Revocation: resource-conditioned permits (email). *)
Definition CORPUS_6 : list PolicyTestCase :=
  [_c "beat7_internal_email_allowed" ((u "internal tool is not external " ++ [8212] ++ u " permit applies"))
      "email:send" true "worker" (Some "email_internal") (Dec 0 0) 1 ["beat-7"; "resource-conditioned"];
   _c "beat7_external_email_denied" ((u "external tool " ++ [8212] ++ u " is_external is true, permit guard fails"))
      "email:send" false "worker" (Some "email_external") (Dec 0 0) 1 ["beat-7"; "resource-conditioned"];
   _c "beat7_senior_external_email_denied" (u "role does not override the resource condition")
      "email:send" false "senior" (Some "email_external") (Dec 0 0) 1 ["beat-7"; "resource-conditioned"]].

(** Beat 3/8 - Forbid beats permit: sensitivity and amount forbids. *)
Definition CORPUS_7 : list PolicyTestCase :=
  [_c "forbid_critical_tool_worker" (u "critical tool, non-senior: forbid wins over the unconditional permit")
      "invoice:read" false "worker" (Some "payment_api") (Dec 0 0) 1 ["beat-3"; "forbid-wins"];
   _c "forbid_critical_tool_senior_allowed" (u "critical tool, senior: the forbid's guard does not fire")
      "invoice:read" true "senior" (Some "payment_api") (Dec 0 0) 1 ["beat-8"; "forbid-wins"];
   _c "forbid_critical_tool_payment_worker" (u "would be permitted on amount, but the sensitivity forbid fires")
      "payment:initiate" false "worker" (Some "payment_api") (Dec 1000 0) 1 ["beat-3"; "forbid-wins"];
   _c "forbid_critical_tool_payment_senior" (u "senior escapes the sensitivity forbid and is under the ceiling")
      "payment:initiate" true "senior" (Some "payment_api") (Dec 1000 0) 1 ["beat-8"; "forbid-wins"];
   _c "forbid_amount_over_million" ((u "the " ++ [2547] ++ u "1,000,000 forbid applies to everyone, including seniors"))
      "payment:initiate" false "senior" (Some "payment_api") (Dec 1000001 0) 1 ["beat-4"; "forbid-amount"];
   _c "forbid_amount_over_million_non_critical_tool" (u "the amount forbid is about the amount, not the tool")
      "payment:initiate" false "senior" (Some "invoice_api") (Dec 1000001 0) 1 ["beat-4"; "forbid-amount"];
   _c "forbid_amount_at_million_boundary" ((u "at " ++ [2547] ++ u "1,000,000 the permit's own ceiling has already failed"))
      "payment:initiate" false "senior" (Some "invoice_api") (Dec 1000000 0) 1 ["beat-4"; "boundary"];
   _c "forbid_amount_just_under_million" (([2547] ++ u "999,999 " ++ [8212] ++ u " under the forbid but above the permit ceiling"))
      "payment:initiate" false "senior" (Some "invoice_api") (Dec 999999 0) 1 ["beat-4"; "boundary"]].

(** General safety - unknown tools, null tools, edge cases. *)
Definition CORPUS_8 : list PolicyTestCase :=
  [_c "unknown_tool_defaults_safe" (u "unknown tools default to sensitivity=low, is_external=false")
      "invoice:read" true "worker" (Some "unknown_tool") (Dec 0 0) 1 ["safety"; "unknown-tool"];
   _c "no_tool_at_all" (u "a call with no tool is treated the same as an unknown tool")
      "invoice:read" true "worker" None (Dec 0 0) 1 ["safety"; "unknown-tool"];
   _c "unknown_tool_vendor_read" (u "vendor:read also works with an unknown tool")
      "vendor:read" true "worker" (Some "unknown_tool") (Dec 0 0) 1 ["safety"; "unknown-tool"];
   _c "amount_irrelevant_for_read" ((u "a high amount does not affect vendor:read " ++ [8212] ++ u " amount is not in its permit"))
      "vendor:read" true "worker" (Some "vendor_api") (Dec 999999 0) 1 ["safety"; "edge-case"];
   _c "sensitivity_forbid_on_vendor_read" (u "vendor:read on a critical tool is still denied by the sensitivity forbid")
      "vendor:read" false "worker" (Some "payment_api") (Dec 0 0) 1 ["safety"; "forbid-wins"]].

(** Depth boundaries on unconditioned actions. *)
Definition CORPUS_9 : list PolicyTestCase :=
  [_c "depth8_invoice_read" ((u "invoice:read has no depth condition " ++ [8212] ++ u " depth 8 is fine"))
      "invoice:read" true "worker" (Some "invoice_api") (Dec 0 0) 8 ["safety"; "depth-irrelevant"];
   _c "depth1_payment_zero_amount" ((u "payment at depth 1 with " ++ [2547] ++ u "0 " ++ [8212] ++ u " both conditions met"))
      "payment:initiate" true "worker" (Some "invoice_api") (Dec 0 0) 1 ["safety"; "edge-case"];
   _c "depth2_payment_exact_ceiling" ((u "depth 2 with " ++ [2547] ++ u "500,000 " ++ [8212] ++ u " both conditions at their boundary"))
      "payment:initiate" true "worker" (Some "invoice_api") (Dec 500000 0) 2 ["safety"; "boundary"];
   _c "depth2_payment_one_over" ((u "depth 2 OK, but " ++ [2547] ++ u "500,001 exceeds the ceiling"))
      "payment:initiate" false "worker" (Some "invoice_api") (Dec 500001 0) 2 ["safety"; "boundary"];
   _c "depth3_payment_zero" ((u "depth 3 exceeds max_depth even with " ++ [2547] ++ u "0"))
      "payment:initiate" false "worker" (Some "invoice_api") (Dec 0 0) 3 ["safety"; "boundary"]].

(** Unrecognized actions. *)
Definition CORPUS_10 : list PolicyTestCase :=
  [_c "unrecognized_action_worker" (u "an action with no matching permit is denied by default")
      "system:shutdown" false "worker" (Some "invoice_api") (Dec 0 0) 1 ["safety"; "default-deny"];
   _c "unrecognized_action_senior" (u "seniority does not help with an unrecognized action")
      "system:shutdown" false "senior" (Some "invoice_api") (Dec 0 0) 1 ["safety"; "default-deny"]].

Definition CORPUS : list PolicyTestCase :=
  CORPUS_1 ++ CORPUS_2 ++ CORPUS_3 ++ CORPUS_4 ++ CORPUS_5 ++ CORPUS_6 ++ CORPUS_7 ++ CORPUS_8
  ++ CORPUS_9 ++ CORPUS_10.
