(* ===== verification/Console.v ===== *)
(** * The control plane's console (agentiam_controlplane: settings.py, auth.py,
      demo_auth.py, app.py)

    Configuration read from the environment, the two ways a session gets a principal,
    which of them the application mounts, the gate in front of the console's policy, and
    the pages that drive a task.  OIDC and the key formats are parameters. *)
From S2P Require Import Prelude PyText Errors PyNum PyFloat PyTime PyRe PyUuid PySha PyUrl Models Hashing Caveats Tokens Attenuation Decide Escalation Revocation Bundles CedarPolicy PolicyCache Extractor Service Tasks Corpus.

(** ** settings.py *)
Definition CONTROL_PREFIX : pystr := u "AGENTIAM_CONTROLPLANE_".
Definition control_var (name : string) : pystr := CONTROL_PREFIX ++ u name.

(** [os.environ.get(name)], refused when empty. *)
Definition required_env (env : environ) (name : string) : py pystr :=
  match env !! control_var name with Some ((_ :: _) as v) => Ok v | _ => Raise ValueError end.

Record OIDCSettings := mkOIDC { oi_issuer : pystr; oi_client_id : pystr; oi_client_secret : pystr }.

Definition oidc_from_env (env : environ) : py OIDCSettings :=
  issuer ← required_env env "OIDC_ISSUER";
  client_id ← required_env env "OIDC_CLIENT_ID";
  client_secret ← required_env env "OIDC_CLIENT_SECRET";
  Ok (mkOIDC issuer client_id client_secret).

Record Persona := mkPersona { pe_principal_id : pystr; pe_display_name : pystr; pe_title : pystr }.

Definition _TRUTHY : list pystr := u <$> ["1"; "true"; "yes"; "on"]%string.
Definition _DEFAULT_PERSONAS : list Persona :=
  [mkPersona (u "kc:11111111-1111-1111-1111-111111111111") (u "Farhana Rahman") (u "Finance Manager");
   mkPersona (u "kc:22222222-2222-2222-2222-222222222222") (u "Tanvir Ahmed") (u "Chief Financial Officer");
   mkPersona (u "kc:33333333-3333-3333-3333-333333333333") (u "Nusrat Jahan") (u "Procurement Analyst")].

Definition parse_persona (entry : pystr) : py Persona :=
  let '(principal, _, rest) := partition_at 61 entry in
  let principal := py_strip principal in
  raise_if (bool_decide (principal = [])) ValueError;;
  let '(name, _, title) := partition_at 124 rest in
  Ok (mkPersona principal (match py_strip name with [] => principal | n => n end) (py_strip title)).

(** [(e.strip() for e in raw.split(","))], the empty ones skipped. *)
Definition entries (raw : pystr) : list pystr :=
  filter (λ e, e ≠ []) (py_strip <$> split_char 44 raw).

Definition _parse_personas (raw : pystr) : py (list Persona) := res_map parse_persona (entries raw).

(** [rstrip("/")]. *)
Definition rstrip_slash (s : pystr) : pystr :=
  rev (let fix go l := match l with 47 :: l => go l | l => l end in go (rev s)).

(** A signed cookie's contents: text, and the demo flag. *)
Inductive session_value := SText (s : pystr) | STrue.
Abbreviation session := (gmap pystr session_value).

Section console.
Context {UN : Unicode} {ST : SortTies} {CA : Casing} {BL : BiscuitLib} {RP : PyRepr}
  {CD : Cedar}.
Context (private_from_bytes : list Z → py PrivateKey) (public_from_bytes : list Z → py PublicKey).

Definition demo_login_from_env (env : environ) : py (option (list Persona)) :=
  if negb (bool_decide (py_lower (py_strip (default [] (env !! control_var "DEMO_LOGIN"))) ∈ _TRUTHY))
  then Ok None else
  let raw := py_strip (default [] (env !! control_var "DEMO_PERSONAS")) in
  personas ← match raw with [] => Ok _DEFAULT_PERSONAS | _ => _parse_personas raw end;
  raise_if (bool_decide (length personas = 0%nat)) ValueError;;
  Ok (Some personas).

Record ConsoleSettings := mkConsoleSettings {
  co_root_private_key : PrivateKey;
  co_approvers : gset pystr;
  co_session_secret_key : pystr;
  co_elevation_max_depth : Z;
  co_operator_tokens : gmap pystr pystr;
  co_root_public_key : option PublicKey;
  co_pep_url : pystr }.

(** What the routers are given of them. *)
Definition revocation_settings (s : ConsoleSettings) : ControlPlaneSettings :=
  mkControlPlaneSettings (co_approvers s) (co_operator_tokens s).
Definition escalation_settings (s : ConsoleSettings) : elevation_settings :=
  mkElevationSettings (co_approvers s) (co_elevation_max_depth s) (co_root_private_key s).

(** 32 bytes of hex. *)
Definition key_bytes (text : pystr) : py (list Z) :=
  match fromhex text with
  | None => Raise ValueError
  | Some b => raise_if (negb (Nat.eqb (length b) 32)) ValueError;; Ok b
  end.

Definition control_from_env (env : environ) : py ConsoleSettings :=
  key_hex ← required_env env "ROOT_PRIVATE_KEY";
  bytes ← key_bytes key_hex;
  root_private_key ← private_from_bytes bytes;
  let approvers := list_to_set (entries (default [] (env !! control_var "APPROVERS"))) : gset pystr in
  raise_if (bool_decide (approvers = ∅)) ValueError;;
  session_secret_key ← required_env env "SESSION_SECRET_KEY";
  root_public_key ← match py_strip (default [] (env !! control_var "ROOT_PUBLIC_KEY")) with
                    | [] => Ok None
                    | public_hex => b ← key_bytes public_hex; k ← public_from_bytes b; Ok (Some k)
                    end;
  tokens ← _parse_operator_tokens (default [] (env !! control_var "OPERATOR_TOKENS")) approvers;
  Ok (mkConsoleSettings root_private_key approvers session_secret_key 1 tokens root_public_key
        (rstrip_slash (default (u "http://pep:8080") (env !! control_var "PEP_URL")))).

(** ** Sessions (auth.py, demo_auth.py)
 *)
Definition _DEFAULT_DESTINATION : pystr := u "/escalations".

Definition require_session_principal (s : session) : py pystr :=
  match s !! u "principal_id" with
  | Some (SText ((_ :: _) as p)) => Ok p
  | Some STrue => Ok (u "True")
  | _ => Raise (HTTPException 401)
  end.

(** What the identity provider's tokens say, read by authlib; [None] for a claim that
    is absent. *)
Record userinfo := mkUserinfo { ui_sub : option pystr; ui_preferred_username : option pystr; ui_name : option pystr }.

(** Where a response sends the browser. *)
Inductive auth_response := RedirectTo (url : pystr) | ToProvider (state : pystr).

Definition or_else_text (s : option pystr) (d : pystr) : pystr :=
  match s with Some ((_ :: _) as s) => s | _ => d end.

(** [/auth/login?next=], before authlib adds its state. *)
Definition oidc_login (next_url : pystr) (provider_state : pystr) (s : session) : auth_response * session :=
  (ToProvider provider_state,
   <[u "post_login_redirect" := SText (if starts_with (u "/") next_url then next_url else _DEFAULT_DESTINATION)]> s).

(** [/auth/callback]: [token] is what exchanging the code gave, [None] when authlib
    refused it; [Some None] is a token without claims. *)
Definition oidc_callback (token : option (option userinfo)) (s : session) : py auth_response * session :=
  match token with
  | None => (Raise (HTTPException 401), s)
  | Some info =>
      match info ≫= ui_sub with
      | Some ((_ :: _) as sub) =>
          let s := <[u "principal_id" := SText (u "kc:" ++ sub)]> s in
          let s := <[u "display_name" := SText (or_else_text (info ≫= ui_preferred_username)
                                                 (or_else_text (info ≫= ui_name) sub))]> s in
          let destination := match s !! u "post_login_redirect" with
                             | Some (SText d) => d | Some STrue => u "True" | None => _DEFAULT_DESTINATION end in
          (Ok (RedirectTo destination), delete (u "post_login_redirect") s)
      | _ => (Raise (HTTPException 401), s)
      end
  end.

Definition oidc_logout (end_session_endpoint : option pystr) (s : session) : auth_response * session :=
  (RedirectTo (or_else_text end_session_endpoint _DEFAULT_DESTINATION), ∅).

Definition _safe_destination (value : pystr) : pystr :=
  if starts_with (u "/") value && negb (starts_with (u "//") value) then value else _DEFAULT_DESTINATION.

Definition demo_signin (personas : list Persona) (principal_id next_url : pystr) (s : session)
    : auth_response * session :=
  match list_find (λ p, pe_principal_id p = principal_id) personas with
  | None => (RedirectTo (u "/auth/login?error=unknown"), s)
  | Some (_, chosen) =>
      (RedirectTo (_safe_destination next_url),
       <[u "demo_login" := STrue]>
         (<[u "display_name" := SText (pe_display_name chosen)]>
           (<[u "principal_id" := SText (pe_principal_id chosen)]> s)))
  end.

(** [/auth/login] of the demo: the names, which of them may approve, and where to go. *)
Definition demo_login_page (personas : list Persona) (approvers : gset pystr) (next_url : pystr) (s : session)
    : list (Persona * bool) * pystr * option session_value :=
  ((λ p, (p, bool_decide (pe_principal_id p ∈ approvers))) <$> personas, _safe_destination next_url,
   s !! u "principal_id").

Definition demo_logout (s : session) : auth_response * session := (RedirectTo (u "/auth/login"), ∅).

(** ** create_app *)

(** [0] disables the reaper. *)
Definition DEFAULT_REAPER_INTERVAL_S : pyfloat := float_of_Z 15.
Definition _reaper_interval_s (env : environ) : py (option pyfloat) :=
  match env_text env (control_var "REAPER_INTERVAL_S") with
  | [] => Ok (Some DEFAULT_REAPER_INTERVAL_S)
  | raw =>
      match float_of_text raw with
      | None => Raise ValueError
      | Some v => raise_if (float_lt0 v) ValueError;; Ok (if float_truth v then Some v else None)
      end
  end.

Inductive login_mode := LoginOidc (s : OIDCSettings) | LoginDemo (personas : list Persona).

Record readiness := mkReadiness {
  rd_database : bool; rd_escalations : bool; rd_auth : bool; rd_demo_login : bool;
  rd_revocation_publisher : bool }.

(** What an application serves.  [db] is whether it has a session factory; the tree,
    decision, budget, audit and metric routes are always mounted. *)
Record application := mkApplication {
  ap_reaper : bool;
  ap_registry : option (@TaskRegistry BL);
  ap_pep_url : pystr;
  ap_session_middleware : bool;
  ap_escalations : bool;
  ap_revocations : bool;
  ap_login : option login_mode;
  ap_login_label : option bool;        (* [login_mode]: OIDC, demo, or none *)
  ap_ready : readiness }.

Definition create_app (db : bool) (settings : option ConsoleSettings) (oidc : option OIDCSettings)
    (demo : option (list Persona)) (publisher : bool)
    (reaper_interval_s : option pyfloat) : application :=
  let wired := db && match settings with Some _ => true | None => false end in
  mkApplication (db && match reaper_interval_s with Some v => float_gt0 v | None => false end)
    (s ← settings; k ← co_root_public_key s; Some (mkTaskRegistry (co_root_private_key s) k []))
    (match settings with Some s => co_pep_url s | None => [] end)
    wired wired wired
    (if wired then match oidc, demo with
                   | Some o, _ => Some (LoginOidc o)
                   | None, Some p => Some (LoginDemo p)
                   | None, None => None
                   end
     else None)
    (match oidc, demo with
     | Some _, _ => Some true
     | None, Some _ => if db then Some false else None
     | None, None => None
     end)
    (mkReadiness db wired (match oidc with Some _ => true | None => false end)
       (match demo, oidc with Some _, None => true | _, _ => false end) publisher).

(** [create_app_from_env]: the database URL is optional, OIDC is as a whole. *)
Definition set_env (env : environ) (name : pystr) : bool :=
  match env !! name with Some (_ :: _) => true | _ => false end.

Definition create_app_from_env (env : environ) : py application :=
  settings ← control_from_env env;
  let db := set_env env (control_var "DATABASE_URL") || set_env env (u "DATABASE_URL") in
  oidc ← (if existsb (λ n, set_env env (control_var n)) ["OIDC_ISSUER"; "OIDC_CLIENT_ID"; "OIDC_CLIENT_SECRET"]%string
          then o ← oidc_from_env env; Ok (Some o) else Ok None);
  demo ← demo_login_from_env env;
  interval ← _reaper_interval_s env;
  Ok (create_app db (Some settings) oidc demo (set_env env (control_var "REDIS_URL")) interval).

(** ** The policy editor

    One evaluator for the corpus and for generated cases. *)
Definition tool_facts (tool : pystr) : py (list (pystr * cedar_value)) :=
  match dict_get CORPUS_TOOLS tool VNone with
  | VMap entry =>
      tool_id ← py_str (dict_get entry (u "tool_id") (VStr []));
      server ← py_str (dict_get entry (u "server") (VStr []));
      sensitivity ← py_str (dict_get entry (u "sensitivity") (VStr (u "low")));
      let external := match dict_get entry (u "is_external") (VBool false) with VBool b => b | _ => true end in
      Ok [(u "tool_id", CStr tool_id); (u "server", CStr server); (u "sensitivity", CStr sensitivity);
          (u "is_external", CBool external)]
  | _ => Ok [(u "tool_id", CStr []); (u "server", CStr []); (u "sensitivity", CStr (u "low"));
             (u "is_external", CBool false)]
  end.

Definition case_entities (case : PolicyTestCase) (facts : list (pystr * cedar_value)) : list cedar_entity :=
  [mkEntity (u "Agent") (u "agent-1")
     [(u "role", CStr (tc_role case)); (u "depth", CLong (tc_depth case));
      (u "task_id", CStr (u "00000000-0000-0000-0000-000000000000"));
      (u "principal_id", CStr (u "test-principal"))];
   mkEntity (u "Tool") (default [] (tc_tool case)) facts].

Definition case_request (case : PolicyTestCase) (amount : cedar_value) : cedar_request :=
  mkCedarRequest (quoted (u "Agent") (u "agent-1")) (quoted (u "Action") (tc_operation case))
    (quoted (u "Tool") (default [] (tc_tool case)))
    [(u "amount", amount); (u "arg_digest", CStr []); (u "elevated", CBool (tc_elevated case));
     (u "environment", CStr (tc_environment case))].

Definition evaluate_case (engine : policy_set) (case : PolicyTestCase) : py PolicyVerdict :=
  facts ← tool_facts (default [] (tc_tool case));
  amount ← _as_cedar_decimal (tc_amount case);
  let '(decision, reasons) := is_authorized (case_request case amount) engine (case_entities case facts) in
  Ok (mkPolicyVerdict (match decision with CedarAllow => true | _ => false end) (head reasons) [] false).

(** A row of the diff against what is served. *)
Record case_diff := mkCaseDiff {
  df_case : PolicyTestCase; df_passed : bool; df_candidate_allowed : bool;
  df_current_allowed : option bool; df_changed : bool }.

Definition diff_row (current : option policy_set) (r : PolicyTestResult) : py case_diff :=
  match current with
  | None => Ok (mkCaseDiff (tr_case r) (tr_passed r) (tr_actual r) None true)
  | Some engine =>
      v ← evaluate_case engine (tr_case r);
      Ok (mkCaseDiff (tr_case r) (tr_passed r) (tr_actual r) (Some (pv_allowed v))
            (negb (Bool.eqb (pv_allowed v) (tr_actual r))))
  end.

Definition corpus_results (engine : policy_set) : list PolicyTestResult :=
  run_policy_tests CORPUS (evaluate_case engine).

(** [store]: the source the console serves. *)
Definition initial_store : pystr := CORPUS_SOURCE.

(** [None]: the source does not parse. *)
Definition test_policy (source store : pystr) : py (option (PolicyTestSummary * list case_diff)) :=
  match PolicySet_from_str source with
  | None => Ok None
  | Some candidate =>
      let results := corpus_results candidate in
      diffs ← res_map (diff_row (PolicySet_from_str store)) results;
      Ok (Some (summarize results, diffs))
  end.

(** [POST /policy/activate]: the status, and the source served afterwards. *)
Definition activate_policy (source store : pystr) : Z * pystr :=
  match PolicySet_from_str source with
  | None => (409, store)
  | Some candidate =>
      if negb (ts_all_passed (summarize (corpus_results candidate))) then (409, store) else (200, source)
  end.

(** *** The compiler's answer (nl_compiler/compiler.py) *)
Record CompilerTestCase := mkCompilerTestCase {
  ct_name : pystr; ct_description : pystr; ct_expected : bool; ct_role : pystr; ct_operation : pystr;
  ct_tool : pystr; ct_amount : pystr; ct_depth : Z; ct_elevated : bool; ct_environment : pystr }.
Record CompilerOutput := mkCompilerOutput {
  out_clarifying_question : option pystr; out_cedar_source : option pystr; out_tests : list CompilerTestCase }.

(** An amount that is not a number is refused here; the source lets a NaN through to
    Cedar, which does not take it for a decimal. *)
Definition as_policy_test_case (t : CompilerTestCase) : py PolicyTestCase :=
  match parse_decimal (match ct_amount t with [] => u "0" | a => a end) with
  | Some (DFin amount) =>
      Ok (mkPolicyTestCase (ct_name t) (ct_description t) (ct_operation t) (ct_expected t) (ct_role t)
            (Some (ct_tool t)) amount (ct_depth t) (u "agt-1") (u "kc:alice")
            (u "00000000-0000-0000-0000-000000000000") [] (ct_elevated t) (ct_environment t))
  | _ => Raise InvalidOperation
  end.

Definition auto_test_passed (engine : policy_set) (t : CompilerTestCase) : bool :=
  match c ← as_policy_test_case t; evaluate_case engine c with
  | Ok v => Bool.eqb (pv_allowed v) (ct_expected t)
  | Raise _ => false
  end.

Inductive compile_page :=
| CompileFailed | Clarify (question : pystr)
| Compiled (cedar_source : pystr) (auto_tests_passed corpus_passed can_activate : bool)
    (summary : PolicyTestSummary) (diffs : list case_diff).

(** [POST /policy/compile]: [output] is what the compiler returned, or [None]. *)
Definition compile_policy (output : option CompilerOutput) (store : pystr) : py compile_page :=
  match output with
  | None => Ok CompileFailed
  | Some output =>
      match out_clarifying_question output with
      | Some ((_ :: _) as q) => Ok (Clarify q)
      | _ =>
          let cedar_source := default [] (out_cedar_source output) in
          match PolicySet_from_str cedar_source with
          | None => Ok CompileFailed
          | Some candidate =>
              let auto := forallb (auto_test_passed candidate) (out_tests output) in
              let results := corpus_results candidate in
              let summary := summarize results in
              diffs ← res_map (diff_row (PolicySet_from_str store)) results;
              let corpus_passed := bool_decide (length (ts_failures summary) = 0%nat) in
              Ok (Compiled cedar_source auto corpus_passed (auto && corpus_passed) summary diffs)
          end
      end
  end.

(** ** Driving a task *)
Inductive run_page := RunPage (error : option exn) (active_task : pystr) | NotConfigured.

Definition post_run_task (registry : option TaskRegistry) (description budget : pystr) (scopes : list pystr)
    (principal_id : pystr) (now : datetime) (fresh_id : uuid) : py run_page * option TaskRegistry :=
  match registry with
  | None => (Ok NotConfigured, registry)
  | Some r =>
      let '(m, r') := match parse_decimal budget with
                      | None => (Raise InvalidOperation, r)
                      | Some b => create_task description b (list_to_set scopes) principal_id DEFAULT_TTL now fresh_id r
                      end in
      match m with
      | Ok created => (Ok (RunPage None (uuid_text (tk_task_id created))), Some r')
      | Raise TaskRegistryError => (Ok (RunPage (Some TaskRegistryError) []), Some r')
      | Raise InvalidOperation => (Ok (RunPage (Some InvalidOperation) []), Some r')
      | Raise e => (Raise e, Some r')
      end
  end.

Definition run_agent_catches (e : exn) : bool :=
  match e with TaskRegistryError | InvalidOperation => true | e => is_ValueError e end.

Definition post_run_agent (registry : option TaskRegistry) (task_id parent_id agent_id role ceiling : pystr)
    (scopes : list pystr) (now : datetime) : py run_page * option TaskRegistry :=
  match registry with
  | None => (Ok NotConfigured, registry)
  | Some r =>
      let '(m, r') := match parse_uuid task_id with
                      | None => (Raise ValueError, r)
                      | Some i =>
                          match parse_decimal ceiling with
                          | None => (Raise InvalidOperation, r)
                          | Some c => spawn_agent i parent_id agent_id role (list_to_set scopes) c now r
                          end
                      end in
      match m with
      | Ok _ => (Ok (RunPage None task_id), Some r')
      | Raise e => if run_agent_catches e then (Ok (RunPage (Some e) task_id), Some r') else (Raise e, Some r')
      end
  end.

(** A request to the enforcement point, as the agent. *)
Inductive agent_call := Pay (token amount : pystr) | ReadInvoice (token : pystr) | ReadVendor (token : pystr).

(** [body] is the JSON of the answer, if it is JSON. *)
Inductive call_answer := Answered (status : Z) (body : option value) | CallFailed (why : pystr).

Definition call_of (action token amount : pystr) : option agent_call :=
  if bool_decide (action = u "pay") then Some (Pay token amount)
  else if bool_decide (action = u "read-invoice") then Some (ReadInvoice token)
  else if bool_decide (action = u "read-vendor") then Some (ReadVendor token)
  else None.

Definition outcome_text (a : call_answer) : py pystr :=
  match a with
  | CallFailed why => Ok (u "could not reach the enforcement point: " ++ why)
  | Answered status body =>
      reason ← match body with
               | None => Ok (u "OK")
               | Some (VMap m) => py_str (dict_get m (u "reason_code") (VStr (u "OK")))
               | Some _ => Raise TypeError
               end;
      Ok (py_str_int status ++ u " " ++ reason)
  end.

(** [session] is [None] when the middleware is not installed: touching it is an
    [AssertionError].  The call made is part of the result. *)
Definition post_run_call (registry : option TaskRegistry) (task_id agent_id action amount : pystr)
    (send : agent_call → call_answer) (s : option session)
    : py run_page * option agent_call * option session :=
  match registry with
  | None => (Ok NotConfigured, None, s)
  | Some r =>
      match match parse_uuid task_id with None => Raise ValueError | Some i => token_for r i agent_id end with
      | Raise e => if run_agent_catches e then (Ok (RunPage (Some e) task_id), None, s) else (Raise e, None, s)
      | Ok token =>
          match call_of action token amount with
          | None => (Ok (RunPage (Some ValueError) task_id), None, s)
          | Some call =>
              match outcome_text (send call), s with
              | Raise e, _ => (Raise e, Some call, s)
              | Ok _, None => (Raise AssertionError, Some call, s)
              | Ok outcome, Some s =>
                  let line := agent_id ++ [32; 183; 32] ++ action ++ [32; 8594; 32] ++ outcome in
                  (Ok (RunPage None task_id), Some call, Some (<[u "last_call" := SText line]> s))
              end
          end
      end
  end.
End console.
