(* ===== verification/ConsoleSpec.v ===== *)
(** * What the console promises

    A policy is served only if it parses and passes the whole corpus; a session's
    principal was vouched for by the login that is mounted, and only one is; and what
    the environment must say before anything starts. *)
From S2P Require Import Prelude PyText Errors PyNum PyFloat PyTime PyRe PyUuid PySha PyUrl Models Hashing Caveats Tokens Attenuation Decide Chains HashingSpec Escalation Revocation RevocationSpec Bundles CedarPolicy PolicyCache PolicySpec Extractor ExtractorSpec Service ServiceSpec Tasks TasksSpec Corpus Console.

Section policy.
Context {RP : PyRepr} {CD : Cedar}.

(** ** The policy served *)

(** A policy under which every case of the corpus has its expected verdict. *)
Definition passes_corpus (source : pystr) : Prop :=
  ∃ engine, PolicySet_from_str source = Some engine
    ∧ ∀ c, c ∈ CORPUS → ∃ v, evaluate_case engine c = Ok v ∧ pv_allowed v = tc_expected c.

Inductive editor_step : pystr → pystr → Prop :=
| step_test (store : pystr) : editor_step store store
| step_activate (source store : pystr) : editor_step store (activate_policy source store).2.

Lemma case_passed evaluate c :
  tr_passed (run_case evaluate c) = true → ∃ v, evaluate c = Ok v ∧ pv_allowed v = tc_expected c.
Proof.
  unfold run_case. destruct (evaluate c) as [v|]; simpl; [|done].
  intros H%Bool.eqb_prop. eauto.
Qed.

Lemma activate_passes source store :
  (activate_policy source store).1 = 200 →
  (activate_policy source store).2 = source ∧ passes_corpus source.
Proof.
  unfold activate_policy. destruct (PolicySet_from_str source) as [engine|] eqn:E; [|done].
  destruct (ts_all_passed _) eqn:Ha; [|done]. intros _. simpl. split; [done|].
  exists engine. split; [done|]. intros c Hc. unfold summarize in Ha. cbn [ts_all_passed] in Ha.
  apply Z.eqb_eq, count_none in Ha. rewrite Forall_forall in Ha.
  apply case_passed, Ha. by apply list_elem_of_fmap_2.
Qed.

(** C26: Whatever sources are tried, compiled and activated, in any order, the console
    serves the policy it was shipped with or one that parses and gives every case of the
    corpus its expected verdict; a refused activation answers 409 and leaves the served
    policy as it was. *)
Theorem served_policy_gated store :
  rtc editor_step initial_store store →
  (store = CORPUS_SOURCE ∨ passes_corpus store)
  ∧ ∀ source, (activate_policy source store).1 = 200 ∧ (activate_policy source store).2 = source
                ∧ passes_corpus source
              ∨ activate_policy source store = (409, store).
Proof.
  intros Hs.
  assert (∀ source st, (activate_policy source st).1 = 200 ∧ (activate_policy source st).2 = source
            ∧ passes_corpus source ∨ activate_policy source st = (409, st)) as Hact.
  { intros source st. destruct (decide ((activate_policy source st).1 = 200)) as [H|H].
    - left. split; [done|]. by apply activate_passes.
    - right. revert H. unfold activate_policy. destruct (PolicySet_from_str source); [|done].
      by destruct (ts_all_passed _). }
  split; [|intros; apply Hact].
  assert (initial_store = CORPUS_SOURCE ∨ passes_corpus initial_store) as H0 by by left.
  revert H0. induction Hs as [|s1 s2 s3 Hstep _ IH]; intros H; [done|]. apply IH.
  destruct Hstep as [|source st]; [done|].
  destruct (Hact source st) as [(_ & -> & ?)|Hr]; [by right|by rewrite Hr].
Qed.
End policy.

(** ** Sessions *)
Section sessions.
Context {BL : BiscuitLib} {RP : PyRepr}.

(** What a browser's requests can do to its session under the login that is mounted;
    [vouched] lists what the identity provider said. *)
Inductive session_history (m : option login_mode) : list userinfo → session → Prop :=
| history_new : session_history m [] ∅
| history_login o next state s vouched :
    m = Some (LoginOidc o) → session_history m vouched s →
    session_history m vouched (oidc_login next state s).2
| history_refused s vouched o :
    m = Some (LoginOidc o) → session_history m vouched s →
    session_history m vouched (oidc_callback None s).2
| history_callback o info s vouched :
    m = Some (LoginOidc o) → session_history m vouched s →
    session_history m (match info with Some i => i :: vouched | None => vouched end)
      (oidc_callback (Some info) s).2
| history_logout o e s vouched :
    m = Some (LoginOidc o) → session_history m vouched s → session_history m vouched (oidc_logout e s).2
| history_signin personas i next s vouched :
    m = Some (LoginDemo personas) → session_history m vouched s →
    session_history m vouched (demo_signin personas i next s).2
| history_signout personas s vouched :
    m = Some (LoginDemo personas) → session_history m vouched s → session_history m vouched (demo_logout s).2
| history_call registry task agent action amount send s s' page call vouched :
    session_history m vouched s →
    post_run_call (BL := BL) registry task agent action amount send (Some s) = (page, call, Some s') →
    session_history m vouched s'.

(** Who a session may act for. *)
Definition vouched_for (m : option login_mode) (vouched : list userinfo) (p : pystr) : Prop :=
  match m with
  | Some (LoginOidc _) => ∃ i sub, i ∈ vouched ∧ ui_sub i = Some sub ∧ sub ≠ [] ∧ p = u "kc:" ++ sub
  | Some (LoginDemo personas) => ∃ persona, persona ∈ personas ∧ p = pe_principal_id persona
  | None => False
  end.

(** The only principals a session holds were vouched for, and they are text. *)
Definition session_ok (m : option login_mode) (vouched : list userinfo) (s : session) : Prop :=
  ∀ v, s !! u "principal_id" = Some v → ∃ p, v = SText p ∧ vouched_for m vouched p.

Lemma session_ok_insert m vouched s k v :
  session_ok m vouched s → k ≠ u "principal_id" → session_ok m vouched (<[k := v]> s).
Proof. intros Hs Hk v'. rewrite lookup_insert_ne by done. apply Hs. Qed.

Lemma session_ok_delete m vouched s k : session_ok m vouched s → session_ok m vouched (delete k s).
Proof. intros Hs v [_ H]%lookup_delete_Some. by apply Hs. Qed.

Lemma session_ok_set m vouched s p :
  vouched_for m vouched p → session_ok m vouched (<[u "principal_id" := SText p]> s).
Proof. intros Hp v. rewrite lookup_insert_eq. intros [= <-]. eauto. Qed.

Lemma session_ok_empty m vouched : session_ok m vouched ∅.
Proof. by intros v ?. Qed.

Lemma vouched_more m vouched i p : vouched_for m vouched p → vouched_for m (i :: vouched) p.
Proof.
  destruct m as [[o|personas]|]; try done. intros (j & sub & Hj & ?). exists j, sub.
  split; [by right|done].
Qed.

Create HintDb session.
#[local] Hint Resolve session_ok_delete session_ok_empty : session.
#[local] Hint Extern 4 (_ ≠ _) => vm_compute; discriminate : session.
#[local] Hint Resolve session_ok_insert session_ok_set : session.

Lemma callback_ok o vouched info s :
  session_ok (Some (LoginOidc o)) vouched s →
  session_ok (Some (LoginOidc o)) (match info with Some i => i :: vouched | None => vouched end)
    (oidc_callback (Some info) s).2.
Proof.
  intros Hs. unfold oidc_callback. destruct info as [i|]; simpl; [|done].
  assert (session_ok (Some (LoginOidc o)) (i :: vouched) s) as Hs'.
  { intros v (p & -> & Hp)%Hs. exists p. split; [done|by apply vouched_more]. }
  destruct (ui_sub i) as [[|c sub]|] eqn:E; simpl; [done| |done].
  apply session_ok_delete, session_ok_insert; [|by vm_compute].
  apply session_ok_set. exists i, (c :: sub). split_and!; [left|done..].
Qed.

Lemma signin_ok personas vouched i next s :
  session_ok (Some (LoginDemo personas)) vouched s →
  session_ok (Some (LoginDemo personas)) vouched (demo_signin personas i next s).2.
Proof.
  intros Hs. unfold demo_signin. destruct (list_find _ _) as [[k p]|] eqn:E; simpl; [|done].
  apply session_ok_insert; [|by vm_compute]. apply session_ok_insert; [|by vm_compute].
  apply session_ok_set. apply list_find_Some in E as (E & _). simpl. exists p.
  split; [by eapply list_elem_of_lookup_2|done].
Qed.

Lemma run_call_session registry task agent action amount send s page call s' :
  post_run_call (BL := BL) registry task agent action amount send (Some s) = (page, call, Some s') →
  s' = s ∨ ∃ line, s' = <[u "last_call" := SText line]> s.
Proof.
  unfold post_run_call. intros H. repeat case_match; simplify_eq/=; eauto.
Qed.

(** C27: Whatever a browser sends - sign-ins, callbacks the provider answered or refused,
    agent calls, sign-outs, in any order - a session that resolves to a principal resolves
    to one the mounted login vouched for: a subject the identity provider named, or a
    configured persona; without a login mounted no session does. *)
Theorem session_vouched m vouched s p :
  session_history m vouched s → require_session_principal s = Ok p → vouched_for m vouched p.
Proof.
  intros Hh Hp. assert (session_ok m vouched s) as Hok.
  - clear Hp. induction Hh; subst; auto with session.
    + apply session_ok_insert; [done|by vm_compute].
    + by apply callback_ok.
    + by apply signin_ok.
    + match goal with H : post_run_call _ _ _ _ _ _ _ = _ |- _ =>
        apply run_call_session in H as [->|[line ->]] end; [done|].
      apply session_ok_insert; [done|by vm_compute].
  - unfold require_session_principal in Hp. destruct (s !! u "principal_id") as [v|] eqn:E; [|done].
    apply Hok in E as (q & -> & Hq). destruct q; [done|]. by injection Hp as <-.
Qed.
End sessions.

(** ** What the environment must say *)
Section wiring.
Context {CA : Casing} {BL : BiscuitLib}.
Context (private_from_bytes : list Z → py PrivateKey) (public_from_bytes : list Z → py PublicKey).

Lemma required_env_Ok env name v : required_env env name = Ok v → env !! control_var name = Some v ∧ v ≠ [].
Proof. unfold required_env. by destruct (env !! control_var name) as [[|c t]|]; [|intros [= <-]|]. Qed.

Lemma key_bytes_Ok text b : key_bytes text = Ok b → fromhex text = Some b ∧ length b = 32%nat.
Proof.
  unfold key_bytes. destruct (fromhex text) as [b'|]; [|done].
  intros (? & H%raise_if_Ok & [= <-])%bind_Ok_inv. apply negb_false_iff, Nat.eqb_eq in H. done.
Qed.

(** What a configured control plane is known to have. *)
Record settings_ok (env : environ) (s : ConsoleSettings) : Prop := {
  so_key : ∃ text b, env !! control_var "ROOT_PRIVATE_KEY" = Some text ∧ fromhex text = Some b
             ∧ length b = 32%nat ∧ private_from_bytes b = Ok (co_root_private_key s);
  so_approvers : co_approvers s ≠ ∅ ∧ [] ∉ co_approvers s;
  so_secret : co_session_secret_key s ≠ [];
  so_operators : ∀ secret p, co_operator_tokens s !! secret = Some p → p ∈ co_approvers s;
  so_depth : co_elevation_max_depth s = 1;
  so_public : co_root_public_key s = None ∨ ∃ b k, length b = 32%nat ∧ public_from_bytes b = Ok k
                ∧ co_root_public_key s = Some k }.

Lemma control_settings_ok env s :
  control_from_env private_from_bytes public_from_bytes env = Ok s → settings_ok env s.
Proof.
  unfold control_from_env. intros H. inv_ok.
  repeat match goal with
  | H : required_env _ _ = Ok _ |- _ => apply required_env_Ok in H as [? ?]
  | H : key_bytes _ = Ok _ |- _ => apply key_bytes_Ok in H as [? ?]
  end.
  split; simpl; eauto 8.
  - match goal with H : bool_decide (list_to_set _ = ∅) = false |- _ =>
      apply bool_decide_eq_false in H end. split; [done|].
    intros [Hn _]%elem_of_list_to_set%list_elem_of_filter. done.
  - match goal with H : _parse_operator_tokens _ _ = Ok _ |- _ => rename H into Ht end.
    eapply operator_tokens_approved; [|exact Ht]. intros ? ?. by rewrite lookup_empty.
  - match goal with H : match py_strip ?t with [] => _ | _ => _ end = Ok _ |- _ =>
      destruct (py_strip t); [injection H as <-; by left|]; inv_ok end.
    repeat match goal with H : key_bytes _ = Ok _ |- _ => apply key_bytes_Ok in H as [? ?] end.
    right. eauto 6.
Qed.

(** *** The login mounted *)
Definition OIDC_VARS : list string := ["OIDC_ISSUER"; "OIDC_CLIENT_ID"; "OIDC_CLIENT_SECRET"].
Definition oidc_unset (env : environ) : Prop := ∀ n, n ∈ OIDC_VARS → set_env env (control_var n) = false.
Definition has_database (env : environ) : bool :=
  set_env env (control_var "DATABASE_URL") || set_env env (u "DATABASE_URL").
Definition demo_truthy (env : environ) : Prop :=
  py_lower (py_strip (default [] (env !! control_var "DEMO_LOGIN"))) ∈ _TRUTHY.

Definition login_ok (env : environ) (m : option login_mode) : Prop :=
  match m with
  | Some (LoginOidc o) =>
      has_database env = true
      ∧ env !! control_var "OIDC_ISSUER" = Some (oi_issuer o) ∧ oi_issuer o ≠ []
      ∧ env !! control_var "OIDC_CLIENT_ID" = Some (oi_client_id o) ∧ oi_client_id o ≠ []
      ∧ env !! control_var "OIDC_CLIENT_SECRET" = Some (oi_client_secret o) ∧ oi_client_secret o ≠ []
  | Some (LoginDemo personas) =>
      has_database env = true ∧ oidc_unset env ∧ demo_truthy env ∧ personas ≠ []
      ∧ Forall (λ p, pe_principal_id p ≠ []) personas
  | None => has_database env = false ∨ (oidc_unset env ∧ ¬ demo_truthy env)
  end.

Lemma set_env_Some env n v : env !! n = Some v → v ≠ [] → set_env env n = true.
Proof. unfold set_env. intros ->. by destruct v. Qed.

Lemma oidc_from_env_Ok env o :
  oidc_from_env env = Ok o →
  env !! control_var "OIDC_ISSUER" = Some (oi_issuer o) ∧ oi_issuer o ≠ []
  ∧ env !! control_var "OIDC_CLIENT_ID" = Some (oi_client_id o) ∧ oi_client_id o ≠ []
  ∧ env !! control_var "OIDC_CLIENT_SECRET" = Some (oi_client_secret o) ∧ oi_client_secret o ≠ [].
Proof.
  unfold oidc_from_env. intros H. inv_ok.
  repeat match goal with H : required_env _ _ = Ok _ |- _ => apply required_env_Ok in H as [? ?] end.
  by split_and!.
Qed.

Lemma parse_persona_named entry p : parse_persona entry = Ok p → pe_principal_id p ≠ [].
Proof.
  unfold parse_persona. destruct (partition_at 61 entry) as [[principal b] rest].
  intros (? & H%raise_if_Ok & E)%bind_Ok_inv. apply bool_decide_eq_false in H.
  destruct (partition_at 124 rest) as [[name c] title]. by injection E as <-.
Qed.

Lemma res_map_Forall {A B} (f : A → py B) (P : B → Prop) l l' :
  (∀ x y, f x = Ok y → P y) → res_map f l = Ok l' → Forall P l'.
Proof.
  intros Hf. revert l'. induction l as [|x l IH]; intros l'; simpl.
  - by intros [= <-].
  - intros H. inv_ok. constructor; eauto.
Qed.

Lemma demo_login_ok env demo :
  demo_login_from_env env = Ok demo →
  match demo with
  | None => ¬ demo_truthy env
  | Some ps => demo_truthy env ∧ ps ≠ [] ∧ Forall (λ p, pe_principal_id p ≠ []) ps
  end.
Proof.
  unfold demo_login_from_env, demo_truthy. case_bool_decide as Ht; simpl; [|by intros [= <-]].
  intros (ps & Hps & H)%bind_Ok_inv. inv_ok.
  match goal with H : bool_decide (length ps = 0%nat) = false |- _ => apply bool_decide_eq_false in H; rename H into Hl end.
  split_and!; [done|by intros ->|].
  destruct (py_strip (default [] (env !! control_var "DEMO_PERSONAS"))).
  - injection Hps as <-. repeat constructor; done.
  - eapply res_map_Forall; [apply parse_persona_named|exact Hps].
Qed.

Lemma oidc_choice_ok env oidc :
  (if existsb (λ n, set_env env (control_var n)) OIDC_VARS
   then o ← oidc_from_env env; Ok (Some o) else Ok None) = Ok oidc →
  match oidc with
  | Some o => (has_database env = true → login_ok env (Some (LoginOidc o)))
              ∧ ∀ n, n ∈ OIDC_VARS → set_env env (control_var n) = true
  | None => oidc_unset env
  end.
Proof.
  destruct (existsb _ _) eqn:E.
  - intros (o & Ho%oidc_from_env_Ok & [= <-])%bind_Ok_inv.
    destruct Ho as (? & ? & ? & ? & ? & ?). split; [intros; simpl; by split_and!|].
    intros n Hn. unfold OIDC_VARS in Hn. rewrite !elem_of_cons, elem_of_nil in Hn.
    destruct Hn as [->|[->|[->|[]]]]; eapply set_env_Some; eassumption.
  - intros [= <-] n Hn. destruct (set_env env (control_var n)) eqn:Es; [|done].
    rewrite <- E. symmetry. apply existsb_exists. exists n. by rewrite <- list_elem_of_In.
Qed.

(** A control plane that starts has a 32-byte signing key, at least one approver, a
    session secret, operator tokens that only name approvers, and one-deep elevations; it
    mounts the login its environment asks for, the passwordless one only when none of the
    OIDC variables is set and never without a database and a session middleware; an
    incomplete OIDC configuration does not start. *)
Theorem console_starts_configured env app :
  create_app_from_env private_from_bytes public_from_bytes env = Ok app →
  (∃ s, settings_ok env s ∧ (is_Some (ap_registry app) ↔ is_Some (co_root_public_key s)))
  ∧ login_ok env (ap_login app)
  ∧ (ap_session_middleware app, ap_escalations app, ap_revocations app)
    = (has_database env, has_database env, has_database env)
  ∧ (ap_reaper app = true → has_database env = true)
  ∧ (oidc_unset env ∨ ∀ n, n ∈ OIDC_VARS → set_env env (control_var n) = true).
Proof.
  unfold create_app_from_env. intros (s & Hs%control_settings_ok & E)%bind_Ok_inv.
  cbv zeta in E. fold (has_database env) in E.
  apply bind_Ok_inv in E as (oidc & Ho%oidc_choice_ok & E). apply bind_Ok_inv in E as (demo & Hd%demo_login_ok & E).
  apply bind_Ok_inv in E as (interval & _ & [= <-]).
  split; [|split; [|split; [|split]]].
  - exists s. split; [done|]. unfold create_app. simpl.
    destruct (co_root_public_key s); simpl; split; by intros [? ?].
  - unfold create_app. simpl. destruct (has_database env) eqn:Hdb; simpl; [|by left].
    destruct oidc as [o|]; [by apply Ho|]. destruct demo as [ps|]; simpl; [|by right]. tauto.
  - unfold create_app. simpl. by destruct (has_database env).
  - unfold create_app. simpl. by destruct (has_database env).
  - destruct oidc; [right; apply Ho|by left].
Qed.
End wiring.

(** ** A concrete console *)
#[local] Existing Instance growing.
#[local] Existing Instance identity_unicode.
#[local] Existing Instance position_order.
#[local] Existing Instance ascii_casing.
#[local] Existing Instance toy_repr.

#[local] Instance cedar_value_eq_dec : EqDecision cedar_value.
Proof. solve_decision. Defined.

(** The shipped policies, read one by one as Cedar reads them; any other source that
    parses permits everything. *)
Definition attribute (entities : list cedar_entity) (kind name : string) : option cedar_value :=
  e ← list_find (λ e, ent_type e = u kind) entities;
  kv ← list_find (λ kv, kv.1 = u name) (ent_attrs e.2); Some kv.2.2.

Definition shipped_policies (rq : cedar_request) (entities : list cedar_entity) : list (bool * bool) :=
  let is_action a := bool_decide (rq_action rq = quoted (u "Action") (u a)) in
  let senior := bool_decide (attribute entities "Agent" "role" = Some (CStr (u "senior"))) in
  let shallow := match attribute entities "Agent" "depth" with Some (CLong n) => n <=? 2 | _ => false end in
  let external := bool_decide (attribute entities "Tool" "is_external" = Some (CBool true)) in
  let critical := bool_decide (attribute entities "Tool" "sensitivity" = Some (CStr (u "critical"))) in
  let amount := match list_find (λ kv, kv.1 = u "amount") (rq_context rq) with
                | Some (_, (_, CDecimal text)) =>
                    match parse_decimal text with
                    | Some (DFin d) => match quantize d with Ok q => dcoef q | Raise _ => 0 end
                    | _ => 0 end
                | _ => 0 end in
  [(true, is_action "invoice:read"); (true, is_action "vendor:read");
   (true, is_action "invoice:write" && senior);
   (true, is_action "payment:initiate" && (amount <=? 500000 * 10000) && shallow);
   (true, is_action "email:send" && negb external);
   (false, critical && negb senior);
   (false, is_action "payment:initiate" && (1000000 * 10000 <? amount))].

#[local] Instance shipped_cedar : Cedar :=
  {| policy_set := bool;
     PolicySet_from_str s := if bool_decide (s = []) then None else Some (bool_decide (s = CORPUS_SOURCE));
     is_authorized rq shipped entities :=
       if negb shipped then (CedarAllow, [u "policy0"])
       else if existsb (λ p, negb p.1 && p.2) (shipped_policies rq entities) then (CedarDeny, [])
       else if existsb (λ p, p.1 && p.2) (shipped_policies rq entities) then (CedarAllow, [u "policy0"])
       else (CedarDeny, []) |}.

(** The shipped policy gives every case its verdict, so the gate has something to accept;
    one that permits everything is refused. *)
Example shipped_policy_activates :
  activate_policy CORPUS_SOURCE (u "older") = (200, CORPUS_SOURCE)
  ∧ activate_policy (u "permit(principal, action, resource);") CORPUS_SOURCE = (409, CORPUS_SOURCE)
  ∧ activate_policy [] CORPUS_SOURCE = (409, CORPUS_SOURCE).
Proof. split_and!; vm_compute; reflexivity. Qed.

Lemma served_policy_gated_witness :
  let store := (activate_policy CORPUS_SOURCE initial_store).2 in
  store = CORPUS_SOURCE ∨ passes_corpus store.
Proof.
  apply (served_policy_gated (activate_policy CORPUS_SOURCE initial_store).2).
  apply rtc_once, step_activate.
Defined.

(** *** Environments *)
Definition as_key (b : list Z) : py Z := Ok 7.
Definition console_env (more : list (string * string)) : environ :=
  list_to_map ((λ kv : string * string, (control_var kv.1, u kv.2)) <$> more
    ++ [("ROOT_PRIVATE_KEY", "aaaaaaaaaaaaaaaaaaaaaaaaaaaaaaaaaaaaaaaaaaaaaaaaaaaaaaaaaaaaaaaa");
        ("ROOT_PUBLIC_KEY", "abababababababababababababababababababababababababababababababab");
        ("APPROVERS", "kc:alice, kc:bob"); ("SESSION_SECRET_KEY", "s3cret");
        ("OPERATOR_TOKENS", "kc:alice=tok")]%string).
Definition console_app (more : list (string * string)) : py application :=
  create_app_from_env (BL := growing) as_key as_key (console_env more).
Definition OIDC_SET : list (string * string) :=
  [("OIDC_ISSUER", "https://id"); ("OIDC_CLIENT_ID", "console"); ("OIDC_CLIENT_SECRET", "x")]%string.

(** How an application's login came out. *)
Definition login_view (a : application) : option bool * bool * bool * option bool :=
  (match ap_login a with Some (LoginOidc _) => Some true | Some (LoginDemo _) => Some false | None => None end,
   rd_auth (ap_ready a), rd_demo_login (ap_ready a), ap_login_label a).
Definition view_app {B} (f : application → B) (more : list (string * string)) : py B :=
  a ← console_app more; Ok (f a).

Lemma console_starts_configured_witness :
  ∃ app, console_app (("DATABASE_URL", "postgres") :: ("DEMO_LOGIN", "Yes") :: [])%string = Ok app
         ∧ login_ok (console_env (("DATABASE_URL", "postgres") :: ("DEMO_LOGIN", "Yes") :: [])%string) (ap_login app).
Proof.
  assert (is_ok (console_app (("DATABASE_URL", "postgres") :: ("DEMO_LOGIN", "Yes") :: [])%string) = true) as H
    by (vm_compute; reflexivity).
  destruct (console_app _) as [app|e] eqn:E; [|discriminate H]. exists app. split; [reflexivity|].
  apply (console_starts_configured (BL := growing) as_key as_key _ app E).
Defined.

(** With a real issuer the passwordless login is not mounted; an incomplete issuer does
    not start; without a database nothing is mounted and yet readiness and the page's own
    label say a login is there. *)
Example logins_mounted :
  view_app login_view (("DATABASE_URL", "postgres") :: ("DEMO_LOGIN", "1") :: OIDC_SET)%string
    = Ok (Some true, true, false, Some true)
  ∧ view_app login_view [("OIDC_ISSUER", "https://id")]%string = Raise ValueError
  ∧ view_app login_view OIDC_SET = Ok (None, true, false, Some true)
  ∧ view_app login_view [("DEMO_LOGIN", "1")]%string = Ok (None, false, true, None).
Proof. split_and!; vm_compute; reflexivity. Qed.

(** An interval that is not a number at all is accepted, and no reaper runs. *)
Example reaper_interval :
  view_app ap_reaper [("DATABASE_URL", "postgres")]%string = Ok true
  ∧ view_app ap_reaper [("DATABASE_URL", "postgres"); ("REAPER_INTERVAL_S", "0")]%string = Ok false
  ∧ view_app ap_reaper [("DATABASE_URL", "postgres"); ("REAPER_INTERVAL_S", "nan")]%string = Ok false
  ∧ view_app ap_reaper [("DATABASE_URL", "postgres"); ("REAPER_INTERVAL_S", "-1")]%string = Raise ValueError.
Proof. split_and!; vm_compute; reflexivity. Qed.

(** *** Sessions *)
Definition demo_session : session := (demo_signin _DEFAULT_PERSONAS (u "kc:33333333-3333-3333-3333-333333333333") [] ∅).2.

Lemma session_vouched_witness :
  vouched_for (Some (LoginDemo _DEFAULT_PERSONAS)) [] (u "kc:33333333-3333-3333-3333-333333333333").
Proof.
  apply (session_vouched (BL := growing) _ [] demo_session); [|vm_compute; reflexivity].
  apply (history_signin _ _DEFAULT_PERSONAS); [reflexivity|constructor].
Defined.

(** After a login that asked for another site's page, the browser is sent there: a
    protocol-relative address starts with a slash.  The demo's check stops that one and
    not the same with a backslash, which browsers read as a slash. *)
Theorem login_redirects_offsite sub name s :
  sub ≠ [] →
  (oidc_callback (Some (Some (mkUserinfo (Some sub) name None)))
     (oidc_login (u "//evil.example") (u "state") s).2).1 = Ok (RedirectTo (u "//evil.example"))
  ∧ _safe_destination (u "//evil.example") = u "/escalations"
  ∧ _safe_destination ([47; 92] ++ u "evil.example") = [47; 92] ++ u "evil.example".
Proof.
  intros Hs. split_and!; [|vm_compute; reflexivity..].
  unfold oidc_login, oidc_callback. simpl. destruct sub as [|c sub]; [done|]. simpl.
  rewrite !lookup_insert_ne by (vm_compute; discriminate). by rewrite lookup_insert_eq.
Qed.

(** *** The task driver *)
Definition console_registry : option TaskRegistry := Some empty_registry.
Definition posted (budget principal : string) : py run_page * option TaskRegistry :=
  post_run_task console_registry (u "pay") (u budget) [u "invoice:read"] (u principal) task_clock 5%N.

Definition principals (r : option TaskRegistry) : list pystr :=
  match r with Some r => tk_principal_id <$> list_tasks r | None => [] end.

(** Starting a task asks for no session, and the principal is what the form says; a
    budget that is no number is reported, and one of five decimals is an error nothing
    catches. *)
Example task_for_anyone :
  is_ok (posted "10" "kc:the-cfo").1 = true ∧ principals (posted "10" "kc:the-cfo").2 = [u "kc:the-cfo"]
  ∧ (posted "ten" "kc:the-cfo").1 = Ok (RunPage (Some InvalidOperation) [])
  ∧ (posted "0.00001" "kc:the-cfo").1 = Raise ValidationError
  ∧ principals (posted "0.00001" "kc:the-cfo").2 = [].
Proof. split_and!; vm_compute; reflexivity. Qed.

(** Spawning under a task whose tokens have expired is an error nothing catches. *)
Definition spawned (now : datetime) (ceiling : string) : py run_page :=
  (post_run_agent (posted "10" "kc:alice").2 (uuid_text 5) (u "root") (u "reader") (u "reader") (u ceiling)
     [u "invoice:read"] now).1.
Example spawn_after_expiry :
  is_ok (spawned task_clock "1") = true ∧ spawned task_clock "51" = Ok (RunPage (Some TaskRegistryError) (uuid_text 5))
  ∧ spawned (DT 250000000 true) "1" = Raise TokenExpiredError.
Proof. split_and!; vm_compute; reflexivity. Qed.

(** Without a database there is a task driver and no session: the agent's request is
    sent, and then the page fails. *)
Definition present {A} (o : option A) : bool := match o with Some _ => true | None => false end.
Definition answer_ok (c : agent_call) : call_answer := Answered 200 None.
Definition driven (s : option session) : py run_page * option agent_call * option session :=
  post_run_call (posted "10" "kc:alice").2 (uuid_text 5) (u "root") (u "pay") (u "5") answer_ok s.
Example call_without_session :
  view_app (λ a, (present (ap_registry a), ap_session_middleware a)) [] = Ok (true, false)
  ∧ (driven None).1.1 = Raise AssertionError ∧ present (driven None).1.2 = true
  ∧ is_ok (driven (Some ∅)).1.1 = true.
Proof. split_and!; vm_compute; reflexivity. Qed.

(** *** The compiler's gate *)
Definition compiled (tests : list CompilerTestCase) : py compile_page :=
  compile_policy (Some (mkCompilerOutput None (Some CORPUS_SOURCE) tests)) CORPUS_SOURCE.
Definition activatable (p : py compile_page) : bool :=
  match p with Ok (Compiled _ _ _ c _ _) => c | _ => false end.
Definition generated (expected elevated : bool) (amount : string) : CompilerTestCase :=
  mkCompilerTestCase (u "t") [] expected (u "worker") (u "invoice:read") (u "invoice_api") (u amount) 1 elevated
    (u "production").
Example compiler_gate :
  activatable (compiled [generated true false "0"]) = true ∧ activatable (compiled [generated false false "0"]) = false
  ∧ activatable (compiled [generated true false "ten"]) = false ∧ activatable (compiled []) = true.
Proof. split_and!; vm_compute; reflexivity. Qed.
