(* ===== verification/Backends.v ===== *)
(** * The compiler's language models (agentiam_controlplane/nl_compiler: llm.py,
      ollama_client.py, compiler.py)

    Choosing a backend from the environment, asking it with retries, and reading its
    answer.  The service is what it answers to each attempt; [sleep] is recorded. *)
From Stdlib Require Import SpecFloat.
From S2P Require Import Prelude PyText Errors PyNum PyFloat PyRe PyUuid PySha PyUrl PyJson Revocation Extractor Drift Service Console.

(** ** Waiting *)
Definition DEFAULT_MAX_RETRIES : Z := 5.
Definition MAX_BACKOFF_S : pyfloat := float_of_Z 30.
Definition _RETRYABLE : list Z := [429; 500; 502; 503; 504].

(** A letter of a pattern under [re.IGNORECASE]. *)
Definition same_letter (p c : Z) : bool :=
  (ascii_lower c =? p) || ((p =? 105) && ((c =? 304) || (c =? 305))) || ((p =? 115) && (c =? 383)).
Fixpoint ci_prefix (p s : pystr) : option pystr :=
  match p, s with
  | [], _ => Some s
  | a :: p, c :: s => if same_letter a c then ci_prefix p s else None
  | _, [] => None
  end.

(** [_RETRY_IN_RE.search(body)], group 1. *)
Definition retry_hint_at (s : pystr) : option pystr :=
  rest ← ci_prefix (u "retry in ") s;
  let '(whole, rest) := span is_digit rest in
  if bool_decide (whole = []) then None else
  let '(number, rest) := match rest with
                         | 46 :: r => let '(frac, r) := span is_digit r in
                                      match frac with [] => (whole, rest) | _ => (whole ++ 46 :: frac, r) end
                         | _ => (whole, rest)
                         end in
  _ ← ci_prefix (u "s") rest; Some number.
Fixpoint _RETRY_IN_RE (s : pystr) : option pystr :=
  match retry_hint_at s with
  | Some n => Some n
  | None => match s with [] => None | _ :: s => _RETRY_IN_RE s end
  end.

(** [2.0 ** attempt]. *)
Definition power_of_two (attempt : Z) : py pyfloat :=
  let x := float_round (1, attempt) in raise_if (float_is_inf x) OverflowError;; Ok x.

Definition _retry_delay (retry_after : option pystr) (attempt : Z) (body : pystr) : py pyfloat :=
  match match retry_after with Some ((_ :: _) as t) => float_of_text t | _ => None end with
  | Some x => Ok (float_min x MAX_BACKOFF_S)
  | None =>
      match _RETRY_IN_RE body with
      | Some n =>
          match float_of_text n with
          | Some x => Ok (float_min (float_add x (float_of_Z 1)) MAX_BACKOFF_S)
          | None => Raise ValueError
          end
      | None => x ← power_of_two attempt; Ok (float_min x MAX_BACKOFF_S)
      end
  end.

(** ** One completion *)
Inductive http_answer :=
| Replied (status : Z) (retry_after : option pystr) (text : pystr)
| TimedOut | TransportError.

(** [response.json()]: a body that is not JSON is a [ValueError]. *)
Definition body_json (text : pystr) : py json :=
  match json_loads text with Ok j => Ok j | Raise _ => Raise ValueError end.

(** What was done: requests sent and waits, in order. *)
Inductive llm_event := Posted (attempt : Z) | Slept (delay : pyfloat).

(** [_post_with_retry], [retries] left from [attempt] on; both hosted clients have it. *)
Fixpoint post_from (answer : Z → http_answer) (retries : nat) (attempt : Z) : py json * list llm_event :=
  match answer attempt with
  | TimedOut | TransportError => (Raise LLMError, [Posted attempt])
  | Replied status retry_after text =>
      if bool_decide (status ∈ _RETRYABLE) then
        match retries with
        | O => (Raise LLMError, [Posted attempt])
        | S retries =>
            match _retry_delay retry_after attempt text with
            | Raise e => (Raise e, [Posted attempt])
            | Ok delay =>
                let '(r, log) := post_from answer retries (attempt + 1) in
                (r, Posted attempt :: Slept delay :: log)
            end
        end
      else if (200 <=? status) && (status <? 300) then (body_json text, [Posted attempt])
      else (Raise LLMError, [Posted attempt])
  end.

Definition _post_with_retry (max_retries : Z) (answer : Z → http_answer) : py json * list llm_event :=
  if max_retries <? 0 then (Raise LLMError, []) else post_from answer (Z.to_nat max_retries) 0.

(** [data[key]] and [data[0]]. *)
Definition json_key (data : json) (key : pystr) : py json :=
  match data with
  | JObj kvs => match obj_get kvs key with Some v => Ok v | None => Raise KeyError end
  | _ => Raise TypeError
  end.
Definition json_first (data : json) : py json :=
  match data with
  | JArr (v :: _) => Ok v
  | JArr [] | JStr [] => Raise IndexError
  | JStr (c :: _) => Ok (JStr [c])
  | JObj _ => Raise KeyError
  | _ => Raise TypeError
  end.

(** [except (KeyError, IndexError, TypeError)]. *)
Definition as_llm_error {A} (m : py A) : py A :=
  match m with
  | Raise (KeyError | IndexError | TypeError) => Raise LLMError
  | m => m
  end.

(** [json.loads(content)], a decoding error being the backend's; anything but text is a
    [TypeError] of its own. *)
Definition loads_content (content : json) : py json :=
  match content with
  | JStr s => match json_loads s with Ok j => Ok j | Raise _ => Raise LLMError end
  | _ => Raise TypeError
  end.

Definition object_of (content : json) : py (list (pystr * json)) :=
  raise_if (json_falsy content) LLMError;;
  parsed ← loads_content content;
  match parsed with JObj kvs => Ok kvs | _ => Raise LLMError end.

Definition groq_content (data : json) : py json :=
  as_llm_error (choices ← json_key data (u "choices"); first ← json_first choices;
                message ← json_key first (u "message"); json_key message (u "content")).

Definition GroqClient_generate (max_retries : Z) (answer : Z → http_answer)
    : py (list (pystr * json)) * list llm_event :=
  let '(data, log) := _post_with_retry max_retries answer in
  (data ← data; content ← groq_content data; object_of content, log).

(** Its loop is a copy. *)
Definition gemini_post_with_retry : Z → (Z → http_answer) → py json * list llm_event := _post_with_retry.

(** [data.get("modelVersion")] comes first; which model answered is logged. *)
Definition gemini_content (data : json) : py json :=
  match data with
  | JObj _ =>
      as_llm_error (candidates ← json_key data (u "candidates"); first ← json_first candidates;
                    content ← json_key first (u "content"); parts ← json_key content (u "parts");
                    part ← json_first parts; json_key part (u "text"))
  | _ => Raise AttributeError
  end.

Definition GeminiClient_generate (max_retries : Z) (answer : Z → http_answer)
    : py (list (pystr * json)) * list llm_event :=
  let '(data, log) := gemini_post_with_retry max_retries answer in
  (data ← data; content ← gemini_content data; object_of content, log).

(** Ollama is asked once; every error of the exchange is its own, what it answered need
    not be an object. *)
Definition OllamaClient_generate (answer : Z → http_answer) : py json :=
  data ← match answer 0 with
         | Replied status _ text =>
             if (200 <=? status) && (status <? 300)
             then match json_loads text with Ok j => Ok j | Raise _ => Raise LLMError end
             else Raise LLMError
         | TimedOut | TransportError => Raise LLMError
         end;
  match data with
  | JObj kvs =>
      let response := default JNull (obj_get kvs (u "response")) in
      raise_if (json_falsy response) LLMError;;
      loads_content response
  | _ => Raise AttributeError
  end.

(** [warm]: whether a generation worked, its [LLMError] aside. *)
Definition warm_backend {A} (m : py A) : py bool :=
  match m with Ok _ => Ok true | Raise LLMError => Ok false | Raise e => Raise e end.

(** ** Configuration *)

(** [str.splitlines]. *)
Definition line_break (c : Z) : bool :=
  ((10 <=? c) && (c <=? 13)) || ((28 <=? c) && (c <=? 30)) || (c =? 133) || (c =? 8232) || (c =? 8233).
Fixpoint splitlines_from (line : pystr) (s : pystr) : list pystr :=
  match s with
  | [] => match line with [] => [] | _ => [line] end
  | 13 :: 10 :: s => line :: splitlines_from [] s
  | c :: s => if line_break c then line :: splitlines_from [] s else splitlines_from (line ++ [c]) s
  end.

Definition quote_char (c : Z) : bool := (c =? 39) || (c =? 34).
Definition strip_quotes (s : pystr) : pystr := reverse (drop_while quote_char (reverse (drop_while quote_char s))).

(** A line of [.env]: a key and a value, or nothing. *)
Definition dotenv_line (raw : pystr) : option (pystr * pystr) :=
  let line := py_strip raw in
  if bool_decide (line = []) || starts_with (u "#") line || negb (bool_decide (61 ∈ line)) then None else
  let '(key, _, value) := partition_at 61 line in
  Some (py_strip key, strip_quotes (py_strip value)).

(** [os.environ.setdefault]: the operating system takes no empty name. *)
Definition setdefault (env : environ) (k v : pystr) : py environ :=
  match env !! k with
  | Some _ => Ok env
  | None => match k with [] => Raise OSError | _ => Ok (<[k := v]> env) end
  end.

Fixpoint set_all (env : environ) (l : list (pystr * pystr)) : py environ :=
  match l with
  | [] => Ok env
  | (k, v) :: l => env ← setdefault env k v; set_all env l
  end.

(** [files]: the text of [.env] in each directory from here to the root, if there is one. *)
Definition load_dotenv (files : list (option pystr)) (env : environ) : py environ :=
  match list_find (λ f, is_Some f) files with
  | Some (_, Some text) => set_all env (omap dotenv_line (splitlines_from [] text))
  | _ => Ok env
  end.

Inductive llm_backend := Ollama | Groq (api_key : pystr) | Gemini (api_key : pystr).

Definition hosted (mk : pystr → llm_backend) (key : option pystr) : py llm_backend :=
  match key with Some ((_ :: _) as k) => Ok (mk k) | _ => Raise LLMError end.

Section choice.
Context {CA : Casing}.

Definition client_from_env (files : list (option pystr)) (env : environ) : py llm_backend :=
  env ← load_dotenv files env;
  let backend := py_lower (py_strip (default [] (env !! u "AGENTIAM_LLM_BACKEND"))) in
  let gemini := env !! u "GEMINI_API_KEY" in
  let groq := env !! u "GROQ_API_KEY" in
  if bool_decide (backend = u "ollama") then Ok Ollama
  else if bool_decide (backend = u "groq") then hosted Groq groq
  else if bool_decide (backend = u "gemini") then hosted Gemini gemini
  else if negb (bool_decide (backend = [])) then Raise LLMError
  else match gemini with
       | Some ((_ :: _) as k) => Ok (Gemini k)
       | _ => match groq with Some ((_ :: _) as k) => Ok (Groq k) | _ => Ok Ollama end
       end.

(** *** compile_nl_to_policy

    [generate] is what each backend returns; [model_validate] is pydantic's. *)
Definition compile_nl_to_policy (model_validate : json → py CompilerOutput)
    (generate : llm_backend → py json) (client : option llm_backend)
    (files : list (option pystr)) (env : environ) : py CompilerOutput :=
  client ← match client with Some c => Ok c | None => client_from_env files env end;
  raw ← generate client; model_validate raw.
End choice.
