(* ===== verification/BackendsSpec.v ===== *)
(** * What the compiler's backends promise

    How often and how long a rate limit is waited out, what a file may add to the
    environment, and which backend is chosen. *)
From Stdlib Require Import SpecFloat.
From S2P Require Import Prelude PyText Errors PyNum PyFloat PyRe PyUuid PySha PyUrl PyJson Caveats Attribution Revocation BundlesSpec Extractor ExtractorSpec Service Console Backends.

(** ** Retrying *)
(** No longer than the cap, or no number at all. *)
Definition capped (d : pyfloat) : Prop := d = S754_nan ∨ float_lt MAX_BACKOFF_S d = false.

Lemma float_min_capped x : capped (float_min x MAX_BACKOFF_S).
Proof.
  unfold float_min. destruct (float_lt MAX_BACKOFF_S x) eqn:E; [right; by vm_compute|by right].
Qed.

Lemma retry_delay_capped h n body d : _retry_delay h n body = Ok d → capped d.
Proof.
  unfold _retry_delay. intros H.
  repeat match type of H with
  | Ok _ = Ok _ => injection H as <-; apply float_min_capped
  | Raise _ = Ok _ => discriminate H
  | mbind _ _ = Ok _ => apply bind_Ok_inv in H as (? & _ & H)
  | context [match ?x with _ => _ end] => destruct x
  end.
Qed.

(** A hint in a body is a number. *)
Lemma span_spec p s w r : span p s = (w, r) → s = w ++ r ∧ Forall (λ c, p c = true) w.
Proof.
  revert w r. induction s as [|c s IH]; intros w r; simpl; [by intros [= <- <-]|].
  destruct (p c) eqn:Hc; [|by intros [= <- <-]]. destruct (span p s) as [a b].
  intros [= <- <-]. destruct (IH a b eq_refl) as [-> ?]. split; [done|by constructor].
Qed.

Lemma span_stops p w r :
  Forall (λ c, p c = true) w → (∀ c r', r = c :: r' → p c = false) → span p (w ++ r) = (w, r).
Proof.
  intros Hw Hr. induction Hw as [|c w Hc _ IH]; simpl; [|by rewrite Hc, IH].
  destruct r as [|c r]; [done|]. simpl. by rewrite (Hr c r).
Qed.

(** Digits, and a fraction. *)
Inductive plain_number : pystr → Prop :=
| whole w : w ≠ [] → Forall (λ c, is_digit c = true) w → plain_number w
| fraction w f : w ≠ [] → Forall (λ c, is_digit c = true) w → Forall (λ c, is_digit c = true) f →
    plain_number (w ++ 46 :: f).

Lemma retry_hint_number body n : _RETRY_IN_RE body = Some n → plain_number n.
Proof.
  induction body as [|c body IH]; cbn [_RETRY_IN_RE]; [done|].
  destruct (retry_hint_at (c :: body)) as [m|] eqn:E; [|exact IH]. intros [= <-]. clear IH.
  unfold retry_hint_at in E. destruct (ci_prefix (u "retry in ") (c :: body)) as [rest|]; [|done].
  cbn [mbind option_bind] in E. destruct (span is_digit rest) as [w r0] eqn:Ew.
  apply span_spec in Ew as [_ Hw]. case_bool_decide as Hne; [done|].
  assert (∃ f r', match r0 with
                  | 46 :: r => let '(frac, r) := span is_digit r in
                               match frac with [] => (w, r0) | _ => (w ++ 46 :: frac, r) end
                  | _ => (w, r0)
                  end = (f, r') ∧ plain_number f) as (f & r' & Ef & Hf).
  { assert (plain_number w) as Hp by (by apply whole).
    assert (∀ k : pystr * pystr, k.1 = w → ∃ f r', k = (f, r') ∧ plain_number f) as Hw'.
    { intros [f r'] E'. simpl in E'. subst f. by exists w, r'. }
    destruct r0 as [|z r]; [by apply Hw'|].
    destruct (decide (z = 46)) as [->|Hz].
    - destruct (span is_digit r) as [f r'] eqn:Es. apply span_spec in Es as [_ Hs].
      destruct f as [|x f]; [by apply Hw'|]. eexists _, _. split; [done|]. by apply fraction.
    - apply Hw'. repeat (destruct z as [|z|z]; try done). }
  revert E. rewrite Ef. destruct (ci_prefix (u "s") r'); cbn [mbind option_bind]; [|done].
  by intros [= <-].
Qed.

(** [float] reads it. *)
Lemma plain_number_chars n : plain_number n → Forall (λ c, is_digit c = true ∨ c = 46) n.
Proof.
  intros [w _ Hw|w f _ Hw Hf]; [|apply Forall_app; split; [|constructor; [by right|]]];
    (eapply Forall_impl; [eassumption|]; by left).
Qed.

Lemma underscores_plain b s : Forall (λ c, c ≠ 95) s → underscores_ok b s = true.
Proof.
  intros Hs. revert b. induction Hs as [|c s Hc _ IH]; intros b; simpl; [done|].
  rewrite IH. repeat (destruct c as [|c|c]; try done).
Qed.

Lemma parse_plain n : plain_number n → is_Some (parse_number n).
Proof.
  assert (∀ w, Forall (λ c, is_digit c = true) w → Forall (λ c, is_unicode_digit c = true) w) as Hu.
  { intros w Hw. eapply Forall_impl; [exact Hw|]. apply is_unicode_digit_ascii. }
  unfold parse_number. intros [w Hne Hw%Hu|w f Hne Hw%Hu Hf%Hu].
  - pose proof (span_stops is_unicode_digit w [] Hw ltac:(done)) as E. rewrite app_nil_r in E.
    rewrite E, bool_decide_eq_false_2 by done. by eexists.
  - rewrite span_stops; [|done|by intros ? ? [= <- <-]].
    pose proof (span_stops is_unicode_digit f [] Hf ltac:(done)) as E. rewrite app_nil_r in E.
    rewrite E, bool_decide_eq_false_2 by done. by eexists.
Qed.

Lemma float_of_plain n : plain_number n → is_Some (float_of_text n).
Proof.
  intros Hn. pose proof (plain_number_chars n Hn) as Hc. rewrite Forall_forall in Hc.
  assert (∀ c, c ∈ n → is_space c = false ∧ c ≠ 95 ∧ c ≠ 45 ∧ c ≠ 43) as Ho.
  { intros c [Hd| ->]%Hc; [|done]. split; [by apply digit_not_space|]. unfold is_digit in Hd. zify_bool. lia. }
  unfold float_of_text. rewrite strip_none.
  2: { apply forallb_forall. intros c Hin%list_elem_of_In. by destruct (Ho c Hin) as [-> _]. }
  rewrite underscores_plain by (apply Forall_forall; intros c Hin; by apply Ho). cbn [negb].
  rewrite filter_all by (apply Forall_forall; intros c Hin; by apply Ho).
  destruct (parse_plain n Hn) as [d Hd]. destruct n as [|c n]; [by rewrite Hd|].
  destruct (Ho c ltac:(by left)) as (_ & _ & H1 & H2).
  assert (match c :: n with
          | 45 :: r => (true, r) | 43 :: r => (false, r) | _ => (false, c :: n)
          end = (false, c :: n)) as ->.
  { repeat (destruct c as [|c|c]; try done). }
  rewrite Hd. by eexists.
Qed.

Lemma power_of_two_fits n : 0 <= n < 1024 → is_ok (power_of_two n) = true.
Proof.
  intros Hn. assert (forallb (λ n, is_ok (power_of_two n)) (seqZ 0 1024) = true) as H by (vm_compute; reflexivity).
  rewrite forallb_forall in H. apply H, list_elem_of_In, elem_of_seqZ. lia.
Qed.

(** A wait is a number of seconds, unless the doubling leaves the floats. *)
Lemma retry_delay_cases h n body :
  0 <= n →
  (∃ d, _retry_delay h n body = Ok d ∧ capped d) ∨ (1024 <= n ∧ _retry_delay h n body = Raise OverflowError).
Proof.
  intros Hn. unfold _retry_delay.
  destruct (match h with Some ((_ :: _) as t) => float_of_text t | _ => None end) as [x|].
  { left. eexists. split; [done|apply float_min_capped]. }
  destruct (_RETRY_IN_RE body) as [t|] eqn:Et.
  { apply retry_hint_number, float_of_plain in Et as [x ->]. left. eexists. split; [done|apply float_min_capped]. }
  destruct (Z.lt_ge_cases n 1024) as [Hlt|Hge].
  - destruct (is_ok_Ok (power_of_two n) (power_of_two_fits n ltac:(lia))) as [x ->]. left. eexists. split; [done|apply float_min_capped].
  - unfold power_of_two. destruct (float_is_inf _); [by right|]. left. eexists. split; [done|apply float_min_capped].
Qed.

(** ** A completion *)

(** Requests are numbered from [n], a wait after each but the last. *)
Fixpoint script (n : Z) (waits : list pyfloat) : list llm_event :=
  match waits with
  | [] => [Posted n]
  | d :: waits => Posted n :: Slept d :: script (n + 1) waits
  end.

(** The answer to request [n] is waited out for [d]. *)
Definition waited_out (answer : Z → http_answer) (n : Z) (d : pyfloat) : Prop :=
  ∃ status h text, answer n = Replied status h text ∧ status ∈ _RETRYABLE
    ∧ _retry_delay h n text = Ok d ∧ capped d.

(** How the last request ends a completion that may send [limit] more. *)
Definition ends_with (limit n : Z) (a : http_answer) (r : py json) : Prop :=
  match a with
  | Replied status _ text =>
      if bool_decide (status ∈ _RETRYABLE)
      then (n = limit ∧ r = Raise LLMError) ∨ (1024 <= n ∧ r = Raise OverflowError)
      else r = if (200 <=? status) && (status <? 300) then body_json text else Raise LLMError
  | _ => r = Raise LLMError
  end.

Lemma post_from_spec answer retries : ∀ n r log,
  0 <= n → post_from answer retries n = (r, log) →
  ∃ waits, log = script n waits ∧ (length waits <= retries)%nat
    ∧ (∀ i d, waits !! i = Some d → waited_out answer (n + Z.of_nat i) d)
    ∧ ends_with (n + Z.of_nat retries) (n + Z.of_nat (length waits)) (answer (n + Z.of_nat (length waits))) r.
Proof.
  assert (∀ n retries r, ends_with (n + Z.of_nat retries) n (answer n) r →
    ∃ waits, [Posted n] = script n waits ∧ (length waits <= retries)%nat
    ∧ (∀ i d, waits !! i = Some d → waited_out answer (n + Z.of_nat i) d)
    ∧ ends_with (n + Z.of_nat retries) (n + Z.of_nat (length waits)) (answer (n + Z.of_nat (length waits))) r) as Hlast.
  { intros n k r H. exists []. cbn [length]. change (Z.of_nat 0) with 0. rewrite Z.add_0_r. split_and!; [done|lia|done|done]. }
  induction retries as [|retries IH]; intros n r log Hn; cbn [post_from]; intros H;
    (destruct (answer n) as [status h text| |] eqn:Ea; [case_bool_decide as Hs|injection H as <- <-; apply Hlast; by rewrite Ea..]).
  - injection H as <- <-. apply Hlast. rewrite Ea. simpl. rewrite bool_decide_eq_true_2 by done. left. split; [lia|done].
  - destruct ((200 <=? status) && (status <? 300)) eqn:Eo; injection H as <- <-; apply Hlast; rewrite Ea; simpl;
      by rewrite bool_decide_eq_false_2, Eo.
  - destruct (retry_delay_cases h n text Hn) as [(d & Hd & Hcap)|[Hbig Hd]]; rewrite Hd in H.
    + destruct (post_from answer retries (n + 1)) as [r' log'] eqn:E. injection H as <- <-.
      destruct (IH (n + 1) r' log' ltac:(lia) E) as (waits & -> & Hl & Hw & He). exists (d :: waits). cbn [script length].
      replace (n + Z.of_nat (S (length waits))) with (n + 1 + Z.of_nat (length waits)) by lia.
      replace (n + Z.of_nat (S retries)) with (n + 1 + Z.of_nat retries) by lia.
      split_and!; [done|lia| |done].
      intros [|i] d' Hi; [injection Hi as <-; rewrite Z.add_0_r; by exists status, h, text|].
      replace (n + Z.of_nat (S i)) with (n + 1 + Z.of_nat i) by lia. by apply Hw.
    + injection H as <- <-. apply Hlast. rewrite Ea. simpl. rewrite bool_decide_eq_true_2 by done. by right.
  - destruct ((200 <=? status) && (status <? 300)) eqn:Eo; injection H as <- <-; apply Hlast; rewrite Ea; simpl;
      by rewrite bool_decide_eq_false_2, Eo.
Qed.

(** C33: A completion is a run of requests with a wait after each but the last.  Every
    answer waited out is a rate limit or a transient failure, the wait is the one the
    header, the body or the attempt gives, and is at most the cap (or not a number); and
    every such answer is waited out until as many retries were made as allowed (or the
    doubling, from attempt 1024, leaves the floats).  The last answer is the result: the
    body of a success, and an [LLMError] for a refusal, for a transport error and for a
    transient failure with no retry left. *)
Theorem retries_bounded max_retries answer r log :
  0 <= max_retries → _post_with_retry max_retries answer = (r, log) →
  ∃ waits, let k := Z.of_nat (length waits) in
    log = script 0 waits ∧ k <= max_retries
    ∧ (∀ i d, waits !! i = Some d → waited_out answer (Z.of_nat i) d)
    ∧ ends_with max_retries k (answer k) r.
Proof.
  intros Hm. unfold _post_with_retry. rewrite (proj2 (Z.ltb_ge _ _) Hm).
  intros (waits & -> & Hl & Hw & He)%post_from_spec; [|lia]. exists waits. cbv zeta.
  rewrite !Z.add_0_l, Z2Nat.id in He by done. split_and!; [done|lia|exact Hw|done].
Qed.

(** ** The environment file *)
Lemma setdefault_keeps env k v env' : setdefault env k v = Ok env' → env ⊆ env'.
Proof.
  unfold setdefault. destruct (env !! k) eqn:E; [by intros [= <-]|].
  destruct k; [done|]. intros [= <-]. by apply insert_subseteq.
Qed.

(** The value a file gives a name: its first. *)
Definition first_value (l : list (pystr * pystr)) (k : pystr) : option pystr :=
  snd <$> (snd <$> list_find (λ p, p.1 = k) l).

Lemma first_value_cons k v l x :
  first_value ((k, v) :: l) x = if bool_decide (k = x) then Some v else first_value l x.
Proof.
  unfold first_value. cbn [list_find fst]. case_bool_decide as E.
  - by rewrite decide_True.
  - rewrite decide_False by done. by destruct (list_find _ l) as [[? ?]|].
Qed.

Lemma set_all_spec l : ∀ env env',
  set_all env l = Ok env' → ∀ k, env' !! k = match env !! k with Some v => Some v | None => first_value l k end.
Proof.
  induction l as [|[k v] l IH]; intros env env'; cbn [set_all].
  - intros [= <-] x. by destruct (env !! x).
  - intros (e1 & H1 & H2)%bind_Ok_inv x. rewrite (IH _ _ H2 x), first_value_cons.
    unfold setdefault in H1. destruct (env !! k) as [w|] eqn:E.
    + injection H1 as <-. case_bool_decide; [by subst; rewrite E|done].
    + destruct k as [|c k]; [done|]. injection H1 as <-. case_bool_decide as Hx.
      * subst x. by rewrite lookup_insert_eq, E.
      * by rewrite lookup_insert_ne.
Qed.

(** Reading [.env] files never changes a variable that is set; one that is not gets
    the first value the nearest file gives it, and no farther file is read. *)
Theorem dotenv_never_overrides files env env' :
  load_dotenv files env = Ok env' →
  (∀ k v, env !! k = Some v → env' !! k = Some v)
  ∧ ∀ k, env !! k = None →
      env' !! k = match list_find (λ f, is_Some f) files with
                  | Some (_, Some text) => first_value (omap dotenv_line (splitlines_from [] text)) k
                  | _ => None
                  end.
Proof.
  unfold load_dotenv. destruct (list_find _ files) as [[i [text|]]|]; intros H.
  - pose proof (set_all_spec _ _ _ H) as Hs. split; intros k; [intros v|]; intros Hk; by rewrite Hs, Hk.
  - injection H as <-. split; [done|]. by intros k ->.
  - injection H as <-. split; [done|]. by intros k ->.
Qed.

(** ** The backend chosen *)
Section chosen.
Context {CA : Casing}.

Definition backend_name (env : environ) : pystr := py_lower (py_strip (default [] (env !! u "AGENTIAM_LLM_BACKEND"))).
Definition has_key (env : environ) (name : string) (k : pystr) : Prop := env !! u name = Some k ∧ k ≠ [].
Definition no_key (env : environ) (name : string) : Prop := ∀ k, ¬ has_key env name k.

Definition selected (env : environ) (b : llm_backend) : Prop :=
  match b with
  | Ollama => backend_name env = u "ollama"
              ∨ (backend_name env = [] ∧ no_key env "GEMINI_API_KEY" ∧ no_key env "GROQ_API_KEY")
  | Groq k => has_key env "GROQ_API_KEY" k
              ∧ (backend_name env = u "groq" ∨ (backend_name env = [] ∧ no_key env "GEMINI_API_KEY"))
  | Gemini k => has_key env "GEMINI_API_KEY" k ∧ (backend_name env = u "gemini" ∨ backend_name env = [])
  end.

Lemma hosted_Ok (mk : pystr → llm_backend) (env : environ) (name : string) b :
  hosted mk (env !! u name) = Ok b → ∃ k, b = mk k ∧ has_key env name k.
Proof.
  unfold hosted, has_key. destruct (env !! u name) as [[|c k]|]; [done| |done]. intros [= <-].
  exists (c :: k). done.
Qed.

Lemma key_cases (env : environ) (name : string) :
  (∃ c k, env !! u name = Some (c :: k) ∧ has_key env name (c :: k))
  ∨ (no_key env name ∧ (env !! u name = Some [] ∨ env !! u name = None)).
Proof.
  destruct (env !! u name) as [[|c k]|] eqn:E.
  - right. split; [|by left]. intros k [Hk Hn]. congruence.
  - left. exists c, k. by repeat split.
  - right. split; [|by right]. intros k [Hk Hn]. congruence.
Qed.

(** The backend is the one the environment names, [.env] included and the deployment's
    own variables winning; unnamed, it is Gemini if its key is set, else Groq if its key
    is, else the local model.  A deployment that exports the local model gets it, whatever
    files lie around, and a hosted backend always has the key it was found with. *)
Theorem backend_as_configured files env b :
  client_from_env files env = Ok b →
  (∃ env', load_dotenv files env = Ok env' ∧ (∀ k v, env !! k = Some v → env' !! k = Some v) ∧ selected env' b)
  ∧ (∀ v, env !! u "AGENTIAM_LLM_BACKEND" = Some v → py_lower (py_strip v) = u "ollama" → b = Ollama).
Proof.
  unfold client_from_env. intros (env' & He & H)%bind_Ok_inv. cbv zeta in H.
  assert (∀ k v, env !! k = Some v → env' !! k = Some v) as Hkeep.
  { revert He. unfold load_dotenv. destruct (list_find _ files) as [[i [text|]]|]; [|by intros [= <-]..].
    intros Hs k v Hk. by rewrite (set_all_spec _ _ _ Hs k), Hk. }
  fold (backend_name env') in H. split.
  - exists env'. split; [done|]. split; [done|]. revert H.
    case_bool_decide as H1; [by intros [= <-]; left|].
    case_bool_decide as H2; [intros (k & -> & Hk)%hosted_Ok; split; [done|by left]|].
    case_bool_decide as H3; [intros (k & -> & Hk)%hosted_Ok; split; [done|by left]|].
    case_bool_decide as H4; cbn [negb]; [|done].
    destruct (key_cases env' "GEMINI_API_KEY") as [(c & k & Hg & Hk)|[Hg Hn]].
    + rewrite Hg. intros [= <-]. split; [done|by right].
    + destruct (key_cases env' "GROQ_API_KEY") as [(c & k & Hq & Hk)|[Hq Hm]].
      * destruct Hn as [Hn|Hn]; rewrite Hn, Hq; intros [= <-]; (split; [done|by right]).
      * destruct Hn as [Hn|Hn], Hm as [Hm|Hm]; rewrite Hn, Hm; intros [= <-]; by right.
  - intros v Hv Ho. apply Hkeep in Hv. unfold backend_name in H. rewrite Hv in H. cbn [default from_option id] in H.
    rewrite bool_decide_eq_true_2 in H by done. by injection H as <-.
Qed.
End chosen.

(** ** Concrete answers *)
#[local] Existing Instance ascii_casing.

Definition busy_then (body : string) (n : Z) : http_answer :=
  if n <? 2 then Replied 429 (Some (u "120")) [] else Replied 200 None (json_text body).
Lemma retries_bounded_witness :
  let '(r, log) := _post_with_retry 5 (busy_then "{'a': 1}") in
  r = Ok (JObj [(u "a", JNum false (Dec 1 0))]) ∧ ∃ waits, log = script 0 waits ∧ Forall capped waits.
Proof.
  destruct (_post_with_retry 5 (busy_then "{'a': 1}")) as [r log] eqn:E.
  destruct (retries_bounded 5 (busy_then "{'a': 1}") r log) as (waits & H1 & _ & H2 & _); [lia|exact E|].
  vm_compute in E. injection E as <- _. split; [reflexivity|]. exists waits. split; [exact H1|].
  apply Forall_lookup. intros i d Hd. destruct (H2 i d Hd) as (? & ? & ? & _ & _ & _ & Hc). exact Hc.
Defined.

(** Two rate limits are waited out, for the cap: the header asked for two minutes. *)
Example waits_out_the_limit :
  (_post_with_retry 5 (busy_then "{'a': 1}")).2 = script 0 [MAX_BACKOFF_S; MAX_BACKOFF_S]
  ∧ (_post_with_retry 1 (busy_then "{'a': 1}")).1 = Raise LLMError.
Proof. by vm_compute. Qed.

Definition one_file (text : string) : list (option pystr) := [None; Some (u text)].
Definition env_of (l : list (string * string)) : environ :=
  list_to_map ((λ kv : string * string, (u kv.1, u kv.2)) <$> l).
Lemma dotenv_never_overrides_witness :
  match load_dotenv (one_file " A = 'x' ") (env_of [("B", "y")]%string) with
  | Ok env => env !! u "A" = Some (u "x") ∧ env !! u "B" = Some (u "y")
  | Raise _ => False
  end.
Proof.
  destruct (load_dotenv (one_file " A = 'x' ") (env_of [("B", "y")]%string)) as [env|e] eqn:E.
  - destruct (dotenv_never_overrides _ _ _ E) as [H1 H2]. split.
    + rewrite H2; [vm_compute; reflexivity|vm_compute; reflexivity].
    + apply H1. vm_compute. reflexivity.
  - assert (is_ok (load_dotenv (one_file " A = 'x' ") (env_of [("B", "y")]%string)) = true) as H by (vm_compute; reflexivity).
    rewrite E in H. discriminate H.
Defined.

Lemma backend_as_configured_witness :
  client_from_env (one_file "GEMINI_API_KEY=g") (env_of [("AGENTIAM_LLM_BACKEND", " Ollama ")]%string) = Ok Ollama
  ∧ ∃ env', load_dotenv (one_file "GEMINI_API_KEY=g") (env_of [("AGENTIAM_LLM_BACKEND", " Ollama ")]%string) = Ok env'
            ∧ selected env' Ollama.
Proof.
  assert (client_from_env (one_file "GEMINI_API_KEY=g") (env_of [("AGENTIAM_LLM_BACKEND", " Ollama ")]%string) = Ok Ollama)
    as E by (vm_compute; reflexivity).
  split; [exact E|]. destruct (backend_as_configured _ _ _ E) as [(env' & H1 & _ & H2) _].
  exists env'. split; [exact H1|exact H2].
Defined.

(** The documentation has Groq's key decide between Groq and the local model; a Gemini
    key decides first, and alone sends the operator's text to a hosted service. *)
Theorem gemini_chosen_first :
  client_from_env [] (env_of [("GROQ_API_KEY", "q"); ("GEMINI_API_KEY", "g")]%string) = Ok (Gemini (u "g"))
  ∧ client_from_env [] (env_of [("GEMINI_API_KEY", "g")]%string) = Ok (Gemini (u "g"))
  ∧ client_from_env [] (env_of [("GROQ_API_KEY", "q")]%string) = Ok (Groq (u "q"))
  ∧ client_from_env [] ∅ = Ok Ollama.
Proof. split_and!; vm_compute; reflexivity. Qed.

(** A [Retry-After] that is not a number is not clamped. *)
Theorem nan_delay_unclamped :
  _retry_delay (Some (u "nan")) 0 [] = Ok S754_nan
  ∧ _retry_delay (Some (u "3600")) 0 [] = Ok MAX_BACKOFF_S
  ∧ _retry_delay None 3 (u "Please RETRY in 2.5s.") = Ok (default S754_nan (float_of_text (u "3.5")))
  ∧ _retry_delay None 3 [] = Ok (float_of_Z 8).
Proof. split_and!; vm_compute; reflexivity. Qed.

(** Not every unusable answer is an [LLMError]: a body that is not JSON, a content that is
    no text, a body that is no object; [warm] raises with them. *)
Theorem answers_escape_llm_error :
  (GroqClient_generate 5 (λ _, Replied 200 None (u "<html>"))).1 = Raise ValueError
  ∧ warm_backend (GroqClient_generate 5 (λ _, Replied 200 None (u "<html>"))).1 = Raise ValueError
  ∧ (GroqClient_generate 5 (λ _, Replied 200 None (json_text "{'choices': [{'message': {'content': 7}}]}"))).1
    = Raise TypeError
  ∧ (GeminiClient_generate 5 (λ _, Replied 200 None (u "[]"))).1 = Raise AttributeError
  ∧ OllamaClient_generate (λ _, Replied 200 None (u "[]")) = Raise AttributeError
  ∧ OllamaClient_generate (λ _, Replied 200 None (u "<html>")) = Raise LLMError
  ∧ OllamaClient_generate (λ _, Replied 200 None (json_text "{'response': '[1]'}")) = Ok (JArr [JNum false (Dec 1 0)])
  ∧ (GroqClient_generate 5 (λ _, Replied 200 None (json_text "{'choices': [{'message': {'content': '{}'}}]}"))).1
    = Ok [].
Proof. split_and!; vm_compute; reflexivity. Qed.
