(* ===== verification/Reports.v ===== *)
(** * Reading the audit chain back (agentiam_controlplane: db/decisions.py, decisions_api.py,
      db/audit_search.py, audit_api.py, db/decision_metrics.py)

    The page and the live stream of decisions, the audit search, a task's custody and the
    counts by outcome.  A session reads one state of the table; a stream is a generator cut
    at its awaits, each wake-up with what the connection, the clock and the database gave.
    Every record the chain holds is an object ([model_dump] of a model); [dict] of anything
    else is refused, as a [TypeError]. *)
From S2P Require Import Prelude PyText Errors PyNum PyFloat PyTime PyUuid PySha PyRe Models Hashing AuditChain Extractor CedarPolicy.

(** What PostgreSQL's [->>] prints of a container or of a number that is no integer. *)
Class JsonbText := { jsonb_text : value → pystr }.

Definition record_obj (row : AuditRecordRow) : py (list (pystr * value)) :=
  match record row with VMap kvs => Ok kvs | _ => Raise TypeError end.

(** [bool(v)]. *)
Definition value_truthy (v : value) : bool :=
  match v with
  | VNone | VBool false | VStr [] | VMap [] | VSeq [] | VSet [] | VNegZero => false
  | VInt n => negb (n =? 0)
  | VFloat x => float_truth x
  | VDecimal (DFin d) => negb (dcoef d =? 0)
  | _ => true
  end.

(** [int(v)]. *)
Definition value_int (v : value) : py Z :=
  match v with
  | VInt n => Ok n
  | VBool b => Ok (if b then 1 else 0)
  | VFloat x => float_int x
  | VStr s => match parse_int10 s with Some n => Ok n | None => Raise ValueError end
  | VDecimal (DFin d) => Ok (dec_to_int d)
  | VDecimal DNaN => Raise ValueError
  | VDecimal (DInf _) => Raise OverflowError
  | VNegZero => Ok 0
  | _ => Raise TypeError
  end.

(** [datetime.isoformat()] of an instant in UTC. *)
Definition six (n : Z) : pystr := two (n / 10000) ++ four (n mod 10000).
Definition isoformat (t : Z) : pystr :=
  take 19 (date_text (t / 1000000))
  ++ (if t mod 1000000 =? 0 then [] else u "." ++ six (t mod 1000000)) ++ u "+00:00".

Section reports.
Context {CA : Casing} {RP : PyRepr} {JT : JsonbText}.

(** ** db/decisions.py *)
Definition DEFAULT_LIMIT : Z := 100.

Record DecisionFilter := mkDecisionFilter {
  df_outcome : option pystr; df_agent_id : option pystr; df_scope : option pystr }.

Definition matches_nothing (f : DecisionFilter) : bool :=
  existsb (λ v, bool_decide (v = Some [])) [df_outcome f; df_agent_id f; df_scope f].

Record DecisionEvent := mkDecisionEvent {
  ev_seq : Z; ev_decision_id : uuid; ev_task_id : option uuid; ev_timestamp : Z;
  ev_outcome : pystr; ev_reason_code : pystr; ev_agent_id : pystr; ev_principal_id : pystr;
  ev_scope : pystr; ev_tool_id : pystr; ev_depth : Z; ev_latency_us : Z; ev_explanation : pystr;
  ev_failing_caveat_kind : option pystr; ev_failing_caveat_block : option Z;
  ev_drift_score : option pystr }.

Definition opt_value {A} (f : A → value) (o : option A) : value :=
  match o with Some a => f a | None => VNone end.

Definition event_dict (e : DecisionEvent) : list (pystr * value) :=
  [(u "seq", VInt (ev_seq e));
   (u "decision_id", VStr (uuid_text (ev_decision_id e)));
   (u "task_id", opt_value (λ i, VStr (uuid_text i)) (ev_task_id e));
   (u "timestamp", VStr (isoformat (ev_timestamp e)));
   (u "outcome", VStr (ev_outcome e));
   (u "reason_code", VStr (ev_reason_code e));
   (u "agent_id", VStr (ev_agent_id e));
   (u "principal_id", VStr (ev_principal_id e));
   (u "scope", VStr (ev_scope e));
   (u "tool_id", VStr (ev_tool_id e));
   (u "depth", VInt (ev_depth e));
   (u "latency_us", VInt (ev_latency_us e));
   (u "explanation", VStr (ev_explanation e));
   (u "failing_caveat_kind", opt_value VStr (ev_failing_caveat_kind e));
   (u "failing_caveat_block", opt_value VInt (ev_failing_caveat_block e));
   (u "drift_score", opt_value VStr (ev_drift_score e))].

(** [str(record.get(key, default))], and with a falsy value replaced by [""]. *)
Definition get_str (record : list (pystr * value)) (key : string) (dflt : pystr) : py pystr :=
  py_str (dict_get record (u key) (VStr dflt)).
Definition get_str_or (record : list (pystr * value)) (key : string) : py pystr :=
  let v := dict_get record (u key) (VStr []) in
  py_str (if value_truthy v then v else VStr []).
Definition get_int_or (record : list (pystr * value)) (key : string) : py Z :=
  let v := dict_get record (u key) (VInt 0) in
  value_int (if value_truthy v then v else VInt 0).

(** [x or y] on texts. *)
Definition text_or (x y : pystr) : pystr := match x with [] => y | _ => x end.

(** [isinstance(block, int)]: a [bool] is one. *)
Definition block_place (block : value) : py pystr :=
  match block with
  | VInt _ | VBool _ => t ← py_str block; Ok (u "block " ++ t)
  | _ => Ok (u "the token chain")
  end.

Definition explain (record : list (pystr * value)) : py pystr :=
  outcome ← get_str record "outcome" [];
  let outcome := py_lower outcome in
  reason_code ← get_str record "reason_code" [];
  let reason_code := text_or reason_code (u "UNKNOWN") in
  detail ← get_str_or record "reason_detail";
  let detail := py_strip detail in
  if bool_decide (outcome = u "allow") then Ok (text_or detail (u "allowed")) else
  match dict_get record (u "failing_caveat") VNone with
  | VMap caveat =>
      kind ← get_str_or caveat "kind";
      let kind := text_or kind (u "caveat") in
      where_ ← block_place (dict_get caveat (u "block_index") VNone);
      caveat_detail ← get_str_or caveat "detail";
      let caveat_detail := py_strip caveat_detail in
      let verb := if bool_decide (outcome = u "escalate") then u "held it for a human" else u "refused it" in
      let sentence := where_ ++ u "'s " ++ kind ++ u " caveat " ++ verb in
      Ok (match caveat_detail, detail with
          | _ :: _, _ => sentence ++ u ": " ++ caveat_detail
          | [], _ :: _ => sentence ++ u ": " ++ detail
          | [], [] => sentence
          end)
  | _ => Ok (text_or detail reason_code)
  end.

(** [uuid.UUID(str(raw))], a [ValueError] being no task. *)
Definition task_of (raw : value) : option uuid :=
  match raw with
  | VNone => None
  | _ => match py_str raw with Ok s => parse_uuid s | Raise _ => None end
  end.

Definition caveat_kind (caveat : list (pystr * value)) : py (option pystr) :=
  match dict_get caveat (u "kind") VNone with VNone => Ok None | v => s ← py_str v; Ok (Some s) end.
Definition caveat_block (caveat : list (pystr * value)) : option Z :=
  match dict_get caveat (u "block_index") VNone with
  | VInt n => Some n
  | VBool b => Some (if b then 1 else 0)
  | _ => None
  end.

Definition project_record (row : AuditRecordRow) : py DecisionEvent :=
  record ← record_obj row;
  let caveat_dict := match dict_get record (u "failing_caveat") VNone with VMap c => c | _ => [] end in
  let task_id := task_of (dict_get record (u "task_id") VNone) in
  outcome ← get_str record "outcome" (u "unknown");
  reason_code ← get_str record "reason_code" (u "UNKNOWN");
  agent_id ← get_str record "agent_id" [];
  principal_id ← get_str record "principal_id" [];
  scope ← get_str record "scope" [];
  tool_id ← get_str_or record "tool_id";
  depth ← get_int_or record "depth";
  latency_us ← get_int_or record "latency_us";
  explanation ← explain record;
  kind ← caveat_kind caveat_dict;
  drift ← match dict_get record (u "drift_score") VNone with
          | VNone => Ok None | v => s ← py_str v; Ok (Some s) end;
  Ok (mkDecisionEvent (seq row) (row_decision_id row) task_id (created_at row) outcome reason_code
        agent_id principal_id scope tool_id depth latency_us explanation kind
        (caveat_block caveat_dict) drift).

(** [record ->> key]; [None] is NULL. *)
Definition astext (key : string) (row : AuditRecordRow) : option pystr :=
  match record_field key (record row) with
  | None | Some VNone => None
  | Some (VBool b) => Some (if b then u "true" else u "false")
  | Some (VInt n) => Some (py_str_int n)
  | Some (VStr s) => Some s
  | Some v => Some (jsonb_text v)
  end.

(** One [WHERE record ->> key = wanted], if anything is wanted. *)
Definition holds_text (key : string) (wanted : option pystr) (row : AuditRecordRow) : bool :=
  match wanted with None => true | Some w => bool_decide (astext key row = Some w) end.

Definition row_selected (f : DecisionFilter) (row : AuditRecordRow) : bool :=
  holds_text "outcome" (df_outcome f) row && holds_text "agent_id" (df_agent_id f) row
  && holds_text "scope" (df_scope f) row.

(** The rows a query gives; a cursor or an offset too large for a BIGINT is refused. *)
Definition query_since (db : chain_db) (after_seq : Z) (f : DecisionFilter) (limit : Z)
    : py (list AuditRecordRow) :=
  raise_if (2 ^ 63 <=? after_seq) DataError;;
  Ok (take (Z.to_nat limit)
        (filter (λ row, (after_seq <? seq row) && row_selected f row = true) (rows_by_seq db))).

Definition read_since (db : chain_db) (after_seq : Z) (f : DecisionFilter) (limit : Z)
    : py (list DecisionEvent) :=
  if matches_nothing f then Ok [] else
  rows ← query_since db after_seq f limit; res_map project_record rows.

(** ** decisions_api.py *)
Definition HEARTBEAT_AFTER_POLLS : Z := 15.
Definition MAX_STREAM_US : Z := 900 * 1000000.

(** Where a client resumes. *)
Definition next_seq (events : list DecisionEvent) (after_seq : Z) : Z :=
  match last events with Some e => ev_seq e | None => after_seq end.

(** [GET /v1/decisions]: the session's dependency is resolved before the parameters. *)
Definition list_decisions (session_factory : option chain_db) (after_seq limit : Z)
    (f : DecisionFilter) : py (list DecisionEvent * Z) :=
  match session_factory with
  | None => Raise (HTTPException 503)
  | Some db =>
      raise_if ((after_seq <? 0) || (limit <? 1) || (500 <? limit)) (HTTPException 422);;
      events ← read_since db after_seq f limit;
      Ok (events, next_seq events after_seq)
  end.

(** What the stream sends. *)
Inductive frame :=
| FSnapshot (events : list DecisionEvent)
| FDecision (event : DecisionEvent)
| FRecycle (cursor : Z)
| FHeartbeat (cursor : Z).

Record stream_state := mkStream { cursor : Z; quiet : Z; deadline : Z }.

Definition stream_open (db : chain_db) (now after_seq : Z) (f : DecisionFilter)
    : py (frame * stream_state) :=
  initial ← read_since db after_seq f DEFAULT_LIMIT;
  Ok (FSnapshot initial, mkStream (next_seq initial after_seq) 0 (now + MAX_STREAM_US)).

(** Once round the loop: whether the client is gone, the time, and what the next session
    reads, if it can be opened. *)
Definition stream_wake (f : DecisionFilter) (s : stream_state) (disconnected : bool) (now : Z)
    (session : option chain_db) : list frame * option stream_state :=
  if disconnected then ([], None)
  else if deadline s <=? now then ([FRecycle (cursor s)], None)
  else match (match session with
              | Some db => read_since db (cursor s) f DEFAULT_LIMIT
              | None => Raise OperationalError
              end) with
       | Raise _ => ([], Some s)
       | Ok [] =>
           if HEARTBEAT_AFTER_POLLS <=? quiet s + 1
           then ([FHeartbeat (cursor s)], Some (mkStream (cursor s) 0 (deadline s)))
           else ([], Some (mkStream (cursor s) (quiet s + 1) (deadline s)))
       | Ok batch => (FDecision <$> batch, Some (mkStream (next_seq batch (cursor s)) 0 (deadline s)))
       end.

(** [stream_decisions], up to the generator. *)
Definition stream_decisions (session_factory : option chain_db) (now after_seq : Z) (f : DecisionFilter)
    : py (frame * stream_state) :=
  raise_if (after_seq <? 0) (HTTPException 422);;
  match session_factory with
  | None => Raise (HTTPException 503)
  | Some db => stream_open db now after_seq f
  end.

(** ** db/audit_search.py *)
Definition SEARCH_DEFAULT_LIMIT : Z := 25.
Definition MAX_LIMIT : Z := 200.

Record AuditSearchFilter := mkSearchFilter {
  sf_decision_id : option uuid; sf_task_id : option uuid; sf_agent_id : option pystr;
  sf_principal_id : option pystr; sf_scope : option pystr; sf_outcome : option pystr }.

Record AuditSearchResult := mkSearchResult { sr_events : list DecisionEvent; sr_total : Z }.

Definition search_selected (f : AuditSearchFilter) (row : AuditRecordRow) : bool :=
  match sf_decision_id f with None => true | Some i => bool_decide (row_decision_id row = i) end
  && holds_text "task_id" (uuid_text <$> sf_task_id f) row
  && holds_text "agent_id" (sf_agent_id f) row && holds_text "principal_id" (sf_principal_id f) row
  && holds_text "scope" (sf_scope f) row && holds_text "outcome" (sf_outcome f) row.

Definition search_matches (db : chain_db) (f : AuditSearchFilter) : list AuditRecordRow :=
  filter (λ row, search_selected f row = true) (rows_by_seq db).

Definition search (db : chain_db) (f : AuditSearchFilter) (limit offset : Z) : py AuditSearchResult :=
  let total := Z.of_nat (length (search_matches db f)) in
  let bounded_limit := Z.min limit MAX_LIMIT in
  raise_if (2 ^ 63 <=? offset) DataError;;
  events ← res_map project_record
             (take (Z.to_nat bounded_limit) (drop (Z.to_nat offset) (reverse (search_matches db f))));
  Ok (mkSearchResult events total).

(** ** audit_api.py *)
Definition search_records (session_factory : option chain_db) (f : AuditSearchFilter) (limit offset : Z)
    : py AuditSearchResult :=
  match session_factory with
  | None => Raise (HTTPException 503)
  | Some db =>
      raise_if ((limit <? 1) || (200 <? limit) || (offset <? 0)) (HTTPException 422);;
      search db f limit offset
  end.

(** An entry of the answer; what is [record.get(key)] may be anything. *)
Record narrative_entry := mkNarrative {
  ne_seq : Z; ne_decision_id : value; ne_timestamp : value; ne_principal_id : value;
  ne_agent_id : pystr; ne_depth : Z; ne_scope : pystr; ne_tool_id : value; ne_outcome : pystr;
  ne_reason_code : pystr; ne_elevated_by : value; ne_explanation : pystr }.

(** What [CustodyEntry] projects: agent, depth, scope, outcome and reason code. *)
Definition custody_fields (record : list (pystr * value)) : py (pystr * Z * pystr * pystr * pystr) :=
  agent_id ← get_str record "agent_id" [];
  depth ← value_int (dict_get record (u "depth") (VInt 0));
  scope ← get_str record "scope" [];
  outcome ← get_str record "outcome" [];
  reason_code ← get_str record "reason_code" [];
  Ok (agent_id, depth, scope, outcome, reason_code).

Definition narrative_of (seq : Z) (record : list (pystr * value))
    (fields : pystr * Z * pystr * pystr * pystr) : py narrative_entry :=
  let '(agent_id, depth, scope, outcome, reason_code) := fields in
  let get key := dict_get record (u key) VNone in
  explanation ← explain record;
  Ok (mkNarrative seq (get "decision_id"%string) (get "timestamp"%string) (get "principal_id"%string)
        agent_id depth scope (get "tool_id"%string) outcome reason_code (get "elevated_by"%string) explanation).

Definition is_none (v : value) : bool := match v with VNone => true | _ => false end.

(** [sorted({str(e["principal_id"]) for e in narrative if ... is not None})]. *)
Definition principals_of (narrative : list narrative_entry) : py (list pystr) :=
  names ← res_map py_str (filter (λ v, negb (is_none v) = true) (ne_principal_id <$> narrative));
  Ok (py_sorted (elements (list_to_set names : gset pystr))).

Record custody_answer := mkCustodyAnswer {
  ca_task_id : uuid; ca_principals : list pystr; ca_entries : list narrative_entry }.

Definition custody_record (e : CustodyEntry) : py (list (pystr * value)) :=
  match ce_record e with VMap kvs => Ok kvs | _ => Raise AttributeError end.

Definition get_custody (session_factory : option chain_db) (task_id : uuid) : py custody_answer :=
  match session_factory with
  | None => Raise (HTTPException 503)
  | Some db =>
      entries ← res_map (λ e, r ← custody_record e; f ← custody_fields r; Ok (ce_seq e, r, f))
                  (custody db task_id);
      raise_if (match entries with [] => true | _ => false end) (HTTPException 404);;
      narrative ← res_map (λ e : Z * list (pystr * value) * _, narrative_of e.1.1 e.1.2 e.2) entries;
      principals ← principals_of narrative;
      Ok (mkCustodyAnswer task_id principals narrative)
  end.

(** ** db/decision_metrics.py *)
Record OutcomeCount := mkOutcomeCount { oc_outcome : pystr; oc_reason_code : pystr; oc_count : Z }.

Definition group_key (row : AuditRecordRow) : option pystr * option pystr :=
  (astext "outcome" row, astext "reason_code" row).

(** [row.outcome or "unknown"]. *)
Definition label_or (x : option pystr) (dflt : pystr) : pystr := text_or (default [] x) dflt.

(** Groups in the order of their first row; SQL promises none. *)
Definition count_by_outcome_reason (db : chain_db) : list OutcomeCount :=
  let keys := group_key <$> rows_by_seq db in
  (λ k, mkOutcomeCount (label_or k.1 (u "unknown")) (label_or k.2 (u "UNKNOWN"))
          (Z.of_nat (length (filter (λ k', k' = k) keys))))
  <$> remove_dups keys.
End reports.

Section verifying.
Context {UN : Unicode} {ST : SortTies}.

(** [POST /v1/audit/verify]. *)
Definition verify_route (session_factory : option chain_reads) : py ChainVerification :=
  match session_factory with None => Raise (HTTPException 503) | Some reads => verify_chain reads end.
End verifying.
