(* ===== verification/ReportsSpec.v ===== *)
(** * What reading the audit chain promises

    A stream shows every matching decision once and in order however it is cut, the pages
    of a search partition its matches, a custody answer names everybody behind a task, an
    explanation is never empty, and every record is counted once. *)
From Stdlib Require Import Sorted.
From S2P Require Import Prelude PyText Errors PyNum PyFloat PyTime PyUuid PySha PyRe Models Hashing HashingSpec AuditChain AuditSpec Extractor ExtractorSpec CedarPolicy PolicySpec Reports.

Section reports_spec.
Context {CA : Casing} {RP : PyRepr} {JT : JsonbText}.

(** ** Explanations *)
Lemma text_or_nonempty x y : y ≠ [] → text_or x y ≠ [].
Proof. by destruct x. Qed.

(** The sentence a refusal by a caveat gets. *)
Definition caveat_sentence (escalated : bool) (where_ kind detail : pystr) : pystr :=
  where_ ++ u "'s " ++ kind ++ u " caveat " ++ (if escalated then u "held it for a human" else u "refused it")
  ++ match detail with [] => [] | _ => u ": " ++ detail end.

(** Every explanation says something.  A refusal that points at a caveat names its kind and
    block and ends in the caveat's own detail, or else the decision's. *)
Theorem explanation_names_the_caveat record t :
  explain record = Ok t →
  t ≠ [] ∧
  ∀ outcome caveat block kind own detail,
    get_str record "outcome" [] = Ok outcome → py_lower outcome ≠ u "allow" →
    dict_get record (u "failing_caveat") VNone = VMap caveat →
    dict_get caveat (u "block_index") VNone = VInt block →
    get_str_or caveat "kind" = Ok kind → get_str_or caveat "detail" = Ok own →
    get_str_or record "reason_detail" = Ok detail →
    t = caveat_sentence (bool_decide (py_lower outcome = u "escalate")) (u "block " ++ py_str_int block)
          (text_or kind (u "caveat")) (text_or (py_strip own) (py_strip detail)).
Proof.
  unfold explain. intros (o & Ho & H)%bind_Ok_inv. apply bind_Ok_inv in H as (r & Hr & H).
  apply bind_Ok_inv in H as (d & Hd & H). cbv zeta in H.
  case_bool_decide as Hal.
  { injection H as <-. split; [by apply text_or_nonempty|]. intros o' ? ? ? ? ? Ho'. rewrite Ho in Ho'.
    injection Ho' as <-. done. }
  destruct (dict_get record (u "failing_caveat") VNone) as [| | | | | | | | | |c| | |] eqn:Hc;
    try (injection H as <-; split; [apply text_or_nonempty, text_or_nonempty; done|intros; done]).
  apply bind_Ok_inv in H as (k & Hk & H). apply bind_Ok_inv in H as (w & Hw & H).
  apply bind_Ok_inv in H as (cd & Hcd & H). apply Ok_inj in H. subst t.
  set (own := py_strip cd) in *. set (dd := py_strip d) in *. split.
  { destruct own, dd; by destruct w. }
  intros o' c' b k' own' d' Ho' _ [= <-] Hb Hk' Hown' Hd'. simplify_eq.
  rewrite Hk in Hk'. rewrite Ho in Ho'. rewrite Hd in Hd'. rewrite Hcd in Hown'. simplify_eq.
  assert (w = u "block " ++ py_str_int b) as ->.
  { rewrite Hb in Hw. cbn [block_place py_str] in Hw. apply bind_Ok_inv in Hw as (t & Ht & Hw).
    injection Hw as <-. unfold str_int, raise_if in Ht. destruct (4300 <? _); [done|]. by injection Ht as <-. }
  unfold caveat_sentence. fold own dd. generalize (u "'s "), (u " caveat "), (u ": "), (u "held it for a human"), (u "refused it").
  intros s1 s2 s3 s4 s5. destruct own, dd; simpl text_or; by rewrite <- ?(assoc_L app), ?(right_id_L [] app).
Qed.

(** ** Rows and events *)
Lemma res_map_total {A B} (g : A → py B) l : Forall (λ x, is_ok (g x) = true) l → ∃ k, res_map g l = Ok k.
Proof.
  induction 1 as [|x l Hx _ [k IH]]; [by exists []|]. simpl. destruct (g x) as [y|]; [|done]. rewrite IH. by exists (y :: k).
Qed.

Lemma take_of_length {A} k (l : list A) : take (length (take k l)) l = take k l.
Proof. rewrite <- (take_drop k l) at 2. by rewrite take_app_length. Qed.

Definition shows (row : AuditRecordRow) (e : DecisionEvent) : Prop := project_record row = Ok e.

Lemma shows_seq row e : shows row e → ev_seq e = seq row ∧ ev_decision_id e = row_decision_id row.
Proof.
  unfold shows, project_record. intros H.
  repeat (apply bind_Ok_inv in H as (? & _ & H)). by injection H as <-.
Qed.

(** The rows a reader that has reached [after_seq] is still owed. *)
Definition due (db : chain_db) (after_seq : Z) (f : DecisionFilter) : list AuditRecordRow :=
  filter (λ row, (after_seq <? seq row) && row_selected f row = true) (rows_by_seq db).

Lemma read_since_spec db a f limit events :
  matches_nothing f = false →
  read_since db a f limit = Ok events → Forall2 shows (take (Z.to_nat limit) (due db a f)) events.
Proof.
  intros Hf. unfold read_since, query_since. rewrite Hf. intros (rows & Hr & H)%bind_Ok_inv.
  unfold raise_if in Hr. destruct (2 ^ 63 <=? a); [done|]. injection Hr as <-.
  by apply res_map_Forall2 in H.
Qed.

Definition reached (rows : list AuditRecordRow) (after_seq : Z) : Z :=
  match last rows with Some r => seq r | None => after_seq end.

Lemma next_seq_rows rows events a : Forall2 shows rows events → next_seq events a = reached rows a.
Proof.
  intros H. unfold next_seq, reached. induction H as [|r e rows events Hr Hs IH]; [done|].
  destruct Hs; [by destruct (shows_seq _ _ Hr)|exact IH].
Qed.

Lemma ascending_app l k : ascending (l ++ k) → ∀ a b, a ∈ l → b ∈ k → seq a < seq b.
Proof.
  induction l as [|x l IH]; intros H a b Ha Hb; [by apply elem_of_nil in Ha|].
  inversion H as [|? ? Hs Hx]; subst. apply elem_of_cons in Ha as [->|Ha]; [|by eapply IH].
  rewrite Forall_forall in Hx. apply Hx, elem_of_app. by right.
Qed.

Lemma ascending_app_l l k : ascending (l ++ k) → ascending l.
Proof.
  induction l as [|x l IH]; intros H; [constructor|]. inversion H as [|? ? Hs Hx]; subst.
  constructor; [by apply IH|]. by apply Forall_app in Hx as [? _].
Qed.

Lemma reached_after a l k :
  ascending l → (∀ r, r ∈ l → a < seq r) → filter (λ r, reached (take k l) a < seq r) l = drop k l.
Proof.
  intros Hl Ha. set (c := reached (take k l) a). rewrite <- (take_drop k l) at 1. rewrite filter_app.
  rewrite <- (take_drop k l) in Hl. pose proof (ascending_app _ _ Hl) as Hlt.
  rewrite filter_none, filter_all; [done| |]; apply Forall_forall; intros r Hr; unfold c, reached.
  - destruct (last (take k l)) as [e|] eqn:E; [by apply Hlt; [apply last_Some_elem_of|]|].
    apply Ha. rewrite <- (take_drop k l). apply elem_of_app. by right.
  - apply list_elem_of_lookup in Hr as [i Hi]. destruct (last (take k l)) as [e|] eqn:E.
    + rewrite last_lookup in E. destruct (decide (i = pred (length (take k l)))) as [->|Hne];
        [rewrite Hi in E; injection E as ->; lia|].
      apply lookup_lt_Some in Hi as Hlen.
      pose proof (ascending_lt (take k l) (ascending_app_l _ _ Hl) i _ _ _ Hi E ltac:(lia)). lia.
    + apply last_None in E. by rewrite E in Hi.
Qed.

Lemma reached_from db a f k : a <= reached (take k (due db a f)) a.
Proof.
  unfold reached. destruct (last _) as [r|] eqn:E; [|lia]. apply last_Some_elem_of in E.
  assert (r ∈ due db a f) as Hr by (rewrite <- (take_drop k (due db a f)); apply elem_of_app; by left).
  apply list_elem_of_filter in Hr as [[? _]%andb_prop _]. lia.
Qed.

Lemma due_after db a f k :
  ascending (rows_by_seq db) →
  due db (reached (take k (due db a f)) a) f = drop k (due db a f).
Proof.
  intros Hl. pose proof (reached_from db a f k) as Hc. rewrite <- (reached_after a (due db a f) k);
    [|by apply ascending_filter|intros r [[? _]%andb_prop _]%list_elem_of_filter; lia].
  set (c := reached _ _) in *. unfold due. rewrite list_filter_filter. apply list_filter_iff.
  intros r. rewrite !andb_true_iff, !Z.ltb_lt. intuition lia.
Qed.

(** ** The stream *)
Section stream.
Context {UN : Unicode} {ST : SortTies} {R : Type} {AR : AuditRecord R}.

(** Batches are appended while a client is connected; each wake-up finds the client gone or
    not, the clock somewhere, and the database reachable or not. *)
Inductive feed_event :=
| Appended (records : list R) (stamped : Z)
| Woken (disconnected : bool) (now : Z) (reachable : bool).

Record feed := mkFeed {
  fd_db : chain_db; fd_stream : option stream_state; fd_seen : list DecisionEvent }.

Definition shown (fr : frame) : list DecisionEvent :=
  match fr with FSnapshot events => events | FDecision e => [e] | _ => [] end.

Definition feed_step (f : DecisionFilter) (d : feed) (ev : feed_event) : feed :=
  match ev with
  | Appended records stamped => mkFeed (append (fd_db d) records stamped).2 (fd_stream d) (fd_seen d)
  | Woken disconnected now reachable =>
      match fd_stream d with
      | None => d
      | Some s =>
          let '(frames, s') := stream_wake f s disconnected now
                                 (if reachable then Some (fd_db d) else None) in
          mkFeed (fd_db d) s' (fd_seen d ++ (frames ≫= shown))
      end
  end.
Definition run_feed (f : DecisionFilter) : feed → list feed_event → feed := foldl (feed_step f).

Record feed_ok (f : DecisionFilter) (a : Z) (d : feed) : Prop := {
  fo_chain : chain_ok (fd_db d);
  fo_seen : ∃ m, (m <= length (due (fd_db d) a f))%nat ∧ Forall2 shows (take m (due (fd_db d) a f)) (fd_seen d);
  fo_cursor : ∀ s, fd_stream d = Some s → cursor s = next_seq (fd_seen d) a }.

Lemma chain_ascending db : chain_ok db → ascending (rows_by_seq db).
Proof. intros (_ & Hi & _). by eapply intact_ascending. Qed.

(** What is left is what follows the last event seen. *)
Lemma resumes db a f m seen :
  chain_ok db → Forall2 shows (take m (due db a f)) seen →
  due db (next_seq seen a) f = drop m (due db a f).
Proof. intros Hc Hs. rewrite (next_seq_rows _ _ _ Hs). apply due_after. by apply chain_ascending. Qed.

Lemma shown_decisions events : (FDecision <$> events) ≫= shown = events.
Proof. induction events as [|e events IH]; [done|]. simpl. by f_equal. Qed.

Lemma next_seq_app seen batch a : next_seq (seen ++ batch) a = next_seq batch (next_seq seen a).
Proof. unfold next_seq. rewrite last_app. by destruct (last batch). Qed.

(** One wake-up hands on the next rows, or none. *)
Lemma wake_spec f s gone now session frames s' :
  matches_nothing f = false → stream_wake f s gone now session = (frames, s') →
  (frames ≫= shown = [] ∧ ∀ t, s' = Some t → cursor t = cursor s)
  ∨ ∃ db batch, session = Some db ∧ frames ≫= shown = batch
      ∧ Forall2 shows (take (Z.to_nat DEFAULT_LIMIT) (due db (cursor s) f)) batch
      ∧ ∃ t, s' = Some t ∧ cursor t = next_seq batch (cursor s).
Proof.
  intros Hf. unfold stream_wake. destruct gone; [intros [= <- <-]; by left|].
  destruct (deadline s <=? now); [intros [= <- <-]; by left|].
  destruct session as [db|]; [|intros [= <- <-]; left; split; [done|by intros t [= <-]]].
  destruct (read_since db (cursor s) f DEFAULT_LIMIT) as [[|e batch]|] eqn:Hr.
  - destruct (_ <=? _); intros [= <- <-]; left; (split; [done|by intros t [= <-]]).
  - intros [= <- <-]. right. exists db, (e :: batch). split; [done|]. split; [exact (shown_decisions (e :: batch))|].
    split; [by apply read_since_spec|]. eexists. done.
  - intros [= <- <-]. left. split; [done|by intros t [= <-]].
Qed.

Lemma feed_step_ok f a d ev : matches_nothing f = false → feed_ok f a d → feed_ok f a (feed_step f d ev).
Proof.
  intros Hf [Hc (m & Hm & Hs) Hcur]. destruct ev as [records stamped|gone now reachable]; cbn [feed_step].
  - destruct (append (fd_db d) records stamped) as [o db'] eqn:Ha. cbn [snd].
    destruct (append_spec _ _ _ _ _ Hc Ha) as [Hc' Ho]. split; [done| |done]. cbn [fd_db fd_seen].
    exists m. assert (∃ new, due db' a f = due (fd_db d) a f ++ new) as [new ->].
    { destruct o as [hashes|e]; [|subst db'; exists []; by rewrite (right_id_L [] app)].
      destruct Ho as (new & E & _). unfold due. rewrite E, filter_app. eauto. }
    rewrite length_app, take_app_le by done. split; [lia|done].
  - destruct (fd_stream d) as [s|] eqn:Es; [|by split; [done|exists m|rewrite Es]].
    destruct (stream_wake _ _ _ _ _) as [frames s'] eqn:Hw. specialize (Hcur _ eq_refl).
    destruct (wake_spec _ _ _ _ _ _ _ Hf Hw) as [[E Hk]|(db & batch & Hdb & E & Hb & t & -> & Ht)];
      (split; cbn [fd_db fd_seen fd_stream]; [done| |]); rewrite E.
    + exists m. by rewrite (right_id_L [] app).
    + intros t Ht. rewrite (right_id_L [] app), (Hk t Ht). exact Hcur.
    + assert (db = fd_db d) as -> by (destruct reachable; [by injection Hdb|done]).
      rewrite Hcur, (resumes _ _ _ _ _ Hc Hs) in Hb.
      exists (m + length batch)%nat. rewrite <- take_take_drop, <- (Forall2_length _ _ _ Hb), take_of_length.
      split; [|by apply Forall2_app]. rewrite length_take, length_drop. lia.
    + intros ? [= <-]. by rewrite next_seq_app, <- Hcur, Ht.
Qed.

Lemma run_feed_ok f a d evs : matches_nothing f = false → feed_ok f a d → feed_ok f a (run_feed f d evs).
Proof.
  intros Hf. revert d. induction evs as [|ev evs IH]; intros d Hd; [done|]. by apply IH, feed_step_ok.
Qed.

Lemma opened_ok f a db now snapshot s :
  matches_nothing f = false → chain_ok db → stream_open db now a f = Ok (snapshot, s) →
  feed_ok f a (mkFeed db (Some s) (shown snapshot)).
Proof.
  intros Hf Hc (events & Hr & [= <- <-])%bind_Ok_inv. apply read_since_spec in Hr; [|done].
  split; [done| |by intros ? [= <-]]. exists (length events). cbn [fd_db fd_seen shown].
  rewrite <- (Forall2_length _ _ _ Hr), take_of_length. split; [rewrite length_take; lia|done].
Qed.

(** A wake-up that reaches the database before the deadline catches up by a page, if the
    rows it is owed can be shown. *)
Lemma wake_progress f a d now :
  matches_nothing f = false → feed_ok f a d →
  ∀ s, fd_stream d = Some s → now < deadline s → cursor s < 2 ^ 63 →
  Forall (λ row, is_ok (project_record row) = true) (due (fd_db d) a f) →
  length (fd_seen (feed_step f d (Woken false now true)))
  = Nat.min (length (fd_seen d) + Z.to_nat DEFAULT_LIMIT) (length (due (fd_db d) a f)).
Proof.
  intros Hf [Hc (m & Hm & Hs) Hcur] s Es Hd Hb Hp. cbn [feed_step]. rewrite Es. specialize (Hcur _ Es).
  assert (length (fd_seen d) = m) as Hlen by (rewrite <- (Forall2_length _ _ _ Hs), length_take; lia).
  assert (∃ batch, read_since (fd_db d) (cursor s) f DEFAULT_LIMIT = Ok batch
            ∧ length batch = Nat.min (Z.to_nat DEFAULT_LIMIT) (length (due (fd_db d) a f) - m)) as (batch & Hr & Hl).
  { unfold read_since, query_since. rewrite Hf. unfold raise_if. rewrite (proj2 (Z.leb_gt _ _) Hb).
    cbn [mbind res_bind]. fold (due (fd_db d) (cursor s) f). rewrite Hcur, (resumes _ _ _ _ _ Hc Hs).
    destruct (res_map_total project_record (take (Z.to_nat DEFAULT_LIMIT) (drop m (due (fd_db d) a f))))
      as [batch Hr]; [by apply Forall_take, Forall_drop|].
    exists batch. split; [done|]. apply res_map_Forall2, Forall2_length in Hr.
    rewrite <- Hr, length_take, length_drop. done. }
  unfold stream_wake. rewrite (proj2 (Z.leb_gt _ _) Hd), Hr. destruct batch as [|e batch].
  - assert (∀ frames t, (frames ≫= shown) = [] →
      length (fd_seen (let '(fr, s') := (frames, t) in mkFeed (fd_db d) s' (fd_seen d ++ (fr ≫= shown))))
      = length (fd_seen d)) as Hn by (intros frames t E; cbn [fd_seen]; by rewrite E, (right_id_L [] app)).
    cbn [length] in Hl. destruct (HEARTBEAT_AFTER_POLLS <=? quiet s + 1); rewrite Hn by done; lia.
  - cbn [fd_seen]. rewrite (shown_decisions (e :: batch)), length_app. lia.
Qed.

(** C34: A stream shows every decision that matches its filter, past where it started, once
    and in the order of the chain, whatever batches are appended meanwhile, polls fail and
    the client or the clock ends it: what was seen is a prefix of what is there, the next
    reader that starts from the last event seen is owed exactly the rest, and each poll
    that gets through catches up by a page or completely. *)
Theorem stream_follows_chain f a db now snapshot s evs :
  chain_ok db → matches_nothing f = false → stream_open db now a f = Ok (snapshot, s) →
  let d := run_feed f (mkFeed db (Some s) (shown snapshot)) evs in
  let there := due (fd_db d) a f in
  let n := length (fd_seen d) in
  (n <= length there)%nat ∧ Forall2 shows (take n there) (fd_seen d)
  ∧ due (fd_db d) (next_seq (fd_seen d) a) f = drop n there
  ∧ (∀ t now', fd_stream d = Some t → now' < deadline t → cursor t < 2 ^ 63 →
       Forall (λ row, is_ok (project_record row) = true) there →
       length (fd_seen (feed_step f d (Woken false now' true)))
       = Nat.min (n + Z.to_nat DEFAULT_LIMIT) (length there)).
Proof.
  intros Hc Hf Ho. pose proof (run_feed_ok f a _ evs Hf (opened_ok _ _ _ _ _ _ Hf Hc Ho)) as Hok.
  set (d := run_feed _ _ _) in *. cbv zeta. pose proof Hok as [Hc' (m & Hm & Hs) _].
  assert (length (fd_seen d) = m) as -> by (rewrite <- (Forall2_length _ _ _ Hs), length_take; lia).
  split_and!; [done|done|by apply resumes|]. intros t now' Ht Hd Hb Hp.
  rewrite (wake_progress f a d now' Hf Hok t Ht Hd Hb Hp). do 2 f_equal.
  by rewrite <- (Forall2_length _ _ _ Hs), length_take, Nat.min_l.
Qed.
End stream.

(** A page is the next rows, and the cursor it gives leaves the others. *)
Theorem page_resumes {UN : Unicode} {ST : SortTies} db a limit f events n :
  chain_ok db → matches_nothing f = false → list_decisions (Some db) a limit f = Ok (events, n) →
  Forall2 shows (take (Z.to_nat limit) (due db a f)) events
  ∧ due db n f = drop (Z.to_nat limit) (due db a f).
Proof.
  intros Hc Hf. unfold list_decisions. intros ([] & _ & H)%bind_Ok_inv.
  apply bind_Ok_inv in H as (es & Hr & [= <- <-]). apply read_since_spec in Hr; [|done].
  split; [done|]. rewrite (next_seq_rows _ _ _ Hr). apply due_after. by apply chain_ascending.
Qed.

(** ** Search *)
Lemma slices_take {A} (k n : nat) (l : list A) :
  List.seq 0 n ≫= (λ i, take k (drop (i * k) l)) = take (n * k) l.
Proof.
  induction n as [|n IH]; [done|]. rewrite seq_S, bind_app, IH. simpl.
  rewrite (right_id_L [] app). replace (k + n * k)%nat with (n * k + k)%nat by lia.
  by rewrite <- take_take_drop.
Qed.

Lemma Forall2_bind_pages {A B C} (g : A → list B) (h : C → list DecisionEvent) (Q : B → DecisionEvent → Prop) l k :
  Forall2 (λ a c, Forall2 Q (g a) (h c)) l k → Forall2 Q (l ≫= g) (k ≫= h).
Proof. induction 1; [constructor|]. by apply Forall2_app. Qed.

Lemma Forall2_choose {A B} (Q : A → B → Prop) l : (∀ a, a ∈ l → ∃ b, Q a b) → ∃ k, Forall2 Q l k.
Proof.
  induction l as [|a l IH]; intros H; [by exists []|]. destruct (H a) as [b Hb]; [by left|].
  destruct IH as [k Hk]; [intros; apply H; by right|]. exists (b :: k). by constructor.
Qed.

(** The pages of a search, from the first on, are the matches of the filter, newest first,
    each on one page; every page says how many there are. *)
Theorem search_pages_partition db f limit n :
  1 <= limit <= 200 → Z.of_nat n * limit < 2 ^ 63 →
  Forall (λ row, is_ok (project_record row) = true) (search_matches db f) →
  ∃ pages,
    Forall2 (λ i r, search_records (Some db) f limit (Z.of_nat i * limit) = Ok r
                    ∧ sr_total r = Z.of_nat (length (search_matches db f))) (List.seq 0 n) pages
    ∧ Forall2 shows (take (n * Z.to_nat limit) (reverse (search_matches db f))) (pages ≫= sr_events).
Proof.
  intros Hl Hn Hp. set (k := Z.to_nat limit). set (all := reverse (search_matches db f)).
  assert (∀ i, (i < n)%nat → ∃ r, search_records (Some db) f limit (Z.of_nat i * limit) = Ok r
            ∧ sr_total r = Z.of_nat (length (search_matches db f))
            ∧ Forall2 shows (take k (drop (i * k) all)) (sr_events r)) as Hpage.
  { intros i Hi. unfold search_records, search. rewrite (proj2 (Z.ltb_ge _ _)), (proj2 (Z.ltb_ge _ _)), (proj2 (Z.ltb_ge _ _)) by lia.
    cbn [orb raise_if mbind res_bind]. rewrite Z.min_l, (proj2 (Z.leb_gt _ _)) by (unfold MAX_LIMIT; nia).
    cbn [raise_if mbind res_bind]. replace (Z.to_nat (Z.of_nat i * limit)) with (i * k)%nat by (unfold k; lia).
    fold all k. destruct (res_map_total project_record (take k (drop (i * k) all))) as [events He].
    { apply Forall_take, Forall_drop. unfold all. by rewrite reverse_Permutation. }
    rewrite He. cbn [mbind res_bind]. eexists. split; [done|]. split; [done|]. by apply res_map_Forall2. }
  assert (∃ pages, Forall2 (λ i r, search_records (Some db) f limit (Z.of_nat i * limit) = Ok r
            ∧ sr_total r = Z.of_nat (length (search_matches db f))
            ∧ Forall2 shows (take k (drop (i * k) all)) (sr_events r)) (List.seq 0 n) pages) as [pages H].
  { apply Forall2_choose. intros i [? Hi]%elem_of_seq. apply Hpage. lia. }
  exists pages. split; [eapply Forall2_impl; [exact H|]; simpl; tauto|].
  rewrite <- slices_take. apply Forall2_bind_pages.
  eapply Forall2_impl; [exact H|]. simpl. tauto.
Qed.

(** ** Counts *)
Definition occurrences {A} `{EqDecision A} (k : A) (l : list A) : Z := Z.of_nat (length (filter (λ k', k' = k) l)).

Lemma occurrences_cons {A} `{EqDecision A} (k x : A) l :
  occurrences k (x :: l) = (if decide (x = k) then 1 else 0) + occurrences k l.
Proof. unfold occurrences. rewrite filter_cons. destruct (decide (x = k)); simpl; lia. Qed.

Lemma lsum_cons a l : lsum (a :: l) = a + lsum l.
Proof. done. Qed.

Lemma lsum_occurrences {A} `{EqDecision A} (ks l : list A) :
  NoDup ks → (∀ x, x ∈ l → x ∈ ks) → lsum ((λ k, occurrences k l) <$> ks) = Z.of_nat (length l).
Proof.
  intros Hk. induction l as [|x l IH]; intros Hin.
  - clear. induction ks as [|k ks IH]; [done|]. rewrite fmap_cons, lsum_cons. by rewrite IH.
  - assert (∀ js, NoDup js → lsum ((λ k, occurrences k (x :: l)) <$> js)
        = (if decide (x ∈ js) then 1 else 0) + lsum ((λ k, occurrences k l) <$> js)) as E.
    { induction 1 as [|j js Hj _ IHj]; [done|]. rewrite !fmap_cons, !lsum_cons, IHj, occurrences_cons. destruct (decide (x = j)) as [->|Hne].
      - rewrite (decide_True (P := j ∈ j :: js)), (decide_False (P := j ∈ js)) by (done || by left). lia.
      - destruct (decide (x ∈ js)); [rewrite decide_True by (by right)|rewrite decide_False by (intros [?|?]%elem_of_cons; congruence || done)]; lia. }
    rewrite E, decide_True by (done || (apply Hin; by left)). rewrite IH by (intros; apply Hin; by right). simpl. lia.
Qed.

(** Every record is in exactly one count. *)
Theorem counts_cover db :
  lsum (oc_count <$> count_by_outcome_reason db) = Z.of_nat (length (rows_by_seq db)).
Proof.
  unfold count_by_outcome_reason. rewrite <- list_fmap_compose. unfold compose. cbn [oc_count].
  rewrite <- (length_fmap group_key). apply lsum_occurrences; [apply NoDup_remove_dups|].
  intros x. by rewrite elem_of_remove_dups.
Qed.

(** ** Custody *)
Definition principal_field (row : AuditRecordRow) : value :=
  match record row with VMap kvs => dict_get kvs (u "principal_id") VNone | _ => VNone end.

(** An entry is its row's. *)
Definition entry_of (row : AuditRecordRow) (e : narrative_entry) : Prop :=
  ne_seq e = seq row ∧ ne_principal_id e = principal_field row
  ∧ ∃ kvs, record row = VMap kvs ∧ explain kvs = Ok (ne_explanation e).

Lemma narrative_entries (rows : list AuditRecordRow) entries narrative :
  res_map (λ e, r ← custody_record e; f ← custody_fields r; Ok (ce_seq e, r, f))
    ((λ row, mkCustodyEntry (seq row) (record row)) <$> rows) = Ok entries →
  res_map (λ e : Z * list (pystr * value) * _, narrative_of e.1.1 e.1.2 e.2) entries = Ok narrative →
  Forall2 entry_of rows narrative.
Proof.
  revert entries narrative. induction rows as [|row rows IH]; intros entries narrative; simpl.
  { intros [= <-] [= <-]. constructor. }
  intros (e & He & H)%bind_Ok_inv. apply bind_Ok_inv in H as (es & Hes & [= <-]). simpl.
  intros (n & Hn & H)%bind_Ok_inv. apply bind_Ok_inv in H as (ns & Hns & [= <-]).
  constructor; [|by eapply IH]. apply bind_Ok_inv in He as (kvs & Hk & He).
  apply bind_Ok_inv in He as (fs & _ & [= <-]). unfold custody_record in Hk. simpl in Hk, Hn.
  unfold entry_of, principal_field. destruct (record row); try done. injection Hk as ->.
  destruct fs as [[[[ag dp] sc] oc] rc]. unfold narrative_of in Hn. simpl in Hn.
  apply bind_Ok_inv in Hn as (t & Ht & [= <-]). split_and!; [done|done|]. by exists kvs.
Qed.

(** A custody answer has an entry for every record of the task, oldest first, each
    explained, and its principals are exactly the names the records give, each once and
    sorted; a task without records is a 404. *)
Theorem custody_names_everyone db task_id :
  let rows := filter (λ row, of_task task_id row = true) (rows_by_seq db) in
  (rows = [] → get_custody (Some db) task_id = Raise (HTTPException 404))
  ∧ ∀ ans, get_custody (Some db) task_id = Ok ans →
      rows ≠ [] ∧ Forall2 entry_of rows (ca_entries ans)
      ∧ Sorted pystr_le (ca_principals ans) ∧ NoDup (ca_principals ans)
      ∧ ∀ p, p ∈ ca_principals ans ↔
          ∃ row, row ∈ rows ∧ is_none (principal_field row) = false ∧ py_str (principal_field row) = Ok p.
Proof.
  intros rows. unfold get_custody, custody. fold rows. split; [by intros ->|].
  intros ans (entries & He & H)%bind_Ok_inv. apply bind_Ok_inv in H as ([] & Hne & H).
  apply bind_Ok_inv in H as (narrative & Hn & H). apply bind_Ok_inv in H as (principals & Hp & [= <-]).
  pose proof (narrative_entries _ _ _ He Hn) as HF. cbn [ca_entries ca_principals].
  split; [intros E; rewrite E in He; by injection He as <-|]. split; [done|].
  unfold principals_of in Hp. apply bind_Ok_inv in Hp as (names & Hnames & [= <-]).
  unfold py_sorted. split; [apply (Sorted_merge_sort pystr_le)|].
  split; [rewrite merge_sort_Permutation; apply NoDup_elements|].
  intros p. rewrite merge_sort_Permutation, elem_of_elements, elem_of_list_to_set.
  apply res_map_Forall2 in Hnames. split.
  - intros Hin. apply list_elem_of_lookup in Hin as [i Hi].
    destruct (Forall2_lookup_r _ _ _ _ _ Hnames Hi) as (v & Hv & Hs).
    apply list_elem_of_lookup_2, list_elem_of_filter in Hv as [Hv (e & -> & Hin)%list_elem_of_fmap].
    apply list_elem_of_lookup in Hin as [j Hj]. destruct (Forall2_lookup_r _ _ _ _ _ HF Hj) as (row & Hr & _ & E & _).
    exists row. rewrite <- E. split; [by eapply list_elem_of_lookup_2|]. split; [by apply negb_true_iff|done].
  - intros (row & Hr & Hv & Hs). apply list_elem_of_lookup in Hr as [i Hi].
    destruct (Forall2_lookup_l _ _ _ _ _ HF Hi) as (e & Hj & _ & E & _).
    assert (ne_principal_id e ∈ filter (λ v, negb (is_none v) = true) (ne_principal_id <$> narrative)) as Hin.
    { apply list_elem_of_filter. split; [rewrite E; by apply negb_true_iff|].
      apply list_elem_of_fmap_2. by eapply list_elem_of_lookup_2. }
    apply list_elem_of_lookup in Hin as [j Hj']. destruct (Forall2_lookup_l _ _ _ _ _ Hnames Hj') as (p' & Hp' & E').
    rewrite E, Hs in E'. injection E' as <-. by eapply list_elem_of_lookup_2.
Qed.
End reports_spec.

(** ** A concrete chain *)
#[local] Existing Instance identity_unicode.
#[local] Existing Instance position_order.
#[local] Existing Instance ascii_casing.
#[local] Existing Instance toy_repr.
#[local] Instance toy_jsonb : JsonbText := {| jsonb_text _ := u "{}" |}.

Definition allowed_only : DecisionFilter := mkDecisionFilter (Some (u "allow")) None None.
Definition everything : DecisionFilter := mkDecisionFilter None None None.

Lemma stream_follows_chain_witness :
  let events := [Woken false 1 true; Appended [demo_record 4 "payer" "allow"; demo_record 5 "payer" "deny"] 6;
                 Woken false 2 false; Woken false 3 true] in
  ∃ snapshot s, stream_open demo_chain 0 0 allowed_only = Ok (snapshot, s) ∧
  let d := run_feed allowed_only (mkFeed demo_chain (Some s) (shown snapshot)) events in
  let there := due (fd_db d) 0 allowed_only in
  let n := length (fd_seen d) in
  (n <= length there)%nat ∧ Forall2 shows (take n there) (fd_seen d).
Proof.
  intros events.
  assert (is_ok (stream_open demo_chain 0 0 allowed_only) = true) as Hopen by (vm_compute; reflexivity).
  apply is_ok_Ok in Hopen as [[snapshot s] Ho].
  exists snapshot, s. split; [exact Ho|].
  pose proof (stream_follows_chain allowed_only 0 demo_chain 0 snapshot s events demo_chain_ok eq_refl Ho) as H.
  split; [exact (proj1 H)|exact (proj1 (proj2 H))].
Defined.

(** Three of five records match, and all three were seen. *)
Example stream_catches_up :
  (p ← stream_open demo_chain 0 0 allowed_only;
   let d := run_feed allowed_only (mkFeed demo_chain (Some p.2) (shown p.1))
              [Woken false 1 true; Appended [demo_record 4 "payer" "allow"; demo_record 5 "payer" "deny"] 6;
               Woken false 2 false; Woken false 3 true] in
   Ok (ev_seq <$> fd_seen d)) = Ok [1; 3; 4].
Proof. vm_compute. reflexivity. Qed.

(** A page nothing matches gives back the cursor it was given. *)
Example filtered_client_stays :
  list_decisions (Some demo_chain) 0 100 (mkDecisionFilter None (Some (u "nobody")) None) = Ok ([], 0).
Proof. vm_compute. reflexivity. Qed.

(** A record whose depth is no number: the stream never gets past it. *)
Definition bad_chain : chain_db :=
  (append demo_chain [(6 : uuid, VMap [(u "agent_id", VStr (u "payer")); (u "depth", VStr (u "two"))]);
                      demo_record 7 "payer" "allow"] 0).2.

Lemma unshown_row_raises db c row :
  row ∈ rows_by_seq db → c < seq row → is_ok (project_record row) = false →
  (length (rows_by_seq db) <= 100)%nat → is_ok (read_since db c everything DEFAULT_LIMIT) = false.
Proof.
  intros Hin Hs Hbad Hlen. unfold read_since, query_since. change (matches_nothing everything) with false. cbn match.
  unfold raise_if. destruct (2 ^ 63 <=? c); [done|]. cbn [mbind res_bind].
  destruct (res_map project_record _) as [events|e] eqn:E; [|done]. exfalso.
  apply res_map_Forall2 in E. rewrite take_ge in E by (etrans; [apply length_filter|unfold DEFAULT_LIMIT; lia]).
  assert (row ∈ filter (λ r, (c <? seq r) && row_selected everything r = true) (rows_by_seq db)) as Hrow.
  { apply list_elem_of_filter. split; [|done]. by rewrite (proj2 (Z.ltb_lt _ _) Hs). }
  apply list_elem_of_lookup in Hrow as [i Hi]. destruct (Forall2_lookup_l _ _ _ _ _ E Hi) as (e & _ & He).
  by rewrite He in Hbad.
Qed.

Lemma bad_record_raises c :
  c <= 3 → is_ok (read_since bad_chain c everything DEFAULT_LIMIT) = false.
Proof.
  assert ((λ r, (seq r, is_ok (project_record r))) <$> (rows_by_seq bad_chain !! 3%nat) = Some (4, false)) as H
    by (vm_compute; reflexivity).
  assert (Nat.leb (length (rows_by_seq bad_chain)) 100 = true) as Hlen by (vm_compute; reflexivity).
  apply Nat.leb_le in Hlen. revert H Hlen. generalize bad_chain. intros db H Hlen Hc.
  destruct (rows_by_seq db !! 3%nat) as [row|] eqn:Er; [|done]. injection H as Hs Hb.
  apply (unshown_row_raises db c row); [by eapply list_elem_of_lookup_2|lia|done|done].
Qed.

Theorem malformed_record_wedges s now :
  cursor s <= 3 → now < deadline s → stream_wake everything s false now (Some bad_chain) = ([], Some s).
Proof.
  intros Hc Hd. pose proof (bad_record_raises _ Hc) as H. revert H. generalize bad_chain. intros db H.
  unfold stream_wake. rewrite (proj2 (Z.leb_gt _ _) Hd). by destruct (read_since _ _ _ _).
Qed.

(** An absent outcome and one that is the word itself are two groups under one label. *)
Example one_label_twice :
  count_by_outcome_reason
    (append empty_chain [(1 : uuid, VMap []); (2 : uuid, VMap [(u "outcome", VStr (u "unknown"))])] 0).2
  = [mkOutcomeCount (u "unknown") (u "UNKNOWN") 1; mkOutcomeCount (u "unknown") (u "UNKNOWN") 1].
Proof. vm_compute. reflexivity. Qed.

(** A null depth: the stream shows 0, the custody view fails. *)
Example null_depth :
  let row := mkAuditRow 1 1 (VMap [(u "depth", VNone)]) None [] 0 in
  is_ok (project_record row) = true ∧ custody_fields [(u "depth", VNone)] = Raise TypeError.
Proof. by vm_compute. Qed.
