(* ===== verification/Dashboard.v ===== *)
(** * The budget dashboard and the metrics (agentiam_controlplane: db/budget_dashboard.py,
      budgets_api.py, metrics_api.py)

    One snapshot of the ledger: a gauge per pool, the lease top-ups of a window and the
    invariant checker's verdict; and the numbers Prometheus scrapes.  Amounts stay decimals,
    a column being a number of 1/10000 units.  How PostgreSQL orders two texts is the
    interface [Collation]. *)
From Stdlib Require Import SpecFloat.
From S2P Require Import Prelude PyText Errors PyNum PyFloat PyTime PyUuid PySha PyRe PyJson Models Ledger Books Hashing AuditChain Reports.

Class Collation := {
  collate_le : relation pystr;
  collate_dec :: RelDecision collate_le;
  collate_trans :: Transitive collate_le;
  collate_total :: Total collate_le }.

(** ** db/budget_dashboard.py *)
Definition DEFAULT_WINDOW : Z := 60 * 1000000.
Definition _ZERO : decimal := Dec 0 0.

(** [str(d)]. *)
Definition decimal_text (d : decimal) : pystr := dec_str (dcoef d <? 0) d.

Definition _ratio (part whole : decimal) : py pystr :=
  if dec_eqb whole _ZERO then Ok (u "0.0000")
  else q ← dec_div part whole; r ← quantize q; Ok (decimal_text r).

Record MandateGauge := mkMandateGauge {
  mg_budget_id : uuid; mg_mandate_id : uuid; mg_dimension : pystr;
  mg_total : decimal; mg_committed : decimal; mg_leased : decimal; mg_allocated : decimal;
  mg_available : decimal; mg_active_leases : Z; mg_lease_granted : decimal; mg_lease_settled : decimal }.

Definition gauge_dict (g : MandateGauge) : py (list (pystr * value)) :=
  spend_fraction ← _ratio (mg_committed g) (mg_total g);
  lease_utilization ← _ratio (mg_lease_settled g) (mg_lease_granted g);
  Ok [(u "budget_id", VStr (uuid_text (mg_budget_id g)));
      (u "mandate_id", VStr (uuid_text (mg_mandate_id g)));
      (u "dimension", VStr (mg_dimension g));
      (u "total", VStr (decimal_text (mg_total g)));
      (u "committed", VStr (decimal_text (mg_committed g)));
      (u "leased", VStr (decimal_text (mg_leased g)));
      (u "allocated", VStr (decimal_text (mg_allocated g)));
      (u "available", VStr (decimal_text (mg_available g)));
      (u "spend_fraction", VStr spend_fraction);
      (u "active_leases", VInt (mg_active_leases g));
      (u "lease_granted", VStr (decimal_text (mg_lease_granted g)));
      (u "lease_settled", VStr (decimal_text (mg_lease_settled g)));
      (u "lease_utilization", VStr lease_utilization)].

(** The checker's violations as it reports them. *)
Record Dashboard := mkDashboard {
  da_generated_at : Z; da_gauges : list MandateGauge; da_topups_in_window : Z;
  da_window_seconds : pyfloat; da_invariants_ok : bool; da_budgets_checked : Z;
  da_violations : list Violation; da_check_duration_ms : pyfloat }.

(** [round(x, 2)]. *)
Definition round2 (x : pyfloat) : pyfloat :=
  match x with
  | S754_finite s m e =>
      let n := if 0 <=? e then 100 * Z.pos m * 2 ^ e
               else
                 let (q, r) := Z.div_eucl (100 * Z.pos m) (2 ^ (- e)) in
                 match 2 * r ?= 2 ^ (- e) with
                 | Lt => q | Gt => q + 1 | Eq => if Z.even q then q else q + 1
                 end in
      float_of_dec s n (-2)
  | x => x
  end.

Definition topups_per_minute (d : Dashboard) : py pyfloat :=
  let window := da_window_seconds d in
  rate ← (if float_truth window then float_div (float_mul (float_of_Z (da_topups_in_window d)) (float_of_Z 60)) window
          else Ok zero);
  Ok (round2 rate).

(** [window.total_seconds()]. *)
Definition total_seconds (window : Z) : pyfloat := float_of_dec (window <? 0) (Z.abs window) (-6).

(** The four [SELECT]s of one page - the pool rows, the active leases grouped by budget, the
    count of acquisitions, the checker's sweep.  The session's isolation level is the
    default, so each sees the ledger as it is when it starts, and transactions of the
    ledger may commit in between. *)
Record ledger_reads := mkLedgerReads {
  lr_pools : db; lr_leases : db; lr_topups : db; lr_check : db }.
Definition still_ledger (d : db) : ledger_reads := mkLedgerReads d d d d.
Coercion still_ledger : db >-> ledger_reads.

Section dashboard.
Context {CO : Collation}.

(** [.order_by(BudgetRow.mandate_id, BudgetRow.dimension)] on pool rows. *)
Definition pool_le (a b : uuid * BudgetRow) : Prop :=
  (b_mandate_id a.2 < b_mandate_id b.2)%N
  ∨ (b_mandate_id a.2 = b_mandate_id b.2 ∧ collate_le (b_dimension a.2) (b_dimension b.2)).
#[global] Instance pool_le_dec : RelDecision pool_le.
Proof. intros a b. unfold pool_le. apply _. Defined.

Definition pools (d : db) : list (uuid * BudgetRow) :=
  merge_sort pool_le (filter (λ p, b_parent p.2 = None) (map_to_list (budgets d))).

(** The active leases of a budget; a budget with none has no row in the grouped query. *)
Definition active_leases (d : db) (bid : uuid) : list LeaseRow :=
  filter (λ l, l_state l = ACTIVE ∧ l_budget_id l = bid) (map_to_list (leases d)).*2.

Definition summed (column : LeaseRow → Z) (ls : list LeaseRow) : decimal :=
  match ls with [] => _ZERO | _ => dec_of_units (lsum (column <$> ls)) end.

(** The gauge of a pool row, its lease figures from the grouped query. *)
Definition gauge_of (d : db) (p : uuid * BudgetRow) : MandateGauge :=
  let held := active_leases d p.1 in
  mkMandateGauge p.1 (b_mandate_id p.2) (b_dimension p.2)
    (dec_of_units (b_total p.2)) (dec_of_units (b_committed p.2)) (dec_of_units (b_leased p.2))
    (dec_of_units (b_allocated p.2)) (dec_of_units (available p.2))
    (Z.of_nat (length held)) (summed l_granted held) (summed l_settled held).

Definition topups (d : db) (since : Z) : Z :=
  Z.of_nat (length (filter (λ l, since <= l_granted_at l) (map_to_list (leases d)).*2)).

(** [duration_ms] is how long the checker took. *)
Definition build_dashboard (r : ledger_reads) (now window : Z) (duration_ms : pyfloat) : Dashboard :=
  let report := check_in_session (lr_check r) in
  mkDashboard now (gauge_of (lr_leases r) <$> pools (lr_pools r)) (topups (lr_topups r) (now - window))
    (total_seconds window)
    (holds report) (budgets_checked report) (violations report) duration_ms.

(** ** budgets_api.py *)
Definition dashboard_route (session_factory : option ledger_reads) (now : Z) (duration_ms : pyfloat)
    : py (Dashboard * list (list (pystr * value)) * pyfloat) :=
  match session_factory with
  | None => Raise (HTTPException 503)
  | Some d =>
      let report := build_dashboard d now DEFAULT_WINDOW duration_ms in
      gauges ← res_map gauge_dict (da_gauges report);
      rate ← topups_per_minute report;
      Ok (report, gauges, rate)
  end.

(** ** metrics_api.py *)

(** Samples by label values; setting a label again replaces its sample. *)
Definition samples : Type := gmap (pystr * pystr) pyfloat.
Record exposition := mkExposition {
  mx_decisions_total : samples; mx_committed : samples; mx_available : samples;
  mx_lease_utilization : samples; mx_invariant_ok : pyfloat }.

(** [float(Decimal)]. *)
Definition float_of_decimal (d : decimal) : pyfloat := float_of_dec (dcoef d <? 0) (Z.abs (dcoef d)) (dexp d).

Definition set_all_samples {A} (label : A → pystr * pystr) (sample : A → pyfloat) (l : list A) : samples :=
  foldl (λ m a, <[label a := sample a]> m) ∅ l.

Definition utilization (g : MandateGauge) : py pyfloat :=
  if dcoef (mg_lease_granted g) =? 0 then Ok zero
  else float_of_decimal <$> dec_div (mg_lease_settled g) (mg_lease_granted g).

Definition gauge_label (g : MandateGauge) : pystr * pystr := (uuid_text (mg_mandate_id g), mg_dimension g).

Section metrics.
Context {JT : JsonbText}.

Definition metrics (session_factory : option (chain_db * ledger_reads)) (now : Z) (duration_ms : pyfloat) : py exposition :=
  match session_factory with
  | None => Raise (HTTPException 503)
  | Some (chain, d) =>
      let report := build_dashboard d now DEFAULT_WINDOW duration_ms in
      utilizations ← res_map (λ g, x ← utilization g; Ok (gauge_label g, x)) (da_gauges report);
      Ok (mkExposition
            (set_all_samples (λ c, (oc_outcome c, oc_reason_code c)) (λ c, float_of_Z (oc_count c))
               (count_by_outcome_reason chain))
            (set_all_samples gauge_label (λ g, float_of_decimal (mg_committed g)) (da_gauges report))
            (set_all_samples gauge_label (λ g, float_of_decimal (mg_available g)) (da_gauges report))
            (set_all_samples fst snd utilizations)
            (if da_invariants_ok report then float_of_Z 1 else zero))
  end.
End metrics.
End dashboard.
