(* ===== verification/DashboardSpec.v ===== *)
(** * What the dashboard shows

    In every ledger that can be reached the gauges are the pools, each a picture of the pool
    invariant, the verdict is green, and every number can be rendered. *)
From Stdlib Require Import SpecFloat.
From S2P Require Import Prelude PyText Errors PyNum PyFloat PyTime PyUuid PySha PyRe PyJson Models Ledger Books LedgerSpec Hashing HashingSpec AuditChain AuditSpec Reports ReportsSpec PyFloatSpec Dashboard.

(** ** Sums over tables and over lists *)
Lemma msum_list {A} (g : uuid → A → Z) (m : gmap uuid A) :
  msum g m = lsum ((λ p, g p.1 p.2) <$> map_to_list m).
Proof.
  unfold msum. rewrite map_fold_foldr. induction (map_to_list m) as [|[k a] l IH]; [done|].
  rewrite fmap_cons, lsum_cons, <- IH. done.
Qed.

Lemma lsum_values {A} (g : A → Z) (m : gmap uuid A) :
  msum (λ _, g) m = lsum (g <$> (map_to_list m).*2).
Proof. rewrite msum_list, <- list_fmap_compose. done. Qed.

Lemma lsum_filter {A} (P : A → Prop) `{∀ x, Decision (P x)} (g : A → Z) l :
  lsum (g <$> filter P l) = lsum ((λ x, if decide (P x) then g x else 0) <$> l).
Proof.
  induction l as [|x l IH]; [done|]. rewrite filter_cons, fmap_cons, lsum_cons, <- IH.
  destruct (decide (P x)); [by rewrite fmap_cons, lsum_cons|lia].
Qed.

Lemma lsum_bounds {A} (g : A → Z) l B :
  Forall (λ x, 0 <= g x <= B) l → 0 <= lsum (g <$> l) <= Z.of_nat (length l) * B.
Proof. induction 1 as [|x l Hx _ IH]; [done|]. rewrite fmap_cons, lsum_cons. cbn [length]. lia. Qed.

Lemma lsum_sub {A} (g h : A → Z) l : lsum ((λ x, g x - h x) <$> l) = lsum (g <$> l) - lsum (h <$> l).
Proof. induction l as [|x l IH]; [done|]. rewrite !fmap_cons, !lsum_cons, IH. lia. Qed.

Lemma lsum_le {A} (g h : A → Z) l : Forall (λ x, g x <= h x) l → lsum (g <$> l) <= lsum (h <$> l).
Proof. induction 1 as [|x l Hx _ IH]; [done|]. rewrite !fmap_cons, !lsum_cons. lia. Qed.

(** ** Ratios *)

(** A quotient of columns, with four places. *)
Definition fraction (t : pystr) : Prop := ∃ c, t = decimal_text (Dec c (-4)) ∧ 0 <= c <= 10000.

Lemma units_div m l : dec_div (dec_of_units m) (dec_of_units l) = dec_div (dec_of_int m) (dec_of_int l).
Proof. done. Qed.

Lemma ratio_fraction m l :
  0 <= m <= l → ndigits l <= 1000 → ∃ t, _ratio (dec_of_units m) (dec_of_units l) = Ok t ∧ fraction t.
Proof.
  intros Hm Hd. unfold _ratio, dec_eqb, dec_compare, dec_of_units, _ZERO. cbn [dcoef dexp].
  change (Z.min (-4) 0) with (-4). rewrite Z.mul_1_r. change (0 * _) with 0.
  destruct (Z.compare_spec l 0) as [->|Hl|Hl].
  - exists (u "0.0000"). split; [done|]. exists 0. split; [by vm_compute|lia].
  - lia.
  - change (dec_div (Dec m (-4)) (Dec l (-4))) with (dec_div (dec_of_int m) (dec_of_int l)).
    destruct (dec_div_within m l Hm Hl Hd) as (q & -> & Hq). cbn [mbind res_bind].
    destruct (quantize_within q 10000 Hq ltac:(lia)) as (c & -> & Hc). cbn [mbind res_bind].
    eexists. split; [done|]. by exists c.
Qed.

(** ** Gauges *)
Lemma active_outstanding_leases d k :
  active_outstanding d k = lsum (outstanding <$> active_leases d k).
Proof.
  unfold active_outstanding, active_leases. rewrite lsum_values, lsum_filter. f_equal. apply list_fmap_ext.
  intros _ l _. unfold active_share, if_eq. destruct (decide (l_state l = ACTIVE)), (decide (l_budget_id l = k));
    first [by rewrite decide_True|by rewrite decide_False by (intros [? ?]; done)].
Qed.

Lemma active_leases_ok d k : books d → Forall (λ l, lease_row_ok l = true) (active_leases d k).
Proof.
  intros Hb. apply Forall_forall. intros l [_ ([i l'] & -> & Hl%elem_of_map_to_list)%list_elem_of_fmap]%list_elem_of_filter.
  by destruct (wf_lease _ (bk_wf _ Hb) _ _ Hl).
Qed.

Lemma active_leases_length d k : (length (active_leases d k) <= size (leases d))%nat.
Proof.
  unfold active_leases. etrans; [apply length_filter|]. by rewrite length_fmap, length_map_to_list.
Qed.

(** A gauge against the ledger its pool row was read from, [d], and the one its lease
    figures were, [dl]. *)
Record pictures (d dl : db) (g : MandateGauge) : Prop := {
  pc_row : ∃ b, budgets d !! mg_budget_id g = Some b ∧ b_parent b = None
    ∧ mg_mandate_id g = b_mandate_id b ∧ mg_dimension g = b_dimension b
    ∧ mg_total g = dec_of_units (b_total b) ∧ mg_available g = dec_of_units (available b);
  pc_split : dcoef (mg_total g)
    = dcoef (mg_committed g) + dcoef (mg_leased g) + dcoef (mg_allocated g) + dcoef (mg_available g)
    ∧ 0 <= dcoef (mg_committed g) ∧ 0 <= dcoef (mg_leased g) ∧ 0 <= dcoef (mg_allocated g)
    ∧ 0 <= dcoef (mg_available g);
  pc_spent : mg_committed g = dec_of_units (settled_on d (mg_budget_id g))
    ∧ mg_allocated g = dec_of_units (child_totals d (mg_budget_id g));
  pc_leased : mg_leased g = dec_of_units (active_outstanding d (mg_budget_id g));
  pc_held : mg_active_leases g = Z.of_nat (length (active_leases dl (mg_budget_id g)))
    ∧ dcoef (mg_lease_granted g) - dcoef (mg_lease_settled g) = active_outstanding dl (mg_budget_id g)
    ∧ 0 <= dcoef (mg_lease_settled g);
  pc_text : ∃ dict spend used, gauge_dict g = Ok dict
    ∧ dict_get dict (u "spend_fraction") VNone = VStr spend ∧ fraction spend
    ∧ dict_get dict (u "lease_utilization") VNone = VStr used ∧ fraction used }.

Lemma summed_units column ls : dcoef (summed column ls) = lsum (column <$> ls).
Proof. by destruct ls. Qed.

Lemma summed_bounds d k :
  books d → Z.of_nat (size (leases d)) < 10 ^ 900 →
  let ls := active_leases d k in
  0 <= lsum (l_settled <$> ls) <= lsum (l_granted <$> ls) ∧ ndigits (lsum (l_granted <$> ls)) <= 1000.
Proof.
  intros Hb Hn. cbv zeta. pose proof (active_leases_ok d k Hb) as Hok. pose proof (active_leases_length d k) as Hlen.
  set (ls := active_leases d k) in *.
  assert (0 <= lsum (l_settled <$> ls) <= lsum (l_granted <$> ls)) as Hs.
  { split; [|apply lsum_le; eapply Forall_impl; [exact Hok|]; intros l Hl; apply lease_row_ok_iff in Hl; tauto].
    apply (lsum_bounds _ _ MONEY_LIMIT). eapply Forall_impl; [exact Hok|]. intros l Hl. apply lease_row_ok_iff in Hl.
    simpl in *. lia. }
  split; [done|].
  assert (0 <= lsum (l_granted <$> ls) <= Z.of_nat (length ls) * MONEY_LIMIT) as Hg.
  { apply lsum_bounds. eapply Forall_impl; [exact Hok|]. intros l Hl. apply lease_row_ok_iff in Hl. simpl in *. lia. }
  apply ndigits_le; [lia|]. rewrite Z.abs_eq by lia.
  assert (MONEY_LIMIT <= 10 ^ 90) by (vm_compute; discriminate).
  assert (10 ^ 900 * 10 ^ 90 <= 10 ^ 1000) by (vm_compute; discriminate). nia.
Qed.

Lemma ratio_summed d k :
  books d → Z.of_nat (size (leases d)) < 10 ^ 900 →
  let ls := active_leases d k in
  ∃ t, _ratio (summed l_settled ls) (summed l_granted ls) = Ok t ∧ fraction t.
Proof.
  intros Hb Hn. cbv zeta. destruct (summed_bounds d k Hb Hn) as [Hs Hd].
  destruct (active_leases d k) as [|l ls']; [exists (u "0.0000"); split; [done|exists 0; split; [by vm_compute|lia]]|].
  by apply ratio_fraction.
Qed.

Lemma utilization_answers d k b :
  books d → Z.of_nat (size (leases d)) < 10 ^ 900 → ∃ x, utilization (gauge_of d (k, b)) = Ok x.
Proof.
  intros Hb Hn. destruct (summed_bounds d k Hb Hn) as [Hs Hd]. unfold utilization, gauge_of.
  cbn [mg_lease_granted mg_lease_settled fst]. destruct (active_leases d k) as [|l ls]; [by eexists|].
  cbn [summed]. set (g := lsum (l_granted <$> l :: ls)) in *. set (m := lsum (l_settled <$> l :: ls)) in *.
  rewrite units_div. cbn [dec_of_units dcoef]. destruct (Z.eqb_spec g 0); [by eexists|].
  destruct (dec_div_within m g) as (q & -> & _); [lia|lia|done|]. by eexists.
Qed.

Lemma gauge_pictures d dl k b :
  books d → books dl → Z.of_nat (size (leases dl)) < 10 ^ 900 →
  budgets d !! k = Some b → b_parent b = None → pictures d dl (gauge_of dl (k, b)).
Proof.
  intros Hb Hbl Hn Hk Hp. destruct (books_row d k b Hb Hk) as (Hc & Hl & Ha & Ht & Ec & El & Ea).
  pose proof (active_outstanding_leases dl k) as Eo.
  destruct (wf_budget _ (bk_wf _ Hb) _ _ Hk) as [Hok _]. apply budget_row_ok_iff in Hok.
  destruct (ratio_fraction (b_committed b) (b_total b)) as (spend & Hspend & Hf1); [lia|apply ndigits_le; [lia|]|].
  { assert (MONEY_LIMIT <= 10 ^ 1000) by (vm_compute; discriminate). lia. }
  destruct (ratio_summed dl k Hbl Hn) as (used & Hused & Hf2).
  split; unfold gauge_of; cbn [mg_budget_id mg_mandate_id mg_dimension mg_total mg_committed mg_leased mg_allocated
    mg_available mg_active_leases mg_lease_granted mg_lease_settled fst snd].
  - by exists b.
  - unfold available. cbn [dec_of_units dcoef]. lia.
  - by rewrite Ec, Ea.
  - by rewrite El.
  - split; [done|]. rewrite !summed_units, <- lsum_sub, Eo. split; [done|].
    apply (lsum_bounds _ _ MONEY_LIMIT). eapply Forall_impl; [by apply active_leases_ok|]. intros l Hok'.
    apply lease_row_ok_iff in Hok'. simpl in *. lia.
  - unfold gauge_dict. cbn [mg_total mg_committed mg_lease_granted mg_lease_settled].
    rewrite Hspend. cbn [mbind res_bind]. rewrite Hused. cbn [mbind res_bind].
    eexists _, spend, used. split; [done|]. by split_and!.
Qed.

Section dashboard_spec.
Context {CO : Collation}.

(** C35: The dashboard's four queries each see a ledger whose books are in order, as every
    reachable one is, and whatever was committed between them.  The page is green, counts
    the budgets the sweep saw, and its gauges are the pool rows of the first query, each
    once: total is what was spent, leased, delegated and left, none of them negative; spent
    is what the reservations said then, delegated what the children had, leased what the
    active leases held; the lease figures are of the leases the second query saw, their
    granted less settled what these held then; and both fractions are numbers from 0 to 1.
    So when nothing is committed between the first two queries, leased is granted less
    settled. *)
Theorem dashboard_pictures_ledger (r : ledger_reads) now window ms :
  books (lr_pools r) → books (lr_leases r) → books (lr_check r) →
  Z.of_nat (size (leases (lr_leases r))) < 10 ^ 900 →
  let page := build_dashboard r now window ms in
  da_invariants_ok page = true ∧ da_violations page = []
  ∧ da_budgets_checked page = Z.of_nat (size (budgets (lr_check r)))
  ∧ mg_budget_id <$> da_gauges page
      ≡ₚ (filter (λ p, b_parent p.2 = None) (map_to_list (budgets (lr_pools r)))).*1
  ∧ Forall (pictures (lr_pools r) (lr_leases r)) (da_gauges page)
  ∧ (lr_leases r = lr_pools r →
     Forall (λ g, dcoef (mg_leased g) = dcoef (mg_lease_granted g) - dcoef (mg_lease_settled g))
       (da_gauges page)).
Proof.
  intros Hb Hbl Hbc Hn. cbv zeta. unfold build_dashboard.
  cbn [da_invariants_ok da_violations da_budgets_checked da_gauges].
  assert (holds (check_in_session (lr_check r)) = true) as Hh
    by (apply checker_iff; intros; by apply books_row).
  split; [done|]. split; [unfold holds in Hh; by destruct (violations _)|]. split.
  { unfold check_in_session, sweep. cbn [budgets_checked]. by rewrite length_fmap, length_map_to_list. }
  unfold pools. split.
  - rewrite <- list_fmap_compose. unfold compose. cbn [gauge_of mg_budget_id].
    by rewrite merge_sort_Permutation.
  - assert (Forall (pictures (lr_pools r) (lr_leases r))
              (gauge_of (lr_leases r) <$> merge_sort pool_le
                 (filter (λ p, b_parent p.2 = None) (map_to_list (budgets (lr_pools r)))))) as HF.
    { apply Forall_fmap, Forall_forall. intros [k b] Hin. rewrite merge_sort_Permutation in Hin.
      apply list_elem_of_filter in Hin as [Hp Hk%elem_of_map_to_list]. by apply gauge_pictures. }
    split; [exact HF|]. intros Heq. eapply Forall_impl; [exact HF|]. intros g [_ _ _ Hl (_ & Hs & _) _].
    rewrite Heq in Hs. by rewrite Hs, Hl.
Qed.

(** A scrape of such a ledger answers, with the invariant gauge at 1. *)
Theorem metrics_answer {JT : JsonbText} chain (d : db) now ms :
  books d → Z.of_nat (size (leases d)) < 10 ^ 900 →
  ∃ x, metrics (Some (chain, still_ledger d)) now ms = Ok x ∧ mx_invariant_ok x = float_of_Z 1.
Proof.
  intros Hb Hn. unfold metrics.
  assert (da_invariants_ok (build_dashboard d now DEFAULT_WINDOW ms) = true) as ->
    by (apply checker_iff; intros; by apply books_row).
  destruct (res_map_total (λ g, x ← utilization g; Ok (gauge_label g, x))
              (da_gauges (build_dashboard d now DEFAULT_WINDOW ms))) as [us ->]; [|by eexists].
  unfold build_dashboard. cbn [da_gauges still_ledger lr_pools lr_leases]. apply Forall_fmap, Forall_forall. intros [k b] _. unfold compose.
  by destruct (utilization_answers d k b Hb Hn) as [x ->].
Qed.
End dashboard_spec.

(** ** A concrete ledger *)
#[local] Program Instance code_order : Collation := {| collate_le := pystr_le |}.
#[local] Instance toy_jsonb' : JsonbText := {| jsonb_text _ := u "{}" |}.

Lemma dashboard_pictures_ledger_witness :
  da_invariants_ok (build_dashboard demo_db 7 DEFAULT_WINDOW zero) = true
  ∧ Forall (pictures demo_db demo_db) (da_gauges (build_dashboard demo_db 7 DEFAULT_WINDOW zero)).
Proof.
  assert (Z.of_nat (size (leases demo_db)) < 10 ^ 900) as Hn by (apply Z.ltb_lt; vm_compute; reflexivity).
  destruct (dashboard_pictures_ledger demo_db 7 DEFAULT_WINDOW zero demo_books demo_books demo_books Hn)
    as (H & _ & _ & _ & HF & _).
  split; [exact H|exact HF].
Defined.

(** An acquisition between the first two queries: the page shows 35.0000 leased beside leases
    granted 70.0000 of which 25.0000 is settled, and is green. *)
Example acquired_between_queries :
  let later := run_op demo_db (OpAcquire 10%N (u "spend_bdt") 100000 (u "pep-3") 1000 5 None 7%N) in
  let page := build_dashboard (mkLedgerReads demo_db later later later) 7 DEFAULT_WINDOW zero in
  (λ g, (mg_leased g, mg_lease_granted g, mg_lease_settled g)) <$> da_gauges page
    = [(dec_of_units 350000, dec_of_units 700000, dec_of_units 250000)]
  ∧ da_invariants_ok page = true.
Proof. split; vm_compute; reflexivity. Qed.

(** The pool of that ledger, as the page prints it. *)
Example demo_gauge :
  (λ g, (λ dict, (λ k, dict_get dict (u k) VNone) <$>
           ["total"; "committed"; "leased"; "allocated"; "available"; "spend_fraction"; "active_leases";
            "lease_granted"; "lease_settled"; "lease_utilization"]%string) <$> gauge_dict g)
    <$> head (da_gauges (build_dashboard demo_db 7 DEFAULT_WINDOW zero))
  = Some (Ok [VStr (u "100.0000"); VStr (u "25.0000"); VStr (u "35.0000"); VStr (u "20.0000"); VStr (u "20.0000");
              VStr (u "0.2500"); VInt 2; VStr (u "60.0000"); VStr (u "25.0000"); VStr (u "0.4167")]).
Proof. vm_compute. reflexivity. Qed.

(** Two groups under one label: the scrape keeps the last, and loses a count. *)
Example scrape_loses_a_count :
  count_by_outcome_reason
    (append (UN := identity_unicode) (ST := position_order) empty_chain
       [(1%N : uuid, VMap []); (2%N : uuid, VMap [(u "outcome", VStr (u "unknown"))])] 0).2
  = [mkOutcomeCount (u "unknown") (u "UNKNOWN") 1; mkOutcomeCount (u "unknown") (u "UNKNOWN") 1]
  ∧ set_all_samples (λ c, (oc_outcome c, oc_reason_code c)) (λ c, float_of_Z (oc_count c))
      [mkOutcomeCount (u "unknown") (u "UNKNOWN") 1; mkOutcomeCount (u "unknown") (u "UNKNOWN") 1]
      !! (u "unknown", u "UNKNOWN") = Some (float_of_Z 1).
Proof. split; vm_compute; reflexivity. Qed.
