(* ===== verification/Tree.v ===== *)
(** * The identity tree (agentiam_controlplane: db/tree.py, tree_api.py)

    The delegation tree of a task, read back from the audit chain, the ledger, the
    revocations and the escalations; the caveat panel's view of one agent; and the stream
    of differences.  [SqlOrder] is the order a query without [ORDER BY] gives its rows in,
    [fromisoformat] is [datetime.fromisoformat]. *)
From S2P Require Import Prelude PyText Errors PyNum PyFloat PyTime PyUuid PySha PyRe Models Ledger Hashing AuditChain Caveats Tokens Decide Revocation Escalation CedarPolicy Reports.

Class SqlOrder := {
  sql_order : list (uuid * BudgetRow) → list (uuid * BudgetRow);
  sql_order_perm l : sql_order l ≡ₚ l }.

(** ** Decimals read back *)

(** A signalling NaN is [None]: any arithmetic on it is refused. *)
Definition field_dec : Type := option pydec.

Definition is_signalling (text : pystr) : bool :=
  let s := ascii_lower <$> filter (λ c, c ≠ 95) (py_strip text) in
  starts_with (u "snan") (match s with 45 :: r | 43 :: r => r | _ => s end).

Section fields.
Context {RP : PyRepr}.

Definition decimal_field (v : value) : field_dec :=
  match py_str v with
  | Ok s => match parse_decimal s with
            | Some d => if is_signalling s then None else Some d
            | None => Some (DFin (Dec 0 0))
            end
  | Raise _ => Some (DFin (Dec 0 0))
  end.

(** [a + b] and [a - b] in the default context. *)
Definition dec_sum (a b : decimal) : py decimal :=
  let m := Z.min (dexp a) (dexp b) in
  dec_fix (Dec (dcoef a * 10 ^ (dexp a - m) + dcoef b * 10 ^ (dexp b - m)) m).
Definition pydec_add (a b : field_dec) : py pydec :=
  match a, b with
  | None, _ | _, None => Raise InvalidOperation
  | Some DNaN, _ | _, Some DNaN => Ok DNaN
  | Some (DFin a), Some (DFin b) => d ← dec_sum a b; Ok (DFin d)
  | Some (DInf n), Some (DInf m) => if Bool.eqb n m then Ok (DInf n) else Raise InvalidOperation
  | Some (DInf n), _ | _, Some (DInf n) => Ok (DInf n)
  end.
Definition pydec_opp (a : pydec) : pydec :=
  match a with DFin d => DFin (Dec (- dcoef d) (dexp d)) | DInf n => DInf (negb n) | DNaN => DNaN end.
Definition pydec_sub (a b : field_dec) : py pydec := pydec_add a (pydec_opp <$> b).

Definition pydec_truthy (a : pydec) : bool :=
  match a with DFin d => negb (dcoef d =? 0) | _ => true end.

(** pydantic's [Decimal] field takes finite numbers only. *)
Definition finite (a : pydec) : py decimal :=
  match a with DFin d => Ok d | _ => Raise ValidationError end.

(** [record.get(key) or {}]. *)
Definition get_or_empty (record : list (pystr * value)) (key : string) : value :=
  let v := dict_get record (u key) VNone in if value_truthy v then v else VMap [].

(** [int(str(record.get("depth", 0) or 0))]. *)
Definition int_str (v : value) : py Z :=
  s ← py_str v; match parse_int10 s with Some n => Ok n | None => Raise ValueError end.
Definition depth_of (record : list (pystr * value)) : py Z :=
  let v := dict_get record (u "depth") (VInt 0) in int_str (if value_truthy v then v else VInt 0).

(** ** db/tree.py *)
Definition spend_table : Type := gmap pystr (gmap pystr pydec).
Definition spent_on (spent : gmap pystr pydec) (dimension : pystr) : pydec :=
  default (DFin (Dec 0 0)) (spent !! dimension).

Fixpoint spend_items (after : list (pystr * value)) (before : list (pystr * value))
    (per_dimension : gmap pystr pydec) : py (gmap pystr pydec) :=
  match before with
  | [] => Ok per_dimension
  | (dimension, before_value) :: before =>
      delta ← pydec_sub (decimal_field before_value) (decimal_field (dict_get after dimension VNone));
      if pydec_truthy delta
      then total ← pydec_add (Some (spent_on per_dimension dimension)) (Some delta);
           spend_items after before (<[dimension := total]> per_dimension)
      else spend_items after before per_dimension
  end.

Fixpoint _spend_by_agent (records : list (list (pystr * value))) (spent : spend_table) : py spend_table :=
  match records with
  | [] => Ok spent
  | record :: records =>
      match get_or_empty record "budget_before", get_or_empty record "budget_after" with
      | VMap before, VMap after =>
          agent ← get_str record "agent_id" [];
          per_dimension ← spend_items after before (default ∅ (spent !! agent));
          _spend_by_agent records (<[agent := per_dimension]> spent)
      | _, _ => _spend_by_agent records spent
      end
  end.

Record TreeBudget := mkTreeBudget { tb_dimension : pystr; tb_total : decimal; tb_available : decimal }.
Definition mk_TreeBudget (dimension : pystr) (total available : pydec) : py TreeBudget :=
  total ← finite total; available ← finite available; Ok (mkTreeBudget dimension total available).

(** [_budget_order]: money first. *)
Definition budget_rank (b : TreeBudget) : Z := if bool_decide (tb_dimension b = u "spend_bdt") then 0 else 1.
Definition budget_le (a b : TreeBudget) : Prop :=
  budget_rank a < budget_rank b ∨ (budget_rank a = budget_rank b ∧ pystr_le (tb_dimension a) (tb_dimension b)).
#[global] Instance budget_le_dec : RelDecision budget_le.
Proof. intros a b. unfold budget_le. apply _. Defined.

Record TreeNode := mkTreeNode {
  tn_agent_id : pystr; tn_role : pystr; tn_depth : Z; tn_task_id : uuid; tn_principal_id : pystr;
  tn_block_ids : list pystr; tn_scopes : list pystr; tn_budget : list TreeBudget; tn_revoked : bool;
  tn_revocation_reason : option pystr; tn_has_pending_escalation : bool; tn_last_outcome : pystr;
  tn_last_reason_code : pystr; tn_last_seen : Z }.

Definition is_principal (n : TreeNode) : bool := tn_depth n =? 0.

(** A record kept for its chain. *)
Record chain_row := mkChainRow {
  cr_created_at : Z; cr_record : list (pystr * value); cr_agent : pystr; cr_chain : list pystr }.

(** The newest record of each [(agent, chain)], newest first; a chain that is no list is
    passed over. *)
Fixpoint latest_records (seen : list (pystr * list pystr)) (rows : list (Z * list (pystr * value)))
    : py (list chain_row) :=
  match rows with
  | [] => Ok []
  | (at_, record) :: rows =>
      agent ← get_str record "agent_id" [];
      match dict_get record (u "token_chain_ids") (VSeq []) with
      | VSeq chain_list =>
          chain ← res_map py_str chain_list;
          if bool_decide ((agent, chain) ∈ seen) then latest_records seen rows
          else rest ← latest_records ((agent, chain) :: seen) rows;
               Ok (mkChainRow at_ record agent chain :: rest)
      | _ => latest_records seen rows
      end
  end.

(** The mandates those records name, as texts. *)
Definition mandate_text (c : chain_row) : py (list pystr) :=
  let v := dict_get (cr_record c) (u "mandate_id") VNone in
  if value_truthy v then s ← py_str v; Ok [s] else Ok [].

(** The first record at depth 0. *)
Fixpoint root_agent (latest : list chain_row) : py (option pystr) :=
  match latest with
  | [] => Ok None
  | c :: latest => d ← depth_of (cr_record c); if d =? 0 then Ok (Some (cr_agent c)) else root_agent latest
  end.

(** Budget rows by the agent they are shown at, in the order of the query. *)
Definition budget_target (root : option pystr) (agents : list pystr) (b : BudgetRow) : option pystr :=
  let target := match b_agent_id b with Some ((_ :: _) as a) => Some a | _ => root end in
  match target with
  | Some ((_ :: _) as a) => if bool_decide (a ∈ agents) then Some a else None
  | _ => None
  end.

Section tables.
Context {SO : SqlOrder}.

Definition ledger_budgets (d : Ledger.db) (latest : list chain_row) : py (list (pystr * TreeBudget)) :=
  texts ← res_map mandate_text latest;
  let mandates := omap parse_uuid (mjoin texts) in
  match mandates with
  | [] => Ok []
  | _ =>
      root ← root_agent latest;
      Ok (omap (λ p : uuid * BudgetRow,
                  a ← budget_target root (cr_agent <$> latest) p.2;
                  Some (a, mkTreeBudget (b_dimension p.2) (dec_of_units (b_total p.2)) (dec_of_units (available p.2))))
            (sql_order (filter (λ p, b_mandate_id p.2 ∈ mandates) (map_to_list (budgets d)))))
  end.

(** [EscalationRow]s still waiting. *)
Definition pending_agents (es : escalations_db) (task_id : uuid) (now : Z) : list pystr :=
  (λ p : uuid * EscalationRow, ew_agent_id p.2) <$>
    filter (λ p, ew_task_id p.2 = task_id ∧ ew_state p.2 = E_PENDING ∧ now < ew_expires_at p.2) (map_to_list es).

(** The first block of a chain that is in the table, and why. *)
Definition revocation_of (rv : revocations_db) (chain : list pystr) : option pystr :=
  rv_reason <$> head (omap (λ b, rv_rows rv !! b) chain).

Definition authority_dict (record : list (pystr * value)) : option (list (pystr * value)) :=
  match dict_get record (u "authority") VNone with VMap a => Some a | _ => None end.

Definition scopes_of (record : list (pystr * value)) : py (list pystr) :=
  match authority_dict record with
  | Some a => match dict_get a (u "scopes") VNone with
              | VSeq raw => scopes ← res_map py_str raw; Ok (py_sorted scopes)
              | _ => Ok []
              end
  | None => Ok []
  end.

(** The ceilings the token carries, less what its records consumed. *)
Definition ceiling_budget (consumed : gmap pystr pydec) (c : pystr * value) : py (pystr * TreeBudget) :=
  let total := decimal_field c.2 in
  available ← pydec_sub total (Some (spent_on consumed c.1));
  match total with
  | None => Raise ValidationError
  | Some total => b ← mk_TreeBudget c.1 total available; Ok (c.1, b)
  end.
Definition ceilings_of (record : list (pystr * value)) : list (pystr * value) :=
  match authority_dict record with
  | Some a => match dict_get a (u "ceilings") VNone with VMap c => c | _ => [] end
  | None => []
  end.

Definition budgets_of (record : list (pystr * value)) (consumed : gmap pystr pydec)
    (ledger : list TreeBudget) : py (list TreeBudget) :=
  own ← res_map (ceiling_budget consumed) (ceilings_of record);
  let table : gmap pystr TreeBudget :=
    foldl (λ m p, <[p.1 := p.2]> m) ∅ (own ++ ((λ b, (tb_dimension b, b)) <$> ledger)) in
  Ok (merge_sort budget_le (map_to_list table).*2).

Definition node_of (task_id : uuid) (rv : revocations_db) (pending : list pystr) (spent : spend_table)
    (ledger : list (pystr * TreeBudget)) (c : chain_row) : py TreeNode :=
  let rec_ := cr_record c in
  let revocation := revocation_of rv (cr_chain c) in
  scopes ← scopes_of rec_;
  budget ← budgets_of rec_ (default ∅ (spent !! cr_agent c))
             (filter (λ p : pystr * TreeBudget, p.1 = cr_agent c) ledger).*2;
  role ← get_str_or rec_ "role";
  depth ← depth_of rec_;
  principal_id ← get_str rec_ "principal_id" [];
  outcome ← get_str rec_ "outcome" [];
  reason_code ← get_str rec_ "reason_code" [];
  Ok (mkTreeNode (cr_agent c) (text_or role (u "unknown")) depth task_id principal_id (cr_chain c) scopes
        budget (match revocation with Some _ => true | None => false end) revocation
        (bool_decide (cr_agent c ∈ pending)) outcome reason_code (cr_created_at c)).

(** *** [_current_generation] *)
Definition _EPOCH : Z := 0.

(** [dict[key] = value]: a key keeps its place. *)
Fixpoint dict_put {K V} `{EqDecision K} (d : list (K * V)) (k : K) (v : V) : list (K * V) :=
  match d with
  | [] => [(k, v)]
  | (k', v') :: d => if decide (k' = k) then (k, v) :: d else (k', v') :: dict_put d k v
  end.
Definition dict_from {K V} `{EqDecision K} (l : list (K * V)) : list (K * V) :=
  foldl (λ d p, dict_put d p.1 p.2) [] l.
Definition dict_find {K V} `{EqDecision K} (d : list (K * V)) (k : K) : option V :=
  (λ p, p.2.2) <$> list_find (λ p : K * V, p.1 = k) d.

Definition see_generation (latest : list (pystr * Z)) (n : TreeNode) : list (pystr * Z) :=
  match tn_block_ids n with
  | [] => latest
  | root :: _ => if default _EPOCH (dict_find latest root) <? tn_last_seen n
                 then dict_put latest root (tn_last_seen n) else latest
  end.

(** [max(latest, key=...)]: the first of the greatest. *)
Fixpoint latest_root (best : pystr * Z) (l : list (pystr * Z)) : pystr :=
  match l with
  | [] => best.1
  | p :: l => latest_root (if best.2 <? p.2 then p else best) l
  end.

Definition _current_generation (nodes : list TreeNode) : list TreeNode :=
  match foldl see_generation [] nodes with
  | [] => nodes
  | p :: l => let current := latest_root p l in
              filter (λ n, match tn_block_ids n with [] => true | root :: _ => bool_decide (root = current) end = true) nodes
  end.

(** [nodes.sort(key=lambda n: (n.depth, n.agent_id))], which is stable. *)
Definition node_le (a b : TreeNode) : Prop :=
  tn_depth a < tn_depth b ∨ (tn_depth a = tn_depth b ∧ pystr_le (tn_agent_id a) (tn_agent_id b)).
#[global] Instance node_le_dec : RelDecision node_le.
Proof. intros a b. unfold node_le. apply _. Defined.

Fixpoint insert_node (n : TreeNode) (l : list TreeNode) : list TreeNode :=
  match l with
  | [] => [n]
  | m :: l' => if decide (node_le n m) then n :: l else m :: insert_node n l'
  end.
Definition sort_nodes (l : list TreeNode) : list TreeNode := foldr insert_node [] l.

(** The tables a session reads. *)
Record tree_tables := mkTables {
  tt_chain : chain_db; tt_ledger : Ledger.db; tt_revocations : revocations_db; tt_escalations : escalations_db }.

(** The task's records, newest first. *)
Definition task_records (db : chain_db) (task_id : uuid) : py (list (Z * list (pystr * value))) :=
  res_map (λ row, r ← record_obj row; Ok (created_at row, r))
    (reverse (filter (λ row, of_task task_id row = true) (rows_by_seq db))).

Definition build_tree (t : tree_tables) (task_id : uuid) (now : Z) (include_superseded : bool)
    : py (list TreeNode) :=
  records ← task_records (tt_chain t) task_id;
  match records with
  | [] => Ok []
  | _ =>
      latest ← latest_records [] records;
      ledger ← ledger_budgets (tt_ledger t) latest;
      let pending := pending_agents (tt_escalations t) task_id now in
      spent ← _spend_by_agent records.*2 ∅;
      nodes ← res_map (node_of task_id (tt_revocations t) pending spent ledger) latest;
      Ok (sort_nodes (if include_superseded then nodes else _current_generation nodes))
  end.

(** *** [build_tree_diff] *)
Definition budget_same (a b : TreeBudget) : bool :=
  bool_decide (tb_dimension a = tb_dimension b) && dec_eqb (tb_total a) (tb_total b)
  && dec_eqb (tb_available a) (tb_available b).

Fixpoint budgets_same (l k : list TreeBudget) : bool :=
  match l, k with
  | [], [] => true
  | a :: l, b :: k => budget_same a b && budgets_same l k
  | _, _ => false
  end.

(** [==] on nodes: decimals by value. *)
Definition node_same (a b : TreeNode) : bool :=
  bool_decide (tn_agent_id a = tn_agent_id b) && bool_decide (tn_role a = tn_role b)
  && (tn_depth a =? tn_depth b) && bool_decide (tn_task_id a = tn_task_id b)
  && bool_decide (tn_principal_id a = tn_principal_id b)
  && bool_decide (tn_block_ids a = tn_block_ids b) && bool_decide (tn_scopes a = tn_scopes b)
  && budgets_same (tn_budget a) (tn_budget b)
  && Bool.eqb (tn_revoked a) (tn_revoked b)
  && bool_decide (tn_revocation_reason a = tn_revocation_reason b)
  && Bool.eqb (tn_has_pending_escalation a) (tn_has_pending_escalation b)
  && bool_decide (tn_last_outcome a = tn_last_outcome b)
  && bool_decide (tn_last_reason_code a = tn_last_reason_code b)
  && (tn_last_seen a =? tn_last_seen b).

Definition node_key (n : TreeNode) : pystr * pystr := (tn_agent_id n, default [] (last (tn_block_ids n))).
Definition node_map (l : list TreeNode) : list ((pystr * pystr) * TreeNode) :=
  dict_from ((λ n, (node_key n, n)) <$> l).

Record TreeDiff := mkTreeDiff { td_added : list TreeNode; td_changed : list TreeNode; td_removed : list TreeNode }.

Definition build_tree_diff (old new : list TreeNode) : TreeDiff :=
  let old_map := node_map old in
  let new_map := node_map new in
  mkTreeDiff
    (filter (λ n, dict_find old_map (node_key n) = None) new_map.*2)
    (filter (λ n, match dict_find old_map (node_key n) with
                  | Some o => negb (node_same o n) | None => false end = true) new_map.*2)
    (filter (λ n, dict_find new_map (node_key n) = None) old_map.*2).

(** ** tree_api.py *)
Record AgentAuthorityView := mkAuthorityView {
  av_principal_id : option pystr; av_role : pystr; av_depth : Z; av_scopes : option (list pystr);
  av_ceilings : option (list (pystr * decimal)); av_expires_at : option Z; av_max_depth : option Z;
  av_spent : decimal; av_decisions : Z }.

Fixpoint newest_authority (records : list (list (pystr * value))) : option (list (pystr * value)) :=
  match records with
  | [] => None
  | r :: records => match authority_dict r with Some a => Some a | None => newest_authority records end
  end.

(** What the records say was spent of money. *)
Fixpoint total_spent (records : list (list (pystr * value))) (spent : pydec) : py pydec :=
  match records with
  | [] => Ok spent
  | r :: records =>
      match get_or_empty r "budget_before", get_or_empty r "budget_after" with
      | VMap before, VMap after =>
          delta ← pydec_sub (decimal_field (dict_get before (u "spend_bdt") VNone))
                    (decimal_field (dict_get after (u "spend_bdt") VNone));
          spent ← pydec_add (Some spent) (Some delta);
          total_spent records spent
      | _, _ => total_spent records spent
      end
  end.

Definition truthy_str (record : list (pystr * value)) (key : string) : py (option pystr) :=
  let v := dict_get record (u key) VNone in if value_truthy v then s ← py_str v; Ok (Some s) else Ok None.

Definition view_ceiling (c : pystr * value) : py (pystr * decimal) :=
  match decimal_field c.2 with
  | Some d => d ← finite d; Ok (c.1, d)
  | None => Raise ValidationError
  end.

Context (fromisoformat : pystr → py Z).

(** [records] newest first, at least one. *)
Definition _authority_view (records : list (list (pystr * value))) : py (option AgentAuthorityView) :=
  spent ← total_spent records (DFin (Dec 0 0));
  match newest_authority records with
  | None => Ok None
  | Some a =>
      let newest := default [] (head records) in
      principal_id ← truthy_str newest "principal_id";
      role ← get_str_or newest "role";
      depth ← depth_of newest;
      scopes ← match dict_get a (u "scopes") VNone with
               | VSeq raw => s ← res_map py_str raw; Ok (Some s) | _ => Ok None end;
      expires_at ← match dict_get a (u "not_after") VNone with
                   | VStr s => t ← fromisoformat s; Ok (Some t) | _ => Ok None end;
      max_depth ← match dict_get a (u "max_depth") VNone with
                  | VNone => Ok None | v => n ← int_str v; Ok (Some n) end;
      ceilings ← match dict_get a (u "ceilings") VNone with
                 | VMap raw => c ← res_map view_ceiling raw; Ok (Some c) | _ => Ok None end;
      spent ← finite spent;
      Ok (Some (mkAuthorityView principal_id role depth scopes ceilings expires_at max_depth spent
                  (Z.of_nat (length records))))
  end.

(** [GET /v1/tree/{task_id}]. *)
Definition get_tree (session_factory : option tree_tables) (task_id : uuid) (generations : pystr) (now : Z)
    : py (list TreeNode) :=
  match session_factory with
  | None => Raise (HTTPException 503)
  | Some t =>
      raise_if (negb (bool_decide (generations = u "current") || bool_decide (generations = u "all"))) (HTTPException 422);;
      build_tree t task_id now (bool_decide (generations = u "all"))
  end.

(** [GET /v1/tree/{task_id}/blocks/{agent_id}]: the block ids and the authority. *)
Definition get_block_source {JT : JsonbText} (session_factory : option chain_db) (task_id : uuid) (agent_id : pystr)
    : py (list pystr * option AgentAuthorityView) :=
  match session_factory with
  | None => Raise (HTTPException 503)
  | Some db =>
      let rows := reverse (filter (λ row, of_task task_id row && holds_text "agent_id" (Some agent_id) row = true)
                             (rows_by_seq db)) in
      records ← res_map record_obj rows;
      match records with
      | [] => Raise (HTTPException 404)
      | newest :: _ =>
          blocks ← match dict_get newest (u "token_chain_ids") (VSeq []) with
                   | VSeq l => res_map py_str l | _ => Ok [] end;
          view ← _authority_view records;
          Ok (blocks, view)
      end
  end.

(** The stream: every poll is a tree, and what differs is sent. *)
Inductive tree_frame := TSnapshot (nodes : list TreeNode) | TDiff (diff : TreeDiff) | THeartbeat.
Record tree_stream := mkTreeStream { ts_last_nodes : list TreeNode; ts_heartbeat : Z }.

Definition tree_open (t : tree_tables) (task_id : uuid) (now : Z) : py (tree_frame * tree_stream) :=
  nodes ← build_tree t task_id now false; Ok (TSnapshot nodes, mkTreeStream nodes 0).

Definition diff_empty (d : TreeDiff) : bool :=
  match td_added d, td_changed d, td_removed d with [], [], [] => true | _, _, _ => false end.

(** Once round the loop; an exception ends the stream. *)
Definition tree_poll (s : tree_stream) (t : tree_tables) (task_id : uuid) (now : Z)
    : py (list tree_frame * tree_stream) :=
  let heartbeat := ts_heartbeat s + 1 in
  new_nodes ← build_tree t task_id now false;
  let diff := build_tree_diff (ts_last_nodes s) new_nodes in
  Ok (if negb (diff_empty diff) then ([TDiff diff], mkTreeStream new_nodes 0)
      else if 5 <=? heartbeat then ([THeartbeat], mkTreeStream (ts_last_nodes s) 0)
      else ([], mkTreeStream (ts_last_nodes s) heartbeat)).
End tables.
End fields.
