(* ===== verification/TreeSpec.v ===== *)
(** * What the identity tree shows

    A node per agent and chain, read off the newest record; one generation unless all are
    asked for; revoked exactly when a block of the chain is in the table; and a client that
    applies the differences has the tree. *)
From Stdlib Require Import Sorted.
From S2P Require Import Prelude PyText Errors PyNum PyFloat PyTime PyUuid PySha PyRe Models Ledger Hashing HashingSpec AuditChain AuditSpec Caveats Tokens Decide Revocation Escalation CedarPolicy PolicySpec Reports Tree.

(** ** Dictionaries *)
Section dicts.
Context {K V : Type} `{EqDecision K}.
Implicit Types d : list (K * V).

Lemma dict_find_cons k' v' d k :
  dict_find ((k', v') :: d) k = if decide (k' = k) then Some v' else dict_find d k.
Proof.
  unfold dict_find. simpl. destruct (decide (k' = k)); [done|].
  by destruct (list_find _ d) as [[i [a b]]|].
Qed.

Lemma dict_find_put d k v k' : dict_find (dict_put d k v) k' = if decide (k = k') then Some v else dict_find d k'.
Proof.
  induction d as [|[a b] d IH]; simpl; [by rewrite dict_find_cons|].
  destruct (decide (a = k)) as [->|]; rewrite !dict_find_cons; [by destruct (decide (k = k'))|].
  rewrite IH. destruct (decide (a = k')), (decide (k = k')); congruence.
Qed.

Lemma dict_put_keys d k v x : x ∈ (dict_put d k v).*1 ↔ x = k ∨ x ∈ d.*1.
Proof.
  induction d as [|[a b] d IH]; simpl; [rewrite list_elem_of_singleton; split; [by left|by intros [|?%elem_of_nil]]|].
  destruct (decide (a = k)) as [->|]; simpl; rewrite !elem_of_cons, ?IH; tauto.
Qed.

Lemma dict_put_NoDup d k v : NoDup d.*1 → NoDup (dict_put d k v).*1.
Proof.
  induction d as [|[a b] d IH]; simpl; [intros; apply NoDup_singleton|]. intros [Ha Hd]%NoDup_cons.
  destruct (decide (a = k)) as [->|Hne]; simpl; [by constructor|].
  constructor; [|by apply IH]. rewrite dict_put_keys. by intros [?|?].
Qed.

Lemma dict_find_elem d k v : NoDup d.*1 → dict_find d k = Some v ↔ (k, v) ∈ d.
Proof.
  induction d as [|[a b] d IH]; simpl; [intros; split; [done|by intros ?%elem_of_nil]|].
  intros [Ha Hd]%NoDup_cons. rewrite dict_find_cons, elem_of_cons. destruct (decide (a = k)) as [->|Hne].
  - split; [intros [= ->]; by left|]. intros [[= ->]|Hin]; [done|]. destruct Ha. by apply (list_elem_of_fmap_2 fst) in Hin.
  - rewrite IH by done. split; [by right|]. intros [[= -> ->]|]; done.
Qed.
End dicts.

(** ** Equality of nodes *)
Lemma budget_same_trans a b c : budget_same a b = true → budget_same b c = true → budget_same a c = true.
Proof.
  unfold budget_same. rewrite !andb_true_iff, !bool_decide_eq_true. intros [[H1 H2] H3] [[H4 H5] H6].
  split_and!; [congruence|by eapply dec_eqb_trans|by eapply dec_eqb_trans].
Qed.
Lemma budgets_same_trans l : ∀ k h, budgets_same l k = true → budgets_same k h = true → budgets_same l h = true.
Proof.
  induction l as [|a l IH]; intros [|b k] [|c h]; simpl; try done.
  intros [? ?]%andb_prop [? ?]%andb_prop. apply andb_true_iff.
  split; [by eapply budget_same_trans|by eapply IH].
Qed.
Lemma budgets_same_refl l : budgets_same l l = true.
Proof.
  induction l as [|a l IH]; simpl; [done|]. rewrite IH. unfold budget_same.
  by rewrite bool_decide_eq_true_2, !dec_eqb_refl.
Qed.

Lemma node_same_trans a b c : node_same a b = true → node_same b c = true → node_same a c = true.
Proof.
  unfold node_same. rewrite !andb_true_iff, !bool_decide_eq_true, !Z.eqb_eq, !Bool.eqb_true_iff.
  intros H1 H2. repeat match goal with H : _ ∧ _ |- _ => destruct H end.
  split_and!; try congruence. by eapply budgets_same_trans.
Qed.
Lemma node_same_refl a : node_same a a = true.
Proof.
  unfold node_same. rewrite !andb_true_iff, !bool_decide_eq_true, !Z.eqb_eq, !Bool.eqb_true_iff.
  split_and!; try done. apply budgets_same_refl.
Qed.

(** ** Differences *)
Lemma node_map_ok l : NoDup (node_map l).*1 ∧ ∀ k n, dict_find (node_map l) k = Some n → node_key n = k.
Proof.
  unfold node_map, dict_from. induction l as [|n l IH] using rev_ind; [split; [constructor|done]|].
  rewrite fmap_app, foldl_app. simpl. destruct IH as [Hn Hk]. split; [by apply dict_put_NoDup|].
  intros k m. rewrite dict_find_put. destruct (decide (node_key n = k)); [by intros [= <-]|apply Hk].
Qed.

Lemma elem_node_map l n (P : TreeNode → Prop) `{∀ m, Decision (P m)} :
  n ∈ filter P (node_map l).*2 ↔ P n ∧ dict_find (node_map l) (node_key n) = Some n.
Proof.
  destruct (node_map_ok l) as [Hn Hk]. rewrite list_elem_of_filter. f_equiv. rewrite list_elem_of_fmap. split.
  - intros ([k m] & -> & Hin). apply (dict_find_elem _ _ _ Hn) in Hin. simpl. by rewrite (Hk _ _ Hin).
  - intros Hf. exists (node_key n, n). split; [done|]. by apply dict_find_elem.
Qed.

(** What a client does with a difference. *)
Definition apply_diff (table : list ((pystr * pystr) * TreeNode)) (d : TreeDiff) :=
  foldl (λ t n, dict_put t (node_key n) n)
    (filter (λ p, p.1 ∉ node_key <$> td_removed d) table) (td_added d ++ td_changed d).

Lemma removed_find (removed : list (pystr * pystr)) (table : list ((pystr * pystr) * TreeNode)) k :
  dict_find (filter (λ p, p.1 ∉ removed) table) k = if decide (k ∈ removed) then None else dict_find table k.
Proof.
  induction table as [|[a b] d IH]; [by destruct (decide (k ∈ removed))|]. rewrite filter_cons. cbn [fst].
  destruct (decide (a ∉ removed)) as [Ha|Ha]; rewrite !dict_find_cons, ?IH.
  - by destruct (decide (a = k)) as [->|], (decide (k ∈ removed)).
  - destruct (decide (a = k)) as [->|], (decide (k ∈ removed)); done.
Qed.

Lemma set_nodes_find (l : list TreeNode) t k :
  (∀ n m, n ∈ l → m ∈ l → node_key n = node_key m → n = m) →
  (∀ n, n ∈ l → node_key n = k → dict_find (foldl (λ t n, dict_put t (node_key n) n) t l) k = Some n)
  ∧ ((∀ n, n ∈ l → node_key n ≠ k) →
       dict_find (foldl (λ t n, dict_put t (node_key n) n) t l) k = dict_find t k).
Proof.
  induction l as [|x l IH] using rev_ind; intros Hu; [split; [by intros ? ?%elem_of_nil|done]|].
  rewrite foldl_app. simpl. rewrite dict_find_put.
  destruct IH as [IH1 IH2]; [intros n m Hn Hm; apply Hu; apply elem_of_app; by left|]. split.
  - intros n Hn Hk. destruct (decide (node_key x = k)) as [Hx|Hx].
    + f_equal. symmetry. apply Hu; [done|apply elem_of_app; right; by apply list_elem_of_singleton|congruence].
    + apply IH1; [|done]. apply elem_of_app in Hn as [?|E%list_elem_of_singleton]; [done|by subst].
  - intros Hn. rewrite decide_False by (apply Hn, elem_of_app; right; by apply list_elem_of_singleton).
    apply IH2. intros n Hin. apply Hn, elem_of_app. by left.
Qed.

(** The client's table against a tree: the same keys, equal nodes. *)
Definition same_node (x y : option TreeNode) : Prop :=
  match x, y with Some a, Some b => node_same a b = true | None, None => True | _, _ => False end.
Definition tracks (table : list ((pystr * pystr) * TreeNode)) (nodes : list TreeNode) : Prop :=
  ∀ k, same_node (dict_find table k) (dict_find (node_map nodes) k).

Lemma diff_removed old new k :
  k ∈ node_key <$> td_removed (build_tree_diff old new) ↔
  is_Some (dict_find (node_map old) k) ∧ dict_find (node_map new) k = None.
Proof.
  destruct (node_map_ok old) as [_ Hk]. rewrite list_elem_of_fmap. cbn [td_removed build_tree_diff]. split.
  - intros (n & -> & [Hn Ho]%elem_node_map). by rewrite Ho.
  - intros [[n Hn] Hx]. exists n. rewrite elem_node_map, (Hk _ _ Hn). done.
Qed.

Lemma diff_written old new n :
  n ∈ td_added (build_tree_diff old new) ++ td_changed (build_tree_diff old new) ↔
  dict_find (node_map new) (node_key n) = Some n
  ∧ ∀ o, dict_find (node_map old) (node_key n) = Some o → node_same o n = false.
Proof.
  rewrite elem_of_app. cbn [td_added td_changed build_tree_diff]. rewrite !elem_node_map.
  destruct (dict_find (node_map old) (node_key n)) as [o|];
    [|split; [intros [[? ?]|[? _]]; [done|done]|intros [? _]; by left]].
  split; [intros [[? _]|[H ?]]; [done|split; [done|]]; intros ? [= <-]; by apply negb_true_iff|].
  intros [Hn Ho]. right. split; [|done]. by apply negb_true_iff, Ho.
Qed.

Lemma diff_tracks table old new :
  tracks table old → tracks (apply_diff table (build_tree_diff old new)) new.
Proof.
  intros Ht k. specialize (Ht k). unfold apply_diff.
  destruct (node_map_ok new) as [_ Hk].
  destruct (set_nodes_find (td_added (build_tree_diff old new) ++ td_changed (build_tree_diff old new))
    (filter (λ p, p.1 ∉ node_key <$> td_removed (build_tree_diff old new)) table) k) as [Hin Hout].
  { intros n m [Hn _]%diff_written [Hm _]%diff_written E. rewrite E, Hm in Hn. by injection Hn. }
  destruct (dict_find (node_map new) k) as [n|] eqn:En.
  - pose proof (Hk _ _ En) as Hkey.
    destruct (dict_find (node_map old) k) as [o|] eqn:Eo; [destruct (node_same o n) eqn:Es|].
    + rewrite Hout, removed_find, decide_False.
      * destruct (dict_find table k); [|done]. by eapply node_same_trans.
      * rewrite diff_removed, En. by intros [_ ?].
      * intros m [Hm Ho]%diff_written E. rewrite E, En in Hm. injection Hm as <-.
        rewrite <- Hkey in Eo. rewrite (Ho _ Eo) in Es. done.
    + rewrite (Hin n); [apply node_same_refl| |done]. apply diff_written. rewrite Hkey. split; [done|].
      rewrite Eo. by intros ? [= <-].
    + rewrite (Hin n); [apply node_same_refl| |done]. apply diff_written. rewrite Hkey. split; [done|]. by rewrite Eo.
  - rewrite Hout, removed_find by (intros m [Hm _]%diff_written E; rewrite E, En in Hm; done).
    destruct (decide _) as [Hr|Hr]; [done|]. rewrite diff_removed, En in Hr.
    destruct (dict_find (node_map old) k); [destruct Hr; by eauto|]. by destruct (dict_find table k).
Qed.

Section tree_spec.
Context {RP : PyRepr} {SO : SqlOrder}.

(** ** The stream *)
Definition client_step (table : list ((pystr * pystr) * TreeNode)) (fr : tree_frame) :=
  match fr with TSnapshot nodes => node_map nodes | TDiff d => apply_diff table d | THeartbeat => table end.

(** A connection that is polled: each time with the tables and the clock as they are. *)
Fixpoint watch (task_id : uuid) (s : tree_stream) (polls : list (tree_tables * Z))
    : py (list tree_frame * tree_stream) :=
  match polls with
  | [] => Ok ([], s)
  | (t, now) :: polls =>
      r ← tree_poll s t task_id now;
      rest ← watch task_id r.2 polls;
      Ok (r.1 ++ rest.1, rest.2)
  end.

Lemma empty_diff table d : diff_empty d = true → apply_diff table d = table.
Proof.
  destruct d as [[|? ?] [|? ?] [|? ?]]; try done. intros _. unfold apply_diff. simpl.
  apply filter_all, Forall_forall. intros p _. apply not_elem_of_nil.
Qed.

Lemma poll_tracks table s t task_id now frames s' :
  tracks table (ts_last_nodes s) → tree_poll s t task_id now = Ok (frames, s') →
  ∃ nodes, build_tree t task_id now false = Ok nodes
    ∧ tracks (foldl client_step table frames) nodes ∧ tracks (foldl client_step table frames) (ts_last_nodes s').
Proof.
  intros Ht. unfold tree_poll. intros (nodes & Hn & H)%bind_Ok_inv. exists nodes. split; [done|].
  pose proof (diff_tracks _ _ nodes Ht) as Hd.
  destruct (diff_empty _) eqn:E; cbn [negb] in H.
  - rewrite (empty_diff _ _ E) in Hd. destruct (5 <=? _); by injection H as <- <-.
  - by injection H as <- <-.
Qed.

(** A client that takes the first snapshot and applies every difference after it holds,
    at each poll, the tree of that moment: the same agents and chains, each with an equal
    node. *)
Theorem tree_stream_tracks t0 task_id now0 first s0 polls t now frames s :
  tree_open t0 task_id now0 = Ok (first, s0) →
  watch task_id s0 (polls ++ [(t, now)]) = Ok (frames, s) →
  ∃ nodes, build_tree t task_id now false = Ok nodes ∧ tracks (foldl client_step [] (first :: frames)) nodes.
Proof.
  intros (nodes0 & Hn & [= <- <-])%bind_Ok_inv Hw. cbn [foldl client_step].
  assert (tracks (node_map nodes0) nodes0) as Ht.
  { intros k. destruct (dict_find _ k); [apply node_same_refl|done]. }
  change nodes0 with (ts_last_nodes (mkTreeStream nodes0 0)) in Ht at 2.
  revert Ht Hw. generalize (node_map nodes0) (mkTreeStream nodes0 0). clear nodes0 Hn. intros table s0 Ht.
  revert table s0 frames Ht. induction polls as [|[t1 now1] polls IH]; intros table s0 frames Ht; simpl.
  - intros ([fr s1] & Hp & [= <- <-])%bind_Ok_inv. simpl.
    destruct (poll_tracks _ _ _ _ _ _ _ Ht Hp) as (nodes & ? & ? & ?). exists nodes. by rewrite (right_id_L [] app).
  - intros ([fr s1] & Hp & H)%bind_Ok_inv. apply bind_Ok_inv in H as ([rest s2] & Hw & [= <- <-]). simpl in *.
    destruct (poll_tracks _ _ _ _ _ _ _ Ht Hp) as (_ & _ & _ & Ht'). rewrite foldl_app. by apply (IH _ _ _ Ht').
Qed.

(** ** Nodes *)

(** A record speaks of an agent and its chain. *)
Definition describes (record : list (pystr * value)) (k : pystr * list pystr) : Prop :=
  get_str record "agent_id" [] = Ok k.1
  ∧ ∃ l, dict_get record (u "token_chain_ids") (VSeq []) = VSeq l ∧ res_map py_str l = Ok k.2.

(** The newest record for its agent and chain. *)
Definition newest_of (rows : list (Z * list (pystr * value))) (c : chain_row) : Prop :=
  ∃ i, rows !! i = Some (cr_created_at c, cr_record c) ∧ describes (cr_record c) (cr_agent c, cr_chain c)
    ∧ ∀ j r, (j < i)%nat → rows !! j = Some r → ¬ describes r.2 (cr_agent c, cr_chain c).

Definition chain_key (c : chain_row) : pystr * list pystr := (cr_agent c, cr_chain c).

Lemma describes_unique r k k' : describes r k → describes r k' → k = k'.
Proof. destruct k, k'. intros (H1 & x & H2 & H3) (H4 & y & H5 & H6). simpl in *. congruence. Qed.

Lemma newest_of_cons row rows c : ¬ describes row.2 (chain_key c) → newest_of rows c → newest_of (row :: rows) c.
Proof.
  intros Hn (i & Hi & Hd & Hb). exists (S i). split; [done|]. split; [done|].
  intros [|j] r Hj; simpl; [by intros [= <-]|]. apply Hb. lia.
Qed.

Lemma latest_records_spec rows : ∀ seen kept,
  latest_records seen rows = Ok kept →
  NoDup (chain_key <$> kept)
  ∧ (∀ c : chain_row, c ∈ kept → (chain_key c ∉ seen) ∧ newest_of rows c)
  ∧ (∀ (r : Z * list (pystr * value)) k, r ∈ rows → describes r.2 k → k ∉ seen → k ∈ (chain_key <$> kept)).
Proof.
  induction rows as [|[at_ record] rows IH]; intros seen kept; cbn [latest_records].
  { intros [= <-]. split_and!; [constructor|by intros ? ?%elem_of_nil|by intros ? ? ?%elem_of_nil]. }
  intros (agent & Ha & H)%bind_Ok_inv.
  destruct (dict_get record (u "token_chain_ids") (VSeq [])) as [| | | | | | | | | | | |chain_list|] eqn:Hl;
    try (destruct (IH _ _ H) as (H1 & H2 & H3); split_and!; [done| |];
         [intros c Hc; destruct (H2 c Hc); split; [done|]; apply newest_of_cons; [|done];
            intros (_ & l' & Hl' & _); cbn [snd] in Hl'; congruence
         |intros r k [->|Hr]%elem_of_cons Hd Hk; [destruct Hd as (_ & l' & Hl' & _); cbn [snd] in Hl'; congruence|by eauto]]).
  apply bind_Ok_inv in H as (chain & Hc & H).
  assert (describes record (agent, chain)) as Hd by (split; [done|by exists chain_list]).
  case_bool_decide as Hs.
  - destruct (IH _ _ H) as (H1 & H2 & H3). split_and!; [done| |].
    + intros c Hin. destruct (H2 c Hin) as [Hns Hnew]. split; [done|]. apply newest_of_cons; [|done].
      intros Hdc. rewrite (describes_unique _ _ _ Hdc Hd) in Hns. done.
    + intros r k [->|Hr]%elem_of_cons Hdk Hk; [|by eauto]. by rewrite (describes_unique _ _ _ Hdk Hd) in Hk.
  - apply bind_Ok_inv in H as (rest & Hrest & [= <-]). destruct (IH _ _ Hrest) as (H1 & H2 & H3).
    rewrite fmap_cons. change (chain_key (mkChainRow at_ record agent chain)) with (agent, chain). split_and!.
    + constructor; [|done]. intros (c & E & Hin)%list_elem_of_fmap. destruct (H2 c Hin) as [Hns _].
      rewrite <- E in Hns. apply Hns. by left.
    + intros c [->|Hin]%elem_of_cons.
      * split; [done|]. exists 0%nat. split; [done|]. split; [done|]. intros; lia.
      * destruct (H2 c Hin) as [Hns Hnew]. split; [intros ?; apply Hns; by right|].
        apply newest_of_cons; [|done]. intros Hdc. apply Hns. rewrite (describes_unique _ _ _ Hdc Hd). by left.
    + intros r k [->|Hr]%elem_of_cons Hdk Hk.
      * rewrite (describes_unique _ _ _ Hdk Hd). by left.
      * destruct (decide (k = (agent, chain))) as [->|Hne]; [by left|]. right. apply (H3 r); [done..|].
        intros [?|?]%elem_of_cons; done.
Qed.

(** ** Generations *)
Definition root_of (n : TreeNode) : option pystr := head (tn_block_ids n).

(** After a scan each root has the time it was last seen, and only roots have one. *)
Definition scanned (nodes : list TreeNode) (latest : list (pystr * Z)) : Prop :=
  NoDup latest.*1
  ∧ (∀ n r, n ∈ nodes → root_of n = Some r → 0 < tn_last_seen n →
       ∃ t, dict_find latest r = Some t ∧ tn_last_seen n <= t)
  ∧ (∀ r t, dict_find latest r = Some t → ∃ n, n ∈ nodes ∧ root_of n = Some r ∧ tn_last_seen n = t).

Lemma see_generation_scanned nodes latest n :
  scanned nodes latest → scanned (nodes ++ [n]) (see_generation latest n).
Proof.
  intros (Hn & H1 & H2). unfold see_generation.
  assert (∀ m, m ∈ nodes → m ∈ nodes ++ [n]) as Hin by (intros; apply elem_of_app; by left).
  assert (n ∈ nodes ++ [n]) as Hn' by (apply elem_of_app; right; by apply list_elem_of_singleton).
  destruct (tn_block_ids n) as [|root rest] eqn:Eb.
  { split_and!; [done| |intros r t Hf; destruct (H2 r t Hf) as (m & ? & ?); by exists m; eauto].
    intros m r [Hm|E%list_elem_of_singleton]%elem_of_app Hr; [by eauto|]. subst m. unfold root_of in Hr. by rewrite Eb in Hr. }
  assert (root_of n = Some root) as Er by (unfold root_of; by rewrite Eb).
  destruct (Z.ltb_spec (default _EPOCH (dict_find latest root)) (tn_last_seen n)) as [Hlt|Hge].
  - split; [by apply dict_put_NoDup|]. split.
    + intros m r Hm Hr Hpos. rewrite dict_find_put. apply elem_of_app in Hm as [Hm|E%list_elem_of_singleton].
      * destruct (H1 m r Hm Hr Hpos) as (t & Ht & Hle). destruct (decide (root = r)) as [->|]; [|by eauto].
        rewrite Ht in Hlt. simpl in Hlt. eexists. split; [done|lia].
      * subst m. rewrite Er in Hr. injection Hr as ->. rewrite decide_True by done. eexists. split; [done|lia].
    + intros r t. rewrite dict_find_put. destruct (decide (root = r)) as [->|].
      * intros [= <-]. by exists n.
      * intros Hf. destruct (H2 r t Hf) as (m & ? & ?). exists m. eauto.
  - split; [done|]. split; [|intros r t Hf; destruct (H2 r t Hf) as (m & ? & ?); by exists m; eauto].
    intros m r [Hm|E%list_elem_of_singleton]%elem_of_app Hr Hpos; [by eauto|]. subst m. rewrite Er in Hr. injection Hr as ->.
    destruct (dict_find latest r) as [t|]; simpl in Hge; [by exists t|unfold _EPOCH in Hge; lia].
Qed.

Lemma generations_scanned nodes : scanned nodes (foldl see_generation [] nodes).
Proof.
  induction nodes as [|n nodes IH] using rev_ind; [|rewrite foldl_app; by apply see_generation_scanned].
  split_and!; [constructor|by intros ? ? ?%elem_of_nil|done].
Qed.

Lemma latest_root_spec best l :
  ∃ t, (latest_root best l, t) ∈ best :: l ∧ ∀ p, p ∈ best :: l → p.2 <= t.
Proof.
  revert best. induction l as [|p l IH]; intros best; simpl.
  - exists best.2. split; [destruct best; by left|]. intros q E%list_elem_of_singleton. by subst.
  - destruct (IH (if best.2 <? p.2 then p else best)) as (t & Hin & Hmax). exists t. split.
    + apply elem_of_cons in Hin as [E|Hin]; [|by do 2 right]. rewrite E.
      destruct (best.2 <? p.2); [right|]; by left.
    + pose proof (Hmax _ ltac:(by left)) as Hb. intros q [->|[->|Hq]%elem_of_cons]%elem_of_cons.
      * destruct (Z.ltb_spec best.2 p.2); simpl in Hb; lia.
      * destruct (Z.ltb_spec best.2 p.2); simpl in Hb; lia.
      * apply Hmax. by right.
Qed.

(** A node belongs to a generation when its chain starts with the root, or is not known. *)
Definition of_generation (root : pystr) (n : TreeNode) : Prop :=
  root_of n = None ∨ root_of n = Some root.
#[global] Instance of_generation_dec root n : Decision (of_generation root n).
Proof. unfold of_generation. apply _. Defined.

(** What is kept: every node of the root last seen, and every node without a chain. *)
Definition keeps_newest (nodes kept : list TreeNode) : Prop :=
  (kept ≡ₚ nodes ∧ ∀ n, n ∈ nodes → root_of n = None)
  ∨ ∃ root newest, kept ≡ₚ filter (of_generation root) nodes
      ∧ newest ∈ nodes ∧ root_of newest = Some root
      ∧ ∀ n, n ∈ nodes → is_Some (root_of n) → tn_last_seen n <= tn_last_seen newest.

#[global] Instance keeps_newest_proper : Proper ((≡ₚ) ==> (≡ₚ) ==> iff) keeps_newest.
Proof.
  intros l1 l2 El k1 k2 Ek. unfold keeps_newest.
  by setoid_rewrite Ek; setoid_rewrite El.
Qed.

Lemma current_generation_spec nodes :
  (∀ n, n ∈ nodes → 0 < tn_last_seen n) → keeps_newest nodes (_current_generation nodes).
Proof.
  intros Hpos. unfold _current_generation. destruct (generations_scanned nodes) as (Hn & H1 & H2).
  destruct (foldl see_generation [] nodes) as [|p l] eqn:El.
  { left. split; [done|]. intros n Hin. destruct (root_of n) as [r|] eqn:Hr; [|done].
    by destruct (H1 n r Hin Hr (Hpos n Hin)) as (t & Ht & _). }
  destruct (latest_root_spec p l) as (t & Hin & Hmax). set (c := latest_root p l) in *.
  apply (dict_find_elem _ _ _ Hn) in Hin as Hc. destruct (H2 c t Hc) as (m & Hm & Hr & Hs).
  right. exists c, m. split_and!; [|done..|].
  - erewrite list_filter_iff; [done|]. intros n. unfold of_generation, root_of.
    destruct (tn_block_ids n) as [|r rest]; simpl; [by split; [left|]|].
    rewrite bool_decide_eq_true. split; [intros ->; by right|intros [?|[= ->]]; done].
  - intros n Hin' [r Hr']. destruct (H1 n r Hin' Hr' (Hpos n Hin')) as (t' & Ht' & Hle).
    apply (dict_find_elem _ _ _ Hn) in Ht'. pose proof (Hmax _ Ht') as Hm'. simpl in Hm'. lia.
Qed.

(** ** The tree *)
Lemma insert_node_perm n l : insert_node n l ≡ₚ n :: l.
Proof. induction l as [|m l IH]; simpl; [done|]. destruct (decide _); [done|]. rewrite IH. apply Permutation_swap. Qed.
Lemma sort_nodes_perm l : sort_nodes l ≡ₚ l.
Proof. induction l as [|n l IH]; simpl; [done|]. by rewrite insert_node_perm, IH. Qed.

Lemma elem_of_sorted_nodes n l : n ∈ sort_nodes l ↔ n ∈ l.
Proof. by rewrite sort_nodes_perm. Qed.

(** Shallow first, and by name. *)
Lemma sort_nodes_sorted l : Sorted node_le (sort_nodes l).
Proof.
  induction l as [|n l IH]; simpl; [constructor|]. induction IH as [|m k Hk IHk Hd]; simpl; [by repeat constructor|].
  destruct (decide (node_le n m)) as [|Hn]; [constructor; by constructor|].
  assert (node_le m n) as Hm.
  { unfold node_le in *. destruct (Z.lt_trichotomy (tn_depth n) (tn_depth m)) as [H|[H|H]]; [tauto| |by left].
    right. split; [done|]. destruct (total pystr_le (tn_agent_id n) (tn_agent_id m)); tauto. }
  constructor; [done|]. destruct k as [|m' k]; simpl in *; [by constructor|].
  destruct (decide (node_le n m')); constructor; [done|]. by inversion Hd.
Qed.


(** A node is read off a record. *)
Record node_reads (rv : revocations_db) (c : chain_row) (n : TreeNode) : Prop := {
  nr_key : (tn_agent_id n, tn_block_ids n) = chain_key c;
  nr_seen : tn_last_seen n = cr_created_at c;
  nr_depth : depth_of (cr_record c) = Ok (tn_depth n);
  nr_scopes : scopes_of (cr_record c) = Ok (tn_scopes n);
  nr_revoked : tn_revoked n = true ↔ ∃ b, b ∈ tn_block_ids n ∧ is_Some (rv_rows rv !! b) }.

Lemma revocation_of_spec rv chain :
  is_Some (revocation_of rv chain) ↔ ∃ b, b ∈ chain ∧ is_Some (rv_rows rv !! b).
Proof.
  unfold revocation_of. rewrite fmap_is_Some. induction chain as [|b chain IH]; simpl.
  - split; [by intros [? ?]|]. by intros (b & ?%elem_of_nil & _).
  - destruct (rv_rows rv !! b) as [row|] eqn:E; simpl.
    + split; [|done]. intros _. exists b. split; [by left|by rewrite E].
    + rewrite IH. split; intros (x & Hx & Hr); exists x; (split; [|done]).
      * by right.
      * apply elem_of_cons in Hx as [->|]; [|done]. rewrite E in Hr. by destruct Hr.
Qed.

Lemma node_of_reads task_id rv pending spent ledger c n :
  node_of task_id rv pending spent ledger c = Ok n → node_reads rv c n.
Proof.
  unfold node_of. intros (scopes & Hs & H)%bind_Ok_inv. apply bind_Ok_inv in H as (budget & _ & H).
  apply bind_Ok_inv in H as (role & _ & H). apply bind_Ok_inv in H as (depth & Hd & H).
  do 3 apply bind_Ok_inv in H as (? & _ & H). apply Ok_inj in H. subst n.
  split; [done|done|done|done|]. cbn [tn_revoked tn_block_ids]. rewrite <- revocation_of_spec.
  destruct (revocation_of rv (cr_chain c)); split; (done || by intros [? ?]).
Qed.

(** C36: The tree has a node for each agent and chain the task's records name, read off the
    newest record for it, in particular its depth, the scopes its token carries rather than
    the one it asked for, and revoked exactly when a block of its chain is in the table.
    Without superseded generations it keeps, when any node has a chain, every node whose
    chain starts with one root block, that of a node no other was seen after, together with
    every node without a chain, and nothing else; sorted by depth and name. *)
Theorem tree_is_newest t task_id now records all nodes :
  task_records (tt_chain t) task_id = Ok records → Forall (λ r : Z * list (pystr * value), 0 < r.1) records →
  build_tree t task_id now true = Ok all → build_tree t task_id now false = Ok nodes →
  (∃ kept, NoDup (chain_key <$> kept) ∧ Forall (newest_of records) kept
     ∧ (∀ r k, r ∈ records → describes r.2 k → k ∈ (chain_key <$> kept))
     ∧ ∃ read, all ≡ₚ read ∧ Forall2 (node_reads (tt_revocations t)) kept read)
  ∧ keeps_newest all nodes ∧ Sorted node_le nodes.
Proof.
  intros Hrec Hpos. unfold build_tree. rewrite Hrec. cbn [mbind res_bind].
  destruct records as [|r0 records']; [|set (records := r0 :: records') in *].
  { intros [= <-] [= <-]. split; [|split; [left; split; [done|by intros ? ?%elem_of_nil]|constructor]].
    exists []. split_and!; [constructor|constructor|by intros ? ? ?%elem_of_nil|].
    exists []. split; [done|constructor]. }
  intros (kept & Hk & H)%bind_Ok_inv. rewrite Hk. cbn [mbind res_bind].
  apply bind_Ok_inv in H as (ledger & -> & H). cbn [mbind res_bind].
  apply bind_Ok_inv in H as (spent & -> & H). cbn [mbind res_bind].
  apply bind_Ok_inv in H as (read & Hread & H). rewrite Hread. cbn [mbind res_bind]. apply Ok_inj in H. subst all.
  intros H. apply Ok_inj in H. subst nodes.
  destruct (latest_records_spec _ _ _ Hk) as (H1 & H2 & H3). pose proof (res_map_Forall2 _ _ _ Hread) as HF.
  assert (Forall2 (node_reads (tt_revocations t)) kept read) as HR.
  { eapply Forall2_impl; [exact HF|]. intros c n. apply node_of_reads. }
  assert (∀ n, n ∈ read → 0 < tn_last_seen n) as Hseen.
  { intros n Hn. apply list_elem_of_lookup in Hn as [i Hi].
    destruct (Forall2_lookup_r _ _ _ _ _ HR Hi) as (c & Hc & [_ -> _ _ _]).
    destruct (H2 c) as [_ (j & Hj & _)]; [by eapply list_elem_of_lookup_2|].
    rewrite Forall_forall in Hpos. apply (Hpos (cr_created_at c, cr_record c)). by eapply list_elem_of_lookup_2. }
  split.
  { exists kept. split; [done|]. split; [apply Forall_forall; intros c Hc; by apply H2|].
    split; [intros r k Hr Hd; apply (H3 r); [done..|apply not_elem_of_nil]|].
    exists read. split; [apply sort_nodes_perm|done]. }
  split; [|apply sort_nodes_sorted]. rewrite !sort_nodes_perm. by apply current_generation_spec.
Qed.

End tree_spec.

(** ** A concrete task *)
#[local] Existing Instance identity_unicode.
#[local] Existing Instance position_order.
#[local] Existing Instance toy_repr.
#[local] Instance table_order : SqlOrder := {| sql_order l := l; sql_order_perm l := Permutation_refl l |}.

Definition tree_record (i : uuid) (agent : string) (depth : Z) (chain : list string) (scopes : list string)
    : uuid * value :=
  (i, VMap [(u "task_id", VStr (uuid_text 7)); (u "agent_id", VStr (u agent)); (u "depth", VInt depth);
            (u "token_chain_ids", VSeq ((λ b, VStr (u b)) <$> chain));
            (u "budget_before", VMap [(u "spend_bdt", VStr (u "100.0000"))]);
            (u "budget_after", VMap [(u "spend_bdt", VStr (u "60.0000"))]);
            (u "authority", VMap [(u "scopes", VSeq ((λ s, VStr (u s)) <$> scopes));
                                  (u "ceilings", VMap [(u "spend_bdt", VStr (u "100.0000"))])])]).

(** Two mintings: a root and a child, then a fresh root. *)
Definition old_minting : list (uuid * value) :=
  [tree_record 1 "root" 0 ["a0"] ["pay"; "read"]; tree_record 2 "reader" 1 ["a0"; "a1"] ["read"]].
Definition tables_of (chain : chain_db) (revoked : gmap pystr RevocationRow) : tree_tables :=
  mkTables chain empty_db (mkRevocations revoked ∅ 1) ∅.
Definition one_minting : tree_tables := tables_of (append empty_chain old_minting 5).2 ∅.
Definition two_mintings : tree_tables :=
  tables_of (append (append empty_chain old_minting 5).2 [tree_record 3 "root" 0 ["b0"] ["pay"]] 9).2
    {[ u "a1" := mkRevocation 1 1 (u "a1") (u "token") (u "leaked") (u "amy") 0 0 ]}.

Definition brief (n : TreeNode) : pystr * Z * list pystr * list pystr * bool :=
  (tn_agent_id n, tn_depth n, tn_block_ids n, tn_scopes n, tn_revoked n).

(** All of them, and the current one; the reader shows what its token carries. *)
Example two_generations :
  ((λ ns : list TreeNode, brief <$> ns) <$> build_tree two_mintings 7 0 true)
  = Ok [(u "root", 0, [u "b0"], [u "pay"], false); (u "root", 0, [u "a0"], [u "pay"; u "read"], false);
        (u "reader", 1, [u "a0"; u "a1"], [u "read"], true)]
  ∧ ((λ ns : list TreeNode, brief <$> ns) <$> build_tree two_mintings 7 0 false) = Ok [(u "root", 0, [u "b0"], [u "pay"], false)].
Proof. by vm_compute. Qed.

(** A ceiling of 100, of which the agent's two records spent 40 each. *)
Example what_is_left :
  ((λ ns, tn_budget <$> head ns) <$> build_tree two_mintings 7 0 false)
  = Ok (Some [mkTreeBudget (u "spend_bdt") (Dec 1000000 (-4)) (Dec 200000 (-4))]).
Proof. by vm_compute. Qed.

Lemma tree_is_newest_witness :
  ∃ records all nodes,
  task_records (tt_chain two_mintings) 7 = Ok records ∧
  build_tree two_mintings 7 0 true = Ok all ∧ build_tree two_mintings 7 0 false = Ok nodes ∧
  keeps_newest all nodes.
Proof.
  assert (is_ok (task_records (tt_chain two_mintings) 7) = true) as Hr by (vm_compute; reflexivity).
  apply is_ok_Ok in Hr as [records Hr].
  assert (is_ok (build_tree two_mintings 7 0 true) = true) as Ha by (vm_compute; reflexivity).
  apply is_ok_Ok in Ha as [all Ha].
  assert (is_ok (build_tree two_mintings 7 0 false) = true) as Hn by (vm_compute; reflexivity).
  apply is_ok_Ok in Hn as [nodes Hn].
  exists records, all, nodes. do 3 (split; [assumption|]).
  assert (Forall (λ r : Z * list (pystr * value), 0 < r.1) records) as Hp.
  { assert ((forallb (λ r, 0 <? r.1) <$> task_records (tt_chain two_mintings) 7) = Ok true) as H by (vm_compute; reflexivity).
    rewrite Hr in H. apply Ok_inj in H. apply Forall_forall. intros r Hin.
    rewrite forallb_forall in H. apply Z.ltb_lt, H. by apply list_elem_of_In. }
  exact (proj1 (proj2 (tree_is_newest two_mintings 7 0 records all nodes Hr Hp Ha Hn))).
Defined.

Lemma tree_stream_tracks_witness :
  ∃ first s0 frames s,
  tree_open one_minting 7 0 = Ok (first, s0) ∧ watch 7 s0 [(two_mintings, 1)] = Ok (frames, s) ∧
  ∃ nodes, build_tree two_mintings 7 1 false = Ok nodes ∧ tracks (foldl client_step [] (first :: frames)) nodes.
Proof.
  assert (is_ok (p ← tree_open one_minting 7 0; watch 7 p.2 [(two_mintings, 1%Z)]) = true) as H
    by (vm_compute; reflexivity).
  apply is_ok_Ok in H as [[frames s] H]. apply bind_Ok_inv in H as ([first s0] & Ho & Hw). exists first, s0, frames, s.
  do 2 (split; [assumption|]).
  exact (tree_stream_tracks one_minting 7 0 first s0 [] two_mintings 1 frames s Ho Hw).
Defined.

(** The frames of that run: the old nodes go, the new root comes. *)
Definition briefs (ns : list TreeNode) : list (pystr * Z * list pystr * list pystr * bool) := brief <$> ns.
Definition brief_frame (fr : tree_frame) :=
  match fr with
  | TDiff d => (briefs (td_added d), briefs (td_changed d), briefs (td_removed d))
  | TSnapshot ns => (briefs ns, [], [])
  | THeartbeat => ([], [], [])
  end.

Example one_difference :
  match tree_open one_minting 7 0 with
  | Ok (_, s) => (λ q : list tree_frame * tree_stream, brief_frame <$> q.1) <$> watch 7 s [(one_minting, 1); (two_mintings, 2)]
  | Raise e => Raise e
  end
  = Ok [([(u "root", 0, [u "b0"], [u "pay"], false)], [],
         [(u "root", 0, [u "a0"], [u "pay"; u "read"], false); (u "reader", 1, [u "a0"; u "a1"], [u "read"], false)])].
Proof. by vm_compute. Qed.
