(* ===== verification/OperationsSpec.v ===== *)
(** * What the operator's scripts promise

    The checker's exit code says whether a violation was printed, and on a ledger no history
    can make it say so; the verification command is green exactly on an untampered chain,
    through any interleaving of appends, edits and restorations; and two ways in which an
    exit code says something other than what happened. *)
From S2P Require Import Prelude PyText Errors PyNum PyFloat PyTime PyUuid PySha PyRe Models Ledger Books LedgerSpec Hashing HashingSpec AuditChain AuditSpec Tamper Reports Operations.

(** ** The invariant checker *)
Definition violating (l : checker_line) : bool :=
  match l with Printed r => negb (holds r) | Warned _ => false end.

Lemma checker_loop_code args sweeps : ∀ ever stopped n,
  (checker_loop args ever stopped sweeps).2 = Some (Ok n) →
  n = if ever || existsb violating (checker_loop args ever stopped sweeps).1 then 1 else 0.
Proof.
  induction sweeps as [|[[r|e] stop] rest IH]; intros ever [] n; cbn [checker_loop]; try done;
    try (intros [= <-]; by rewrite orb_false_r).
  - unfold say. cbn [fst snd]. set (ever' := ever || negb (holds r)).
    assert (Hp : existsb violating (if ca_as_json args || negb (ca_quiet args && holds r) then [Printed r] else [])
                 = negb (holds r)).
    { destruct (holds r) eqn:Hh, (ca_as_json args), (ca_quiet args); simpl; by rewrite ?Hh. }
    rewrite existsb_app, Hp, orb_assoc. fold ever'.
    destruct (ca_fail_fast args && _); [intros [= <-]; by rewrite orb_false_r|].
    destruct (ca_once args); [intros [= <-]; by rewrite orb_false_r|]. apply IH.
  - destruct (is_outage e); [|done]. unfold say. cbn [fst snd]. rewrite existsb_app. cbn [existsb violating orb].
    destruct (ca_once args); [intros [= <-]; by rewrite orb_false_r|]. apply IH.
Qed.

(** The exit code is 1 exactly when a violation was printed, whatever came after it. *)
Theorem checker_exit args sweeps n :
  (checker_run args sweeps).2 = Some (Ok n) →
  n = if existsb violating (checker_run args sweeps).1 then 1 else 0.
Proof. apply checker_loop_code. Qed.

(** With [--fail-fast] nothing is looked at after the first violation. *)
Theorem fail_fast_stops args sweeps lines l rest :
  ca_fail_fast args = true → (checker_run args sweeps).1 = lines ++ l :: rest →
  violating l = true → rest = [] ∧ (checker_run args sweeps).2 = Some (Ok 1).
Proof.
  intros Hf. unfold checker_run. generalize false at 1 3 as ever. generalize false as stopped.
  revert lines. induction sweeps as [|[[r|e] stop] more IH]; intros lines [] ever; cbn [checker_loop];
    try (by destruct lines).
  - rewrite Hf. unfold say. cbn [fst snd andb].
    destruct (holds r) eqn:Hh; cbn [negb].
    + rewrite andb_true_r, orb_false_r. destruct (ca_once args).
      { rewrite app_nil_r. intros Hl Hv. destruct (_ || _), lines as [|? [|]]; try done.
        injection Hl as <- <-. simpl in Hv. by rewrite Hh in Hv. }
      destruct (_ || _); [|apply IH]. destruct lines as [|x lines]; simpl; intros Hl Hv.
      { injection Hl as <- _. simpl in Hv. by rewrite Hh in Hv. }
      injection Hl as _ Hl. by apply (IH lines stop ever).
    + rewrite andb_false_r. cbn [negb]. rewrite !orb_true_r, app_nil_r.
      intros Hl _. destruct lines as [|? [|]]; try done. by injection Hl as _ <-.
  - destruct (is_outage e); [|by destruct lines]. unfold say. cbn [fst snd app].
    destruct lines as [|x lines]; intros Hl Hv; [by injection Hl as <- _|].
    injection Hl as _ Hl. destruct (ca_once args); [by destruct lines|]. by apply (IH lines stop ever).
Qed.

(** Sweeps of a ledger as it runs: each sees the tables some history made, or an outage. *)
Definition of_a_ledger (s : sweep_outcome * bool) : Prop :=
  match s.1 with
  | Reported r => ∃ ops, r = check_in_session (run_ops empty_db ops)
  | SweepRaised e => is_outage e = true
  end.

(** On a ledger that only its own operations write, the checker never prints a violation
    and, however it ends, ends with 0. *)
Theorem checker_stays_green args sweeps :
  Forall of_a_ledger sweeps →
  existsb violating (checker_run args sweeps).1 = false
  ∧ ∀ o, (checker_run args sweeps).2 = Some o → o = Ok 0.
Proof.
  unfold checker_run. generalize false at 2 5 as stopped. intros stopped H. revert stopped.
  induction H as [|[[r|e] stop] rest Hs _ IH]; intros []; cbn [checker_loop]; 
    try (split; [done|]; intros o [= <-]; done); try (split; [done|]; intros o [=]).
  - destruct Hs as [ops ->].
    assert (holds (check_in_session (run_ops empty_db ops)) = true) as Hh.
    { apply checker_iff. intros k b. apply books_row, run_ops_books, books_empty. }
    unfold say. cbn [fst snd]. rewrite Hh, andb_false_r. cbn [negb orb].
    rewrite existsb_app.
    assert (existsb violating (if ca_as_json args || negb (ca_quiet args && true)
              then [Printed (check_in_session (run_ops empty_db ops))] else []) = false) as ->.
    { destruct (_ || _); simpl; by rewrite ?Hh. }
    destruct (ca_once args); [split; [done|]; intros o [= <-]; done|apply IH].
  - cbn in Hs. rewrite Hs. unfold say. cbn [fst snd]. rewrite existsb_app. cbn [existsb violating orb].
    destruct (ca_once args); [split; [done|]; intros o [= <-]; done|apply IH].
Qed.

(** [--once] on a database that is down: nothing was looked at, and the exit code is the one
    for a ledger that holds. *)
Theorem once_outage_is_green e stop rest args :
  ca_once args = true → is_outage e = true →
  checker_run args ((SweepRaised e, stop) :: rest) = ([Warned e], Some (Ok 0)).
Proof. intros Ho He. unfold checker_run. cbn [checker_loop]. by rewrite He, Ho. Qed.

(** ** Editing a field of a record *)
Section records.
Context {UN : Unicode} {ST : SortTies}.

(** A value that has canonical bytes. *)
Definition plain (v : value) : Prop := ∃ t, _encode v = Ok t ∧ forallb is_scalar t = true.

Lemma hash_object_plain v : is_ok (hash_object v) = true ↔ plain v.
Proof.
  unfold hash_object, canonical_json, plain, utf8_encode. destruct (_encode v) as [t|]; cbn.
  - destruct (forallb is_scalar t) eqn:E; cbn; split; try done; [by exists t|].
    intros (? & [= <-] & ?). congruence.
  - split; [done|]. by intros (? & ? & _).
Qed.

Lemma forallb_join (p : Z → bool) sep l :
  forallb p sep = true → forallb p (py_join sep l) = forallb (forallb p) l.
Proof.
  intros Hs. induction l as [|a [|b l] IH]; [done|simpl; by rewrite andb_true_r|].
  change (py_join sep (a :: b :: l)) with (a ++ sep ++ py_join sep (b :: l)).
  rewrite !forallb_app, IH, Hs. done.
Qed.

Definition plain_field (kv : pystr * value) : Prop :=
  forallb is_scalar (_encode_str (_normalize kv.1)) = true ∧ plain kv.2.

Lemma fields_plain (kvs : list (pystr * value)) :
  (∃ fields, res_map field_text (encoded <$> kvs) = Ok fields
             ∧ forallb (forallb is_scalar) fields = true) ↔ Forall plain_field kvs.
Proof.
  induction kvs as [|kv kvs IH]; [split; [constructor|by exists []]|].
  rewrite Forall_cons, <- IH, fmap_cons. clear IH. unfold plain_field, plain.
  cbn [res_map]. split.
  - intros (fields & Hf & Hp). apply bind_Ok_inv in Hf as (f & Hf & Hr).
    apply bind_Ok_inv in Hf as (e & He & Hf). apply bind_Ok_inv in Hr as (fs & Hfs & Hr).
    apply Ok_inj in Hf, Hr. subst f fields. cbn [forallb] in Hp. rewrite !forallb_app in Hp.
    apply andb_prop in Hp as [[Hk [_ Hv]%andb_prop]%andb_prop Hp]. eauto 10.
  - intros [[Hk (e & He & Hv)] (fs & Hfs & Hp)]. 
    assert (field_text (encoded kv) = Ok (_encode_str (_normalize kv.1) ++ u ":" ++ e)) as ->
      by (unfold field_text, encoded; cbn [fst snd]; by rewrite He).
    cbn [mbind res_bind]. rewrite Hfs. cbn [mbind res_bind]. eexists. split; [done|]. cbn [forallb].
    by rewrite !forallb_app, Hk, Hv, Hp.
Qed.

Lemma plain_map kvs : NoDup (_normalize <$> kvs.*1) → plain (VMap kvs) ↔ Forall plain_field kvs.
Proof.
  intros Hnd. unfold plain. rewrite encode_map, sorted_items_nodup by done. cbn [mbind res_bind].
  rewrite <- fields_plain.
  assert (Hp : encoded <$> kvs ≡ₚ merge_sort key_le (encoded <$> kvs)) by (symmetry; apply merge_sort_Permutation).
  split.
  - intros (t & Ht & Hs). apply bind_Ok_inv in Ht as (fs & Hf & Ht). apply Ok_inj in Ht. subst t.
    rewrite !forallb_app, forallb_join in Hs by done. apply andb_prop in Hs as [_ [Hs _]%andb_prop].
    destruct (res_map_perm _ _ _ _ (symmetry Hp) Hf) as (fs' & Hf' & Hpf). exists fs'.
    split; [done|]. by apply (forallb_perm _ fs).
  - intros (fs & Hf & Hs). destruct (res_map_perm _ _ _ _ Hp Hf) as (fs' & -> & Hpf).
    cbn [mbind res_bind]. eexists. split; [done|].
    rewrite !forallb_app, forallb_join, (forallb_perm _ fs) by done. done.
Qed.

Lemma plain_link prev r :
  hex_link prev → json_ok r = true → is_ok (chain_hash prev r) = true → plain r.
Proof.
  intros Hp Hj Hc. apply hash_object_plain, plain_map in Hc.
  - by apply Forall_cons in Hc as [_ [[_ ?] _]%Forall_cons].
  - pose proof (chain_value_ok prev r Hp Hj) as Hv. cbn [json_ok] in Hv.
    by apply andb_prop in Hv as [_ ?%bool_decide_eq_true].
Qed.

Definition is_ascii (c : Z) : bool := (0 <=? c) && (c <? 128).

Lemma ascii_plain s : forallb is_ascii s = true → forallb is_scalar (_encode_str s) = true.
Proof.
  intros Hs. unfold _encode_str. rewrite _normalize_ascii by done. cbn [forallb].
  rewrite forallb_app. cbn [forallb]. rewrite andb_true_r.
  change (is_scalar dquote) with true. cbn [andb].
  induction s as [|c s IH]; [done|]. cbn [forallb] in Hs. apply andb_prop in Hs as [Hc Hs].
  rewrite bind_cons, forallb_app. apply andb_true_iff. split; [|by apply IH].
  assert (Hall : forallb (λ c, forallb is_scalar (escape_char c)) (seqZ 0 128) = true) by (vm_compute; reflexivity).
  rewrite forallb_forall in Hall. apply Hall, list_elem_of_In, elem_of_seqZ.
  unfold is_ascii in Hc. zify_bool. lia.
Qed.

Lemma ascii_code s : forallb is_ascii s = true → forallb is_code s = true.
Proof.
  rewrite !forallb_forall. intros H c Hc. specialize (H c Hc). unfold is_ascii, is_code in *.
  zify_bool. rewrite andb_true_iff; split; zify_bool; lia.
Qed.

Lemma ascii_key key v :
  forallb is_ascii (u key) = true → plain_field (u key, v) ↔ plain v.
Proof.
  intros Hk. unfold plain_field. cbn [fst snd]. rewrite _normalize_ascii, ascii_plain by done. tauto.
Qed.

Lemma ascii_str s : forallb is_ascii s = true → plain (VStr s).
Proof. intros Hs. eexists. split; [done|]. by apply ascii_plain. Qed.

Lemma link_plain prev r :
  hex_link prev → json_ok r = true → plain r → is_ok (chain_hash prev r) = true.
Proof.
  intros Hp Hj Hr. pose proof (chain_value_ok prev r Hp Hj) as Hv. cbn [json_ok] in Hv.
  apply andb_prop in Hv as [_ Hnd%bool_decide_eq_true].
  unfold chain_hash. apply hash_object_plain, plain_map; [done|].
  constructor; [|constructor; [by apply ascii_key|constructor]].
  apply ascii_key; [done|]. destruct prev as [h|]; [by apply ascii_str, hex_ascii|].
  by exists (u "null").
Qed.

(** ** Setting a field *)
Definition distinct (kvs : list (pystr * value)) : Prop := NoDup (_normalize <$> kvs.*1).

Lemma distinct_field kvs i j key a b :
  distinct kvs → kvs !! i = Some (key, a) → kvs !! j = Some (key, b) → i = j.
Proof.
  intros Hd Hi Hj. apply (NoDup_lookup _ i j (_normalize key) Hd);
    by rewrite !list_lookup_fmap, ?Hi, ?Hj.
Qed.

Lemma record_field_at kvs key v :
  distinct kvs → record_field key (VMap kvs) = Some v ↔ ∃ i, kvs !! i = Some (u key, v).
Proof.
  intros Hd. unfold record_field. destruct (list_find _ kvs) as [[i [k w]]|] eqn:E.
  - apply list_find_Some in E as (Hi & Hk & _). cbn [fst] in Hk. subst k. cbn [snd]. split.
    + intros [= <-]. by exists i.
    + intros [j Hj]. pose proof (distinct_field _ _ _ _ _ _ Hd Hi Hj) as <-. congruence.
  - split; [done|]. intros [j Hj]. apply list_find_None in E. rewrite Forall_forall in E.
    by destruct (E (u key, v) (list_elem_of_lookup_2 _ _ _ Hj)).
Qed.

Lemma keys_set kvs i (key : pystr) (v w : value) :
  kvs !! i = Some (key, w) → (<[i := (key, v)]> kvs).*1 = kvs.*1.
Proof.
  intros Hi. rewrite list_fmap_insert. cbn [fst]. apply list_insert_id.
  by rewrite list_lookup_fmap, Hi.
Qed.

(** A field that is there is replaced where it is. *)
Lemma jsonb_set_there r key old v :
  json_ok r = true → record_field key r = Some old →
  ∃ kvs i, r = VMap kvs ∧ distinct kvs ∧ kvs !! i = Some (u key, old)
    ∧ jsonb_set r key v = VMap (<[i := (u key, v)]> kvs).
Proof.
  intros Hj Hf. destruct r as [| | | | | | | | | |kvs| | |]; try done. cbn [json_ok] in Hj.
  apply andb_prop in Hj as [_ Hd%bool_decide_eq_true]. pose proof Hf as Hf'.
  unfold record_field in Hf'. destruct (list_find _ kvs) as [[i [k w]]|] eqn:E; [|done].
  pose proof E as (Hi & Hk & _)%list_find_Some. cbn [fst snd] in *. subst k. injection Hf' as ->.
  exists kvs, i. split_and!; [done..|]. cbn [jsonb_set]. by rewrite E.
Qed.

Lemma jsonb_set_ok r key old s :
  json_ok r = true → plain r → record_field key r = Some old →
  forallb is_ascii (u key) = true → forallb is_ascii s = true →
  let r' := jsonb_set r key (VStr s) in
  json_ok r' = true ∧ plain r' ∧ record_field key r' = Some (VStr s)
  ∧ ∀ key', u key' ≠ u key → record_field key' r' = record_field key' r.
Proof.
  intros Hj Hp Hf Hk Hs r'. subst r'.
  destruct (jsonb_set_there _ _ _ (VStr s) Hj Hf) as (kvs & i & -> & Hd & Hi & ->).
  assert (Hd' : distinct (<[i := (u key, VStr s)]> kvs)).
  { unfold distinct. by rewrite (keys_set _ _ _ _ _ Hi). }
  pose proof (lookup_lt_Some _ _ _ Hi) as Hlt. split_and!.
  - cbn [json_ok] in Hj |- *. apply andb_prop in Hj as [Hj _]. apply andb_true_iff.
    split; [|by apply bool_decide_eq_true].
    rewrite forallb_forall in Hj |- *. intros kv Hkv%list_elem_of_In.
    apply list_elem_of_lookup_1 in Hkv as [j [(_ & <- & _)|[_ Hkv]]%list_lookup_insert_Some];
      [|by apply Hj, list_elem_of_In, (list_elem_of_lookup_2 _ j)].
    cbn [fst snd json_ok]. apply andb_true_iff. split; [by apply ascii_code|by apply ascii_code].
  - apply plain_map in Hp; [|done]. apply plain_map; [done|]. apply Forall_insert; [done|].
    by apply ascii_key, ascii_str.
  - apply record_field_at; [done|]. exists i. by apply list_lookup_insert_eq.
  - intros key' Hne. apply option_eq. intros w. rewrite !record_field_at by done.
    apply exist_proper. intros j. destruct (decide (i = j)) as [<-|Hij].
    + rewrite list_lookup_insert_eq, Hi by done. split; intros [= E _]; by destruct Hne.
    + by rewrite list_lookup_insert_ne.
Qed.
End records.

(** ** The demonstration's edit *)
Section edit.
Context {UN : Unicode} {ST : SortTies} {JT : JsonbText}.

(** What a decision record is: JSON, with an outcome. *)
Definition auditable (r : value) : Prop := json_ok r = true ∧ is_Some (record_field "outcome" r).

Lemma same_fields l k key a b :
  same (VMap l) (VMap k) → record_field key (VMap l) = Some a → distinct k →
  record_field key (VMap k) = Some b → same a b.
Proof.
  intros Hs Ha Hk Hb. inversion Hs as [| | | | | | | |l' k0 k' Hd Hp HF| |]; subst.
  apply record_field_at in Ha as [i Hi]; [|done]. apply record_field_at in Hb as [j Hj]; [|done].
  destruct (Forall2_lookup_l _ _ _ _ _ HF Hi) as ([q w] & Hq & E & Hw). cbn [fst snd] in *.
  assert ((q, w) ∈ k) as [m Hm]%list_elem_of_lookup_1 by (rewrite <- Hp; by eapply list_elem_of_lookup_2).
  assert (m = j) as ->.
  { apply (NoDup_lookup _ m j (_normalize q) Hk); rewrite !list_lookup_fmap, ?Hm, ?Hj; cbn; congruence. }
  congruence.
Qed.

Lemma target_fields row :
  is_target row = true → ∃ v, record_field "reason_code" (record row) = Some v ∧ ¬ same v (VStr (u "OK")).
Proof.
  intros [_ Hr%bool_decide_eq_true]%andb_prop. unfold astext in Hr.
  destruct (record_field "reason_code" (record row)) as [v|]; [|done]. exists v. split; [done|].
  intros Hs. inversion Hs as [| | | |s t E| | | | | |]; subst. injection Hr as ->.
  by rewrite !_normalize_ascii in E.
Qed.

(** The edited record still hashes, and is not the record it was. *)
Lemma as_allow_spec row :
  auditable (record row) → plain (record row) → is_target row = true →
  json_ok (as_allow (record row)) = true ∧ plain (as_allow (record row))
  ∧ ¬ same (record row) (as_allow (record row)).
Proof.
  intros [Hj [o Ho]] Hp Ht. destruct (target_fields row Ht) as (v & Hv & Hne). unfold as_allow.
  destruct (jsonb_set_ok _ "outcome" _ (u "allow") Hj Hp Ho eq_refl eq_refl) as (Hj1 & Hp1 & _ & Hk).
  rewrite <- (Hk "reason_code"%string) in Hv by done. 
  destruct (jsonb_set_ok _ "reason_code" _ (u "OK") Hj1 Hp1 Hv eq_refl eq_refl) as (Hj2 & Hp2 & Hr & _).
  split_and!; [done..|]. intros Hs. rewrite (Hk "reason_code"%string) in Hv by done.
  destruct (record row) as [| | | | | | | | | |l| | |] eqn:E; try done.
  destruct (jsonb_set _ "reason_code" _) as [| | | | | | | | | |k| | |] eqn:E'; try done.
  apply Hne. eapply same_fields; [exact Hs|exact Hv| |exact Hr].
  cbn [json_ok] in Hj2. by apply andb_prop in Hj2 as [_ ?%bool_decide_eq_true].
Qed.

(** The edit is found, at the record it was made to. *)
Lemma edit_found db k row :
  chain_ok db → audit_records db !! k = Some row → auditable (record row) → is_target row = true →
  verify_chain (alter_record k (as_allow (record row)) db) = Ok (broken (k - 1) k RecordAltered)
  ∨ collide (link_value (prev_hash row) (record row))
      (link_value (prev_hash row) (as_allow (record row))).
Proof.
  intros Hok Hrow Ha Ht. destruct (chain_row _ _ _ Hok Hrow) as [Hx Hh].
  destruct (as_allow_spec row Ha) as (Hj & Hp & Hne); [|done|].
  { apply (plain_link (prev_hash row)); [done|apply Ha|]. by rewrite Hh. }
  pose proof (link_plain _ _ Hx Hj Hp) as Hc. rewrite (alter_verdict _ _ row) by done.
  destruct (chain_hash _ (as_allow _)) as [h|] eqn:Hh'; [|done]. cbn [mbind res_bind].
  case_bool_decide as E; [|by left]. right. subst h.
  by destruct (chain_hash_binds _ _ _ _ _ Hx Hx (proj1 Ha) Hj Hh Hh') as [[_ ?]|].
Qed.
End edit.

(** ** Appending beside an edit *)
Section beside.
Context {UN : Unicode} {ST : SortTies} {R : Type} {AR : AuditRecord R}.

Lemma altered_values (k : Z) r (m : gmap Z AuditRecordRow) (i : uuid) :
  (∃ j row, alter (with_record r) k m !! j = Some row ∧ row_decision_id row = i) ↔
  (∃ j row, m !! j = Some row ∧ row_decision_id row = i).
Proof.
  split.
  - intros (j & row & Hj & Hi). rewrite lookup_alter_Some in Hj.
    destruct Hj as [(-> & y & Hy & ->)|[_ Hj]]; eauto.
  - intros (j & row & Hj & Hi). destruct (decide (k = j)) as [<-|Hne].
    + exists k, (with_record r row). by rewrite lookup_alter_eq, Hj.
    + exists j, row. by rewrite lookup_alter_ne.
Qed.

Lemma elem_of_ids (m : gmap Z AuditRecordRow) i :
  i ∈ row_decision_id <$> (map_to_list m).*2 ↔ ∃ j row, m !! j = Some row ∧ row_decision_id row = i.
Proof.
  rewrite list_elem_of_fmap. setoid_rewrite list_elem_of_fmap. split.
  - intros (row & -> & [j row'] & -> & Hj%elem_of_map_to_list). eauto.
  - intros (j & row & Hj & <-). exists row. split; [done|]. exists (j, row). by rewrite elem_of_map_to_list.
Qed.

Lemma existing_ids_altered k r db records :
  existing_ids (alter_record k r db) records = existing_ids db records.
Proof.
  apply set_eq. intros i. unfold existing_ids, alter_record, update_row. cbn [audit_records].
  rewrite !elem_of_list_to_set, !list_elem_of_filter, !elem_of_ids, altered_values. done.
Qed.

Lemma ids_free (m : gmap Z AuditRecordRow) i :
  forallb (λ kv, negb (bool_decide (row_decision_id kv.2 = i))) (map_to_list m) = true ↔
  ¬ ∃ j row, m !! j = Some row ∧ row_decision_id row = i.
Proof.
  rewrite forallb_forall. split.
  - intros H (j & row & Hj & Hi). specialize (H (j, row)). cbn [snd] in H.
    rewrite bool_decide_true in H by done. by discriminate H; apply list_elem_of_In, elem_of_map_to_list.
  - intros H [j row] Hj%list_elem_of_In%elem_of_map_to_list. cbn [snd]. apply negb_true_iff, bool_decide_eq_false.
    intros Hi. apply H. eauto.
Qed.

Lemma insert_row_altered k r db row :
  is_Some (audit_records db !! k) →
  insert_row (alter_record k r db) row = (alter_record k r <$> insert_row db row).
Proof.
  intros [old Hk]. unfold insert_row.
  assert (row_constraints (alter_record k r db) row = row_constraints db row) as ->.
  { unfold row_constraints. do 4 f_equal. f_equal.
    - apply bool_decide_ext. cbn [alter_record update_row audit_records]. by rewrite lookup_alter_None.
    - apply Bool.eq_true_iff_eq. rewrite !ids_free. cbn [alter_record update_row audit_records].
      by rewrite altered_values. }
  destruct (row_constraints db row) eqn:Hc; [|done]. unfold row_constraints in Hc. rewrite !andb_true_iff in Hc.
  destruct Hc as (((((Hnone%bool_decide_eq_true & _) & _) & _) & _) & _).
  cbn. unfold alter_record, update_row. cbn [audit_records audit_chain_head]. do 2 f_equal.
  rewrite alter_insert_ne; [done|]. congruence.
Qed.

Lemma insert_row_keeps k db row db' :
  is_Some (audit_records db !! k) → insert_row db row = Ok db' → audit_records db' !! k = audit_records db !! k.
Proof.
  intros [old Hk]. unfold insert_row. destruct (row_constraints db row) eqn:Hc; [|done]. intros [= <-].
  unfold row_constraints in Hc. rewrite !andb_true_iff in Hc.
  destruct Hc as (((((Hnone%bool_decide_eq_true & _) & _) & _) & _) & _).
  cbn [audit_records]. apply lookup_insert_ne. congruence.
Qed.

Lemma insert_rows_altered k r rows : ∀ db,
  is_Some (audit_records db !! k) →
  insert_rows (alter_record k r db) rows = (alter_record k r <$> insert_rows db rows).
Proof.
  induction rows as [|row rows IH]; intros db Hk; [done|]. cbn [insert_rows].
  rewrite insert_row_altered by done. destruct (insert_row db row) as [db1|] eqn:E; [|done].
  cbn [fmap res_fmap mbind res_bind]. apply IH. by rewrite (insert_row_keeps _ _ _ _ Hk E).
Qed.

(** An edited record changes nothing of what a batch adds. *)
Lemma append_altered k r db records stamped :
  is_Some (audit_records db !! k) →
  append (alter_record k r db) records stamped
  = ((append db records stamped).1, alter_record k r (append db records stamped).2).
Proof.
  intros Hk. unfold append. destruct records as [|r0 rs] eqn:Hrecs; [done|]. rewrite <- Hrecs. clear r0 rs Hrecs.
  rewrite existing_ids_altered. change (_head (alter_record k r db)) with (_head db).
  destruct (link_batch _ _ _ _) as [[rows head]|e]; cbn [mbind res_bind fst snd]; [|done].
  rewrite insert_rows_altered by done. by destruct (insert_rows db rows).
Qed.

Lemma append_keeps_row db records stamped k row :
  chain_ok db → audit_records db !! k = Some row →
  audit_records (append db records stamped).2 !! k = Some row.
Proof.
  intros Hok Hk. destruct (append db records stamped) as [o db'] eqn:E.
  destruct (append_spec _ _ _ _ _ Hok E) as [Hok' Ho]. cbn [snd]. destruct o; [|by subst].
  destruct Ho as (new & Hr & _). pose proof (proj1 Hok _ _ Hk) as <-.
  apply elem_of_rows; [apply Hok'|]. rewrite Hr. apply elem_of_app. left. apply elem_of_rows; [apply Hok|done].
Qed.

Lemma append_auditable db records stamped :
  chain_ok db → Forall (λ r, auditable (model_dump r)) records →
  Forall (λ row, auditable (record row)) (rows_by_seq db) →
  Forall (λ row, auditable (record row)) (rows_by_seq (append db records stamped).2).
Proof.
  intros Hok Hd Hall. destruct (append db records stamped) as [o db'] eqn:E.
  destruct (append_spec _ _ _ _ _ Hok E) as [_ Ho]. cbn [snd]. destruct o; [|by subst].
  destruct Ho as (new & -> & _ & HF). apply Forall_app. split; [done|].
  assert (Forall (λ r, auditable (model_dump r)) (added db records)) as Hn.
  { unfold added, fresh. rewrite Forall_forall in Hd |- *. intros x [_ Hx]%list_elem_of_filter. by apply Hd. }
  clear -HF Hn. induction HF as [|x row l k (_ & Er & _) _ IH]; [constructor|].
  apply Forall_cons in Hn as [? ?]. constructor; [by rewrite Er|by apply IH].
Qed.

(** ** A desk: the chain grows while somebody edits it and puts it back *)
Context {JT : JsonbText}.
Inductive desk_event := Appends (records : list R) (stamped : Z) | Tampers | Undoes.

Definition desk_step (d : tamper_db) (e : desk_event) : tamper_db :=
  match e with
  | Appends records stamped => mkTamperDb (append (td_chain d) records stamped).2 (td_backup d)
  | Tampers => (tamper d).2
  | Undoes => (undo d).2
  end.
Definition desk (events : list desk_event) : tamper_db :=
  foldl desk_step (mkTamperDb empty_chain None) events.

(** The chain nobody touched. *)
Definition honest_step (db : chain_db) (e : desk_event) : chain_db :=
  match e with Appends records stamped => (append db records stamped).2 | _ => db end.
Definition honest (events : list desk_event) : chain_db := foldl honest_step empty_chain events.

Definition event_ok (e : desk_event) : Prop :=
  match e with Appends records _ => Forall (λ r, auditable (model_dump r)) records | _ => True end.

Record honest_ok (db : chain_db) : Prop := {
  ho_chain : chain_ok db; ho_records : Forall (λ row, auditable (record row)) (rows_by_seq db) }.

Definition desk_inv (db : chain_db) (d : tamper_db) : Prop :=
  match td_backup d with
  | None => td_chain d = db
  | Some backup => ∃ k row, backup = [(k, record row)] ∧ audit_records db !! k = Some row
      ∧ is_target row = true ∧ td_chain d = alter_record k (as_allow (record row)) db
  end.

Lemma honest_keeps db e : honest_ok db → event_ok e → honest_ok (honest_step db e).
Proof.
  intros [Hok Hall] He. destruct e as [records stamped| |]; [|done..]. cbn [honest_step event_ok] in *.
  split; [|by apply append_auditable]. destruct (append _ _ _) as [o db'] eqn:E.
  by apply (append_spec _ _ _ _ _ Hok E).
Qed.

Lemma find_target_row db row :
  chain_ok db → find_target db = Some row → audit_records db !! seq row = Some row ∧ is_target row = true.
Proof.
  intros (Hk & _) Hf%last_Some_elem_of. apply list_elem_of_filter in Hf as [Ht Hin].
  by rewrite elem_of_rows in Hin.
Qed.

Lemma restored db k row r :
  audit_records db !! k = Some row → alter_record k (record row) (alter_record k r db) = db.
Proof.
  intros Hk. destruct db as [m h]. unfold alter_record, update_row. cbn [audit_records audit_chain_head] in *.
  f_equal. apply map_eq. intros j. destruct (decide (k = j)) as [<-|].
  - rewrite !lookup_alter_eq, Hk. by destruct row.
  - by rewrite !lookup_alter_ne.
Qed.

Lemma desk_keeps db d e :
  honest_ok db → desk_inv db d → desk_inv (honest_step db e) (desk_step d e).
Proof.
  intros [Hok _] Hd. unfold desk_inv in Hd |- *. destruct e as [records stamped| |]; cbn [desk_step honest_step td_backup td_chain].
  - destruct (td_backup d) as [b|]; [|by rewrite Hd].
    destruct Hd as (k & row & -> & Hk & Ht & ->). exists k, row. split_and!; [done| |done|].
    + by apply append_keeps_row.
    + by rewrite append_altered by (by eexists).
  - unfold tamper. destruct (td_backup d) as [b|] eqn:Hb; cbn [snd]; [by rewrite Hb|].
    rewrite Hd. destruct (find_target db) as [row|] eqn:Hf; cbn [snd td_backup td_chain]; [|by rewrite Hb].
    destruct (find_target_row _ _ Hok Hf). by exists (seq row), row.
  - unfold undo. destruct (td_backup d) as [b|] eqn:Hb; cbn [snd]; [|by rewrite Hb].
    destruct Hd as (k & row & -> & Hk & Ht & ->). cbn [td_backup td_chain restore_rows foldr fst snd].
    by apply restored.
Qed.

Lemma desk_history events :
  Forall event_ok events → honest_ok (honest events) ∧ desk_inv (honest events) (desk events).
Proof.
  induction events as [|e events IH] using rev_ind; intros H.
  - split; [|done]. split; [apply chain_ok_empty|].
    assert (rows_by_seq (honest []) = []) as -> by done. constructor.
  - apply Forall_app in H as [H He]. rewrite Forall_singleton in He. destruct (IH H) as [Hh Hd].
    unfold honest, desk. rewrite !foldl_app. cbn [foldl]. fold (honest events). fold (desk events).
    split; [by apply honest_keeps|by apply desk_keeps].
Qed.

(** C39: The red lamp is the edit and nothing else.  Let batches of decision records be
    appended while the demonstration tampers and undoes, in any order and any number of
    times.  While no tampering is in place the chain is the one nobody touched, and the
    verification command, its reads not overtaken by an append, exits 0; while one is, it
    names the very record that was edited and exits 1, unless that record's edit to an
    allow collides: the link with the record as it was appended and the link with the edited
    one are different bytes with one SHA-256 digest. *)
Theorem red_exactly_while_tampered events args :
  Forall event_ok events →
  let d := desk events in
  let answer := verify_command args (Answers (td_chain d)) in
  match td_backup d with
  | None => td_chain d = honest events ∧ process_exit answer.2 = EXIT_OK
  | Some backup =>
      ∃ k row, backup.*1 = [k] ∧ audit_records (honest events) !! k = Some row
        ∧ (verify_chain (td_chain d) = Ok (broken (k - 1) k RecordAltered)
           ∧ process_exit answer.2 = EXIT_BROKEN
           ∨ collide (link_value (prev_hash row) (record row))
               (link_value (prev_hash row) (as_allow (record row))))
  end.
Proof.
  intros Hev d answer. subst answer. destruct (desk_history events Hev) as [[Hok Hall] Hd]. fold d in Hd.
  unfold desk_inv in Hd. destruct (td_backup d) as [backup|].
  - destruct Hd as (k & row & -> & Hk & Ht & ->).
    assert (auditable (record row)) as Ha.
    { rewrite Forall_forall in Hall. apply Hall, elem_of_rows; [apply Hok|].
      by rewrite (proj1 Hok _ _ Hk). }
    exists k, row. split_and!; [done|done|].
    destruct (edit_found _ _ _ Hok Hk Ha Ht) as [Hv|]; [left|by right].
    split; [done|]. unfold verify_command. by rewrite Hv.
  - split; [done|]. unfold verify_command. by rewrite Hd, (chain_ok_verifies _ Hok).
Qed.
End beside.

(** ** The verification command *)
Section command.
Context {UN : Unicode} {ST : SortTies}.

(** Exit code 0 means the chain was looked at and is whole: every row the next link of the
    one before, and the head row counting up to the highest number there is. *)
Theorem verify_green args d :
  process_exit (verify_command args d).2 = EXIT_OK ↔
  ∃ r, d = Answers r ∧ intact (rows_by_seq (rd_rows r)) None 0
        ∧ last_seq (_head (rd_head r)) = highest_seq (rd_max r).
Proof.
  destruct d as [r| |]; cbn [verify_command]; [|split; [done|by intros (? & ? & _)]..].
  destruct (verify_chain r) as [v|e] eqn:Hv; cbn [snd process_exit].
  - destruct (verify_reads_exact r v Hv) as [Hiff _]. destruct (cv_ok v) eqn:Ho.
    + split; [|done]. intros _. exists r. destruct Hiff as [H _]. by destruct (H eq_refl).
    + split; [done|]. intros (r' & [= <-] & Hi). destruct Hiff as [_ H]. by discriminate (H Hi).
  - split; [done|]. intros (r' & [= <-] & Hi & _). by rewrite verify_reads in Hv.
Qed.

(** A database that is not reached at all reads as a broken chain: the refusal below the
    dialect is not caught, and the interpreter's exit code is [EXIT_BROKEN]. *)
Theorem outage_reads_as_broken args :
  verify_command args Unreached = ([], Raise OSError)
  ∧ process_exit (verify_command args Unreached).2 = EXIT_BROKEN.
Proof. done. Qed.

(** A record edited to something that has no canonical bytes - a number with a fraction in it
    - makes verification raise, naming no record. *)
Theorem unhashable_edit_unnamed db k row r e :
  chain_ok db → audit_records db !! k = Some row → chain_hash (prev_hash row) r = Raise e →
  verify_chain (alter_record k r db) = Raise e.
Proof. intros Hok Hk He. rewrite (alter_verdict _ _ row) by done. by rewrite He. Qed.
End command.

(** ** Concrete runs *)
Section witnesses.
#[local] Existing Instance identity_unicode.
#[local] Existing Instance position_order.
#[local] Instance braces : JsonbText := {| jsonb_text _ := u "{}" |}.

Definition settled_record (i : uuid) (who what why : string) : uuid * value :=
  (i, VMap [(u "agent_id", VStr (u who)); (u "outcome", VStr (u what)); (u "reason_code", VStr (u why))]).

(** A refusal between two other decisions; an edit; one more decision while it is in place. *)
Definition demo_desk : list (desk_event (R := uuid * value)) :=
  [Appends [settled_record 1 "agt-payer" "allow" "OK";
            settled_record 2 "agt-settlement" "deny" "BUDGET_EXHAUSTED_CAVEAT"] 0;
   Tampers; Appends [settled_record 3 "agt-payer" "allow" "OK"] 5].

Lemma demo_desk_ok : Forall event_ok demo_desk.
Proof.
  assert (∀ i who what why, json_ok (model_dump (settled_record i who what why)) = true →
            auditable (model_dump (settled_record i who what why))) as H.
  { intros i who what why Hj. split; [exact Hj|by eexists]. }
  repeat constructor; try (apply H; vm_compute; reflexivity).
Qed.

Lemma red_exactly_while_tampered_witness :
  (verify_chain (td_chain (desk demo_desk)) = Ok (broken 1 2 RecordAltered)
   ∨ ∃ row, audit_records (honest demo_desk) !! 2 = Some row
       ∧ collide (link_value (prev_hash row) (record row))
           (link_value (prev_hash row) (as_allow (record row))))
  ∧ process_exit (verify_command (mkVerifyArgs false false)
                    (Answers (td_chain (desk (demo_desk ++ [Undoes]))))).2 = EXIT_OK.
Proof.
  split.
  - pose proof (red_exactly_while_tampered demo_desk (mkVerifyArgs true false) demo_desk_ok) as T.
    cbv zeta in T. destruct (td_backup (desk demo_desk)) as [b|] eqn:Hb.
    + assert (fst <$> td_backup (desk demo_desk) ≫= head = Some 2) as H2 by (vm_compute; reflexivity).
      rewrite Hb in H2. destruct T as (k & row & Hk & Hrow & T).
      destruct b as [|[k' v] b]; [discriminate H2|]. cbn in Hk, H2.
      injection Hk as -> _. injection H2 as ->.
      destruct T as [[Hv _]|T]; [left; exact Hv|right; exists row; exact (conj Hrow T)].
    + assert (is_Some (td_backup (desk demo_desk))) as [x Hx] by (vm_compute; eexists; reflexivity).
      rewrite Hb in Hx. discriminate Hx.
  - assert (Forall event_ok (demo_desk ++ [Undoes])) as Hev
      by (apply Forall_app; split; [exact demo_desk_ok|repeat constructor]).
    pose proof (red_exactly_while_tampered _ (mkVerifyArgs false false) Hev) as T. cbv zeta in T.
    assert (td_backup (desk (demo_desk ++ [Undoes])) = None) as Hb by (vm_compute; reflexivity).
    rewrite Hb in T. exact (proj2 T).
Defined.

(** A latency given a fraction: nothing is named. *)
Example fraction_unnamed :
  verify_chain (alter_record 2 (VMap [(u "latency_us", VFloat (float_of_ratio false 3 2))]) (td_chain (desk demo_desk)))
  = Raise CanonicalizationError.
Proof. vm_compute. reflexivity. Qed.

(** The second edit is refused while the first is in place. *)
Example one_edit_at_a_time : (tamper (desk demo_desk)).1 = ([AlreadyTampered], 1).
Proof. vm_compute. reflexivity. Qed.

(** A ledger sweep, an outage, a sweep, and a signal: two lines, exit code 0. *)
Lemma checker_stays_green_witness :
  let sweeps := [(Reported (check_in_session demo_db), false); (SweepRaised OSError, false);
                 (Reported (check_in_session empty_db), true)] in
  (checker_run (mkCheckerArgs false true true false) sweeps).2 = Some (Ok 0)
  ∧ existsb violating (checker_run (mkCheckerArgs false true true false) sweeps).1 = false.
Proof.
  intros sweeps. assert (Forall of_a_ledger sweeps) as H.
  { repeat constructor; [by exists demo_ops|by exists []]. }
  destruct (checker_stays_green (mkCheckerArgs false true true false) sweeps H) as [Hv Hc].
  split; [|exact Hv].
  assert (is_Some (checker_run (mkCheckerArgs false true true false) sweeps).2) as [o Ho]
    by (vm_compute; eexists; reflexivity).
  rewrite Ho. f_equal. apply Hc. exact Ho.
Defined.
End witnesses.
