(* ===== verification/Stage.v ===== *)
(** * The demonstration (agentiam_demo/tools.py; scripts/bootstrap_demo_secrets.py, seed_demo.py,
      demo_concurrency.py, and the routes and budget of serve_pep.py)

    What stands behind the gateway: invoices, vendors, payments and email, each answer a
    function of its request, whose body is the object FastAPI parsed.  The files the
    containers are started with, the grant, the tree of agents and their tokens, and the
    traffic: keys are made by their libraries and are arguments, a directory is what its
    files hold.  And the sibling race: one mandate with a small pool and three siblings, each
    with a token for all of it, spending through their own PEPs at once; a sibling's payments
    are sequences of answers, and the ledger is read back from the dashboard until it shows
    what was spent. *)
From S2P Require Import Prelude PyText Errors PyNum PyFloat PyTime PyUuid PySha PyRe PyJson Models Ledger Hashing Caveats Tokens Attenuation Bundles CedarPolicy Corpus Escalation Tasks Extractor AuditChain Reports.

(** ** tools.py *)
Definition text_dict (fields : list (string * string)) : value :=
  VMap ((λ f, (u f.1, VStr (u f.2))) <$> fields).

#[local] Open Scope string_scope.
Definition INVOICES : list (pystr * value) :=
  [(u "inv_001", text_dict [("id", "inv_001"); ("vendor_id", "ven_01"); ("total", "12500.0000"); ("status", "open")]);
   (u "inv_002", text_dict [("id", "inv_002"); ("vendor_id", "ven_01"); ("total", "480000.0000"); ("status", "open")]);
   (u "inv_003", text_dict [("id", "inv_003"); ("vendor_id", "ven_02"); ("total", "9900.5000"); ("status", "paid")])].
Definition VENDORS : list (pystr * value) :=
  [(u "ven_01", text_dict [("id", "ven_01"); ("name", "Padma Supplies"); ("account_id", "acct_1001")]);
   (u "ven_02", text_dict [("id", "ven_02"); ("name", "Jamuna Traders"); ("account_id", "acct_1002")])].
#[local] Close Scope string_scope.

Definition _SEPARATOR : pystr := [31].

Definition _stable_id (prefix : string) (parts : list pystr) : py pystr :=
  data ← utf8_encode (py_join _SEPARATOR parts);
  Ok (u prefix ++ u "_" ++ take 12 (sha256_hex data)).

(** [items[:limit]]: from the end when negative. *)
Definition slice_to {A} (limit : Z) (items : list A) : list A :=
  take (Z.to_nat (if limit <? 0 then Z.of_nat (length items) + limit else limit)) items.

(** ** The text of an amount *)

(** [f"{d:f}"] of a finite number without its sign: no exponent, a zero without zeros
    before the point. *)
Definition fixed_digits (d : decimal) : pystr :=
  let digits := py_str_int (Z.abs (dcoef d)) in
  if 0 <=? dexp d then (if dcoef d =? 0 then u "0" else digits ++ zeros (dexp d))
  else
    let places := - dexp d in
    let digits := zeros (places + 1 - Z.of_nat (length digits)) ++ digits in
    let whole := (length digits - Z.to_nat places)%nat in
    take whole digits ++ u "." ++ drop whole digits.

(** What [Decimal(text)] keeps that a [pydec] does not: the sign of a zero or of a NaN, and a
    NaN's diagnostic. *)
Definition signed_text (text : pystr) : bool * pystr :=
  match filter (λ c, c ≠ 95) (py_strip text) with
  | 45 :: r => (true, r) | 43 :: r => (false, r) | r => (false, r)
  end.
Definition nan_text (text : pystr) : pystr :=
  let s := ascii_lower <$> text in
  let '(name, diag) := match strip_prefix (u "nan") s with
                       | Some r => (u "NaN", r)
                       | None => (u "sNaN", default [] (strip_prefix (u "snan") s))
                       end in
  name ++ drop_while (λ c, c =? 48)
            ((λ c, 48 + default 0 (digit_value c)) <$> diag).

(** [f"{Decimal(text):f}"]; [None] is [InvalidOperation]. *)
Definition amount_text (text : pystr) : option pystr :=
  let '(neg, unsigned) := signed_text text in
  body ← match parse_decimal text with
         | Some (DFin d) => Some (fixed_digits d)
         | Some (DInf _) => Some (u "Infinity")
         | Some DNaN => Some (nan_text unsigned)
         | None => None
         end;
  Some ((if neg then u "-" else []) ++ body).

Section tools.
Context {RP : PyRepr}.

Definition list_invoices (limit : Z) : value :=
  let items := slice_to limit INVOICES.*2 in
  VMap [(u "items", VSeq items); (u "count", VInt (Z.of_nat (length items)))].

(** [INVOICES.get(id)], or 404. *)
Definition one_of (table : list (pystr * value)) (id : pystr) : py value :=
  match list_find (λ kv, kv.1 = id) table with
  | Some (_, kv) => Ok kv.2 | None => Raise (HTTPException 404)
  end.
Definition get_invoice (invoice_id : pystr) : py value := one_of INVOICES invoice_id.
Definition list_vendors : value :=
  VMap [(u "items", VSeq VENDORS.*2); (u "count", VInt (Z.of_nat (length VENDORS)))].
Definition get_vendor (vendor_id : pystr) : py value := one_of VENDORS vendor_id.

Definition is_null (v : value) : bool := match v with VNone => true | _ => false end.

Definition initiate_payment (body : list (pystr * value)) : py value :=
  let raw_amount := dict_get body (u "amount") VNone in
  let account_id := match dict_get body (u "recipient") (VMap []) with
                    | VMap recipient => dict_get recipient (u "account_id") VNone
                    | _ => VNone
                    end in
  raise_if (is_null raw_amount || is_null account_id) (HTTPException 400);;
  match t ← py_str raw_amount; Ok (amount_text t) with
  | Ok (Some amount) =>
      account ← py_str account_id;
      payment_id ← _stable_id "pay" [account; amount];
      Ok (VMap [(u "payment_id", VStr payment_id); (u "account_id", account_id);
                (u "amount", VStr amount); (u "status", VStr (u "accepted"))])
  | _ => Raise (HTTPException 400)
  end.

Definition queue_email (prefix : string) (body : list (pystr * value)) : py value :=
  let to := dict_get body (u "to") VNone in
  raise_if (negb (value_truthy to)) (HTTPException 400);;
  text ← py_str to;
  message_id ← _stable_id prefix [text];
  Ok (VMap [(u "message_id", VStr message_id); (u "to", to); (u "status", VStr (u "queued"))]).
Definition send_email : list (pystr * value) → py value := queue_email "msg".
Definition send_email_external : list (pystr * value) → py value := queue_email "msg-ext".
End tools.

(** ** serve_pep.py: the route table *)
#[local] Open Scope string_scope.
Definition demo_route (method path scope tool : string) (args : list (string * string)) : value :=
  VMap [(u "method", VStr (u method)); (u "path", VStr (u path)); (u "scope", VStr (u scope));
        (u "tool", VStr (u tool)); (u "args", VMap ((λ a, (u a.1, VStr (u a.2))) <$> args));
        (u "drift_mode", VStr (u "off"))].
Definition ROUTES : list (pystr * value) :=
  [(u "routes", VSeq
     [demo_route "GET" "/invoices/{id}" "invoice:read" "invoice_api" [("invoice.id", "path.id")];
      demo_route "GET" "/vendors/{id}" "vendor:read" "vendor_api" [("vendor.id", "path.id")];
      demo_route "POST" "/email/send" "email:send" "email_internal" [("email.to", "body.to")];
      demo_route "POST" "/email/send-external" "email:send" "email_external" [("email.to", "body.to")];
      demo_route "POST" "/payments" "payment:initiate" "payment_api"
        [("payment.amount", "body.amount:number"); ("payment.to", "body.recipient.account_id")]]);
   (u "default", VMap [(u "action", VStr (u "deny"))])].

(** ** bootstrap_demo_secrets.py *)
Definition _FILES : list pystr :=
  u <$> ["root_private_key.hex"; "root_public_key.hex"; "policy_bundle.json"; "policy_bundle.sig";
         "policy_public_key.hex"; "routes.json"; "role_assignments.json"].

Definition ROLE_ASSIGNMENTS : list (pystr * pystr) :=
  (λ p, (u p, u "senior")) <$>
    ["agt-payer"; "agt-payer/agt-settlement"; "agt-payer/agt-settlement/agt-subcontractor";
     "agt-treasury"; "agt-treasury/agt-reconciler"; "agt-treasury/agt-bulk-buyer";
     "agt-supplier-a"; "agt-supplier-b"; "agt-supplier-c"].
#[local] Close Scope string_scope.

(** What a file holds: text, bytes, or the JSON text of a value. *)
Inductive file := Text (s : pystr) | Bytes (b : list Z) | Json (v : value).
Abbreviation directory := (gmap pystr file).

Definition _is_complete (out : directory) : bool :=
  forallb (λ name, bool_decide (is_Some (out !! name))) _FILES.

Definition _write_role_assignments (out : directory) : directory :=
  <[u "role_assignments.json" := Json (VMap ((λ r, (r.1, VStr r.2)) <$> ROLE_ASSIGNMENTS))]> out.

Section bootstrap.
Context {UN : Unicode} {ST : SortTies} {KEYS : Ed25519}.

Definition shipped_bundle : PolicyBundle :=
  mkPolicyBundle (u "demo-1") CORPUS_SOURCE 1 None None (Some CORPUS_TOOLS).

(** The fresh keys: the root pair's hexadecimal texts, and the signing key. *)
Record fresh_keys := mkFreshKeys { fk_private : pystr; fk_public : pystr; fk_signing : private_key }.

(** Files are written one after the other; a signature that raises leaves the first two. *)
Definition generate (k : fresh_keys) (out : directory) : py unit * directory :=
  let out := <[u "root_public_key.hex" := Text (fk_public k)]>
               (<[u "root_private_key.hex" := Text (fk_private k)]> out) in
  match sign_bundle shipped_bundle (fk_signing k) with
  | Raise e => (Raise e, out)
  | Ok signature =>
      let out := <[u "policy_bundle.json" := Json (VMap
                   [(u "version", VStr (pb_version shipped_bundle));
                    (u "cedar_source", VStr (pb_cedar_source shipped_bundle));
                    (u "serial", VInt (pb_serial shipped_bundle));
                    (u "tools", nullable VMap (pb_tools shipped_bundle))])]> out in
      let out := <[u "policy_bundle.sig" := Bytes signature]> out in
      let out := <[u "policy_public_key.hex" := Text (public_key_to_hex (public_key_of (fk_signing k)))]> out in
      let out := <[u "routes.json" := Json (VMap ROUTES)]> out in
      (Ok tt, _write_role_assignments out)
  end.

(** [main]: whether anything was generated, and the exit code. *)
Definition bootstrap_main (force : bool) (k : fresh_keys) (out : directory)
    : py Z * directory :=
  if _is_complete out && negb force then (Ok 0, _write_role_assignments out)
  else match generate k out with (Ok _, out) => (Ok 0, out) | (Raise e, out) => (Raise e, out) end.
End bootstrap.

(** ** The mandate's pool *)

(** Create the pool row unless a row that [is_pool] accepts is there already; whether it was
    created. *)
Definition ensure_row (is_pool : BudgetRow → bool) (d : db) (mandate_id : uuid) (total : Z) (k : uuid)
    : py bool * db :=
  match filter (λ p, is_pool p.2 = true) (map_to_list (budgets d)) with
  | [] => match fund_pool d k mandate_id (u "spend_bdt") total with
          | (Ok _, d) => (Ok true, d) | (Raise e, d) => (Raise e, d)
          end
  | [_] => (Ok false, d)
  | _ => (Raise MultipleResultsFound, d)
  end.

Definition spend_row (mandate_id : uuid) (b : BudgetRow) : bool :=
  bool_decide (b_mandate_id b = mandate_id) && bool_decide (b_dimension b = u "spend_bdt").

(** seed_demo.py and demo_concurrency.py look for a row without a parent, serve_pep.py for
    one without an agent. *)
Definition _ensure_budget (d : db) (mandate_id : uuid) (total : Z) (k : uuid) : py bool * db :=
  ensure_row (λ b, spend_row mandate_id b && bool_decide (b_parent b = None)) d mandate_id total k.
Definition _seed (d : db) (mandate_id : uuid) (total : Z) (k : uuid) : py bool * db :=
  ensure_row (λ b, spend_row mandate_id b && bool_decide (b_agent_id b = None)) d mandate_id total k.

(** ** seed_demo.py: the grant *)
Definition DEMO_TASK_ID : uuid := 0xd0d0d0d0000040008000000000000002%N.
Definition POOL_TOTAL : decimal := Dec 5000000000 (-4).
Definition DEMO_INTENT : pystr := u "Procure 500 units of packaging stock, budget BDT 500,000.".
Definition DEMO_PRINCIPAL : pystr := u "kc:11111111-1111-1111-1111-111111111111".

Section mandate.
Context {UN : Unicode} {ST : SortTies}.

(** A grant of eight hours that began five minutes ago. *)
Definition staged_mandate (mandate_id task_id : uuid) (intent : pystr) (scopes : list pystr)
    (budget : py Budget) (max_depth : Z) (now : datetime) : py Mandate :=
  h ← intent_hash intent;
  b ← budget;
  nb ← dt_add (dt_us now) (- 300000000);
  ex ← dt_add (dt_us now) (8 * 3600 * 1000000);
  mk_Mandate mandate_id task_id DEMO_PRINCIPAL h (list_to_set scopes) b max_depth
    (DT nb (dt_aware now)) (DT ex (dt_aware now)).

Definition _mandate (now : datetime) : py Mandate :=
  staged_mandate DEMO_MANDATE_ID DEMO_TASK_ID DEMO_INTENT
    (u <$> ["invoice:read"; "vendor:read"; "payment:initiate"]%string)
    (mk_Budget POOL_TOTAL 1000 100000 0 0) 4 now.
End mandate.

(** ** The delegation tree *)
Record node := mkNode {
  nd_parent : pystr; nd_agent : pystr; nd_role : pystr; nd_scopes : list pystr; nd_ceiling : decimal }.

#[local] Open Scope string_scope.
Definition staged (parent agent role : string) (scopes : list string) (thousands : Z) : node :=
  mkNode (u parent) (u agent) (u role) (u <$> scopes) (Dec (thousands * 10000000) (-4)).

(** Whole thousands of BDT. *)
Definition _CHILDREN : list node :=
  [staged "root" "agt-doc-reader" "reader" ["invoice:read"; "vendor:read"] 0;
   staged "root" "agt-negotiator" "worker" ["vendor:read"] 50;
   staged "root" "agt-payer" "payer" ["payment:initiate"] 200;
   staged "root" "agt-auditor" "reader" ["invoice:read"] 0;
   staged "root" "agt-treasury" "payer" ["invoice:read"; "payment:initiate"] 100].
Definition _DESCENDANTS : list node :=
  [staged "agt-doc-reader" "agt-ocr-scanner" "reader" ["invoice:read"] 0;
   staged "agt-doc-reader" "agt-invoice-classifier" "reader" ["invoice:read"] 0;
   staged "agt-negotiator" "agt-quote-collector" "worker" ["vendor:read"] 10;
   staged "agt-negotiator" "agt-price-checker" "worker" ["vendor:read"] 10;
   staged "agt-payer" "agt-settlement" "payer" ["payment:initiate"] 25;
   staged "agt-treasury" "agt-reconciler" "payer" ["payment:initiate"] 20;
   staged "agt-treasury" "agt-bulk-buyer" "payer" ["invoice:read"; "payment:initiate"] 80;
   staged "agt-settlement" "agt-subcontractor" "payer" ["payment:initiate"] 5].
Definition _APPROVAL_REQUIRED : list (pystr * list pystr) :=
  [(u "agt-bulk-buyer", [u "payment:initiate"])].
#[local] Close Scope string_scope.

(** The caveats a child is minted with. *)
Definition node_caveats (n : node) : py (list Caveat) :=
  s ← mk_ScopeSubset (list_to_set (nd_scopes n));
  b ← mk_BudgetCeiling SPEND_BDT (nd_ceiling n);
  Ok [s; b].
Definition approval_caveats (n : node) : list Caveat :=
  match list_find (λ a, a.1 = nd_agent n) _APPROVAL_REQUIRED with
  | Some (_, (_, scopes)) => [RequiresApproval (list_to_set scopes)]
  | None => []
  end.

Section mint.
Context {UN : Unicode} {ST : SortTies} {BL : BiscuitLib}.

(** The tokens minted so far, in order; [tokens[agent_id] = ...]. *)
Definition token_map : Type := list (pystr * pystr).

(** The root's own children, from its verified token. *)
Fixpoint mint_children (root : VerifiedToken) (nodes : list node) (tokens : token_map) : py token_map :=
  match nodes with
  | [] => Ok tokens
  | n :: nodes =>
      cs ← node_caveats n;
      t ← attenuate root cs (nd_agent n) (nd_role n) [];
      mint_children root nodes (dict_set tokens (nd_agent n) t)
  end.

(** The others, each from its parent's token, verified again. *)
Fixpoint mint_descendants (ks : RootKeySet) (now : datetime) (nodes : list node) (tokens : token_map)
    : py token_map :=
  match nodes with
  | [] => Ok tokens
  | n :: nodes =>
      parent_token ← match list_find (λ kv, kv.1 = nd_parent n) tokens with
                     | Some (_, kv) => Ok kv.2 | None => Raise KeyError end;
      parent ← verify parent_token ks now;
      cs ← node_caveats n;
      t ← attenuate parent (cs ++ approval_caveats n) (nd_agent n) (nd_role n) [];
      mint_descendants ks now nodes (dict_set tokens (nd_agent n) t)
  end.

Definition text_map (l : list (pystr * pystr)) : value := VMap ((λ kv, (kv.1, VStr kv.2)) <$> l).

Definition _mint_chain (sk : PrivateKey) (pk : PublicKey) (now : datetime) : py value :=
  ks ← mk_RootKeySet [pk];
  mandate ← _mandate now;
  root ← mint_root mandate sk;
  verified_root ← verify root ks now;
  tokens ← mint_children verified_root _CHILDREN [(u "root", root)];
  tokens ← mint_descendants ks now _DESCENDANTS tokens;
  Ok (VMap
    [(u "mandate_id", VStr (uuid_text DEMO_MANDATE_ID));
     (u "task_id", VStr (uuid_text DEMO_TASK_ID));
     (u "principal_id", VStr (m_principal_id mandate));
     (u "intent", VStr DEMO_INTENT);
     (u "pool_total", VStr (dec_str false POOL_TOTAL));
     (u "roles", text_map ((u "root", u "root") :: ((λ n, (nd_agent n, nd_role n)) <$> _CHILDREN ++ _DESCENDANTS)));
     (u "tokens", text_map tokens)]).

(** [seed]: the pool row, then the tokens file; a pool that was created stays if minting
    raises. *)
Definition seed_demo (sk : PrivateKey) (pk : PublicKey) (now : datetime) (k : uuid) (out : directory) (d : db)
    : py Z * directory * db :=
  match _ensure_budget d DEMO_MANDATE_ID 5000000000 k with
  | (Raise e, d) => (Raise e, out, d)
  | (Ok _, d) =>
      match _mint_chain sk pk now with
      | Raise e => (Raise e, out, d)
      | Ok payload => (Ok 0, <[u "demo-tokens.json" := Json payload]> out, d)
      end
  end.
End mint.

(** ** The traffic *)
Record call := mkCall {
  cl_label : pystr; cl_who : pystr; cl_method : pystr; cl_path : pystr; cl_body : option value }.

#[local] Open Scope string_scope.
Definition _read_invoice (label who invoice : string) : call :=
  mkCall (u label) (u who) (u "GET") (u "/proxy/invoices/" ++ u invoice)%list None.
Definition _read_vendor (label who vendor : string) : call :=
  mkCall (u label) (u who) (u "GET") (u "/proxy/vendors/" ++ u vendor)%list None.
Definition _pay (label who : string) (amount : pystr) (account : string) : call :=
  mkCall (u label) (u who) (u "POST") (u "/proxy/payments")
    (Some (VMap [(u "amount", VStr amount); (u "recipient", VMap [(u "account_id", VStr (u account))])])).

Definition spawn_calls : list call :=
  [_read_invoice "root reads an invoice" "root" "inv_001";
   _read_invoice "doc-reader reads an invoice" "agt-doc-reader" "inv_001";
   _read_vendor "negotiator looks up a vendor" "agt-negotiator" "ven_01";
   _pay "payer settles a small invoice" "agt-payer" (u "1250.0000") "acct_9001";
   _read_invoice "auditor checks an invoice" "agt-auditor" "inv_003";
   _read_invoice "treasury reads an invoice" "agt-treasury" "inv_002";
   _read_invoice "ocr scanner reads an invoice" "agt-ocr-scanner" "inv_001";
   _read_invoice "classifier reads an invoice" "agt-invoice-classifier" "inv_002";
   _read_vendor "quote collector looks up a vendor" "agt-quote-collector" "ven_01";
   _read_vendor "price checker looks up a vendor" "agt-price-checker" "ven_02";
   _pay "settlement agent pays within its slice" "agt-settlement" (u "900.0000") "acct_9002";
   _pay "reconciler clears a balance" "agt-reconciler" (u "450.0000") "acct_9005";
   _read_invoice "bulk buyer reads an invoice" "agt-bulk-buyer" "inv_002"].

(** [invoices[n % 3]], [vendors[n % 2]], and [f"{n}.0000"]. *)
Definition nth_invoice (n : nat) : string :=
  match (n mod 3)%nat with 0%nat => "inv_001" | 1%nat => "inv_002" | _ => "inv_003" end.
Definition nth_vendor (n : nat) : string :=
  match (n mod 2)%nat with 0%nat => "ven_01" | _ => "ven_02" end.
Definition whole_amount (n : Z) : pystr := (py_str_int n ++ u ".0000")%list.

Definition work_round (n : nat) : list call :=
  let inv := nth_invoice n in
  let inv_next := nth_invoice (n + 1) in
  let ven := nth_vendor n in
  let ven_next := nth_vendor (n + 1) in
  let step (base each : Z) := whole_amount (base + each * Z.of_nat n) in
  [_read_invoice "root reviews an invoice" "root" inv;
   _read_invoice "doc-reader reads an invoice" "agt-doc-reader" inv_next;
   _read_invoice "ocr scanner reads an invoice" "agt-ocr-scanner" inv;
   _read_vendor "quote collector looks up a vendor" "agt-quote-collector" ven;
   _pay "payer settles an invoice" "agt-payer" (step 1100 75) "acct_9001";
   _read_invoice "classifier reads an invoice" "agt-invoice-classifier" inv_next;
   _read_vendor "price checker looks up a vendor" "agt-price-checker" ven_next;
   _read_invoice "auditor checks an invoice" "agt-auditor" inv;
   _pay "settlement agent pays a vendor" "agt-settlement" (step 600 40) "acct_9002";
   _read_vendor "negotiator looks up a vendor" "agt-negotiator" ven;
   _read_invoice "treasury reads an invoice" "agt-treasury" inv;
   _pay "treasury pays an invoice" "agt-treasury" (step 1400 50) "acct_9003";
   _read_vendor "doc-reader checks a vendor" "agt-doc-reader" ven_next;
   _read_invoice "bulk buyer checks an invoice" "agt-bulk-buyer" inv_next;
   _pay "reconciler clears a balance" "agt-reconciler" (step 350 25) "acct_9005"].

(** One line per layer that refuses, and the one held for a human, each with its place. *)
Definition refusals : list (nat * call) :=
  [(20%nat, _pay "doc-reader attempts a payment" "agt-doc-reader" (u "1500.0000") "acct_9001");
   (45%nat, _pay "settlement agent exceeds its ceiling" "agt-settlement" (u "30000.0000") "acct_9002");
   (70%nat, _pay "root attempts more than the mandate grants" "root" (u "600000.0000") "acct_9003");
   (95%nat, _pay "sub-contractor is too deep for the policy" "agt-subcontractor" (u "100.0000") "acct_9004")].
Definition held_call : nat * call :=
  (57%nat, _pay "bulk buyer places a large order" "agt-bulk-buyer" (u "75000.0000") "acct_1001").
#[local] Close Scope string_scope.

Definition earlier (a b : nat * call) : Prop := (a.1 <= b.1)%nat.
#[global] Instance earlier_dec : RelDecision earlier.
Proof. intros a b. unfold earlier. apply _. Defined.

(** [work.insert(at + offset, call)]. *)
Definition list_insert {A} (i : nat) (x : A) (l : list A) : list A := take i l ++ x :: drop i l.
Fixpoint insert_all (offset : nat) (calls : list (nat * call)) (work : list call) : list call :=
  match calls with
  | [] => work
  | (place, c) :: calls => insert_all (offset + 1) calls (list_insert (place + offset) c work)
  end.

Definition _TRAFFIC : list call :=
  spawn_calls ++ insert_all 0 (merge_sort earlier (refusals ++ [held_call])) (List.seq 0 8 ≫= work_round).

(** ** [drive] *)

(** What the PEP answered: its status, and its body, an object, unless that is not JSON. *)
Record pep_answer := mkPepAnswer { pa_status : Z; pa_body : option (list (pystr * value)) }.

Inductive drive_line :=
| Spawn (who : pystr) | SpawnDelay | CallDelay
| Verdict_ (verdict : pystr) (status : Z) (label reason : pystr).

Record drive_state := mkDrive {
  dr_lines : list drive_line; dr_spawned : list pystr; dr_outcomes : list (pystr * Z);
  dr_escalations : list (pystr * value); dr_unqueued : list pystr }.

(** [response.json().get("reason_code", "OK")]; the PEP's reason codes are strings, anything
    else is refused here. *)
Definition reason_of (a : pep_answer) : py pystr :=
  match pa_body a with
  | None => Ok (u "OK")
  | Some body => match dict_get body (u "reason_code") (VStr (u "OK")) with
                 | VStr s => Ok s | _ => Raise TypeError end
  end.
Definition body_field (a : pep_answer) (key : string) : value :=
  match pa_body a with Some body => dict_get body (u key) VNone | None => VNone end.

(** One call of the scenario; the pauses are taken only when their delay is positive. *)
Definition drive_call (spawn_pause call_pause : bool) (c : call) (a : pep_answer) (s : drive_state)
    : py drive_state :=
  let new := bool_decide (cl_who c ∉ dr_spawned s) in
  let before :=
    if new
    then (if negb (bool_decide (dr_spawned s = [])) && spawn_pause then [SpawnDelay] else []) ++ [Spawn (cl_who c)]
    else if call_pause then [CallDelay] else [] in
  let spawned := if new then dr_spawned s ++ [cl_who c] else dr_spawned s in
  reason ← reason_of a;
  let held := bool_decide (reason = u "APPROVAL_REQUIRED") in
  let id := body_field a "escalation_id" in
  let verdict := if held then u "held "
                 else if (200 <=? pa_status a) && (pa_status a <? 300) then u "allow" else u "deny " in
  let count := default 0 (snd <$> (snd <$> list_find (λ kv, kv.1 = reason) (dr_outcomes s))) in
  Ok (mkDrive (dr_lines s ++ before ++ [Verdict_ verdict (pa_status a) (cl_label c) reason])
        spawned (dict_set (dr_outcomes s) reason (count + 1))
        (if held && value_truthy id then dr_escalations s ++ [(cl_label c, id)] else dr_escalations s)
        (if held && negb (value_truthy id) then dr_unqueued s ++ [cl_label c] else dr_unqueued s)).

Fixpoint drive_calls (spawn_pause call_pause : bool) (calls : list (call * pep_answer)) (s : drive_state)
    : py drive_state :=
  match calls with
  | [] => Ok s
  | (c, a) :: calls => s ← drive_call spawn_pause call_pause c a s; drive_calls spawn_pause call_pause calls s
  end.

(** The scenario against a PEP that gave these answers, and the exit code. *)
Definition drive (spawn_pause call_pause : bool) (answers : list pep_answer) : py (drive_state * Z) :=
  s ← drive_calls spawn_pause call_pause (zip _TRAFFIC answers) (mkDrive [] [] [] [] []);
  Ok (s, if bool_decide (dr_unqueued s = []) then 0 else 1).

(** ** demo_concurrency.py *)

(** Amounts in units of 1/10000. *)
Definition RACE_POOL_TOTAL : Z := 150000000.
Definition SIBLING_CEILING : Z := RACE_POOL_TOTAL.
Definition PAYMENT : Z := 5000000.
Definition PAYMENTS_PER_SIBLING : Z := 20.
Definition MAX_ATTEMPTS : nat := 40.
(** In milliseconds. *)
Definition RETRY_DELAY : Z := 50.
Definition SETTLE_TIMEOUT : Z := 15000.

#[local] Open Scope string_scope.
Definition SIBLINGS : list (pystr * pystr) :=
  [(u "agt-supplier-a", u "pep-conc-a"); (u "agt-supplier-b", u "pep-conc-b");
   (u "agt-supplier-c", u "pep-conc-c")].
#[local] Close Scope string_scope.

Inductive race_outcome := Allowed | Retry | Final.
#[global] Instance race_outcome_eq_dec : EqDecision race_outcome.
Proof. solve_decision. Defined.

Definition requested_total : Z := Z.of_nat (length SIBLINGS) * PAYMENTS_PER_SIBLING * PAYMENT.

Definition classify (status : Z) (reason : pystr) : race_outcome :=
  if (200 <=? status) && (status <? 300) then Allowed
  else if bool_decide (reason = u "LEASE_UNAVAILABLE") then Retry else Final.

(** ** Run state *)
Record RunIds := mkRunIds { run_mandate_id : uuid; run_task_id : uuid }.

Definition STATE_FILE : pystr := u "concurrency/run.json".
Definition MANDATE_ID_FILE : pystr := u "concurrency/mandate_id".
Definition TOKENS_FILE : pystr := u "concurrency/tokens.json".

(** [uuid.UUID(state[key])]. *)
Definition state_uuid (state : list (pystr * value)) (key : string) : py uuid :=
  match list_find (λ kv, kv.1 = u key) state with
  | None => Raise KeyError
  | Some (_, (_, VStr s)) => match parse_uuid s with Some i => Ok i | None => Raise ValueError end
  | Some _ => Raise AttributeError
  end.

(** Fresh ids when asked for or when nothing was written, else what the last seed wrote. *)
Definition resolve_ids (out : directory) (new : bool) (fresh : RunIds) : py RunIds :=
  match out !! STATE_FILE with
  | Some f =>
      if new then Ok fresh else
      match f with
      | Json (VMap state) =>
          m ← state_uuid state "mandate_id"; t ← state_uuid state "task_id"; Ok (mkRunIds m t)
      | Json _ => Raise TypeError
      | _ => Raise ValueError
      end
  | None => Ok fresh
  end.

Definition write_state (out : directory) (ids : RunIds) : directory :=
  <[MANDATE_ID_FILE := Text (uuid_text (run_mandate_id ids))]>
    (<[STATE_FILE := Json (text_map [(u "mandate_id", uuid_text (run_mandate_id ids));
                                     (u "task_id", uuid_text (run_task_id ids))])]> out).

(** ** Phase one *)
Section race_seed.
Context {UN : Unicode} {ST : SortTies} {BL : BiscuitLib}.

Definition INTENT : pystr := u "Negotiate with three suppliers in parallel, budget BDT 15,000.".

Definition race_mandate (ids : RunIds) (now : datetime) : py Mandate :=
  staged_mandate (run_mandate_id ids) (run_task_id ids) INTENT [u "payment:initiate"]
    (mk_Budget (Dec RACE_POOL_TOTAL (-4)) 100000 0 0 0) 2 now.

Definition sibling_caveats : py (list Caveat) :=
  s ← mk_ScopeSubset {[ u "payment:initiate" ]};
  b ← mk_BudgetCeiling SPEND_BDT (Dec SIBLING_CEILING (-4));
  Ok [s; b].

Fixpoint mint_siblings (root : VerifiedToken) (siblings : list (pystr * pystr)) : py token_map :=
  match siblings with
  | [] => Ok []
  | (agent, _) :: siblings =>
      cs ← sibling_caveats;
      t ← attenuate root cs agent (u "senior") [];
      rest ← mint_siblings root siblings;
      Ok ((agent, t) :: rest)
  end.

Definition mint_tokens (sk : PrivateKey) (pk : PublicKey) (ids : RunIds) (now : datetime) : py token_map :=
  ks ← mk_RootKeySet [pk];
  mandate ← race_mandate ids now;
  root ← mint_root mandate sk;
  verified ← verify root ks now;
  mint_siblings verified SIBLINGS.

(** [seed]: the ids are written before the tokens are minted. *)
Definition seed_race (sk : PrivateKey) (pk : PublicKey) (new : bool) (fresh : RunIds) (now : datetime)
    (k : uuid) (out : directory) (d : db) : py Z * directory * db :=
  match resolve_ids out new fresh with
  | Raise e => (Raise e, out, d)
  | Ok ids =>
      match _ensure_budget d (run_mandate_id ids) RACE_POOL_TOTAL k with
      | (Raise e, d) => (Raise e, out, d)
      | (Ok _, d) =>
          let out := write_state out ids in
          match mint_tokens sk pk ids now with
          | Raise e => (Raise e, out, d)
          | Ok tokens => (Ok 0, <[TOKENS_FILE := Json (text_map tokens)]> out, d)
          end
      end
  end.
End race_seed.

(** ** Phase two: one payment *)
Inductive paid := PaidOk | PaidRefused (reason : pystr) | PaidGaveUp.

(** An attempt for each of [attempts] on, with the answer to it; the waits are in
    milliseconds, and the last refusal waits too. *)
Record paying := mkPaying { py_result : paid; py_sent : nat; py_retries : nat; py_waits : list Z }.

Fixpoint pay_from (attempt more : nat) (answers : nat → Z * pystr) : paying :=
  match more with
  | O => mkPaying PaidGaveUp 0 0 []
  | S more =>
      let '(status, reason) := answers attempt in
      match classify status reason with
      | Allowed => mkPaying PaidOk 1 0 []
      | Final => mkPaying (PaidRefused reason) 1 0 []
      | Retry =>
          let r := pay_from (attempt + 1) more answers in
          mkPaying (py_result r) (1 + py_sent r) (1 + py_retries r)
            (RETRY_DELAY * (1 + Z.of_nat attempt mod 4) :: py_waits r)
      end
  end.
Definition pay (answers : nat → Z * pystr) : paying := pay_from 0 MAX_ATTEMPTS answers.

(** ** The summary *)
Record Summary := mkSummary {
  allowed_payments : list (pystr * Z); final_refusals : list (pystr * Z);
  retries : Z; gave_up : Z }.

Definition count_paid (f : paid → bool) (payments : list paying) : Z :=
  Z.of_nat (length (filter (λ p, f (py_result p) = true) payments)).
Definition is_paid (r : paid) : bool := match r with PaidOk => true | _ => false end.
Definition is_gave_up (r : paid) : bool := match r with PaidGaveUp => true | _ => false end.
Definition refusal_reasons (payments : list paying) : list pystr :=
  omap (λ p, match py_result p with PaidRefused r => Some r | _ => None end) payments.

(** [Counter]: each reason with how often it came, in the order first seen. *)
Definition count_reasons (reasons : list pystr) : list (pystr * Z) :=
  foldl (λ c r, dict_set c r (1 + default 0 (snd <$> (snd <$> list_find (λ kv, kv.1 = r) c)))) [] reasons.

(** Every sibling's payments, in the order of [SIBLINGS]. *)
Definition _burst (runs : list (list paying)) : Summary :=
  let all := concat runs in
  mkSummary (zip SIBLINGS.*1 (count_paid is_paid <$> runs))
    (count_reasons (refusal_reasons all))
    (foldr Z.add 0 ((λ p, Z.of_nat (py_retries p)) <$> all))
    (count_paid is_gave_up all).

Definition total_allowed (s : Summary) : Z := foldr Z.add 0 (allowed_payments s).*2 * PAYMENT.
Definition held (s : Summary) : bool := total_allowed s <=? RACE_POOL_TOTAL.

(** ** Reading the ledger back *)

(** A poll of the dashboard: not reached or not JSON, or this mandate's committed amount and
    the lamp, and the clock after it. *)
Inductive dashboard_poll := PollFailed | Polled (committed : option Z) (lamp : bool) (clock : Z).

(** [None] while the polls have not decided. *)
Fixpoint _ledger_view (expected deadline : Z) (polls : list dashboard_poll)
    : option (option Z * option bool) :=
  match polls with
  | [] => None
  | PollFailed :: _ => Some (None, None)
  | Polled gauge lamp clock :: polls =>
      let settled := match gauge with Some committed => expected <=? committed | None => false end in
      if settled || (deadline <=? clock) then Some (gauge, Some lamp)
      else _ledger_view expected deadline polls
  end.

Definition race_exit (s : Summary) (invariants_ok : option bool) : Z :=
  if held s && negb (bool_decide (invariants_ok = Some false)) then 0 else 1.
Definition drive_race (runs : list (list paying)) (started : Z) (polls : list dashboard_poll)
    : option Z :=
  let s := _burst runs in
  view ← _ledger_view (total_allowed s) (started + SETTLE_TIMEOUT) polls;
  Some (race_exit s view.2).
