(* ===== verification/StageSpec.v ===== *)
(** * What the demonstration's set-up promises

    What bootstrap writes is what the service loads; a complete set is never rotated; the pool
    is created once; every agent holds strictly less than its parent; and each call of the
    traffic meets the layer its label names. *)
From S2P Require Import Prelude PyText Errors PyNum PyFloat PyTime PyUuid PySha PyRe PyJson Models Ledger Books LedgerSpec Hashing HashingSpec Caveats Tokens Attenuation Chains Bundles BundlesSpec PyUuidSpec CedarPolicy Corpus Escalation Tasks Extractor Service ServiceSpec AuditChain Reports Stage.

(** ** Bootstrap *)
Section bootstrap.
Context {UN : Unicode} {ST : SortTies} {KEYS : Ed25519} {RP : PyRepr} {CD : Cedar}.

Definition as_document (f : option file) : document :=
  match f with Some (Json v) => Parsed v | Some _ => NotJson | None => Unreadable end.
Definition as_text (f : option file) : pystr := match f with Some (Text s) => s | _ => [] end.
Definition as_bytes (f : option file) : option (list Z) :=
  match f with Some (Bytes b) => Some b | _ => None end.

Lemma generate_writes k out out' :
  generate k out = (Ok tt, out') →
  ∃ signature, sign_bundle shipped_bundle (fk_signing k) = Ok signature
  ∧ out' !! u "root_private_key.hex" = Some (Text (fk_private k))
  ∧ out' !! u "root_public_key.hex" = Some (Text (fk_public k))
  ∧ as_bytes (out' !! u "policy_bundle.sig") = Some signature
  ∧ as_text (out' !! u "policy_public_key.hex") = public_key_to_hex (public_key_of (fk_signing k))
  ∧ as_document (out' !! u "routes.json") = Parsed (VMap ROUTES)
  ∧ (bundle_of (match as_document (out' !! u "policy_bundle.json") with Parsed v => v | _ => VNone end)
     ≫= typed_bundle) = Ok shipped_bundle
  ∧ ∃ v, as_document (out' !! u "policy_bundle.json") = Parsed v.
Proof.
  unfold generate. destruct (sign_bundle _ _) as [signature|]; [|done].
  intros E. apply (f_equal snd) in E. cbn [snd] in E. subst out'. exists signature. unfold _write_role_assignments.
  repeat first [rewrite lookup_insert_eq | rewrite lookup_insert_ne by (by vm_compute)].
  split_and!; try done. by eexists.
Qed.

(** The files one run of bootstrap generates are the files the service accepts: the bundle's
    signature verifies under the public key beside it and its policy is the shipped one, the
    roles are the shipped ones and none of them widens, and the keys are the fresh ones. *)
Theorem bootstrap_boots force k out out' :
  bootstrap_main force k out = (Ok 0, out') → _is_complete out = false ∨ force = true →
  load_policy (as_text (out' !! u "policy_public_key.hex")) (as_document (out' !! u "policy_bundle.json"))
    (as_bytes (out' !! u "policy_bundle.sig"))
    = as_config_error bad_bundle (new_engine shipped_bundle None false None)
  ∧ load_role_assignments (Some (as_document (out' !! u "role_assignments.json"))) = Ok ROLE_ASSIGNMENTS
  ∧ as_document (out' !! u "routes.json") = Parsed (VMap ROUTES)
  ∧ out' !! u "root_private_key.hex" = Some (Text (fk_private k)).
Proof.
  unfold bootstrap_main. intros Hm Hc.
  assert (_is_complete out && negb force = false) as E by (destruct Hc as [->| ->]; [done|apply andb_false_r]).
  rewrite E in Hm. destruct (generate k out) as [[[]|e] d] eqn:Hg; [|done]. injection Hm as <-.
  pose proof Hg as Hg'.
  destruct (generate_writes _ _ _ Hg) as (signature & Hs & Hp & _ & Hb & Ht & Hr & Hd & v & Hv).
  split_and!; [| |done|done].
  - unfold load_policy. rewrite Hv in Hd |- *. cbn [load_document mbind res_bind]. rewrite Hb.
    apply bind_Ok_inv in Hd as (lb & Hl & Hty). rewrite Hl. cbn [mbind res_bind].
    rewrite Ht, key_hex_roundtrip. cbn [mbind res_bind].
    by rewrite (typed_verifies _ _ _ _ Hty), (signed_verifies _ _ _ Hs), Hty.
  - unfold generate in Hg'. rewrite Hs in Hg'. apply (f_equal snd) in Hg'. cbn [snd] in Hg'. subst d. unfold _write_role_assignments.
    rewrite lookup_insert_eq. vm_compute. reflexivity.
Qed.

(** A complete set is left alone, the role map apart. *)
Theorem complete_set_kept k out :
  _is_complete out = true →
  ∃ out', bootstrap_main false k out = (Ok 0, out')
  ∧ ∀ name, name ≠ u "role_assignments.json" → out' !! name = out !! name.
Proof.
  intros Hc. unfold bootstrap_main. rewrite Hc. cbn [andb negb]. eexists. split; [done|].
  intros name Hn. unfold _write_role_assignments. by rewrite lookup_insert_ne.
Qed.
End bootstrap.

(** ** The pool *)
Lemma filter_one {A} (P : A → Prop) `{∀ x, Decision (P x)} (l k : list A) :
  l ≡ₚ k → length (filter P l) = length (filter P k).
Proof. intros ->. done. Qed.

Lemma ensure_spec is_pool d m total k o d' :
  is_pool (new_pool m (u "spend_bdt") total) = true →
  ensure_row is_pool d m total k = (o, d') →
  match o with
  | Ok true => fund_pool d k m (u "spend_bdt") total = (Ok tt, d')
  | Ok false => d' = d
  | Raise _ => d' = d
  end ∧ ∀ b total' k', o = Ok b → ensure_row is_pool d' m total' k' = (Ok false, d').
Proof.
  intros Hp. unfold ensure_row at 1.
  destruct (filter _ (map_to_list (budgets d))) as [|p [|q l]] eqn:Hf.
  - destruct (fund_pool _ _ _ _ _) as [[[]|e] d1] eqn:Hfund; intros [= <- <-].
    + split; [done|]. intros b total' k' _. unfold fund_pool, transaction in Hfund.
      destruct (insert_new (budgets d) k _) as [m1|] eqn:Hi; cbn [mbind res_bind] in Hfund; [|done].
      destruct (constraints_ok _); [|done]. injection Hfund as <-.
      unfold insert_new in Hi. destruct (budgets d !! k) eqn:Hk; [done|]. injection Hi as <-.
      unfold ensure_row. cbn [budgets set_budgets].
      pose proof (filter_one (λ p, is_pool p.2 = true) _ _ (map_to_list_insert (budgets d) k (new_pool m (u "spend_bdt") total) Hk)) as Hl.
      rewrite filter_cons_True in Hl by done. rewrite Hf in Hl.
      destruct (filter _ (map_to_list (<[_:=_]> _))) as [|? [|]]; [done..|done].
    + split; [|done]. unfold fund_pool, transaction in Hfund.
      destruct (insert_new _ _ _); cbn [mbind res_bind] in Hfund; [|by injection Hfund].
      destruct (constraints_ok _); [done|by injection Hfund].
  - intros [= <- <-]. split; [done|]. intros b total' k' _. unfold ensure_row. by rewrite Hf.
  - intros [= <- <-]. split; [done|]. done.
Qed.

(** The pool is created once.  On a ledger in order, seeding never finds two pools, keeps the
    books, changes nothing unless it creates the row, and run again - with any total and id -
    it finds what it made. *)
Theorem pool_created_once d m total k o d' :
  books d → _ensure_budget d m total k = (o, d') →
  books d' ∧ o ≠ Raise MultipleResultsFound ∧ (o ≠ Ok true → d' = d)
  ∧ ∀ b total' k', o = Ok b → _ensure_budget d' m total' k' = (Ok false, d').
Proof.
  intros Hb He. unfold _ensure_budget in *.
  destruct (ensure_spec (λ b, spend_row m b && bool_decide (b_parent b = None)) d m total k o d')
    as [Ho Hagain]; [|exact He|].
  { unfold spend_row, new_pool. simpl. by rewrite !bool_decide_true. }
  split_and!.
  - destruct o as [[|]|]; [|by subst..]. pose proof (fund_books d k m (u "spend_bdt") total Hb) as H.
    by rewrite Ho in H.
  - intros ->. unfold ensure_row in He.
    pose proof (pool_row_unique d m (u "spend_bdt") Hb) as Hu.
    destruct (filter _ (map_to_list (budgets d))) as [|p [|q l]] eqn:Hf in He.
    + unfold fund_pool, transaction in He. unfold insert_new in He.
      destruct (budgets d !! k); cbn [mbind res_bind] in He; [done|]. by destruct (constraints_ok _).
    + done.
    + apply Hu. unfold scalar_one.
      assert (filter (λ p, acquire_matches m (u "spend_bdt") None p.2) (map_to_list (budgets d)) = p :: q :: l) as ->; [|done].
      rewrite <- Hf. apply list_filter_iff. intros [j b]. cbn [snd].
      unfold acquire_matches, row_filter, spend_row. rewrite Is_true_true, !andb_true_iff, !bool_decide_eq_true. tauto.
  - intros Hn. destruct o as [[|]|]; [done|by subst..].
  - exact Hagain.
Qed.

(** ** The tree *)

(** What an agent's token carries, as far as scopes, money and approvals go: its own caveats
    and every ancestor's, the grant's first. *)
Definition staged_nodes : list node := _CHILDREN ++ _DESCENDANTS.
Definition own_caveats (n : node) : list Caveat :=
  match node_caveats n with Ok cs => cs ++ approval_caveats n | Raise _ => [] end.
Definition grant_terms : list Caveat :=
  [ScopeSubset (list_to_set (u <$> ["invoice:read"; "vendor:read"; "payment:initiate"]%string));
   BudgetCeiling SPEND_BDT 5000000000].
Definition parent_terms (n : node) : list Caveat :=
  match list_find (λ p, nd_agent p = nd_parent n) staged_nodes with
  | Some (_, p) => own_caveats p | None => grant_terms end.

Fixpoint lineage (fuel : nat) (who : pystr) : list node :=
  match fuel with
  | O => []
  | S fuel => match list_find (λ p, nd_agent p = who) staged_nodes with
              | Some (_, n) => lineage fuel (nd_parent n) ++ [n] | None => [] end
  end.
Definition depth_of (who : pystr) : nat := length (lineage 9 who).
Definition chain_of (who : pystr) : list Caveat := grant_terms ++ (lineage 9 who ≫= own_caveats).

(** Less authority: every caveat narrows the parent's, and either a scope is gone or the
    ceiling is lower. *)
Definition scopes_of (cs : list Caveat) : list pystr :=
  cs ≫= λ c, match c with ScopeSubset s => elements s | _ => [] end.
Definition ceiling_of (cs : list Caveat) : Z :=
  foldr Z.min 5000000000 (omap (λ c, match c with BudgetCeiling SPEND_BDT v => Some v | _ => None end) cs).
Definition strictly_less (n : node) : bool :=
  let own := own_caveats n in
  let above := parent_terms n in
  is_ok (node_caveats n) && is_ok (check_narrowing own above)
  && (existsb (λ s, negb (bool_decide (s ∈ scopes_of own))) (scopes_of above)
      || (ceiling_of own <? ceiling_of above)).

(** Every agent of the tree holds strictly less than the agent above it, names are distinct,
    each parent is listed before its children, and nobody is deeper than the grant allows. *)
Example tree_narrows :
  forallb strictly_less staged_nodes = true
  ∧ bool_decide (NoDup (nd_agent <$> staged_nodes)) = true
  ∧ (foldl (λ seen n, b ← seen; if bool_decide (nd_parent n ∈ b) then Some (b ++ [nd_agent n]) else None)
       (Some [u "root"]) staged_nodes) ≠ None
  ∧ foldr Nat.max 0%nat (depth_of <$> (nd_agent <$> staged_nodes)) = 3%nat.
Proof. split_and!; vm_compute; done. Qed.

(** ** The traffic *)
Inductive layer := Passes | NoScope | OverCeiling | NeedsApproval | TooDeep.

(** The scope a path asks for, the amount of a body, and the first layer that stops it: the
    token's scopes, its ceilings, the policy's depth rule for payments, and then approval. *)
Definition scope_for (c : call) : pystr :=
  if starts_with (u "/proxy/invoices/") (cl_path c) then u "invoice:read"
  else if starts_with (u "/proxy/vendors/") (cl_path c) then u "vendor:read" else u "payment:initiate".
Definition amount_for (c : call) : Z :=
  match cl_body c with
  | Some (VMap body) =>
      match dict_get body (u "amount") VNone with
      | VStr s => match parse_decimal s with
                  | Some (DFin d) => dcoef d * 10 ^ (dexp d + 4) | _ => 0 end
      | _ => 0 end
  | _ => 0
  end.
Definition stopped_by (c : call) : layer :=
  let cs := chain_of (cl_who c) in
  let refuses (p : Caveat → bool) := existsb p cs in
  if refuses (λ k, match k with ScopeSubset s => negb (bool_decide (scope_for c ∈ s)) | _ => false end) then NoScope
  else if refuses (λ k, match k with BudgetCeiling SPEND_BDT v => v <? amount_for c | _ => false end) then OverCeiling
  else if bool_decide (scope_for c = u "payment:initiate") && (2 <? Z.of_nat (depth_of (cl_who c))) then TooDeep
  else if refuses (λ k, match k with RequiresApproval s => bool_decide (scope_for c ∈ s) | _ => false end) then NeedsApproval
  else Passes.
Definition passes (c : call) : bool := match stopped_by c with Passes => true | _ => false end.

(** Exactly the five calls whose labels say so are stopped, each at the layer it is there to
    show; and no payment that goes through asks for more than a lease. *)
Example traffic_meets_its_layers :
  omap (λ c, if passes c then None else Some (cl_label c, stopped_by c)) _TRAFFIC =
  [(u "doc-reader attempts a payment", NoScope);
   (u "settlement agent exceeds its ceiling", OverCeiling);
   (u "bulk buyer places a large order", NeedsApproval);
   (u "root attempts more than the mandate grants", OverCeiling);
   (u "sub-contractor is too deep for the policy", TooDeep)]
  ∧ forallb (λ c, negb (passes c) || (amount_for c <=? 50000000)) _TRAFFIC = true
  ∧ length _TRAFFIC = 138%nat.
Proof. split_and!; vm_compute; reflexivity. Qed.

(** The identity tree grows downward: an agent's first call comes after its parent's, and
    every agent makes one. *)
Definition first_calls : list pystr :=
  foldl (λ seen c, if bool_decide (cl_who c ∈ seen) then seen else seen ++ [cl_who c]) [] _TRAFFIC.
Example tree_grows_downward :
  length first_calls = 14%nat
  ∧ forallb (λ n, match list_find (λ w, w = nd_agent n) first_calls, list_find (λ w, w = nd_parent n) first_calls with
                  | Some (i, _), Some (j, _) => Nat.ltb j i | _, _ => false end) staged_nodes = true.
Proof. split; vm_compute; reflexivity. Qed.

(** ** Driving it *)
Definition unqueued_by (c : call) (a : pep_answer) : bool :=
  match reason_of a with Ok r => bool_decide (r = u "APPROVAL_REQUIRED") | Raise _ => false end
  && negb (value_truthy (body_field a "escalation_id")).

Lemma drive_unqueued sp cp calls : ∀ s s',
  drive_calls sp cp calls s = Ok s' →
  dr_unqueued s' = dr_unqueued s ++ (cl_label ∘ fst <$> filter (λ p, unqueued_by p.1 p.2 = true) calls).
Proof.
  induction calls as [|[c a] calls IH]; intros s s'; cbn [drive_calls].
  - intros H%Ok_inj. subst. by rewrite app_nil_r.
  - intros (s1 & H1 & H)%bind_Ok_inv. rewrite (IH _ _ H). unfold drive_call in H1.
    apply bind_Ok_inv in H1 as (r & Hr & H1). apply Ok_inj in H1. subst s1. cbn [dr_unqueued].
    rewrite filter_cons. unfold unqueued_by. cbn [fst snd]. rewrite Hr.
    set (b := bool_decide (r = u "APPROVAL_REQUIRED") && negb (value_truthy (body_field a "escalation_id"))).
    destruct b; cbn; by rewrite <- ?app_assoc.
Qed.

(** The script fails exactly when the PEP held a call without opening an escalation. *)
Theorem drive_fails_unqueued sp cp answers s n :
  drive sp cp answers = Ok (s, n) →
  (n = 1 ↔ ∃ c a, (c, a) ∈ zip _TRAFFIC answers ∧ unqueued_by c a = true) ∧ (n = 0 ∨ n = 1).
Proof.
  unfold drive. intros (s1 & Hs & H)%bind_Ok_inv. apply Ok_inj in H. injection H as <- <-.
  apply drive_unqueued in Hs. cbn [dr_unqueued app] in Hs. rewrite Hs.
  destruct (filter _ _) as [|[c a] l] eqn:Hf.
  - cbn. split; [|by left]. split; [done|]. intros (c & a & Hin & Ha).
    assert ((c, a) ∈ filter (λ p, unqueued_by p.1 p.2 = true) (zip _TRAFFIC answers)) as Hx
      by (by apply list_elem_of_filter).
    rewrite Hf in Hx. by apply elem_of_nil in Hx.
  - cbn. split; [|by right]. split; [|done]. intros _. exists c, a.
    assert ((c, a) ∈ filter (λ p, unqueued_by p.1 p.2 = true) (zip _TRAFFIC answers)) as Hx
      by (rewrite Hf; left).
    apply list_elem_of_filter in Hx. tauto.
Qed.

(** ** The tools *)

(** The joined parts are different inputs of one short digest. *)
Definition short_collision (p q : list pystr) : Prop :=
  ∃ x y, utf8_encode (py_join _SEPARATOR p) = Ok x ∧ utf8_encode (py_join _SEPARATOR q) = Ok y
    ∧ x ≠ y ∧ take 12 (sha256_hex x) = take 12 (sha256_hex y).

Lemma last_separator (a b t w : pystr) :
  31 ∉ t → 31 ∉ w → a ++ 31 :: t = b ++ 31 :: w → a = b ∧ t = w.
Proof.
  intros Ht Hw. revert b. induction a as [|x a IH]; intros [|y b]; simpl; intros [= E]; subst.
  - done.
  - destruct Ht. apply elem_of_app. right; left.
  - destruct Hw. apply elem_of_app. right; left.
  - match goal with H : _ ++ _ = _ ++ _ |- _ => destruct (IH _ H) as [-> ->] end. done.
Qed.

(** An id binds the account and the amount, whatever characters the account has, as long as
    the amount has no separator in it, unless these very parts collide. *)
Theorem stable_id_binds prefix a t b w i :
  31 ∉ t → 31 ∉ w → _stable_id prefix [a; t] = Ok i → _stable_id prefix [b; w] = Ok i →
  (a = b ∧ t = w) ∨ short_collision [a; t] [b; w].
Proof.
  unfold _stable_id. intros Ht Hw (x & Hx & H1)%bind_Ok_inv (y & Hy & H2)%bind_Ok_inv.
  apply Ok_inj in H1, H2. subst i. apply app_inv_head, app_inv_head in H2.
  destruct (decide (x = y)) as [<-|Hne]; [left|right; by exists x, y].
  apply (last_separator a b t w Ht Hw). cbn [py_join] in Hx, Hy.
  by apply (utf8_encode_inj _ _ _ Hx Hy).
Qed.

(** What an amount is written with. *)
Definition amount_char (c : Z) : bool :=
  is_digit c || (c =? 46) || rng 65 90 c || rng 97 122 c || (c =? 45).

Lemma digits_amount s : forallb (λ c, is_digit c || (c =? 45)) s = true → forallb amount_char s = true.
Proof.
  rewrite !forallb_forall. intros H c Hc. specialize (H c Hc). unfold amount_char.
  apply orb_prop in H as [->| ->]; by rewrite ?orb_true_r.
Qed.

Lemma forallb_part {A} (p : A → bool) l a b : forallb p l = true → forallb p (take a l) = true ∧ forallb p (drop b l) = true.
Proof.
  rewrite !forallb_forall. intros H. split; intros x Hx%list_elem_of_In; apply H, list_elem_of_In;
    [by eapply subseteq_take|by eapply subseteq_drop].
Qed.

Lemma zeros_amount n : forallb amount_char (zeros n) = true.
Proof. unfold zeros. induction (Z.to_nat n) as [|k IH]; [done|]. exact IH. Qed.

Lemma fixed_digits_amount d : forallb amount_char (fixed_digits d) = true.
Proof.
  assert (Hs : ∀ n, forallb amount_char (py_str_int n) = true).
  { intros n. apply digits_amount. pose proof (py_str_int_chars n) as H.
    rewrite forallb_forall in H |- *. intros c Hc. by apply H. }
  unfold fixed_digits. destruct (_ <=? _).
  - destruct (_ =? _); [done|]. by rewrite forallb_app, Hs, zeros_amount.
  - set (s := zeros _ ++ _). assert (forallb amount_char s = true) as H by (unfold s; by rewrite forallb_app, zeros_amount, Hs).
    set (n := (length s - _)%nat). destruct (forallb_part _ s n n H) as [H1 H2].
    by rewrite !forallb_app, H1, H2.
Qed.

Lemma digit_value_range c v : digit_value c = Some v → 0 <= v < 10.
Proof.
  unfold digit_value. destruct (list_find _ _) as [[j z]|] eqn:E; [|done]. cbn.
  apply list_find_Some in E as (_ & Hz & _). intros [= <-]. unfold rng in *. lia.
Qed.

Lemma nan_text_amount s : forallb amount_char (nan_text s) = true.
Proof.
  unfold nan_text. destruct (match strip_prefix _ _ with Some r => _ | None => _ end) as [name diag] eqn:E.
  assert (forallb amount_char name = true) as Hn.
  { destruct (strip_prefix (u "nan") _); injection E as <- _; done. }
  rewrite forallb_app, Hn. cbn [andb]. clear E Hn.
  assert (forallb amount_char ((λ c, 48 + default 0 (digit_value c)) <$> diag) = true) as H.
  { rewrite forallb_forall. intros c (x & -> & _)%list_elem_of_In%list_elem_of_fmap.
    assert (0 <= default 0 (digit_value x) < 10) as Hr.
    { destruct (digit_value x) eqn:Ed; [by apply digit_value_range in Ed|done]. }
    unfold amount_char, is_digit. apply orb_true_iff. left. apply orb_true_iff. left.
    apply orb_true_iff. left. apply orb_true_iff. left. zify_bool. apply andb_true_iff; split; zify_bool; lia. }
  induction (_ <$> diag) as [|c l IH]; [done|]. cbn [drop_while].
  destruct (c =? 48); [|done]. apply IH. by apply andb_prop in H as [_ ?].
Qed.

Lemma amount_text_chars s t : amount_text s = Some t → 31 ∉ t.
Proof.
  unfold amount_text. destruct (signed_text s) as [neg rest].
  destruct (parse_decimal s) as [[d|n|]|]; cbn [mbind option_bind]; [..|done]; intros [= <-];
    assert (∀ r, forallb amount_char r = true → 31 ∉ (if neg then [45] else []) ++ r) as H
      by (intros r Hr [Hc|Hc]%elem_of_app;
          [destruct neg; [apply list_elem_of_singleton in Hc; done|by apply elem_of_nil in Hc]|
           rewrite forallb_forall in Hr; by discriminate (Hr 31 (proj1 (list_elem_of_In _ _) Hc))]);
    apply H; [apply fixed_digits_amount|done|apply nan_text_amount].
Qed.

Section payments.
Context {RP : PyRepr}.

(** A payment is answered exactly when it names an account and an amount that is a decimal;
    what is charged is that amount's text; and an id is given to one account and one amount
    only, unless the short digests of these very parts collide. *)
Theorem payment_ids_bind body body' r r' i :
  initiate_payment body = Ok (VMap r) → initiate_payment body' = Ok (VMap r') →
  dict_get r (u "payment_id") VNone = VStr i → dict_get r' (u "payment_id") VNone = VStr i →
  (dict_get r (u "amount") VNone = dict_get r' (u "amount") VNone
   ∧ py_str (dict_get r (u "account_id") VNone) = py_str (dict_get r' (u "account_id") VNone))
  ∨ ∃ a t a' t', py_str (dict_get r (u "account_id") VNone) = Ok a ∧ dict_get r (u "amount") VNone = VStr t
      ∧ py_str (dict_get r' (u "account_id") VNone) = Ok a' ∧ dict_get r' (u "amount") VNone = VStr t'
      ∧ short_collision [a; t] [a'; t'].
Proof.
  assert (∀ b r i, initiate_payment b = Ok (VMap r) → dict_get r (u "payment_id") VNone = VStr i →
    ∃ account a t s, dict_get r (u "account_id") VNone = account ∧ py_str account = Ok a
      ∧ dict_get r (u "amount") VNone = VStr t ∧ amount_text s = Some t ∧ _stable_id "pay" [a; t] = Ok i) as Hinv.
  { intros b r0 i0. unfold initiate_payment. destruct (is_null _ || is_null _); [done|].
    cbn [raise_if mbind res_bind].
    destruct (py_str (dict_get b (u "amount") VNone)) as [s|]; cbn [mbind res_bind]; [|done].
    destruct (amount_text s) as [t|] eqn:Ht; [|done].
    intros (a & Ha & (pid & Hp & H)%bind_Ok_inv)%bind_Ok_inv. apply Ok_inj in H.
    assert (r0 = [(u "payment_id", VStr pid); (u "account_id", match dict_get b (u "recipient") (VMap []) with
      | VMap recipient => dict_get recipient (u "account_id") VNone | _ => VNone end);
      (u "amount", VStr t); (u "status", VStr (u "accepted"))]) as -> by congruence.
    intros E. assert (pid = i0) as <- by (by injection E). eexists _, a, t, s. split_and!; done. }
  intros H H' Hi Hi'. destruct (Hinv _ _ _ H Hi) as (x & a & t & s & Hx & Ha & Ht & Hs & Hid).
  destruct (Hinv _ _ _ H' Hi') as (x' & a' & t' & s' & Hx' & Ha' & Ht' & Hs' & Hid').
  destruct (stable_id_binds "pay" a t a' t' i (amount_text_chars _ _ Hs) (amount_text_chars _ _ Hs') Hid Hid')
    as [[-> ->]|Hc]; [left|right; exists a, t, a', t'; by rewrite Hx, Hx'].
  by rewrite Ht, Ht', Hx, Hx', Ha, Ha'.
Qed.
End payments.

(** A separator inside a part is the separator: the parts are then not told apart. *)
Example separator_occurs :
  _stable_id "pay" [u "a" ++ [31] ++ u "b"; u "c"] = _stable_id "pay" [u "a"; u "b" ++ [31] ++ u "c"].
Proof. vm_compute. reflexivity. Qed.

(** Asking for a negative number of invoices leaves the last ones out. *)
Example negative_limit : length (slice_to (-1) INVOICES) = 2%nat ∧ length (slice_to 50 INVOICES) = 3%nat.
Proof. done. Qed.

(** How some amounts are written. *)
Example amounts_written :
  (λ s : string, amount_text (u s)) <$> ["12.50"; "1E+3"; "-0"; "1e-5"; " 7 "; "0E+2"; "NaN007"; "-inf"; "x"]%string
  = [Some (u "12.50"); Some (u "1000"); Some (u "-0"); Some (u "0.00001"); Some (u "7"); Some (u "0");
     Some (u "NaN7"); Some (u "-Infinity"); None].
Proof. vm_compute. reflexivity. Qed.

(** ** The race *)

Lemma find_head {A} (k : pystr) (a : A) l :
  list_find (λ kv : pystr * A, kv.1 = k) ((k, a) :: l) = Some (0%nat, (k, a)).
Proof. cbn [list_find fst]. by rewrite decide_True. Qed.
Lemma find_next {A} (k k' : pystr) (a : A) l :
  k' ≠ k → list_find (λ kv : pystr * A, kv.1 = k) ((k', a) :: l)
           = prod_map S id <$> list_find (λ kv : pystr * A, kv.1 = k) l.
Proof. intros. cbn [list_find fst]. by rewrite decide_False. Qed.

(** The ids one seed writes are the ids the drive reads. *)
Theorem ids_survive out ids fresh :
  (run_mandate_id ids < 2 ^ 128)%N → (run_task_id ids < 2 ^ 128)%N →
  resolve_ids (write_state out ids) false fresh = Ok ids
  ∧ as_text (write_state out ids !! MANDATE_ID_FILE) = uuid_text (run_mandate_id ids).
Proof.
  intros Hm Ht. unfold write_state. split; [|by rewrite lookup_insert_eq].
  unfold resolve_ids. rewrite lookup_insert_ne, lookup_insert_eq by done.
  unfold state_uuid, text_map. cbn [fmap list_fmap fst snd].
  rewrite find_head, find_next, find_head by (by vm_compute). cbn [fmap option_fmap option_map prod_map fst snd].
  rewrite (uuid_roundtrip _ Hm). cbn [mbind res_bind id]. rewrite (uuid_roundtrip _ Ht).
  cbn [mbind res_bind]. by destruct ids.
Qed.

Lemma pay_from_spec more : ∀ attempt answers,
  let r := pay_from attempt more answers in
  (py_sent r <= more)%nat ∧ py_retries r = length (py_waits r)
  ∧ match py_result r with
    | PaidGaveUp => py_sent r = more ∧ ∀ i, (attempt <= i < attempt + more)%nat → classify (answers i).1 (answers i).2 = Retry
    | PaidOk => (0 < py_sent r)%nat
        ∧ let i := (attempt + py_sent r - 1)%nat in classify (answers i).1 (answers i).2 = Allowed
    | PaidRefused reason => (0 < py_sent r)%nat
        ∧ let i := (attempt + py_sent r - 1)%nat in (answers i).2 = reason ∧ classify (answers i).1 reason = Final
    end
  ∧ Forall (λ w, RETRY_DELAY <= w <= 4 * RETRY_DELAY) (py_waits r).
Proof.
  induction more as [|more IH]; intros attempt answers r; subst r.
  { cbn. split_and!; [lia|done|done|lia|constructor]. }
  cbn [pay_from]. destruct (answers attempt) as [status reason] eqn:Ha.
  destruct (classify status reason) eqn:Hc.
  - cbn. replace (attempt + 1 - 1)%nat with attempt by lia. rewrite Ha. split_and!; [lia|done|lia|done|constructor].
  - destruct (IH (attempt + 1)%nat answers) as (H1 & H2 & H3 & H4).
    cbn [py_sent py_retries py_waits py_result length]. split_and!; [lia|lia| |].
    + destruct (py_result _).
      * destruct H3 as [? H3]. split; [lia|].
        by replace (attempt + (1 + py_sent (pay_from (attempt + 1) more answers)) - 1)%nat
          with (attempt + 1 + py_sent (pay_from (attempt + 1) more answers) - 1)%nat by lia.
      * destruct H3 as [? H3]. split; [lia|].
        by replace (attempt + (1 + py_sent (pay_from (attempt + 1) more answers)) - 1)%nat
          with (attempt + 1 + py_sent (pay_from (attempt + 1) more answers) - 1)%nat by lia.
      * destruct H3 as [-> H3]. split; [done|]. intros i Hi.
        destruct (decide (i = attempt)) as [->|]; [by rewrite Ha|apply H3; lia].
    + constructor; [|done]. unfold RETRY_DELAY. pose proof (Z.mod_pos_bound (Z.of_nat attempt) 4 ltac:(lia)). lia.
  - cbn. replace (attempt + 1 - 1)%nat with attempt by lia. rewrite Ha. split_and!; [lia|done|lia|done|done|constructor].
Qed.

(** A payment is sent at most forty times; it waits, a fifth of a second at most, only after
    the PEP said its lease was being topped up; it ends on the first other answer, and gives
    up only after forty of those. *)
Theorem payment_ends answers :
  let r := pay answers in
  (py_sent r <= MAX_ATTEMPTS)%nat ∧ py_retries r = length (py_waits r)
  ∧ Forall (λ w, RETRY_DELAY <= w <= 4 * RETRY_DELAY) (py_waits r)
  ∧ (py_result r = PaidGaveUp → ∀ i, (i < MAX_ATTEMPTS)%nat → classify (answers i).1 (answers i).2 = Retry)
  ∧ (py_result r = PaidOk → let i := (py_sent r - 1)%nat in 200 <= (answers i).1 < 300).
Proof.
  unfold pay. pose proof (pay_from_spec MAX_ATTEMPTS 0 answers) as H. cbv zeta in H |- *.
  revert H. generalize (pay_from 0 MAX_ATTEMPTS answers) as r. generalize MAX_ATTEMPTS as more.
  intros more r (H1 & H2 & H3 & H4). split_and!; [done..| |].
  - intros E. rewrite E in H3. destruct H3 as [_ H3]. intros i Hi. apply H3. lia.
  - intros E. rewrite E in H3. destruct H3 as [_ H3]. cbn zeta in H3 |- *. cbn [Nat.add] in H3.
    unfold classify in H3. destruct (_ && _) eqn:Eb; [zify_bool; lia|]. by destruct (bool_decide _).
Qed.

(** The pool is worth thirty of the sixty payments asked for, and the demonstration's claim
    is that no more are allowed. *)
Theorem held_exactly runs :
  requested_total = 2 * RACE_POOL_TOTAL
  ∧ (held (_burst runs) = true ↔ foldr Z.add 0 (allowed_payments (_burst runs)).*2 <= 30).
Proof.
  split; [done|]. unfold held, total_allowed, RACE_POOL_TOTAL, PAYMENT. rewrite Z.leb_le. lia.
Qed.

(** ** The whole set-up, run *)
Section staged_run.
#[local] Existing Instance identity_unicode.
#[local] Existing Instance position_order.
#[local] Existing Instance echo_keys.

Definition staged_now : datetime := DT (63900000000 * 1000000) true.

(** The growing chains of Chains, showing the demonstration's grant. *)
Definition staged_answers : list (pystr * list (list bterm)) :=
  let one p t := (u "d($x) <- " ++ u p ++ u "($x)", [[t]]) in
  [one "mandate"%string (BStr (uuid_text DEMO_MANDATE_ID)); one "task"%string (BStr (uuid_text DEMO_TASK_ID));
   one "principal"%string (BStr DEMO_PRINCIPAL);
   one "intent"%string (BStr match intent_hash DEMO_INTENT with Ok h => h | Raise _ => [] end);
   one "max_depth"%string (BInt 4); one "not_before"%string (BDate (63900000000 - 300));
   one "expires_at"%string (BDate (63900000000 + 8 * 3600));
   (u "d($s) <- scope($s)", [[BStr (u "invoice:read")]; [BStr (u "vendor:read")]; [BStr (u "payment:initiate")]]);
   (u "d($k, $v) <- budget($k, $v)",
     [[BStr (u "spend_bdt"); BInt 5000000000]; [BStr (u "tool_calls"); BInt 10000000];
      [BStr (u "rows_read"); BInt 1000000000]; [BStr (u "external_emails"); BInt 0];
      [BStr (u "wall_clock_s"); BInt 0]])].

Definition staged_lib : BiscuitLib := {|
  Biscuit := list pystr; PublicKey := Z; PrivateKey := Z;
  from_base64 token key :=
    if key =? 7 then t ← strip_prefix (u "En0K") token; unspell [] t else None;
  to_base64 b := u "En0K" ++ spell b;
  block_count b := 1 + Z.of_nat (length b);
  block_source b i := default [] (b !! Z.to_nat (i - 1));
  lib_revocation_ids b := u "root" :: b;
  lib_query _ _ b rule := Ok (default [] (snd <$> (snd <$> list_find (λ p, p.1 = rule) staged_answers)));
  lib_authorize _ _ b := Ok tt;
  lib_append b text := Ok (b ++ [text]);
  lib_build text key := Ok [] |}.

(** Seeding an empty ledger creates the pool and mints fourteen tokens, and once more finds
    the pool; a race is seeded beside it. *)
Example staging_runs :
  let '(r, out, d) := seed_demo (BL := staged_lib) 7 7 staged_now 1%N ∅ empty_db in
  let '(r', _, d') := seed_demo (BL := staged_lib) 7 7 staged_now 2%N out d in
  r = Ok 0 ∧ r' = Ok 0 ∧ size (budgets d') = 1%nat
  ∧ match out !! u "demo-tokens.json" with
    | Some (Json (VMap payload)) =>
        match dict_get payload (u "tokens") VNone with VMap tokens => length tokens = 14%nat | _ => False end
    | _ => False
    end.
Proof. vm_compute. split_and!; reflexivity. Qed.

(** A set that only lacks the role map is generated anew: the root key it had is gone. *)
Example partial_set_rotates :
  let keys n := mkFreshKeys [n] [n] tt in
  let whole := (bootstrap_main (KEYS := echo_keys) false (keys 1) ∅).2 in
  let partial := delete (u "role_assignments.json") whole in
  whole !! u "root_private_key.hex" = Some (Text [1])
  ∧ (bootstrap_main (KEYS := echo_keys) false (keys 2) partial).2 !! u "root_private_key.hex" = Some (Text [2])
  ∧ (bootstrap_main (KEYS := echo_keys) false (keys 2) whole).2 !! u "root_private_key.hex" = Some (Text [1]).
Proof. vm_compute. split_and!; reflexivity. Qed.
End staged_run.
