(* ===== verification/Measure.v ===== *)
(** * Measurements (scripts/evaluate_compiler.py, run_load_test.py, and the server the load test
      measures, serve_pep.py)

    The compiler's dataset and the evaluation of a backend over it; waiting for a server, the
    three tiers at every rate, the spread across runs and the verdict on the budget; and the
    PEP the numbers are a claim about.  What the compiler answered, what the driver measured,
    the clock and the keys are arguments.

    The dataset's check is green exactly when every reference policy gives every expected
    verdict; each case of an evaluation is counted once; a rate is said to meet the budget
    only if every run of it did; and the server measured resolves a request's principal and
    caveats as the deployed one does. *)
From Stdlib Require Import SpecFloat Sorted.
From S2P Require Import Prelude PyText Errors PyNum PyFloat PyTime PyRe PyUuid PySha PyUrl Models Hashing HashingSpec Ledger Lease Settlement Emitter Pool Caveats Tokens Attenuation Decide Escalation Revocation Bundles CedarPolicy PolicyCache PolicySpec Extractor ExtractorSpec Pipeline Recognizer RecognizerSpec Service ServiceSpec Corpus Console ConsoleSpec Stage.

(** ** Rows of dataset.json *)

(** [raw["key"]] and [raw.get("key", default)] on a row whose values have the types the
    dataset writes. *)
Record dataset_row := mkRow {
  dr_name : option pystr; dr_description : option pystr; dr_operation : option pystr;
  dr_expected : option bool; dr_role : option pystr; dr_tool : option pystr;
  dr_amount : option pystr; dr_depth : option Z; dr_elevated : option bool;
  dr_environment : option pystr }.

Record dataset_case := mkCase {
  dc_nl : pystr; dc_reference_cedar : pystr; dc_tests : list dataset_row }.

Definition item {A} (field : option A) : py A :=
  match field with Some x => Ok x | None => Raise KeyError end.

(** A test case's amount is a number: a NaN or an infinity, which Cedar would not take for a
    decimal, is refused here already. *)
Definition as_case (raw : dataset_row) : py PolicyTestCase :=
  name ← item (dr_name raw);
  description ← item (dr_description raw);
  operation ← item (dr_operation raw);
  expected ← item (dr_expected raw);
  match parse_decimal (default (u "0") (dr_amount raw)) with
  | Some (DFin amount) =>
      Ok (mkPolicyTestCase name description operation expected (default (u "worker") (dr_role raw))
            (Some (default (u "invoice_api") (dr_tool raw))) amount (default 1 (dr_depth raw))
            (u "agt-1") (u "kc:alice") (u "00000000-0000-0000-0000-000000000000") []
            (default false (dr_elevated raw)) (default (u "production") (dr_environment raw)))
  | _ => Raise InvalidOperation
  end.

(** ** Scoring a policy *)
Inductive score_detail :=
| DoesNotParse
| AllPassed (passed total : Z)
| FirstFailure (passed total : Z) (name : pystr) (expected actual : bool).

Section scoring.
Context {RP : PyRepr} {CD : Cedar}.

Definition score (cedar_source : pystr) (rows : list dataset_row) : py (bool * score_detail) :=
  match PolicySet_from_str cedar_source with
  | None => Ok (false, DoesNotParse)
  | Some engine =>
      cases ← res_map as_case rows;
      let summary := summarize (run_policy_tests cases (evaluate_case engine)) in
      if ts_all_passed summary then Ok (true, AllPassed (ts_passed summary) (ts_total summary))
      else match ts_failures summary with
           | first :: _ =>
               Ok (false, FirstFailure (ts_passed summary) (ts_total summary)
                            (tc_name (tr_case first)) (tc_expected (tr_case first)) (tr_actual first))
           | [] => Raise IndexError
           end
  end.

(** ** [--validate] *)
Fixpoint validate (cases : list dataset_case) : py Z :=
  match cases with
  | [] => Ok 0
  | case :: cases =>
      verdict ← score (dc_reference_cedar case) (dc_tests case);
      rest ← validate cases;
      Ok ((if verdict.1 : bool then 1 else 0) + rest)
  end.

(** [raise SystemExit(0 if validate(cases) == len(cases) else 1)]. *)
Definition validate_exit (cases : list dataset_case) : py Z :=
  passed ← validate cases;
  Ok (if passed =? Z.of_nat (length cases) then 0 else 1).

(** ** The evaluation of a backend *)

(** What one compilation gave: an exception, or the policy it wrote ([None]: it asked
    instead); and the seconds from its start to where the clock is read, after the answer
    and in an [except] clause. *)
Record attempt := mkAttempt {
  at_output : py (option pystr); at_answered : pyfloat; at_raised : pyfloat }.

Record tally := mkTally {
  tl_passed : Z; tl_wrong : Z; tl_unparseable : Z; tl_ambiguous : Z; tl_errors : Z;
  tl_durations : list pyfloat }.
Definition no_tally : tally := mkTally 0 0 0 0 0 [].

Definition took (t : tally) (d : pyfloat) : tally :=
  mkTally (tl_passed t) (tl_wrong t) (tl_unparseable t) (tl_ambiguous t) (tl_errors t)
    (tl_durations t ++ [d]).
Definition one_passed (t : tally) : tally :=
  mkTally (tl_passed t + 1) (tl_wrong t) (tl_unparseable t) (tl_ambiguous t) (tl_errors t) (tl_durations t).
Definition one_wrong (t : tally) : tally :=
  mkTally (tl_passed t) (tl_wrong t + 1) (tl_unparseable t) (tl_ambiguous t) (tl_errors t) (tl_durations t).
Definition one_unparseable (t : tally) : tally :=
  mkTally (tl_passed t) (tl_wrong t) (tl_unparseable t + 1) (tl_ambiguous t) (tl_errors t) (tl_durations t).
Definition one_ambiguous (t : tally) : tally :=
  mkTally (tl_passed t) (tl_wrong t) (tl_unparseable t) (tl_ambiguous t + 1) (tl_errors t) (tl_durations t).
Definition one_error (t : tally) : tally :=
  mkTally (tl_passed t) (tl_wrong t) (tl_unparseable t) (tl_ambiguous t) (tl_errors t + 1) (tl_durations t).

(** Both [except] clauses read the clock and count an error. *)
Definition evaluate_one (t : tally) (case : dataset_case) (a : attempt) : tally :=
  match at_output a with
  | Raise _ => one_error (took t (at_raised a))
  | Ok None => one_ambiguous (took t (at_answered a))
  | Ok (Some cedar_source) =>
      let t := took t (at_answered a) in
      match score cedar_source (dc_tests case) with
      | Ok (true, _) => one_passed t
      | Ok (false, DoesNotParse) => one_unparseable t
      | Ok (false, _) => one_wrong t
      | Raise _ => one_error (took t (at_raised a))
      end
  end.

Fixpoint evaluate_cases (t : tally) (cases : list (dataset_case * attempt)) : tally :=
  match cases with
  | [] => t
  | (case, a) :: cases => evaluate_cases (evaluate_one t case a) cases
  end.

(** [sorted] on floats, none of them a NaN. *)
Definition float_le (x y : pyfloat) : Prop := float_lt y x = false.
#[global] Instance float_le_dec : RelDecision float_le.
Proof. intros x y. unfold float_le. apply _. Defined.
Definition sorted_floats (l : list pyfloat) : list pyfloat := merge_sort float_le l.

(** [statistics.median] of what is sorted already. *)
Definition median (ordered : list pyfloat) : py pyfloat :=
  let n := length ordered in
  if Nat.eqb n 0 then Raise ValueError
  else if Nat.odd n then Ok (default zero (ordered !! (n / 2)%nat))
  else float_div (float_add (default zero (ordered !! (n / 2 - 1)%nat)) (default zero (ordered !! (n / 2)%nat)))
         (float_of_Z 2).

(** [100 * passed / total] is a float. *)
Definition percent (passed total : Z) : py pyfloat :=
  if total =? 0 then Raise ZeroDivisionError
  else Ok (let n := 100 * passed in
           match n, total with
           | Z.pos n, Z.pos d => float_of_ratio false n d
           | _, _ => zero
           end).

Record evaluation := mkEvaluation {
  ev_total : Z; ev_percent : pyfloat; ev_tally : tally;
  ev_latency : option (pyfloat * pyfloat * pyfloat) }.        (* median, min, max *)

Definition evaluate (cases : list (dataset_case * attempt)) : py evaluation :=
  let total := Z.of_nat (length cases) in
  let t := evaluate_cases no_tally cases in
  p ← percent (tl_passed t) total;
  match sorted_floats (tl_durations t) with
  | [] => Ok (mkEvaluation total p t None)
  | (least :: _) as ordered =>
      m ← median ordered;
      Ok (mkEvaluation total p t (Some (m, least, List.last ordered least)))
  end.
End scoring.

(** ** serve_pep.py: the harness *)
Definition PERF_POLICY : pystr :=
  [newline] ++
  ((["permit(principal, action == Action::'invoice:read', resource);";
     "permit(principal, action == Action::'payment:initiate', resource)";
     "when { context.amount.lessThanOrEqual(decimal('100000.0')) };"]%string : list string) ≫= cedar_line).
Definition PERF_POOL_TOTAL : decimal := Dec 1000000000000 (-4).
Definition LEASE_SIZE : Z := 10000000000.

Definition perf_pool_settings : PoolSettings :=
  mkPoolSettings (u "pep-perf") LEASE_SIZE 60000000 5000000 (Dec 25 (-2)).
Definition perf_emitter_settings : EmitterSettings := mkEmitterSettings 16384 BP_DENY 64 500.
Definition perf_settlement_settings : SettlementSettings := mkSettlementSettings 8192 250 64 500.

#[local] Open Scope string_scope.
Definition perf_tools : gmap pystr ToolFacts :=
  {[ u "invoice_api" := mkToolFacts (u "invoice_api") (u "erp") (u "low") false;
     u "payment_api" := mkToolFacts (u "payment_api") (u "bank") (u "high") true ]}.
#[local] Close Scope string_scope.

Section harness.
Context {UN : Unicode} {ST : SortTies} {CA : Casing} {RT : Routing} {BL : BiscuitLib} {RP : PyRepr}
  {CD : Cedar} {DR : Type}.

Definition perf_mandate (mandate_id task_id : uuid) (now : datetime) : py Mandate :=
  intent ← hash_object (VStr (u "agentiam-load-profile"));
  budget ← mk_Budget PERF_POOL_TOTAL 10000000 0 0 0;
  not_before ← dt_add (dt_us now) (- 300000000);
  expires_at ← dt_add (dt_us now) (24 * 3600 * 1000000);
  mk_Mandate mandate_id task_id (u "kc:perf") intent {[ u "invoice:read"; u "payment:initiate" ]}
    budget 4 (DT not_before (dt_aware now)) (DT expires_at (dt_aware now)).

Definition perf_principal_for (token : VerifiedToken) : py AgentPrincipal :=
  identity ← token_identity token;
  Ok (mkAgentPrincipal
        (match agent_id identity with
         | Some ((_ :: _) as a) => a | _ => u "agt-depth-" ++ py_str_int (vt_depth token) end)
        (u "worker") (vt_principal_id token) (vt_task_id token) (default [] (role identity))).

(** [--no-audit]: counts records and writes nothing. *)
Definition dropping_write {R} (count : Z) (batch : list R) : Z := count + Z.of_nat (length batch).

Record perf_app := mkPerfApp {
  pa_base_url : pystr;
  pa_pipeline : option (Pipeline (RV := InMemoryRevocationSet) (DR := DR)) }.

(** The app and the bearer token. *)
Definition build_app (mandate_id task_id : uuid) (sk : PrivateKey) (key_set : RootKeySet)
    (upstream : option pystr) (enforce : bool) (now : datetime) : py (perf_app * pystr) :=
  mandate ← perf_mandate mandate_id task_id now;
  pool ← check_pool_settings perf_pool_settings;
  emitter ← check_emitter_settings perf_emitter_settings;
  routes ← from_config ROUTES;
  policy ← new_engine (mkPolicyBundle (u "bundle-perf") PERF_POLICY 0 None None None) (Some perf_tools) false None;
  let pipeline := mkPipeline routes key_set policy perf_principal_for pool emitter
                    perf_settlement_settings (mkInMemory ∅ None) (u "pep-perf") (u "none") (900 * 1000000)
                    token_caveats None None false in
  let base_url := match upstream with Some ((_ :: _) as b) => b | _ => u "http://tools" end in
  token ← mint_root mandate sk;
  Ok (mkPerfApp base_url (if enforce then Some pipeline else None), token).

(** [_start]: unlike the deployed service, a first lease that raises stops the start. *)
Definition perf_start (enforce : bool) (p : pool) (ask : unit → py (option LeaseGrant)) : py unit * pool :=
  if negb enforce then (Ok tt, p) else
  match p_held p !! SPEND_BDT with
  | Some _ => (Ok tt, p)
  | None =>
      match ask tt with
      | Raise e => (Raise e, p)
      | Ok grant => let '(p, _, _) := acquire_reply p SPEND_BDT grant in (Ok tt, p)
      end
  end.
End harness.

(** ** run_load_test.py: waiting for a server *)

(** One probe: the server's exit code if it has one, and what its URL gave. *)
Inductive probe_answer := Status (code : Z) | NoAnswer | ProbeRaised (e : exn).
Record probe := mkProbe { pb_clock : Z; pb_exited : option Z; pb_answer : probe_answer }.

(** [None] while it is still waiting; the clock counts microseconds. *)
Fixpoint wait_until (deadline : Z) (probes : list probe) : option (py unit) :=
  match probes with
  | [] => None
  | p :: probes =>
      if negb (pb_clock p <? deadline) then Some (Raise RuntimeError)
      else match pb_exited p with
           | Some _ => Some (Raise RuntimeError)
           | None =>
               match pb_answer p with
               | Status code => if code =? 200 then Some (Ok tt) else wait_until deadline probes
               | NoAnswer => wait_until deadline probes
               | ProbeRaised e => Some (Raise e)
               end
           end
  end.
Definition _wait_for (timeout started : Z) (probes : list probe) : option (py unit) :=
  wait_until (started + timeout) probes.

(** ** Measuring *)
Definition PROFILES : list Z := [100; 500].
Definition OVERHEAD_BUDGET_MS : pyfloat := float_of_Z 8.

(** [n / d] to the nearest whole number, halves to even; both positive. *)
Definition nearest_even (n d : Z) : Z :=
  let q := n / d in
  let r := n mod d in
  if (2 * r <? d) || ((2 * r =? d) && Z.even q) then q else q + 1.

(** [round(x, 3)]: the exact value to three places, then the nearest float. *)
Definition round3 (x : pyfloat) : pyfloat :=
  match x with
  | S754_finite s m e =>
      let n := Z.pos m * 1000 * 2 ^ Z.max 0 e in
      float_of_dec s (nearest_even n (2 ^ Z.max 0 (- e))) (-3)
  | x => x
  end.

Record spread := mkSpread { sp_min : pyfloat; sp_median : pyfloat; sp_max : pyfloat }.
Definition _spread (values : list pyfloat) : py spread :=
  match sorted_floats values with
  | [] => Raise IndexError
  | (least :: _) as ordered =>
      m ← median ordered;
      Ok (mkSpread (round3 least) (round3 m) (round3 (List.last ordered least)))
  end.

(** What the driver says of one load. *)
Record load := mkLoad { ld_achieved_rps : pyfloat; ld_p50 : pyfloat; ld_p99 : pyfloat }.
(** The three tiers of one run. *)
Record tiers := mkTiers { ti_upstream_only : load; ti_proxy_no_enforcement : load; ti_enforcing_pep : load }.
Record overhead := mkOverhead { oh_p50 : pyfloat; oh_p99 : pyfloat }.

Record run := mkRun {
  rn_run : Z; rn_saturated : bool; rn_tiers : tiers;
  rn_proxy_hop : overhead; rn_enforcement : overhead; rn_total : overhead }.

Definition overhead_of (slow fast : load) : overhead :=
  mkOverhead (round3 (float_sub (ld_p50 slow) (ld_p50 fast))) (round3 (float_sub (ld_p99 slow) (ld_p99 fast))).

(** [rps * 0.9], and the first of the least achieved rates. *)
Definition nine_tenths : pyfloat := float_of_ratio false 9 10.
Definition run_of (rps attempt : Z) (t : tiers) : run :=
  let offered := float_min (float_min (ld_achieved_rps (ti_upstream_only t))
                              (ld_achieved_rps (ti_proxy_no_enforcement t)))
                   (ld_achieved_rps (ti_enforcing_pep t)) in
  mkRun attempt (float_lt offered (float_mul (float_of_Z rps) nine_tenths)) t
    (overhead_of (ti_proxy_no_enforcement t) (ti_upstream_only t))
    (overhead_of (ti_enforcing_pep t) (ti_proxy_no_enforcement t))
    (overhead_of (ti_enforcing_pep t) (ti_upstream_only t)).

(** [max(...)]; [ValueError] of nothing. *)
Definition float_maximum (l : list pyfloat) : py pyfloat :=
  match l with [] => Raise ValueError | x :: l => Ok (foldl float_max x l) end.

Record profile := mkProfile {
  pf_target_rps : Z; pf_runs : Z; pf_saturated : bool;
  pf_enforcement : spread; pf_hop : spread; pf_total : spread; pf_enforcement_p50 : spread;
  pf_all_runs : list run; pf_last : option run;
  pf_meets_total : bool; pf_meets_enforcement : bool }.

Definition measure_rate (repeat : Z) (drive : Z → tiers) (rps : Z) : py profile :=
  let runs := (λ attempt, run_of rps (Z.of_nat attempt) (drive (Z.of_nat attempt)))
                <$> List.seq 1 (Z.to_nat repeat) in
  enforcement ← _spread ((λ r, oh_p99 (rn_enforcement r)) <$> runs);
  hop ← _spread ((λ r, oh_p99 (rn_proxy_hop r)) <$> runs);
  total ← _spread ((λ r, oh_p99 (rn_total r)) <$> runs);
  enforcement_p50 ← _spread ((λ r, oh_p50 (rn_enforcement r)) <$> runs);
  let saturated := existsb rn_saturated runs in
  worst_enforce ← float_maximum ((λ r, oh_p99 (rn_enforcement r)) <$> runs);
  total_worst ← float_maximum ((λ r, oh_p99 (rn_total r)) <$> runs);
  Ok (mkProfile rps repeat saturated enforcement hop total enforcement_p50 runs (last runs)
        (float_lt total_worst OVERHEAD_BUDGET_MS && negb saturated)
        (float_lt worst_enforce OVERHEAD_BUDGET_MS && negb saturated)).

(** [drive rps attempt]: the three loads of that run. *)
Definition _measure (rates : list Z) (repeat : Z) (drive : Z → Z → tiers) : py (list profile) :=
  res_map (λ rps, measure_rate repeat (drive rps) rps) rates.

(** ** The order of floats *)
Definition not_nan (x : pyfloat) : Prop := x ≠ S754_nan.

(** Two exact values, scaled to a common exponent. *)
Lemma dyadic_lt_at a b k :
  k <= a.2 → k <= b.2 → dyadic_compare a b = Lt ↔ a.1 * 2 ^ (a.2 - k) < b.1 * 2 ^ (b.2 - k).
Proof.
  intros Ha Hb. unfold dyadic_compare. rewrite Z.compare_lt_iff.
  set (m := Z.min a.2 b.2).
  assert (k <= m <= a.2 ∧ m <= b.2) as Hm by (unfold m; lia).
  replace (a.2 - k) with ((a.2 - m) + (m - k)) by lia. replace (b.2 - k) with ((b.2 - m) + (m - k)) by lia.
  rewrite !Z.pow_add_r, !Z.mul_assoc by lia. apply Z.mul_lt_mono_pos_r.
  apply Z.pow_pos_nonneg; lia.
Qed.

Lemma dyadic_lt_trans a b c :
  dyadic_compare b a ≠ Lt → dyadic_compare c b ≠ Lt → dyadic_compare c a ≠ Lt.
Proof.
  set (k := Z.min a.2 (Z.min b.2 c.2)). rewrite !(dyadic_lt_at _ _ k) by (unfold k; lia). lia.
Qed.

Lemma dyadic_lt_asym a b : dyadic_compare a b = Lt → dyadic_compare b a ≠ Lt.
Proof. set (k := Z.min a.2 b.2). rewrite !(dyadic_lt_at _ _ k) by (unfold k; lia). lia. Qed.

(** [float_lt], case by case. *)
Lemma float_lt_finite x y a b :
  dyadic_of x = Some a → dyadic_of y = Some b → float_lt x y = true ↔ dyadic_compare a b = Lt.
Proof.
  unfold float_lt, float_compare. intros Ha Hb.
  destruct x, y; try done; rewrite Ha, Hb; cbn [mbind option_bind];
    destruct (dyadic_compare a b); split; done.
Qed.

Lemma float_cases x :
  x = S754_nan ∨ (∃ s, x = S754_infinity s) ∨ ∃ a, dyadic_of x = Some a.
Proof. destruct x; eauto. Qed.

Lemma float_le_total x y : float_le x y ∨ float_le y x.
Proof.
  unfold float_le. destruct (float_lt y x) eqn:E; [right|by left].
  destruct (float_cases x) as [->|[[s ->]|[a Ha]]], (float_cases y) as [->|[[s' ->]|[b Hb]]];
    try done; try (by destruct s, s'); try (by destruct y, s'); try (by destruct y, s); try (by destruct x, s');
    try (by destruct x); try (by destruct y).
  apply (float_lt_finite _ _ _ _ Hb Ha) in E. apply not_true_iff_false.
  rewrite (float_lt_finite _ _ _ _ Ha Hb). by apply dyadic_lt_asym.
Qed.
#[global] Instance float_le_Total : Total float_le.
Proof. intros x y. apply float_le_total. Qed.

Lemma float_le_trans x y z : not_nan y → float_le x y → float_le y z → float_le x z.
Proof.
  unfold float_le. intros Hy.
  destruct (float_cases y) as [->|[[s' ->]|[b Hb]]]; [by destruct Hy| |].
  - destruct s', x as [|[]| |], z as [|[]| |]; done.
  - destruct (float_cases x) as [->|[[s ->]|[a Ha]]], (float_cases z) as [->|[[s' ->]|[c Hc]]];
      try done; try (by destruct y, s, s'); try (by destruct y, s); try (by destruct y, s'); try (by destruct z);
      try (by destruct x); try (by destruct x, s'); try (by destruct y, z, s); try (by destruct x, y, s').
    rewrite <- !not_true_iff_false.
    rewrite (float_lt_finite _ _ _ _ Hb Ha), (float_lt_finite _ _ _ _ Hc Hb), (float_lt_finite _ _ _ _ Hc Ha).
    apply dyadic_lt_trans.
Qed.

(** ** Sorting and the greatest *)
Lemma sorted_from x l :
  Sorted float_le l → Forall not_nan l → HdRel float_le x l → Forall (float_le x) l.
Proof.
  intros Hs. revert x. induction Hs as [|y l Hs IH Hy]; intros x Hn Hx; [constructor|].
  inversion Hx as [|? ? Hxy]; subst. inversion Hn as [|? ? Hyn Hln]; subst. constructor; [done|].
  eapply Forall_impl; [by apply IH|]. intros z Hz. by apply (float_le_trans x y z).
Qed.

Lemma sorted_least x l : Sorted float_le (x :: l) → Forall not_nan (x :: l) → Forall (float_le x) (x :: l).
Proof.
  intros Hs Hn. inversion Hs; subst. inversion Hn; subst. constructor; [|by apply sorted_from].
  by destruct (float_le_total x x).
Qed.

Lemma sorted_greatest l d :
  l ≠ [] → Sorted float_le l → Forall not_nan l → Forall (λ x, float_le x (List.last l d)) l.
Proof.
  induction l as [|x l IH]; intros Hne Hs Hn; [done|]. inversion Hs as [|? ? Hs' Hx]; subst.
  inversion Hn as [|? ? Hxn Hln]; subst. destruct l as [|y l].
  { constructor; [|done]. by destruct (float_le_total x x). }
  change (List.last (x :: y :: l) d) with (List.last (y :: l) d).
  pose proof (IH ltac:(done) Hs' Hln) as Hall. constructor; [|done].
  inversion Hx as [|? ? Hxy]; subst. inversion Hall; inversion Hln; subst.
  by apply (float_le_trans x y).
Qed.

Lemma last_elem {A} (l : list A) d : l ≠ [] → List.last l d ∈ l.
Proof.
  induction l as [|x l IH]; intros H; [done|]. destruct l as [|y l]; [by left|].
  change (List.last (x :: y :: l) d) with (List.last (y :: l) d). right. by apply IH.
Qed.

(** The spread of a rate's runs is the least and the greatest of them, to three places. *)
Theorem spread_is_range values s :
  Forall not_nan values → _spread values = Ok s →
  ∃ least greatest, least ∈ values ∧ greatest ∈ values
    ∧ Forall (λ v, float_le least v ∧ float_le v greatest) values
    ∧ sp_min s = round3 least ∧ sp_max s = round3 greatest.
Proof.
  unfold _spread. intros Hn. pose proof (merge_sort_Permutation float_le values) as Hp.
  pose proof (Sorted_merge_sort float_le values) as Hs. fold (sorted_floats values) in Hp, Hs.
  destruct (sorted_floats values) as [|x l]; [done|]. intros (m & Hm & [= <-])%bind_Ok_inv.
  assert (Forall not_nan (x :: l)) as Hn' by by rewrite Hp.
  exists x, (List.last (x :: l) x). split_and!; try done.
  - rewrite <- Hp. by left.
  - rewrite <- Hp. by apply last_elem.
  - rewrite <- Hp. apply Forall_and. split; [by apply sorted_least|by apply sorted_greatest].
Qed.

(** No run, no spread: [--repeat 0] fails. *)
Lemma no_run_fails repeat drive rps : repeat <= 0 → measure_rate repeat drive rps = Raise IndexError.
Proof. intros H. unfold measure_rate. by replace (Z.to_nat repeat) with O by lia. Qed.

Lemma float_lt_le_trans x y z : not_nan y → not_nan x → float_le x y → float_lt y z = true → float_lt x z = true.
Proof.
  intros Hy Hx Hxy Hyz. destruct (float_lt x z) eqn:E; [done|].
  assert (float_le z y) as H by (apply (float_le_trans z x y); done).
  unfold float_le in H. congruence.
Qed.

Lemma maximum_bounds l m bound :
  Forall not_nan l → float_maximum l = Ok m → float_lt m bound = true →
  Forall (λ x, float_lt x bound = true) l.
Proof.
  destruct l as [|x l]; [done|]. intros Hn [= <-]. apply Forall_cons in Hn as [Hx Hl].
  revert x Hx. induction l as [|y l IH]; intros x Hx Hm; [by constructor|].
  apply Forall_cons in Hl as [Hy Hl]. cbn [foldl] in Hm. unfold float_max at 2 in Hm.
  destruct (float_lt x y) eqn:E.
  - apply IH in Hm; [|done..]. apply Forall_cons in Hm as [Hyb Hm].
    constructor; [|by constructor]. apply (float_lt_le_trans x y); try done.
    destruct (float_le_total x y) as [H|H]; [done|]. unfold float_le in H. congruence.
  - apply IH in Hm; [|done..]. apply Forall_cons in Hm as [Hxb Hm].
    constructor; [done|]. constructor; [|done]. apply (float_lt_le_trans y x); try done.
Qed.

Lemma met_by_all (f : run → pyfloat) runs m :
  Forall (λ r, not_nan (f r)) runs → float_maximum (f <$> runs) = Ok m →
  float_lt m OVERHEAD_BUDGET_MS && negb (existsb rn_saturated runs) = true →
  Forall (λ r, rn_saturated r = false ∧ float_lt (f r) OVERHEAD_BUDGET_MS = true) runs.
Proof.
  intros Hn Hm [Hb Hs]%andb_prop. apply negb_true_iff in Hs.
  apply Forall_and. split.
  - apply Forall_forall. intros r Hr. apply not_true_iff_false. intros Ht.
    apply not_true_iff_false in Hs. apply Hs, existsb_exists. exists r. by rewrite <- list_elem_of_In.
  - apply (maximum_bounds (f <$> runs) m) in Hb; [|by apply Forall_fmap|done]. by apply Forall_fmap in Hb.
Qed.

(** A rate is said to meet the budget for enforcement only if every run of it did: the
    host offered nine tenths of the rate in each, and the 99th percentile with enforcement
    exceeded the one without by less than 8 ms; and likewise for the total. *)
Theorem budget_met_by_every_run repeat drive rps p :
  measure_rate repeat drive rps = Ok p →
  Forall (λ r, not_nan (oh_p99 (rn_enforcement r)) ∧ not_nan (oh_p99 (rn_total r))) (pf_all_runs p) →
  pf_all_runs p ≠ []
  ∧ (pf_meets_enforcement p = true →
       Forall (λ r, rn_saturated r = false ∧ float_lt (oh_p99 (rn_enforcement r)) OVERHEAD_BUDGET_MS = true)
         (pf_all_runs p))
  ∧ (pf_meets_total p = true →
       Forall (λ r, rn_saturated r = false ∧ float_lt (oh_p99 (rn_total r)) OVERHEAD_BUDGET_MS = true)
         (pf_all_runs p)).
Proof.
  unfold measure_rate. set (runs := _ <$> List.seq _ _). clearbody runs.
  intros H Hn. inv_ok. cbn in Hn |- *. apply Forall_and in Hn as [He Ht].
  split_and!; [by intros ->|by eapply met_by_all|by eapply met_by_all].
Qed.

(** ** Waiting for a server *)

(** A server is taken to be up only when its URL answered 200, in time, and it had exited at
    no probe until then. *)
Theorem up_only_when_answered timeout started probes :
  _wait_for timeout started probes = Some (Ok tt) →
  ∃ before p after, probes = before ++ p :: after ∧ pb_answer p = Status 200
    ∧ Forall (λ q, pb_clock q < started + timeout ∧ pb_exited q = None) (before ++ [p]).
Proof.
  unfold _wait_for. generalize (started + timeout). intros d.
  induction probes as [|p probes IH]; [done|]. cbn [wait_until].
  destruct (Z.ltb_spec (pb_clock p) d) as [Hd|]; [|done]. cbn [negb].
  destruct (pb_exited p) eqn:Hx; [done|].
  assert (wait_until d probes = Some (Ok tt) → ∃ before q after, p :: probes = before ++ q :: after
    ∧ pb_answer q = Status 200 ∧ Forall (λ q, pb_clock q < d ∧ pb_exited q = None) (before ++ [q])) as Hlater.
  { intros (b & q & a & -> & Hq & Hb)%IH. exists (p :: b), q, a. split_and!; [done|done|by constructor]. }
  destruct (pb_answer p) as [code| |e] eqn:Ha; [|done..].
  destruct (Z.eqb_spec code 200) as [->|]; [|done]. intros _.
  exists [], p, probes. split_and!; [done|done|by repeat constructor].
Qed.

(** It does not wait past its deadline. *)
Theorem wait_ends timeout started probes :
  (∃ p, p ∈ probes ∧ started + timeout <= pb_clock p) → is_Some (_wait_for timeout started probes).
Proof.
  unfold _wait_for. generalize (started + timeout). intros d (q & Hq & Hd).
  induction probes as [|p probes IH]; [by apply elem_of_nil in Hq|]. cbn [wait_until].
  destruct (Z.ltb_spec (pb_clock p) d) as [Hp|]; [|done]. cbn [negb].
  apply elem_of_cons in Hq as [->|Hq]; [lia|]. apply IH in Hq.
  destruct (pb_exited p); [done|]. destruct (pb_answer p) as [code| |]; try done. by destruct (code =? 200).
Qed.

(** ** The compiler's evaluation *)
Section evaluation.
Context {RP : PyRepr} {CD : Cedar}.

(** A policy wins a case: it parses and gives each test of it the expected verdict. *)
Definition wins (cedar_source : pystr) (rows : list dataset_row) : Prop :=
  ∃ engine cases, PolicySet_from_str cedar_source = Some engine ∧ res_map as_case rows = Ok cases
    ∧ Forall (λ c, ∃ v, evaluate_case engine c = Ok v ∧ pv_allowed v = tc_expected c) cases.

Definition as_expected (engine : policy_set) (c : PolicyTestCase) : Prop :=
  ∃ v, evaluate_case engine c = Ok v ∧ pv_allowed v = tc_expected c.

Lemma results_passed engine cases :
  Forall (λ r, tr_passed r = true) (run_policy_tests cases (evaluate_case engine))
  ↔ Forall (as_expected engine) cases.
Proof.
  unfold run_policy_tests. rewrite Forall_fmap. apply Forall_iff. intros c. split; [by apply case_passed|].
  intros (v & Hv & Hvc). simpl. unfold run_case. rewrite Hv. cbn. by rewrite Hvc, Bool.eqb_reflx.
Qed.

Lemma all_passed_results results :
  ts_all_passed (summarize results) = true ↔ Forall (λ r, tr_passed r = true) results.
Proof. unfold summarize. cbn [ts_all_passed]. by rewrite Z.eqb_eq, count_none. Qed.

(** A failure that is listed failed, and was expected otherwise. *)
Lemma failure_listed engine cases r :
  r ∈ ts_failures (summarize (run_policy_tests cases (evaluate_case engine))) →
  tc_expected (tr_case r) = negb (tr_actual r).
Proof.
  cbn [ts_failures summarize]. rewrite list_elem_of_In, filter_In, <- list_elem_of_In.
  intros [(c & -> & _)%list_elem_of_fmap Hp%negb_true_iff]. revert Hp. unfold run_case.
  destruct (evaluate_case engine c) as [v|]; cbn; [|by destruct (tc_expected c)].
  by destruct (pv_allowed v), (tc_expected c).
Qed.

Lemma no_failures results : ts_failures (summarize results) = [] → Forall (λ r, tr_passed r = true) results.
Proof.
  cbn [ts_failures summarize]. intros Hr. apply Forall_forall. intros r Hin.
  destruct (tr_passed r) eqn:E; [done|].
  assert (r ∈ List.filter (λ r, negb (tr_passed r)) results) as Hf.
  { apply list_elem_of_In, filter_In. by rewrite <- list_elem_of_In, E. }
  rewrite Hr in Hf. by apply elem_of_nil in Hf.
Qed.

(** What [score] says: it wins; it does not parse; or the first test it fails, by name and
    with the verdict it got. *)
Theorem score_says source rows :
  match score source rows with
  | Ok (true, _) => wins source rows
  | Ok (false, DoesNotParse) => PolicySet_from_str source = None
  | Ok (false, AllPassed _ _) => False
  | Ok (false, FirstFailure _ _ name expected actual) =>
      is_Some (PolicySet_from_str source) ∧ ¬ wins source rows ∧ expected = negb actual
  | Raise _ => ∃ e, res_map as_case rows = Raise e
  end.
Proof.
  unfold score. destruct (PolicySet_from_str source) as [engine|] eqn:He; [|done].
  destruct (res_map as_case rows) as [cases|e] eqn:Hc; [|by exists e]. cbn [mbind res_bind].
  set (results := run_policy_tests cases (evaluate_case engine)).
  destruct (ts_all_passed (summarize results)) eqn:Ha.
  { exists engine, cases. split_and!; [done..|]. by apply results_passed, all_passed_results. }
  assert (¬ Forall (λ r, tr_passed r = true) results) as Hf.
  { rewrite <- all_passed_results. by rewrite Ha. }
  destruct (ts_failures (summarize results)) as [|r l] eqn:Hr; [by apply no_failures in Hr|].
  split_and!; [done| |].
  - intros (engine' & cases' & He' & Hc' & Hall). rewrite He in He'. rewrite Hc in Hc'. simplify_eq.
    by apply Hf, results_passed.
  - apply (failure_listed engine cases). fold results. rewrite Hr. by left.
Qed.

(** ** The dataset's own check *)
Lemma validate_counts cases n :
  validate cases = Ok n →
  0 <= n <= Z.of_nat (length cases)
  ∧ (n = Z.of_nat (length cases) ↔ Forall (λ c, wins (dc_reference_cedar c) (dc_tests c)) cases).
Proof.
  revert n. induction cases as [|c cases IH]; intros n; cbn [validate].
  { intros [= <-]. split; [simpl; lia|]. by split. }
  intros ([ok d] & Hs & (m & Hm & [= <-])%bind_Ok_inv)%bind_Ok_inv. apply IH in Hm as [Hb Hm].
  cbn [fst length]. rewrite Forall_cons, <- Hm. pose proof (score_says (dc_reference_cedar c) (dc_tests c)) as H.
  rewrite Hs in H. destruct ok; [split; [lia|]; split; [intros; split; [done|lia]|lia]|].
  split; [lia|]. split; [lia|]. intros [(engine & cs & He & Hc & Hall) _]. exfalso.
  destruct d; [congruence|done|]. destruct H as (_ & H & _). apply H. by exists engine, cs.
Qed.

(** The dataset's check exits 0 exactly when every reference policy parses and gives
    each of its tests the expected verdict, and it answers whenever the tests can be read. *)
Theorem instrument_checked cases :
  Forall (λ c, is_ok (res_map as_case (dc_tests c)) = true) cases →
  ∃ code, validate_exit cases = Ok code ∧ (code = 0 ∨ code = 1)
    ∧ (code = 0 ↔ Forall (λ c, wins (dc_reference_cedar c) (dc_tests c)) cases).
Proof.
  intros Hr. assert (∃ n, validate cases = Ok n) as [n Hn].
  { induction Hr as [|c cases Hc _ [n Hn]]; [by eexists|]. cbn [validate]. rewrite Hn.
    pose proof (score_says (dc_reference_cedar c) (dc_tests c)) as H.
    destruct (score _ _) as [[ok d]|e]; [by eexists|]. destruct H as [e' H]. by rewrite H in Hc. }
  unfold validate_exit. rewrite Hn. cbn [mbind res_bind]. eexists. split; [done|].
  apply validate_counts in Hn as [_ <-]. destruct (Z.eqb_spec n (Z.of_nat (length cases))); split; auto; lia.
Qed.

(** ** The tally *)
Definition tallied (t : tally) : Z :=
  tl_passed t + tl_wrong t + tl_unparseable t + tl_ambiguous t + tl_errors t.

(** A case whose tests cannot be read, after the compiler wrote a policy that parses. *)
Definition scored_badly (ca : dataset_case * attempt) : bool :=
  match at_output ca.2 with
  | Ok (Some source) => match score source (dc_tests ca.1) with Raise _ => true | Ok _ => false end
  | _ => false
  end.

Lemma evaluate_one_counts t case a :
  tallied (evaluate_one t case a) = tallied t + 1
  ∧ length (tl_durations (evaluate_one t case a))
    = (length (tl_durations t) + 1 + (if scored_badly (case, a) then 1 else 0))%nat.
Proof.
  unfold evaluate_one, scored_badly, tallied. cbn [fst snd].
  destruct (at_output a) as [[source|]|e]; [destruct (score source (dc_tests case)) as [[[] []]|e]|..];
    cbn; rewrite ?length_app; cbn [length]; split; lia.
Qed.

(** An evaluation counts each case once, as passed, wrong, unparseable, ambiguous or an
    error; and it keeps one duration a case, but two of a case whose policy could not be
    scored. *)
Theorem each_case_counted cases :
  let t := evaluate_cases no_tally cases in
  tallied t = Z.of_nat (length cases)
  ∧ length (tl_durations t) = (length cases + length (List.filter scored_badly cases))%nat.
Proof.
  assert (∀ t, tallied (evaluate_cases t cases) = tallied t + Z.of_nat (length cases)
    ∧ length (tl_durations (evaluate_cases t cases))
      = (length (tl_durations t) + (length cases + length (List.filter scored_badly cases)))%nat) as H.
  { induction cases as [|[case a] cases IH]; intros t; [cbn; split; lia|]. cbn [evaluate_cases length List.filter].
    destruct (evaluate_one_counts t case a) as [H1 H2]. destruct (IH (evaluate_one t case a)) as [-> ->].
    rewrite H1, H2. destruct (scored_badly (case, a)); cbn [length]; split; lia. }
  exact (H no_tally).
Qed.

(** A case of the tally is unparseable exactly when what was written does not parse. *)
Lemma unparseable_exactly t case a :
  tl_unparseable (evaluate_one t case a) = tl_unparseable t + 1
  ↔ ∃ source, at_output a = Ok (Some source) ∧ PolicySet_from_str source = None.
Proof.
  unfold evaluate_one, score.
  destruct (at_output a) as [[source|]|e]; [|cbn; split; [lia|by intros (? & ? & _)]..].
  destruct (PolicySet_from_str source) as [engine|] eqn:He; [|cbn; by split; eauto].
  split; [|intros (? & ? & ?); congruence].
  destruct (res_map _ _) as [cs|e]; cbn [mbind res_bind]; [|cbn; lia].
  destruct (ts_all_passed _); [cbn; lia|]. destruct (ts_failures _); cbn; lia.
Qed.

(** An evaluation of nothing fails on the division. *)
Lemma nothing_evaluated : evaluate [] = Raise ZeroDivisionError.
Proof. done. Qed.
End evaluation.

(** ** What is measured is what is deployed *)
Section harness.
Context {UN : Unicode} {ST : SortTies} {CA : Casing} {RT : Routing} {BL : BiscuitLib} {KEYS : Ed25519}
  {RP : PyRepr} {CD : Cedar} {DR DS RV : Type}.

Lemma perf_principal_deployed token : perf_principal_for token = principal_for [] (u "worker") token.
Proof.
  unfold perf_principal_for, principal_for, token_identity. by destruct (chain_identity token).
Qed.

(** The PEP the load test measures resolves each token's principal, and reads each
    token's caveats, as a service deployed without role assignments and with workers for a
    default does; without enforcement it has no pipeline at all. *)
Theorem harness_as_deployed env settings files point pool emitter settlement revocation drift ttl p
    mandate_id task_id sk key_set upstream enforce now app token :
  from_env env = Ok settings → ss_role_assignments_path settings = None →
  ss_default_role settings = u "worker" →
  build_service (RV := RV) (DR := DS) env files point pool emitter settlement revocation drift ttl = Ok p →
  build_app (DR := DR) mandate_id task_id sk key_set upstream enforce now = Ok (app, token) →
  if enforce
  then ∃ q, pa_pipeline app = Some q ∧ pl_key_set q = key_set
            ∧ (∀ t, pl_principal_for q t = pl_principal_for p t)
            ∧ (∀ t, pl_caveats_for q t = pl_caveats_for p t)
            ∧ pl_revocation q = mkInMemory ∅ None
  else pa_pipeline app = None.
Proof.
  intros He Hroles Hrole Hp Ha. unfold build_service in Hp. rewrite He in Hp. cbn [mbind res_bind] in Hp.
  rewrite Hroles in Hp. unfold build_app in Ha. inv_ok. cbn [pa_pipeline]. destruct enforce; [|done].
  eexists. split; [done|]. cbn [pl_key_set pl_principal_for pl_caveats_for pl_revocation].
  split_and!; [done| |done..]. intros t. rewrite perf_principal_deployed, Hrole.
  match goal with H : load_role_assignments _ = Ok ?r |- _ => by injection H as <- end.
Qed.
End harness.

(** ** Concrete runs *)
Section runs.
#[local] Existing Instance identity_unicode.
#[local] Existing Instance position_order.
#[local] Existing Instance ascii_casing.
#[local] Existing Instance prefix_routing.
#[local] Existing Instance toy_cedar.
#[local] Existing Instance toy_lib.
#[local] Existing Instance toy_repr.

Definition perf_now : datetime := DT (63900000000 * 1000000) true.

(** The harness starts, with and without enforcement. *)
Definition started (upstream : option pystr) (enforce : bool) : py (pystr * bool) :=
  r ← build_app (DR := unit) 1 2 7 (mkRootKeySet [7]) upstream enforce perf_now;
  Ok (pa_base_url r.1, match pa_pipeline r.1 with Some _ => true | None => false end).
Example harness_starts :
  started None true = Ok (u "http://tools", true) ∧ started (Some (u "http://t")) false = Ok (u "http://t", false).
Proof. split; vm_compute; reflexivity. Qed.

(** A policy that parses, against a test without a name: one case, two durations. *)
Definition nameless : dataset_row := mkRow None None None None None None None None None None.
Definition second (n : Z) : pyfloat := float_of_Z n.
Example counted_twice :
  let t := evaluate_cases no_tally
             [(mkCase (u "let them pay") (u "permit") [nameless],
               mkAttempt (Ok (Some (u "permit"))) (second 3) (second 4))] in
  tl_errors t = 1 ∧ tl_durations t = [second 3; second 4].
Proof. vm_compute. split_and!; reflexivity. Qed.

(** Loads at 100 requests a second: three runs, one of them 9 ms slower with enforcement. *)
Definition at_rate (rps p50 p99 : Z) : load := mkLoad (second rps) (second p50) (second p99).
Definition three_runs (attempt : Z) : tiers :=
  mkTiers (at_rate 100 1 2) (at_rate 100 2 3) (at_rate 99 3 (if attempt =? 2 then 12 else 5)).
Example slow_run_fails_the_rate :
  match measure_rate 3 three_runs 100, measure_rate 1 three_runs 100, measure_rate 1 three_runs 120 with
  | Ok p, Ok q, Ok r =>
      pf_meets_enforcement p = false ∧ sp_max (pf_enforcement p) = second 9 ∧ sp_min (pf_enforcement p) = second 2
      ∧ pf_meets_enforcement q = true ∧ pf_saturated r = true ∧ pf_meets_enforcement r = false
  | _, _, _ => False
  end.
Proof. vm_compute. split_and!; reflexivity. Qed.

Example server_waited_for :
  let down t := mkProbe t None NoAnswer in
  _wait_for 90 0 [down 0; down 30; mkProbe 60 None (Status 200)] = Some (Ok tt)
  ∧ _wait_for 90 0 [down 0; mkProbe 30 (Some 1) NoAnswer] = Some (Raise RuntimeError)
  ∧ _wait_for 90 0 [down 0; down 89; down 91] = Some (Raise RuntimeError).
Proof. done. Qed.
End runs.
