(* ===== verification/Generators.v ===== *)
(** * The generated documents (scripts/generate_chaos_results.py, generate_benchmark_results.py,
      generate_sbom.py, generate_evidence_pack.py)

    Documents rendered from committed JSON, the page they are folded into, and the check that
    the committed document is what would be rendered.  A document is its text; JSON is what
    [json.loads] makes of it.  In a literal [^] stands for a double quote.  How Python writes a
    container or a [float] is the interface [PyRepr] of CedarPolicy. *)
From Stdlib Require Import SpecFloat.
From S2P Require Import Prelude PyText Errors PyNum PyFloat PyTime PyRe PyUuid PySha PyUrl Models Hashing Caveats Tokens Decide Bundles CedarPolicy PolicyCache Extractor AuditChain Service Reports Measure.

(** ** Text *)
Definition tx (s : string) : pystr := utf8_decode_replace ((λ c, if c =? 94 then 34 else c) <$> u s).
Arguments tx s%_string.

Definition lines_text (lines : list pystr) : pystr := py_join [newline] lines.

(** [v[key]] and [v.get(key, default)]. *)
Definition at_key (v : value) (key : string) : py value :=
  match v with VMap kvs => payload_item kvs (u key) | _ => Raise TypeError end.
Definition get_key (v : value) (key : string) (dflt : value) : py value :=
  match v with VMap kvs => Ok (dict_get kvs (u key) dflt) | _ => Raise AttributeError end.
Definition items_of (v : value) : py (list value) :=
  match v with VSeq vs => Ok vs | _ => Raise TypeError end.

(** [f"{x:.kf}"]: the exact value to [k] places, halves to even. *)
Definition fixed (k : Z) (x : pyfloat) : pystr :=
  let text (s : bool) (n : Z) :=
    (if s then u "-" else []) ++ py_str_int (n / 10 ^ k) ++ u "."
    ++ (let f := py_str_int (n mod 10 ^ k) in repeat 48 (Z.to_nat k - length f) ++ f) in
  match x with
  | S754_nan => u "nan"
  | S754_infinity s => if s then u "-inf" else u "inf"
  | S754_zero s => text s 0
  | S754_finite s m e => text s (nearest_even (Z.pos m * 10 ^ k * 2 ^ Z.max 0 e) (2 ^ Z.max 0 (- e)))
  end.

Definition as_float (v : value) : py pyfloat :=
  match v with
  | VInt n => Ok (float_of_Z n)
  | VBool b => Ok (float_of_Z (if b then 1 else 0))
  | VFloat x => Ok x
  | _ => Raise TypeError
  end.

(** [{value:>7.3f}]. *)
Definition seven_three (v : value) : py pystr :=
  x ← as_float v;
  let t := fixed 3 x in Ok (repeat 32 (7 - length t) ++ t).

Section generators.
Context {RP : PyRepr}.

(** ** f-strings: literal text, and what is interpolated, in order *)
Inductive piece := T (s : string) | V (v : py value) | X (t : py pystr).
Definition piece_text (p : piece) : py pystr :=
  match p with T s => Ok (tx s) | V v => x ← v; py_str x | X t => t end.
Definition line (ps : list piece) : py pystr :=
  ts ← res_map piece_text ps; Ok (List.concat ts).
Definition lines (ls : list (list piece)) : py (list pystr) := res_map line ls.

(** ** generate_chaos_results.py *)
Record scenario := mkScenario { sc_id : string; sc_title : string; sc_expected : string; sc_in_scope : bool }.

#[local] Open Scope string_scope.
Definition SCENARIOS : list scenario :=
  [mkScenario "CH-1" "Kill Postgres for 30 s"
     "PEPs spend leases, then fail closed; recovery is clean; invariant holds" true;
   mkScenario "CH-2" "Kill Redis for 30 s" "revocation falls back to pull; leases unaffected" false;
   mkScenario "CH-3" "SIGKILL one PEP of three" "its lease strands <= TTL then reclaims; others unaffected" true;
   mkScenario "CH-4" "Partition PEP<->ledger" "bounded spend, then fail closed" true;
   mkScenario "CH-5" "500 ms latency on the ledger" "top-ups slow, decisions unaffected" false;
   mkScenario "CH-6" "Packet loss 10%" "retries with backoff; no double-spend" false;
   mkScenario "CH-7" "Clock skew +60 s on one PEP" "tolerance honoured; no spurious denials or expiries" false;
   mkScenario "CH-8" "Ollama down" "template fallback; no hot-path impact" true;
   mkScenario "CH-9" "Embedding service down" "strict scopes escalate, log-only allows" false;
   mkScenario "CH-10" "Rolling restart under load" "zero dropped requests; invariant holds" true;
   mkScenario "CH-11" "Postgres connection-pool exhaustion" "graceful 503; fail closed" false;
   mkScenario "CH-12" "Disk full on the audit ledger" "requests denied; alert raised" false].
#[local] Close Scope string_scope.

(** The runs' files, by stem in the order [sorted] lists them, each with what its JSON gives;
    [None]: there is no directory.  Each stem is there once. *)
Abbreviation chaos_results := (list (pystr * value)).
Definition load_results (dir : option (list (pystr * py value))) : py chaos_results :=
  match dir with
  | None => Ok []
  | Some files => res_map (λ f, v ← f.2; Ok (f.1, v)) files
  end.

(** [f"CH-{int(number):02d}"] of the text after the first hyphen. *)
Definition _key (scenario : string) : pystr :=
  let number := py_str_int (py_int (drop 3 (u scenario))) in
  u "CH-" ++ repeat 48 (2 - length number) ++ number.

(** [v == 0]. *)
Definition equals_zero (v : value) : bool :=
  match v with VInt n => n =? 0 | VBool b => negb b | VFloat x => float_eq x zero | _ => false end.

Definition _verdict (result : value) : py pystr :=
  invariant ← at_key result "invariant";
  violated ← at_key invariant "violated";
  if value_truthy violated then Ok (tx "**VIOLATED**") else
  held ← at_key invariant "held";
  Ok (if equals_zero held then tx "inconclusive — no sweep completed" else tx "held").

Definition _sidecar_cell (result : value) : py pystr :=
  inv ← at_key result "invariant";
  cell ← line [V (at_key inv "held"); T " held / "; V (at_key inv "violated"); T " violated"];
  unavailable ← at_key inv "unavailable";
  if value_truthy unavailable
  then more ← line [T " / "; V (at_key inv "unavailable"); T " unavailable"]; Ok (cell ++ more)
  else Ok cell.

Definition _format (v : value) : py pystr :=
  match v with
  | VMap kvs =>
      parts ← res_map (λ kv : pystr * value, line [T "`"; X (Ok kv.1); T "`: "; V (Ok kv.2)]) kvs;
      Ok (py_join (u ", ") parts)
  | VBool b => Ok (if b then u "yes" else u "no")
  | v => line [T "`"; V (Ok v); T "`"]
  end.

(** A heading, a bullet for each item, and a blank line; nothing for an empty list. *)
Definition bullets (heading : string) (v : value) (bullet : value → list piece) : py (list pystr) :=
  if value_truthy v
  then vs ← items_of v; bs ← lines (bullet <$> vs); Ok ([tx heading; []] ++ bs ++ [[]])
  else Ok [].

Definition measurement_rows (v : value) : py (list pystr) :=
  if value_truthy v
  then match v with
       | VMap kvs =>
           rows ← lines ((λ kv, [T "| `"; X (Ok kv.1); T "` | "; X (_format kv.2); T " |"]) <$> kvs);
           Ok ([tx "| Measurement | Value |"; tx "|---|---|"] ++ rows ++ [[]])
       | _ => Raise AttributeError
       end
  else Ok [].

(** [_format(reasons) or "—"]. *)
Definition reasons_cell (v : value) : py pystr :=
  t ← _format v; Ok match t with [] => tx "—" | t => t end.
Definition load_row (load : value) : py pystr :=
  latency ← at_key load "latency_ms";
  line [T "| "; V (at_key load "label"); T " | "; V (at_key load "sent"); T " | "; V (at_key load "ok");
        T " | "; V (at_key load "dropped"); T " | "; X (v ← at_key load "by_status"; _format v);
        T " | "; X (v ← at_key load "by_reason"; reasons_cell v);
        T " | "; V (at_key latency "p50"); T " | "; V (at_key latency "p99"); T " |"].
Definition load_rows (v : value) : py (list pystr) :=
  if value_truthy v
  then vs ← items_of v; rows ← res_map load_row vs;
       Ok ([tx "| Load | Sent | 2xx | Dropped | Statuses | Reason codes | p50 ms | p99 ms |";
            tx "|---|---|---|---|---|---|---|---|"] ++ rows ++ [[]])
  else Ok [].

Definition _detail (result : value) : py (list pystr) :=
  top ← lines
    [[]; [T "---"]; [];
     [T "## "; V (at_key result "scenario"); T " — "; V (at_key result "title")]; [];
     [T "**Expected:** "; V (at_key result "expected")]; [];
     [T "Run `"; V (at_key result "run_id"); T "` at `"; V (at_key result "started_at"); T "`, ";
      V (at_key result "duration_s"); T " s. Verdict: **"; V (at_key result "verdict"); T "**."]; []];
  inv ← at_key result "invariant";
  sidecar ← lines
    [[T "Invariant sidecar, sweeping every "; V (at_key inv "interval_s"); T " s: **"; V (at_key inv "samples");
      T " sweeps** — "; V (at_key inv "held"); T " held, "; V (at_key inv "violated"); T " violated, ";
      V (at_key inv "unavailable"); T " unavailable."]; []];
  violations ← at_key inv "violations";
  violated ← bullets "Violations:" violations (λ v, [T "- `"; V (Ok v); T "`"]);
  reasons ← at_key inv "unavailable_reasons";
  unavailable ← bullets "Sweeps that could not run:" reasons (λ v, [T "- `"; V (Ok v); T "`"]);
  measurements ← at_key result "measurements";
  measured ← measurement_rows measurements;
  loads ← at_key result "loads";
  loaded ← load_rows loads;
  timeline ← at_key result "timeline";
  timed ← bullets "Timeline:" timeline
            (λ entry, [T "- `"; X (t ← at_key entry "t_s"; seven_three t); T " s`  "; V (at_key entry "event")]);
  notes ← at_key result "notes";
  noted ← bullets "**Notes:**" notes (λ v, [T "- "; V (Ok v)]);
  Ok (top ++ sidecar ++ violated ++ unavailable ++ measured ++ loaded ++ timed ++ noted).

Definition find_result (results : chaos_results) (key : pystr) : option value :=
  snd <$> (snd <$> list_find (λ r, r.1 = key) results).

Definition scenario_row (results : chaos_results) (s : scenario) : py pystr :=
  match find_result results (_key (sc_id s)) with
  | None =>
      line [T "| "; T (sc_id s); T " | "; T (sc_title s); T " | "; T (sc_expected s); T " | — | ";
            T (if sc_in_scope s then "**not run**" else "not run — deferred (`PLAN.md` §21)"); T " |"]
  | Some result =>
      line [T "| "; T (sc_id s); T " | "; T (sc_title s); T " | "; T (sc_expected s); T " | ";
            X (_sidecar_cell result); T " | "; X (_verdict result); T " |"]
  end.

Definition extra_row (result : value) : py pystr :=
  line [T "| "; V (at_key result "scenario"); T " | "; V (at_key result "title"); T " | ";
        X (_sidecar_cell result); T " | "; X (_verdict result); T " |"].

Definition is_scenario (key : pystr) : bool := existsb (λ s, bool_decide (_key (sc_id s) = key)) SCENARIOS.

(** Results by key, in the order of the keys. *)
Definition by_key (results : chaos_results) : chaos_results := merge_sort key_le results.

Definition chaos_lines (header : pystr) (results : chaos_results) : py (list pystr) :=
  rows ← res_map (scenario_row results) SCENARIOS;
  let extra := List.filter (λ r : pystr * value, negb (is_scenario r.1)) (by_key results) in
  subs ← match extra with
         | [] => Ok []
         | _ =>
             rows ← res_map (λ r : pystr * value, extra_row r.2) extra;
             Ok ([[]; tx "Sub-scenarios — additional runs that probe one aspect of a scenario above:"; [];
                  tx "| Run | Title | Invariant sweeps | Verdict |"; tx "|---|---|---|---|"] ++ rows)
         end;
  details ← res_map (λ r : pystr * value, _detail r.2) (by_key results);
  Ok ([header; []; tx "## Summary"; [];
       tx "| ID | Scenario | Expected | Invariant sweeps | Verdict |"; tx "|---|---|---|---|---|"]
      ++ rows ++ subs ++ List.concat details ++ [[]]).
Definition CHAOS_HEADER : pystr := tx "<!--
  GENERATED FILE — do not edit.

  Regenerate with:  uv run python scripts/generate_chaos_results.py
  Source of truth:  docs/benchmarks/chaos/*.json, written by tests/chaos/ (T-052)
  Verify in CI:     uv run python scripts/generate_chaos_results.py --check
-->

# Chaos results

`PLAN.md` §13.2 defines twelve scenarios. **T-052 is scoped to five** — CH-1, CH-3, CH-4,
CH-8 and CH-10 (`ROADMAP.md` line 287); the other seven are deferred in `PLAN.md` §21 item
10, with ^nightly CI after submission^ as their resumption trigger. They are listed below as
*not run* rather than omitted, because a table showing five rows and no mention of the rest
reads as twelve passes to anyone skimming it.

The **invariant checker (T-016) runs as a sidecar throughout every scenario**, sweeping the
ledger on a timer. It records three outcomes per sweep, not two: *held*, *violated*, and
*unavailable* — the last being a sweep that could not run at all, which is the honest state
during CH-1, when Postgres is genuinely stopped. Folding ^unavailable^ into ^held^ would
report a green run for a database that was not there.

Every scenario runs against real Postgres in a container, a real biscuit chain, the real
Cedar engine, the real lease ledger and the real audit chain. Where a mechanism stands in
for the one `PLAN.md` names, or an expectation is not met, it says so in that scenario's
notes rather than in a footnote.
".

Definition chaos_render (results : chaos_results) : py pystr :=
  ls ← chaos_lines CHAOS_HEADER results; Ok (lines_text ls).

(** ** Writing a document, or checking the one that is committed *)

(** [read_text] reads every line end as a newline. *)
Fixpoint universal_newlines (s : pystr) : pystr :=
  match s with
  | [] => []
  | 13 :: 10 :: s => newline :: universal_newlines s
  | 13 :: s => newline :: universal_newlines s
  | c :: s => c :: universal_newlines s
  end.

(** The exit code and the document afterwards; [read] is how the check reads it. *)
Definition check_or_write (read : pystr → pystr) (check : bool) (rendered : pystr) (output : option pystr)
    : Z * option pystr :=
  if check then
    match output with
    | None => (1, None)
    | Some committed => (if bool_decide (read committed = rendered) then 0 else 1, Some committed)
    end
  else (0, Some rendered).

Definition chaos_main (check : bool) (dir : option (list (pystr * py value))) (output : option pystr)
    : py Z * option pystr :=
  match results ← load_results dir; chaos_render results with
  | Raise e => (Raise e, output)
  | Ok rendered => let '(code, output) := check_or_write universal_newlines check rendered output in (Ok code, output)
  end.
(** ** generate_benchmark_results.py *)
Definition OVERHEAD_BUDGET : pyfloat := float_of_Z 8.

Definition BENCH_HEADER : pystr := tx "<!--
  GENERATED FILE — do not edit.

  Regenerate with:  uv run python scripts/generate_benchmark_results.py
  Sources:          docs/benchmarks/pb2-breakdown.json   (uv run pytest -m perf)
                    docs/benchmarks/nfr2-load.json       (uv run python scripts/run_load_test.py)
  Verify in CI:     uv run python scripts/generate_benchmark_results.py --check
-->

# Performance

**NFR-1 and NFR-2 are different measurements and are never added together.** NFR-1 is the
authorization decision, in process, excluding all network I/O. NFR-2 is the proxy's
end-to-end overhead under load. `PLAN.md` §1.5: *^Python cannot proxy a request in under a
millisecond. It can evaluate an authorization decision in well under a millisecond. Always
report the two numbers separately, and label them.^*

No averages appear below. Every figure is a percentile or a median, per `PLAN.md` §13.1.
".

Definition _table (rows : list (list pystr)) (headers : list pystr) : list pystr :=
  [u "| " ++ py_join (u " | ") headers ++ u " |"; u "|" ++ List.concat (repeat (u "---|") (length headers))]
  ++ ((λ row, u "| " ++ py_join (u " | ") row ++ u " |") <$> rows) ++ [[]].

(** Sums and comparisons of the numbers JSON holds. *)
Definition num_add (a b : value) : py value :=
  match a, b with
  | VInt n, VInt m => Ok (VInt (n + m))
  | _, _ => x ← as_float a; y ← as_float b; Ok (VFloat (float_add x y))
  end.
(** [round(x)] of a number, to a whole one, halves to even. *)
Definition round_whole (v : value) : py Z :=
  match v with
  | VInt n => Ok n
  | VFloat S754_nan => Raise ValueError
  | VFloat (S754_infinity _) => Raise OverflowError
  | VFloat (S754_zero _) => Ok 0
  | VFloat (S754_finite s m e) =>
      let n := nearest_even (Z.pos m * 2 ^ Z.max 0 e) (2 ^ Z.max 0 (- e)) in Ok (if s then - n else n)
  | _ => Raise TypeError
  end.

Definition pb2_steps : list (string * string) :=
  [("extract", "step 1 — extract (route, args, digest)");
   ("verify", "step 2 — verify (biscuit signature)");
   ("caveats", "step 4 — caveats (4 clauses, Datalog)");
   ("token_authority", "step 4b — token authority (biscuit authorizer, depth 1)");
   ("policy", "step 5 — policy (Cedar)");
   ("record_hash", "step 10 — audit record hash");
   ("decide_total", "**`decide()` total — NFR-1**")].

Definition pb2_intro (data : value) : list (list piece) :=
    [[];
     [T "## NFR-1 — the authorization decision, in process"];
     [];
     [T "Budget: **p99 < 1 ms**. Measured "; V (at_key data "measured_at"); T "."];
     [];
     [T "Every step is the real implementation: a real biscuit chain, the real Cedar engine, real Datalog evaluation. The ledger and the audit sink are absent because they are off the hot path by construction — including them would measure the thing the design removed."];
     []].

Definition pb2_reading (total policy authority verify : value) (per_request : Z) : list (list piece) :=
    [[T "**NFR-1 holds**: `decide()` p99 is "; V (get_key total "p99_us" VNone); T " µs against a 1000 µs budget, and `PLAN.md` §17's R-2 trigger (2 ms, port to Rust) is not approached."];
     [];
     [T "Three things the breakdown says that a single number cannot:"];
     [];
     [T "- **Two steps are the decision.** Cedar at "; V (get_key policy "median_us" VNone); T " µs and the token's own Datalog at "; V (get_key authority "median_us" VNone); T " µs together account for almost all of a "; V (get_key total "median_us" VNone); T " µs median. Everything else inside `decide()` is single-digit microseconds."];
     [];
     [T "- **Enforcing the token costs about as much as the policy does, and buys more.** Step 4b evaluates every check in every block — the mandate's grant and every attenuation caveat — against a token that may have arrived from anywhere. It was absent until the manual test pass found that nothing on the PEP path called `authorize()`, so the "; V (get_key authority "median_us" VNone); T " µs is new cost against a budget that still has room, not a regression."];
     [];
     [T "- **`verify()` is the most expensive step and sits *outside* `decide()`** at "; V (get_key verify "median_us" VNone); T " µs median. Per-request in-process cost is verify + decide + extract, so roughly "; V (Ok (VInt per_request)); T " µs — that, not NFR-1 alone, is what bounds throughput."];
     [];
     [T "> An earlier figure of **~5 µs** was published for NFR-1 in `STATUS.md` and the T-019 commit. It is a real measurement of `decide()` with `FakePolicy`, a stub that returns one fixed verdict, and it therefore excludes the most expensive thing in the path. It is superseded here. `tests/unit/test_decision.py::TestNfr1` still measures the stubbed path and is still useful — it isolates everything *except* policy — but the number to quote is the one above."];
     []].

Definition pb2_row (steps : value) (s : string * string) : py (list pystr) :=
  step ← at_key steps s.1;
  median ← at_key step "median_us"; m ← py_str median;
  p99 ← at_key step "p99_us"; p ← py_str p99;
  Ok [tx s.2; m; p].
Definition has_key (v : value) (key : string) : py bool :=
  match v with VMap kvs => Ok (existsb (λ kv : pystr * value, bool_decide (kv.1 = u key)) kvs) | _ => Ok false end.
(** The rows of the steps that were measured. *)
Fixpoint pb2_rows (steps : value) (order : list (string * string)) : py (list (list pystr)) :=
  match order with
  | [] => Ok []
  | s :: order =>
      there ← has_key steps s.1;
      if there : bool then row ← pb2_row steps s; rows ← pb2_rows steps order; Ok (row :: rows)
      else pb2_rows steps order
  end.

Definition _render_pb2 (data : value) : py (list pystr) :=
  steps ← at_key data "steps";
  rows ← pb2_rows steps pb2_steps;
  intro ← lines (pb2_intro data);
  total ← get_key steps "decide_total" (VMap []);
  verify ← get_key steps "verify" (VMap []);
  policy ← get_key steps "policy" (VMap []);
  v ← get_key verify "median_us" (VInt 0);
  d ← get_key total "median_us" (VInt 0);
  vd ← num_add v d;
  extract ← get_key steps "extract" (VMap []);
  x ← get_key extract "median_us" (VInt 0);
  sum ← num_add vd x;
  per_request ← round_whole sum;
  authority ← get_key steps "token_authority" (VMap []);
  reading ← lines (pb2_reading total policy authority verify per_request);
  Ok (intro ++ _table rows [u "Step"; tx "median µs"; tx "p99 µs"] ++ reading).

Definition nfr2_intro (data : value) : list (list piece) :=
    [[];
     [T "## NFR-2 — proxy overhead under load"];
     [];
     [T "Budget: **p99 < 8 ms at 500 RPS, single instance**. Measured "; V (at_key data "measured_at"); T "."];
     [];
     [T "Three tiers at every rate, so each subtraction compares like with like:"];
     [];
     [T "1. the stub upstream alone, no PEP in the path;"];
     [T "2. the same request through the PEP with **no pipeline attached** (T-018 transport mode) — this is what a proxy hop costs on this host, and is not AgentIAM's doing;"];
     [T "3. through the enforcing PEP."];
     [];
     [T "**(3) - (2) is what authorization costs.** (2) - (1) is TCP and Python's HTTP stack."];
     [];
     [T "> **These figures predate a change to the harness, and understate it slightly.** NFR-2 is a claim about the *deployed* PEP's overhead, measured through `scripts/serve_pep.py`. The harness used to hardcode its policy principal and supply no caveat reader, while the deployed PEP read both out of the token's own block source (ADR-057) — so it was measuring less work than production does. The two compositions match as of ADR-062, and a unit test now compares them by behaviour so they cannot drift apart again. **The numbers below were taken before that**, and a re-measurement is owed."];
     [];
     [T "> **By how much, measured** (CPython 3.12, `agentiam_core.datalog`): one `token_identity()` or `token_caveats()` costs ~125 µs at chain depth 0, ~160 µs at depth 1, ~195 µs at depth 2 and ~227 µs at depth 3. The pipeline resolves the principal once per request and reads the caveats once, so a depth-3 request pays roughly **0.45 ms** beyond what tier 3 reports — against an 8 ms budget, and well inside the run-to-run spread the table already shows. **NFR-1 is unaffected**: the parse happens in the pipeline, not inside `decide()`, which is why the PB-2 breakdown above carries no such note."];
     [];
     [T "> The re-run is deliberately not folded into another ticket. It rewrites `pb2-breakdown.json` and `nfr2-load.json` together and has to happen on one host in one sitting, or the before/after comparison measures the hardware rather than the change."];
     []].

Definition nfr2_headers : list pystr :=
  tx <$> ["Target RPS"; "Runs"; "Achieved"; "① upstream p50/p99 ms"; "② +proxy p50/p99 ms"; "enforcement p50, median of runs"; "enforcement p99, min - max"].

Definition nfr2_range_note : list (list piece) :=
    [[T "The p99 column is a **range across runs**, not a single figure, because on this host it is not stable enough to quote as one. `PLAN.md` §13.1 asks for at least three runs with the variance reported; that requirement is the reason this is visible rather than a matter of which run got written down."];
     []].

(** [OVERHEAD_BUDGET] is written [8.0]. *)
Definition nfr2_unstable (profile enforce : value) (how_far : pystr) : list (list piece) :=
    [[T "At **"; V (at_key profile "target_rps"); T " RPS the enforcement p99 ranged "; V (at_key enforce "min"); T "-"; V (at_key enforce "max"); T " ms across "; V (at_key profile "runs"); T " runs**, which straddles NFR-2's "; T "8.0"; T " ms budget. The best run is comfortably inside it and the worst is "; X (Ok how_far); T ", so **the honest statement is that this host cannot establish the p99 either way** — the median run's p50 is the only figure here stable enough to quote. Something outside the request path is contributing tens of milliseconds intermittently: the generator, the three uvicorn processes and Postgres all share one machine, and the `generator_lag_ms` series in the JSON shows the harness itself stalling. Establishing NFR-2 properly needs the generator off-box."];
     []].

Definition nfr2_saturated (rates : pystr) (worst upstream_only : value) : list (list piece) :=
    [[T "⚠️ **The "; X (Ok rates); T " RPS profile(s) could not be offered on this host and the latencies in those rows are queueing artefacts, not service times.** At "; V (at_key worst "target_rps"); T " RPS the *stub upstream alone* — with no PEP in the path at all — achieved only "; V (at_key upstream_only "achieved_rps"); T " RPS at a p50 of "; V (ms ← at_key upstream_only "service_ms"; at_key ms "p50"); T " ms. The limit is the development machine running the generator and three uvicorn processes against each other on loopback, not anything in AgentIAM. Reported rather than dropped, because `PLAN.md` T-053 asks for the numbers actually obtained."];
     [];
     [T "**So NFR-2 is not yet demonstrated at its stated rate.** What has been measured is the enforcement cost at rates this host can serve, and the honest reading is in the row above the warning. Establishing the 500 RPS figure needs a machine that can generate it, or the generator moved off-box."];
     []].

(** [[x for x in l if f(x)]]. *)
Fixpoint res_filter {A} (f : A → py bool) (l : list A) : py (list A) :=
  match l with
  | [] => Ok []
  | x :: l => keep ← f x; rest ← res_filter f l; Ok (if keep : bool then x :: rest else rest)
  end.

(** A percentile of one tier's service time. *)
Definition service_ms (tiers : value) (tier p : string) : py value :=
  t ← at_key tiers tier; ms ← at_key t "service_ms"; at_key ms p.

Definition nfr2_row (profile : value) : py (list pystr) :=
  tiers ← at_key profile "tiers";
  target ← at_key profile "target_rps";
  saturated ← at_key profile "saturated";
  spread ← get_key profile "spread_ms" (VMap []);
  enforce ← get_key spread "enforcement_overhead_ms" (VMap []);
  enforce_p50 ← get_key spread "enforcement_overhead_p50_ms" (VMap []);
  let flag := if value_truthy saturated then " ⚠️"%string else EmptyString in
  let dash := VStr (tx "—") in
  lines
    [[T "**"; V (Ok target); T "**"; T flag];
     [V (get_key profile "runs" (VInt 1))];
     [V (pep ← at_key tiers "enforcing_pep"; at_key pep "achieved_rps")];
     [V (service_ms tiers "upstream_only" "p50"); T " / "; V (service_ms tiers "upstream_only" "p99")];
     [V (service_ms tiers "proxy_no_enforcement" "p50"); T " / "; V (service_ms tiers "proxy_no_enforcement" "p99")];
     [V (get_key enforce_p50 "median" dash)];
     [T "**"; V (get_key enforce "min" dash); T " - "; V (get_key enforce "max" dash); T "**"]].

(** The extremes of a profile's spread; 0 where there is none. *)
Definition extreme (profile : value) (which : string) : py pyfloat :=
  spread ← get_key profile "spread_ms" (VMap []);
  enforce ← get_key spread "enforcement_overhead_ms" (VMap []);
  v ← get_key enforce which (VInt 0);
  as_float v.
(** [max > OVERHEAD_BUDGET > min], of a profile the host could offer. *)
Definition straddles (profile : value) : py bool :=
  saturated ← at_key profile "saturated";
  if value_truthy saturated then Ok false else
  most ← extreme profile "max";
  if negb (float_lt OVERHEAD_BUDGET most) then Ok false else
  least ← extreme profile "min";
  Ok (float_lt least OVERHEAD_BUDGET).

Definition unstable_lines (profile : value) : py (list pystr) :=
  spread ← at_key profile "spread_ms";
  enforce ← at_key spread "enforcement_overhead_ms";
  most ← at_key enforce "max";
  m ← as_float most;
  over ← float_div m OVERHEAD_BUDGET;
  let how_far := if float_lt over (float_of_ratio false 3 2) then u "past it" else fixed 1 over ++ tx "× it" in
  lines (nfr2_unstable profile enforce how_far).

(** [max(saturated, key=...)]: the first of the greatest. *)
Fixpoint worst_of (best : value) (rate : pyfloat) (profiles : list value) : py value :=
  match profiles with
  | [] => Ok best
  | p :: profiles =>
      v ← at_key p "target_rps"; r ← as_float v;
      if float_lt rate r then worst_of p r profiles else worst_of best rate profiles
  end.

Definition is_saturated (profile : value) : py bool :=
  saturated ← at_key profile "saturated"; Ok (value_truthy saturated).
Definition saturated_lines (profiles : list value) : py (list pystr) :=
  saturated ← res_filter is_saturated profiles;
  match saturated with
  | [] => Ok []
  | first :: others =>
      rates ← res_map (λ p, v ← at_key p "target_rps"; py_str v) saturated;
      rate ← at_key first "target_rps"; r ← as_float rate;
      worst ← worst_of first r others;
      tiers ← at_key worst "tiers";
      upstream_only ← at_key tiers "upstream_only";
      lines (nfr2_saturated (py_join (u ", ") rates) worst upstream_only)
  end.

Definition _render_nfr2 (data : value) : py (list pystr) :=
  intro ← lines (nfr2_intro data);
  listed ← at_key data "profiles";
  profiles ← items_of listed;
  rows ← res_map nfr2_row profiles;
  note ← lines nfr2_range_note;
  straddling ← res_filter straddles profiles;
  unstable ← res_map unstable_lines straddling;
  saturated ← saturated_lines profiles;
  Ok (intro ++ _table rows nfr2_headers ++ note ++ List.concat unstable ++ saturated).

Definition reproduce : list (list piece) :=
    [[];
     [T "---"];
     [];
     [T "## How to reproduce"];
     [];
     [T "```"];
     [T "uv run pytest -m perf --benchmark-only          # NFR-1 and PB-2"];
     [T "uv run python scripts/run_load_test.py          # NFR-2, brings up its own Postgres"];
     [T "uv run python scripts/generate_benchmark_results.py"];
     [T "```"];
     [];
     [T "The load test starts its own database on an ephemeral port rather than using `make up`'s. On the development host a native Windows PostgreSQL shares port 5432 with the compose one and wins every connection, so a run against `localhost:5432` silently addresses the wrong database."];
     []].

(** Each source, if its file is there, with what its JSON gives. *)
Definition bench_render (pb2 nfr2 : option (py value)) : py pystr :=
  first ← match pb2 with Some data => d ← data; _render_pb2 d | None => Ok [] end;
  second ← match nfr2 with Some data => d ← data; _render_nfr2 d | None => Ok [] end;
  last ← lines reproduce;
  Ok (lines_text (BENCH_HEADER :: first ++ second ++ last)).

Definition bench_main (check : bool) (pb2 nfr2 : option (py value)) (output : option pystr)
    : py Z * option pystr :=
  match bench_render pb2 nfr2 with
  | Raise e => (Raise e, output)
  | Ok rendered => let '(code, output) := check_or_write universal_newlines check rendered output in (Ok code, output)
  end.

(** ** generate_sbom.py *)

(** *** [json.dumps(v, indent=2, sort_keys=True)]: everything outside ASCII is escaped *)
Definition json_char (c : Z) : pystr :=
  if c =? dquote then [backslash; dquote]
  else if c =? backslash then [backslash; backslash]
  else if c =? newline then [backslash; 110]
  else if c =? 13 then [backslash; 114]
  else if c =? 9 then [backslash; 116]
  else if c =? 8 then [backslash; 98]
  else if c =? 12 then [backslash; 102]
  else if (32 <=? c) && (c <? 127) then [c]
  else if c <? 65536 then backslash :: 117 :: hex4 c
  else let c := c - 65536 in
       (backslash :: 117 :: hex4 (55296 + c / 1024)) ++ backslash :: 117 :: hex4 (56320 + c mod 1024).
Definition json_quoted (s : pystr) : pystr := dquote :: (s ≫= json_char) ++ [dquote].

Definition indented (depth : nat) (open close : string) (items : list pystr) : pystr :=
  match items with
  | [] => u open ++ u close
  | _ =>
      let pad (d : nat) := newline :: repeat 32 (2 * d) in
      u open ++ pad (S depth) ++ py_join (u "," ++ pad (S depth)) items ++ pad depth ++ u close
  end.

(** The members of an object, in the order of their keys. *)
Definition member_text (kv : pystr * py pystr) : py pystr := t ← kv.2; Ok (json_quoted kv.1 ++ u ": " ++ t).
Fixpoint json_dumps (depth : nat) (v : value) : py pystr :=
  match v with
  | VNone => Ok (u "null")
  | VBool b => Ok (if b then u "true" else u "false")
  | VInt n => str_int n
  | VFloat _ => Ok (repr_text v)
  | VStr s => Ok (json_quoted s)
  | VSeq vs => items ← res_map (json_dumps (S depth)) vs; Ok (indented depth "[" "]" items)
  | VMap kvs =>
      members ← res_map member_text (merge_sort key_le ((λ kv, (kv.1, json_dumps (S depth) kv.2)) <$> kvs));
      Ok (indented depth "{" "}" members)
  | _ => Raise TypeError
  end.

(** *** What is made of cyclonedx-py's document *)

(** [sorted(l, key=lambda c: c[key])] where every key is text. *)
Definition keyed (key : string) (v : value) : py (pystr * value) :=
  k ← at_key v key;
  match k with VStr k => Ok (k, v) | _ => Raise TypeError end.
Definition sorted_by (key : string) (v : value) : py value :=
  vs ← items_of v; ks ← res_map (keyed key) vs; Ok (VSeq (merge_sort key_le ks).*2).

(** [d[key] = v] and [d.pop(key, None)]. *)
Definition set_field (kvs : list (pystr * value)) (key : string) (v : value) : list (pystr * value) :=
  dict_set kvs (u key) v.
Definition pop_field (kvs : list (pystr * value)) (key : string) : list (pystr * value) :=
  filter (λ kv, kv.1 ≠ u key) kvs.

Definition is_local_ref (ref : value) : py bool :=
  url ← get_key ref "url" (VStr []);
  match url with VStr url => Ok (starts_with (u "file://") url) | _ => Raise AttributeError end.

(** References into the checkout are dropped, and the key with the last of them. *)
Definition clean_component (component : value) : py value :=
  match component with
  | VMap kvs =>
      listed ← items_of (dict_get kvs (u "externalReferences") (VSeq []));
      refs ← res_filter (λ ref, is_local ← is_local_ref ref; Ok (negb is_local)) listed;
      Ok (VMap (match refs with
                | [] => pop_field kvs "externalReferences"
                | _ => set_field kvs "externalReferences" (VSeq refs)
                end))
  | _ => Raise AttributeError
  end.

(** [parsed]: the document [cyclonedx-py environment] wrote.  The components are cleaned where
    they are, so a document without the key gains an empty list. *)
Definition _generate_sbom (parsed : value) : py pystr :=
  match parsed with
  | VMap kvs =>
      listed ← items_of (dict_get kvs (u "components") (VSeq []));
      cleaned ← res_map clean_component listed;
      components ← sorted_by "bom-ref" (VSeq cleaned);
      dependencies ← sorted_by "ref" (dict_get kvs (u "dependencies") (VSeq []));
      t ← json_dumps 0 (VMap (set_field (set_field kvs "components" components) "dependencies" dependencies));
      Ok (t ++ [newline])
  | _ => Raise AttributeError
  end.

(** *** [main] *)
Inductive sbom_line := Refused | Wrote | UpToDate | NotChecked | OutOfDate.

Definition sbom_main (write force on_reference : bool) (rendered : pystr) (committed : option pystr)
    : Z * sbom_line * option pystr :=
  match committed with
  | None => (0, Wrote, Some rendered)
  | Some c =>
      if write && negb force && negb on_reference then (1, Refused, committed)
      else if write then (0, Wrote, Some rendered)
      else if bool_decide (universal_newlines c = rendered) then (0, UpToDate, committed)
      else if negb on_reference then (0, NotChecked, committed)
      else (1, OutOfDate, committed)
  end.

(** [platform.system()] and [platform.machine()]. *)
Definition _on_reference_platform (system machine : pystr) : bool :=
  bool_decide (system = u "Linux")
  && existsb (λ m, bool_decide (m = machine)) (u <$> ["x86_64"; "AMD64"; "amd64"]%string).
End generators.

(** ** generate_evidence_pack.py *)

(** ** The tables *)
#[local] Open Scope string_scope.
Definition _SPECS : list (string * string * string) :=
  [("01", "token-format", "Authority/attenuation block structure, money encoding, size limits");
   ("02", "caveat-language", "The 9 caveat types, Datalog compilation, check-if vs reject-if");
   ("03", "attenuation", "The narrows() partial order, the mint-time check, INV-1..INV-10");
   ("04", "lease-protocol", "All 7 ledger operations, safety/liveness argument, clock skew");
   ("05", "policy", "Cedar `PolicyEngine`, the NoDecision trap, bundle signing and rollback");
   ("06", "drift-detection", "Stateless intent binding, rule-based v0, f1/f2/f5 features");
   ("07", "revocation", "Token/subtree/mandate revocation as one mechanism, push+pull");
   ("08", "audit-chain", "The hash chain, serialized appends, head-truncation detection");
   ("09", "decision-record", "The 10-step pipeline and its precedence contract");
   ("10", "scope-extraction", "HTTP -> RequestContext, and where the PEP can disagree with the upstream about what a request means")].
Definition INVARIANTS : list (string * string * string * option string) :=
  [("INV-1", "Monotonicity", "Block facts are scoped and invisible to earlier blocks' checks; authority is the intersection over all blocks in the chain.", Some "P-01");
   ("INV-2", "Transitivity", "INV-1 applied inductively: each further attenuation can only shrink the intersection already established.", Some "P-02");
   ("INV-3", "Offline soundness", "Verification needs only the root public key and the token bytes -- no network, no database, no shared state.", Some "P-05");
   ("INV-4", "Non-forgeability", "Per-block Ed25519 signatures over the preceding chain. Verified: wrong key, a single flipped bit, and truncation are all rejected.", None);
   ("INV-5", "Budget subadditivity", "Not enforceable in-token by design -- siblings may each hold the full parent ceiling. Enforced dynamically by the lease ledger (spec 04).", Some "P-10");
   ("INV-6", "Depth bound", "current_depth = block_count - 1, computed by the verifier, never read from a block's own (attacker-writable) depth fact.", Some "P-06");
   ("INV-7", "Intent stability", "intent_hash is set once in the authority block; a later block's intent fact is invisible to the authority block's own check.", Some "P-07");
   ("INV-8", "Deny precedence", "Every check in every block must pass; any reject anywhere in the chain wins, regardless of any allow.", Some "P-09");
   ("INV-9", "Expiry contraction", "Every block's TimeWindow upper bound is a check that must pass, so the effective expiry is the minimum across the chain.", Some "P-08");
   ("INV-10", "No resurrection", "A token is revoked if any block id in its chain is in the revoked set, which gives subtree revocation for free.", Some "P-21")].
Definition BENCHMARKS : list (string * string * string) :=
  [("PB-1", "Pure decision latency, warm (pytest-benchmark)", "measured -- see NFR-1 in the Benchmarks section below (decide() against the real Cedar engine)");
   ("PB-2", "Per-step breakdown (verify / revocation / Datalog / Cedar / lease)", "measured -- see the step table below");
   ("PB-3", "End-to-end proxy overhead, 500 RPS (Locust-equivalent driver)", "not established at 500 RPS on this host -- see NFR-2 below (ADR-052)");
   ("PB-4", "Throughput per PEP instance, report the knee", "not measured -- needs the load generator off-box (ADR-052)");
   ("PB-5", "Latency vs token depth (1..8)", "not measured");
   ("PB-6", "Cedar vs OPA decision latency", "not measured -- OpaEngine is a stub (spec 05 §7); full OPA deferred (PLAN.md §21)");
   ("PB-7", "Ledger acquire throughput", "not measured");
   ("PB-8", "Top-up RPS vs lease sizing policy", "not measured -- adaptive lease sizing (T-015) is deferred (PLAN.md §21)");
   ("PB-9", "Revocation propagation time, 3 PEPs", "measured, not a committed benchmark artifact -- p99 ranged 11 us to 16 ms across 5 runs, loopback-only (T-039/T-040, ADR-044, ADR-045)");
   ("PB-10", "Drift scoring latency (cached vs cold)", "measured, not a committed benchmark artifact -- cold 14,244 ms; warm median 17.8 ms / p95 83.4 ms (ADR-037, spec 06 §4.1)");
   ("PB-11", "Memory under 10k revocations + 100 policies", "not measured");
   ("PB-12", "Cold start", "measured each CI run in the infrastructure job's step summary (T-001 budget: 90 s; observed ~69 s cold / ~16 s on CI), not committed as a file")].
Record attack := mkAttack {
  ak_id : string; ak_category : string; ak_description : string; ak_verdict : string; ak_tested_by : string }.
Definition RED_TEAM : list (attack) :=
  [mkAttack "A-01" "Token" "Forge a block without the parent key" "mitigated" "tests/security/test_redteam_suite.py";
   mkAttack "A-02" "Token" "Strip an attenuation block to widen authority" "mitigated" "tests/security/test_redteam_suite.py";
   mkAttack "A-03" "Token" "Reorder blocks" "mitigated" "tests/security/test_redteam_suite.py";
   mkAttack "A-04" "Token" "Splice blocks from two different tokens" "mitigated" "tests/security/test_redteam_suite.py";
   mkAttack "A-05" "Token" "Replay an expired token" "mitigated" "tests/security/test_redteam_suite.py";
   mkAttack "A-06" "Token" "Replay a valid token from a different agent" "accepted risk" "tests/security/test_redteam_suite.py (TM-01, bearer semantics)";
   mkAttack "A-07" "Token" "Algorithm-confusion / downgrade attempt" "mitigated" "tests/security/test_redteam_suite.py";
   mkAttack "A-08" "Token" "Oversized token as a DoS vector" "mitigated" "tests/security/test_redteam_suite.py";
   mkAttack "A-09" "Token" "Deeply nested chain (depth 100) as a DoS vector" "mitigated" "tests/security/test_redteam_suite.py";
   mkAttack "A-10" "Privilege escalation" "Sub-agent requests a scope its parent lacks" "mitigated" "tests/security/test_redteam_suite.py";
   mkAttack "A-11" "Privilege escalation" "Sub-agent spawns a sibling to route around its caveat" "mitigated" "tests/security/test_redteam_suite.py";
   mkAttack "A-12" "Privilege escalation" "Confused deputy" "partially mitigated" "tests/security/test_redteam_suite.py (TM-05, residual risk stated)";
   mkAttack "A-13" "Privilege escalation" "Depth-limit bypass via token re-minting" "mitigated" "tests/security/test_redteam_suite.py";
   mkAttack "A-14" "Privilege escalation" "Elevation replay after TTL" "mitigated" "tests/unit/test_escalation.py (not in T-051's named scope)";
   mkAttack "A-15" "Privilege escalation" "Self-approval of an escalation" "mitigated" "tests/unit/test_escalation.py (not in T-051's named scope)";
   mkAttack "A-16" "Privilege escalation" "Race the policy hot-reload window to slip through" "mitigated" "tests/unit/test_pep_policy_cache.py (not in T-051's named scope)";
   mkAttack "A-17" "Budget" "Sibling swarm: 20 concurrent sub-agents all spending" "mitigated" "tests/integration/test_redteam_suite.py";
   mkAttack "A-18" "Budget" "Reserve-then-never-commit to strand budget" "mitigated" "tests/integration/test_redteam_suite.py";
   mkAttack "A-19" "Budget" "Under-report actual to hide spend" "accepted risk" "no dedicated red-team test (spec 04 §14 pt.4, TM-23)";
   mkAttack "A-20" "Budget" "Rapid top-up loop as ledger DoS" "mitigated" "no dedicated red-team test (PLAN.md §12)";
   mkAttack "A-21" "Budget" "Negative or NaN amounts" "mitigated" "no dedicated red-team test (model validators, T-005)";
   mkAttack "A-22" "Budget" "Currency-unit confusion (paisa vs taka)" "mitigated" "no dedicated red-team test (single canonical unit at the type level, T-005)";
   mkAttack "A-23" "Prompt injection" "Injected instruction telling agent to exfiltrate" "mitigated" "tests/security/test_redteam_suite.py";
   mkAttack "A-24" "Prompt injection" "Injection redirects to a different task" "mitigated" "tests/security/test_redteam_suite.py";
   mkAttack "A-25" "Prompt injection" "Injection asks agent to spawn a wider sub-agent" "mitigated" "tests/security/test_redteam_suite.py";
   mkAttack "A-26" "Prompt injection" "Injection targeting the NL policy compiler" "mitigated" "tests/security/test_redteam_suite.py";
   mkAttack "A-27" "Prompt injection" "Slow-drift attack: 20 small steps, cumulatively off-task" "accepted risk" "threat-model.md TM-11 (no dedicated test; trajectory scoring is future work)";
   mkAttack "A-28" "Infrastructure" "Policy bundle rollback" "mitigated" "tests/security/test_redteam_suite.py";
   mkAttack "A-29" "Infrastructure" "Revocation suppression by blocking pub/sub" "mitigated" "tests/integration/test_redteam_suite.py";
   mkAttack "A-30" "Infrastructure" "Audit tampering" "mitigated" "tests/integration/test_redteam_suite.py";
   mkAttack "A-31" "Infrastructure" "Log injection via crafted role names" "mitigated" "tests/unit/test_caveats.py (Datalog layer) + test_secret_scanning.py";
   mkAttack "A-32" "Infrastructure" "Timing side channel on deny reasons" "partially mitigated" "no dedicated red-team test (PLAN.md §12, measured leak accepted)";
   mkAttack "A-33" "Infrastructure" "Secret exposure in error responses" "mitigated" "tests/security/test_secret_scanning.py"].
Definition _TM_CLOSED : list (string * string * string) :=
  [("TM-19", "A caveat that appears to enforce and does not (existential checks against grant facts)", "tests/security/test_redteam_suite.py::TestTM19ExistentialChecks...");
   ("TM-20", "Incomplete request context must never be constructible", "tests/security/test_redteam_suite.py::TestTM20IncompleteRequestContext...")].
Definition SECTION_IDS : list (string) :=
  ["architecture";
   "specs";
   "invariants";
   "benchmarks";
   "chaos";
   "security-scan";
   "red-team";
   "drift-model-card";
   "coverage-mutation";
   "audit-transcript";
   "threat-model";
   "ip-statement";
   "oss-traction"].
Definition _ARCHITECTURE_DIAGRAM : string :=
"+----------------------------------------------------------------------+
| CLIENT SIDE                                                          |
|                                                                        |
|  Reference agent (procurement)          agentiam-sdk (Python)        |
|    root agent --spawns--> sub-agents      . attenuate()              |
|         |                                 . spend context mgr        |
|         +-- all tool calls --------+      . escalate()               |
+---------------------------------------|-------------------------------+
                                        |
                                        v
+----------------------------------------------------------------------+
| DATA PLANE -- PEP (agentiam-pep)         [HOT PATH, must be fast]    |
|                                                                        |
|  1. extract token          (us)                                      |
|  2. verify biscuit chain   (us)   <- offline, public key only        |
|  3. check revocation       (us)   <- in-memory bloom + set           |
|  4. evaluate token Datalog (us)   <- biscuit authorizer               |
|  5. evaluate Cedar policy  (us)   <- in-process, cached bundle        |
|  6. drift check            (cached / async / inline-strict)          |
|  7. reserve from lease     (us)   <- local counter, no network       |
|  8. forward upstream       (network)                                  |
|  9. commit/refund actual   (us)                                      |
| 10. emit decision record   (async, buffered)                         |
+---------------+-------------------------------------------+-----------+
                | async: leases, revocation, records         | upstream
                v                                            v
+----------------------------------------------+  +----------------------+
| CONTROL PLANE (FastAPI services)              |  | TOOL SERVERS         |
|                                                |  | MCP servers,         |
|  issuance     -- mandates, root tokens        |  | internal APIs,       |
|  ledger       -- budgets, leases, invariant   |  | stub PSP             |
|  policy       -- Cedar bundles, versioning    |  +----------------------+
|  compiler     -- NL->Cedar + verifier         |
|  drift        -- embeddings + classifier      |
|  revocation   -- revoke, subtree, gossip      |
|  audit        -- hash-chained ledger          |
|  escalation   -- approval workflow            |
|                                                |
|  Postgres . Redis . Ollama . MinIO(opt)       |
+----------------------------------------------------------------------+
                |
                v
+----------------------------------------------------------------------+
| SURFACES & OBSERVABILITY                                             |
|  Admin console (FastAPI + Jinja2 + HTMX)                             |
|  OTEL Collector -> Tempo (traces) . Prometheus (metrics)             |
|  Grafana dashboards: decisions, budgets                              |
|  Keycloak (human OIDC)                                               |
+----------------------------------------------------------------------+
".
Definition _CSS : string :=
"
:root { color-scheme: light dark; }
body { font-family: -apple-system, ^Segoe UI^, Roboto, sans-serif; max-width: 68rem;
       margin: 0 auto; padding: 2rem 1.5rem 6rem; line-height: 1.5; }
header { border-bottom: 3px solid #444; padding-bottom: 1rem; margin-bottom: 2rem; }
h1 { margin-bottom: 0.25rem; }
h2 { border-top: 1px solid #888; padding-top: 1.5rem; margin-top: 2.5rem; }
nav ul { list-style: none; padding: 0; display: flex; flex-wrap: wrap; gap: 0.5rem 1rem; }
nav a { text-decoration: none; }
table { border-collapse: collapse; width: 100%; margin: 1rem 0; font-size: 0.92rem; }
th, td { border: 1px solid #999; padding: 0.4rem 0.6rem; text-align: left;
         vertical-align: top; }
th { background: rgba(128,128,128,0.15); }
pre { white-space: pre-wrap; word-break: break-word; background: rgba(128,128,128,0.08);
      padding: 1rem; border-radius: 4px; overflow-x: auto; font-size: 0.85rem; }
code { background: rgba(128,128,128,0.15); padding: 0.05rem 0.3rem; border-radius: 3px; }
.verdict { font-weight: 600; }
.verdict-accepted-risk { color: #b45309; }
.verdict-partially-mitigated { color: #b91c1c; }
.verdict-mitigated { color: #15803d; }
footer { margin-top: 3rem; padding-top: 1rem; border-top: 1px solid #888; font-size: 0.85rem;
         opacity: 0.8; }
".
#[local] Close Scope string_scope.

(** ** Escaping and layout *)

(** [html.escape(text, quote=True)], a character at a time. *)
Definition html_char (c : Z) : pystr :=
  if c =? 38 then u "&amp;"
  else if c =? 60 then u "&lt;"
  else if c =? 62 then u "&gt;"
  else if c =? 34 then u "&quot;"
  else if c =? 39 then u "&#x27;"
  else [c].
Definition _escape (text : pystr) : pystr := text ≫= html_char.

Definition _pre (text : pystr) : pystr := u "<pre>" ++ _escape text ++ u "</pre>".

(** A cell of the raw column is markup already. *)
Definition html_cell (raw_column : option nat) (i : nat) (cell : pystr) : pystr :=
  u "<td>" ++ (if bool_decide (raw_column = Some i) then cell else _escape cell) ++ u "</td>".
Definition html_row (raw_column : option nat) (row : list pystr) : pystr :=
  u "<tr>" ++ List.concat (imap (html_cell raw_column) row) ++ u "</tr>".
Definition html_table (headers : list string) (rows : list (list pystr)) (raw_column : option nat) : pystr :=
  u "<table><thead><tr>" ++ List.concat ((λ h, u "<th>" ++ _escape (tx h) ++ u "</th>") <$> headers)
  ++ u "</tr></thead><tbody>" ++ List.concat (html_row raw_column <$> rows) ++ u "</tbody></table>".

Definition _verdict_badge (verdict : pystr) : pystr :=
  tx "<span class=^verdict verdict-" ++ replace_char 32 (u "-") verdict ++ tx "^>" ++ _escape verdict ++ u "</span>".

Definition _section (anchor title : string) (body : pystr) : pystr :=
  tx "<section id=^" ++ tx anchor ++ tx "^><h2>" ++ _escape (tx title) ++ u "</h2>" ++ body ++ u "</section>".

(** ** The sections *)

Definition _render_architecture : pystr :=
  _section "architecture" "1. Architecture"
  (tx "<p>The one-sentence definition (<code>PLAN.md</code> §1.1): AgentIAM gives every AI agent and sub-agent its own cryptographic identity carrying a strictly narrower set of permissions and a bounded spend budget than its parent, enforced at the tool boundary in under a millisecond, with a complete chain of custody for every action taken.</p>"
  ++ _pre (tx _ARCHITECTURE_DIAGRAM)
  ++ tx "<p>Full component, sequence and deployment detail lives in <code>docs/PLAN.md</code> §3; the protocol specs below are the precise contract.</p>").

Definition _render_specs : pystr :=
  _section "specs" "2. Specifications"
  (tx "<p>Every spec was checked against a running <code>biscuit-python</code> or <code>cedarpy</code> before being written down -- each document's own §9/§13 section lists what was verified. All 10 specs `PLAN.md` names now exist.</p>"
  ++ html_table ["Spec"; "Covers"] ((λ s, [u "specs/" ++ tx s.1.1 ++ u "-" ++ tx s.1.2 ++ u ".md"; tx s.2]) <$> _SPECS) None).

Definition _render_invariants : pystr :=
  _section "invariants" "3. Formal invariants (INV-1..INV-10)"
  (tx "<p>The formal core of the paper: attenuation can only narrow authority. Source: <code>docs/specs/03-attenuation.md</code> §4 (mechanism) and §6 (property test mapping). The security boundary is biscuit's append-only block structure, not <code>narrows()</code> -- a <code>narrows()</code> bug produces a misleading token, not an over-privileged one.</p>"
  ++ html_table ["Invariant"; "Name"; "Mechanism"; "Property test"] ((λ i, [tx i.1.1.1; tx i.1.1.2; tx i.1.2;
       tx (default "(no numbered property test -- see T-007)" i.2)]) <$> INVARIANTS) None).

Definition _render_benchmarks (perf_md : pystr) : pystr :=
  _section "benchmarks" "4. Benchmarks"
  (tx "<p><code>PLAN.md</code> §13.1 names twelve benchmarks. Two are the headline numbers (NFR-1, NFR-2); the rest are reported honestly below rather than omitted -- a table with two rows and no mention of the other ten reads as ten passes to anyone skimming it.</p>"
  ++ html_table ["ID"; "Measurement"; "Status"] ((λ b, [tx b.1.1; tx b.1.2; tx b.2]) <$> BENCHMARKS) None
  ++ tx "<h3>Full performance report</h3>"
  ++ tx "<p>Regenerated by <code>scripts/generate_benchmark_results.py</code> from <code>docs/benchmarks/pb2-breakdown.json</code> and <code>docs/benchmarks/nfr2-load.json</code>; embedded verbatim below.</p>"
  ++ _pre (perf_md)).

Definition _render_chaos (chaos_md : pystr) : pystr :=
  _section "chaos" "5. Chaos results (CH-1..CH-12)"
  (tx "<p><code>PLAN.md</code> §13.2 names twelve chaos scenarios. T-052 is scoped to five (CH-1, CH-3, CH-4, CH-8, CH-10); the other seven are listed as deferred rather than omitted. The invariant checker (T-016) runs as a sidecar throughout every scenario. Regenerated by <code>scripts/generate_chaos_results.py</code> from the JSON each run writes; embedded verbatim below.</p>"
  ++ _pre (chaos_md)).

Definition _render_security_scan (sbom_line scan_md : pystr) : pystr :=
  _section "security-scan" "6. Security scanning and SBOM"
  (tx "<p>T-054: <code>bandit</code>, <code>pip-audit</code>, <code>trivy fs</code> and <code>gitleaks</code>, all clean or waived with a documented rationale, plus the log secret-scanning test that found and closed a real PII leak in shipped code (the NL compiler was logging an operator's policy statement verbatim). SBOM: "
  ++ sbom_line
  ++ tx "</p><p>Embedded verbatim from <code>docs/evidence/security-scan.md</code> below.</p>"
  ++ _pre (scan_md)).

(** How many attacks have a verdict. *)
Definition verdicts (verdict : string) : Z := count (λ a, bool_decide (ak_verdict a = verdict)) RED_TEAM.

Definition _render_red_team : pystr :=
  _section "red-team" "7. Red-team results (A-01..A-33)"
  (tx "<p><code>PLAN.md</code> §12 catalogues 33 attacks. <strong>"
  ++ py_str_int (verdicts "mitigated")
  ++ tx " mitigated, "
  ++ py_str_int (verdicts "partially mitigated")
  ++ tx " partially mitigated, "
  ++ py_str_int (verdicts "accepted risk")
  ++ tx " accepted risk(s)</strong> -- source: PLAN.md §12's own per-attack outcome line, cross-checked against the test files that exercise each one (ADR-048). A table claiming 33/33 mitigated would be marketing, not a threat model; stating the accepted risks and their bound is what makes the other rows believable.</p>"
  ++ html_table ["ID"; "Category"; "Attack"; "Verdict"; "Tested by"] ((λ a, [tx (ak_id a); tx (ak_category a); tx (ak_description a); _verdict_badge (tx (ak_verdict a));
       tx (ak_tested_by a)]) <$> RED_TEAM) (Some 3%nat)
  ++ tx "<h3>Two coverage gaps closed by T-051, additional to the 33</h3>"
  ++ tx "<p>Found by measurement rather than the original brainstormed catalogue (<code>threat-model.md</code> §6).</p>"
  ++ html_table ["ID"; "Gap"; "Tested by"] ((λ c, [tx c.1.1; tx c.1.2; tx c.2]) <$> _TM_CLOSED) None).

Definition _render_drift_model_card : pystr :=
  _section "drift-model-card" "8. Drift model card"
  (tx "<p><strong>Not built for this submission, stated plainly rather than implied.</strong> <code>PLAN.md</code> §14.1 item 7 asks for a drift model card -- dataset construction, a calibration curve, false-positive rate, failure analysis, and inter-annotator agreement (&kappa;). All of that presumes a trained classifier, and T-035 (the calibrated classifier) is deferred, coupled to T-034 (the &ge;2,000 labelled-pair dataset), which is itself deferred as weeks of irreducible human labelling (<code>ROADMAP.md</code> Part 1, <code>PLAN.md</code> §21).</p><p>What ships instead is a <strong>rule-based drift v0</strong> (<code>docs/specs/06-drift-detection.md</code>): cosine similarity between embedded task and action intent, thresholded, escalating rather than denying above 0.7. It gives the same demo experience (Beat 6: an injected instruction raises an escalation to a human) without a model that would need the deferred dataset to calibrate honestly.</p><p>What <em>is</em> measured, from T-033 (ADR-036, ADR-037, spec 06 §5): f1/f2/f5 feature behaviour on a small hand-built set of cases, including the finding that no embedding feature can catch a large amount-inflation attack (a 211x payment increase moved the semantic similarity by 0.0102, inside the noise between aligned cases) -- which is why f5, plain symbolic argument-overlap, exists at all. This is reported as a design finding, not as a calibrated model's evaluation, because it is not one.</p>").

Definition _render_coverage_and_mutation : pystr :=
  _section "coverage-mutation" "9. Coverage and mutation testing"
  (tx "<h3>Coverage</h3><p><code>agentiam-core</code> has held <strong>100% statement coverage</strong> since T-005 -- the rule `ENGINEERING-RULES.md` keeps deliberately. Across the whole tree, coverage is reported at roughly 98% (<code>agentiam-sdk</code> 89%, <code>agentiam-pep</code> 95-100% by module, <code>agentiam-controlplane</code> 86%), per <code>docs/STATUS.md</code> §1.</p><p><strong>That figure is reported, not gated.</strong> <code>pyproject.toml</code>'s <code>[tool.coverage.report]</code> carries no <code>fail_under</code>, and CI's <code>quality</code> job uploads <code>coverage.xml</code> as an artifact without asserting on it -- so there is no committed coverage number this script can fold without either running the whole suite itself (which this generator deliberately does not do; it renders from already-committed sources) or repeating a figure that has already drifted once before without CI noticing (<code>STATUS.md</code> gap 14, <code>agentiam-core</code> measured dropping to 96% during T-033 and was caught by hand). Reproduce with:</p><pre>make cov</pre><h3>Mutation testing</h3><p><strong>No <code>mutmut</code> run has been committed for this submission.</strong> <code>PLAN.md</code> §10.2 asks for a run against <code>attenuation.py</code> and <code>caveats.py</code> with a surviving-mutant rate under 10%; <code>ROADMAP.md</code> Part 1 explicitly reduces this to ^run once, keep the output as evidence^ rather than an iterated campaign. That single run has not happened yet (<code>docs/STATUS.md</code> §3 gap 4), and <code>mutmut</code> is not currently a project dependency. Listed here rather than silently omitted, because a table that only shows what passed and never mentions what was not run reads as more complete than it is.</p>").

Definition _render_audit_transcript : pystr :=
  _section "audit-transcript" "10. Audit-chain verification transcript"
  (tx "<p>Chain-of-custody -- <em>^the credit limit and chain of custody for AI agents^</em> -- rests on the hash chain in <code>docs/specs/08-audit-chain.md</code>. Tamper, deletion, reordering and head-truncation detection are each proven against a real Postgres instance in <code>tests/integration/test_audit_chain.py</code>, including the specific NFR-6 requirement that verification names the <strong>first</strong> inconsistent sequence number rather than only reporting ^invalid^.</p><p>This generator renders from already-committed files and assumes no live database, so it does not embed a fresh transcript here -- doing so would mean either running one of the destructive tamper tests against a real deployment's audit trail (not something a documentation build should ever do) or fabricating output that was not actually produced by a live chain (which this project's own standing rule -- ^never weaken a test to make it pass^, and by the same logic never manufacture evidence to make a report look complete -- rules out).</p><p>Reproduce a live transcript, including a deliberate tamper and its detection, against a real chain:</p><pre>make up
uv run python scripts/verify_audit_chain.py --json
# then tamper one record's body and re-run to see the first bad seq reported</pre>").

Definition _render_threat_model (text : pystr) : pystr :=
  _section "threat-model" "11. Threat model"
  (tx "<p>27 STRIDE threats, each with a mitigation, a status, and the test id that covers it -- 20 mitigated, 4 partially mitigated, 3 accepted risks. Six came out of implementation rather than brainstorming. Embedded verbatim from <code>docs/threat-model.md</code> below.</p>"
  ++ _pre (text)).

Definition _render_ip_statement : pystr :=
  _section "ip-statement" "12. IP and compliance statement"
  (tx "<p><code>PLAN.md</code> §14.4, the BIIN compliance statement:</p><ul><li><strong>&ge;51% of research, design and engineering performed in Bangladesh &rarr; 100%.</strong> Documented with commit history.</li><li><strong>IP ownership:</strong> all core code original and Apache-2.0, sole-authored. Dependencies are permissively licensed OSS. No proprietary black-box API anywhere in the enforcement core. All model weights used for the NL compiler and drift detection are open-weight; a self-hosted local backend (<code>AGENTIAM_LLM_BACKEND=ollama</code>) remains a config flip away, with hosted inference as the current prototype default for latency reasons (ADR-040, which states that trade openly rather than glossing it).</li></ul><p>This is the answer to the BIIN report's warning about teams that ^merely own the interface.^</p>").

Definition _render_oss_traction : pystr :=
  _section "oss-traction" "13. OSS traction"
  (tx "<p><strong>Not applicable -- pre-release.</strong> <code>PLAN.md</code> §21 and <code>ROADMAP.md</code> Part 1 both defer full OSS release (public traction, a verified quickstart, an example integration) to post-award, on the reasoning that community traction is a post-award activity and BIIN scores the demo and the technical report, not a publication. T-061's reduced scope for this submission is a public GitHub repository, an Apache-2.0 LICENSE, a README with an architecture overview and usage, and a recorded demo video -- no stars, forks or external users to report yet, and none claimed.</p>").

(** ** The page *)
Section page.
Context {RP : PyRepr}.

(** What the sources give: the rendered reports, and the files that are there. *)
Record pack_sources := mkPackSources {
  ps_pb2 : option (py value); ps_nfr2 : option (py value);
  ps_chaos : option (list (pystr * py value));
  ps_scan : option pystr; ps_sbom : option (py value); ps_threats : option pystr }.

(** What the page says of the SBOM is not escaped. *)
Definition sbom_sentence (sbom : option (py value)) : py pystr :=
  match sbom with
  | None => Ok (tx "SBOM not found -- run `make sbom` to generate it.")
  | Some sbom =>
      v ← sbom;
      version ← get_key v "specVersion" (VStr (u "?")); shown ← py_str version;
      listed ← get_key v "components" (VSeq []); components ← items_of listed;
      Ok (u "CycloneDX " ++ shown ++ u ", " ++ py_str_int (Z.of_nat (length components))
          ++ tx " components (see <code>docs/evidence/sbom.json</code>).")
  end.

Definition file_text (f : option pystr) : pystr := match f with Some t => universal_newlines t | None => [] end.

Definition nav_items : pystr :=
  List.concat (imap (λ n anchor, tx "<li><a href=^#" ++ tx anchor ++ tx "^>" ++ py_str_int (Z.of_nat (S n))
                                 ++ u "</a></li>") SECTION_IDS).

Definition page (sections : list pystr) : pystr :=
  tx "<!doctype html>
<html lang=^en^><head><meta charset=^utf-8^><title>AgentIAM Evidence Pack</title><style>"
  ++ tx _CSS
  ++ tx "</style></head><body><header><h1>AgentIAM &mdash; Evidence Pack</h1><p>Generated by <code>scripts/generate_evidence_pack.py</code> (T-055) &mdash; generated from sources committed in this repository. Every claim below is backed by a document or test already in this repository; see each section for its source. No network request is made or embedded anywhere on this page.</p><nav><ul>"
  ++ nav_items
  ++ tx "</ul></nav></header>"
  ++ List.concat sections
  ++ tx "<footer><p>AgentIAM &mdash; the credit limit and chain of custody for AI agents. BIIN submission evidence pack, generated from committed sources only.</p></footer></body></html>
".

Definition pack_sections (perf_md chaos_md sbom scan threats : pystr) : list pystr :=
  [_render_architecture; _render_specs; _render_invariants; _render_benchmarks perf_md; _render_chaos chaos_md;
   _render_security_scan sbom scan; _render_red_team; _render_drift_model_card; _render_coverage_and_mutation;
   _render_audit_transcript; _render_threat_model threats; _render_ip_statement; _render_oss_traction].

Definition pack_render (s : pack_sources) : py pystr :=
  perf_md ← bench_render (ps_pb2 s) (ps_nfr2 s);
  results ← load_results (ps_chaos s);
  chaos_md ← chaos_render results;
  sbom ← sbom_sentence (ps_sbom s);
  Ok (page (pack_sections perf_md chaos_md sbom (file_text (ps_scan s)) (file_text (ps_threats s)))).

(** The check compares the file's own line ends. *)
Definition pack_main (check : bool) (s : pack_sources) (output : option pystr) : py Z * option pystr :=
  match pack_render s with
  | Raise e => (Raise e, output)
  | Ok rendered => let '(code, output) := check_or_write (λ t, t) check rendered output in (Ok code, output)
  end.
End page.
