(* ===== verification/GeneratorsSpec.v ===== *)
(** * What the generated documents promise

    No result of a chaos run is left out, and a violation is never shown as held; the check
    passes on what was just written, and on nothing else; an SBOM does not depend on the order
    its tool lists packages in; and the markup of the evidence page does not depend on what is
    embedded in it, but for the one value that is not escaped. *)
From Stdlib Require Import SpecFloat Sorted.
From S2P Require Import Prelude PyText Errors PyNum PyFloat PyTime PyRe PyUuid PySha PyUrl Models Hashing HashingSpec Caveats Tokens Decide Bundles CedarPolicy PolicyCache PolicySpec Extractor ExtractorSpec AuditChain Service Reports Measure Generators.

(** ** Markup *)

(** The text between [<] and [>], these included, and whether a tag is open at the end. *)
Fixpoint markup (inside : bool) (s : pystr) : pystr * bool :=
  match s with
  | [] => ([], inside)
  | c :: s =>
      if inside then let '(m, b) := markup (negb (c =? 62)) s in (c :: m, b)
      else if c =? 60 then let '(m, b) := markup true s in (c :: m, b)
      else markup false s
  end.

Lemma markup_app s t b :
  markup b (s ++ t) = ((markup b s).1 ++ (markup (markup b s).2 t).1, (markup (markup b s).2 t).2).
Proof.
  revert b. induction s as [|c s IH]; intros b; [simpl; by destruct (markup b t)|].
  destruct b; simpl.
  - rewrite (IH (negb (c =? 62))). by destruct (markup _ s).
  - destruct (c =? 60); [|apply IH]. rewrite (IH true). by destruct (markup true s).
Qed.

(** Text that opens no tag. *)
Definition tagless (s : pystr) : Prop := Forall (λ c, c ≠ 60) s.
Lemma markup_tagless s : tagless s → markup false s = ([], false).
Proof. induction 1 as [|c s Hc _ IH]; [done|]. simpl. by destruct (Z.eqb_spec c 60). Qed.

Lemma tagless_app s t : tagless (s ++ t) ↔ tagless s ∧ tagless t.
Proof. apply Forall_app. Qed.

Lemma escape_tagless s : tagless (_escape s).
Proof.
  unfold _escape. induction s as [|c s IH]; [constructor|]. rewrite bind_cons. apply Forall_app. split; [|done].
  unfold html_char. repeat case_match; repeat constructor; try done; lia.
Qed.

(** Two texts with the same markup, both ending outside a tag. *)
Definition same_markup (s t : pystr) : Prop :=
  (markup false s).1 = (markup false t).1 ∧ (markup false s).2 = false ∧ (markup false t).2 = false.
Definition closed (s : pystr) : bool := negb (markup false s).2.

Lemma same_refl s : closed s = true → same_markup s s.
Proof. unfold closed. rewrite negb_true_iff. done. Qed.
Lemma same_app s s' t t' : same_markup s s' → same_markup t t' → same_markup (s ++ t) (s' ++ t').
Proof.
  intros (Hs & H1 & H2) (Ht & H3 & H4). unfold same_markup. rewrite !markup_app, H1, H2. cbn [fst snd].
  by rewrite Hs, Ht.
Qed.
Lemma same_tagless s t : tagless s → tagless t → same_markup s t.
Proof. intros Hs Ht. unfold same_markup. by rewrite !markup_tagless. Qed.
Lemma same_concat l l' : Forall2 same_markup l l' → same_markup (List.concat l) (List.concat l').
Proof. induction 1; [done|]. by apply same_app. Qed.

(** What is read from a file is embedded in a [<pre>]. *)
Lemma same_pre s t : same_markup (_pre s) (_pre t).
Proof.
  unfold _pre. repeat apply same_app; [by apply same_refl|apply same_tagless; apply escape_tagless|by apply same_refl].
Qed.
Lemma same_section a ti s t :
  closed (tx "<section id=^" ++ tx a ++ tx "^><h2>" ++ _escape (tx ti) ++ u "</h2>") = true →
  same_markup s t → same_markup (_section a ti s) (_section a ti t).
Proof.
  intros Hc H. unfold _section. rewrite !app_assoc.
  apply same_app; [|by apply same_refl]. apply same_app; [|done]. apply same_refl. by rewrite <- !app_assoc.
Qed.

(** Splits a text at its appends and computes the constant parts. *)
Ltac same_parts :=
  repeat match goal with
  | |- same_markup (_ ++ _) (_ ++ _) => apply same_app
  | |- same_markup (_pre _) (_pre _) => apply same_pre
  | |- same_markup ?s ?s => apply same_refl; vm_compute; reflexivity
  end.
Ltac constant_part := apply same_refl; vm_compute; reflexivity.
Ltac same_sections := apply same_section; [vm_compute; reflexivity|same_parts].

Lemma same_benchmarks s t : same_markup (_render_benchmarks s) (_render_benchmarks t).
Proof. unfold _render_benchmarks. same_sections. Qed.
Lemma same_chaos s t : same_markup (_render_chaos s) (_render_chaos t).
Proof. unfold _render_chaos. same_sections. Qed.
Lemma same_threats s t : same_markup (_render_threat_model s) (_render_threat_model t).
Proof. unfold _render_threat_model. same_sections. Qed.
Lemma same_security l l' s t :
  same_markup l l' → same_markup (_render_security_scan l s) (_render_security_scan l' t).
Proof. intros Hl. unfold _render_security_scan. same_sections. done. Qed.

Lemma same_page l l' : Forall2 same_markup l l' → same_markup (page l) (page l').
Proof. intros H. unfold page. same_parts. by apply same_concat. Qed.

Section pack.
Context {RP : PyRepr}.

(** The SBOM's version, as text; [?] when it has none. *)
Definition sbom_version (s : pack_sources) : py pystr :=
  match ps_sbom s with
  | None => Ok []
  | Some sbom => v ← sbom; version ← get_key v "specVersion" (VStr (u "?")); py_str version
  end.

Lemma int_tagless n : tagless (py_str_int n).
Proof.
  pose proof (py_str_int_chars n) as H. rewrite forallb_forall in H. apply Forall_forall.
  intros c Hc. apply list_elem_of_In, H in Hc. unfold int_char, is_digit in Hc. intros ->. discriminate Hc.
Qed.

(** What is said of an SBOM that is there. *)
Definition sbom_text (version : pystr) (n : nat) : pystr :=
  u "CycloneDX " ++ version ++ u ", " ++ py_str_int (Z.of_nat n)
  ++ tx " components (see <code>docs/evidence/sbom.json</code>).".
Lemma sbom_sentence_Ok s b l v :
  ps_sbom s = Some b → sbom_sentence (ps_sbom s) = Ok l → sbom_version s = Ok v → ∃ n, l = sbom_text v n.
Proof.
  unfold sbom_sentence, sbom_version. intros -> (x & -> & H)%bind_Ok_inv. cbn [mbind res_bind].
  apply bind_Ok_inv in H as (version & -> & H). cbn [mbind res_bind].
  apply bind_Ok_inv in H as (shown & -> & H). apply bind_Ok_inv in H as (listed & _ & H).
  apply bind_Ok_inv in H as (components & _ & H). apply Ok_inj in H. intros E%Ok_inj. subst.
  by exists (length components).
Qed.

Lemma same_sbom_text v v' n n' : tagless v → tagless v' → same_markup (sbom_text v n) (sbom_text v' n').
Proof.
  intros Hv Hv'. unfold sbom_text.
  same_parts; apply same_tagless; done || apply int_tagless.
Qed.

Lemma same_sbom_sentence s1 s2 l1 l2 v1 v2 :
  sbom_sentence (ps_sbom s1) = Ok l1 → sbom_sentence (ps_sbom s2) = Ok l2 →
  sbom_version s1 = Ok v1 → sbom_version s2 = Ok v2 → tagless v1 → tagless v2 →
  (is_Some (ps_sbom s1) ↔ is_Some (ps_sbom s2)) → same_markup l1 l2.
Proof.
  intros H1 H2 Hv1 Hv2 T1 T2 Hs. destruct (ps_sbom s1) as [b1|] eqn:E1.
  - assert (is_Some (ps_sbom s2)) as [b2 E2] by (apply Hs; by eexists).
    rewrite <- E1 in H1. eapply sbom_sentence_Ok in H1 as [n ->]; [|done..].
    eapply sbom_sentence_Ok in H2 as [n' ->]; [|done..]. by apply same_sbom_text.
  - destruct (ps_sbom s2) as [b2|]; [by destruct Hs as [_ [? [=]]]|].
    apply Ok_inj in H1, H2. subst. apply same_refl. vm_compute. reflexivity.
Qed.

(** The markup of the evidence page does not depend on what it embeds.  Two packs rendered
    from any measurements, chaos runs, scans and threat models have the same tags in the same
    order, if both have an SBOM or neither has, and neither SBOM's version, which is the one
    value not escaped, holds a less-than sign. *)
Theorem markup_fixed s1 s2 p1 p2 v1 v2 :
  pack_render s1 = Ok p1 → pack_render s2 = Ok p2 →
  (is_Some (ps_sbom s1) ↔ is_Some (ps_sbom s2)) →
  sbom_version s1 = Ok v1 → sbom_version s2 = Ok v2 → tagless v1 → tagless v2 →
  markup false p1 = markup false p2.
Proof.
  intros H1 H2 Hs Hv1 Hv2 T1 T2. unfold pack_render in H1, H2. inv_ok.
  assert (∀ s t, same_markup s t → markup false s = markup false t) as Heq.
  { intros s t (Hm & Hb & Hb'). destruct (markup false s), (markup false t). cbn in *. congruence. }
  apply Heq, same_page. unfold pack_sections.
  do 3 (constructor; [constant_part|]). constructor; [exact (same_benchmarks _ _)|].
  constructor; [exact (same_chaos _ _)|].
  constructor; [refine (same_security _ _ _ _ _); by eapply same_sbom_sentence|].
  do 4 (constructor; [constant_part|]). constructor; [exact (same_threats _ _)|].
  do 2 (constructor; [constant_part|]). constructor.
Qed.
End pack.

(** ** Writing, and then checking *)
Lemma universal_newlines_id s : 13 ∉ s → universal_newlines s = s.
Proof.
  induction s as [|c s IH]; intros H; [done|]. apply not_elem_of_cons in H as [Hc Hs]. cbn [universal_newlines].
  assert (universal_newlines s = s) as E by by apply IH.
  destruct c as [|c|c]; try by rewrite E. do 5 (destruct c as [c|c|]; try by rewrite E).
Qed.

Section checking.
Context {RP : PyRepr}.

(** The evidence check is exact.  It passes on the page that was just written and on no
    other text; it writes nothing; and without it the page is always the one the sources
    render to. *)
Theorem evidence_check_exact s output rendered :
  pack_render s = Ok rendered →
  pack_main false s output = (Ok 0, Some rendered)
  ∧ ∃ code, pack_main true s output = (Ok code, output)
            ∧ (code = 0 ∨ code = 1) ∧ (code = 0 ↔ output = Some rendered).
Proof.
  intros H. unfold pack_main. rewrite H. split; [done|]. cbn [check_or_write].
  destruct output as [c|]; [|exists 1; split_and!; auto; by split].
  destruct (bool_decide_reflect (c = rendered)) as [->|Hc]; eexists; (split; [done|]); split; auto.
  - by split.
  - split; [done|]. by intros [= ->].
Qed.

(** A document without carriage returns passes the other generators' check once written. *)
Theorem written_then_checked dir pb2 nfr2 output rendered results :
  13 ∉ rendered →
  (load_results dir = Ok results → chaos_render results = Ok rendered →
     chaos_main true dir (chaos_main false dir output).2 = (Ok 0, Some rendered))
  ∧ (bench_render pb2 nfr2 = Ok rendered →
     bench_main true pb2 nfr2 (bench_main false pb2 nfr2 output).2 = (Ok 0, Some rendered)).
Proof.
  intros Hr. split.
  - intros Hl Hc. unfold chaos_main. rewrite Hl. cbn [mbind res_bind]. rewrite Hc. cbn [check_or_write snd].
    by rewrite universal_newlines_id, bool_decide_true.
  - intros Hb. unfold bench_main. rewrite Hb. cbn [check_or_write snd].
    by rewrite universal_newlines_id, bool_decide_true.
Qed.

(** Their check also passes on a copy whose line ends were changed, which is not what would be
    written; the evidence pack's does not. *)
Theorem line_ends_unchecked rendered before after :
  rendered = before ++ newline :: after → 13 ∉ rendered →
  let copy := before ++ 13 :: newline :: after in
  (check_or_write universal_newlines true rendered (Some copy)).1 = 0
  ∧ (check_or_write (λ t, t) true rendered (Some copy)).1 = 1.
Proof.
  intros -> Hr copy. assert (universal_newlines copy = before ++ newline :: after) as E.
  { subst copy. clear -Hr. induction before as [|c b IH].
    - cbn [app universal_newlines]. f_equal. apply universal_newlines_id. by apply not_elem_of_cons in Hr as [_ Hr].
    - cbn [app] in Hr |- *. apply not_elem_of_cons in Hr as [Hc Hb].
      assert (∀ c s, c ≠ 13 → universal_newlines (c :: s) = c :: universal_newlines s) as Hd.
      { clear. intros c s H. cbn [universal_newlines]. destruct c as [|c|c]; try done.
        do 5 (destruct c as [c|c|]; try done). }
      rewrite Hd by congruence. by rewrite IH. }
  cbn [check_or_write fst]. rewrite E, bool_decide_true by done. split; [done|].
  rewrite bool_decide_false; [done|]. intros H%(f_equal length). subst copy.
  rewrite !length_app in H. cbn [length] in H. lia.
Qed.

(** ** Chaos results *)
Lemma res_map_all {A B} (f : A → py B) l k x :
  res_map f l = Ok k → x ∈ l → ∃ y, f x = Ok y ∧ y ∈ k.
Proof.
  intros H%res_map_Forall2 Hx. apply list_elem_of_lookup in Hx as [i Hi].
  eapply Forall2_lookup_l in H as (y & Hy & Hf); [|done]. exists y. split; [done|]. by eapply list_elem_of_lookup_2.
Qed.

(** The verdict on a run: held only if some sweep held and none was violated. *)
Lemma verdict_held result :
  _verdict result = Ok (tx "held") →
  ∃ inv violated held, at_key result "invariant" = Ok inv ∧ at_key inv "violated" = Ok violated
    ∧ at_key inv "held" = Ok held ∧ value_truthy violated = false ∧ equals_zero held = false.
Proof.
  unfold _verdict. intros (inv & Hi & (violated & Hv & H)%bind_Ok_inv)%bind_Ok_inv.
  destruct (value_truthy violated) eqn:Ev; [by apply Ok_inj, (f_equal length) in H|].
  apply bind_Ok_inv in H as (held & Hh & H). destruct (equals_zero held) eqn:Eh.
  - apply Ok_inj, (f_equal length) in H. vm_compute in H. discriminate H.
  - by exists inv, violated, held.
Qed.

(** Where the rows and the details are. *)
Lemma chaos_rows header results ls :
  chaos_lines header results = Ok ls →
  (∀ s, s ∈ SCENARIOS → ∃ row, scenario_row results s = Ok row ∧ row ∈ ls)
  ∧ (∀ k r, (k, r) ∈ results → is_scenario k = false → ∃ row, extra_row r = Ok row ∧ row ∈ ls)
  ∧ ∀ k r, (k, r) ∈ results → ∃ details, _detail r = Ok details ∧ details ⊆ ls.
Proof.
  unfold chaos_lines. intros (rows & Hrows & H)%bind_Ok_inv.
  apply bind_Ok_inv in H as (subs & Hsubs & (details & Hd & H)%bind_Ok_inv). apply Ok_inj in H. subst ls.
  assert (∀ x, x ∈ by_key results ↔ x ∈ results) as Hby.
  { intros x. unfold by_key. by rewrite (merge_sort_Permutation key_le results). }
  split; [|split].
  - intros s Hs. eapply res_map_all in Hs as (row & Hrow & Hin); [|exact Hrows].
    exists row. split; [done|]. rewrite !elem_of_app. by auto.
  - intros k r Hr Hk. apply Hby in Hr.
    assert ((k, r) ∈ List.filter (λ r : pystr * value, negb (is_scenario r.1)) (by_key results)) as Hf.
    { apply list_elem_of_In, filter_In. rewrite <- list_elem_of_In. cbn [fst]. by rewrite Hk. }
    destruct (List.filter _ _) as [|x l] eqn:Ex; [by apply elem_of_nil in Hf|].
    apply bind_Ok_inv in Hsubs as (more & Hm & H). apply Ok_inj in H. subst subs.
    eapply res_map_all in Hm as (row & Hrow & Hin); [|exact Hf]. exists row. split; [done|].
    rewrite !elem_of_app. by auto.
  - intros k r Hr. apply Hby in Hr. eapply res_map_all in Hd as (d & Hdet & Hin); [|exact Hr].
    exists d. split; [done|]. intros l Hl. rewrite !elem_of_app. do 3 right. left.
    apply list_elem_of_In, in_concat. exists d. by rewrite <- !list_elem_of_In.
Qed.

Lemma find_result_Some results k r :
  (k, r) ∈ results → NoDup results.*1 → find_result results k = Some r.
Proof.
  intros Hr Hnd. unfold find_result. apply list_elem_of_lookup in Hr as [i Hi].
  assert (list_find (λ r : pystr * value, r.1 = k) results = Some (i, (k, r))) as ->; [|done].
  apply list_find_Some. split_and!; [done|done|]. intros j [k' r'] Hj Hlt E. cbn [fst] in E. subst k'.
  assert (j = i) as ->; [|lia]. eapply NoDup_lookup; [exact Hnd|..]; rewrite list_lookup_fmap.
  - by rewrite Hj.
  - by rewrite Hi.
Qed.

(** Nothing a chaos run found is left out.  Each of the twelve scenarios has its row; each
    result has a row, its scenario's or one of its own, and all of its details; and a result
    with violations is shown as VIOLATED. *)
Theorem chaos_reports_everything header results ls :
  chaos_lines header results = Ok ls → NoDup results.*1 →
  (∀ s, s ∈ SCENARIOS → ∃ row, scenario_row results s = Ok row ∧ row ∈ ls)
  ∧ ∀ k r, (k, r) ∈ results →
      (∃ row, row ∈ ls ∧ (extra_row r = Ok row
                          ∨ ∃ s, s ∈ SCENARIOS ∧ _key (sc_id s) = k ∧ find_result results k = Some r
                                 ∧ scenario_row results s = Ok row))
      ∧ (∃ details, _detail r = Ok details ∧ details ⊆ ls)
      ∧ ∀ inv v, at_key r "invariant" = Ok inv → at_key inv "violated" = Ok v → value_truthy v = true →
          _verdict r = Ok (tx "**VIOLATED**").
Proof.
  intros (Hrows & Hextra & Hdetails)%chaos_rows Hnd. split; [done|]. intros k r Hr. split; [|split].
  - destruct (is_scenario k) eqn:Ek.
    + unfold is_scenario in Ek. apply existsb_exists in Ek as (s & Hs & Ek). apply bool_decide_eq_true in Ek.
      rewrite <- list_elem_of_In in Hs. destruct (Hrows s Hs) as (row & Hrow & Hin). exists row.
      split; [done|]. right. exists s. split_and!; try done. by apply find_result_Some.
    + destruct (Hextra k r Hr Ek) as (row & Hrow & Hin). exists row. auto.
  - by apply (Hdetails k).
  - intros inv v Hi Hv Ht. unfold _verdict. rewrite Hi. cbn [mbind res_bind]. rewrite Hv. cbn [mbind res_bind].
    by rewrite Ht.
Qed.
End checking.

(** ** The performance report *)
Section performance.
Context {RP : PyRepr}.

Lemma line_starts s ps l : line (T s :: ps) = Ok l → ∃ rest, l = tx s ++ rest.
Proof.
  unfold line. cbn [res_map piece_text mbind res_bind]. intros (ts & H & E)%bind_Ok_inv.
  apply bind_Ok_inv in H as (rest & _ & H). apply Ok_inj in H, E. subst. by exists (List.concat rest).
Qed.

(** Whatever was measured, the report says that NFR-1 holds. *)
Theorem nfr1_holds_whatever data ls :
  _render_pb2 data = Ok ls → ∃ rest, tx "**NFR-1 holds**: `decide()` p99 is " ++ rest ∈ ls.
Proof.
  unfold _render_pb2. intros H.
  repeat match goal with H : mbind _ _ = Ok _ |- _ => apply bind_Ok_inv in H as (? & ? & H) end.
  apply Ok_inj in H. subst ls.
  match goal with H : lines (pb2_reading _ _ _ _ _) = Ok ?r |- _ =>
    unfold lines, pb2_reading in H; apply bind_Ok_inv in H as (l & Hl & (more & _ & E)%bind_Ok_inv) end.
  apply Ok_inj in E. subst. apply line_starts in Hl as [rest ->]. exists rest.
  apply elem_of_app. right. apply elem_of_app. right. left.
Qed.

(** A rate is called unstable only if the host could offer it and its runs fall on both sides
    of the budget. *)
Lemma straddles_spec profile :
  straddles profile = Ok true →
  is_saturated profile = Ok false
  ∧ ∃ least most, extreme profile "min" = Ok least ∧ extreme profile "max" = Ok most
      ∧ float_lt least OVERHEAD_BUDGET = true ∧ float_lt OVERHEAD_BUDGET most = true.
Proof.
  unfold straddles, is_saturated. intros (s & -> & H)%bind_Ok_inv. cbn [mbind res_bind].
  destruct (value_truthy s); [done|]. split; [done|].
  apply bind_Ok_inv in H as (most & -> & H). destruct (float_lt OVERHEAD_BUDGET most) eqn:E; [|done].
  apply bind_Ok_inv in H as (least & -> & H). apply Ok_inj in H. by exists least, most.
Qed.
End performance.
